(* ===== verification/_CoqProject ===== *)
-Q . S2P
Prelude.v
StdMap.v
StdString.v
Ipv4Address.v
BufferIter.v
BufferWords.v
Buffer.v
Codec.v
BufferSpec.v
BufferCopy.v
BufferPool.v
LSMessage.v
DVMessage.v
TestAppMessage.v
Node.v
Triple.v
LSRouting.v
LSDijkstra.v
LSForwarding.v
LSProtocol.v
LSInvariant.v
LSFlood.v
DVRouting.v
DVBellmanFord.v
DVProtocol.v
DVInvariant.v
DVNetwork.v
DVConverge.v
DVStart.v
TestApp.v
StaticRouting.v
StaticSpec.v
Ipv4Stack.v
IpHeaderWire.v
StackSpec.v
ListRouting.v
ListSpec.v
AddressGenerator.v
AddressSpec.v
Configure.v
AddressPlan.v
PlanSpec.v
SimulatorMain.v
SimulatorSpec.v
TestResult.v
TestResultSpec.v
GlobalRouting.v
GlobalLsdb.v
GlobalSpf.v
GlobalPaths.v
GlobalTree.v
GlobalSpfSpec.v
GlobalSpfResult.v
GlobalRoutes.v
GlobalDiscovery.v
GlobalLinks.v
GlobalNetwork.v
GlobalForwarding.v
GlobalSegments.v
Scheduler.v
HeapScheduler.v
CalendarScheduler.v
EventSimulator.v
EventSimulatorSpec.v
