(* ===== verification/Prelude.v ===== *)
(** * Verification of the routing protocols of cs433 on ns-3

    The repository is ns-3 with a course project, src/ns-3/cs433/: two routing
    protocols written for the simulated nodes (link-state and
    distance-vector), their messages, and a ping application that tests them.
    This library models those programs, with the parts of ns-3 their headers
    and addresses are made of, and proves what makes them correct.  It also
    proves where they are not: the theorems that end in a fault or in lost
    state are about behaviour of the code as it stands.

    ** The program and its parts

    A node runs one LSRoutingProtocol or DVRoutingProtocol object.  Hello
    messages, broadcast periodically on every interface, tell a node its
    neighbours.  A link-state node floods its list of neighbours, keeps
    everyone's list in [m_lsTable] and computes its routes with Dijkstra's
    algorithm; a distance-vector node sends its vector of costs to its
    neighbours, keeps theirs in [m_neighborTable] and computes its routes with
    the Bellman-Ford equation.  Both answer pings and both serve the data
    plane, RouteInput and RouteOutput, from [m_routingTable].  Timers audit
    unanswered pings and silent neighbours.  Messages are ns-3 packet headers,
    written and read through [Buffer::Iterator].

    The program simulator-main.cc builds the network the protocols run in: it
    reads a topology, gives every node an IP stack whose routing protocol is a
    list, the cs433 protocol and behind it static routing, gives every link a
    network and every interface an address, tells the protocols the names of
    the addresses, and then schedules the commands of a script: commands to
    the nodes, and links and interfaces going down and up.  The IP stack
    notifies its routing protocol of every such change and asks it, for every
    packet sent or received, where the packet goes.  ns-3's own global routing
    computes the tables of all routers at once instead.  All of it happens in
    events, which the simulator takes from a scheduler in the order of time.

    Files, in dependency order, with what they model (paths under src/ns-3/):

    - Prelude: faults, the error monad [result], machine integers, shared
      lemmas and tactics.
    - StdMap, StdString: [std::map] in iteration order, and numbers as text
      (the C++ standard library's, as the sources use them).
    - Ipv4Address: src/node/ipv4-address.cc, ipv4-interface-address.cc.
    - BufferIter, BufferWords, Buffer, BufferSpec, BufferCopy, BufferPool:
      src/common/buffer.h, buffer.cc and the header operations of packet.cc:
      the iterator, its remaining integers and the IP checksum, the buffer,
      its contract, the copies and images of whole buffers, and the arrays
      buffers are made of (the interface [Allocator] of Buffer and the code
      that has it).
    - Codec: what the message headers share: strings, address/cost vectors.
    - LSMessage, DVMessage, TestAppMessage: cs433/*/*-message.cc.
    - Node: time and timers, the records of cs433/common, and the abstract
      classes Ipv4 and Ipv4RoutingProtocol; the monad [handler] of the
      protocols: a state, a fault, and the list of [action]s emitted (packets
      sent, routes handed out, rows printed), in order.
    - Triple: Hoare triples for handlers.
    - LSRouting: cs433/ls-routing-protocol/ls-routing-protocol.cc, one
      definition per member function.  LSDijkstra, LSForwarding, LSProtocol,
      LSInvariant and LSFlood prove its properties, LSFlood those of a network.
    - DVRouting: cs433/dv-routing-protocol/dv-routing-protocol.cc.
      DVBellmanFord, DVProtocol, DVInvariant, DVNetwork, DVConverge and DVStart
      prove its properties, the last three those of a network.
    - TestApp: cs433/test-app/test-app.cc.
    - StaticRouting: src/routing/static-routing/, the table entries and the
      protocol, an instance of [Ipv4RoutingProtocol].  StaticSpec proves its
      properties.
    - GlobalRouting: src/routing/global-routing/ipv4-global-routing.cc, the
      tables of global routing and their lookup.  GlobalLsdb, GlobalSpf:
      global-router-interface.h, candidate-queue.cc and
      global-route-manager-impl.cc there: the database of advertisements, the
      vertices and the manager that computes the routes of all routers.
      GlobalPaths defines shortest paths and the invariant of the calculation,
      GlobalSpfSpec proves that its steps keep it, GlobalTree is about the
      recursions over the tree, GlobalSpfResult and GlobalRoutes have the
      results.  GlobalDiscovery: global-router-interface.cc and
      src/helper/ipv4-global-routing-helper.cc, what routers learn from their
      devices, channels and bridges, and the calls that compute all routes.
      GlobalLinks is about the advertisements that point-to-point links lead
      to, GlobalNetwork about the calculation for all routers, GlobalForwarding
      about the packets that use the tables, GlobalSegments about shared
      channels.
    - Ipv4Stack: src/internet-stack/ipv4-interface.cc and ipv4-l3-protocol.cc,
      over any routing protocol; what goes up, what is sent on a device and
      what is dropped are [ip_action]s.  StackSpec proves what it does with
      static routing, and what bounds the journey of a packet.
    - IpHeaderWire: src/node/ipv4-header.cc, the header as bytes, and its
      relation to the header of Ipv4Stack.
    - ListRouting: src/routing/list-routing/, over any protocols, with the
      cs433 protocols as instances.  ListSpec proves its properties and takes a
      packet through the stacks of a whole network.
    - AddressGenerator: src/node/ipv4-address-generator.cc and
      src/helper/ipv4-address-helper.cc.  AddressSpec proves its properties.
    - Configure, AddressPlan: what the set-up in the function main of
      cs433/simulator-main.cc asks of a protocol (two classes), and that
      set-up.  PlanSpec proves its result.
    - SimulatorMain: the rest of cs433/simulator-main.cc: words, script,
      console, commands, operations on links.  SimulatorSpec proves its
      properties.
    - TestResult: cs433/common/test-result.cc, on a model of input streams.
      TestResultSpec proves when it judges a dump correct.
    - Scheduler: src/simulator/scheduler.h, an interface ([Scheduler]) and its
      contract ([EventQueue]), with list-scheduler.cc, the reference, and
      map-scheduler.cc.  HeapScheduler, CalendarScheduler: heap-scheduler.cc and
      calendar-scheduler.cc, with the proofs that they have the contract.
    - EventSimulator: src/simulator/default-simulator-impl.cc, event-id.cc and
      event-impl.cc, over any scheduler.  EventSimulatorSpec proves its
      properties from the contract.

    ** Conventions

    A [uint8_t], [uint16_t] or [uint32_t] is a [Z], and every operation that
    can leave the range is wrapped by [u8], [u16] or [u32].  An execution that
    is undefined or stops in the source is a [Fault]: a false NS_ASSERT, an
    iterator equal to end () that is dereferenced, an index out of range, a
    null pointer, an uninitialised read, NS_FATAL_ERROR, a division by zero, a
    loop that never ends ([Diverges]).  A member function
    that only reads is a function of the object's state; one that changes it
    is a [handler].  The state of an object is a record with the fields of the
    class, under their names.

    Not part of the model, because nothing the theorems speak of depends on
    it: log output, type registration (GetTypeId; the default attribute values
    are in the constructors), object reference counts, and printing other than
    the Print functions of the messages and the rows of the DUMP commands.

    ** The theorems

    - Buffer and messages: [buffer_refinement] (every sequence of buffer
      operations implements the operations on byte strings),
      [ls_packet_roundtrip], [dv_packet_roundtrip],
      [testapp_packet_roundtrip] (AddHeader and RemoveHeader are inverse on
      every message within the wire's bounds; a table message leaves its
      payload on the packet), and [ReadNtohU32_behind_zero_area].
      [buffer_concat], [buffer_image_roundtrip] and [copy_data] say what the
      operations on whole buffers do to the contents (appending buffers that
      share an array included), and [create_serves] that
      the free list gives every buffer an array of its own.
    - IPv4 header: [ipv4_header_roundtrip], and [checksum_detects]: what the
      checksum is for.
    - Addresses: [addr_roundtrip], [subnet_broadcast_spec] and
      [prefix_length_spec].
    - Dijkstra: [dijkstra_shortest_paths] compares the routing table with
      lengths of paths in the graph of the LS table, an independent inductive
      definition; [dijkstra_defined_iff_reachable] and
      [dijkstra_incomplete_fault] say when it runs into end ().
      [forwarding_delivers]: the tables of different nodes fit together.
    - Link-state handlers: [lsa_flooding], [own_lsa_accepted], [audits_spec],
      [ping_answered], [data_plane], [ls_runs_undefined]; [ls_invariant] holds
      after every sequence of events.
    - Link-state networks: [flooding_converges]: from any set of announcements
      under way, flooding ends, and ends with all nodes in agreement, unless a
      delivery faults, and when one does; [announcement_floods],
      [announcement_informed] and [announcement_backbone] say how it starts.
    - Bellman-Ford: [bellman_ford_spec] gives BellmanFord's result for every
      destination; [dv_advertisement] and [dv_vector_exchange] follow a vector
      to its receiver; [dv_invariant] holds after every sequence of events.
    - Distance-vector networks: [dv_network_sound] (no cost is ever too good,
      whatever is lost, duplicated or reordered), [dv_converges] (after [k]
      rounds of exchanges all distances up to [k] are exact),
      [dv_starts] (so it is from freshly started nodes, once hellos have been
      exchanged), [dv_forwarding_delivers]; [withdrawal_not_advertised] and
      [table_before_hello] are the two ways the protocol loses track.
    - Ping application: [app_invariant], [app_ping_answered], [app_traffic].
    - Static routing: [static_longest_prefix] (its lookup is longest-prefix
      matching by least metric), [static_connected], [static_route_input];
      [static_interface_changes] (notifications keep the table as a new object
      would have it), [static_address_comes_and_goes],
      [static_remove_address_skips].
    - Global routing: [spf_shortest_paths] (the tree of the calculation is that
      of all shortest walks in the graph of the advertisements, an inductive
      definition), [spf_calculate] (the calculation ends, leaves no vertex
      behind and makes exactly the routes that follow), [stub_default_route]
      (its short cut), [global_lookup_shortest] (what is looked up in the
      tables lies on a shortest path), [lookup_first], [delete_routes_ok].
    - Networks of global routing: [populate_routing_tables] (from the devices
      and channels of a network to the tables of all its routers),
      [recompute_routing_tables] (the same from tables of any content),
      [global_forwarding] (packets follow least-cost paths to their end);
      [transit_network] (the routers of a shared channel agree on a designated
      router and describe the channel alike); [parallel_links_gateway] and
      [router_behind_bridge] are two ways in which they go wrong.
    - IP stack: [static_routes_follow_interfaces] (the stack and static routing
      refine an abstract table through every sequence of operations on
      interfaces and addresses; without removals and host masks, its routes are
      the connected networks), [remove_address_first],
      [ttl_bounds_hops].
    - The data plane as a whole: [list_priorities], and [packet_delivered],
      where the routing tables of Dijkstra, the link-state protocol, the list
      and the stacks of all nodes on the way together deliver a packet.
    - Set-up: [allocation_is_a_set], [generator_range], and [start_names],
      which establishes what the network theorems assume of names and
      addresses.
    - Simulator: [tokenize_words], [malformed_time], [scan_delay],
      [link_operations].
    - Schedulers: [heap_scheduler_answers] and [calendar_scheduler_answers]
      (both answer as a sorted list does), [heap_remove_out_of_order] and
      [calendar_width_zero] (where they do not).
    - Event simulator, for programs that make only legal calls:
      [simulation_in_order] (events run in order, once, and none is lost),
      [event_id_expires] (what [IsExpired] and [GetDelayLeft]
      mean), [simulation_ends], [set_scheduler]; [heap_simulator_stops] and
      [context_schedule_past] are two ways to stop it; [timer_agrees] relates
      it to the timers of Node.
    - Checker of expected tables: [checker_neighbors] and [checker_routes] (the
      verdict on the tables of a node is right), [stale_route_accepted] and
      [next_line_ends].

    ** Bounds and fuel

    [Dijkstra_loop] runs [m_lsTable.size () - 1] times, as the source does;
    with an empty table the function faults before the subtraction matters.
    [show_go] prints a number below [10 ^ fuel]; 32-bit numbers have ten
    digits.  [GetPrefixLength_loop] runs at most 32 times, which
    [prefix_length_spec] proves enough.  [forward] and [dv_forward] follow
    next hops for a given number of links; their theorems give a number that
    is enough, the cost of the route or the distance; [packet_delivered] counts
    the hops of a packet the same way, below the TTL.  The generator's tables
    have 32 rows and its searches 32 rounds, as in the source.
    [NotifyInterfaceDown_loop] removes a route or moves on in every round and
    gets as many rounds as there are routes; [Tokenize_loop] takes a word off
    the text in every round and gets as many rounds as there are characters,
    which [tokenize_words] proves enough.  [next_line] has a round more than
    there are characters left, and [next_line_ends] shows that if these are
    not enough, the loop does not end.  [fold_carries] has two rounds, which
    [fold_carries_done] proves enough for a sum of 32 bits; [copy_zeroes] has a
    round for every byte.  [spf_loop] has a round for every advertisement,
    which [spf_shortest_paths] proves enough; [walk_tree],
    [ClearVertexProcessed] and [delete_vertex] get the number of vertices as
    the bound of their depth, which GlobalTree proves enough ([depth_rank]: a
    child is farther from the root than its parent).  A third round of
    [next_hops] would be the same as the second, and so on for ever.
    [FindDesignatedRouterForLink] and [AnotherRouterOnLink] call themselves
    once, without leave to do so again, as in the source.  The loops of the heap
    get a round for every element, more than it has levels, and the search of
    the calendar one for every bucket; [heap_scheduler_answers] and
    [calendar_scheduler_answers] include that this is enough.  [Run] takes the
    most events it may handle and tells whether it came to its end;
    [simulation_ends] gives a number that is enough.  [flooding_converges] bounds the number of deliveries
    by the messages under way and [F], the most messages one delivery sends,
    for every entry still to be learnt.  All other loops are over lists.  Costs: the distance-vector protocol
    gives up beyond 16, and [dv_converges] is about distances up to 16;
    link-state costs on the wire are [uint32_t], and [ls_ready] bounds the cost
    of a link by INT_MAX divided by the number of nodes, so that path costs
    stay below the sentinel INT_MAX and additions do not wrap.

    ** Parameters

    The fallback protocol of the data plane is any instance of the class
    [Ipv4RoutingProtocol], and the node's interfaces are a record [Ipv4]; both
    are abstract classes in the source, which StaticRouting and Ipv4Stack
    implement.  Devices are numbers, and what a stack asks of them (index, MTU,
    whether they are loopback, need ARP or do multicast) is the record
    [NodeEnv]; what global routing asks of them (node, channel, kind, bridge
    ports) is the record [NetDev].  What the events of a simulation do is the
    parameter [Notify] of EventSimulator.  What the
    set-up calls on a protocol is the class [Cs433Protocol], and what its proof
    needs of a protocol is the class [AttachedProtocol]; both have instances
    for static routing, for the cs433 protocols and for lists.  The
    buffer operations that allocate take [Create] as an argument with the
    interface [Allocator]; BufferPool implements it, with the unspecified bytes
    of new memory as a parameter.

    ** Not modelled

    - The readers of topology files and of command-line arguments, and the
      threads of the console: input and output of the program.
    - A node with both cs433 protocols in its list: the two have different
      types of state, and main never installs both.
    - Theorems about routes that global routing calculates through shared
      channels: [transit_network] says what is advertised about them, the
      definitions of GlobalSpf cover them, but the two defects of
      [next_hops] and of the assertion on the number of exits there make a
      general theorem false.
    - What a packet has beyond its buffer (metadata, tags, trailers), which no
      protocol reads; sockets, ICMP, ARP and transport protocols, which the
      protocols use through one call each.
    - The protocols do not run on the model of the simulator: their theorems
      hold for every order of events, which their timers and the channels
      determine in a simulation.
    - The ns-2 calendar scheduler, the simulator bound to the wall clock and the
      representation of times: variants of what is modelled, and arithmetic
      that only matters beyond 63 bits. *)

From Stdlib Require Export ZArith Lia Bool Ascii String.
From stdpp Require Export base tactics decidable option numbers strings list.
Export List.ListNotations.

#[export] Set Default Goal Selector "!".
#[global] Open Scope Z_scope.

Declare Scope ns3_scope.
Delimit Scope ns3_scope with ns3.
#[global] Open Scope ns3_scope.

(** ** Faults: the ways an execution of the C++ code stops being defined. *)

Inductive fault : Set :=
| AssertFailed    (* an NS_ASSERT of the debug build is false *)
| DerefEnd        (* an iterator equal to end () is dereferenced or erased *)
| OutOfRange      (* an index outside a vector or byte array *)
| NullDeref       (* a null Ptr<> is dereferenced *)
| UninitRead      (* an uninitialised local variable is read *)
| FatalError      (* NS_FATAL_ERROR *)
| DivisionByZero  (* an integer division by zero *)
| Diverges.       (* a loop that never ends *)

#[export] Instance fault_eq_dec : EqDecision fault.
Proof. solve_decision. Defined.

Inductive result (A : Type) : Type :=
| Ok (a : A)
| Fault (f : fault).
Arguments Ok {A} a.
Arguments Fault {A} f.

#[export] Instance result_eq_dec {A} `{EqDecision A} : EqDecision (result A).
Proof. solve_decision. Defined.

#[export] Instance result_ret : MRet result := fun A a => Ok a.
#[export] Instance result_bind : MBind result := fun A B k m =>
  match m with Ok a => k a | Fault f => Fault f end.
#[export] Instance result_fmap : FMap result := fun A B g m =>
  match m with Ok a => Ok (g a) | Fault f => Fault f end.

(** [o ?? f]: the value of [o], or fault [f]. *)
Definition or_fault {A} (o : option A) (f : fault) : result A :=
  match o with Some a => Ok a | None => Fault f end.
Infix "??" := or_fault (at level 65, no associativity) : ns3_scope.

(** NS_ASSERT. *)
Definition assert (b : bool) : result unit := if b then Ok tt else Fault AssertFailed.

(** A loop over a list whose body threads a state and may fault. *)
Fixpoint foldM {A B} (f : A -> B -> result A) (a : A) (l : list B) : result A :=
  match l with
  | [] => Ok a
  | b :: l' => a' ← f a b; foldM f a' l'
  end.

Definition is_ok {A} (m : result A) : bool := match m with Ok _ => true | Fault _ => false end.

Section result_lemmas.
Context {A B : Type}.
Implicit Types (m : result A) (k : A -> result B).

Lemma bind_Ok m k b : (m ≫= k) = Ok b <-> exists a, m = Ok a /\ k a = Ok b.
Proof. destruct m; unfold mbind; cbn; naive_solver. Qed.

Lemma bind_Fault m k f :
  (m ≫= k) = Fault f <-> m = Fault f \/ exists a, m = Ok a /\ k a = Fault f.
Proof. destruct m; unfold mbind; cbn; naive_solver. Qed.

Lemma or_fault_Ok (o : option A) f a : (o ?? f) = Ok a <-> o = Some a.
Proof. destruct o; cbn; naive_solver. Qed.

End result_lemmas.

Section foldM_lemmas.
Context {A B : Type}.

Lemma foldM_app (f : A -> B -> result A) a l1 l2 :
  foldM f a (l1 ++ l2) = (a' ← foldM f a l1; foldM f a' l2).
Proof.
  revert a; induction l1 as [|b l1 IH]; intros a; cbn; [done|].
  destruct (f a b); cbn; [apply IH|done].
Qed.

Lemma foldM_cons (f : A -> B -> result A) a b l :
  foldM f a (b :: l) = (a' ← f a b; foldM f a' l).
Proof. done. Qed.

(** Invariant rule for loops that do not fault. *)
Lemma foldM_inv (P : A -> Prop) (f : A -> B -> result A) l a a' :
  (forall x b y, b ∈ l -> P x -> f x b = Ok y -> P y) ->
  P a -> foldM f a l = Ok a' -> P a'.
Proof.
  revert a; induction l as [|b l IH]; intros a Hf Ha; [cbn; naive_solver|].
  rewrite foldM_cons. intros (x & Hx & Hl)%bind_Ok.
  eapply (IH x); [|by eapply Hf; [left|..]|done].
  intros; eapply Hf; [by right|..]; done.
Qed.

(** Progress and invariant together: every step is defined and keeps [P]. *)
Lemma foldM_total (P : A -> Prop) (f : A -> B -> result A) l a :
  (forall x b, b ∈ l -> P x -> exists y, f x b = Ok y /\ P y) ->
  P a -> exists a', foldM f a l = Ok a' /\ P a'.
Proof.
  revert a; induction l as [|b l IH]; intros a Hf Ha; cbn; [eauto|].
  destruct (Hf a b) as (x & -> & Hx); [left|done|].
  cbn. apply IH; [|done]. intros; apply Hf; [by right|done].
Qed.

(** The same with the processed prefix of the list visible to the invariant. *)
Lemma foldM_prefix (P : list B -> A -> Prop) (f : A -> B -> result A) l a :
  P [] a ->
  (forall l1 b l2 x, l = l1 ++ b :: l2 -> P l1 x -> exists y, f x b = Ok y /\ P (l1 ++ [b]) y) ->
  exists a', foldM f a l = Ok a' /\ P l a'.
Proof.
  intros Ha Hf. cut (forall l1 l2 x, l = l1 ++ l2 -> P l1 x ->
    exists a', foldM f x l2 = Ok a' /\ P l a'); [intros Hc; by apply (Hc [])|].
  intros l1 l2; revert l1; induction l2 as [|b l2 IH]; intros l1 x Hl Hx; cbn.
  - rewrite app_nil_r in Hl. subst. eauto.
  - destruct (Hf l1 b l2 x) as (y & -> & Hy); [done..|]. cbn.
    apply (IH (l1 ++ [b])); [by rewrite <- app_assoc|done].
Qed.

(** Invariant rule for loops that returned, with the processed prefix. *)
Lemma foldM_prefix_ok (P : list B -> A -> Prop) (f : A -> B -> result A) l a a' :
  P [] a ->
  (forall l1 b l2 x y, l = l1 ++ b :: l2 -> P l1 x -> f x b = Ok y -> P (l1 ++ [b]) y) ->
  foldM f a l = Ok a' -> P l a'.
Proof.
  intros Ha Hf. cut (forall l1 l2 x, l = l1 ++ l2 -> P l1 x -> foldM f x l2 = Ok a' -> P l a');
    [intros Hc; by apply (Hc [])|].
  intros l1 l2; revert l1; induction l2 as [|b l2 IH]; intros l1 x Hl Hx.
  - intros [= <-]. rewrite app_nil_r in Hl. by subst.
  - rewrite foldM_cons. intros (y & Hy & H)%bind_Ok. apply (IH (l1 ++ [b]) y); [|by eapply Hf|done].
    by rewrite <- app_assoc.
Qed.

Lemma foldM_ext (f g : A -> B -> result A) a l :
  (forall a b, f a b = g a b) -> foldM f a l = foldM g a l.
Proof.
  intros Hfg. revert a; induction l as [|b l IH]; intros a; cbn; [done|].
  rewrite Hfg. by destruct (g a b); cbn.
Qed.

(** A loop whose steps can only fault with [F] and that has a step that always
    does. *)
Lemma foldM_fault (F : fault) (f : A -> B -> result A) l a b :
  (forall a b f', f a b = Fault f' -> f' = F) -> b ∈ l -> (forall a, f a b = Fault F) ->
  foldM f a l = Fault F.
Proof.
  intros Hf Hb Hall. revert a; induction l as [|b' l IH]; intros a; [by apply not_elem_of_nil in Hb|].
  cbn. apply elem_of_cons in Hb as [<-|Hb]; [by rewrite Hall|].
  destruct (f a b') as [a'|f'] eqn:E; cbn; [by apply IH|]. by rewrite (Hf _ _ _ E).
Qed.

Lemma foldM_only (F : fault) (f : A -> B -> result A) l a f' :
  (forall a b f', f a b = Fault f' -> f' = F) -> foldM f a l = Fault f' -> f' = F.
Proof.
  intros Hf. revert a; induction l as [|b l IH]; intros a; cbn; [done|].
  intros [H|(x & _ & H)]%bind_Fault; eauto.
Qed.
End foldM_lemmas.

(** [res_inv] splits every hypothesis [(x ← m; k x) = Ok b] into its parts. *)
Ltac res_inv1 :=
  match goal with
  | H : Ok _ = Ok _ |- _ => injection H as H
  | H : Fault _ = Ok _ |- _ => discriminate H
  | H : Ok _ = Fault _ |- _ => discriminate H
  | H : mret _ = Ok _ |- _ => injection H as H
  | H : mbind _ _ = Ok _ |- _ => apply bind_Ok in H as (? & ? & H)
  | H : or_fault _ _ = Ok _ |- _ => apply or_fault_Ok in H
  end.
Ltac res_inv := repeat (res_inv1; simplify_eq/=).

(** Case analysis on the decisions of the goal only (not of an induction
    hypothesis), substituting the equations found. *)
Ltac case_goal :=
  match goal with
  | |- context [@decide ?P ?dec] =>
      let H := fresh in destruct_decide (@decide P dec) as H; simplify_eq; cbn
  end.

(** ** Fixed-width unsigned integers, as Z with the wrap-around written out. *)

Definition u8 (z : Z) : Z := z mod 2 ^ 8.
Definition u16 (z : Z) : Z := z mod 2 ^ 16.
Definition u32 (z : Z) : Z := z mod 2 ^ 32.
Definition u64 (z : Z) : Z := z mod 2 ^ 64.
Definition UINT32_MAX : Z := 2 ^ 32 - 1.
(** [std::numeric_limits<int>::max ()] *)
Definition INT_MAX : Z := 2 ^ 31 - 1.

Definition is_u8 (z : Z) : Prop := 0 <= z < 2 ^ 8.
Definition is_u16 (z : Z) : Prop := 0 <= z < 2 ^ 16.
Definition is_u32 (z : Z) : Prop := 0 <= z < 2 ^ 32.
Definition is_u64 (z : Z) : Prop := 0 <= z < 2 ^ 64.

#[export] Instance is_u8_dec z : Decision (is_u8 z).
Proof. unfold is_u8; apply _. Defined.
#[export] Instance is_u16_dec z : Decision (is_u16 z).
Proof. unfold is_u16; apply _. Defined.
#[export] Instance is_u32_dec z : Decision (is_u32 z).
Proof. unfold is_u32; apply _. Defined.

Lemma u8_range z : is_u8 (u8 z).
Proof. apply Z.mod_pos_bound; lia. Qed.
Lemma u16_range z : is_u16 (u16 z).
Proof. apply Z.mod_pos_bound; lia. Qed.
Lemma u32_range z : is_u32 (u32 z).
Proof. apply Z.mod_pos_bound; lia. Qed.
Lemma u8_small z : is_u8 z -> u8 z = z.
Proof. apply Z.mod_small. Qed.
Lemma u16_small z : is_u16 z -> u16 z = z.
Proof. apply Z.mod_small. Qed.
Lemma u32_small z : is_u32 z -> u32 z = z.
Proof. apply Z.mod_small. Qed.
Lemma u64_small z : is_u64 z -> u64 z = z.
Proof. apply Z.mod_small. Qed.

Lemma u32_add_u32 k x : is_u32 x -> is_u32 (k + x) -> u32 (k + u32 x) = k + x.
Proof. intros Hx Hk. by rewrite (u32_small x Hx), u32_small. Qed.

Create HintDb ns3.
#[export] Hint Resolve u8_range u16_range u32_range : ns3.
#[export] Hint Rewrite u8_small u16_small u32_small using (first [done | lia]) : ns3.

(** Linear arithmetic with division and modulo by constants. *)
Ltac dlia := Z.to_euclidean_division_equations; lia.

(** Reduce [uN]-goals to linear arithmetic over [mod]. *)
Ltac uint := unfold u8, u16, u32, is_u8, is_u16, is_u32, UINT32_MAX, INT_MAX in *; dlia.
