(* ===== verification/StdMap.v ===== *)
(** * StdMap: [std::map] as the routing code uses it

    A [std::map<K, V>] is the list of its pairs in iteration order, so a loop
    over the map is a loop over the list.  [find] returns the mapped value
    ([None] is [end ()]), [map_insert] keeps an existing entry
    ([std::map::insert]), [map_set] overwrites it ([m[k] = v]), [map_update]
    writes through an iterator and [map_erase] removes a key.  The
    representation invariant [map_wf] (strictly increasing keys) is kept by
    every operation, and two well-formed maps with the same lookups are
    equal. *)

From Stdlib Require Sorted.
Import Sorted(StronglySorted, SSorted_nil, SSorted_cons, StronglySorted_inv).
From S2P Require Import Prelude.

(** ** The key order: [operator <] of the key type *)

Class StdLess (K : Type) := std_less : K -> K -> bool.

Class StdLessSpec (K : Type) `{StdLess K} : Prop := {
  std_less_irrefl (a : K) : std_less a a = false;
  std_less_trans (a b c : K) :
    std_less a b = true -> std_less b c = true -> std_less a c = true;
  std_less_total (a b : K) :
    std_less a b = false -> std_less b a = false -> a = b
}.

#[export] Instance Z_less : StdLess Z := Z.ltb.
#[export] Instance Z_less_spec : StdLessSpec Z.
Proof. split; unfold std_less, Z_less; intros; lia. Qed.

(** [std::string]'s order is lexicographic on unsigned bytes. *)
#[export] Instance string_less : StdLess string := String.ltb.

Lemma string_compare_refl s : (s ?= s)%string = Eq.
Proof.
  induction s as [|c s IH]; cbn; [done|].
  unfold Ascii.compare. by rewrite N.compare_refl.
Qed.

Lemma string_compare_lt_trans a b c :
  (a ?= b)%string = Lt -> (b ?= c)%string = Lt -> (a ?= c)%string = Lt.
Proof.
  revert b c; induction a as [|x a IH]; intros [|y b] [|z c]; cbn; try done.
  unfold Ascii.compare.
  destruct (N.compare_spec (N_of_ascii x) (N_of_ascii y)) as [Exy|Lxy|Gxy];
    destruct (N.compare_spec (N_of_ascii y) (N_of_ascii z)) as [Eyz|Lyz|Gyz];
    intros; try done.
  - rewrite Exy, Eyz, N.compare_refl. eauto.
  - rewrite Exy. by rewrite (proj2 (N.compare_lt_iff _ _) Lyz).
  - rewrite <- Eyz. by rewrite (proj2 (N.compare_lt_iff _ _) Lxy).
  - assert (N_of_ascii x < N_of_ascii z)%N as -> % N.compare_lt_iff by lia. done.
Qed.

#[export] Instance string_less_spec : StdLessSpec string.
Proof.
  split; unfold std_less, string_less, String.ltb.
  - intros a. by rewrite string_compare_refl.
  - intros a b c. destruct (a ?= b)%string eqn:Hab; try done.
    destruct (b ?= c)%string eqn:Hbc; try done. by rewrite (string_compare_lt_trans a b c).
  - intros a b. rewrite (String.compare_antisym b a).
    destruct (a ?= b)%string eqn:Hab; cbn; try done.
    intros _ _. by apply String.compare_eq_iff.
Qed.

(** ** Operations *)

Notation stdmap K V := (list (K * V)).

Section operations.
Context {K V : Type} `{EqDecision K} `{StdLess K}.
Implicit Types (m : stdmap K V) (k : K) (v : V).

Fixpoint map_find k m : option V :=
  match m with
  | [] => None
  | (k', v') :: m' => if decide (k = k') then Some v' else map_find k m'
  end.

Fixpoint map_set k v m : stdmap K V :=
  match m with
  | [] => [(k, v)]
  | (k', v') :: m' =>
      if decide (k = k') then (k, v) :: m'
      else if std_less k k' then (k, v) :: m
      else (k', v') :: map_set k v m'
  end.

Definition map_insert k v m : stdmap K V :=
  match map_find k m with Some _ => m | None => map_set k v m end.

Fixpoint map_update k (f : V -> V) m : stdmap K V :=
  match m with
  | [] => []
  | (k', v') :: m' => if decide (k = k') then (k', f v') :: m' else (k', v') :: map_update k f m'
  end.

Definition map_erase k m : stdmap K V := filter (fun p => p.1 <> k) m.

Definition map_keys m : list K := m.*1.

(** The representation invariant. *)
Definition map_wf m : Prop :=
  StronglySorted (fun p q => std_less p.1 q.1 = true) m.
End operations.

(** ** Lookup lemmas: no invariant needed *)

Section lookup.
Context {K V : Type} `{EqDecision K} `{StdLess K}.
Implicit Types (m : stdmap K V) (k : K) (v : V).

Lemma map_find_nil k : map_find k ([] : stdmap K V) = None.
Proof. done. Qed.

Lemma map_find_set k k' v m :
  map_find k' (map_set k v m) = if decide (k = k') then Some v else map_find k' m.
Proof.
  induction m as [|[k1 v1] m IH]; cbn; [repeat case_goal; done|].
  destruct (decide (k = k1)) as [->|Hne]; cbn; [repeat case_goal; done|].
  destruct (std_less k k1); cbn; [repeat case_goal; done|].
  case_goal; [by case_goal|apply IH].
Qed.

Lemma map_find_set_eq k v m : map_find k (map_set k v m) = Some v.
Proof. rewrite map_find_set. by case_decide. Qed.

Lemma map_find_set_ne k k' v m :
  k <> k' -> map_find k' (map_set k v m) = map_find k' m.
Proof. intros. rewrite map_find_set. by case_decide. Qed.

Lemma map_find_insert k k' v m :
  map_find k' (map_insert k v m) =
    if decide (k = k') then Some (default v (map_find k m)) else map_find k' m.
Proof.
  unfold map_insert. destruct (map_find k m) eqn:E.
  - case_decide; by subst.
  - by rewrite map_find_set.
Qed.

Lemma map_find_update k k' f m :
  map_find k' (map_update k f m) =
    if decide (k = k') then f <$> map_find k m else map_find k' m.
Proof.
  induction m as [|[k1 v1] m IH]; cbn; [by case_goal|].
  destruct (decide (k = k1)) as [->|Hne]; cbn; [by repeat case_goal|].
  destruct (decide (k' = k1)) as [->|Hne']; [by case_goal|done].
Qed.

Lemma map_find_erase k k' m :
  map_find k' (map_erase k m) = if decide (k = k') then None else map_find k' m.
Proof.
  unfold map_erase. induction m as [|[k1 v1] m IH]; [by case_goal|].
  rewrite filter_cons; cbn [fst].
  destruct (decide (k1 <> k)) as [Hne|<-%dec_stable]; cbn.
  - rewrite IH. by repeat case_goal.
  - rewrite IH. by repeat case_goal.
Qed.

Lemma map_find_elem k v m : map_find k m = Some v -> (k, v) ∈ m.
Proof.
  induction m as [|[k1 v1] m IH]; cbn; [done|].
  case_decide; subst; [intros [= ->]; left|right; auto].
Qed.

Lemma map_find_None k m : map_find k m = None <-> k ∉ map_keys m.
Proof.
  unfold map_keys. induction m as [|[k1 v1] m IH]; cbn; [split; [intros _; apply not_elem_of_nil|done]|].
  rewrite not_elem_of_cons. case_decide; naive_solver.
Qed.

Lemma map_find_is_Some k m : is_Some (map_find k m) <-> k ∈ map_keys m.
Proof.
  unfold is_Some. destruct (map_find k m) eqn:E.
  - split; [|eauto]. intros _. apply map_find_elem in E.
    unfold map_keys. apply list_elem_of_fmap. by exists (k, v).
  - apply map_find_None in E. naive_solver.
Qed.

Lemma map_elem_keys k v m : (k, v) ∈ m -> k ∈ map_keys m.
Proof. intros. apply list_elem_of_fmap. by exists (k, v). Qed.

Lemma map_insert_find_None k v m :
  map_find k m = None -> map_insert k v m = map_set k v m.
Proof. unfold map_insert. by intros ->. Qed.

Lemma map_insert_find_Some k v v' m :
  map_find k m = Some v' -> map_insert k v m = m.
Proof. unfold map_insert. by intros ->. Qed.

Lemma map_erase_None k m : map_find k m = None -> map_erase k m = m.
Proof.
  unfold map_erase. induction m as [|[k1 v1] m IH]; [done|]. cbn [map_find].
  destruct (decide (k = k1)); [done|]. intros Hm. rewrite filter_cons, decide_True by (cbn; congruence).
  by rewrite IH.
Qed.

Lemma map_keys_update k f m : map_keys (map_update k f m) = map_keys m.
Proof.
  unfold map_keys. induction m as [|[k1 v1] m IH]; cbn; [done|].
  case_decide; cbn; congruence.
Qed.
End lookup.

(** ** The representation invariant *)

Section invariant.
Context {K V : Type} `{EqDecision K} `{StdLessSpec K}.
Implicit Types (m : stdmap K V) (k : K) (v : V).

Lemma std_less_ne (a b : K) : std_less a b = true -> a <> b.
Proof. intros Hl ->. by rewrite std_less_irrefl in Hl. Qed.

Lemma std_less_gt (a b : K) : a <> b -> std_less a b = false -> std_less b a = true.
Proof.
  intros Hne Hab. destruct (std_less b a) eqn:E; [done|].
  destruct Hne. by apply std_less_total.
Qed.

Lemma map_wf_nil : map_wf ([] : stdmap K V).
Proof. constructor. Qed.

Lemma map_wf_cons k v m :
  map_wf ((k, v) :: m) <-> map_wf m /\ Forall (fun q => std_less k q.1 = true) m.
Proof.
  unfold map_wf. split; [apply StronglySorted_inv|].
  intros [? ?]. by constructor.
Qed.

Lemma map_set_Forall (P : K * V -> Prop) k v m :
  P (k, v) -> Forall P m -> Forall P (map_set k v m).
Proof.
  intros Hk; induction 1 as [|[k1 v1] m Hp Hm IH]; cbn; [by repeat constructor|].
  case_decide; [by constructor|]. destruct (std_less k k1); by repeat constructor.
Qed.

Lemma map_wf_set k v m : map_wf m -> map_wf (map_set k v m).
Proof.
  induction m as [|[k1 v1] m IH]; [intros; apply map_wf_cons; split; [apply map_wf_nil|constructor]|].
  rewrite map_wf_cons. intros [Hm Hall]. cbn [map_set].
  destruct (decide (k = k1)) as [->|Hne]; [by apply map_wf_cons|].
  destruct (std_less k k1) eqn:E.
  - rewrite !map_wf_cons. split_and!; [done..|]. constructor; [done|].
    eapply Forall_impl; [exact Hall|]. intros q Hq. by eapply std_less_trans.
  - rewrite map_wf_cons. split; [by apply IH|].
    apply map_set_Forall; [|done]. by apply std_less_gt.
Qed.

Lemma map_wf_insert k v m : map_wf m -> map_wf (map_insert k v m).
Proof. unfold map_insert. destruct (map_find k m); [done|apply map_wf_set]. Qed.

Lemma map_update_Forall (P : K -> Prop) k f m :
  Forall (fun q => P q.1) m -> Forall (fun q => P q.1) (map_update k f m).
Proof. induction 1 as [|[k1 v1] m Hp Hm IH]; cbn; [done|]. by case_goal; constructor. Qed.

Lemma map_wf_update k f m : map_wf m -> map_wf (map_update k f m).
Proof.
  induction m as [|[k1 v1] m IH]; [done|].
  rewrite map_wf_cons. intros [Hm Hall]. cbn. case_goal; apply map_wf_cons; [done|].
  split; [by apply IH|]. by apply (map_update_Forall (fun k' => std_less k1 k' = true)).
Qed.

Lemma map_wf_filter (P : K * V -> Prop) `{forall x, Decision (P x)} m :
  map_wf m -> map_wf (filter P m).
Proof.
  induction m as [|[k1 v1] m IH]; [done|].
  rewrite map_wf_cons. intros [Hm Hall]. rewrite filter_cons.
  case_goal; [|by apply IH]. apply map_wf_cons. split; [by apply IH|].
  apply Forall_forall. intros q [_ Hq]%list_elem_of_filter.
  by eapply Forall_forall in Hall.
Qed.

Lemma map_wf_erase k m : map_wf m -> map_wf (map_erase k m).
Proof. apply map_wf_filter. Qed.

Lemma map_wf_NoDup m : map_wf m -> NoDup (map_keys m).
Proof.
  induction m as [|[k1 v1] m IH]; [intros; constructor|].
  rewrite map_wf_cons. intros [Hm Hall]. cbn. constructor; [|by apply IH].
  intros (q & -> & Hq)%list_elem_of_fmap. eapply Forall_forall in Hall; [|done].
  cbn in Hall. by rewrite std_less_irrefl in Hall.
Qed.

(** In a well-formed map every pair of the list is found by its key. *)
Lemma map_elem_find k v m : map_wf m -> (k, v) ∈ m -> map_find k m = Some v.
Proof.
  induction m as [|[k1 v1] m IH]; [by intros _ ?%not_elem_of_nil|].
  rewrite map_wf_cons. intros [Hm Hall]. cbn.
  intros [[= -> ->]|Hin]%elem_of_cons; [by rewrite decide_True|].
  rewrite decide_False; [by apply IH|].
  eapply Forall_forall in Hall; [|done]. cbn in Hall. intros ->.
  by rewrite std_less_irrefl in Hall.
Qed.

Lemma map_find_iff k v m : map_wf m -> map_find k m = Some v <-> (k, v) ∈ m.
Proof. split; [apply map_find_elem|by apply map_elem_find]. Qed.

Lemma map_find_filter (P : K * V -> Prop) `{forall x, Decision (P x)} k v m :
  map_wf m -> map_find k (filter P m) = Some v <-> map_find k m = Some v /\ P (k, v).
Proof.
  intros Hm. rewrite !map_find_iff by eauto using map_wf_filter.
  rewrite list_elem_of_filter. naive_solver.
Qed.

(** Extensionality: a well-formed map is determined by its lookups. *)
Lemma map_wf_find_lt k v m q : map_wf ((k, v) :: m) -> q ∈ m -> std_less k q.1 = true.
Proof. intros [_ Hall]%map_wf_cons Hq. by eapply Forall_forall in Hall. Qed.

Lemma map_ext m1 m2 :
  map_wf m1 -> map_wf m2 -> (forall k, map_find k m1 = map_find k m2) -> m1 = m2.
Proof.
  revert m2; induction m1 as [|[k1 v1] m1 IH]; intros [|[k2 v2] m2] H1 H2 Heq; [done|..].
  - specialize (Heq k2). cbn in Heq. by case_decide.
  - specialize (Heq k1). cbn in Heq. by case_decide.
  - assert (k1 = k2) as ->.
    { destruct (decide (k1 = k2)) as [|Hne]; [done|].
      pose proof (Heq k1) as E1. pose proof (Heq k2) as E2. cbn in E1, E2.
      rewrite decide_True, decide_False in E1 by done.
      rewrite decide_False, decide_True in E2 by done.
      symmetry in E1. apply map_find_elem in E1, E2.
      eapply map_wf_find_lt in E1, E2; [|done..]. cbn in *.
      pose proof (std_less_trans _ _ _ E1 E2) as E. by rewrite std_less_irrefl in E. }
    assert (v1 = v2) as ->.
    { specialize (Heq k2). cbn in Heq. by rewrite !decide_True in Heq by done; simplify_eq. }
    f_equal. apply map_wf_cons in H1 as [H1 Hl1], H2 as [H2 Hl2].
    apply IH; [done..|]. intros k. specialize (Heq k). cbn in Heq. case_decide as Hk; [subst k|done].
    assert (forall m : stdmap K V, Forall (fun q => std_less k2 q.1 = true) m -> map_find k2 m = None) as Hn.
    { intros m Hm. apply map_find_None. intros (q & Hq & Hin)%list_elem_of_fmap.
      eapply Forall_forall in Hm; [|done]. rewrite <- Hq, std_less_irrefl in Hm. done. }
    by rewrite !Hn.
Qed.
End invariant.

(** A test for the invariant. *)
Fixpoint map_wf_b {K V} `{StdLess K} (m : stdmap K V) : bool :=
  match m with
  | [] => true
  | p :: m' => forallb (fun q => std_less p.1 q.1) m' && map_wf_b m'
  end.

Lemma map_wf_b_spec {K V} `{StdLess K} (m : stdmap K V) : map_wf_b m = true -> map_wf m.
Proof.
  induction m as [|p m IH]; cbn; [intros; constructor|].
  intros [Hf Hm]%andb_true_iff. constructor; [by apply IH|].
  apply Forall_forall. intros q Hq. rewrite forallb_forall in Hf.
  apply Hf. by apply list_elem_of_In.
Qed.

#[export] Hint Resolve map_wf_nil map_wf_set map_wf_insert map_wf_update map_wf_erase map_wf_filter : ns3.
#[export] Hint Rewrite @map_find_set_eq @map_find_nil : ns3.
