(* ===== verification/StdString.v ===== *)
(** * StdString: numbers as text, the way the sources print and read them

    [show_uint] is [ostream << uint32_t], [atoi] is [std::atoi] and
    [read_uint32] is [istringstream >> uint32_t] (these are the C++ standard
    library's).  The node names of the routing tables are printed numbers, so
    what the protocols need is that reading back a printed number gives the
    number ([atoi_show], [read_show]) and that printing is injective. *)

From S2P Require Import Prelude.

Definition code (c : ascii) : Z := Z.of_N (N_of_ascii c).
Definition char_of (z : Z) : ascii := ascii_of_N (Z.to_N z).

Definition is_digit (c : ascii) : bool := (48 <=? code c) && (code c <=? 57).
(** [isspace] in the C locale. *)
Definition is_space (c : ascii) : bool := (code c =? 32) || ((9 <=? code c) && (code c <=? 13)).

Lemma code_char_of z : 0 <= z < 256 -> code (char_of z) = z.
Proof. intros. unfold code, char_of. rewrite N_ascii_embedding; lia. Qed.

Lemma code_range c : 0 <= code c < 256.
Proof. unfold code. pose proof (N_ascii_bounded c). lia. Qed.

Lemma char_of_code c : char_of (code c) = c.
Proof. unfold code, char_of. by rewrite N2Z.id, ascii_N_embedding. Qed.

(** ** Printing *)

Fixpoint show_go (fuel : nat) (n : Z) (acc : string) : string :=
  match fuel with
  | O => acc
  | S fuel' =>
      let acc' := String (char_of (48 + n mod 10)) acc in
      if n <? 10 then acc' else show_go fuel' (n / 10) acc'
  end.

(** Ten digits are enough for [2^32 - 1]. *)
Definition show_uint (n : Z) : string := show_go 10 n "".

(** ** Reading *)

Fixpoint skip_spaces (s : string) : string :=
  match s with
  | String c s' => if is_space c then skip_spaces s' else s
  | EmptyString => s
  end.

Fixpoint read_digits (s : string) (acc : Z) : Z :=
  match s with
  | String c s' => if is_digit c then read_digits s' (acc * 10 + (code c - 48)) else acc
  | EmptyString => acc
  end.

(** An optional sign, then the rest. *)
Definition read_sign (s : string) : bool * string :=
  match s with
  | String c s' =>
      if code c =? 45 then (true, s') else if code c =? 43 then (false, s') else (false, s)
  | EmptyString => (false, s)
  end.

Definition atoi (s : string) : Z :=
  let '(neg, s') := read_sign (skip_spaces s) in
  let v := read_digits s' 0 in if neg then - v else v.

Definition starts_with_digit (s : string) : bool :=
  match s with String c _ => is_digit c | EmptyString => false end.

(** [None]: the extraction fails (no digit, or a value above [2^32 - 1]). *)
Definition read_uint32 (s : string) : option Z :=
  let '(neg, s') := read_sign (skip_spaces s) in
  if starts_with_digit s' then
    let v := read_digits s' 0 in
    if v <=? UINT32_MAX then Some (u32 (if neg then - v else v)) else None
  else None.

(** [istringstream >> uint64_t]. *)
Definition read_uint64 (s : string) : option Z :=
  let '(neg, s') := read_sign (skip_spaces s) in
  if starts_with_digit s' then
    let v := read_digits s' 0 in
    if v <? 2 ^ 64 then Some ((if neg then - v else v) mod 2 ^ 64) else None
  else None.

(** ** Text *)

Lemma string_app_cons c (a b : string) : String c a +:+ b = String c (a +:+ b).
Proof. done. Qed.

Lemma string_app_nil_l (s : string) : "" +:+ s = s.
Proof. done. Qed.

Lemma string_app_nil_r (s : string) : s +:+ "" = s.
Proof. induction s as [|c s IH]; [done|]. by rewrite string_app_cons, IH. Qed.

Lemma string_app_assoc (a b c : string) : (a +:+ b) +:+ c = a +:+ (b +:+ c).
Proof. induction a as [|x a IH]; [done|]. by rewrite !string_app_cons, IH. Qed.

Lemma length_string_app (a b : string) : String.length (a +:+ b) = (String.length a + String.length b)%nat.
Proof. induction a as [|x a IH]; [done|]. rewrite string_app_cons. cbn [String.length]. by rewrite IH. Qed.

(** All characters satisfy [f]. *)
Fixpoint every (f : ascii -> bool) (s : string) : bool :=
  match s with String c s' => f c && every f s' | EmptyString => true end.

Lemma every_app f (a b : string) : every f (a +:+ b) = every f a && every f b.
Proof. induction a as [|c a IH]; [done|]. rewrite string_app_cons. cbn [every]. by rewrite IH, andb_assoc. Qed.

Lemma every_impl (f g : ascii -> bool) s : (forall c, f c = true -> g c = true) -> every f s = true -> every g s = true.
Proof. intros Hfg. induction s as [|c s IH]; [done|]. cbn [every]. rewrite !andb_true_iff. intros [? ?]. auto. Qed.

Lemma show_go_every fuel n acc :
  0 <= n -> every is_digit acc = true -> every is_digit (show_go fuel n acc) = true.
Proof.
  revert n acc; induction fuel as [|fuel IH]; intros n acc Hn Hacc; cbn [show_go]; [done|].
  assert (every is_digit (String (char_of (48 + n mod 10)) acc) = true) as Hc.
  { cbn. rewrite Hacc, andb_true_r. unfold is_digit. pose proof (Z.mod_pos_bound n 10 ltac:(lia)).
    rewrite code_char_of by lia. lia. }
  destruct (n <? 10); [done|]. apply IH; [|done]. apply Z.div_pos; lia.
Qed.

Lemma show_digits n : 0 <= n -> every is_digit (show_uint n) = true.
Proof. intros. by apply show_go_every. Qed.

Lemma show_go_length fuel n acc : (String.length (show_go fuel n acc) <= fuel + String.length acc)%nat.
Proof.
  revert n acc; induction fuel as [|fuel IH]; intros n acc; cbn [show_go]; [cbn; lia|].
  destruct (n <? 10); [cbn; lia|]. etransitivity; [apply IH|]. cbn. lia.
Qed.

(** ** Round trips *)

(** A reader that consumes one digit at a time absorbs a printed number: [g]
    is any fold over characters that multiplies by ten and adds. *)
Section absorb.
Context (g : string -> Z -> Z) (bound : Z).
Hypothesis g_digit : forall d acc n,
  0 <= d < 10 -> 0 <= n -> n * 10 + d < bound -> g (String (char_of (48 + d)) acc) n = g acc (n * 10 + d).

Lemma absorb_show_go fuel n acc :
  0 <= n < 10 ^ Z.of_nat fuel -> n < bound -> 0 < n \/ (0 < fuel)%nat ->
  g (show_go fuel n acc) 0 = g acc n.
Proof using g_digit.
  revert n acc; induction fuel as [|fuel IH]; intros n acc Hn Hb Hf; [cbn in Hn; lia|].
  cbn [show_go]. pose proof (Z.mod_pos_bound n 10 ltac:(lia)).
  rewrite Nat2Z.inj_succ, Z.pow_succ_r in Hn by lia.
  destruct (Z.ltb_spec n 10) as [Hlt|Hge].
  - rewrite Z.mod_small, g_digit by lia. f_equal; lia.
  - rewrite IH, g_digit; [f_equal; dlia|dlia..].
Qed.
End absorb.

Lemma show_go_nonempty fuel n acc : exists c s,
  show_go (S fuel) n acc = String c s.
Proof.
  revert n acc; induction fuel as [|fuel IH]; intros n acc; cbn [show_go].
  - destruct (n <? 10); eauto.
  - destruct (n <? 10); [eauto|]. apply IH.
Qed.

Lemma read_digits_digit d acc n :
  0 <= d < 10 -> read_digits (String (char_of (48 + d)) acc) n = read_digits acc (n * 10 + d).
Proof.
  intros Hd. cbn [read_digits]. unfold is_digit. rewrite code_char_of by lia.
  replace ((48 <=? 48 + d) && (48 + d <=? 57)) with true by lia. f_equal. lia.
Qed.

Lemma show_go_first fuel n acc : 0 <= n < 10 ^ Z.of_nat fuel -> (0 < fuel)%nat ->
  starts_with_digit (show_go fuel n acc) = true.
Proof.
  revert n acc; induction fuel as [|fuel IH]; intros n acc Hn Hf; [lia|].
  cbn [show_go]. pose proof (Z.mod_pos_bound n 10 ltac:(lia)).
  rewrite Nat2Z.inj_succ, Z.pow_succ_r in Hn by lia.
  destruct (Z.ltb_spec n 10) as [Hlt|Hge].
  - cbn. unfold is_digit. rewrite code_char_of by lia. lia.
  - apply IH; [dlia|]. destruct fuel; [cbn in Hn|]; lia.
Qed.

Lemma show_first n : is_u32 n -> starts_with_digit (show_uint n) = true.
Proof. intros. apply show_go_first; [cbn|]; uint. Qed.

Lemma digit_start_plain s :
  starts_with_digit s = true -> read_sign (skip_spaces s) = (false, s).
Proof.
  destruct s as [|c s]; cbn; [done|]. unfold is_digit, is_space. intros Hc.
  replace ((code c =? 32) || ((9 <=? code c) && (code c <=? 13))) with false by lia.
  cbn. replace (code c =? 45) with false by lia. by replace (code c =? 43) with false by lia.
Qed.

Lemma read_digits_show n : is_u32 n -> read_digits (show_uint n) 0 = n.
Proof.
  intros Hn. unfold show_uint.
  rewrite (absorb_show_go read_digits (2 ^ 32)); [done|..].
  - intros; by apply read_digits_digit.
  - cbn. uint.
  - uint.
  - lia.
Qed.

Lemma atoi_show n : is_u32 n -> atoi (show_uint n) = n.
Proof.
  intros Hn. unfold atoi. rewrite digit_start_plain by by apply show_first.
  by apply read_digits_show.
Qed.

Lemma read_show n : is_u32 n -> read_uint32 (show_uint n) = Some n.
Proof.
  intros Hn. unfold read_uint32. rewrite digit_start_plain, show_first, read_digits_show by
    auto using show_first. rewrite u32_small by done.
  by replace (n <=? UINT32_MAX) with true by uint.
Qed.

Lemma show_uint_inj m n : is_u32 m -> is_u32 n -> show_uint m = show_uint n -> m = n.
Proof. intros Hm Hn E. by rewrite <- (atoi_show m), <- (atoi_show n), E. Qed.
