(* ===== verification/Ipv4Address.v ===== *)
(** * Ipv4Address: [Ipv4Address], [Ipv4Mask] and [Ipv4InterfaceAddress]

    src/ns-3/src/node/ipv4-address.cc and ipv4-interface-address.cc.  An
    address and a mask are their [uint32_t] in host order. *)

From S2P Require Import Prelude StdMap StdString.

Notation Ipv4Address := Z (only parsing).
Notation Ipv4Mask := Z (only parsing).

(** ** Parsing *)

Definition ASCII_DOT : Z := 0x2e.
Definition ASCII_ZERO : Z := 0x30.
Definition ASCII_SLASH : Z := 0x2f.

(** The two nested loops of the parser: [host] and [byte] are the variables
    of the source, and the end of the string is the terminating 0. *)
Fixpoint AsciiToIpv4Host_loop (address : string) (host byte : Z) : Z :=
  match address with
  | EmptyString => Z.lor (u32 (Z.shiftl host 8)) byte
  | String c address' =>
      if code c =? 0 then Z.lor (u32 (Z.shiftl host 8)) byte
      else if code c =? ASCII_DOT then
        AsciiToIpv4Host_loop address' (Z.lor (u32 (Z.shiftl host 8)) byte) 0
      else
        AsciiToIpv4Host_loop address' host (u8 (u8 (byte * 10) + (code c - ASCII_ZERO)))
  end.

Definition AsciiToIpv4Host (address : string) : Z := AsciiToIpv4Host_loop address 0 0.

(** ** Ipv4Mask *)

Definition Ipv4Mask_default : Ipv4Mask := 0x66666666.

(** [Ipv4Mask (char const *mask)] *)
Definition Ipv4Mask_of_string (mask : string) : result Ipv4Mask :=
  match mask with
  | String c rest =>
      if code c =? ASCII_SLASH then
        let plen := u32 (atoi rest) in
        _ ← assert (plen <=? 32);
        if 0 <? plen then Ok (u32 (Z.shiftl 0xffffffff (32 - plen))) else Ok 0
      else Ok (AsciiToIpv4Host mask)
  | EmptyString => Ok (AsciiToIpv4Host mask)
  end.

Definition Mask_IsEqual (m other : Ipv4Mask) : bool := other =? m.

Definition IsMatch (m : Ipv4Mask) (a b : Ipv4Address) : bool := Z.land a m =? Z.land b m.

Definition GetInverse (m : Ipv4Mask) : Z := u32 (Z.lnot m).

Definition Mask_GetLoopback : Ipv4Mask := AsciiToIpv4Host "255.0.0.0".
Definition Mask_GetZero : Ipv4Mask := AsciiToIpv4Host "0.0.0.0".
Definition Mask_GetOnes : Ipv4Mask := AsciiToIpv4Host "255.255.255.255".

(** The loop of [GetPrefixLength]; [None] when the fuel runs out. *)
Fixpoint GetPrefixLength_loop (fuel : nat) (mask tmp : Z) : option Z :=
  if mask =? 0 then Some tmp else
  match fuel with
  | O => None
  | S fuel' => GetPrefixLength_loop fuel' (u32 (Z.shiftl mask 1)) (u16 (tmp + 1))
  end.

Definition GetPrefixLength (m : Ipv4Mask) : option Z := GetPrefixLength_loop 32 m 0.

(** ** Ipv4Address *)

Definition Ipv4Address_default : Ipv4Address := 0x66666666.
Definition GetZero : Ipv4Address := AsciiToIpv4Host "0.0.0.0".
Definition GetAny : Ipv4Address := AsciiToIpv4Host "0.0.0.0".
Definition GetBroadcast : Ipv4Address := AsciiToIpv4Host "255.255.255.255".
Definition GetLoopback : Ipv4Address := AsciiToIpv4Host "127.0.0.1".

Definition CombineMask (a : Ipv4Address) (mask : Ipv4Mask) : Ipv4Address := Z.land a mask.

Definition GetSubnetDirectedBroadcast (a : Ipv4Address) (mask : Ipv4Mask) : result Ipv4Address :=
  if Mask_IsEqual mask Mask_GetOnes then Fault AssertFailed
  else Ok (Z.lor a (GetInverse mask)).

Definition IsSubnetDirectedBroadcast (a : Ipv4Address) (mask : Ipv4Mask) : bool :=
  if Mask_IsEqual mask Mask_GetOnes then false
  else Z.lor a (GetInverse mask) =? a.

Definition IsBroadcast (a : Ipv4Address) : bool := a =? 0xffffffff.
Definition IsMulticast (a : Ipv4Address) : bool := (0xe0000000 <=? a) && (a <=? 0xefffffff).
Definition IsLocalMulticast (a : Ipv4Address) : bool := Z.land a 0xffffff00 =? 0xe0000000.

(** Byte [i] of an address, most significant first. *)
Definition addr_byte (a : Ipv4Address) (shift : Z) : Z := Z.land (Z.shiftr a shift) 0xff.

Definition Addr_Serialize (a : Ipv4Address) : list Z :=
  [addr_byte a 24; addr_byte a 16; addr_byte a 8; addr_byte a 0].

Definition Addr_Deserialize (buf : list Z) : result Ipv4Address :=
  b0 ← buf !! 0%nat ?? OutOfRange;
  b1 ← buf !! 1%nat ?? OutOfRange;
  b2 ← buf !! 2%nat ?? OutOfRange;
  b3 ← buf !! 3%nat ?? OutOfRange;
  let a := Z.lor 0 b0 in
  let a := Z.lor (u32 (Z.shiftl a 8)) b1 in
  let a := Z.lor (u32 (Z.shiftl a 8)) b2 in
  let a := Z.lor (u32 (Z.shiftl a 8)) b3 in
  Ok a.

(** [Ipv4Address::Print]; [Ipv4Mask::Print] has the same body. *)
Definition Addr_Print (a : Ipv4Address) : string :=
  show_uint (addr_byte a 24) +:+ "." +:+ show_uint (addr_byte a 16) +:+ "." +:+
  show_uint (addr_byte a 8) +:+ "." +:+ show_uint (addr_byte a 0).

(** ** Ipv4InterfaceAddress *)

Inductive InterfaceAddressScope_e : Set := HOST | LINK | GLOBAL.

Record Ipv4InterfaceAddress := {
  m_local : Ipv4Address;
  m_mask : Ipv4Mask;
  m_broadcast : Ipv4Address;
  m_scope : InterfaceAddressScope_e;
  m_secondary : bool
}.

(** [Ipv4InterfaceAddress (Ipv4Address local, Ipv4Mask mask)] *)
Definition MakeInterfaceAddress (local : Ipv4Address) (mask : Ipv4Mask) : Ipv4InterfaceAddress := {|
  m_local := local;
  m_mask := mask;
  m_broadcast := Z.lor local (u32 (Z.lnot mask));
  m_scope := GLOBAL;
  m_secondary := false
|}.

(** [Ipv4InterfaceAddress ()]: all addresses are default-constructed. *)
Definition InterfaceAddress_default : Ipv4InterfaceAddress := {|
  m_local := Ipv4Address_default;
  m_mask := Ipv4Mask_default;
  m_broadcast := Ipv4Address_default;
  m_scope := GLOBAL;
  m_secondary := false
|}.

#[export] Instance InterfaceAddressScope_eq_dec : EqDecision InterfaceAddressScope_e.
Proof. solve_decision. Defined.

(** [operator ==] *)
Definition InterfaceAddress_eqb (a b : Ipv4InterfaceAddress) : bool :=
  (m_local a =? m_local b) && (m_mask a =? m_mask b) && (m_broadcast a =? m_broadcast b) &&
  bool_decide (m_scope a = m_scope b) && Bool.eqb (m_secondary a) (m_secondary b).

(** The order of the enumeration. *)
Definition scope_rank (s : InterfaceAddressScope_e) : Z := match s with HOST => 0 | LINK => 1 | GLOBAL => 2 end.

(** ** Bit-level lemmas *)

Lemma lor_shiftl_add x b n : 0 <= n -> 0 <= b < 2 ^ n -> Z.lor (Z.shiftl x n) b = x * 2 ^ n + b.
Proof.
  intros Hn Hb.
  assert (Z.land (Z.shiftl x n) b = 0) as Hl.
  { apply Z.bits_inj'. intros i Hi. rewrite Z.land_spec, Z.bits_0, Z.shiftl_spec by done.
    destruct (Z.ltb_spec i n); [by rewrite (Z.testbit_neg_r x) by lia|].
    destruct (Z.eq_dec b 0) as [->|]; [by rewrite Z.bits_0, andb_false_r|].
    rewrite (Z.bits_above_log2 b), andb_false_r; [done|lia|].
    assert (Z.log2 b < n); [apply Z.log2_lt_pow2|]; lia. }
  rewrite <- Z.lxor_lor, <- Z.add_nocarry_lxor by done.
  by rewrite Z.shiftl_mul_pow2 by lia.
Qed.

Lemma addr_byte_div a n : 0 <= n -> addr_byte a n = a / 2 ^ n mod 256.
Proof.
  intros. unfold addr_byte. change 0xff with (Z.ones 8).
  by rewrite Z.land_ones, Z.shiftr_div_pow2 by lia.
Qed.

Lemma addr_byte_range a n : 0 <= n -> 0 <= addr_byte a n < 256.
Proof. intros. rewrite addr_byte_div by done. apply Z.mod_pos_bound. lia. Qed.

(** One step of the byte-wise assembly of a 32-bit number. *)
Lemma u32_push a b : 0 <= b < 256 -> Z.lor (u32 (Z.shiftl a 8)) b = (a * 256) mod 2 ^ 32 + b.
Proof.
  intros Hb. unfold u32. rewrite Z.shiftl_mul_pow2 by lia. change (2 ^ 8) with 256.
  replace ((a * 256) mod 2 ^ 32) with (Z.shiftl (a mod 2 ^ 24) 8) at 1.
  - rewrite lor_shiftl_add by lia. change (2 ^ 8) with 256. dlia.
  - rewrite Z.shiftl_mul_pow2 by lia. change (2 ^ 8) with 256. dlia.
Qed.

Lemma bytes_assemble a :
  is_u32 a ->
  Z.lor (u32 (Z.shiftl (Z.lor (u32 (Z.shiftl (Z.lor (u32 (Z.shiftl (addr_byte a 24) 8))
    (addr_byte a 16)) 8)) (addr_byte a 8)) 8)) (addr_byte a 0) = a.
Proof.
  intros Ha. rewrite !u32_push by by apply addr_byte_range.
  rewrite !addr_byte_div by lia. unfold is_u32 in Ha.
  change (2 ^ 24) with 16777216 in *. change (2 ^ 16) with 65536. change (2 ^ 8) with 256.
  change (2 ^ 0) with 1. change (2 ^ 32) with 4294967296 in *. dlia.
Qed.

Lemma lor_u32 a b : is_u32 a -> is_u32 b -> is_u32 (Z.lor a b).
Proof.
  unfold is_u32. intros. split; [apply Z.lor_nonneg; lia|].
  destruct (Z.eq_dec (Z.lor a b) 0) as [->|]; [lia|].
  assert (0 < Z.lor a b) by (pose proof (proj2 (Z.lor_nonneg a b)); lia).
  apply Z.log2_lt_pow2; [done|]. rewrite Z.log2_lor by lia.
  apply Z.max_lub_lt.
  - destruct (Z.eq_dec a 0) as [->|]; [cbn; lia|]. apply Z.log2_lt_pow2; lia.
  - destruct (Z.eq_dec b 0) as [->|]; [cbn; lia|]. apply Z.log2_lt_pow2; lia.
Qed.

Lemma testbit_u32 z i : 0 <= i -> Z.testbit (u32 z) i = (i <? 32) && Z.testbit z i.
Proof.
  intros Hi. unfold u32. destruct (Z.ltb_spec i 32).
  - by rewrite Z.mod_pow2_bits_low.
  - by rewrite Z.mod_pow2_bits_high.
Qed.

Lemma GetInverse_u32 m : is_u32 (GetInverse m).
Proof. apply u32_range. Qed.

(** ** Parse and print *)

Lemma show_go_app fuel n acc r : show_go fuel n acc +:+ r = show_go fuel n (acc +:+ r).
Proof.
  revert n acc; induction fuel as [|fuel IH]; intros n acc; cbn; [done|].
  destruct (n <? 10); [done|]. by rewrite IH.
Qed.

Lemma AsciiToIpv4Host_loop_show n rest host :
  0 <= n < 256 ->
  AsciiToIpv4Host_loop (show_uint n +:+ rest) host 0 = AsciiToIpv4Host_loop rest host n.
Proof.
  intros Hn. unfold show_uint. rewrite show_go_app. change ("" +:+ rest) with rest.
  rewrite (absorb_show_go (fun s b => AsciiToIpv4Host_loop s host b) 256); [done|..].
  - intros d acc k Hd Hk Hb. cbn. rewrite code_char_of by lia. unfold ASCII_DOT, ASCII_ZERO.
    replace (48 + d =? 0) with false by lia. replace (48 + d =? 46) with false by lia.
    f_equal. rewrite (u8_small (k * 10)) by uint. rewrite u8_small by uint. lia.
  - cbn; lia.
  - lia.
  - lia.
Qed.

Lemma AsciiToIpv4Host_loop_dot rest host byte :
  AsciiToIpv4Host_loop ("." +:+ rest) host byte =
    AsciiToIpv4Host_loop rest (Z.lor (u32 (Z.shiftl host 8)) byte) 0.
Proof. done. Qed.

Lemma AsciiToIpv4Host_Print a : is_u32 a -> AsciiToIpv4Host (Addr_Print a) = a.
Proof.
  intros Ha. unfold AsciiToIpv4Host, Addr_Print.
  pose proof (addr_byte_range a) as Hr.
  do 3 (rewrite AsciiToIpv4Host_loop_show, AsciiToIpv4Host_loop_dot by (apply Hr; lia)).
  rewrite <- (string_app_nil_r (show_uint (addr_byte a 0))).
  rewrite AsciiToIpv4Host_loop_show by (apply Hr; lia). cbn [AsciiToIpv4Host_loop].
  by apply bytes_assemble.
Qed.

(** ** Correctness *)

(** Addresses survive both of their external forms: printing an address
    in dotted-decimal and parsing it back ([Print] then [AsciiToIpv4Host]),
    and writing it as four bytes and reading them back ([Serialize] then
    [Deserialize]). *)
Theorem addr_roundtrip (a : Ipv4Address) (Ha : is_u32 a) :
  AsciiToIpv4Host (Addr_Print a) = a /\ Addr_Deserialize (Addr_Serialize a) = Ok a.
Proof.
  split; [by apply AsciiToIpv4Host_Print|].
  unfold Addr_Deserialize, Addr_Serialize. cbn [lookup list_lookup or_fault mbind result_bind].
  rewrite Z.lor_0_l. by rewrite bytes_assemble.
Qed.

Lemma addr_roundtrip_witness :
  AsciiToIpv4Host (Addr_Print 0x0a000102) = 0x0a000102 /\
  Addr_Deserialize (Addr_Serialize 0x0a000102) = Ok 0x0a000102.
Proof. apply (addr_roundtrip 0x0a000102). split; [discriminate|reflexivity]. Defined.

Lemma lor_inverse_match a m : is_u32 a -> is_u32 m -> Z.land (Z.lor a (GetInverse m)) m = Z.land a m.
Proof.
  intros Ha Hm. apply Z.bits_inj'. intros i Hi.
  rewrite !Z.land_spec, Z.lor_spec. unfold GetInverse. rewrite testbit_u32, Z.lnot_spec by done.
  destruct (Z.testbit m i), (Z.testbit a i), (i <? 32); done.
Qed.

(** The subnet-directed broadcast address used by [BroadcastPacket]: for
    every mask but 255.255.255.255 it exists, lies in the subnet of the
    address ([IsMatch]), is recognised by [IsSubnetDirectedBroadcast], and is
    the same for all addresses of the subnet; for the all-ones mask the
    assertion fails and [IsSubnetDirectedBroadcast] is false. *)
Theorem subnet_broadcast_spec (a m : Ipv4Address) (Ha : is_u32 a) (Hm : is_u32 m) :
  if decide (m = Mask_GetOnes) then
    GetSubnetDirectedBroadcast a m = Fault AssertFailed /\ IsSubnetDirectedBroadcast a m = false
  else exists b,
    GetSubnetDirectedBroadcast a m = Ok b /\ is_u32 b /\
    IsMatch m a b = true /\ IsSubnetDirectedBroadcast b m = true /\
    (forall a', is_u32 a' -> IsMatch m a a' = true -> GetSubnetDirectedBroadcast a' m = Ok b).
Proof.
  unfold GetSubnetDirectedBroadcast, IsSubnetDirectedBroadcast, Mask_IsEqual, IsMatch.
  case_decide as Hones; subst.
  { by rewrite Z.eqb_refl. }
  replace (Mask_GetOnes =? m) with false by lia.
  exists (Z.lor a (GetInverse m)). split_and!.
  - done.
  - apply lor_u32; auto using GetInverse_u32.
  - rewrite lor_inverse_match by done. lia.
  - rewrite <- Z.lor_assoc, Z.lor_diag. lia.
  - intros a' Ha' Heq%Z.eqb_eq. f_equal. apply Z.bits_inj'. intros i Hi.
    apply (f_equal (fun z => Z.testbit z i)) in Heq. rewrite !Z.land_spec in Heq.
    rewrite !Z.lor_spec. unfold GetInverse. rewrite testbit_u32, Z.lnot_spec by done.
    destruct (Z.ltb_spec i 32).
    + destruct (Z.testbit m i), (Z.testbit a i), (Z.testbit a' i); done.
    + rewrite <- (u32_small a), <- (u32_small a'), !testbit_u32 by done.
      by replace (i <? 32) with false by lia.
Qed.

Lemma subnet_broadcast_spec_witness : exists b,
  GetSubnetDirectedBroadcast 0x0a000001 0xffffff00 = Ok b /\ is_u32 b /\
  IsMatch 0xffffff00 0x0a000001 b = true /\ IsSubnetDirectedBroadcast b 0xffffff00 = true /\
  (forall a', is_u32 a' -> IsMatch 0xffffff00 0x0a000001 a' = true ->
     GetSubnetDirectedBroadcast a' 0xffffff00 = Ok b).
Proof.
  apply (subnet_broadcast_spec 0x0a000001 0xffffff00); split; first [discriminate|reflexivity].
Defined.

Lemma u32_shift_step m t : 0 <= t -> u32 (Z.shiftl (u32 (Z.shiftl m t)) 1) = u32 (Z.shiftl m (t + 1)).
Proof.
  intros. unfold u32. rewrite !Z.shiftl_mul_pow2, Z.pow_add_r by lia.
  rewrite Z.mul_mod_idemp_l by lia. f_equal. lia.
Qed.

Lemma GetPrefixLength_loop_spec fuel m t :
  0 <= t -> Z.of_nat fuel + t = 32 -> (forall k, 0 <= k < t -> u32 (Z.shiftl m k) <> 0) ->
  exists n, GetPrefixLength_loop fuel (u32 (Z.shiftl m t)) t = Some n /\ t <= n <= 32 /\
    u32 (Z.shiftl m n) = 0 /\ (forall k, 0 <= k < n -> u32 (Z.shiftl m k) <> 0).
Proof.
  revert t; induction fuel as [|fuel IH]; intros t Ht Hf Hk; cbn [GetPrefixLength_loop].
  - assert (u32 (Z.shiftl m t) = 0) as ->.
    { replace t with 32 by lia. unfold u32. rewrite Z.shiftl_mul_pow2 by lia. apply Z.mod_mul. lia. }
    exists t. split_and!; try done; [lia..|].
    replace t with 32 by lia. unfold u32. rewrite Z.shiftl_mul_pow2 by lia. apply Z.mod_mul. lia.
  - destruct (Z.eqb_spec (u32 (Z.shiftl m t)) 0) as [E|E].
    { exists t. split_and!; try done; lia. }
    rewrite u32_shift_step, (u16_small (t + 1)) by uint.
    destruct (IH (t + 1)) as (n & Hn & ? & ? & ?); [lia..| |].
    { intros k ?. destruct (decide (k = t)) as [->|]; [done|]. apply Hk. lia. }
    exists n. split_and!; try done; lia.
Qed.

(** [GetPrefixLength] always terminates, with a value between 0 and 32:
    the least number of left shifts that clears the 32-bit mask.  On the masks
    built from "/n" it is [n], and "/n" with [n] above 32 is refused by the
    assertion of the constructor. *)
Theorem prefix_length_spec :
  (forall m, is_u32 m -> exists n, GetPrefixLength m = Some n /\ 0 <= n <= 32 /\
     u32 (Z.shiftl m n) = 0 /\ (forall k, 0 <= k < n -> u32 (Z.shiftl m k) <> 0)) /\
  (forall n, 0 <= n <= 32 -> exists m,
     Ipv4Mask_of_string ("/" +:+ show_uint n) = Ok m /\ GetPrefixLength m = Some n) /\
  (forall n, 32 < n <= UINT32_MAX ->
     Ipv4Mask_of_string ("/" +:+ show_uint n) = Fault AssertFailed).
Proof.
  split_and!.
  - intros m Hm. pose proof (GetPrefixLength_loop_spec 32 m 0) as H.
    rewrite Z.shiftl_0_r, (u32_small m) in H by done. apply H; [lia..|]. intros; lia.
  - intros n Hn.
    assert (forall k, k ∈ seqZ 0 33 -> (m ← Ipv4Mask_of_string ("/" +:+ show_uint k);
      GetPrefixLength m ?? OutOfRange) = Ok k) as H.
    { apply Forall_forall. repeat constructor. }
    specialize (H n). rewrite elem_of_seqZ in H. specialize (H ltac:(lia)).
    apply bind_Ok in H as (m & Hm & Hl). apply or_fault_Ok in Hl. eauto.
  - intros n Hn. change ("/" +:+ show_uint n) with (String "/" (show_uint n)).
    cbn [Ipv4Mask_of_string]. change (code "/" =? ASCII_SLASH) with true. cbn match.
    rewrite atoi_show, u32_small by uint. by replace (n <=? 32) with false by lia.
Qed.
