(* ===== verification/BufferIter.v ===== *)
(** * BufferIter: [Buffer::Iterator], the byte cursor of packet headers

    src/ns-3/src/common/buffer.h and buffer.cc.  A buffer is one byte array
    ([m_data], shared by all iterators over it) with a virtual area of zeros
    between the offsets [m_zeroStart] and [m_zeroEnd] that is not stored.  An
    iterator operation is a function of the cursor and of the array, and
    returns both: [ItM]. *)

From S2P Require Import Prelude StdMap StdString Ipv4Address.

Record Iterator := {
  m_zeroStart : Z;
  m_zeroEnd : Z;
  m_dataStart : Z;
  m_dataEnd : Z;
  m_current : Z
}.

Definition set_current (it : Iterator) (c : Z) : Iterator := {|
  m_zeroStart := m_zeroStart it; m_zeroEnd := m_zeroEnd it;
  m_dataStart := m_dataStart it; m_dataEnd := m_dataEnd it; m_current := c |}.

(** [m_current += n], on [uint32_t]. *)
Definition advance (it : Iterator) (n : Z) : Iterator := set_current it (u32 (m_current it + n)).

(** The byte array. *)
Notation mem := (list Z) (only parsing).

Definition mem_read (m : mem) (i : Z) (n : nat) : result (list Z) :=
  if bool_decide (0 <= i /\ i + Z.of_nat n <= Z.of_nat (length m))
  then Ok (take n (drop (Z.to_nat i) m)) else Fault OutOfRange.

Definition mem_write (m : mem) (i : Z) (bs : list Z) : result mem :=
  if bool_decide (0 <= i /\ i + Z.of_nat (length bs) <= Z.of_nat (length m))
  then Ok (take (Z.to_nat i) m ++ bs ++ drop (Z.to_nat i + length bs) m) else Fault OutOfRange.

(** ** Iterator computations *)

Definition ItM (A : Type) : Type := Iterator -> mem -> result (A * Iterator * mem).

#[export] Instance ItM_ret : MRet ItM := fun A a it m => Ok (a, it, m).
#[export] Instance ItM_bind : MBind ItM := fun A B k c it m =>
  match c it m with Ok (a, it', m') => k a it' m' | Fault f => Fault f end.

Definition it_assert (p : Iterator -> bool) : ItM unit :=
  fun it m => if p it then Ok (tt, it, m) else Fault AssertFailed.

(** ** Tests and moves *)

Definition Check (it : Iterator) (i : Z) : bool :=
  (m_dataStart it <=? i) && negb ((m_zeroStart it <=? i) && (i <? m_zeroEnd it)) && (i <=? m_dataEnd it).

Definition CheckNoZero (it : Iterator) (start end_ : Z) : bool :=
  forallb (Check it) (seqZ start (end_ - start)).

Definition IsEnd (it : Iterator) : bool := m_current it =? m_dataEnd it.
Definition IsStart (it : Iterator) : bool := m_current it =? m_dataStart it.

Definition GetSize (it : Iterator) : Z := u32 (m_dataEnd it - m_dataStart it).

Definition Next (delta : Z) : ItM unit := fun it m =>
  if u32 (m_current it + delta) <=? m_dataEnd it then Ok (tt, advance it delta, m) else Fault AssertFailed.

Definition Prev (delta : Z) : ItM unit := fun it m =>
  if delta <=? m_current it then Ok (tt, advance it (- delta), m) else Fault AssertFailed.

(** Offset in the array of an iterator position behind the zero area. *)
Definition behind (it : Iterator) : Z := u32 (m_current it - u32 (m_zeroEnd it - m_zeroStart it)).

(** ** Writes *)

Definition store (at_ : Iterator -> Z) (bs : list Z) : ItM unit := fun it m =>
  m' ← mem_write m (at_ it) bs; Ok (tt, advance it (Z.of_nat (length bs)), m').

Definition WriteU8 (data : Z) : ItM unit :=
  _ ← it_assert (fun it => Check it (m_current it));
  store (fun it => if m_current it <? m_zeroStart it then m_current it else behind it) [data].

(** [WriteU8 (data, len)] *)
Definition WriteU8_n (data len : Z) : ItM unit :=
  _ ← it_assert (fun it => CheckNoZero it (m_current it) (u32 (m_current it + len)));
  store (fun it => if m_current it <=? m_zeroStart it then m_current it else behind it)
    (replicate (Z.to_nat len) data).

Definition WriteHtonU16 (data : Z) : ItM unit :=
  _ ← it_assert (fun it => CheckNoZero it (m_current it) (u32 (m_current it + 2)));
  store (fun it => if u32 (m_current it + 2) <=? m_zeroStart it then m_current it else behind it)
    [Z.land (Z.shiftr data 8) 0xff; Z.land (Z.shiftr data 0) 0xff].

Definition WriteHtonU32 (data : Z) : ItM unit :=
  _ ← it_assert (fun it => CheckNoZero it (m_current it) (u32 (m_current it + 4)));
  store (fun it => if u32 (m_current it + 4) <=? m_zeroStart it then m_current it else behind it)
    [Z.land (Z.shiftr data 24) 0xff; Z.land (Z.shiftr data 16) 0xff;
     Z.land (Z.shiftr data 8) 0xff; Z.land (Z.shiftr data 0) 0xff].

Definition WriteU16 (data : Z) : ItM unit :=
  _ ← WriteU8 (Z.land data 0xff);
  let data := Z.shiftr data 8 in
  WriteU8 (Z.land data 0xff).

Definition WriteU32 (data : Z) : ItM unit :=
  _ ← WriteU8 (Z.land data 0xff);
  let data := Z.shiftr data 8 in
  _ ← WriteU8 (Z.land data 0xff);
  let data := Z.shiftr data 8 in
  _ ← WriteU8 (Z.land data 0xff);
  let data := Z.shiftr data 8 in
  WriteU8 (Z.land data 0xff).

(** [Write (buffer, size)]; the second argument of the check is [size], as in
    the source. *)
Definition Write (buffer : list Z) : ItM unit :=
  _ ← it_assert (fun it => CheckNoZero it (m_current it) (Z.of_nat (length buffer)));
  store (fun it => if m_current it <=? m_zeroStart it then m_current it else behind it) buffer.

(** ** Reads *)

Definition fetch (at_ : Iterator -> Z) (n : nat) : ItM (list Z) := fun it m =>
  bs ← mem_read m (at_ it) n; Ok (bs, advance it (Z.of_nat n), m).

Definition byte_of (bs : list Z) : Z := nth 0 bs 0.

Definition ReadU8 : ItM Z := fun it m =>
  if (m_dataStart it <=? m_current it) && (m_current it <=? m_dataEnd it) then
    if m_current it <? m_zeroStart it then
      (bs ← fetch m_current 1; mret (byte_of bs)) it m
    else if m_current it <? m_zeroEnd it then Ok (0, advance it 1, m)
    else (bs ← fetch behind 1; mret (byte_of bs)) it m
  else Fault AssertFailed.

Definition ReadU16 : ItM Z :=
  byte0 ← ReadU8;
  byte1 ← ReadU8;
  let data := byte1 in
  let data := u16 (Z.shiftl data 8) in
  mret (Z.lor data byte0).

Definition ReadU32 : ItM Z :=
  byte0 ← ReadU8;
  byte1 ← ReadU8;
  byte2 ← ReadU8;
  byte3 ← ReadU8;
  let data := byte3 in
  let data := Z.lor (u32 (Z.shiftl data 8)) byte2 in
  let data := Z.lor (u32 (Z.shiftl data 8)) byte1 in
  let data := Z.lor (u32 (Z.shiftl data 8)) byte0 in
  mret data.

Definition SlowReadNtohU16 : ItM Z :=
  b0 ← ReadU8;
  let retval := Z.lor 0 b0 in
  b1 ← ReadU8;
  mret (Z.lor (u16 (Z.shiftl retval 8)) b1).

Definition SlowReadNtohU32 : ItM Z :=
  b0 ← ReadU8;
  let retval := Z.lor 0 b0 in
  b1 ← ReadU8;
  let retval := Z.lor (u32 (Z.shiftl retval 8)) b1 in
  b2 ← ReadU8;
  let retval := Z.lor (u32 (Z.shiftl retval 8)) b2 in
  b3 ← ReadU8;
  mret (Z.lor (u32 (Z.shiftl retval 8)) b3).

(** The bytes of [buffer] in network order. *)
Definition ntoh16 (bs : list Z) : Z :=
  let retval := Z.lor 0 (nth 0 bs 0) in
  Z.lor (u16 (Z.shiftl retval 8)) (nth 1 bs 0).

Definition ntoh32 (bs : list Z) : Z :=
  let retval := Z.lor 0 (nth 0 bs 0) in
  let retval := Z.lor (u32 (Z.shiftl retval 8)) (nth 1 bs 0) in
  let retval := Z.lor (u32 (Z.shiftl retval 8)) (nth 2 bs 0) in
  Z.lor (u32 (Z.shiftl retval 8)) (nth 3 bs 0).

(** Behind the zero area [buffer] is [&m_data[m_current]], as in the source:
    the length of the zero area is not subtracted. *)
Definition ReadNtohU16 : ItM Z := fun it m =>
  if u32 (m_current it + 2) <=? m_zeroStart it then (bs ← fetch m_current 2; mret (ntoh16 bs)) it m
  else if m_zeroEnd it <=? m_current it then (bs ← fetch m_current 2; mret (ntoh16 bs)) it m
  else SlowReadNtohU16 it m.

Definition ReadNtohU32 : ItM Z := fun it m =>
  if u32 (m_current it + 4) <=? m_zeroStart it then (bs ← fetch m_current 4; mret (ntoh32 bs)) it m
  else if m_zeroEnd it <=? m_current it then (bs ← fetch m_current 4; mret (ntoh32 bs)) it m
  else SlowReadNtohU32 it m.

(** [Read (buffer, size)]: the bytes read. *)
Fixpoint Read (size : nat) : ItM (list Z) :=
  match size with
  | O => mret []
  | S size' => b ← ReadU8; bs ← Read size'; mret (b :: bs)
  end.

(** ** Header region: specifications of writers and readers

    Headers are serialised in front of the zero area.  [writes c bs] says that
    [c], started with enough room there, stores exactly [bs] at the cursor,
    advances by its length and violates no assertion; [reads c bs a] says that
    [c] on the bytes [bs] returns [a] and advances past them. *)

Definition blen (bs : list Z) : Z := Z.of_nat (length bs).

Definition hdr (it : Iterator) (m : mem) : Prop :=
  0 <= m_dataStart it /\ m_dataStart it <= m_current it /\ m_current it <= m_zeroStart it /\
  m_zeroStart it <= m_zeroEnd it /\ m_zeroEnd it <= m_dataEnd it /\ m_dataEnd it < 2 ^ 32 /\
  m_zeroStart it <= blen m.

Definition splice (m : mem) (i : Z) (bs : list Z) : mem :=
  take (Z.to_nat i) m ++ bs ++ drop (Z.to_nat i + length bs) m.

Definition slice (m : mem) (i : Z) (n : nat) : list Z := take n (drop (Z.to_nat i) m).

Definition writes (c : ItM unit) (bs : list Z) : Prop := forall it m,
  hdr it m -> m_current it + blen bs <= m_zeroStart it ->
  c it m = Ok (tt, advance it (blen bs), splice m (m_current it) bs).

(** The same, wherever the cursor ends. *)
Definition stores (c : ItM unit) (bs : list Z) : Prop := forall it m,
  hdr it m -> m_current it + blen bs <= m_zeroStart it ->
  exists it', c it m = Ok (tt, it', splice m (m_current it) bs).

Lemma writes_stores c bs : writes c bs -> stores c bs.
Proof. intros H it m Hh Hr. eexists. by apply H. Qed.

Definition reads {A} (c : ItM A) (bs : list Z) (a : A) : Prop := forall it m,
  hdr it m -> m_current it + blen bs <= m_zeroStart it ->
  slice m (m_current it) (length bs) = bs ->
  c it m = Ok (a, advance it (blen bs), m).

Lemma blen_app b1 b2 : blen (b1 ++ b2) = blen b1 + blen b2.
Proof. unfold blen. rewrite length_app. lia. Qed.
Lemma blen_cons b bs : blen (b :: bs) = 1 + blen bs.
Proof. unfold blen. cbn. lia. Qed.
Lemma blen_nonneg bs : 0 <= blen bs.
Proof. unfold blen. lia. Qed.

Lemma advance_current it m n :
  hdr it m -> 0 <= n -> m_current it + n <= m_zeroStart it ->
  m_current (advance it n) = m_current it + n.
Proof. unfold hdr. intros. cbn. apply u32_small. unfold is_u32. lia. Qed.

Lemma advance_advance it n k : advance (advance it n) k = advance it (n + k).
Proof. unfold advance, set_current, u32; cbn. f_equal. rewrite Z.add_mod_idemp_l by lia. f_equal. lia. Qed.

Lemma advance_0 it m : hdr it m -> advance it 0 = it.
Proof.
  intros H. unfold advance, set_current. rewrite Z.add_0_r, u32_small; [by destruct it|].
  unfold hdr, is_u32 in *. lia.
Qed.

Lemma hdr_advance it m n :
  hdr it m -> 0 <= n -> m_current it + n <= m_zeroStart it -> hdr (advance it n) m.
Proof.
  intros H Hn Hr. pose proof (advance_current it m n H Hn Hr) as E.
  unfold hdr in *. rewrite E. cbn. lia.
Qed.

Lemma blen_splice m i bs :
  0 <= i -> i + blen bs <= blen m -> blen (splice m i bs) = blen m.
Proof. unfold splice, blen. intros. rewrite !length_app, length_take, length_drop. lia. Qed.

Lemma splice_nil m i : splice m i [] = m.
Proof. unfold splice. cbn. by rewrite Nat.add_0_r, take_drop. Qed.

(** The array around a range of it. *)
Lemma mem_split m i n :
  0 <= i -> i + Z.of_nat n <= blen m ->
  exists l x r, m = l ++ x ++ r /\ i = blen l /\ length x = n.
Proof.
  unfold blen. intros. exists (take (Z.to_nat i) m), (take n (drop (Z.to_nat i) m)), (drop n (drop (Z.to_nat i) m)).
  rewrite !take_drop, !length_take, length_drop. split_and!; [done|lia..].
Qed.

Lemma splice_app l x r bs :
  length x = length bs -> splice (l ++ x ++ r) (blen l) bs = l ++ bs ++ r.
Proof.
  unfold splice, blen. intros Hx. rewrite Nat2Z.id, take_app_length, drop_app_add, <- Hx.
  by rewrite drop_app_length.
Qed.

Lemma slice_app l x r : slice (l ++ x ++ r) (blen l) (length x) = x.
Proof. unfold slice, blen. by rewrite Nat2Z.id, drop_app_length, take_app_length. Qed.

Lemma splice_splice m i b1 b2 :
  0 <= i -> i + blen b1 + blen b2 <= blen m ->
  splice (splice m i b1) (i + blen b1) b2 = splice m i (b1 ++ b2).
Proof.
  intros Hi Hb.
  destruct (mem_split m i (length (b1 ++ b2))) as (l & x & r & -> & -> & Hx); [done| |].
  { rewrite length_app. unfold blen in *. lia. }
  rewrite (splice_app l x r (b1 ++ b2)) by done. rewrite length_app in Hx.
  rewrite <- (take_drop (length b1) x), <- app_assoc.
  rewrite splice_app by (rewrite length_take; lia).
  rewrite (app_assoc l), <- blen_app, splice_app by (rewrite length_drop; lia).
  by rewrite <- !app_assoc.
Qed.

Lemma slice_splice m i bs :
  0 <= i -> i + blen bs <= blen m -> slice (splice m i bs) i (length bs) = bs.
Proof.
  intros Hi Hb. destruct (mem_split m i (length bs)) as (l & x & r & -> & -> & Hx); [done..|].
  by rewrite splice_app, slice_app.
Qed.

Lemma slice_split m i b1 b2 :
  0 <= i -> i + blen (b1 ++ b2) <= blen m -> slice m i (length (b1 ++ b2)) = b1 ++ b2 ->
  slice m i (length b1) = b1 /\ slice m (i + blen b1) (length b2) = b2.
Proof.
  intros Hi Hb E.
  destruct (mem_split m i (length (b1 ++ b2))) as (l & x & r & -> & -> & Hx); [done..|].
  rewrite <- Hx, slice_app in E. subst x. rewrite <- app_assoc, slice_app. split; [done|].
  rewrite (app_assoc l), <- blen_app. apply slice_app.
Qed.

(** *** Composition *)

Lemma writes_seq c1 c2 b1 b2 :
  writes c1 b1 -> writes c2 b2 -> writes (_ ← c1; c2) (b1 ++ b2).
Proof.
  intros H1 H2 it m Hh Hr. rewrite blen_app in Hr.
  pose proof (blen_nonneg b1). pose proof (blen_nonneg b2).
  unfold mbind, ItM_bind. rewrite H1 by (done || lia).
  assert (0 <= m_current it /\ m_current it + blen b1 <= blen m) as [? ?] by (unfold hdr in Hh; lia).
  assert (hdr (advance it (blen b1)) (splice m (m_current it) b1)) as Hh'.
  { apply (hdr_advance _ _ (blen b1)) in Hh; [|lia..]. unfold hdr in *.
    rewrite blen_splice by lia. done. }
  rewrite H2; [|done|rewrite (advance_current _ m); cbn; lia || done].
  rewrite advance_advance, blen_app, (advance_current _ m), splice_splice; try done; try lia.
  unfold hdr in Hh. lia.
Qed.

Lemma writes_nil : writes (mret tt) [].
Proof.
  intros it m Hh _. unfold mret, ItM_ret. rewrite splice_nil. change (blen []) with 0.
  by rewrite (advance_0 it m).
Qed.

Lemma reads_bind {A B} (c : ItM A) (k : A -> ItM B) b1 b2 a b :
  reads c b1 a -> reads (k a) b2 b -> reads (c ≫= k) (b1 ++ b2) b.
Proof.
  intros H1 H2 it m Hh Hr Hs. rewrite blen_app in Hr.
  pose proof (blen_nonneg b1). pose proof (blen_nonneg b2).
  apply slice_split in Hs as [Hs1 Hs2]; [|unfold hdr in Hh; rewrite ?blen_app; lia..].
  unfold mbind, ItM_bind. rewrite H1 by (done || lia).
  rewrite H2; [|apply hdr_advance; done || lia|..].
  - by rewrite advance_advance, blen_app.
  - rewrite (advance_current _ m); cbn; done || lia.
  - by rewrite (advance_current _ m) by (done || lia).
Qed.

Lemma reads_ret {A} (a : A) : reads (mret a) [] a.
Proof.
  intros it m Hh _ _. unfold mret, ItM_ret. change (blen []) with 0. by rewrite (advance_0 it m).
Qed.

Lemma reads_bind_ret {A B} (c : ItM A) (f : A -> B) bs a :
  reads c bs a -> reads (c ≫= fun x => mret (f x)) bs (f a).
Proof. intros H. rewrite <- (app_nil_r bs). eapply reads_bind; [done|apply reads_ret]. Qed.

(** *** Primitives *)

Lemma hdr_CheckNoZero it m n :
  hdr it m -> 0 <= n -> m_current it + n <= m_zeroStart it ->
  CheckNoZero it (m_current it) (m_current it + n) = true.
Proof.
  intros Hh Hn Hr. unfold CheckNoZero. apply forallb_forall. intros i Hi%list_elem_of_In.
  apply elem_of_seqZ in Hi. unfold hdr in Hh. unfold Check. lia.
Qed.

Lemma hdr_u32 it m n :
  hdr it m -> 0 <= n -> m_current it + n <= m_zeroStart it ->
  u32 (m_current it + n) = m_current it + n.
Proof. intros. apply u32_small. unfold hdr, is_u32 in *. lia. Qed.

(** Every writer has the shape "assert, then store". *)
Lemma writes_assert_store (p : Iterator -> bool) (at_ : Iterator -> Z) bs :
  (forall it m, hdr it m -> m_current it + blen bs <= m_zeroStart it ->
     p it = true /\ at_ it = m_current it) ->
  writes (_ ← it_assert p; store at_ bs) bs.
Proof.
  intros Hp it m Hh Hr. destruct (Hp it m Hh Hr) as [Hpt Hat].
  unfold mbind, ItM_bind, it_assert, store, mem_write. rewrite Hpt, Hat, bool_decide_true; [done|].
  unfold hdr, blen in *. lia.
Qed.

Lemma writes_U8 b : writes (WriteU8 b) [b].
Proof.
  apply writes_assert_store. unfold hdr, blen; cbn. intros it m Hh Hr.
  replace (m_current it <? m_zeroStart it) with true by lia. split; [|done].
  unfold Check. lia.
Qed.

Definition be16 (z : Z) : list Z := [Z.land (Z.shiftr z 8) 0xff; Z.land (Z.shiftr z 0) 0xff].
Definition be32 (z : Z) : list Z :=
  [Z.land (Z.shiftr z 24) 0xff; Z.land (Z.shiftr z 16) 0xff;
   Z.land (Z.shiftr z 8) 0xff; Z.land (Z.shiftr z 0) 0xff].
Definition le16 (z : Z) : list Z := [Z.land z 0xff; Z.land (Z.shiftr z 8) 0xff].

Lemma writes_HtonU16 z : writes (WriteHtonU16 z) (be16 z).
Proof.
  apply writes_assert_store. unfold blen; cbn. intros it m Hh Hr.
  rewrite (hdr_u32 it m) by (done || lia). split; [by eapply hdr_CheckNoZero; eauto; lia|].
  by replace (m_current it + 2 <=? m_zeroStart it) with true by lia.
Qed.

Lemma writes_HtonU32 z : writes (WriteHtonU32 z) (be32 z).
Proof.
  apply writes_assert_store. unfold blen; cbn. intros it m Hh Hr.
  rewrite (hdr_u32 it m) by (done || lia). split; [by eapply hdr_CheckNoZero; eauto; lia|].
  by replace (m_current it + 4 <=? m_zeroStart it) with true by lia.
Qed.

Lemma writes_U16 z : writes (WriteU16 z) (le16 z).
Proof. apply (writes_seq _ _ [_] [_]); apply writes_U8. Qed.

Lemma CheckNoZero_sub it s e e' :
  CheckNoZero it s e = true -> e' <= e -> CheckNoZero it s e' = true.
Proof.
  unfold CheckNoZero. rewrite !forallb_forall. intros H He i Hi%list_elem_of_In.
  apply H, list_elem_of_In. rewrite elem_of_seqZ in *. lia.
Qed.

Lemma writes_Write bs : writes (Write bs) bs.
Proof.
  apply writes_assert_store. intros it m Hh Hr. pose proof (blen_nonneg bs). split.
  - eapply CheckNoZero_sub; [by eapply (hdr_CheckNoZero it m (blen bs)); eauto|].
    unfold blen, hdr in *. lia.
  - unfold hdr in Hh. by replace (m_current it <=? m_zeroStart it) with true by lia.
Qed.

Lemma reads_fetch n bs : length bs = n -> reads (fetch m_current n) bs bs.
Proof.
  intros <- it m Hh Hr Hs. unfold fetch, mem_read.
  rewrite bool_decide_true by (unfold hdr, blen in *; lia). cbn. unfold slice in Hs. by rewrite Hs.
Qed.

Lemma reads_ext {A} (c c' : ItM A) bs a :
  reads c bs a ->
  (forall it m, hdr it m -> m_current it + blen bs <= m_zeroStart it -> c' it m = c it m) ->
  reads c' bs a.
Proof. intros Hc Heq it m Hh Hr Hs. rewrite Heq by done. by apply Hc. Qed.

Lemma reads_U8 b : reads ReadU8 [b] b.
Proof.
  apply (reads_ext (bs ← fetch m_current 1; mret (byte_of bs))).
  - apply (reads_bind_ret _ byte_of [b] [b]). by apply reads_fetch.
  - unfold hdr, blen, ReadU8; cbn. intros it m Hh Hr.
    replace ((m_dataStart it <=? m_current it) && (m_current it <=? m_dataEnd it)) with true by lia.
    by replace (m_current it <? m_zeroStart it) with true by lia.
Qed.

Lemma ntoh32_be32 z : is_u32 z -> ntoh32 (be32 z) = z.
Proof. intros. unfold ntoh32, be32; cbn [nth]. rewrite Z.lor_0_l. by apply bytes_assemble. Qed.

Lemma reads_NtohU32 z : is_u32 z -> reads ReadNtohU32 (be32 z) z.
Proof.
  intros Hz. apply (reads_ext (bs ← fetch m_current 4; mret (ntoh32 bs))).
  - rewrite <- (ntoh32_be32 z) at 2 by done. apply reads_bind_ret. by apply reads_fetch.
  - unfold blen, ReadNtohU32; cbn. intros it m Hh Hr. rewrite (hdr_u32 it m) by (done || lia).
    by replace (m_current it + 4 <=? m_zeroStart it) with true by lia.
Qed.

Lemma reads_U16 z : is_u16 z -> reads ReadU16 (le16 z) z.
Proof.
  intros Hz. unfold le16.
  assert (z = Z.lor (u16 (Z.shiftl (Z.land (Z.shiftr z 8) 0xff) 8)) (Z.land z 0xff)) as E.
  { unfold is_u16 in Hz. change 0xff with (Z.ones 8). rewrite !Z.land_ones, Z.shiftr_div_pow2 by lia.
    change (2 ^ 8) with 256. rewrite u16_small.
    - rewrite lor_shiftl_add by dlia. change (2 ^ 8) with 256. dlia.
    - unfold is_u16. rewrite Z.shiftl_mul_pow2 by lia. change (2 ^ 8) with 256. dlia. }
  rewrite E at 3. apply (reads_bind _ _ [_] [_] (Z.land z 0xff)); [apply reads_U8|].
  apply (reads_bind_ret ReadU8 (fun b1 => Z.lor (u16 (Z.shiftl b1 8)) (Z.land z 0xff))). apply reads_U8.
Qed.

Lemma reads_Read bs : reads (Read (length bs)) bs bs.
Proof.
  induction bs as [|b bs IH]; [apply reads_ret|]. cbn [length Read].
  apply (reads_bind _ _ [b] bs b); [apply reads_U8|]. by apply (reads_bind_ret _ (cons b)).
Qed.

Lemma length_be32 z : length (be32 z) = 4%nat.
Proof. done. Qed.
Lemma length_le16 z : length (le16 z) = 2%nat.
Proof. done. Qed.

(** What was written is read back. *)
Lemma writes_reads {A} (w : ItM unit) (r : ItM A) bs a it m :
  writes w bs -> reads r bs a -> hdr it m -> m_current it + blen bs <= m_zeroStart it ->
  exists m', w it m = Ok (tt, advance it (blen bs), m') /\ blen m' = blen m /\
    r it m' = Ok (a, advance it (blen bs), m').
Proof.
  intros Hw Hr Hh Hroom. eexists; split; [by apply Hw|].
  pose proof (blen_nonneg bs).
  assert (0 <= m_current it /\ m_current it + blen bs <= blen m) as [? ?] by (unfold hdr in Hh; lia).
  rewrite blen_splice by done. split; [done|]. apply Hr; [|done|by apply slice_splice].
  unfold hdr in *. by rewrite blen_splice.
Qed.
