(* ===== verification/BufferWords.v ===== *)
(** * BufferWords: the other integers of [Buffer::Iterator], and the checksum

    src/ns-3/src/common/buffer.cc: integers of 64 bits, the variants with a
    byte order in their name, and [CalculateIpChecksum] with the arithmetic it
    rests on (RFC 1071). *)

From S2P Require Import Prelude Ipv4Address BufferIter.

(** ** Writes *)

(** [k] times [WriteU8 (data & 0xff); data >>= 8] but for the last shift. *)
Fixpoint write_shifting (k : nat) (data : Z) : ItM unit :=
  match k with
  | O => WriteU8 (Z.land data 0xff)
  | S k' => _ ← WriteU8 (Z.land data 0xff); write_shifting k' (Z.shiftr data 8)
  end.
Definition WriteU64 (data : Z) : ItM unit := write_shifting 7 data.

(** [WriteU8 ((data >> s) & 0xff)] for the listed shifts. *)
Fixpoint write_shifted (shifts : list Z) (data : Z) : ItM unit :=
  match shifts with
  | [] => mret tt
  | s :: shifts' => _ ← WriteU8 (Z.land (Z.shiftr data s) 0xff); write_shifted shifts' data
  end.
Definition WriteHtolsbU16 : Z -> ItM unit := write_shifted [0; 8].
Definition WriteHtolsbU32 : Z -> ItM unit := write_shifted [0; 8; 16; 24].
Definition WriteHtolsbU64 : Z -> ItM unit := write_shifted [0; 8; 16; 24; 32; 40; 48; 56].
Definition WriteHtonU64 : Z -> ItM unit := write_shifted [56; 48; 40; 32; 24; 16; 8; 0].

(** ** Reads *)

(** [data <<= 8; data |= byte] on [w]-bit words, over the bytes in order. *)
Definition shift_in (w : Z) (data : Z) (byte : Z) : Z := Z.lor (Z.shiftl data 8 mod 2 ^ w) byte.

(** The bytes are read first and assembled from the last to the first. *)
Definition lsb_word (w : Z) (bytes : list Z) : Z := foldr (fun byte data => shift_in w data byte) 0 bytes.
Definition ReadU64 : ItM Z := bytes ← Read 8; mret (lsb_word 64 bytes).
Definition ReadLsbtohU16 : ItM Z := bytes ← Read 2; mret (lsb_word 16 bytes).
Definition ReadLsbtohU32 : ItM Z := bytes ← Read 4; mret (lsb_word 32 bytes).
Definition ReadLsbtohU64 : ItM Z := bytes ← Read 8; mret (lsb_word 64 bytes).

(** [k] times [retval <<= 8; retval |= ReadU8 ()]. *)
Fixpoint read_shifting (w : Z) (k : nat) (retval : Z) : ItM Z :=
  match k with
  | O => mret retval
  | S k' => b ← ReadU8; read_shifting w k' (shift_in w retval b)
  end.
Definition ReadNtohU64 : ItM Z := b ← ReadU8; read_shifting 64 7 (Z.lor 0 b).

(** [GetDistanceFrom] for iterators over one array; [int32_t diff]. *)
Definition to_int32 (z : Z) : Z := if u32 z <? 2 ^ 31 then u32 z else u32 z - 2 ^ 32.
Definition GetDistanceFrom (it o : Iterator) : Z :=
  let diff := to_int32 (m_current it - m_current o) in
  if diff <? 0 then u32 (- diff) else u32 diff.

(** ** The IP checksum *)

(** [k] times [sum += ReadU16 ()]. *)
Fixpoint sum_words (k : nat) (sum : Z) : ItM Z :=
  match k with
  | O => mret sum
  | S k' => w ← ReadU16; sum_words k' (u32 (sum + w))
  end.

(** [while (sum >> 16) sum = (sum & 0xffff) + (sum >> 16)]: two rounds are
    enough for 32 bits ([fold_carries_done]). *)
Fixpoint fold_carries (fuel : nat) (sum : Z) : Z :=
  match fuel with
  | O => sum
  | S fuel' => if Z.shiftr sum 16 =? 0 then sum
      else fold_carries fuel' (u32 (Z.land sum 0xffff + Z.shiftr sum 16))
  end.

Definition finish_checksum (sum : Z) : Z := u16 (Z.lnot (fold_carries 2 sum)).

Definition CalculateIpChecksum (size initialChecksum : Z) : ItM Z :=
  sum ← sum_words (Z.to_nat (size / 2)) initialChecksum;
  sum ← (if Z.land size 1 =? 0 then mret sum else (b ← ReadU8; mret (u32 (sum + b))));
  mret (finish_checksum sum).

(** ** Writers and readers *)

(** The [n] low bytes of [z], least significant first. *)
Fixpoint le_bytes (n : nat) (z : Z) : list Z :=
  match n with O => [] | S n' => Z.land z 0xff :: le_bytes n' (Z.shiftr z 8) end.

Lemma byte_mod z : Z.land z 0xff = z mod 256.
Proof. change 0xff with (Z.ones 8). by rewrite Z.land_ones by lia. Qed.

Lemma shiftr_8 z : Z.shiftr z 8 = z / 256.
Proof. by rewrite Z.shiftr_div_pow2. Qed.

Lemma shift_in_small w data byte : 0 <= data -> data * 256 < 2 ^ w -> is_u8 byte -> shift_in w data byte = byte + 256 * data.
Proof.
  unfold is_u8. intros H1 H2 Hb. unfold shift_in. rewrite Z.mod_small, lor_shiftl_add; [lia|lia|lia|].
  rewrite Z.shiftl_mul_pow2 by lia. lia.
Qed.

Lemma length_le_bytes n z : length (le_bytes n z) = n.
Proof. revert z; induction n as [|n IH]; intros z; cbn; by rewrite ?IH. Qed.

Lemma lsb_word_le_bytes w n z : 0 <= z < 2 ^ (8 * Z.of_nat n) -> 8 * Z.of_nat n <= w -> lsb_word w (le_bytes n z) = z.
Proof.
  revert z. induction n as [|n IH]; intros z Hz Hw; cbn [le_bytes lsb_word foldr].
  - change (2 ^ (8 * Z.of_nat 0)) with 1 in Hz. lia.
  - fold (lsb_word w (le_bytes n (Z.shiftr z 8))). rewrite shiftr_8, byte_mod.
    assert (2 ^ (8 * Z.of_nat (S n)) = 256 * 2 ^ (8 * Z.of_nat n)) as E.
    { replace (8 * Z.of_nat (S n)) with (8 + 8 * Z.of_nat n) by lia. by rewrite Z.pow_add_r by lia. }
    assert (0 <= z / 256 < 2 ^ (8 * Z.of_nat n)) as Hq by dlia. rewrite IH by (done || lia).
    rewrite shift_in_small; [dlia|lia| |unfold is_u8; dlia].
    assert (2 ^ (8 * Z.of_nat (S n)) <= 2 ^ w) by (apply Z.pow_le_mono_r; lia). lia.
Qed.

Lemma writes_shifting k z : writes (write_shifting k z) (le_bytes (S k) z).
Proof.
  revert z. induction k as [|k IH]; intros z; cbn [write_shifting]; [apply writes_U8|].
  apply (writes_seq _ _ [_]); [apply writes_U8|apply IH].
Qed.

Lemma writes_shifted shifts z : writes (write_shifted shifts z) (map (fun s => Z.land (Z.shiftr z s) 0xff) shifts).
Proof.
  induction shifts as [|s shifts IH]; [apply writes_nil|].
  apply (writes_seq _ _ [_]); [apply writes_U8|apply IH].
Qed.

Lemma le_bytes_shifts n z k : 0 <= k ->
  le_bytes n (Z.shiftr z k) = map (fun i => Z.land (Z.shiftr z (k + 8 * Z.of_nat i)) 0xff) (seq 0 n).
Proof.
  intros Hk. revert k Hk. induction n as [|n IH]; intros k Hk; [done|]. cbn [le_bytes seq map].
  f_equal; [by rewrite Z.add_0_r|]. rewrite Z.shiftr_shiftr, IH by lia.
  rewrite <- seq_shift, map_map. apply map_ext. intros i. do 2 f_equal. lia.
Qed.

Lemma lsb_shifts n z : le_bytes n z = map (fun i => Z.land (Z.shiftr z (8 * Z.of_nat i)) 0xff) (seq 0 n).
Proof. rewrite <- (Z.shiftr_0_r z) at 1. by rewrite le_bytes_shifts. Qed.

Lemma reads_lsb n w z : 0 <= z < 2 ^ (8 * Z.of_nat n) -> 8 * Z.of_nat n <= w ->
  reads (bytes ← Read n; mret (lsb_word w bytes)) (le_bytes n z) z.
Proof.
  intros Hz Hw. rewrite <- (lsb_word_le_bytes w n z) at 2 by done.
  apply (reads_bind_ret _ (lsb_word w)). rewrite <- (length_le_bytes n z) at 1. apply reads_Read.
Qed.

Lemma reads_shifting w k acc bytes : Forall is_u8 bytes -> length bytes = k ->
  reads (read_shifting w k acc) bytes (foldl (shift_in w) acc bytes).
Proof.
  intros Hb <-. revert acc. induction bytes as [|b bytes IH]; intros acc; cbn; [apply reads_ret|].
  inversion Hb; subst. apply (reads_bind ReadU8 _ [b] bytes b); [apply reads_U8|by apply IH].
Qed.

Lemma lsb_word_rev w bytes : lsb_word w bytes = foldl (shift_in w) 0 (rev bytes).
Proof. induction bytes as [|b bytes IH]; [done|]. cbn [rev]. rewrite foldl_app. cbn. by rewrite <- IH. Qed.

Lemma le_bytes_u8 n z : Forall is_u8 (le_bytes n z).
Proof. revert z; induction n as [|n IH]; intros z; cbn [le_bytes]; constructor; [rewrite byte_mod; unfold is_u8; dlia|done]. Qed.

Lemma reads_HtonU64 z : is_u64 z -> reads ReadNtohU64 (rev (le_bytes 8 z)) z.
Proof.
  intros Hz. assert (lsb_word 64 (le_bytes 8 z) = z) as E by (apply lsb_word_le_bytes; [exact Hz|lia]).
  pose proof (le_bytes_u8 8 z) as Hb. rewrite lsb_word_rev in E. apply Forall_rev in Hb.
  assert (length (rev (le_bytes 8 z)) = 8%nat) as Hl by (rewrite length_rev; apply length_le_bytes).
  destruct (rev (le_bytes 8 z)) as [|b bs]; [done|]. rewrite <- E. cbn [foldl].
  inversion Hb as [|? ? Hb0 Hbs]; subst.
  apply (reads_bind ReadU8 _ [b] bs b); [apply reads_U8|].
  replace (shift_in 64 0 b) with (Z.lor 0 b) by done. apply reads_shifting; [done|]. by injection Hl.
Qed.

Lemma writes_HtonU64 z : writes (WriteHtonU64 z) (rev (le_bytes 8 z)).
Proof. rewrite lsb_shifts. exact (writes_shifted _ z). Qed.

(** Every 64-bit or named-order write is undone by its read: the bytes are the
    same, in the order the name says. *)
Lemma words_roundtrip z :
  (is_u64 z -> writes (WriteU64 z) (le_bytes 8 z) /\ reads ReadU64 (le_bytes 8 z) z) /\
  (is_u16 z -> writes (WriteHtolsbU16 z) (le_bytes 2 z) /\ reads ReadLsbtohU16 (le_bytes 2 z) z) /\
  (is_u32 z -> writes (WriteHtolsbU32 z) (le_bytes 4 z) /\ reads ReadLsbtohU32 (le_bytes 4 z) z) /\
  (is_u64 z -> writes (WriteHtolsbU64 z) (le_bytes 8 z) /\ reads ReadLsbtohU64 (le_bytes 8 z) z) /\
  (is_u64 z -> writes (WriteHtonU64 z) (rev (le_bytes 8 z)) /\ reads ReadNtohU64 (rev (le_bytes 8 z)) z).
Proof.
  split_and!; intros Hz; split.
  - apply writes_shifting.
  - apply (reads_lsb 8 64); [exact Hz|lia].
  - rewrite lsb_shifts. apply writes_shifted.
  - apply (reads_lsb 2 16); [exact Hz|lia].
  - rewrite lsb_shifts. apply writes_shifted.
  - apply (reads_lsb 4 32); [exact Hz|lia].
  - rewrite lsb_shifts. apply writes_shifted.
  - apply (reads_lsb 8 64); [exact Hz|lia].
  - apply writes_HtonU64.
  - by apply reads_HtonU64.
Qed.

(** ** Arithmetic of the checksum *)

(** The sum of the 16-bit words, least significant byte first. *)
Fixpoint word_sum (bytes : list Z) : Z :=
  match bytes with
  | a :: b :: bytes' => a + 256 * b + word_sum bytes'
  | [a] => a
  | [] => 0
  end.

Lemma word_sum_app bs1 bs2 : Nat.Even (length bs1) -> word_sum (bs1 ++ bs2) = word_sum bs1 + word_sum bs2.
Proof.
  intros [k Hk]. revert bs1 Hk. induction k as [|k IH]; intros bs1 Hk.
  - by destruct bs1.
  - destruct bs1 as [|a [|b bs1]]; [done|cbn in Hk; lia|]. cbn [app word_sum]. rewrite (IH bs1); [lia|]. cbn in Hk. lia.
Qed.

Lemma word_sum_range k bytes : length bytes = (2 * k)%nat -> Forall is_u8 bytes -> 0 <= word_sum bytes <= 65535 * Z.of_nat k.
Proof.
  revert bytes. induction k as [|k IH]; intros bytes Hl Hb.
  - destruct bytes; [cbn; lia|done].
  - destruct bytes as [|a [|b bytes]]; [cbn in Hl; lia..|]. inversion Hb as [|? ? Ha Hb']; subst.
    inversion Hb' as [|? ? Hb0 Hbs]; subst. unfold is_u8 in *. cbn [word_sum].
    specialize (IH bytes). cbn in Hl. specialize (IH ltac:(lia) Hbs). lia.
Qed.

Lemma reads_word a b : is_u8 a -> is_u8 b -> reads ReadU16 [a; b] (a + 256 * b).
Proof.
  intros Ha Hb. pose proof (reads_U16 (a + 256 * b)) as H. unfold le16 in H.
  rewrite !byte_mod, shiftr_8 in H. unfold is_u8, is_u16 in *.
  replace ((a + 256 * b) mod 256) with a in H by dlia. replace ((a + 256 * b) / 256 mod 256) with b in H by dlia.
  apply H. lia.
Qed.

Lemma reads_sum_words k sum bytes : Forall is_u8 bytes -> length bytes = (2 * k)%nat -> 0 <= sum ->
  sum + word_sum bytes < 2 ^ 32 -> reads (sum_words k sum) bytes (sum + word_sum bytes).
Proof.
  revert sum bytes. induction k as [|k IH]; intros sum bytes Hb Hl Hs Hlt.
  - destruct bytes; [|done]. cbn. rewrite Z.add_0_r. apply reads_ret.
  - destruct bytes as [|a [|b bytes]]; [cbn in Hl; lia..|]. inversion Hb as [|? ? Ha Hb']; subst.
    inversion Hb' as [|? ? Hb0 Hbs]; subst. cbn [word_sum sum_words] in *. cbn in Hl.
    pose proof (word_sum_range k bytes ltac:(lia) Hbs).
    apply (reads_bind _ _ [a; b] bytes (a + 256 * b)); [by apply reads_word|]. unfold is_u8 in *.
    rewrite u32_small by (unfold is_u32; lia).
    replace (sum + (a + 256 * b + word_sum bytes)) with (sum + (a + 256 * b) + word_sum bytes) by lia.
    apply IH; [done|lia..].
Qed.

(** On an even number of bytes. *)
Lemma reads_checksum k bytes : Forall is_u8 bytes -> length bytes = (2 * k)%nat -> Z.of_nat k < 2 ^ 15 ->
  reads (CalculateIpChecksum (blen bytes) 0) bytes (finish_checksum (word_sum bytes)).
Proof.
  intros Hb Hl Hk. pose proof (word_sum_range k bytes Hl Hb). unfold CalculateIpChecksum, blen. rewrite Hl.
  replace (Z.to_nat (Z.of_nat (2 * k) / 2)) with k by dlia.
  replace (Z.land (Z.of_nat (2 * k)) 1 =? 0) with true.
  2: { change 1 with (Z.ones 1). rewrite Z.land_ones by lia. symmetry. change (2 ^ 1) with 2. dlia. }
  rewrite <- (app_nil_r bytes) at 1. eapply reads_bind; [by apply (reads_sum_words k 0); [| |lia|lia]|].
  rewrite Z.add_0_l. apply (reads_bind (mret (word_sum bytes)) _ [] [] (word_sum bytes)); apply reads_ret.
Qed.

(** Folding keeps the residue modulo 65535, and ends. *)
Lemma fold_carries_done sum : is_u32 sum ->
  let f := fold_carries 2 sum in 0 <= f < 65536 /\ f mod 65535 = sum mod 65535 /\ (f = 0 <-> sum = 0) /\
  forall fuel, (2 <= fuel)%nat -> fold_carries fuel sum = f.
Proof.
  intros Hs. cbn zeta.
  assert (forall s, Z.shiftr s 16 = s / 65536) as Hsh by (intros s; by rewrite Z.shiftr_div_pow2).
  assert (forall s, Z.land s 0xffff = s mod 65536) as Hl
    by (intros s; change 0xffff with (Z.ones 16); by rewrite Z.land_ones by lia).
  assert (forall fuel s, 0 <= s < 65536 -> fold_carries fuel s = s) as Hstop.
  { intros [|fuel] s Hr; [done|]. cbn. rewrite Hsh, Z.div_small by lia. done. }
  assert (forall fuel s, 65536 <= s -> is_u32 s -> fold_carries (S fuel) s = fold_carries fuel (s mod 65536 + s / 65536)) as Hstep.
  { intros fuel s Hr Hu. cbn [fold_carries]. rewrite Hsh, Hl. unfold is_u32 in Hu.
    assert (1 <= s / 65536) by (apply Z.div_le_lower_bound; lia).
    replace (s / 65536 =? 0) with false by lia.
    by rewrite u32_small by (unfold is_u32; dlia). }
  unfold is_u32 in Hs. destruct (Z_lt_ge_dec sum 65536).
  - rewrite (Hstop 2%nat) by lia. split_and!; [lia|lia|done|lia|]. intros fuel _. apply Hstop. lia.
  - set (s1 := sum mod 65536 + sum / 65536).
    assert (0 < s1 < 131071 /\ s1 mod 65535 = sum mod 65535) as [H1 H1m] by (unfold s1; dlia).
    assert (forall fuel, (2 <= fuel)%nat -> fold_carries fuel sum = fold_carries 1 s1) as Hall.
    { intros [|[|fuel]] Hf; [lia..|]. rewrite Hstep by (unfold is_u32; lia). fold s1.
      destruct (Z_lt_ge_dec s1 65536); [by rewrite !Hstop by lia|].
      rewrite !Hstep by (unfold is_u32; lia). rewrite !Hstop by dlia. done. }
    rewrite (Hall 2%nat) by lia. destruct (Z_lt_ge_dec s1 65536).
    + rewrite Hstop by lia. rewrite Hstop in Hall by lia. split_and!; [lia|lia|done|lia|done].
    + rewrite Hstep by (unfold is_u32; lia). rewrite Hstop by dlia. split_and!; [dlia|dlia|dlia|dlia|].
      intros fuel Hf. rewrite Hall by done. rewrite Hstep by (unfold is_u32; lia). by rewrite Hstop by dlia.
Qed.

Lemma finish_checksum_eq sum : is_u32 sum -> finish_checksum sum = 65535 - fold_carries 2 sum.
Proof.
  intros Hs. destruct (fold_carries_done sum Hs) as (Hr & _). unfold finish_checksum, Z.lnot, u16. dlia.
Qed.

(** The checksum is 0 for the words whose sum is a positive multiple of
    65535. *)
Lemma checksum_zero sum : is_u32 sum -> finish_checksum sum = 0 <-> 0 < sum /\ sum mod 65535 = 0.
Proof.
  intros Hs. rewrite finish_checksum_eq by done. destruct (fold_carries_done sum Hs) as (Hr & Hm & Hz & _).
  unfold is_u32 in Hs. rewrite <- Hm. dlia.
Qed.

(** A sum completed by its checksum has checksum 0. *)
Lemma checksum_closes sum : 0 <= sum -> sum + 65535 < 2 ^ 32 -> finish_checksum (sum + finish_checksum sum) = 0.
Proof.
  intros Hs Hlt. rewrite (finish_checksum_eq sum) by (unfold is_u32; lia).
  destruct (fold_carries_done sum ltac:(unfold is_u32; lia)) as (Hr & Hm & Hz & _).
  apply checksum_zero; [unfold is_u32; lia|]. split; [destruct (Z.eq_dec sum 0); [apply Hz in e as ?; lia|lia]|].
  revert Hm Hr. generalize (fold_carries 2 sum). intros f Hm Hr. dlia.
Qed.
