(* ===== verification/Buffer.v ===== *)
(** * Buffer: the reference-counted packet buffer

    src/ns-3/src/common/buffer.cc and the header operations of
    src/ns-3/src/common/packet.cc.  The array [Buffer::Data] is a value here:
    a shared array ([m_count > 1]) is only ever written outside the part its
    other owners use, or replaced by a new one, so sharing is not observable but
    for one assertion ([same] in BufferCopy.v);
    [m_count] is kept because the code branches on it.  [Create] is an argument
    of the operations that allocate, with the interface [Allocator] as what they
    rely on; BufferPool.v has the [Create] of the code and proves the interface. *)

From S2P Require Import Prelude StdMap StdString Ipv4Address BufferIter.

Record BufferData := {
  m_count : Z;
  m_size : Z;
  m_dirtyStart : Z;
  m_dirtyEnd : Z;
  m_data : mem
}.

Record Buffer := {
  buf : BufferData;
  m_maxZeroAreaStart : Z;
  m_zeroAreaStart : Z;
  m_zeroAreaEnd : Z;
  m_start : Z;
  m_end : Z
}.

(** What the code relies on in [Create]: an array of its own that is large
    enough, as long as the header of the array fits in 32 bits next to it. *)
Notation array_max := (2 ^ 32 - 19) (only parsing).

Class Allocator (Create : Z -> BufferData) : Prop := Create_array n : 0 <= n < array_max ->
  n <= m_size (Create n) /\ m_size (Create n) < 2 ^ 32 /\
  blen (m_data (Create n)) = m_size (Create n) /\ m_count (Create n) = 1.

Definition set_dirty (d : BufferData) (s e : Z) : BufferData := {|
  m_count := m_count d; m_size := m_size d; m_dirtyStart := s; m_dirtyEnd := e; m_data := m_data d |}.
Definition set_bytes (d : BufferData) (bs : mem) : BufferData := {|
  m_count := m_count d; m_size := m_size d;
  m_dirtyStart := m_dirtyStart d; m_dirtyEnd := m_dirtyEnd d; m_data := bs |}.

Definition with_count (b : Buffer) (count maxZeroAreaStart : Z) : Buffer := {|
  buf := {| m_count := count; m_size := m_size (buf b); m_dirtyStart := m_dirtyStart (buf b);
    m_dirtyEnd := m_dirtyEnd (buf b); m_data := m_data (buf b) |};
  m_maxZeroAreaStart := maxZeroAreaStart; m_zeroAreaStart := m_zeroAreaStart b; m_zeroAreaEnd := m_zeroAreaEnd b;
  m_start := m_start b; m_end := m_end b |}.

(** [Buffer (o)], the copy constructor: one more owner of the array. *)
Definition copy_of (o : Buffer) : Buffer := with_count o (m_count (buf o) + 1) (m_zeroAreaStart o).

Definition Buffer_GetSize (b : Buffer) : Z := u32 (m_end b - m_start b).
Definition GetInternalSize (b : Buffer) : Z :=
  u32 (m_zeroAreaStart b - m_start b + m_end b - m_zeroAreaEnd b).
Definition GetInternalEnd (b : Buffer) : Z := u32 (m_end b - (m_zeroAreaEnd b - m_zeroAreaStart b)).

(** [Iterator::Construct], then the cursor at the start or at the end. *)
Definition Construct (b : Buffer) (current : Z) : Iterator := {|
  m_zeroStart := m_zeroAreaStart b;
  m_zeroEnd := m_zeroAreaEnd b;
  m_dataStart := m_start b;
  m_dataEnd := m_end b;
  m_current := current |}.
Definition Begin (b : Buffer) : Iterator := Construct b (m_start b).
Definition End_ (b : Buffer) : Iterator := Construct b (m_end b).

Definition with_offsets (d : BufferData) (max zs ze s e : Z) : Buffer := {|
  buf := d; m_maxZeroAreaStart := Z.max max zs; m_zeroAreaStart := zs; m_zeroAreaEnd := ze;
  m_start := s; m_end := e |}.

Section buffer.
Context (Create : Z -> BufferData).

Definition AddAtStart (start : Z) (b : Buffer) : result (bool * Buffer) :=
  let d := buf b in
  let isDirty := (1 <? m_count d) && (m_dirtyStart d <? m_start b) in
  if (start <=? m_start b) && negb isDirty then
    _ ← assert ((m_count d =? 1) || (m_start b =? m_dirtyStart d));
    let s := u32 (m_start b - start) in
    let dirty := m_dirtyStart d <? s in
    Ok (dirty, with_offsets (set_dirty d s (m_dirtyEnd d))
                 (m_maxZeroAreaStart b) (m_zeroAreaStart b) (m_zeroAreaEnd b) s (m_end b))
  else
    let newSize := u32 (GetInternalSize b + start) in
    let newData := Create newSize in
    src ← mem_read (m_data d) (m_start b) (Z.to_nat (GetInternalSize b));
    bytes ← mem_write (m_data newData) start src;
    let delta := start - m_start b in
    let s := u32 (u32 (m_start b + delta) - start) in
    let zs := u32 (m_zeroAreaStart b + delta) in
    let ze := u32 (m_zeroAreaEnd b + delta) in
    let e := u32 (m_end b + delta) in
    Ok (true, with_offsets (set_dirty (set_bytes newData bytes) s e)
                (m_maxZeroAreaStart b) zs ze s e).

Definition AddAtEnd (end_ : Z) (b : Buffer) : result (bool * Buffer) :=
  let d := buf b in
  let isDirty := (1 <? m_count d) && (m_end b <? m_dirtyEnd d) in
  if (u32 (GetInternalEnd b + end_) <=? m_size d) && negb isDirty then
    _ ← assert ((m_count d =? 1) || (m_end b =? m_dirtyEnd d));
    let e := u32 (m_end b + end_) in
    let d' := set_dirty d (m_dirtyStart d) e in
    let dirty := e <? m_dirtyEnd d' in
    Ok (dirty, with_offsets d' (m_maxZeroAreaStart b) (m_zeroAreaStart b) (m_zeroAreaEnd b) (m_start b) e)
  else
    let newSize := u32 (GetInternalSize b + end_) in
    let newData := Create newSize in
    src ← mem_read (m_data d) (m_start b) (Z.to_nat (GetInternalSize b));
    bytes ← mem_write (m_data newData) 0 src;
    let delta := - m_start b in
    let zs := u32 (m_zeroAreaStart b + delta) in
    let ze := u32 (m_zeroAreaEnd b + delta) in
    let e := u32 (m_end b + delta) in
    let s := u32 (m_start b + delta) in
    let e := u32 (e + end_) in
    Ok (true, with_offsets (set_dirty (set_bytes newData bytes) s e)
                (m_maxZeroAreaStart b) zs ze s e).

Definition RemoveAtStart (start : Z) (b : Buffer) : result Buffer :=
  let newStart := u32 (m_start b + start) in
  let max := m_maxZeroAreaStart b in
  if newStart <=? m_zeroAreaStart b then
    Ok (with_offsets (buf b) max (m_zeroAreaStart b) (m_zeroAreaEnd b) newStart (m_end b))
  else if newStart <=? m_zeroAreaEnd b then
    let delta := newStart - m_zeroAreaStart b in
    Ok (with_offsets (buf b) max (m_zeroAreaStart b) (u32 (m_zeroAreaEnd b - delta))
          (m_zeroAreaStart b) (u32 (m_end b - delta)))
  else if newStart <=? m_end b then
    _ ← assert (start <=? m_end b);
    let zeroSize := m_zeroAreaEnd b - m_zeroAreaStart b in
    let s := u32 (newStart - zeroSize) in
    Ok (with_offsets (buf b) max s s s (u32 (m_end b - zeroSize)))
  else
    let e := u32 (m_end b - (m_zeroAreaEnd b - m_zeroAreaStart b)) in
    Ok (with_offsets (buf b) max e e e e).

Definition RemoveAtEnd (end_ : Z) (b : Buffer) : result Buffer :=
  let newEnd := u32 (m_end b - Z.min end_ (u32 (m_end b - m_start b))) in
  let max := m_maxZeroAreaStart b in
  if m_zeroAreaEnd b <? newEnd then
    Ok (with_offsets (buf b) max (m_zeroAreaStart b) (m_zeroAreaEnd b) (m_start b) newEnd)
  else if m_zeroAreaStart b <? newEnd then
    Ok (with_offsets (buf b) max (m_zeroAreaStart b) newEnd (m_start b) newEnd)
  else if m_start b <? newEnd then
    Ok (with_offsets (buf b) max newEnd newEnd (m_start b) newEnd)
  else
    Ok (with_offsets (buf b) max (m_start b) (m_start b) (m_start b) (m_start b)).

(** [Buffer::Initialize] and [CreateFragment] *)
Definition Initialize (g_recommendedStart zeroSize : Z) : Buffer :=
  let d := Create 0 in
  let s := Z.min (m_size d) g_recommendedStart in
  let ze := u32 (s + zeroSize) in
  {| buf := set_dirty d s ze; m_maxZeroAreaStart := s; m_zeroAreaStart := s;
     m_zeroAreaEnd := ze; m_start := s; m_end := ze |}.

Definition CreateFragment (start length : Z) (b : Buffer) : result Buffer :=
  tmp ← RemoveAtStart start (copy_of b);
  RemoveAtEnd (u32 (Buffer_GetSize b - u32 (start + length))) tmp.

(** ** Packet: headers.  A [Header] is its serialised size and its writer. *)

Definition Packet_AddHeader (size : Z) (Serialize : ItM unit) (p : Buffer) : result Buffer :=
  '(_, p') ← AddAtStart size p;
  match Serialize (Begin p') (m_data (buf p')) with
  | Ok (_, _, bytes) => Ok {| buf := set_bytes (buf p') bytes;
      m_maxZeroAreaStart := m_maxZeroAreaStart p'; m_zeroAreaStart := m_zeroAreaStart p';
      m_zeroAreaEnd := m_zeroAreaEnd p'; m_start := m_start p'; m_end := m_end p' |}
  | Fault f => Fault f
  end.

(** [Deserialize] returns the header and the number of bytes it claims. *)
Definition Packet_RemoveHeader {A} (Deserialize : ItM (A * Z)) (p : Buffer) : result (A * Buffer) :=
  match Deserialize (Begin p) (m_data (buf p)) with
  | Ok (h, deserialized, _, _) => p' ← RemoveAtStart deserialized p; Ok (h, p')
  | Fault f => Fault f
  end.

(** ** Representation invariant and abstract contents *)

Definition wf (b : Buffer) : Prop :=
  0 <= m_start b /\ m_start b <= m_zeroAreaStart b /\ m_zeroAreaStart b <= m_zeroAreaEnd b /\
  m_zeroAreaEnd b <= m_end b /\ m_end b < 2 ^ 32 /\
  m_end b - (m_zeroAreaEnd b - m_zeroAreaStart b) <= m_size (buf b) /\
  blen (m_data (buf b)) = m_size (buf b) /\ m_size (buf b) < 2 ^ 32 /\
  1 <= m_count (buf b) /\ 0 <= m_dirtyStart (buf b) /\
  m_dirtyStart (buf b) <= m_start b /\ m_end b <= m_dirtyEnd (buf b).

(** The bytes the buffer stands for. *)
Definition contents (b : Buffer) : list Z :=
  slice (m_data (buf b)) (m_start b) (Z.to_nat (m_zeroAreaStart b - m_start b)) ++
  replicate (Z.to_nat (m_zeroAreaEnd b - m_zeroAreaStart b)) 0 ++
  slice (m_data (buf b)) (m_zeroAreaStart b) (Z.to_nat (m_end b - m_zeroAreaEnd b)).

Hypothesis Create_ok : Allocator Create.

Lemma with_count_ok b n m : 1 <= n -> wf b -> wf (with_count b n m) /\ contents (with_count b n m) = contents b.
Proof. unfold wf, with_count, contents. cbn. intros. split; [lia|done]. Qed.

Lemma length_slice m i n : 0 <= i -> i + Z.of_nat n <= blen m -> length (slice m i n) = n.
Proof. unfold slice, blen. intros. rewrite length_take, length_drop. lia. Qed.

Lemma slice_plus m i a c : 0 <= i -> slice m i (a + c) = slice m i a ++ slice m (i + Z.of_nat a) c.
Proof.
  unfold slice. intros. rewrite Z2Nat.inj_add, Nat2Z.id by lia.
  rewrite <- drop_drop. by rewrite take_take_drop.
Qed.

Lemma slice_0 m i : slice m i 0 = [].
Proof. done. Qed.

Lemma drop_slice m i n k : 0 <= i -> drop k (slice m i n) = slice m (i + Z.of_nat k) (n - k).
Proof.
  unfold slice. intros. rewrite Z2Nat.inj_add, Nat2Z.id by lia. rewrite <- drop_drop.
  by rewrite skipn_firstn_comm.
Qed.

Lemma take_slice m i n k : (k <= n)%nat -> take k (slice m i n) = slice m i k.
Proof. unfold slice. intros. rewrite take_take. f_equal. lia. Qed.

Lemma length_contents b : wf b -> length (contents b) = Z.to_nat (m_end b - m_start b).
Proof.
  unfold wf, contents. intros. rewrite !length_app, length_replicate, !length_slice by lia. lia.
Qed.

Ltac buffer_unfold :=
  unfold wf, contents, with_offsets, set_dirty, set_bytes in *; cbn in *.

Lemma slice_slice m i n k c :
  0 <= i -> 0 <= k -> (Z.to_nat k + c <= n)%nat -> slice (slice m i n) k c = slice m (i + k) c.
Proof.
  intros. unfold slice at 1. rewrite drop_slice, take_slice by lia. f_equal; lia.
Qed.

Lemma slice_in_splice m i bs k c :
  0 <= i -> i + blen bs <= blen m -> 0 <= k -> (Z.to_nat k + c <= length bs)%nat ->
  slice (splice m i bs) (i + k) c = slice bs k c.
Proof.
  intros Hi Hb Hk Hc. rewrite <- (slice_slice _ i (length bs)) by lia.
  by rewrite slice_splice.
Qed.

Lemma mem_read_ok m i n : 0 <= i -> i + Z.of_nat n <= blen m -> mem_read m i n = Ok (slice m i n).
Proof. intros. unfold mem_read. by rewrite bool_decide_true by done. Qed.

Lemma mem_write_ok m i bs : 0 <= i -> i + blen bs <= blen m -> mem_write m i bs = Ok (splice m i bs).
Proof. intros. unfold mem_write. by rewrite bool_decide_true by done. Qed.

Lemma GetInternalSize_wf b : wf b ->
  GetInternalSize b = (m_zeroAreaStart b - m_start b) + (m_end b - m_zeroAreaEnd b).
Proof. unfold wf. intros. unfold GetInternalSize. rewrite u32_small; unfold is_u32; lia. Qed.

(** The copy made by a reallocation: the stored bytes, moved to [at_]. *)
Lemma realloc_copy b at_ newSize :
  wf b -> 0 <= at_ -> at_ + GetInternalSize b <= newSize -> newSize < array_max ->
  exists bytes,
    (src ← mem_read (m_data (buf b)) (m_start b) (Z.to_nat (GetInternalSize b));
     mem_write (m_data (Create newSize)) at_ src) = Ok bytes /\
    blen bytes = m_size (Create newSize) /\
    slice bytes at_ (Z.to_nat (m_zeroAreaStart b - m_start b)) =
      slice (m_data (buf b)) (m_start b) (Z.to_nat (m_zeroAreaStart b - m_start b)) /\
    slice bytes (at_ + (m_zeroAreaStart b - m_start b)) (Z.to_nat (m_end b - m_zeroAreaEnd b)) =
      slice (m_data (buf b)) (m_zeroAreaStart b) (Z.to_nat (m_end b - m_zeroAreaEnd b)).
Proof using Create_ok.
  intros Hwf Hat Hsz Hlt. rewrite GetInternalSize_wf in * by done. unfold wf in Hwf. destruct_and!.
  destruct (Create_ok newSize ltac:(lia)) as (? & ? & ? & ?).
  rewrite mem_read_ok by lia. set (src := slice _ _ _).
  assert (blen src = m_zeroAreaStart b - m_start b + (m_end b - m_zeroAreaEnd b)) as Hsrc.
  { unfold src, blen. rewrite length_slice; lia. }
  cbn. rewrite mem_write_ok by lia. eexists; split_and!; [done|..].
  - by rewrite blen_splice by lia.
  - rewrite <- (Z.add_0_r at_) at 2. rewrite slice_in_splice; [|unfold blen in *; lia..].
    unfold src. rewrite slice_slice by lia. f_equal; lia.
  - rewrite slice_in_splice; [|unfold blen in *; lia..].
    unfold src. rewrite slice_slice by lia. f_equal; lia.
Qed.

(** [AddAtStart] puts [n] bytes of unspecified value in front. *)
Lemma AddAtStart_contents n b :
  wf b -> 0 <= n -> m_end b + n < array_max ->
  exists dirty b' x, AddAtStart n b = Ok (dirty, b') /\ wf b' /\
    contents b' = x ++ contents b /\ blen x = n /\ m_start b' + n <= m_zeroAreaStart b' /\ m_end b' <= m_end b + n.
Proof using Create_ok.
  intros Hwf Hn Hbound. pose proof Hwf as Hwf'. unfold wf in Hwf'. destruct_and!.
  unfold AddAtStart. destruct ((n <=? m_start b) && _) eqn:Hbr.
  - apply andb_true_iff in Hbr as [Hle Hd].
    replace ((m_count (buf b) =? 1) || _) with true by lia. cbn [assert mbind result_bind].
    rewrite u32_small by (unfold is_u32; lia).
    eexists _, _, (slice (m_data (buf b)) (m_start b - n) (Z.to_nat n)). split_and!; [done|..].
    + buffer_unfold. lia.
    + buffer_unfold. rewrite (app_assoc (slice _ (m_start b - n) (Z.to_nat n))). f_equal.
      replace (Z.to_nat (m_zeroAreaStart b - _)) with
        (Z.to_nat n + Z.to_nat (m_zeroAreaStart b - m_start b))%nat by lia.
      rewrite slice_plus by lia. do 2 f_equal. lia.
    + unfold blen. rewrite length_slice; lia.
    + cbn. lia.
    + cbn. lia.
  - rewrite (GetInternalSize_wf b) by done.
    destruct (realloc_copy b n (n + GetInternalSize b)) as (bytes & Hb & Hlen & Hh & Ht);
      [done|lia..|rewrite GetInternalSize_wf by done; lia|].
    rewrite (GetInternalSize_wf b) in * by done.
    rewrite (Z.add_comm (_ + _) n), (u32_small (n + _)) by (unfold is_u32; lia).
    apply bind_Ok in Hb as (src & -> & Hsrc). cbn [mbind result_bind]. rewrite Hsrc. cbn [mbind result_bind].
    rewrite !u32_small by (unfold is_u32; rewrite ?u32_small; unfold is_u32; lia).
    destruct (Create_ok (n + (m_zeroAreaStart b - m_start b + (m_end b - m_zeroAreaEnd b))))
      as (? & ? & ? & ?); [lia|].
    eexists _, _, (slice bytes 0 (Z.to_nat n)). split_and!; [done|..].
    + buffer_unfold. rewrite Hlen. lia.
    + buffer_unfold. rewrite (app_assoc (slice bytes 0 (Z.to_nat n))). f_equal.
      * replace (m_start b + (n - m_start b) - n) with 0 by lia.
        replace (Z.to_nat (m_zeroAreaStart b + (n - m_start b) - 0)) with
          (Z.to_nat n + Z.to_nat (m_zeroAreaStart b - m_start b))%nat by lia.
        rewrite slice_plus by lia. rewrite <- Hh. do 2 f_equal. lia.
      * f_equal; [f_equal; lia|]. rewrite <- Ht. f_equal; lia.
    + unfold blen. rewrite length_slice; lia.
    + cbn. lia.
    + cbn. lia.
Qed.

(** [AddAtEnd] puts them behind. *)
Lemma AddAtEnd_contents n b :
  wf b -> 0 <= n -> m_end b + n < array_max ->
  exists dirty b' x, AddAtEnd n b = Ok (dirty, b') /\ wf b' /\
    contents b' = contents b ++ x /\ blen x = n /\ m_end b' <= m_end b + n.
Proof using Create_ok.
  intros Hwf Hn Hbound. pose proof Hwf as Hwf'. unfold wf in Hwf'. destruct_and!.
  unfold AddAtEnd, GetInternalEnd.
  rewrite (u32_small (_ - (_ - _))) by (unfold is_u32; lia).
  rewrite (u32_small (_ - (_ - _) + n)) by (unfold is_u32; lia).
  destruct ((_ <=? m_size (buf b)) && _) eqn:Hbr.
  - apply andb_true_iff in Hbr as [Hle Hd].
    replace ((m_count (buf b) =? 1) || _) with true by lia. cbn [assert mbind result_bind].
    rewrite u32_small by (unfold is_u32; lia).
    eexists _, _, (slice (m_data (buf b)) (m_zeroAreaStart b + (m_end b - m_zeroAreaEnd b)) (Z.to_nat n)).
    split_and!; [done|..].
    + buffer_unfold. lia.
    + buffer_unfold. rewrite <- !app_assoc. do 2 f_equal.
      replace (Z.to_nat (m_end b + n - _)) with (Z.to_nat (m_end b - m_zeroAreaEnd b) + Z.to_nat n)%nat by lia.
      rewrite slice_plus by lia. do 2 f_equal. lia.
    + unfold blen. rewrite length_slice; lia.
    + cbn. lia.
  - rewrite (GetInternalSize_wf b) by done.
    destruct (realloc_copy b 0 (GetInternalSize b + n)) as (bytes & Hb & Hlen & Hh & Ht);
      [done|lia..|rewrite GetInternalSize_wf by done; lia|].
    rewrite (GetInternalSize_wf b) in * by done.
    rewrite (u32_small (_ + n)) by (unfold is_u32; lia).
    apply bind_Ok in Hb as (src & -> & Hsrc). cbn [mbind result_bind]. rewrite Hsrc. cbn [mbind result_bind].
    rewrite !u32_small by (unfold is_u32; rewrite ?u32_small; unfold is_u32; lia).
    destruct (Create_ok (m_zeroAreaStart b - m_start b + (m_end b - m_zeroAreaEnd b) + n))
      as (? & ? & ? & ?); [lia|].
    eexists _, _, (slice bytes (m_zeroAreaStart b - m_start b + (m_end b - m_zeroAreaEnd b)) (Z.to_nat n)).
    split_and!; [done|..].
    + buffer_unfold. rewrite Hlen. lia.
    + buffer_unfold. rewrite <- !app_assoc. f_equal; [|f_equal].
      * rewrite <- Hh. f_equal; lia.
      * f_equal; lia.
      * replace (Z.to_nat (m_end b + - m_start b + n - _)) with
          (Z.to_nat (m_end b - m_zeroAreaEnd b) + Z.to_nat n)%nat by lia.
        rewrite slice_plus by lia. rewrite <- Ht. f_equal; f_equal; lia.
    + unfold blen. rewrite length_slice; lia.
    + cbn. lia.
Qed.

(** [RemoveAtStart] drops a prefix, whatever areas it reaches into. *)
Lemma RemoveAtStart_contents n b :
  wf b -> 0 <= n -> m_start b + n < 2 ^ 32 ->
  exists b', RemoveAtStart n b = Ok b' /\ wf b' /\
    contents b' = drop (Z.to_nat n) (contents b) /\ m_end b' <= m_end b.
Proof.
  intros Hwf Hn Hbound. pose proof Hwf as Hwf'. unfold wf in Hwf'. destruct_and!.
  unfold RemoveAtStart. rewrite (u32_small (m_start b + n)) by (unfold is_u32; lia).
  destruct (Z.leb_spec (m_start b + n) (m_zeroAreaStart b)); [|
  destruct (Z.leb_spec (m_start b + n) (m_zeroAreaEnd b)); [|
  destruct (Z.leb_spec (m_start b + n) (m_end b))]].
  - eexists; split_and!; [done|buffer_unfold; lia| |buffer_unfold; lia]. buffer_unfold.
    rewrite drop_app_le by (rewrite length_slice; lia). rewrite drop_slice by lia.
    f_equal. f_equal; lia.
  - rewrite !u32_small by (unfold is_u32; lia).
    eexists; split_and!; [done|buffer_unfold; lia| |buffer_unfold; lia]. buffer_unfold.
    rewrite Z.sub_diag, slice_0, drop_app_ge, length_slice by (rewrite ?length_slice; lia).
    rewrite drop_app_le by (rewrite length_replicate; lia). rewrite drop_replicate. cbn.
    f_equal; f_equal; lia.
  - replace (n <=? m_end b) with true by lia. cbn [assert mbind result_bind].
    rewrite !u32_small by (unfold is_u32; rewrite ?u32_small; unfold is_u32; lia).
    eexists; split_and!; [done|buffer_unfold; lia| |buffer_unfold; lia]. buffer_unfold.
    rewrite !Z.sub_diag, slice_0, !drop_app_ge, length_slice, length_replicate
      by (rewrite ?length_slice, ?length_replicate; lia).
    rewrite drop_slice by lia. change (Z.to_nat 0) with 0%nat. cbn. f_equal; lia.
  - rewrite !u32_small by (unfold is_u32; lia).
    eexists; split_and!; [done|buffer_unfold; lia| |buffer_unfold; lia]. rewrite drop_ge by (rewrite length_contents by done; lia).
    buffer_unfold. by rewrite !Z.sub_diag, !slice_0.
Qed.

(** [RemoveAtEnd] drops a suffix. *)
Lemma RemoveAtEnd_contents n b :
  wf b -> 0 <= n ->
  exists b', RemoveAtEnd n b = Ok b' /\ wf b' /\
    contents b' = take (Z.to_nat (m_end b - m_start b - n)) (contents b) /\ m_end b' <= m_end b.
Proof.
  intros Hwf Hn. pose proof Hwf as Hwf'. unfold wf in Hwf'. destruct_and!.
  unfold RemoveAtEnd. rewrite (u32_small (m_end b - m_start b)) by (unfold is_u32; lia).
  rewrite u32_small by (unfold is_u32; lia).
  destruct (Z.ltb_spec (m_zeroAreaEnd b) (m_end b - Z.min n (m_end b - m_start b))); [|
  destruct (Z.ltb_spec (m_zeroAreaStart b) (m_end b - Z.min n (m_end b - m_start b))); [|
  destruct (Z.ltb_spec (m_start b) (m_end b - Z.min n (m_end b - m_start b)))]].
  - eexists; split_and!; [done|buffer_unfold; lia| |buffer_unfold; lia]. buffer_unfold.
    rewrite !take_app_ge, length_slice, length_replicate by (rewrite ?length_slice, ?length_replicate; lia).
    rewrite take_slice by lia. do 2 f_equal. f_equal. lia.
  - eexists; split_and!; [done|buffer_unfold; lia| |buffer_unfold; lia]. buffer_unfold.
    rewrite take_app_ge, length_slice by (rewrite ?length_slice; lia).
    rewrite take_app_le by (rewrite length_replicate; lia). rewrite take_replicate.
    rewrite Z.sub_diag, slice_0, app_nil_r. f_equal. f_equal. lia.
  - eexists; split_and!; [done|buffer_unfold; lia| |buffer_unfold; lia]. buffer_unfold.
    rewrite take_app_le by (rewrite ?length_slice; lia).
    rewrite take_slice by lia. rewrite !Z.sub_diag, slice_0, !app_nil_r. f_equal. lia.
  - eexists; split_and!; [done|buffer_unfold; lia| |buffer_unfold; lia].
    replace (Z.to_nat (m_end b - m_start b - n)) with 0%nat by lia.
    buffer_unfold. by rewrite !Z.sub_diag, !slice_0.
Qed.

(** ** Headers on packets *)

Lemma slice_splice_after m i bs j c :
  0 <= i -> i + blen bs <= j -> i + blen bs <= blen m -> slice (splice m i bs) j c = slice m j c.
Proof.
  intros Hi Hj Hb. destruct (mem_split m i (length bs)) as (l & x & r & -> & -> & Hx);
    [done|unfold blen in *; lia|].
  rewrite splice_app by done. unfold slice. f_equal.
  rewrite !app_assoc, !drop_app_ge; [|rewrite !length_app; unfold blen in *; lia..].
  f_equal. rewrite !length_app. lia.
Qed.

Lemma hdr_Begin b : wf b -> hdr (Begin b) (m_data (buf b)).
Proof. unfold wf, hdr. cbn. intros. lia. Qed.

(** Overwriting the first bytes in place. *)
Lemma contents_overwrite p bs :
  wf p -> m_start p + blen bs <= m_zeroAreaStart p ->
  slice (splice (m_data (buf p)) (m_start p) bs) (m_start p) (Z.to_nat (m_zeroAreaStart p - m_start p)) ++
  replicate (Z.to_nat (m_zeroAreaEnd p - m_zeroAreaStart p)) 0 ++
  slice (splice (m_data (buf p)) (m_start p) bs) (m_zeroAreaStart p) (Z.to_nat (m_end p - m_zeroAreaEnd p)) =
  bs ++ drop (length bs) (contents p).
Proof.
  intros Hwf Hr. pose proof Hwf as Hwf'. unfold wf in Hwf'. destruct_and!.
  assert (blen bs = Z.of_nat (length bs)) as Hbl by done.
  unfold contents. rewrite (slice_splice_after _ _ _ (m_zeroAreaStart p)) by lia.
  rewrite drop_app_le by (rewrite length_slice; lia). rewrite app_assoc.
  replace (Z.to_nat (m_zeroAreaStart p - m_start p)) with
    (length bs + (Z.to_nat (m_zeroAreaStart p - m_start p) - length bs))%nat at 1 by lia.
  rewrite slice_plus, slice_splice by lia. rewrite slice_splice_after by lia.
  rewrite drop_slice by lia. by rewrite !app_assoc.
Qed.

Lemma AddHeader_contents size c bs p :
  wf p -> stores c bs -> blen bs = size -> m_end p + size < array_max ->
  exists p', Packet_AddHeader size c p = Ok p' /\ wf p' /\ contents p' = bs ++ contents p /\
    m_start p' + size <= m_zeroAreaStart p'.
Proof using Create_ok.
  intros Hwf Hw Hs Hb. pose proof (blen_nonneg bs).
  destruct (AddAtStart_contents size p) as (dirty & q & x & Ha & Hq & Hc & Hx & Hz & _); [done..|lia|done|].
  unfold Packet_AddHeader. rewrite Ha. cbn [mbind result_bind].
  destruct (Hw (Begin q) (m_data (buf q))) as [it' ->]; [auto using hdr_Begin|cbn; lia|].
  pose proof Hq as Hq'. unfold wf in Hq'. destruct_and!.
  eexists; split_and!; [done| | |done].
  - unfold wf. cbn. rewrite blen_splice by lia. done.
  - unfold contents at 1. cbn. rewrite contents_overwrite by (done || lia).
    rewrite Hc. f_equal. replace (length bs) with (length x) by (unfold blen in *; lia).
    by rewrite drop_app_length.
Qed.

(** The first bytes of the contents are the first bytes of the array. *)
Lemma contents_prefix p bs rest :
  wf p -> contents p = bs ++ rest -> m_start p + blen bs <= m_zeroAreaStart p ->
  slice (m_data (buf p)) (m_start p) (length bs) = bs.
Proof.
  intros Hwf Hc Hz. pose proof Hwf as Hwf'. unfold wf in Hwf'. destruct_and!.
  apply (f_equal (take (length bs))) in Hc. rewrite take_app_length in Hc.
  rewrite <- Hc at 2. unfold contents. unfold blen in *.
  rewrite take_app_le by (rewrite length_slice; unfold blen in *; lia). rewrite take_slice by lia. done.
Qed.

(** [bs] is what the reader consumes, [n] what it claims to have consumed. *)
Lemma RemoveHeader_contents {A} (d : ItM (A * Z)) bs rest a n p :
  wf p -> reads d bs (a, n) -> contents p = bs ++ rest ->
  m_start p + blen bs <= m_zeroAreaStart p -> 0 <= n -> m_start p + n < 2 ^ 32 ->
  exists p', Packet_RemoveHeader d p = Ok (a, p') /\ wf p' /\
    contents p' = drop (Z.to_nat n) (bs ++ rest).
Proof.
  intros Hwf Hr Hc Hz Hn Hb. unfold Packet_RemoveHeader.
  rewrite (Hr (Begin p) (m_data (buf p))); [|auto using hdr_Begin|done|by eapply contents_prefix].
  destruct (RemoveAtStart_contents n p) as (p' & -> & Hw' & Hc' & _); [done..|].
  eexists; split_and!; [done|done|]. by rewrite Hc', Hc.
Qed.
End buffer.
