(* ===== verification/Codec.v ===== *)
(** * Codec: what the three message headers share

    Strings as bytes, loops of iterator operations, and the [writes]/[reads]
    specifications of the pieces ls-message.cc, dv-message.cc and
    test-app-message.cc have in common: the ten-byte routing header, an
    address with a length-prefixed string, and a vector of address/cost
    pairs. *)

From S2P Require Import Prelude StdMap StdString Ipv4Address BufferIter Buffer.

(** ** Strings and bytes *)

Fixpoint string_bytes (s : string) : list Z :=
  match s with EmptyString => [] | String c s' => code c :: string_bytes s' end.

Fixpoint bytes_string (bs : list Z) : string :=
  match bs with [] => EmptyString | b :: bs' => String (char_of b) (bytes_string bs') end.

(** [std::string::length ()] *)
Definition str_length (s : string) : Z := Z.of_nat (String.length s).

Lemma bytes_string_bytes s : bytes_string (string_bytes s) = s.
Proof. induction s as [|c s IH]; cbn; [done|]. by rewrite char_of_code, IH. Qed.

Lemma blen_string_bytes s : blen (string_bytes s) = str_length s.
Proof. unfold blen, str_length. induction s as [|c s IH]; cbn; lia. Qed.

Lemma length_string_bytes s : length (string_bytes s) = String.length s.
Proof. pose proof (blen_string_bytes s). unfold blen, str_length in *. lia. Qed.

(** ** Printing *)

Definition newline : string := String (char_of 10) "".
Definition backspace : string := String (char_of 8) "".

(** ** Loops *)

Fixpoint for_each {A} (f : A -> ItM unit) (l : list A) : ItM unit :=
  match l with
  | [] => mret tt
  | a :: l' => _ ← f a; for_each f l'
  end.

(** [n] times: read and [push_back]. *)
Fixpoint push_times {A} (n : nat) (f : ItM A) (acc : list A) : ItM (list A) :=
  match n with
  | O => mret acc
  | S n' => a ← f; push_times n' f (acc ++ [a])
  end.

Lemma writes_for_each {A} (f : A -> ItM unit) (enc : A -> list Z) l :
  (forall a, writes (f a) (enc a)) -> writes (for_each f l) (concat (map enc l)).
Proof.
  intros Hf. induction l as [|a l IH]; cbn; [apply writes_nil|]. by apply writes_seq.
Qed.

Lemma reads_push_times {A} (f : ItM A) (enc : A -> list Z) l acc :
  (forall a, a ∈ l -> reads f (enc a) a) ->
  reads (push_times (length l) f acc) (concat (map enc l)) (acc ++ l).
Proof.
  revert acc. induction l as [|a l IH]; intros acc Hf; cbn.
  - rewrite app_nil_r. apply reads_ret.
  - eapply reads_bind; [apply Hf; left|]. replace (acc ++ a :: l) with ((acc ++ [a]) ++ l).
    + apply IH. intros b Hb. apply Hf. by right.
    + by rewrite <- app_assoc.
Qed.

Lemma reads_eq {A} (c : ItM A) bs a a' : reads c bs a -> a = a' -> reads c bs a'.
Proof. by intros ? <-. Qed.

(** ** Pieces of messages *)

(** Type, sequence number, TTL, originator: ten bytes. *)
Definition header_bytes (t seq ttl orig : Z) : list Z := [t] ++ be32 seq ++ [ttl] ++ be32 orig.

(** An address and a string. *)
Definition dest_string_bytes (dest : Z) (s : string) : list Z :=
  be32 dest ++ le16 (u16 (str_length s)) ++ string_bytes s.

Definition cost_bytes (p : Z * Z) : list Z := be32 p.1 ++ be32 p.2.

(** A vector of pairs. *)
Definition costs_bytes (v : list (Z * Z)) : list Z :=
  le16 (u16 (Z.of_nat (length v))) ++ concat (map cost_bytes v).

Lemma blen_header t seq ttl orig : blen (header_bytes t seq ttl orig) = 10.
Proof. done. Qed.

Lemma blen_dest_string a s : blen (dest_string_bytes a s) = 6 + str_length s.
Proof. unfold dest_string_bytes. rewrite !blen_app, blen_string_bytes. unfold blen. rewrite length_be32, length_le16. lia. Qed.

Lemma blen_costs v : blen (costs_bytes v) = 2 + 8 * Z.of_nat (length v).
Proof.
  unfold costs_bytes. rewrite blen_app. change (blen (le16 _)) with 2.
  induction v as [|p v IH]; cbn [map concat length]; [done|].
  rewrite blen_app. change (blen (cost_bytes p)) with 8. lia.
Qed.

Lemma writes_header t seq ttl orig k bs :
  writes k bs ->
  writes (_ ← WriteU8 t; _ ← WriteHtonU32 seq; _ ← WriteU8 ttl; _ ← WriteHtonU32 orig; k)
    (header_bytes t seq ttl orig ++ bs).
Proof.
  intros Hk. unfold header_bytes. rewrite <- !app_assoc.
  repeat apply writes_seq; auto using writes_U8, writes_HtonU32.
Qed.

Lemma reads_header {A} t seq ttl orig (k : Z -> Z -> Z -> Z -> ItM A) bs a :
  is_u32 seq -> is_u32 orig -> reads (k t seq ttl orig) bs a ->
  reads (t ← ReadU8; seq ← ReadNtohU32; ttl ← ReadU8; orig ← ReadNtohU32; k t seq ttl orig)
    (header_bytes t seq ttl orig ++ bs) a.
Proof.
  intros Hs Ho Hk. unfold header_bytes. rewrite <- !app_assoc.
  repeat (eapply reads_bind; [by auto using reads_U8, reads_NtohU32|]). done.
Qed.

Lemma writes_string s :
  writes (_ ← WriteU16 (u16 (str_length s)); Write (string_bytes s))
    (le16 (u16 (str_length s)) ++ string_bytes s).
Proof. apply writes_seq; auto using writes_U16, writes_Write. Qed.

Lemma writes_dest_string a s :
  writes (_ ← WriteHtonU32 a; _ ← WriteU16 (u16 (str_length s)); Write (string_bytes s))
    (dest_string_bytes a s).
Proof. apply writes_seq; auto using writes_HtonU32, writes_string. Qed.

Lemma reads_string {A} s (f : string -> A) :
  is_u16 (str_length s) ->
  reads (n ← ReadU16; str ← Read (Z.to_nat n); mret (f (bytes_string str)))
    (le16 (u16 (str_length s)) ++ string_bytes s) (f s).
Proof.
  intros Hs. rewrite u16_small by done. eapply reads_bind; [by apply reads_U16|].
  replace (f s) with (f (bytes_string (string_bytes s))) by by rewrite bytes_string_bytes.
  apply (reads_bind_ret _ (fun str => f (bytes_string str))).
  unfold str_length. rewrite Nat2Z.id, <- length_string_bytes. apply reads_Read.
Qed.

Lemma reads_dest_string {A} a s (f : Z -> string -> A) :
  is_u32 a -> is_u16 (str_length s) ->
  reads (a ← ReadNtohU32; n ← ReadU16; str ← Read (Z.to_nat n); mret (f a (bytes_string str)))
    (dest_string_bytes a s) (f a s).
Proof.
  intros Ha Hs. eapply reads_bind; [by apply reads_NtohU32|].
  by apply (reads_string s (f a)).
Qed.

Lemma writes_costs v :
  writes (_ ← WriteU16 (u16 (Z.of_nat (length v)));
    for_each (fun p : Z * Z => _ ← WriteHtonU32 p.1; WriteHtonU32 p.2) v) (costs_bytes v).
Proof.
  apply writes_seq; [apply writes_U16|]. apply writes_for_each.
  intros p. apply writes_seq; apply writes_HtonU32.
Qed.

Definition costs_valid (v : list (Z * Z)) : Prop :=
  is_u16 (Z.of_nat (length v)) /\ Forall (fun p => is_u32 p.1 /\ is_u32 p.2) v.

#[export] Instance costs_valid_dec v : Decision (costs_valid v).
Proof. unfold costs_valid. apply _. Defined.

Lemma reads_costs {A} v acc (f : list (Z * Z) -> A) :
  costs_valid v ->
  reads (n ← ReadU16;
    v' ← push_times (Z.to_nat n) (a ← ReadNtohU32; c ← ReadNtohU32; mret (a, c)) acc; mret (f v'))
    (costs_bytes v) (f (acc ++ v)).
Proof.
  intros [Hl Hv]. unfold costs_bytes. rewrite u16_small by done.
  eapply reads_bind; [by apply reads_U16|]. apply (reads_bind_ret _ f). rewrite Nat2Z.id.
  apply reads_push_times. intros [a c] Hin. eapply Forall_forall in Hv as [Ha Hc]; [|done].
  unfold cost_bytes; cbn [fst snd] in *. eapply reads_bind; [by apply reads_NtohU32|].
  apply (reads_bind_ret _ (pair a)). by apply reads_NtohU32.
Qed.

(** ** A header added to a packet and removed again

    [n] is the size [Deserialize] reports: with [n] smaller than the header,
    its last bytes stay in front of the packet. *)
Lemma stores_roundtrip Create {A} (w : ItM unit) (d : ItM (A * Z)) bs a n p :
  Allocator Create ->
  wf p -> stores w bs -> reads d bs (a, n) -> 0 <= n <= blen bs -> m_end p + blen bs < array_max ->
  exists p1 p2, Packet_AddHeader Create (blen bs) w p = Ok p1 /\ contents p1 = bs ++ contents p /\
    Packet_RemoveHeader d p1 = Ok (a, p2) /\ wf p2 /\
    contents p2 = drop (Z.to_nat n) bs ++ contents p.
Proof.
  intros HC Hp Hw Hr Hn Hb.
  destruct (AddHeader_contents Create HC (blen bs) w bs p) as (p1 & H1 & Hw1 & Hc1 & Hz); [done..|].
  destruct (RemoveHeader_contents d bs (contents p) a n p1) as (p2 & H2 & Hw2 & Hc2); [done..|lia| |].
  { unfold wf in Hw1. lia. }
  exists p1, p2. split_and!; [done..|]. rewrite Hc2. apply drop_app_le. unfold blen in *. lia.
Qed.

Lemma header_roundtrip Create {A} (w : ItM unit) (d : ItM (A * Z)) bs a n p :
  Allocator Create ->
  wf p -> writes w bs -> reads d bs (a, n) -> 0 <= n <= blen bs -> m_end p + blen bs < array_max ->
  exists p1 p2, Packet_AddHeader Create (blen bs) w p = Ok p1 /\ contents p1 = bs ++ contents p /\
    Packet_RemoveHeader d p1 = Ok (a, p2) /\ wf p2 /\
    contents p2 = drop (Z.to_nat n) bs ++ contents p.
Proof. intros HC Hp Hw. by apply stores_roundtrip; [| |apply writes_stores]. Qed.

(** A concrete [Create]: the array has exactly the requested size. *)
Definition zero_array (n : Z) : BufferData := {|
  m_count := 1; m_size := n; m_dirtyStart := 0; m_dirtyEnd := 0;
  m_data := replicate (Z.to_nat n) 0 |}.

#[export] Instance zero_array_ok : Allocator zero_array.
Proof. intros k. unfold zero_array, blen; cbn. rewrite length_replicate. lia. Qed.

(** A new packet of [n] bytes of payload (all virtual zeros). *)
Definition empty_packet (n : Z) : Buffer := Initialize zero_array 0 n.
