(* ===== verification/BufferSpec.v ===== *)
(** * BufferSpec: Buffer as a byte string

    The abstract contract of Buffer: a byte string that grows and shrinks at
    both ends.  Every sequence of operations of buffer.cc implements it,
    whatever its copies, reallocations and its virtual zero area do. *)

From S2P Require Import Prelude BufferIter Buffer Codec.

Inductive buffer_op : Type :=
| OpAddAtStart (n : Z)
| OpAddAtEnd (n : Z)
| OpRemoveAtStart (n : Z)
| OpRemoveAtEnd (n : Z)
| OpCreateFragment (start length : Z).

(** Bytes the operation adds. *)
Definition op_growth (op : buffer_op) : Z :=
  match op with OpAddAtStart n | OpAddAtEnd n => n | _ => 0 end.

(** The operation on byte strings; added bytes are unspecified. *)
Inductive spec_step : list Z -> buffer_op -> list Z -> Prop :=
| spec_add_start l n x : 0 <= n -> blen x = n -> spec_step l (OpAddAtStart n) (x ++ l)
| spec_add_end l n x : 0 <= n -> blen x = n -> spec_step l (OpAddAtEnd n) (l ++ x)
| spec_remove_start l n : 0 <= n <= blen l -> spec_step l (OpRemoveAtStart n) (drop (Z.to_nat n) l)
| spec_remove_end l n : 0 <= n -> spec_step l (OpRemoveAtEnd n) (take (Z.to_nat (blen l - n)) l)
| spec_fragment l s n : 0 <= s -> 0 <= n -> s + n <= blen l ->
    spec_step l (OpCreateFragment s n) (take (Z.to_nat n) (drop (Z.to_nat s) l)).

(** An operation may be called on the byte string [l]. *)
Definition op_enabled (l : list Z) (op : buffer_op) : Prop :=
  match op with
  | OpAddAtStart n | OpAddAtEnd n | OpRemoveAtEnd n => 0 <= n
  | OpRemoveAtStart n => 0 <= n <= blen l
  | OpCreateFragment s n => 0 <= s /\ 0 <= n /\ s + n <= blen l
  end.

(** The operation on buffers. *)
Definition run_op (Create : Z -> BufferData) (op : buffer_op) (b : Buffer) : result Buffer :=
  match op with
  | OpAddAtStart n => '(_, b') ← AddAtStart Create n b; Ok b'
  | OpAddAtEnd n => '(_, b') ← AddAtEnd Create n b; Ok b'
  | OpRemoveAtStart n => RemoveAtStart n b
  | OpRemoveAtEnd n => RemoveAtEnd n b
  | OpCreateFragment s n => CreateFragment s n b
  end.

(** A sequence of enabled operations, on strings and on buffers. *)
Inductive spec_run : list Z -> list buffer_op -> list Z -> Prop :=
| spec_run_nil l : spec_run l [] l
| spec_run_cons l op l' ops l'' : spec_step l op l' -> spec_run l' ops l'' -> spec_run l (op :: ops) l''.

Definition run_ops (Create : Z -> BufferData) (ops : list buffer_op) (b : Buffer) : result Buffer :=
  foldM (fun b op => run_op Create op b) b ops.

(** Enabled all along, whatever the added bytes are: this depends only on the
    length. *)
Fixpoint ops_enabled (len : Z) (ops : list buffer_op) : Prop :=
  match ops with
  | [] => True
  | op :: ops' =>
      match op with
      | OpAddAtStart n | OpAddAtEnd n => 0 <= n /\ ops_enabled (len + n) ops'
      | OpRemoveAtStart n => 0 <= n <= len /\ ops_enabled (len - n) ops'
      | OpRemoveAtEnd n => 0 <= n /\ ops_enabled (Z.max 0 (len - n)) ops'
      | OpCreateFragment s n => (0 <= s /\ 0 <= n /\ s + n <= len) /\ ops_enabled n ops'
      end
  end.

Definition total_growth (ops : list buffer_op) : Z := foldr (fun op n => op_growth op + n) 0 ops.

Section refinement.
Context (Create : Z -> BufferData).
Hypothesis Create_ok : Allocator Create.

Lemma blen_contents b : wf b -> blen (contents b) = m_end b - m_start b.
Proof. intros Hb. unfold blen. rewrite length_contents by done. unfold wf in Hb. lia. Qed.

Lemma CreateFragment_contents s n b :
  wf b -> 0 <= s -> 0 <= n -> s + n <= blen (contents b) ->
  exists b', CreateFragment s n b = Ok b' /\ wf b' /\
    contents b' = take (Z.to_nat n) (drop (Z.to_nat s) (contents b)) /\ m_end b' <= m_end b.
Proof.
  intros Hb Hs Hn Hsn. pose proof (blen_contents b Hb) as Hl. pose proof Hb as Hb'. unfold wf in Hb'.
  destruct (with_count_ok b (m_count (buf b) + 1) (m_zeroAreaStart b)) as [Hwb Hcb]; [lia|done|].
  destruct (RemoveAtStart_contents s (copy_of b)) as (t & Ht & Hwt & Hct & Het); [done|lia|cbn; lia|].
  unfold copy_of in Hct. rewrite Hcb in Hct. cbn in Het.
  assert (blen (contents t) = m_end b - m_start b - s) as Hlt.
  { rewrite Hct. unfold blen in *. rewrite length_drop. lia. }
  pose proof (blen_contents t Hwt) as Ht'.
  unfold CreateFragment, Buffer_GetSize. rewrite Ht. cbn [mbind result_bind].
  rewrite !u32_small by (unfold is_u32; rewrite ?u32_small; unfold is_u32; lia).
  destruct (RemoveAtEnd_contents (m_end b - m_start b - (s + n)) t) as (b' & -> & Hw & Hc & He); [done|lia|].
  exists b'. split_and!; [done|done| |lia]. rewrite Hc, Hct. f_equal. lia.
Qed.

(** One operation. *)
Lemma run_op_refines op b :
  wf b -> op_enabled (contents b) op -> m_end b + op_growth op < array_max ->
  exists b', run_op Create op b = Ok b' /\ wf b' /\ spec_step (contents b) op (contents b') /\
    m_end b' <= m_end b + op_growth op.
Proof using Create_ok.
  intros Hb Hen Hg. pose proof (blen_contents b Hb) as Hl. pose proof Hb as Hb'. unfold wf in Hb'.
  destruct op as [n|n|n|n|s n]; cbn in *.
  - destruct (AddAtStart_contents Create Create_ok n b) as (d & b' & x & -> & Hw & Hc & Hx & _ & He); [done..|].
    exists b'. rewrite Hc. split_and!; [done|done|by constructor|done].
  - destruct (AddAtEnd_contents Create Create_ok n b) as (d & b' & x & -> & Hw & Hc & Hx & He); [done..|].
    exists b'. rewrite Hc. split_and!; [done|done|by constructor|done].
  - destruct (RemoveAtStart_contents n b) as (b' & -> & Hw & Hc & He); [done|lia|lia|].
    exists b'. rewrite Hc. split_and!; [done|done|by constructor|lia].
  - destruct (RemoveAtEnd_contents n b) as (b' & -> & Hw & Hc & He); [done|lia|].
    exists b'. rewrite Hc, <- Hl. split_and!; [done|done|by constructor|lia].
  - destruct (CreateFragment_contents s n b) as (b' & -> & Hw & Hc & He); [naive_solver..|].
    exists b'. rewrite Hc. split_and!; [done|done|constructor; naive_solver|lia].
Qed.
End refinement.

Lemma ops_enabled_cons l op ops : ops_enabled (blen l) (op :: ops) -> op_enabled l op.
Proof. destruct op; cbn; naive_solver. Qed.

Lemma ops_enabled_step l op l' ops :
  ops_enabled (blen l) (op :: ops) -> spec_step l op l' -> ops_enabled (blen l') ops.
Proof.
  intros Hen Hs. destruct Hs as [l n x ? Hx|l n x ? Hx|l n Hn|l n Hn|l s n Hs Hn Hsn]; cbn in Hen; destruct Hen as [_ Hen].
  - rewrite blen_app. by replace (blen x + blen l) with (blen l + n) by lia.
  - rewrite blen_app. by replace (blen l + blen x) with (blen l + n) by lia.
  - replace (blen (drop _ l)) with (blen l - n); [done|]. unfold blen in *. rewrite length_drop. lia.
  - replace (blen (take _ l)) with (Z.max 0 (blen l - n)); [done|]. unfold blen in *. rewrite length_take. lia.
  - replace (blen (take _ _)) with n; [done|]. unfold blen in *. rewrite length_take, length_drop. lia.
Qed.

Lemma ops_growth len ops : ops_enabled len ops -> 0 <= total_growth ops.
Proof.
  revert len; induction ops as [|op ops IH]; intros len; [done|].
  destruct op; cbn; intros [Hn Hen]; apply IH in Hen; fold (total_growth ops); lia.
Qed.

Lemma ops_growth_tail len op ops : ops_enabled len (op :: ops) -> 0 <= total_growth ops.
Proof. destruct op; cbn; intros [_ Hen]; by eapply ops_growth. Qed.

(** (C28) [Buffer] is a byte string.  From a well-formed buffer, any sequence
    of [AddAtStart], [AddAtEnd], [RemoveAtStart], [RemoveAtEnd] and
    [CreateFragment] calls within the size of the buffer, which adds fewer
    bytes than the 32-bit offsets can hold, runs without a failed assertion or
    an access outside the array, keeps the representation invariant, and acts
    on the contents like the operations on byte strings: nothing that was in
    the buffer changes, moves or gets lost, with or without reallocation, in
    the real bytes and in the virtual zero area. *)
Theorem buffer_refinement Create ops b
  (HC : Allocator Create)
  (Hb : wf b) (Hen : ops_enabled (blen (contents b)) ops) (Hg : m_end b + total_growth ops < array_max) :
  exists b', run_ops Create ops b = Ok b' /\ wf b' /\ spec_run (contents b) ops (contents b').
Proof.
  revert b Hb Hen Hg; induction ops as [|op ops IH]; intros b Hb Hen Hg.
  - exists b. split_and!; [done|done|constructor].
  - pose proof (ops_growth_tail _ _ _ Hen) as Hpos.
    change (total_growth (op :: ops)) with (op_growth op + total_growth ops) in Hg.
    destruct (run_op_refines Create HC op b) as (b1 & H1 & Hw1 & Hs1 & He1);
      [done|by eapply ops_enabled_cons|lia|].
    destruct (IH b1) as (b' & H2 & Hw' & Hr); [done|by eapply ops_enabled_step|lia|].
    exists b'. unfold run_ops in *. cbn [foldM]. rewrite H1. cbn [mbind result_bind].
    split_and!; [done|done|by econstructor].
Qed.

Lemma buffer_refinement_witness :
  let ops := [OpAddAtStart 8; OpAddAtEnd 3; OpRemoveAtStart 10; OpCreateFragment 2 4] in
  exists b', run_ops zero_array ops (empty_packet 20) = Ok b' /\ wf b' /\
    spec_run (contents (empty_packet 20)) ops (contents b') /\ contents b' = [0; 0; 0; 0].
Proof.
  destruct (buffer_refinement zero_array [OpAddAtStart 8; OpAddAtEnd 3; OpRemoveAtStart 10; OpCreateFragment 2 4]
    (empty_packet 20)) as (b' & H1 & H2 & H3).
  - apply zero_array_ok.
  - unfold wf; vm_compute; repeat split; discriminate.
  - vm_compute. repeat split; discriminate.
  - reflexivity.
  - exists b'. split; [exact H1|]. split; [exact H2|]. split; [exact H3|].
    vm_compute in H1. injection H1 as <-. reflexivity.
Defined.

(** ** Reading behind the zero area *)

(** Four virtual zero bytes and twelve real ones, three words written there,
    and a reader started at the first of them. *)
Definition tail_packet : result Buffer := '(_, b) ← AddAtEnd zero_array 12 (empty_packet 4); Ok b.
Definition three_words : ItM unit :=
  _ ← WriteHtonU32 0x01020304; _ ← WriteHtonU32 0x05060708; WriteHtonU32 0x090a0b0c.
Definition behind_zeros {A} (reader : ItM A) : result A :=
  b ← tail_packet;
  '(_, _, m) ← three_words (Construct b 4) (m_data (buf b));
  '(a, _, _) ← reader (Construct b 4) m;
  Ok a.

(** [ReadNtohU32] behind a zero area reads at the wrong place: its fast
    path indexes the array with the position in the packet, without taking off
    the length of the zero area, which the byte-wise path takes off.  Of three
    words written behind four virtual zeros it returns the second for the
    first, and for the last it reads past the array. *)
Theorem ReadNtohU32_behind_zero_area :
  behind_zeros SlowReadNtohU32 = Ok 0x01020304 /\ behind_zeros ReadNtohU32 = Ok 0x05060708 /\
  behind_zeros (_ ← Next 8; SlowReadNtohU32) = Ok 0x090a0b0c /\
  behind_zeros (_ ← Next 8; ReadNtohU32) = Fault OutOfRange.
Proof. vm_compute. repeat split. Qed.
