(* ===== verification/BufferCopy.v ===== *)
(** * BufferCopy: whole buffers

    src/ns-3/src/common/buffer.cc: what takes a buffer as a whole: full
    copies, appending another buffer, the copy to a byte array, and the image
    of a buffer that Packet::Serialize sends between simulators. *)

From S2P Require Import Prelude Ipv4Address BufferIter Buffer Codec BufferSpec BufferWords.

(** ** Operations *)

Definition with_bytes (b : Buffer) (bytes : mem) : Buffer := {|
  buf := set_bytes (buf b) bytes; m_maxZeroAreaStart := m_maxZeroAreaStart b;
  m_zeroAreaStart := m_zeroAreaStart b; m_zeroAreaEnd := m_zeroAreaEnd b;
  m_start := m_start b; m_end := m_end b |}.

(** A writer used on the iterator [it]. *)
Definition run_at (it : Iterator) (c : ItM unit) (b : Buffer) : result Buffer :=
  match c it (m_data (buf b)) with
  | Ok (_, _, bytes) => Ok (with_bytes b bytes)
  | Fault f => Fault f
  end.

(** [memcpy (buffer, g_zeroes.buffer, toWrite)] until [left] bytes are copied;
    [g_zeroes] holds 1000.  One round per byte is more than enough. *)
Definition g_zeroes_size : Z := 1000.
Fixpoint copy_zeroes (rounds : nat) (left : Z) : list Z :=
  match rounds with
  | O => []
  | S rounds' =>
      if 0 <? left then
        let toWrite := Z.min left g_zeroes_size in
        replicate (Z.to_nat toWrite) 0 ++ copy_zeroes rounds' (left - toWrite)
      else []
  end.

(** [CopyData (buffer, size)]: the bytes written from [buffer] on, and the
    value returned. *)
Definition CopyData (size : Z) (b : Buffer) : result (list Z * Z) :=
  let originalSize := size in
  if 0 <? size then
    let tmpsize := Z.min (u32 (m_zeroAreaStart b - m_start b)) size in
    front ← mem_read (m_data (buf b)) (m_start b) (Z.to_nat tmpsize);
    if tmpsize <? size then
      let size := u32 (size - u32 (m_zeroAreaStart b - m_start b)) in
      let tmpsize := Z.min (u32 (m_zeroAreaEnd b - m_zeroAreaStart b)) size in
      let zeroes := copy_zeroes (Z.to_nat tmpsize) tmpsize in
      if tmpsize <? size then
        let size := u32 (size - tmpsize) in
        let tmpsize := Z.min (u32 (m_end b - m_zeroAreaEnd b)) size in
        back ← mem_read (m_data (buf b)) (m_zeroAreaStart b) (Z.to_nat tmpsize);
        Ok (front ++ zeroes ++ back, u32 (originalSize - size))
      else Ok (front ++ zeroes, u32 (originalSize - size))
    else Ok (front, u32 (originalSize - size))
  else Ok ([], u32 (originalSize - size)).

(** [(n + 3) & (~0x3)] *)
Definition round4 (n : Z) : Z := Z.land (u32 (n + 3)) (u32 (Z.lnot 3)).

Definition Buffer_GetSerializedSize (b : Buffer) : Z :=
  let dataStart := round4 (u32 (m_zeroAreaStart b - m_start b)) in
  let dataEnd := round4 (u32 (m_end b - m_zeroAreaEnd b)) in
  u32 (4 + 4 + dataStart + 4 + dataEnd).

(** [*p++ = word] on a little-endian machine, if it still fits: [None] is the
    early [return 0]. *)
Definition put_word (maxSize word : Z) (acc : Z * mem) : result (option (Z * mem)) :=
  let '(size, out) := acc in
  if u32 (size + 4) <=? maxSize then out ← mem_write out size (le_bytes 4 word); Ok (Some (u32 (size + 4), out))
  else Ok None.

(** [memcpy (p, from, n)] and the advance of [p] to the next word. *)
Definition put_bytes (maxSize : Z) (bytes : list Z) (acc : Z * mem) : result (option (Z * mem)) :=
  let '(size, out) := acc in
  let n := round4 (blen bytes) in
  if u32 (size + n) <=? maxSize then out ← mem_write out size bytes; Ok (Some (u32 (size + n), out))
  else Ok None.

Definition or_return {A} (c : result (option A)) (out : mem) (k : A -> result (Z * mem)) : result (Z * mem) :=
  o ← c; match o with Some a => k a | None => Ok (0, out) end.

(** [p] is always [size] bytes behind the start of [buffer].  The array after
    an early return is not the caller's to use; it is the original here. *)
Definition Buffer_Serialize (maxSize : Z) (b : Buffer) (buffer : mem) : result (Z * mem) :=
  or_return (put_word maxSize (u32 (m_zeroAreaEnd b - m_zeroAreaStart b)) (0, buffer)) buffer (fun acc =>
  let dataStartLength := u32 (m_zeroAreaStart b - m_start b) in
  or_return (put_word maxSize dataStartLength acc) buffer (fun acc =>
  start ← mem_read (m_data (buf b)) (m_start b) (Z.to_nat dataStartLength);
  or_return (put_bytes maxSize start acc) buffer (fun acc =>
  let dataEndLength := u32 (m_end b - m_zeroAreaEnd b) in
  or_return (put_word maxSize dataEndLength acc) buffer (fun acc =>
  end_ ← mem_read (m_data (buf b)) (m_zeroAreaStart b) (Z.to_nat dataEndLength);
  or_return (put_bytes maxSize end_ acc) buffer (fun acc => Ok (1, acc.2)))))).

(** Reading it back: [NS_ASSERT (sizeCheck >= 4)], [*p++] and
    [sizeCheck -= 4]; the word, [p] and [sizeCheck]. *)
Definition take_word (buffer : mem) (p sizeCheck : Z) : result (Z * Z * Z) :=
  _ ← assert (4 <=? sizeCheck);
  bs ← mem_read buffer p 4;
  Ok (lsb_word 32 bs, p + 4, u32 (sizeCheck - 4)).

(** [NS_ASSERT (sizeCheck >= n)], the [n] bytes at [p], and [p] and [sizeCheck]
    behind them. *)
Definition take_bytes (buffer : mem) (n p sizeCheck : Z) : result (list Z * Z * Z) :=
  _ ← assert (n <=? sizeCheck);
  bytes ← mem_read buffer p (Z.to_nat n);
  Ok (bytes, p + round4 n, u32 (sizeCheck - round4 n)).

Section copy.
Context (Create : Z -> BufferData) (g_recommendedStart : Z).

Definition CreateFullCopy (b : Buffer) : result Buffer :=
  if negb (u32 (m_zeroAreaEnd b - m_zeroAreaStart b) =? 0) then
    let tmp := Initialize Create g_recommendedStart 0 in
    let zeroes := u32 (m_zeroAreaEnd b - m_zeroAreaStart b) in
    '(_, tmp) ← AddAtStart Create zeroes tmp;
    tmp ← run_at (Begin tmp) (WriteU8_n 0 zeroes) tmp;
    let dataStart := u32 (m_zeroAreaStart b - m_start b) in
    '(_, tmp) ← AddAtStart Create dataStart tmp;
    bytes ← mem_read (m_data (buf b)) (m_start b) (Z.to_nat dataStart);
    tmp ← run_at (Begin tmp) (Write bytes) tmp;
    let dataEnd := u32 (m_end b - m_zeroAreaEnd b) in
    '(_, tmp) ← AddAtEnd Create dataEnd tmp;
    bytes ← mem_read (m_data (buf b)) (m_zeroAreaStart b) (Z.to_nat dataEnd);
    run_at (End_ tmp) (_ ← Prev dataEnd; Write bytes) tmp
  else Ok (copy_of b).

(** [*this = other], where [other] is a local variable: its reference goes when
    it does. *)
Definition take_over (other : Buffer) : Buffer :=
  if 1 <? m_count (buf other) then with_count other (m_count (buf other) - 1) (m_maxZeroAreaStart other) else other.

Definition TransformIntoRealBuffer (b : Buffer) : result Buffer :=
  tmp ← CreateFullCopy b; Ok (take_over tmp).

(** [PeekData]: the bytes of the array from the returned pointer on. *)
Definition PeekData (b : Buffer) : result (list Z * Buffer) :=
  b ← TransformIntoRealBuffer b; Ok (drop (Z.to_nat (m_start b)) (m_data (buf b)), b).

(** [memcpy] and [memset] to [&m_data[i]]; of no bytes, they touch nothing. *)
Definition mem_put (m : mem) (i : Z) (bs : list Z) : result mem :=
  match bs with [] => Ok m | _ => mem_write m i bs end.

(** The three parts of [Iterator::Write (start, end)], from the array [from]:
    this iterator, [start], what is left of [size], and the array written. *)
Definition copy_front (from : mem) (st : Iterator * Iterator * Z * mem) : result (Iterator * Iterator * Z * mem) :=
  let '(it, start, size, m) := st in
  if m_current start <=? m_zeroStart start then
    let toCopy := Z.min size (u32 (m_zeroStart start - m_current start)) in
    bytes ← mem_read from (m_current start) (Z.to_nat toCopy);
    m ← mem_put m (m_current it) bytes;
    Ok (advance it toCopy, advance start toCopy, u32 (size - toCopy), m)
  else Ok st.

Definition copy_zero_area (st : Iterator * Iterator * Z * mem) : result (Iterator * Iterator * Z * mem) :=
  let '(it, start, size, m) := st in
  if m_current start <=? m_zeroEnd start then
    let toCopy := Z.min size (u32 (m_zeroEnd start - m_current start)) in
    m ← mem_put m (m_current it) (replicate (Z.to_nat toCopy) 0);
    Ok (advance it toCopy, advance start toCopy, u32 (size - toCopy), m)
  else Ok st.

Definition copy_tail (from : mem) (st : Iterator * Iterator * Z * mem) : result (unit * Iterator * mem) :=
  let '(it, start, size, m) := st in
  let toCopy := Z.min size (u32 (m_dataEnd start - m_current start)) in
  bytes ← mem_read from (u32 (m_current start - u32 (m_zeroEnd start - m_zeroStart start))) (Z.to_nat toCopy);
  m ← mem_put m (m_current it) bytes;
  Ok (tt, advance it toCopy, m).

(** [same]: both iterators are over one array. *)
Definition Write_range (same : bool) (from : mem) (start end_ : Iterator) : ItM unit := fun it m =>
  _ ← assert (m_current start <=? m_current end_);
  _ ← assert (m_zeroStart start =? m_zeroStart end_);
  _ ← assert (m_zeroEnd start =? m_zeroEnd end_);
  _ ← assert (negb same);
  let size := u32 (m_current end_ - m_current start) in
  _ ← assert (CheckNoZero it (m_current it) (u32 (m_current it + size)));
  st ← copy_front from (it, start, size, m);
  st ← copy_zero_area st;
  copy_tail from st.

(** [AddAtEnd (o)]; [same]: the two buffers share their array. *)
Definition AddAtEnd_buffer (same : bool) (o b : Buffer) : result Buffer :=
  if (m_count (buf b) =? 1) && (m_end b =? m_zeroAreaEnd b) && (m_end b =? m_dirtyEnd (buf b)) &&
     (m_start o =? m_zeroAreaStart o) && (0 <? u32 (m_zeroAreaEnd o - m_zeroAreaStart o)) then
    let zeroSize := u32 (m_zeroAreaEnd o - m_zeroAreaStart o) in
    let ze := u32 (m_zeroAreaEnd b + zeroSize) in
    let b := {| buf := set_dirty (buf b) (m_dirtyStart (buf b)) ze; m_maxZeroAreaStart := m_maxZeroAreaStart b;
      m_zeroAreaStart := m_zeroAreaStart b; m_zeroAreaEnd := ze; m_start := m_start b; m_end := ze |} in
    let endData := u32 (m_end o - m_zeroAreaEnd o) in
    '(_, b) ← AddAtEnd Create endData b;
    '(_, src, _) ← Prev endData (End_ o) (m_data (buf o));
    run_at (End_ b) (_ ← Prev endData; Write_range same (m_data (buf o)) src (End_ o)) b
  else
    dst ← CreateFullCopy b;
    src ← CreateFullCopy o;
    let same := same && (u32 (m_zeroAreaEnd b - m_zeroAreaStart b) =? 0) &&
      (u32 (m_zeroAreaEnd o - m_zeroAreaStart o) =? 0) in
    '(_, dst') ← AddAtEnd Create (Buffer_GetSize src) dst;
    let same := same && negb (m_count (buf dst') =? 1) in
    dst' ← run_at (End_ dst') (_ ← Prev (Buffer_GetSize src); Write_range same (m_data (buf src)) (Begin src) (End_ src)) dst';
    Ok (take_over dst').

(** [Deserialize (buffer, size)]: the value returned, and the buffer. *)
Definition Buffer_Deserialize (buffer : mem) (size : Z) : result (Z * Buffer) :=
  let sizeCheck := u32 (size - 4) in
  '(zeroDataLength, p, sizeCheck) ← take_word buffer 0 sizeCheck;
  let b := Initialize Create g_recommendedStart zeroDataLength in
  '(dataStartLength, p, sizeCheck) ← take_word buffer p sizeCheck;
  '(_, b) ← AddAtStart Create dataStartLength b;
  '(bytes, p, sizeCheck) ← take_bytes buffer dataStartLength p sizeCheck;
  b ← run_at (Begin b) (Write bytes) b;
  '(dataEndLength, p, sizeCheck) ← take_word buffer p sizeCheck;
  '(_, b) ← AddAtEnd Create dataEndLength b;
  '(bytes, p, sizeCheck) ← take_bytes buffer dataEndLength p sizeCheck;
  b ← run_at (End_ b) (_ ← Prev dataEndLength; Write bytes) b;
  _ ← assert (sizeCheck =? 0);
  Ok (1, b).
End copy.

(** ** Copies to a byte array *)

Lemma copy_zeroes_eq rounds left : left <= Z.of_nat rounds -> copy_zeroes rounds left = replicate (Z.to_nat left) 0.
Proof.
  revert left. induction rounds as [|rounds IH]; intros left Hl; cbn [copy_zeroes].
  - by replace (Z.to_nat left) with 0%nat by lia.
  - destruct (Z.ltb_spec 0 left); [|by replace (Z.to_nat left) with 0%nat by lia].
    unfold g_zeroes_size. rewrite IH by lia. rewrite <- replicate_add. f_equal. lia.
Qed.

(** [CopyData] copies, and miscounts.  The bytes it writes are the first
    [size] of the packet, or all of them.  What it returns is not their number,
    as packet.h promises, but the number of bytes in the areas it went all the
    way through before the last one: 0 when [size] ends in the real bytes in
    front, and at most the bytes before the tail. *)
Theorem copy_data size b (Hb : wf b) (Hs : 0 <= size < 2 ^ 32) :
  let front := m_zeroAreaStart b - m_start b in
  let zeroes := m_zeroAreaEnd b - m_zeroAreaStart b in
  CopyData size b = Ok (take (Z.to_nat size) (contents b),
    if size <=? front then 0 else if size <=? front + zeroes then front else front + zeroes).
Proof.
  pose proof Hb as Hb'. unfold wf in Hb'. destruct_and!. cbn zeta. unfold CopyData, contents.
  rewrite (u32_small (m_zeroAreaStart b - _)), (u32_small (m_zeroAreaEnd b - _)), (u32_small (m_end b - _))
    by (unfold is_u32; lia).
  set (f := m_zeroAreaStart b - m_start b) in *. set (z := m_zeroAreaEnd b - m_zeroAreaStart b) in *.
  set (t := m_end b - m_zeroAreaEnd b) in *.
  destruct (Z.ltb_spec 0 size) as [Hpos|].
  2: { replace size with 0 by lia. replace (0 <=? f) with true by lia. by rewrite take_0. }
  rewrite (mem_read_ok _ (m_start b) (Z.to_nat (Z.min f size))) by lia. cbn [mbind result_bind].
  destruct (Z.ltb_spec (Z.min f size) size) as [Hf|Hf].
  2: { replace (size <=? f) with true by lia. rewrite take_app_le by (rewrite length_slice; lia).
    rewrite take_slice by lia. rewrite u32_small by (unfold is_u32; lia). rewrite Z.sub_diag.
    by replace (Z.to_nat (Z.min f size)) with (Z.to_nat size) by lia. }
  replace (size <=? f) with false by lia. rewrite (u32_small (size - f)) by (unfold is_u32; lia).
  rewrite copy_zeroes_eq by lia. replace (Z.min f size) with f by lia.
  rewrite take_app_ge, length_slice by (rewrite ?length_slice; lia).
  destruct (Z.ltb_spec (Z.min z (size - f)) (size - f)) as [Hz|Hz].
  2: { replace (size <=? f + z) with true by lia. rewrite take_app_le by (rewrite length_replicate; lia).
    rewrite take_replicate. rewrite u32_small by (unfold is_u32; lia). do 2 f_equal; [f_equal; f_equal; lia|lia]. }
  replace (size <=? f + z) with false by lia. replace (Z.min z (size - f)) with z by lia.
  rewrite (u32_small (size - f - z)) by (unfold is_u32; lia). rewrite mem_read_ok by lia. cbn [mbind result_bind].
  rewrite u32_small by (unfold is_u32; lia).
  rewrite (take_app_ge (replicate _ _)), length_replicate by (rewrite length_replicate; lia).
  do 2 f_equal; [|lia]. f_equal. f_equal.
  destruct (Z.le_ge_cases t (size - f - z)).
  - replace (Z.min t (size - f - z)) with t by lia. rewrite take_ge; [done|]. rewrite length_slice; lia.
  - replace (Z.min t (size - f - z)) with (size - f - z) by lia. rewrite take_slice by lia. f_equal. lia.
Qed.

(** ** Areas *)

Section areas.
Context (Create : Z -> BufferData).
Hypothesis Create_ok : Allocator Create.

(** The lengths of the three areas of a buffer. *)
Definition areas (b : Buffer) : Z * Z * Z :=
  (m_zeroAreaStart b - m_start b, m_zeroAreaEnd b - m_zeroAreaStart b, m_end b - m_zeroAreaEnd b).

Lemma AddAtStart_areas n b f z t : wf b -> 0 <= n -> m_end b + n < array_max -> areas b = (f, z, t) ->
  exists dirty b' x, AddAtStart Create n b = Ok (dirty, b') /\ wf b' /\ contents b' = x ++ contents b /\
    blen x = n /\ areas b' = (n + f, z, t) /\ m_end b' <= m_end b + n.
Proof using Create_ok.
  intros Hwf Hn Hb [= <- <- <-].
  destruct (AddAtStart_contents Create Create_ok n b Hwf Hn Hb) as (d & b' & x & H & Hw & Hc & Hx & _ & He).
  exists d, b', x. split_and!; [done..| |done]. clear Hx Hc He. unfold wf in Hwf. destruct_and!. revert H.
  unfold AddAtStart. destruct ((n <=? m_start b) && _) eqn:Hbr.
  - intros (_ & _ & [= <- <-])%bind_Ok. unfold areas. cbn. rewrite u32_small by (unfold is_u32; lia).
    do 2 f_equal. lia.
  - intros (src & _ & (bytes & _ & [= <- <-])%bind_Ok)%bind_Ok. unfold areas. cbn.
    rewrite !u32_small by (unfold is_u32; rewrite ?u32_small; unfold is_u32; lia). f_equal; [f_equal|]; lia.
Qed.

Lemma AddAtEnd_areas n b f z t : wf b -> 0 <= n -> m_end b + n < array_max -> areas b = (f, z, t) ->
  exists dirty b' x, AddAtEnd Create n b = Ok (dirty, b') /\ wf b' /\ contents b' = contents b ++ x /\
    blen x = n /\ areas b' = (f, z, t + n) /\ m_end b' <= m_end b + n.
Proof using Create_ok.
  intros Hwf Hn Hb [= <- <- <-].
  destruct (AddAtEnd_contents Create Create_ok n b Hwf Hn Hb) as (d & b' & x & H & Hw & Hc & Hx & He).
  exists d, b', x. split_and!; [done..| |done]. clear Hx Hc He. unfold wf in Hwf. destruct_and!. revert H.
  unfold AddAtEnd. destruct ((_ <=? m_size (buf b)) && _) eqn:Hbr.
  - intros (_ & _ & [= <- <-])%bind_Ok. unfold areas. cbn. rewrite u32_small by (unfold is_u32; lia). f_equal. lia.
  - intros (src & _ & (bytes & _ & [= <- <-])%bind_Ok)%bind_Ok. unfold areas. cbn.
    rewrite !u32_small by (unfold is_u32; rewrite ?u32_small; unfold is_u32; lia). f_equal; [f_equal|]; lia.
Qed.

Lemma Initialize_areas g zeroes : 0 <= g -> 0 <= zeroes -> g + zeroes < array_max ->
  let b := Initialize Create g zeroes in
  wf b /\ contents b = replicate (Z.to_nat zeroes) 0 /\ areas b = (0, zeroes, 0) /\ m_end b <= g + zeroes.
Proof using Create_ok.
  intros Hg Hz Hlt. cbn zeta. destruct (Create_ok 0 ltac:(lia)) as (H1 & H2 & H3 & H4).
  unfold Initialize. set (s := Z.min _ g). assert (0 <= s <= g /\ s <= m_size (Create 0)) as [? ?] by lia.
  rewrite u32_small by (unfold is_u32; lia). unfold wf, contents, areas. cbn.
  replace (s + zeroes - s) with zeroes by lia. rewrite !Z.sub_diag, !slice_0, app_nil_r. split_and!; try done; lia.
Qed.

(** The bytes of the three areas. *)
Definition front (b : Buffer) : list Z := slice (m_data (buf b)) (m_start b) (Z.to_nat (m_zeroAreaStart b - m_start b)).
Definition tail_ (b : Buffer) : list Z := slice (m_data (buf b)) (m_zeroAreaStart b) (Z.to_nat (m_end b - m_zeroAreaEnd b)).

Lemma contents_areas b : contents b = front b ++ replicate (Z.to_nat (m_zeroAreaEnd b - m_zeroAreaStart b)) 0 ++ tail_ b.
Proof. done. Qed.

Lemma areas_length b f z t : wf b -> areas b = (f, z, t) -> blen (front b) = f /\ blen (tail_ b) = t /\ 0 <= z.
Proof.
  intros Hwf [= <- <- <-]. unfold wf in Hwf. unfold blen, front, tail_. rewrite !length_slice by lia. lia.
Qed.

Lemma with_bytes_wf b bytes : wf b -> blen bytes = blen (m_data (buf b)) -> wf (with_bytes b bytes).
Proof. unfold wf, with_bytes. cbn. intros. lia. Qed.

(** Overwriting a range of the stored bytes: [l], [x] and [r] are what the two
    stored areas hold together. *)
Lemma overwrite b l x r bs : wf b -> front b ++ tail_ b = l ++ x ++ r -> length x = length bs ->
  let b' := with_bytes b (splice (m_data (buf b)) (m_start b + blen l) bs) in
  wf b' /\ areas b' = areas b /\ front b' ++ tail_ b' = l ++ bs ++ r /\ length (front b') = length (front b) /\
  mem_write (m_data (buf b)) (m_start b + blen l) bs = Ok (splice (m_data (buf b)) (m_start b + blen l) bs).
Proof.
  intros Hwf Hc Hx. cbn zeta. pose proof Hwf as Hwf'. unfold wf in Hwf'. destruct_and!.
  set (n := Z.to_nat (m_zeroAreaStart b - m_start b + (m_end b - m_zeroAreaEnd b))).
  assert (forall m, slice m (m_start b) (Z.to_nat (m_zeroAreaStart b - m_start b)) ++
    slice m (m_zeroAreaStart b) (Z.to_nat (m_end b - m_zeroAreaEnd b)) = slice m (m_start b) n) as Hj.
  { intros m. unfold n. rewrite Z2Nat.inj_add, slice_plus by lia. f_equal. f_equal. lia. }
  unfold front, tail_ in Hc. rewrite Hj in Hc.
  destruct (mem_split (m_data (buf b)) (m_start b) n) as (L & c & R & Hm & HL & Hlc); [lia|unfold n; lia|].
  rewrite Hm, HL, <- Hlc, slice_app in Hc. subst c.
  assert (m_data (buf b) = (L ++ l) ++ x ++ (r ++ R)) as Hm' by by rewrite Hm, <- !app_assoc.
  assert (m_start b + blen l = blen (L ++ l)) as Hpos by by rewrite blen_app, HL.
  assert (splice (m_data (buf b)) (m_start b + blen l) bs = (L ++ l) ++ bs ++ (r ++ R)) as Hsp
    by (rewrite Hpos, Hm'; by apply splice_app).
  assert (blen (splice (m_data (buf b)) (m_start b + blen l) bs) = blen (m_data (buf b))) as Hbl.
  { rewrite Hsp, Hm'. rewrite !blen_app. unfold blen. lia. }
  split_and!.
  - by apply with_bytes_wf.
  - done.
  - unfold front, tail_. cbn. rewrite Hj, Hsp, HL. replace n with (length (l ++ bs ++ r)).
    + replace ((L ++ l) ++ bs ++ r ++ R) with (L ++ (l ++ bs ++ r) ++ R) by by rewrite <- !app_assoc.
      apply slice_app.
    + rewrite <- Hlc, !length_app. lia.
  - unfold front. cbn. rewrite !length_slice; [done|lia..|].
    rewrite Hbl. lia.
  - apply mem_write_ok; [rewrite Hpos; unfold blen; lia|]. rewrite Hpos, Hm', !blen_app. unfold blen. lia.
Qed.

(** ** Writers on the areas *)

(** A writer that stores [bs] at the start of the buffer. *)
Lemma put_front b c bs x r f z t : wf b -> areas b = (f, z, t) -> front b = x ++ r -> length x = length bs ->
  (forall m, c (Begin b) m = (m' ← mem_write m (m_start b) bs; Ok (tt, advance (Begin b) (blen bs), m'))) ->
  exists b', run_at (Begin b) c b = Ok b' /\ wf b' /\ areas b' = (f, z, t) /\ m_end b' = m_end b /\
    front b' = bs ++ r /\ tail_ b' = tail_ b.
Proof.
  intros Hwf Ha Hf Hx Hc.
  destruct (overwrite b [] x (r ++ tail_ b) bs) as (Hw & Ha' & Hb & Hlen & Hmem); [done|by rewrite Hf, <- app_assoc|done|].
  rewrite Z.add_0_r in *. eexists. split; [unfold run_at; by rewrite Hc, Hmem|].
  cbn [app] in Hb. rewrite (app_assoc bs r) in Hb. apply app_inj_1 in Hb as [Hb1 Hb2].
  - split_and!; [done|by rewrite Ha'|done|done|done].
  - rewrite Hlen, Hf, !length_app. lia.
Qed.

Lemma Write_front b bs x r f z t : wf b -> areas b = (f, z, t) -> front b = x ++ r -> length x = length bs ->
  exists b', run_at (Begin b) (Write bs) b = Ok b' /\ wf b' /\ areas b' = (f, z, t) /\ m_end b' = m_end b /\
    front b' = bs ++ r /\ tail_ b' = tail_ b.
Proof.
  intros Hwf Ha Hf Hx. eapply put_front; [done..|]. intros m. pose proof (areas_length b f z t Hwf Ha) as (Hl & _).
  rewrite Hf, blen_app in Hl. pose proof (blen_nonneg r). pose proof Hwf as Hwf'. unfold wf in Hwf'. injection Ha as <- <- <-.
  assert (blen x = blen bs) by (unfold blen; lia). pose proof (blen_nonneg bs).
  assert (CheckNoZero (Begin b) (m_start b) (blen bs) = true) as Hck.
  { unfold CheckNoZero. apply forallb_forall. intros i Hi%list_elem_of_In%elem_of_seqZ. unfold Check. cbn. lia. }
  unfold Write, mbind, ItM_bind, it_assert. change (m_current (Begin b)) with (m_start b). unfold blen in Hck. rewrite Hck.
  unfold store. cbn. by replace (m_start b <=? m_zeroAreaStart b) with true by lia.
Qed.

Lemma WriteU8_n_front b n f z t : wf b -> areas b = (f, z, t) -> f = n ->
  exists b', run_at (Begin b) (WriteU8_n 0 n) b = Ok b' /\ wf b' /\ areas b' = (f, z, t) /\ m_end b' = m_end b /\
    front b' = replicate (Z.to_nat n) 0 /\ tail_ b' = tail_ b.
Proof.
  intros Hwf Ha ->. pose proof (areas_length b n z t Hwf Ha) as (Hl & _).
  destruct (put_front b (WriteU8_n 0 n) (replicate (Z.to_nat n) 0) (front b) [] n z t) as (b' & H & H1 & H2 & H3 & H4 & H5);
    [done|done|by rewrite app_nil_r|rewrite length_replicate; unfold blen in Hl; lia| |].
  - intros m. pose proof Hwf as Hwf'. unfold wf in Hwf'. injection Ha as <- <- <-.
    assert (CheckNoZero (Begin b) (m_start b) (m_start b + (m_zeroAreaStart b - m_start b)) = true) as Hck.
    { unfold CheckNoZero. apply forallb_forall. intros i Hi%list_elem_of_In%elem_of_seqZ. unfold Check. cbn. lia. }
    unfold WriteU8_n, mbind, ItM_bind, it_assert. change (m_current (Begin b)) with (m_start b).
    rewrite u32_small by (unfold is_u32; lia). rewrite Hck.
    unfold store. cbn [Begin Construct m_current m_zeroStart]. by replace (m_start b <=? m_zeroAreaStart b) with true by lia.
  - rewrite app_nil_r in H4. by exists b'.
Qed.

(** [i = End (); i.Prev (n)], then [Write (bytes)]. *)
Lemma Write_tail b bs l x f z t : wf b -> areas b = (f, z, t) -> tail_ b = l ++ x -> length x = length bs ->
  exists b', run_at (End_ b) (_ ← Prev (blen bs); Write bs) b = Ok b' /\ wf b' /\ areas b' = (f, z, t) /\
    m_end b' = m_end b /\ front b' = front b /\ tail_ b' = l ++ bs.
Proof.
  intros Hwf Ha Hf Hx. pose proof (areas_length b f z t Hwf Ha) as (Hlf & Hl & Hz).
  assert (blen x = blen bs) as Hxb by (unfold blen; lia). rewrite Hf, blen_app in Hl.
  pose proof (blen_nonneg l). pose proof (blen_nonneg bs). pose proof Hwf as Hwf'. unfold wf in Hwf'.
  destruct (overwrite b (front b ++ l) x [] bs) as (Hw & Ha' & Hb & Hlen & Hmem);
    [done|by rewrite Hf, app_nil_r, app_assoc|done|].
  rewrite blen_app in *. injection Ha as <- <- <-.
  exists (with_bytes b (splice (m_data (buf b)) (m_start b + (blen (front b) + blen l)) bs)). split.
  - unfold run_at, Prev, mbind, ItM_bind. change (m_current (End_ b)) with (m_end b).
    replace (blen bs <=? m_end b) with true by lia.
    assert (CheckNoZero (advance (End_ b) (- blen bs)) (m_end b - blen bs) (blen bs) = true) as Hck.
    { unfold CheckNoZero. apply forallb_forall. intros i Hi%list_elem_of_In%elem_of_seqZ. unfold Check. cbn. lia. }
    unfold Write, mbind, ItM_bind, it_assert.
    assert (m_current (advance (End_ b) (- blen bs)) = m_end b - blen bs) as Hcur
      by (cbn; rewrite u32_small by (unfold is_u32; lia); lia).
    rewrite Hcur. fold (blen bs). rewrite Hck. unfold store. rewrite Hcur. cbn [advance set_current End_ Construct m_zeroStart].
    unfold behind. rewrite Hcur. cbn [advance set_current End_ Construct m_zeroStart m_zeroEnd].
    rewrite !u32_small by (unfold is_u32; rewrite ?u32_small; unfold is_u32; lia).
    replace (if _ <=? _ then _ else _) with (m_start b + (blen (front b) + blen l)); [by rewrite Hmem|].
    destruct (Z.leb_spec (m_end b - blen bs) (m_zeroAreaStart b)); lia.
  - rewrite app_nil_r, <- app_assoc in Hb. apply app_inj_1 in Hb as [Hb1 Hb2]; [|done]. by split_and!.
Qed.

(** ** Full copies *)

Lemma take_over_ok b : wf b -> wf (take_over b) /\ contents (take_over b) = contents b /\ areas (take_over b) = areas b.
Proof.
  intros Hb. unfold take_over. destruct (Z.ltb_spec 1 (m_count (buf b))); [|done].
  destruct (with_count_ok b (m_count (buf b) - 1) (m_maxZeroAreaStart b)); [lia|done|]. by split_and!.
Qed.

Lemma contents_real b f t : areas b = (f, 0, t) -> contents b = front b ++ tail_ b.
Proof. intros [= _ Hz _]. by rewrite contents_areas, Hz. Qed.

Lemma tail_nil b f z : wf b -> areas b = (f, z, 0) -> tail_ b = [].
Proof. intros Hwf Ha. destruct (areas_length b _ _ _ Hwf Ha) as (_ & Ht & _). by destruct (tail_ b). Qed.

(** Where added bytes go. *)
Lemma AddAtStart_front n b f z t : wf b -> 0 <= n -> m_end b + n < array_max -> areas b = (f, z, t) ->
  exists dirty b' x, AddAtStart Create n b = Ok (dirty, b') /\ wf b' /\ areas b' = (n + f, z, t) /\
    front b' = x ++ front b /\ tail_ b' = tail_ b /\ blen x = n /\ m_end b' <= m_end b + n.
Proof using Create_ok.
  intros Hwf Hn Hb Ha. destruct (AddAtStart_areas n b f z t Hwf Hn Hb Ha) as (d & b' & x & H & W & C & L & A & E).
  exists d, b', x. destruct (areas_length b _ _ _ Hwf Ha) as (Lf & _ & _). destruct (areas_length b' _ _ _ W A) as (Lf' & _ & _).
  rewrite !contents_areas in C. injection Ha as Ef Ez Et. injection A as Ef' Ez' Et'. rewrite Ez, Ez' in C.
  rewrite (app_assoc x) in C. apply app_inj_1 in C as [C1 C]; [|rewrite length_app; unfold blen in *; lia].
  apply app_inv_head in C. split_and!; try done. unfold areas. by rewrite Ef', Ez', Et'.
Qed.

Lemma AddAtEnd_tail n b f z t : wf b -> 0 <= n -> m_end b + n < array_max -> areas b = (f, z, t) ->
  exists dirty b' x, AddAtEnd Create n b = Ok (dirty, b') /\ wf b' /\ areas b' = (f, z, t + n) /\
    front b' = front b /\ tail_ b' = tail_ b ++ x /\ blen x = n /\ m_end b' <= m_end b + n.
Proof using Create_ok.
  intros Hwf Hn Hb Ha. destruct (AddAtEnd_areas n b f z t Hwf Hn Hb Ha) as (d & b' & x & H & W & C & L & A & E).
  exists d, b', x. destruct (areas_length b _ _ _ Hwf Ha) as (Lf & _ & _). destruct (areas_length b' _ _ _ W A) as (Lf' & _ & _).
  rewrite !contents_areas in C. injection Ha as Ef Ez Et. injection A as Ef' Ez' Et'. rewrite Ez, Ez' in C.
  rewrite <- !app_assoc in C. apply app_inj_1 in C as [C1 C]; [|unfold blen in *; lia].
  apply app_inv_head in C. split_and!; try done. unfold areas. by rewrite Ef', Ez', Et'.
Qed.

(** The zeros of a full copy, then the bytes in front of them. *)
Lemma full_copy_front g zs bs : 0 <= g -> 0 <= zs -> g + zs + blen bs < array_max ->
  exists b1 b2 b3 b4 d1 d2, AddAtStart Create zs (Initialize Create g 0) = Ok (d1, b1) /\
    run_at (Begin b1) (WriteU8_n 0 zs) b1 = Ok b2 /\ AddAtStart Create (blen bs) b2 = Ok (d2, b3) /\
    run_at (Begin b3) (Write bs) b3 = Ok b4 /\ wf b4 /\ areas b4 = (blen bs + zs, 0, 0) /\
    front b4 = bs ++ replicate (Z.to_nat zs) 0 /\ m_end b4 <= g + zs + blen bs.
Proof using Create_ok.
  intros Hg Hz Hlt. pose proof (blen_nonneg bs).
  destruct (Initialize_areas g 0) as (W0 & _ & A0 & E0); [done..|lia|].
  destruct (AddAtStart_front zs _ 0 0 0 W0) as (d1 & b1 & x1 & H1 & W1 & A1 & F1 & _ & L1 & E1); [done|lia|done|].
  rewrite Z.add_0_r in A1.
  destruct (WriteU8_n_front b1 zs zs 0 0 W1 A1 eq_refl) as (b2 & H2 & W2 & A2 & E2 & F2 & T2).
  destruct (AddAtStart_front (blen bs) b2 zs 0 0 W2) as (d3 & b3 & x3 & H3 & W3 & A3 & F3 & _ & L3 & E3); [done|lia|done|].
  destruct (Write_front b3 bs x3 (front b2) (blen bs + zs) 0 0 W3 A3 F3) as (b4 & H4 & W4 & A4 & E4 & F4 & T4);
    [unfold blen in *; lia|].
  exists b1, b2, b3, b4, d1, d3. rewrite F2 in F4. split_and!; try done. lia.
Qed.

Lemma CreateFullCopy_ok g b : wf b -> 0 <= g -> g + (m_end b - m_start b) < array_max ->
  exists b' f t, CreateFullCopy Create g b = Ok b' /\ wf b' /\ contents b' = contents b /\ areas b' = (f, 0, t) /\
    m_end b' <= Z.max (m_end b) (g + (m_end b - m_start b)).
Proof using Create_ok.
  intros Hwf Hg Hb. pose proof Hwf as Hwf'. unfold wf in Hwf'. unfold CreateFullCopy.
  rewrite (u32_small (m_zeroAreaEnd b - _)), (u32_small (m_zeroAreaStart b - _)), (u32_small (m_end b - _))
    by (unfold is_u32; lia).
  destruct (areas_length b _ _ _ Hwf eq_refl) as (Lf & Lt & Lz).
  set (f := m_zeroAreaStart b - m_start b) in *. set (z := m_zeroAreaEnd b - m_zeroAreaStart b) in *.
  set (t := m_end b - m_zeroAreaEnd b) in *.
  destruct (Z.eqb_spec z 0) as [Hz|Hz]; cbn [negb].
  { destruct (with_count_ok b (m_count (buf b) + 1) (m_zeroAreaStart b)) as [H1 H2]; [lia|done|].
    exists (copy_of b), f, t. split_and!; [done|exact H1|exact H2| |cbn; lia].
    change (areas (copy_of b)) with (f, z, t). by rewrite Hz. }
  destruct (full_copy_front g z (front b)) as (b1 & b2 & b3 & b4 & d1 & d2 & H1 & H2 & H3 & H4 & W4 & A4 & F4 & E4); [lia..|].
  rewrite Lf in *. rewrite H1. cbn [mbind result_bind]. rewrite H2. cbn [mbind result_bind]. rewrite H3. cbn [mbind result_bind].
  rewrite (mem_read_ok _ (m_start b)) by lia. cbn [mbind result_bind]. change (slice _ (m_start b) _) with (front b).
  rewrite H4. cbn [mbind result_bind].
  destruct (AddAtEnd_tail t b4 (f + z) 0 0 W4) as (d5 & b5 & x5 & H5 & W5 & A5 & F5 & T5 & L5 & E5); [lia|lia|exact A4|].
  rewrite H5. cbn [mbind result_bind]. rewrite (mem_read_ok _ (m_zeroAreaStart b)) by lia. cbn [mbind result_bind].
  change (slice _ (m_zeroAreaStart b) _) with (tail_ b). rewrite (tail_nil b4 _ _ W4 A4) in T5.
  destruct (Write_tail b5 (tail_ b) [] x5 (f + z) 0 (0 + t) W5 A5 T5) as (b6 & H6 & W6 & A6 & E6 & F6 & T6); [unfold blen in *; lia|].
  rewrite Lt in H6. exists b6, (f + z), (0 + t). split_and!; [exact H6|exact W6| |exact A6|lia].
  rewrite (contents_real b6 _ _ A6), F6, T6, F5, F4, contents_areas. by rewrite <- app_assoc.
Qed.

(** ** Appending a buffer *)

Lemma mem_put_ok m i bs : 0 <= i -> i + blen bs <= blen m -> mem_put m i bs = Ok (splice m i bs).
Proof. intros Hi Hb. destruct bs; [by rewrite splice_nil|]. by apply mem_write_ok. Qed.

Lemma advance_small it n : 0 <= m_current it + n < 2 ^ 32 -> advance it n = set_current it (m_current it + n).
Proof. intros H. unfold advance. by rewrite u32_small. Qed.

Lemma copy_front_all it src size m : wf src -> 0 <= m_current it -> m_current it + blen (front src) <= blen m ->
  blen m < 2 ^ 32 -> blen (front src) <= size < 2 ^ 32 ->
  copy_front (m_data (buf src)) (it, Begin src, size, m) =
    Ok (set_current it (m_current it + blen (front src)), Construct src (m_zeroAreaStart src), size - blen (front src),
        splice m (m_current it) (front src)).
Proof using Create_ok.
  intros Hwf H0 Hm Hlt Hs. destruct (areas_length src _ _ _ Hwf eq_refl) as (Lf & _ & _). unfold wf in Hwf.
  unfold copy_front. cbn [Begin Construct m_current m_zeroStart]. replace (m_start src <=? m_zeroAreaStart src) with true by lia.
  rewrite (u32_small (_ - _)) by (unfold is_u32; lia). rewrite Z.min_r by lia. rewrite mem_read_ok by lia.
  cbn [mbind result_bind]. change (slice _ _ _) with (front src). rewrite mem_put_ok by lia. cbn [mbind result_bind].
  rewrite <- Lf, !advance_small by (cbn; lia). rewrite u32_small by (unfold is_u32; lia). do 3 f_equal.
  f_equal. unfold set_current, Construct. cbn. f_equal. lia.
Qed.

Lemma copy_zero_area_none it src size m : wf src -> m_zeroAreaEnd src = m_zeroAreaStart src -> 0 <= m_current it < 2 ^ 32 ->
  0 <= size < 2 ^ 32 ->
  copy_zero_area (it, Construct src (m_zeroAreaStart src), size, m) = Ok (it, Construct src (m_zeroAreaStart src), size, m).
Proof using Create_ok.
  intros Hwf Hz Hc Hs. unfold wf in Hwf. unfold copy_zero_area. cbn [Construct m_current m_zeroEnd].
  rewrite Hz. replace (_ <=? _) with true by lia. rewrite Z.sub_diag. change (u32 0) with 0. rewrite Z.min_r by lia.
  cbn [Z.to_nat replicate mem_put mbind result_bind]. rewrite !advance_small by (cbn; lia).
  rewrite Z.sub_0_r, u32_small by done. unfold set_current, Construct. cbn. rewrite !Z.add_0_r. by destruct it.
Qed.

Lemma copy_tail_all it src m : wf src -> m_zeroAreaEnd src = m_zeroAreaStart src -> 0 <= m_current it ->
  m_current it + blen (tail_ src) <= blen m -> blen m < 2 ^ 32 ->
  copy_tail (m_data (buf src)) (it, Construct src (m_zeroAreaStart src), blen (tail_ src), m) =
    Ok (tt, set_current it (m_current it + blen (tail_ src)), splice m (m_current it) (tail_ src)).
Proof using Create_ok.
  intros Hwf Hz H0 Hm Hlt. destruct (areas_length src _ _ _ Hwf eq_refl) as (_ & Lt & _). unfold wf in Hwf.
  unfold copy_tail. cbn [Construct m_current m_zeroEnd m_zeroStart m_dataEnd].
  replace (u32 (m_end src - m_zeroAreaStart src)) with (blen (tail_ src)) by (rewrite u32_small; unfold is_u32; lia).
  rewrite Z.min_id.
  rewrite Hz, Z.sub_diag. change (u32 0) with 0. rewrite Z.sub_0_r, u32_small by (unfold is_u32; lia).
  rewrite mem_read_ok by lia. cbn [mbind result_bind]. replace (slice _ _ _) with (tail_ src) by (by rewrite Lt).
  rewrite mem_put_ok by lia. cbn [mbind result_bind]. by rewrite advance_small by lia.
Qed.

(** [Write (src.Begin (), src.End ())] between buffers without virtual zeros. *)
Lemma Write_range_real it m src fs ts : wf src -> areas src = (fs, 0, ts) ->
  m_zeroStart it = m_zeroEnd it -> m_dataStart it <= m_current it -> 0 <= m_current it ->
  m_current it + blen (contents src) <= m_dataEnd it ->
  m_current it + blen (contents src) <= blen m -> blen m < 2 ^ 32 ->
  Write_range false (m_data (buf src)) (Begin src) (End_ src) it m =
    Ok (tt, set_current it (m_current it + blen (contents src)), splice m (m_current it) (contents src)).
Proof using Create_ok.
  intros Hwf Ha Hz Hs H0 He Hm Hlt. rewrite (contents_real src fs ts Ha) in *. rewrite blen_app in *.
  destruct (areas_length src fs 0 ts Hwf Ha) as (Lf & Lt & _). pose proof Hwf as Hwf'. unfold wf in Hwf'. injection Ha as Ef Ez Et.
  pose proof (blen_nonneg (front src)). pose proof (blen_nonneg (tail_ src)).
  unfold Write_range. cbn [Begin End_ Construct m_current m_zeroStart m_zeroEnd].
  replace (m_start src <=? m_end src) with true by lia. rewrite !Z.eqb_refl. cbn [negb assert mbind result_bind].
  replace (u32 (m_end src - m_start src)) with (blen (front src) + blen (tail_ src)) by (rewrite u32_small by (unfold is_u32; lia); lia).
  rewrite (u32_small (m_current it + _)) by (unfold is_u32; lia).
  assert (CheckNoZero it (m_current it) (m_current it + (blen (front src) + blen (tail_ src))) = true) as ->.
  { unfold CheckNoZero. apply forallb_forall. intros i Hi%list_elem_of_In%elem_of_seqZ. unfold Check. lia. }
  cbn [assert mbind result_bind]. rewrite copy_front_all by (done || lia). cbn [mbind result_bind].
  rewrite copy_zero_area_none by (done || (cbn; lia)). cbn [mbind result_bind].
  replace (blen (front src) + blen (tail_ src) - blen (front src)) with (blen (tail_ src)) by lia.
  rewrite copy_tail_all; [|done|lia|cbn; lia|cbn; rewrite blen_splice; lia|rewrite blen_splice; lia].
  cbn [set_current m_current]. rewrite splice_splice, Z.add_assoc by lia. done.
Qed.

(** The same at the end of a buffer. *)
Lemma Write_range_tail b src l x f t fs ts n : wf b -> areas b = (f, 0, t) -> tail_ b = l ++ x ->
  wf src -> areas src = (fs, 0, ts) -> blen (contents src) = n -> blen x = n ->
  exists b', run_at (End_ b) (_ ← Prev n; Write_range false (m_data (buf src)) (Begin src) (End_ src)) b = Ok b' /\
    wf b' /\ contents b' = front b ++ l ++ contents src.
Proof using Create_ok.
  intros Hwf Ha Ht Hws Has Hn Hx. destruct (areas_length b f 0 t Hwf Ha) as (Lf & Lt & _).
  pose proof Hwf as Hwf'. unfold wf in Hwf'. rewrite Ht, blen_app in Lt.
  pose proof (blen_nonneg l). pose proof (blen_nonneg (contents src)).
  destruct (overwrite b (front b ++ l) x [] (contents src)) as (Hw & Ha' & Hb & Hlen & Hmem);
    [done|by rewrite Ht, app_nil_r, app_assoc|unfold blen in *; lia|].
  injection Ha as Ef Ez Et. rewrite blen_app in *. eexists. split.
  - unfold run_at, Prev, mbind, ItM_bind. change (m_current (End_ b)) with (m_end b).
    replace (n <=? m_end b) with true by lia. rewrite advance_small by (cbn; lia).
    rewrite (Write_range_real _ _ src fs ts Hws Has); cbn; [done|lia..].
  - cbn [set_current m_current End_ Construct]. replace (m_end b + - n) with (m_start b + (blen (front b) + blen l)) by lia.
    split; [done|]. rewrite (contents_real _ f t).
    + by rewrite Hb, app_nil_r, app_assoc.
    + rewrite Ha'. unfold areas. by rewrite Ef, Ez, Et.
Qed.

(** Nothing is written from the end of a buffer to its end. *)
Lemma Write_range_empty b o : wf b -> wf o -> m_end o = m_zeroAreaEnd o -> m_zeroAreaStart o < m_zeroAreaEnd o ->
  run_at (End_ b) (_ ← Prev 0; Write_range false (m_data (buf o)) (End_ o) (End_ o)) b = Ok (with_bytes b (m_data (buf b))).
Proof using Create_ok.
  intros Hwf Hwo He Hz. unfold wf in *. unfold run_at, Prev, mbind, ItM_bind. change (m_current (End_ b)) with (m_end b).
  replace (0 <=? m_end b) with true by lia. rewrite advance_small by (cbn; lia).
  unfold Write_range. cbn [End_ Construct m_current m_zeroStart m_zeroEnd set_current].
  rewrite Z.leb_refl, !Z.eqb_refl, Z.sub_diag. cbn [negb assert mbind result_bind].
  replace (u32 (m_end b + - (0) + u32 0)) with (m_end b + - (0)) by (change (u32 0) with 0; rewrite u32_small; unfold is_u32; lia).
  replace (CheckNoZero _ _ _) with true by (unfold CheckNoZero; by rewrite Z.sub_diag).
  cbn [assert mbind result_bind]. unfold copy_front. cbn [End_ Construct m_current m_zeroStart].
  replace (m_end o <=? m_zeroAreaStart o) with false by lia. cbn [mbind result_bind]. unfold copy_zero_area.
  cbn [End_ Construct m_current m_zeroEnd]. rewrite <- He, Z.leb_refl, Z.sub_diag. change (u32 0) with 0. rewrite Z.min_id.
  change (Z.to_nat 0) with 0%nat. cbn [replicate mem_put mbind result_bind]. unfold copy_tail. change (u32 (0 - 0)) with 0.
  rewrite !Z.min_l by (apply (u32_range _)). rewrite (advance_small (End_ o)) by (cbn; lia).
  cbn [set_current End_ Construct m_current m_zeroEnd m_zeroStart].
  rewrite !u32_small by (unfold is_u32; rewrite ?u32_small; unfold is_u32; lia).
  rewrite mem_read_ok by lia. done.
Qed.

Lemma Prev_0 it m : is_u32 (m_current it) -> Prev 0 it m = Ok (tt, it, m).
Proof.
  unfold is_u32. intros H. unfold Prev. replace (0 <=? m_current it) with true by lia.
  rewrite advance_small by lia. do 3 f_equal. unfold set_current. destruct it. cbn. f_equal. lia.
Qed.

(** The merge of two virtual zero areas. *)
Lemma merge_zeroes g b o : wf b -> wf o -> m_end b + blen (contents o) < array_max -> m_count (buf b) = 1 ->
  m_end b = m_zeroAreaEnd b -> m_end b = m_dirtyEnd (buf b) -> m_start o = m_zeroAreaStart o ->
  m_zeroAreaStart o < m_zeroAreaEnd o -> m_end o = m_zeroAreaEnd o ->
  exists b', AddAtEnd_buffer Create g false o b = Ok b' /\ wf b' /\ contents b' = contents b ++ contents o.
Proof using Create_ok.
  intros Hwf Hwo Hlt Hc He Hd Hs Hz Ht. rewrite blen_contents in Hlt by done.
  pose proof Hwf as Hb'. pose proof Hwo as Ho'. unfold wf in Hb', Ho'. unfold AddAtEnd_buffer.
  rewrite Hc, <- He, <- Hd, Hs, !Z.eqb_refl. cbn [andb].
  rewrite !(u32_small (m_zeroAreaEnd o - _)) by (unfold is_u32; lia). replace (0 <? _) with true by lia.
  rewrite (u32_small (m_end b + _)) by (unfold is_u32; lia). set (b1 := Build_Buffer _ _ _ _ _ _).
  assert (wf b1) as W1 by (unfold wf, b1; cbn; lia).
  assert (contents b1 = contents b ++ contents o) as C1.
  { unfold contents, b1. cbn. rewrite <- Ht, Hs, <- He, !Z.sub_diag, !slice_0, !app_nil_r. cbn [app].
    rewrite <- app_assoc, <- replicate_add. f_equal. f_equal. lia. }
  rewrite Ht, Z.sub_diag. change (u32 0) with 0.
  destruct (AddAtEnd_contents Create Create_ok 0 b1) as (d & b2 & x & H2 & W2 & C2 & L2 & _); [done|done|cbn; lia|].
  rewrite H2. cbn [mbind result_bind]. rewrite (Prev_0 (End_ o)) by (unfold is_u32; cbn; lia).
  cbn [mbind result_bind].
  rewrite Write_range_empty by done. exists (with_bytes b2 (m_data (buf b2))).
  split_and!; [done|by apply with_bytes_wf|]. change (contents (with_bytes b2 (m_data (buf b2)))) with (contents b2).
  rewrite C2, C1. by destruct x; [rewrite app_nil_r|].
Qed.

(** The array after [AddAtEnd] is the old one or a new one of its own. *)
Definition has_room (n : Z) (b : Buffer) : bool :=
  (u32 (GetInternalEnd b + n) <=? m_size (buf b)) && negb ((1 <? m_count (buf b)) && (m_end b <? m_dirtyEnd (buf b))).

Lemma AddAtEnd_count n b d b' : wf b -> 0 <= n -> m_end b + n < array_max -> AddAtEnd Create n b = Ok (d, b') ->
  m_count (buf b') = if has_room n b then m_count (buf b) else 1.
Proof using Create_ok.
  intros Hwf Hn Hlt. unfold wf in Hwf. unfold AddAtEnd, has_room. destruct (_ && negb _).
  - by intros (_ & _ & [= _ <-])%bind_Ok.
  - intros (src & _ & (bytes & _ & [= _ <-])%bind_Ok)%bind_Ok. cbn. apply Create_ok.
    unfold GetInternalSize. rewrite (u32_small (_ - _)) by (unfold is_u32; lia). rewrite u32_small; [lia|unfold is_u32; lia].
Qed.

(** [NS_ASSERT (m_data != start.m_data)] *)
Lemma Write_same it n from src src' b :
  run_at it (_ ← Prev n; Write_range true from src src') b = Fault AssertFailed.
Proof using.
  unfold run_at, Prev, mbind, ItM_bind. destruct (n <=? m_current it); [|done]. unfold Write_range, assert.
  by destruct (m_current src <=? m_current src'), (m_zeroStart src =? m_zeroStart src'), (m_zeroEnd src =? m_zeroEnd src').
Qed.

(** The short cut. *)
Definition zeroes_meet (o b : Buffer) : bool :=
  (m_count (buf b) =? 1) && (m_end b =? m_zeroAreaEnd b) && (m_end b =? m_dirtyEnd (buf b)) &&
  (m_start o =? m_zeroAreaStart o) && (0 <? u32 (m_zeroAreaEnd o - m_zeroAreaStart o)).

(** Appending [o] to [b], over one array, writes into that array. *)
Definition in_place (o b : Buffer) : bool :=
  zeroes_meet o b ||
  ((m_zeroAreaStart b =? m_zeroAreaEnd b) && (m_zeroAreaStart o =? m_zeroAreaEnd o) &&
   (m_end b + blen (contents o) <=? m_size (buf b)) && (m_end b =? m_dirtyEnd (buf b))).

(** A buffer appended to itself by the short cut. *)
Lemma merge_itself g b : wf b -> m_end b + blen (contents b) < array_max -> zeroes_meet b b = true ->
  AddAtEnd_buffer Create g true b b = Fault AssertFailed.
Proof using Create_ok.
  intros Hwf Hlt Hm. rewrite blen_contents in Hlt by done. unfold AddAtEnd_buffer. unfold zeroes_meet in Hm. rewrite Hm.
  pose proof Hwf as Hb. unfold wf in Hb. assert (m_end b = m_zeroAreaEnd b /\ m_count (buf b) = 1 /\ m_start b = m_zeroAreaStart b) as (He & Hc & Hs) by lia.
  rewrite (u32_small (m_zeroAreaEnd b - _)) by (unfold is_u32; lia). rewrite (u32_small (m_zeroAreaEnd b + _)) by (unfold is_u32; lia).
  rewrite <- He, Z.sub_diag. change (u32 0) with 0. set (b1 := Build_Buffer _ _ _ _ _ _).
  assert (wf b1) as W1 by (unfold wf, b1; cbn; lia).
  destruct (AddAtEnd_contents Create Create_ok 0 b1) as (d & b2 & x & -> & _); [done|done|cbn; lia|]. cbn [mbind result_bind].
  rewrite (Prev_0 (End_ b)) by (unfold is_u32; cbn; lia). cbn [mbind result_bind]. apply Write_same.
Qed.

(** [AddAtEnd] writes the array of the copy only if there is room for that. *)
Lemma room_in_copy n b : wf b -> m_zeroAreaStart b = m_zeroAreaEnd b -> 0 <= n -> m_end b + n < array_max ->
  has_room n (copy_of b) = (m_end b + n <=? m_size (buf b)) && (m_end b =? m_dirtyEnd (buf b)).
Proof using.
  intros Hwf Hz Hn Hlt. unfold wf in Hwf. unfold has_room, GetInternalEnd. cbn.
  rewrite Hz, Z.sub_diag, Z.sub_0_r, (u32_small (m_end b)), u32_small by (unfold is_u32; lia).
  f_equal. lia.
Qed.

Lemma append_copies same g b o : wf b -> wf o -> 0 <= g -> m_end b + blen (contents o) < array_max ->
  g + blen (contents b) + blen (contents o) < array_max -> zeroes_meet o b = false ->
  if same && in_place o b then AddAtEnd_buffer Create g same o b = Fault AssertFailed
  else exists b', AddAtEnd_buffer Create g same o b = Ok b' /\ wf b' /\ contents b' = contents b ++ contents o.
Proof using Create_ok.
  intros Hb Ho Hg H1 H2 Hm. pose proof Hb as Hb'. pose proof Ho as Ho'. unfold wf in Hb', Ho'.
  unfold in_place. rewrite Hm. cbn [orb]. unfold zeroes_meet in Hm. unfold AddAtEnd_buffer. rewrite Hm. rewrite !blen_contents in * by done.
  destruct (CreateFullCopy_ok g b) as (dst & f & t & D1 & D2 & D3 & D4 & D5); [done|done|lia|].
  destruct (CreateFullCopy_ok g o) as (src & fs & ts & S1 & S2 & S3 & S4 & S5); [done|done|lia|].
  rewrite D1. cbn [mbind result_bind]. rewrite S1. cbn [mbind result_bind].
  assert (Buffer_GetSize src = blen (contents src)) as Hn.
  { unfold Buffer_GetSize. rewrite blen_contents by done. unfold wf in S2. apply u32_small. unfold is_u32. lia. }
  rewrite Hn. rewrite S3 in Hn. pose proof (blen_nonneg (contents o)).
  assert (blen (contents o) = m_end o - m_start o) as Hlo by by apply blen_contents.
  destruct (AddAtEnd_tail (blen (contents src)) dst f 0 t) as (d & b1 & x & A1 & A2 & A3 & A4 & A5 & A6 & A7);
    [done|by rewrite S3|rewrite S3; lia|done|]. rewrite A1. cbn [mbind result_bind].
  rewrite !(u32_small (_ - _)) by (unfold is_u32; lia).
  match goal with |- context [Write_range ?s] => set (same1 := s) end.
  assert (same1 = same && ((m_zeroAreaStart b =? m_zeroAreaEnd b) && (m_zeroAreaStart o =? m_zeroAreaEnd o) &&
    (m_end b + (m_end o - m_start o) <=? m_size (buf b)) && (m_end b =? m_dirtyEnd (buf b)))) as <-.
  { unfold same1. rewrite (AddAtEnd_count (blen (contents src)) dst d b1) by (done || (rewrite S3; lia)).
    destruct same; [|done]. cbn [andb]. destruct (Z.eqb_spec (m_zeroAreaStart b) (m_zeroAreaEnd b)) as [E|E].
    2: { rewrite (proj2 (Z.eqb_neq (m_zeroAreaEnd b - m_zeroAreaStart b) 0)) by lia. done. }
    unfold CreateFullCopy in D1. rewrite E, Z.sub_diag in *. change (u32 0) with 0 in D1. cbn in D1. injection D1 as <-.
    rewrite S3, room_in_copy, Hlo by (done || lia). cbn [m_count buf copy_of with_count].
    assert ((m_count (buf b) + 1 =? 1) = false) as Hc by lia.
    destruct (Z.eqb_spec (m_zeroAreaStart o) (m_zeroAreaEnd o)) as [Eo|Eo].
    - rewrite Eo, Z.sub_diag. cbn. by destruct ((_ <=? _) && (m_end b =? _)); rewrite ?Hc.
    - by rewrite (proj2 (Z.eqb_neq (m_zeroAreaEnd o - m_zeroAreaStart o) 0)) by lia. }
  destruct same1; [by rewrite Write_same|].
  destruct (Write_range_tail b1 src (tail_ dst) x f (t + blen (contents src)) fs ts (blen (contents src)))
    as (b2 & B1 & B2 & B3); [done..|]. rewrite B1. cbn [mbind result_bind].
  destruct (take_over_ok b2 B2) as (T1 & T2 & _). eexists. split_and!; [done|done|].
  rewrite T2, B3, A4, S3, <- D3, (contents_real dst f t D4). by rewrite <- app_assoc.
Qed.

(** (C29) Appending a buffer appends its bytes, whether the two buffers share
    their array ([same]) or not.  Unless the code takes its short cut, a full
    copy of the other buffer is appended to a full copy of this one; the short
    cut, which joins two virtual zero areas that meet, is right when no bytes
    follow the zeros that are appended.  The exception are buffers that share
    their array (a copy, or the buffer itself) when neither has a zero area and
    the array has room behind the bytes of this one, or when the short cut is
    taken: then the copies share the array too, nothing is allocated, and the
    assertion of [Iterator::Write] that the arrays differ fails. *)
Theorem buffer_concat same g b o
  (Hb : wf b) (Ho : wf o) (Hg : 0 <= g)
  (H1 : m_end b + blen (contents o) < array_max) (H2 : g + blen (contents b) + blen (contents o) < array_max)
  (Hcut : m_end o = m_zeroAreaEnd o \/ m_zeroAreaStart o = m_zeroAreaEnd o \/ m_start o <> m_zeroAreaStart o \/
    m_end b <> m_zeroAreaEnd b \/ m_count (buf b) <> 1)
  (Hsame : same = true -> buf o = buf b /\ (m_count (buf b) = 1 -> o = b)) :
  if same && in_place o b then AddAtEnd_buffer Create g same o b = Fault AssertFailed
  else exists b', AddAtEnd_buffer Create g same o b = Ok b' /\ wf b' /\ contents b' = contents b ++ contents o.
Proof using Create_ok.
  destruct (zeroes_meet o b) eqn:Hm.
  - unfold in_place. rewrite Hm. cbn [orb]. pose proof Hm as Hm'. unfold zeroes_meet in Hm'. pose proof Ho as Ho'. unfold wf in Ho'.
    rewrite u32_small in Hm' by (unfold is_u32; lia). destruct same; cbn [andb].
    + destruct Hsame as [_ Hs]; [done|]. rewrite Hs in * by lia. by apply merge_itself.
    + by apply merge_zeroes; [done|done|lia..].
  - by apply append_copies.
Qed.

(** ** The image of a buffer *)

Lemma round4_spec n : 0 <= n -> n + 3 < 2 ^ 32 -> n <= round4 n < n + 4.
Proof.
  intros Hn Hlt. unfold round4. rewrite u32_small by (unfold is_u32; lia).
  assert (Z.land (n + 3) (u32 (Z.lnot 3)) = Z.land (n + 3) (Z.lnot 3)) as ->.
  { unfold u32. rewrite <- Z.land_ones, (Z.land_comm (Z.lnot 3)), Z.land_assoc by lia.
    rewrite Z.land_ones, (Z.mod_small (n + 3)) by lia. done. }
  rewrite <- Z.ldiff_land. change 3 with (Z.ones 2). rewrite Z.ldiff_ones_r, Z.shiftl_mul_pow2, Z.shiftr_div_pow2 by lia.
  change (Z.ones 2) with 3. change (2 ^ 2) with 4. dlia.
Qed.

Lemma mem_read_app l x r : mem_read (l ++ x ++ r) (blen l) (length x) = Ok x.
Proof. rewrite mem_read_ok; [by rewrite slice_app|unfold blen; lia|rewrite !blen_app; unfold blen; lia]. Qed.

Lemma mem_write_app l x r bs : length x = length bs -> mem_write (l ++ x ++ r) (blen l) bs = Ok (l ++ bs ++ r).
Proof.
  intros Hx. rewrite mem_write_ok; [by rewrite splice_app|unfold blen; lia|rewrite !blen_app; unfold blen; lia].
Qed.

Lemma take_word_app l w r n : is_u32 w -> 4 <= n < 2 ^ 32 ->
  take_word (l ++ le_bytes 4 w ++ r) (blen l) n = Ok (w, blen (l ++ le_bytes 4 w), n - 4).
Proof.
  intros Hw Hn. unfold take_word. replace (4 <=? n) with true by lia. cbn [assert mbind result_bind].
  rewrite (mem_read_app l (le_bytes 4 w) r : mem_read _ _ 4 = _). cbn [mbind result_bind].
  rewrite lsb_word_le_bytes, u32_small by (done || (unfold is_u32; lia) || lia). by rewrite blen_app.
Qed.

Lemma take_bytes_app l bs pad r n : blen pad = round4 (blen bs) - blen bs -> blen bs <= n -> round4 (blen bs) <= n < 2 ^ 32 ->
  blen bs + 3 < 2 ^ 32 ->
  take_bytes (l ++ bs ++ pad ++ r) (blen bs) (blen l) n = Ok (bs, blen (l ++ bs ++ pad), n - round4 (blen bs)).
Proof.
  intros Hp Hb Hn Hlt. unfold take_bytes. replace (blen bs <=? n) with true by lia. cbn [assert mbind result_bind].
  replace (Z.to_nat (blen bs)) with (length bs) by (unfold blen; lia). rewrite mem_read_app. cbn [mbind result_bind].
  destruct (round4_spec (blen bs) (blen_nonneg bs) Hlt). pose proof (blen_nonneg bs).
  rewrite u32_small by (unfold is_u32; lia). do 3 f_equal. rewrite !blen_app. lia.
Qed.

(** The first [n] bytes of [r], and the others. *)
Lemma split_at (r : list Z) n : 0 <= n <= blen r -> exists x r', r = x ++ r' /\ blen x = n /\ blen r' = blen r - n.
Proof.
  unfold blen. intros Hn. exists (take (Z.to_nat n) r), (drop (Z.to_nat n) r). rewrite take_drop, length_take, length_drop.
  split_and!; [done|lia|lia].
Qed.

Lemma put_word_ok maxSize w l r : blen l + 4 <= maxSize -> maxSize < 2 ^ 32 -> 4 <= blen r ->
  exists r', put_word maxSize w (blen l, l ++ r) = Ok (Some (blen (l ++ le_bytes 4 w), (l ++ le_bytes 4 w) ++ r')) /\
    blen r' = blen r - 4.
Proof.
  intros Hm Hlt Hr. destruct (split_at r 4) as (x & r' & -> & Hx & Hr'); [lia|]. exists r'. split; [|done].
  pose proof (blen_nonneg l). unfold put_word. rewrite u32_small by (unfold is_u32; lia).
  replace (_ <=? maxSize) with true by lia. rewrite mem_write_app by (unfold blen in Hx; cbn; lia).
  cbn [mbind result_bind]. by rewrite <- app_assoc, blen_app.
Qed.

Lemma put_bytes_ok maxSize bs l r : blen l + round4 (blen bs) <= maxSize -> maxSize < 2 ^ 32 -> blen bs + 3 < 2 ^ 32 ->
  round4 (blen bs) <= blen r ->
  exists pad r', put_bytes maxSize bs (blen l, l ++ r) = Ok (Some (blen (l ++ bs ++ pad), (l ++ bs ++ pad) ++ r')) /\
    blen pad = round4 (blen bs) - blen bs /\ blen r' = blen r - round4 (blen bs).
Proof.
  intros Hm Hlt Hb Hr. pose proof (blen_nonneg l). pose proof (blen_nonneg bs). destruct (round4_spec (blen bs)) as [H1 H2]; [done..|].
  destruct (split_at r (blen bs)) as (x & r1 & -> & Hx & Hr1); [lia|]. rewrite blen_app in Hr.
  destruct (split_at r1 (round4 (blen bs) - blen bs)) as (pad & r' & -> & Hpad & Hr'); [lia|].
  exists pad, r'. rewrite !blen_app in Hr'. split_and!; [|done|rewrite !blen_app; lia].
  unfold put_bytes. rewrite u32_small by (unfold is_u32; lia). replace (_ <=? maxSize) with true by lia.
  rewrite mem_write_app by (unfold blen in *; lia). cbn [mbind result_bind].
  rewrite <- !app_assoc. do 3 f_equal. rewrite !blen_app. lia.
Qed.

(** What [Serialize] leaves in the array. *)
Definition image (b : Buffer) (pad1 pad2 : list Z) : list Z :=
  (((([] ++ le_bytes 4 (m_zeroAreaEnd b - m_zeroAreaStart b)) ++ le_bytes 4 (m_zeroAreaStart b - m_start b)) ++
    front b ++ pad1) ++ le_bytes 4 (m_end b - m_zeroAreaEnd b)) ++ tail_ b ++ pad2.

Ltac lengths L0 L4 Lf Lt := rewrite ?blen_app, ?L4, ?L0, ?Lf, ?Lt; lia.

Lemma Serialize_image b buffer f z t : wf b -> areas b = (f, z, t) -> 12 + round4 f + round4 t < 2 ^ 32 ->
  f + 3 < 2 ^ 32 -> t + 3 < 2 ^ 32 -> 12 + round4 f + round4 t <= blen buffer ->
  exists pad1 pad2 rest, Buffer_Serialize (12 + round4 f + round4 t) b buffer = Ok (1, image b pad1 pad2 ++ rest) /\
    blen pad1 = round4 f - f /\ blen pad2 = round4 t - t.
Proof.
  intros Hwf Ha Hlt Hf3 Ht3 Hlen. destruct (areas_length b f z t Hwf Ha) as (Lf & Lt & Lz).
  pose proof Hwf as Hwf'. unfold wf in Hwf'. injection Ha as Ef Ez Et.
  pose proof (blen_nonneg (front b)). pose proof (blen_nonneg (tail_ b)).
  destruct (round4_spec f) as [R1 R2]; [lia|done|]. destruct (round4_spec t) as [R3 R4]; [lia|done|].
  unfold Buffer_Serialize, or_return. rewrite Ef, Ez, Et, !u32_small by (unfold is_u32; lia).
  change (0, buffer) with (blen [], [] ++ buffer). set (N := 12 + round4 f + round4 t) in *.
  assert (forall w, blen (le_bytes 4 w) = 4) as L4 by done. assert (blen [] = 0) as L0 by done.
  destruct (put_word_ok N z [] buffer) as (r1 & -> & L1); [lengths L0 L4 Lf Lt|lia|lia|]. cbn [mbind result_bind].
  destruct (put_word_ok N f ([] ++ le_bytes 4 z) r1) as (r2 & -> & L2); [lengths L0 L4 Lf Lt|lia|lia|].
  cbn [mbind result_bind]. rewrite (mem_read_ok _ (m_start b)) by lia. cbn [mbind result_bind].
  replace (slice _ (m_start b) _) with (front b) by (unfold front; by rewrite Ef).
  destruct (put_bytes_ok N (front b) (([] ++ le_bytes 4 z) ++ le_bytes 4 f) r2) as (pad1 & r3 & -> & P1 & L3);
    [lengths L0 L4 Lf Lt|lia|lia|rewrite Lf; lia|].
  cbn [mbind result_bind]. rewrite Lf in *.
  destruct (put_word_ok N t ((([] ++ le_bytes 4 z) ++ le_bytes 4 f) ++ front b ++ pad1) r3) as (r4 & -> & L44);
    [lengths L0 L4 Lf Lt|lia|lia|].
  cbn [mbind result_bind]. rewrite (mem_read_ok _ (m_zeroAreaStart b)) by lia. cbn [mbind result_bind].
  replace (slice _ (m_zeroAreaStart b) _) with (tail_ b) by (unfold tail_; by rewrite Et).
  destruct (put_bytes_ok N (tail_ b) (((([] ++ le_bytes 4 z) ++ le_bytes 4 f) ++ front b ++ pad1) ++ le_bytes 4 t) r4)
    as (pad2 & r5 & -> & P2 & L5);
    [lengths L0 L4 Lf Lt|lia|lia|rewrite Lt; lia|].
  cbn [mbind result_bind]. exists pad1, pad2, r5. rewrite Lt in *. split_and!; [|done|done].
  unfold image. by rewrite Ef, Ez, Et.
Qed.

(** Filling a new buffer. *)
Lemma rebuild g fr z tl : 0 <= g -> 0 <= z -> g + blen fr + z + blen tl < array_max ->
  exists b1 b2 b3 b4 d1 d2, AddAtStart Create (blen fr) (Initialize Create g z) = Ok (d1, b1) /\
    run_at (Begin b1) (Write fr) b1 = Ok b2 /\ AddAtEnd Create (blen tl) b2 = Ok (d2, b3) /\
    run_at (End_ b3) (_ ← Prev (blen tl); Write tl) b3 = Ok b4 /\ wf b4 /\
    contents b4 = fr ++ replicate (Z.to_nat z) 0 ++ tl.
Proof using Create_ok.
  intros Hg Hz Hlt. pose proof (blen_nonneg fr). pose proof (blen_nonneg tl).
  destruct (Initialize_areas g z) as (W0 & _ & A0 & E0); [done|done|lia|].
  destruct (AddAtStart_front (blen fr) _ 0 z 0 W0) as (d1 & b1 & x1 & H1 & W1 & A1 & F1 & T1 & L1 & E1); [done|lia|done|].
  destruct (areas_length _ 0 z 0 W0 A0) as (Lf0 & Lt0 & _).
  destruct (Write_front b1 fr x1 (front (Initialize Create g z)) (blen fr + 0) z 0 W1 A1 F1) as (b2 & H2 & W2 & A2 & E2 & F2 & T2);
    [unfold blen in *; lia|].
  destruct (AddAtEnd_tail (blen tl) b2 (blen fr + 0) z 0 W2) as (d3 & b3 & x3 & H3 & W3 & A3 & F3 & T3 & L3 & E3); [done|lia|exact A2|].
  destruct (Write_tail b3 tl (tail_ b2) x3 (blen fr + 0) z (0 + blen tl) W3 A3 T3) as (b4 & H4 & W4 & A4 & E4 & F4 & T4); [unfold blen in *; lia|].
  exists b1, b2, b3, b4, d1, d3. split_and!; try done.
  rewrite contents_areas, F4, T4, F3, F2, T2, T1. injection A4 as _ -> _.
  assert (front (Initialize Create g z) = []) as -> by (apply nil_length_inv; unfold blen in Lf0; lia).
  assert (tail_ (Initialize Create g z) = []) as -> by (apply nil_length_inv; unfold blen in Lt0; lia). by rewrite app_nil_r.
Qed.

Lemma Deserialize_image g b pad1 pad2 rest f z t : wf b -> areas b = (f, z, t) -> 0 <= g -> g + f + z + t < array_max ->
  f + 3 < 2 ^ 32 -> t + 3 < 2 ^ 32 -> 16 + round4 f + round4 t < 2 ^ 32 ->
  blen pad1 = round4 f - f -> blen pad2 = round4 t - t ->
  exists b', Buffer_Deserialize Create g (image b pad1 pad2 ++ rest) (12 + round4 f + round4 t + 4) = Ok (1, b') /\
    wf b' /\ contents b' = contents b.
Proof using Create_ok.
  intros Hwf Ha Hg Hlt Hf3 Ht3 Hsz P1 P2. destruct (areas_length b f z t Hwf Ha) as (Lf & Lt & Lz).
  pose proof Ha as [= Ef Ez Et]. pose proof (blen_nonneg (front b)). pose proof (blen_nonneg (tail_ b)).
  destruct (round4_spec f) as [R1 R2]; [lia|done|]. destruct (round4_spec t) as [R3 R4]; [lia|done|].
  destruct (rebuild g (front b) z (tail_ b)) as (b1 & b2 & b3 & b4 & d1 & d2 & H1 & H2 & H3 & H4 & W4 & C4); [lia..|].
  rewrite Lf, Lt in *. exists b4. split; [|split; [done|]].
  2: { by rewrite C4, contents_areas, Ez. }
  unfold image. rewrite Ef, Ez, Et. set (l1 := [] ++ le_bytes 4 z). set (l2 := l1 ++ le_bytes 4 f).
  set (l3 := l2 ++ front b ++ pad1). set (l4 := l3 ++ le_bytes 4 t). set (buffer := (l4 ++ tail_ b ++ pad2) ++ rest).
  assert (buffer = l4 ++ tail_ b ++ pad2 ++ rest) as B5 by (unfold buffer; by rewrite <- !app_assoc).
  assert (buffer = l3 ++ le_bytes 4 t ++ tail_ b ++ pad2 ++ rest) as B4 by (rewrite B5; unfold l4; by rewrite <- !app_assoc).
  assert (exists r, buffer = l2 ++ front b ++ pad1 ++ r) as [r3 B3] by (rewrite B4; unfold l3; rewrite <- !app_assoc; by eexists).
  assert (exists r, buffer = l1 ++ le_bytes 4 f ++ r) as [r2 B2] by (rewrite B3; unfold l2; rewrite <- !app_assoc; by eexists).
  assert (exists r, buffer = [] ++ le_bytes 4 z ++ r) as [r1 B1] by (rewrite B2; unfold l1; rewrite <- !app_assoc; by eexists).
  clearbody buffer. set (N := 12 + round4 f + round4 t + 4 - 4).
  unfold Buffer_Deserialize. rewrite u32_small by (unfold is_u32; lia). fold N.
  assert (N = 12 + round4 f + round4 t) as HN by (unfold N; lia). clearbody N.
  assert (take_word buffer 0 N = Ok (z, blen l1, N - 4)) as -> by (rewrite B1; apply (take_word_app []); unfold is_u32; lia).
  cbn [mbind result_bind].
  assert (take_word buffer (blen l1) (N - 4) = Ok (f, blen l2, N - 4 - 4)) as ->
    by (rewrite B2; apply take_word_app; unfold is_u32; lia).
  cbn [mbind result_bind]. rewrite H1. cbn [mbind result_bind].
  assert (take_bytes buffer f (blen l2) (N - 4 - 4) = Ok (front b, blen l3, N - 4 - 4 - round4 f)) as ->
    by (rewrite B3, <- Lf; apply take_bytes_app; rewrite Lf; lia).
  cbn [mbind result_bind]. rewrite H2. cbn [mbind result_bind].
  assert (take_word buffer (blen l3) (N - 4 - 4 - round4 f) = Ok (t, blen l4, N - 4 - 4 - round4 f - 4)) as ->
    by (rewrite B4; apply take_word_app; unfold is_u32; lia).
  cbn [mbind result_bind]. rewrite H3. cbn [mbind result_bind].
  assert (take_bytes buffer t (blen l4) (N - 4 - 4 - round4 f - 4) =
    Ok (tail_ b, blen (l4 ++ tail_ b ++ pad2), N - 4 - 4 - round4 f - 4 - round4 t)) as ->
    by (rewrite B5, <- Lt; apply take_bytes_app; rewrite Lt; lia).
  cbn [mbind result_bind]. rewrite H4. cbn [mbind result_bind].
  replace (N - 4 - 4 - round4 f - 4 - round4 t =? 0) with true by lia. done.
Qed.

(** (C30) The image of a buffer.  Into an array with room for it, [Serialize]
    writes an image of any well-formed buffer (below the 32-bit limits) and
    says so, and [Deserialize] of that image, given its size as
    Packet::Deserialize gives it, fails no assertion and makes a buffer with
    the same bytes: those in front, the virtual zeros, and those behind. *)
Theorem buffer_image_roundtrip g b buffer
  (Hb : wf b) (Hg : 0 <= g) (Hlt : g + blen (contents b) + 24 < 2 ^ 32)
  (Hroom : Buffer_GetSerializedSize b <= blen buffer) :
  exists out b', Buffer_Serialize (Buffer_GetSerializedSize b) b buffer = Ok (1, out) /\
    Buffer_Deserialize Create g out (Buffer_GetSerializedSize b + 4) = Ok (1, b') /\ wf b' /\
    contents b' = contents b.
Proof using Create_ok.
  destruct (areas_length b _ _ _ Hb eq_refl) as (Lf & Lt & Lz). rewrite blen_contents in Hlt by done.
  pose proof Hb as Hb'. unfold wf in Hb'. unfold Buffer_GetSerializedSize in *.
  rewrite !(u32_small (m_zeroAreaStart b - _)), !(u32_small (m_end b - _)) in * by (unfold is_u32; lia).
  set (f := m_zeroAreaStart b - m_start b) in *. set (z := m_zeroAreaEnd b - m_zeroAreaStart b) in *.
  set (t := m_end b - m_zeroAreaEnd b) in *.
  destruct (round4_spec f) as [R1 R2]; [lia|lia|]. destruct (round4_spec t) as [R3 R4]; [lia|lia|].
  replace (4 + 4 + round4 f + 4 + round4 t) with (12 + round4 f + round4 t) in * by lia.
  rewrite u32_small in * by (unfold is_u32; lia).
  destruct (Serialize_image b buffer f z t) as (pad1 & pad2 & rest & H1 & P1 & P2); [done|done|lia..|].
  destruct (Deserialize_image g b pad1 pad2 rest f z t) as (b' & H2 & W2 & C2); [done|done|lia..|].
  exists (image b pad1 pad2 ++ rest), b'. done.
Qed.
End areas.

(** ** Examples *)

(** Three zeros with two bytes behind them. *)
Definition zeros_then_two : Buffer := {|
  buf := {| m_count := 1; m_size := 2; m_dirtyStart := 0; m_dirtyEnd := 5; m_data := [7; 8] |};
  m_maxZeroAreaStart := 0; m_zeroAreaStart := 0; m_zeroAreaEnd := 3; m_start := 0; m_end := 5 |}.

(** One byte, three zeros, two bytes. *)
Definition mixed : Buffer := {|
  buf := {| m_count := 1; m_size := 3; m_dirtyStart := 0; m_dirtyEnd := 6; m_data := [6; 7; 8] |};
  m_maxZeroAreaStart := 1; m_zeroAreaStart := 1; m_zeroAreaEnd := 4; m_start := 0; m_end := 6 |}.

Lemma mixed_wf : wf mixed.
Proof. unfold wf; vm_compute; repeat split; discriminate. Qed.

Lemma copy_data_witness : CopyData 5 mixed = Ok ([6; 0; 0; 0; 7], 4) /\ CopyData 1 mixed = Ok ([6], 0).
Proof.
  split.
  - apply (copy_data 5 mixed mixed_wf). split; [discriminate|reflexivity].
  - apply (copy_data 1 mixed mixed_wf). split; [discriminate|reflexivity].
Defined.

(** Two bytes in an array of eight, with a second owner. *)
Definition shared : Buffer := {|
  buf := {| m_count := 2; m_size := 8; m_dirtyStart := 0; m_dirtyEnd := 2; m_data := [6; 7; 0; 0; 0; 0; 0; 0] |};
  m_maxZeroAreaStart := 1; m_zeroAreaStart := 1; m_zeroAreaEnd := 1; m_start := 0; m_end := 2 |}.

Lemma shared_wf : wf shared.
Proof. unfold wf; vm_compute; repeat split; discriminate. Qed.

Lemma buffer_concat_witness :
  (exists b', AddAtEnd_buffer zero_array 0 false mixed mixed = Ok b' /\ contents b' = [6; 0; 0; 0; 7; 8; 6; 0; 0; 0; 7; 8]) /\
  (exists b', AddAtEnd_buffer zero_array 0 true mixed mixed = Ok b' /\ contents b' = [6; 0; 0; 0; 7; 8; 6; 0; 0; 0; 7; 8]) /\
  AddAtEnd_buffer zero_array 0 true shared shared = Fault AssertFailed.
Proof.
  assert (forall same, exists b', AddAtEnd_buffer zero_array 0 same mixed mixed = Ok b' /\ contents b' = [6; 0; 0; 0; 7; 8; 6; 0; 0; 0; 7; 8]) as Hm.
  { intros same. pose proof (buffer_concat zero_array zero_array_ok same 0 mixed mixed mixed_wf mixed_wf) as H.
    replace (same && in_place mixed mixed) with false in H by (destruct same; reflexivity).
    destruct H as (b' & H & _ & Hc); [discriminate|reflexivity|reflexivity|right; right; left; discriminate|done|].
    exists b'. split; [exact H|]. rewrite Hc. reflexivity. }
  split; [apply Hm|]. split; [apply Hm|].
  apply (buffer_concat zero_array zero_array_ok true 0 shared shared shared_wf shared_wf);
    [discriminate|reflexivity|reflexivity|right; left; reflexivity|done].
Defined.

Lemma buffer_image_roundtrip_witness : exists out b',
  Buffer_Serialize 20 mixed (replicate 24 255) = Ok (1, out) /\
  Buffer_Deserialize zero_array 0 out 24 = Ok (1, b') /\ contents b' = [6; 0; 0; 0; 7; 8].
Proof.
  destruct (buffer_image_roundtrip zero_array zero_array_ok 0 mixed (replicate 24 255)) as (out & b' & H1 & H2 & _ & H3).
  - exact mixed_wf.
  - discriminate.
  - reflexivity.
  - vm_compute. discriminate.
  - exists out, b'. split; [exact H1|]. split; [exact H2|]. rewrite H3. reflexivity.
Defined.

(** The short cut of [AddAtEnd] with bytes behind the zeros: [Iterator::Write
    (start, end)] takes the position in the packet for the index of the array,
    which is shorter by the zeros, and writes past its end. *)
Lemma append_behind_zeros : AddAtEnd_buffer zero_array 0 false zeros_then_two (empty_packet 4) = Fault OutOfRange.
Proof. reflexivity. Qed.
