(* ===== verification/BufferPool.v ===== *)
(** * BufferPool: where the arrays of buffers come from

    src/ns-3/src/common/buffer.cc: [Create], [Recycle], [Allocate] and
    [Deallocate], in both versions of the file: as buffer.h configures it
    ([noBUFFER_FREE_LIST]: every array is allocated and released,
    [Create_each], [Recycle_each]) and with BUFFER_FREE_LIST defined (released
    arrays are kept in a list, [Create_from], [Recycle]).  The other files
    take [Create] as an argument with the interface [Allocator]; here are its
    implementation and the proof that it has the interface. *)

From Stdlib Require Import Sorting.Sorted.
From S2P Require Import Prelude BufferIter Buffer.

(** [g_freeList] and its three states; the list is kept with its back first. *)
Inductive FreeList := UNINITIALIZED | INITIALIZED (l : list BufferData) | DESTROYED.

Record Pool := mkPool { g_maxSize : Z; g_freeList : FreeList }.

(** [sizeof (struct Buffer::Data)]: four words, and one byte of [m_data], which
    is padded to a word. *)
Definition sizeof_Data : Z := 20.

Definition set_count (n : Z) (d : BufferData) : BufferData := {|
  m_count := n; m_size := m_size d; m_dirtyStart := m_dirtyStart d; m_dirtyEnd := m_dirtyEnd d; m_data := m_data d |}.

Section pool.
(** [new uint8_t[]]: [n] unspecified bytes. *)
Context (fresh : Z -> mem) (fresh_dirty : Z * Z).

Definition Allocate (reqSize : Z) : result BufferData :=
  let reqSize := if reqSize =? 0 then 1 else reqSize in
  _ ← assert (1 <=? reqSize);
  let size := u32 (reqSize - 1 + sizeof_Data) in
  Ok {| m_count := 1; m_size := reqSize; m_dirtyStart := fresh_dirty.1; m_dirtyEnd := fresh_dirty.2;
        m_data := fresh (size - (sizeof_Data - 1)) |}.

Definition Deallocate (data : BufferData) : result unit := assert (m_count data =? 0).

(** Without BUFFER_FREE_LIST. *)
Definition Recycle_each (data : BufferData) : result unit :=
  _ ← assert (m_count data =? 0); Deallocate data.

Definition Create_each (size : Z) : result BufferData := Allocate size.

(** With BUFFER_FREE_LIST. *)
Definition Recycle (data : BufferData) (p : Pool) : result Pool :=
  _ ← assert (m_count data =? 0);
  _ ← assert (match g_freeList p with UNINITIALIZED => false | _ => true end);
  let maxSize := Z.max (g_maxSize p) (m_size data) in
  match g_freeList p with
  | INITIALIZED l =>
      if (m_size data <? maxSize) || (1000 <? Z.of_nat (length l)) then
        _ ← Deallocate data; Ok (mkPool maxSize (g_freeList p))
      else Ok (mkPool maxSize (INITIALIZED (data :: l)))
  | _ => _ ← Deallocate data; Ok (mkPool maxSize (g_freeList p))
  end.

(** [while (!g_freeList->empty ())]: the array found, and what is left. *)
Fixpoint take_back (dataSize : Z) (l : list BufferData) : result (option BufferData * list BufferData) :=
  match l with
  | [] => Ok (None, [])
  | data :: l' =>
      if dataSize <=? m_size data then Ok (Some (set_count 1 data), l')
      else _ ← Deallocate data; take_back dataSize l'
  end.

Definition Create_from (dataSize : Z) (p : Pool) : result (BufferData * Pool) :=
  match g_freeList p with
  | UNINITIALIZED =>
      data ← Allocate dataSize; _ ← assert (m_count data =? 1); Ok (data, mkPool (g_maxSize p) (INITIALIZED []))
  | INITIALIZED l =>
      '(found, l) ← take_back dataSize l;
      match found with
      | Some data => Ok (data, mkPool (g_maxSize p) (INITIALIZED l))
      | None => data ← Allocate dataSize; _ ← assert (m_count data =? 1); Ok (data, mkPool (g_maxSize p) (INITIALIZED l))
      end
  | DESTROYED => data ← Allocate dataSize; _ ← assert (m_count data =? 1); Ok (data, p)
  end.

(** ~LocalStaticDestructor *)
Definition DestroyPool (p : Pool) : result Pool :=
  match g_freeList p with
  | INITIALIZED l => _ ← foldM (fun _ data => Deallocate data) tt (rev l); Ok (mkPool (g_maxSize p) DESTROYED)
  | _ => Ok p
  end.

(** ** The invariant *)

(** An array that nobody owns. *)
Definition free_array (d : BufferData) : Prop :=
  m_count d = 0 /\ 1 <= m_size d < 2 ^ 32 /\ blen (m_data d) = m_size d.

(** The arrays in the list get no smaller towards its back, none is larger than
    [g_maxSize], and there are at most 1001. *)
Record pool_inv (p : Pool) : Prop := {
  pi_max : 0 <= g_maxSize p;
  pi_list l : g_freeList p = INITIALIZED l ->
    Forall free_array l /\ Sorted (fun a b => m_size b <= m_size a) l /\
    Forall (fun d => m_size d <= g_maxSize p) l /\ (length l <= 1001)%nat
}.

Definition new_pool : Pool := mkPool 0 UNINITIALIZED.

Lemma new_pool_inv : pool_inv new_pool.
Proof. by split. Qed.

Hypothesis fresh_length : forall n, 0 <= n -> blen (fresh n) = n.

(** What [Create] is asked for. *)
Definition array_for (n : Z) (d : BufferData) : Prop :=
  m_count d = 1 /\ n <= m_size d < 2 ^ 32 /\ 1 <= m_size d /\ blen (m_data d) = m_size d.

Lemma Allocate_ok n : 0 <= n -> n + sizeof_Data <= 2 ^ 32 -> exists d, Allocate n = Ok d /\ array_for n d.
Proof using fresh_length.
  unfold sizeof_Data. intros Hn Hlt. unfold Allocate, sizeof_Data. set (m := if n =? 0 then 1 else n).
  assert (1 <= m /\ n <= m /\ m + 19 < 2 ^ 32) as (H1 & H2 & H3) by (unfold m; destruct (Z.eqb_spec n 0); lia).
  replace (1 <=? m) with true by lia. cbn [assert mbind result_bind]. eexists. split; [done|].
  unfold array_for. cbn. rewrite u32_small by (unfold is_u32; lia). rewrite fresh_length by lia. lia.
Qed.

(** The [Create] of the code as the other files use it. *)
Definition Create_or (d : BufferData) (n : Z) : BufferData :=
  match Create_each n with Ok data => data | Fault _ => d end.

#[local] Instance Create_allocator d : Allocator (Create_or d).
Proof using fresh_length.
  intros n Hn. destruct (Allocate_ok n) as (a & Ha & H1 & H2 & _ & H3); [lia|unfold sizeof_Data; lia|].
  unfold Create_or, Create_each. rewrite Ha. split_and!; [lia|lia|done|done].
Qed.

Lemma take_back_ok n l : Forall free_array l -> Sorted (fun a b => m_size b <= m_size a) l ->
  match l with
  | d :: l' => if n <=? m_size d then take_back n l = Ok (Some (set_count 1 d), l') else take_back n l = Ok (None, [])
  | [] => take_back n l = Ok (None, [])
  end.
Proof.
  intros Hf Hs. destruct l as [|d l]; [done|]. cbn [take_back]. destruct (Z.leb_spec n (m_size d)) as [|Hlt]; [done|].
  revert d Hlt Hf Hs. induction l as [|d' l IH]; intros d Hlt Hf Hs; inversion Hf as [|? ? (Hc & _) Hf']; subst;
    unfold Deallocate; rewrite Hc; cbn [Z.eqb assert mbind result_bind take_back]; [done|].
  inversion Hs as [|? ? Hs' Hh]; subst. inversion Hh; subst.
  replace (n <=? m_size d') with false by lia. by apply (IH d'); [lia|..].
Qed.

Lemma nil_list_inv M : Forall free_array [] /\ Sorted (fun a b => m_size b <= m_size a) [] /\
  Forall (fun d => m_size d <= M) [] /\ (length (@nil BufferData) <= 1001)%nat.
Proof. split_and!; [apply Forall_nil_2|apply Sorted_nil|apply Forall_nil_2|cbn; lia]. Qed.

(** (C31) The free list serves every request.  From any state [Create] and
    [Recycle] can leave it in, a request for [n] bytes (short of the 4
    gigabytes at which the size of the allocation wraps around) is answered
    with an array of at least [n] bytes that nobody else owns; [Create] fails
    no assertion, and keeps the list ordered by size, so that the back of the
    list alone tells whether the list can help. *)
Theorem create_serves n p (Hp : pool_inv p) (Hn : 0 <= n) (Hlt : n + sizeof_Data <= 2 ^ 32) :
  exists d p', Create_from n p = Ok (d, p') /\ array_for n d /\ pool_inv p' /\
    (forall back l, g_freeList p = INITIALIZED (back :: l) ->
       if decide (n <= m_size back) then d = set_count 1 back /\ g_freeList p' = INITIALIZED l
       else g_freeList p' = INITIALIZED []).
Proof using fresh_length.
  destruct (Allocate_ok n Hn Hlt) as (d & Ha & Hd). destruct Hp as [Hm Hl].
  assert (m_count d = 1) as Hc by apply Hd. unfold Create_from. destruct (g_freeList p) as [|l|] eqn:E.
  - rewrite Ha. cbn [mbind result_bind]. rewrite Hc. cbn. exists d, (mkPool (g_maxSize p) (INITIALIZED [])).
    split_and!; [done|done| |done]. split; [done|]. cbn. intros l [= <-]. apply nil_list_inv.
  - destruct (Hl l eq_refl) as (Hf & Hs & Hx & Hlen). pose proof (take_back_ok n l Hf Hs) as Ht.
    assert (pool_inv (mkPool (g_maxSize p) (INITIALIZED []))) as Hnil.
    { split; [done|]. cbn. intros l0 [= <-]. apply nil_list_inv. }
    destruct l as [|b l].
    + rewrite Ht. cbn [mbind result_bind]. rewrite Ha. cbn [mbind result_bind]. rewrite Hc. cbn. by eexists _, _.
    + inversion Hf as [|? ? (Hb1 & Hb2 & Hb3) Hf']; subst. inversion Hs; subst. inversion Hx; subst.
      destruct (Z.leb_spec n (m_size b)) as [Hle|Hgt]; rewrite Ht; cbn [mbind result_bind].
      * eexists _, _. split; [done|]. split; [by unfold array_for; cbn; lia|]. split.
        { split; [done|]. cbn. intros l0 [= <-]. cbn in Hlen. split_and!; try done. lia. }
        intros b0 l0 [= <- <-]. by rewrite decide_True.
      * rewrite Ha. cbn [mbind result_bind]. rewrite Hc. cbn. eexists _, _. split; [done|]. split; [done|]. split; [done|].
        intros b0 l0 [= <- <-]. rewrite decide_False by lia. done.
  - rewrite Ha. cbn [mbind result_bind]. rewrite Hc. cbn. exists d, p. split_and!; [done|done| |done].
    split; [done|]. rewrite E. done.
Qed.

(** [Recycle] of an array [Create] has made. *)
Lemma Recycle_inv d p : pool_inv p -> free_array d -> g_freeList p <> UNINITIALIZED ->
  exists p', Recycle d p = Ok p' /\ pool_inv p'.
Proof.
  intros [Hm Hl] (Hc & Hs & Hb) Hne. unfold Recycle, Deallocate. rewrite Hc. cbn [Z.eqb assert mbind result_bind].
  destruct (g_freeList p) as [|l|] eqn:E; [done| |]; cbn [assert mbind result_bind].
  2: { eexists. split; [done|]. split; cbn; [lia|done]. }
  destruct (Hl l eq_refl) as (Hf & Hso & Hx & Hlen).
  destruct ((m_size d <? Z.max (g_maxSize p) (m_size d)) || (1000 <? Z.of_nat (length l))) eqn:Hd; eexists; (split; [done|]);
    (split; cbn; [lia|]); intros l0 [= <-].
  - split_and!; [done|done| |done]. eapply Forall_impl; [exact Hx|]. cbn. lia.
  - split_and!; [by constructor| | |cbn; lia].
    + constructor; [done|]. destruct Hx; constructor. lia.
    + constructor; [lia|]. eapply Forall_impl; [exact Hx|]. cbn. lia.
Qed.
End pool.

Lemma create_serves_witness :
  let p := mkPool 40 (INITIALIZED [ {| m_count := 0; m_size := 40; m_dirtyStart := 3; m_dirtyEnd := 9; m_data := replicate 40 1 |} ]) in
  exists d p', Create_from (fun n => replicate (Z.to_nat n) 0) (0, 0) 30 p = Ok (d, p') /\ m_size d = 40 /\
    g_freeList p' = INITIALIZED [].
Proof.
  cbn zeta. match goal with |- context [Create_from _ _ _ ?q] => set (p := q) end.
  destruct (create_serves (fun n => replicate (Z.to_nat n) 0) (0, 0)) with (n := 30) (p := p)
    as (d & p' & H & _ & _ & Hb).
  - intros n Hn. unfold blen. rewrite length_replicate. apply Z2Nat.id. exact Hn.
  - split; [discriminate|]. intros l [= <-]. split; [|split; [|split]].
    + constructor; [|constructor]. split; [reflexivity|]. split; [split; [discriminate|reflexivity]|reflexivity].
    + constructor; constructor.
    + constructor; [discriminate|constructor].
    + cbn. lia.
  - discriminate.
  - discriminate.
  - exists d, p'. split; [exact H|]. destruct (Hb _ _ eq_refl) as [-> H2]. split; [reflexivity|exact H2].
Defined.
