(* ===== verification/DVMessage.v ===== *)
(** * DVMessage: the header of the distance-vector protocol

    src/ns-3/cs433/dv-routing-protocol/dv-message.h and dv-message.cc.  The
    message type is the number read from the wire, so that a byte outside the
    enumeration is a value of the model; its four legal values are the
    constants below.  A [Buffer::Iterator &] parameter is the threaded cursor
    of [ItM].  [Print] sends [m_ttl] to the stream as a character. *)

From S2P Require Import Prelude StdMap StdString Ipv4Address BufferIter Buffer Codec.

(** ** Data *)

Definition IPV4_ADDRESS_SIZE : Z := 4.

(** [enum MessageType] *)
Definition PING_REQ : Z := 1.
Definition PING_RSP : Z := 2.
Definition HELLO_REQ : Z := 3.
Definition DV_TABLE_MSG : Z := 4.

Record PingReq := mkPingReq {
  PingReq_destinationAddress : Ipv4Address;
  PingReq_pingMessage : string
}.

Record PingRsp := mkPingRsp {
  PingRsp_destinationAddress : Ipv4Address;
  PingRsp_pingMessage : string
}.

(** [timeout] (a [Time], in its integer time step) is never read or sent. *)
Record HelloReq := mkHelloReq {
  HelloReq_destinationAddress : Ipv4Address;
  HelloReq_helloMessage : string;
  HelloReq_timeout : Z
}.

Notation nbrCostsVec := (list (Ipv4Address * Z)) (only parsing).

Record DVTableMsg := mkDVTableMsg { neighborCosts : nbrCostsVec }.

(** The payloads are members of a struct, not of a union. *)
Record Payload := mkPayload {
  pingReq : PingReq;
  pingRsp : PingRsp;
  helloReq : HelloReq;
  dvTableMsg : DVTableMsg
}.

Record DVMessage := mkDVMessage {
  m_messageType : Z;
  m_sequenceNumber : Z;
  m_originatorAddress : Ipv4Address;
  m_ttl : Z;
  m_message : Payload
}.

(** The default-constructed payloads. *)
Definition no_payload : Payload := {|
  pingReq := mkPingReq Ipv4Address_default "";
  pingRsp := mkPingRsp Ipv4Address_default "";
  helloReq := mkHelloReq Ipv4Address_default "" 0;
  dvTableMsg := mkDVTableMsg [] |}.

Definition MakeDVMessage (messageType sequenceNumber ttl : Z) (originatorAddress : Ipv4Address) : DVMessage :=
  mkDVMessage messageType sequenceNumber originatorAddress ttl no_payload.

(** ** Payloads *)

Definition PingReq_GetSerializedSize (p : PingReq) : Z :=
  u32 (IPV4_ADDRESS_SIZE + 2 + str_length (PingReq_pingMessage p)).

Definition PingReq_Print (p : PingReq) : string :=
  "PingReq:: Message: " +:+ PingReq_pingMessage p +:+ newline.

Definition PingReq_Serialize (p : PingReq) : ItM unit :=
  _ ← WriteHtonU32 (PingReq_destinationAddress p);
  _ ← WriteU16 (u16 (str_length (PingReq_pingMessage p)));
  Write (string_bytes (PingReq_pingMessage p)).

Definition PingReq_Deserialize : ItM (PingReq * Z) :=
  destinationAddress ← ReadNtohU32;
  length ← ReadU16;
  str ← Read (Z.to_nat length);
  mret (let p := mkPingReq destinationAddress (bytes_string str) in (p, PingReq_GetSerializedSize p)).

Definition PingRsp_GetSerializedSize (p : PingRsp) : Z :=
  u32 (IPV4_ADDRESS_SIZE + 2 + str_length (PingRsp_pingMessage p)).

Definition PingRsp_Print (p : PingRsp) : string :=
  "PingReq:: Message: " +:+ PingRsp_pingMessage p +:+ newline.

Definition PingRsp_Serialize (p : PingRsp) : ItM unit :=
  _ ← WriteHtonU32 (PingRsp_destinationAddress p);
  _ ← WriteU16 (u16 (str_length (PingRsp_pingMessage p)));
  Write (string_bytes (PingRsp_pingMessage p)).

Definition PingRsp_Deserialize : ItM (PingRsp * Z) :=
  destinationAddress ← ReadNtohU32;
  length ← ReadU16;
  str ← Read (Z.to_nat length);
  mret (let p := mkPingRsp destinationAddress (bytes_string str) in (p, PingRsp_GetSerializedSize p)).

Definition HelloReq_GetSerializedSize (p : HelloReq) : Z :=
  u32 (IPV4_ADDRESS_SIZE + 2 + str_length (HelloReq_helloMessage p)).

Definition HelloReq_Print (p : HelloReq) : string :=
  "HelloReq:: Message: " +:+ HelloReq_helloMessage p +:+ newline.

Definition HelloReq_Serialize (p : HelloReq) : ItM unit :=
  _ ← WriteHtonU32 (HelloReq_destinationAddress p);
  _ ← WriteU16 (u16 (str_length (HelloReq_helloMessage p)));
  Write (string_bytes (HelloReq_helloMessage p)).

Definition HelloReq_Deserialize (old : HelloReq) : ItM (HelloReq * Z) :=
  destinationAddress ← ReadNtohU32;
  length ← ReadU16;
  str ← Read (Z.to_nat length);
  mret (let p := mkHelloReq destinationAddress (bytes_string str) (HelloReq_timeout old) in
        (p, HelloReq_GetSerializedSize p)).

Definition DVTableMsg_GetSerializedSize (p : DVTableMsg) : Z :=
  u32 (2 + (IPV4_ADDRESS_SIZE + 4) * Z.of_nat (length (neighborCosts p))).

Definition DVTableMsg_Print (p : DVTableMsg) : string :=
  "DVTableMsg:: Neighbors: " +:+
  fold_right (fun nc acc => Addr_Print nc.1 +:+ ":" +:+ show_uint nc.2 +:+ ", " +:+ acc)
    (backspace +:+ backspace +:+ newline) (neighborCosts p).

Definition DVTableMsg_Serialize (p : DVTableMsg) : ItM unit :=
  _ ← WriteU16 (u16 (Z.of_nat (length (neighborCosts p))));
  for_each (fun nc : Ipv4Address * Z =>
      _ ← WriteHtonU32 nc.1;
      WriteHtonU32 nc.2)
    (neighborCosts p).

(** [push_back] appends to what the object already holds. *)
Definition DVTableMsg_Deserialize (old : DVTableMsg) : ItM (DVTableMsg * Z) :=
  nOfNeighbors ← ReadU16;
  costs ← push_times (Z.to_nat nOfNeighbors)
    (addr ← ReadNtohU32; cost ← ReadNtohU32; mret (addr, cost)) (neighborCosts old);
  mret (let p := mkDVTableMsg costs in (p, DVTableMsg_GetSerializedSize p)).

(** ** The header *)

Definition DVMessage_GetSerializedSize (m : DVMessage) : result Z :=
  let size := 1 + 4 + IPV4_ADDRESS_SIZE + 1 in
  let t := m_messageType m in
  if t =? PING_REQ then Ok (u32 (size + PingReq_GetSerializedSize (pingReq (m_message m))))
  else if t =? PING_RSP then Ok (u32 (size + PingRsp_GetSerializedSize (pingRsp (m_message m))))
  else if t =? HELLO_REQ then Ok (u32 (size + HelloReq_GetSerializedSize (helloReq (m_message m))))
  else if t =? DV_TABLE_MSG then Ok (u32 (size + DVTableMsg_GetSerializedSize (dvTableMsg (m_message m))))
  else Fault AssertFailed.

Definition DVMessage_Print (m : DVMessage) : string :=
  newline +:+ "****DVMessage Dump****" +:+ newline +:+
  "messageType: " +:+ show_uint (m_messageType m) +:+ newline +:+
  "sequenceNumber: " +:+ show_uint (m_sequenceNumber m) +:+ newline +:+
  "ttl: " +:+ String (char_of (m_ttl m)) "" +:+ newline +:+
  "originatorAddress: " +:+ Addr_Print (m_originatorAddress m) +:+ newline +:+
  "PAYLOAD:: " +:+ newline +:+
  (let t := m_messageType m in
   if t =? PING_REQ then PingReq_Print (pingReq (m_message m))
   else if t =? PING_RSP then PingRsp_Print (pingRsp (m_message m))
   else if t =? HELLO_REQ then HelloReq_Print (helloReq (m_message m))
   else if t =? DV_TABLE_MSG then DVTableMsg_Print (dvTableMsg (m_message m))
   else "") +:+
  newline +:+ "****END OF MESSAGE****" +:+ newline.

Definition DVMessage_Serialize (m : DVMessage) : ItM unit :=
  _ ← WriteU8 (u8 (m_messageType m));
  _ ← WriteHtonU32 (m_sequenceNumber m);
  _ ← WriteU8 (m_ttl m);
  _ ← WriteHtonU32 (m_originatorAddress m);
  let t := m_messageType m in
  if t =? PING_REQ then PingReq_Serialize (pingReq (m_message m))
  else if t =? PING_RSP then PingRsp_Serialize (pingRsp (m_message m))
  else if t =? HELLO_REQ then HelloReq_Serialize (helloReq (m_message m))
  else if t =? DV_TABLE_MSG then DVTableMsg_Serialize (dvTableMsg (m_message m))
  else it_assert (fun _ => false).

(** The returned size: the payload of a table message is not added. *)
Definition DVMessage_Deserialize (old : DVMessage) : ItM (DVMessage * Z) :=
  t ← ReadU8;
  seq ← ReadNtohU32;
  ttl ← ReadU8;
  orig ← ReadNtohU32;
  let size := 1 + 4 + 1 + IPV4_ADDRESS_SIZE in
  let pl := m_message old in
  let msg := mkDVMessage t seq orig ttl in
  if t =? PING_REQ then
    r ← PingReq_Deserialize;
    mret (msg (mkPayload r.1 (pingRsp pl) (helloReq pl) (dvTableMsg pl)), u32 (size + r.2))
  else if t =? PING_RSP then
    r ← PingRsp_Deserialize;
    mret (msg (mkPayload (pingReq pl) r.1 (helloReq pl) (dvTableMsg pl)), u32 (size + r.2))
  else if t =? HELLO_REQ then
    r ← HelloReq_Deserialize (helloReq pl);
    mret (msg (mkPayload (pingReq pl) (pingRsp pl) r.1 (dvTableMsg pl)), u32 (size + r.2))
  else if t =? DV_TABLE_MSG then
    r ← DVTableMsg_Deserialize (dvTableMsg pl);
    mret (msg (mkPayload (pingReq pl) (pingRsp pl) (helloReq pl) r.1), size)
  else _ ← it_assert (fun _ => false); mret (msg pl, size).

(** ** Setters and getters *)

(** [if (m_messageType == 0) m_messageType = t; else NS_ASSERT (m_messageType == t);] *)
Definition claim_type (t : Z) (m : DVMessage) : result DVMessage :=
  if m_messageType m =? 0 then
    Ok (mkDVMessage t (m_sequenceNumber m) (m_originatorAddress m) (m_ttl m) (m_message m))
  else _ ← assert (m_messageType m =? t); Ok m.

Definition with_payload (m : DVMessage) (p : Payload) : DVMessage :=
  mkDVMessage (m_messageType m) (m_sequenceNumber m) (m_originatorAddress m) (m_ttl m) p.

Definition SetPingReq (destinationAddress : Ipv4Address) (pingMessage : string) (m : DVMessage) : result DVMessage :=
  m ← claim_type PING_REQ m;
  let p := m_message m in
  Ok (with_payload m (mkPayload (mkPingReq destinationAddress pingMessage) (pingRsp p) (helloReq p) (dvTableMsg p))).
Definition GetPingReq (m : DVMessage) : PingReq := pingReq (m_message m).

Definition SetPingRsp (destinationAddress : Ipv4Address) (pingMessage : string) (m : DVMessage) : result DVMessage :=
  m ← claim_type PING_RSP m;
  let p := m_message m in
  Ok (with_payload m (mkPayload (pingReq p) (mkPingRsp destinationAddress pingMessage) (helloReq p) (dvTableMsg p))).
Definition GetPingRsp (m : DVMessage) : PingRsp := pingRsp (m_message m).

Definition SetHelloReq (destinationAddress : Ipv4Address) (helloMessage : string) (m : DVMessage) : result DVMessage :=
  m ← claim_type HELLO_REQ m;
  let p := m_message m in
  Ok (with_payload m (mkPayload (pingReq p) (pingRsp p)
    (mkHelloReq destinationAddress helloMessage (HelloReq_timeout (helloReq p))) (dvTableMsg p))).
Definition GetHelloReq (m : DVMessage) : HelloReq := helloReq (m_message m).

Definition SetDVTableMsg (costs : nbrCostsVec) (m : DVMessage) : result DVMessage :=
  m ← claim_type DV_TABLE_MSG m;
  let p := m_message m in
  Ok (with_payload m (mkPayload (pingReq p) (pingRsp p) (helloReq p) (mkDVTableMsg costs))).
Definition GetDVTableMsg (m : DVMessage) : DVTableMsg := dvTableMsg (m_message m).

Definition SetMessageType (t : Z) (m : DVMessage) : DVMessage :=
  mkDVMessage t (m_sequenceNumber m) (m_originatorAddress m) (m_ttl m) (m_message m).
Definition GetMessageType (m : DVMessage) : Z := m_messageType m.
Definition SetSequenceNumber (n : Z) (m : DVMessage) : DVMessage :=
  mkDVMessage (m_messageType m) n (m_originatorAddress m) (m_ttl m) (m_message m).
Definition GetSequenceNumber (m : DVMessage) : Z := m_sequenceNumber m.
Definition SetTTL (ttl : Z) (m : DVMessage) : DVMessage :=
  mkDVMessage (m_messageType m) (m_sequenceNumber m) (m_originatorAddress m) ttl (m_message m).
Definition GetTTL (m : DVMessage) : Z := m_ttl m.
Definition SetOriginatorAddress (a : Ipv4Address) (m : DVMessage) : DVMessage :=
  mkDVMessage (m_messageType m) (m_sequenceNumber m) a (m_ttl m) (m_message m).
Definition GetOriginatorAddress (m : DVMessage) : Ipv4Address := m_originatorAddress m.

(** ** Wire format *)

(** The bytes of the payload the type selects. *)
Definition payload_bytes (m : DVMessage) : list Z :=
  let p := m_message m in
  let t := m_messageType m in
  if t =? PING_REQ then dest_string_bytes (PingReq_destinationAddress (pingReq p)) (PingReq_pingMessage (pingReq p))
  else if t =? PING_RSP then dest_string_bytes (PingRsp_destinationAddress (pingRsp p)) (PingRsp_pingMessage (pingRsp p))
  else if t =? HELLO_REQ then dest_string_bytes (HelloReq_destinationAddress (helloReq p)) (HelloReq_helloMessage (helloReq p))
  else costs_bytes (neighborCosts (dvTableMsg p)).

Definition message_bytes (m : DVMessage) : list Z :=
  header_bytes (m_messageType m) (m_sequenceNumber m) (m_ttl m) (m_originatorAddress m) ++ payload_bytes m.

(** The selected payload alone, in an otherwise default message: what a
    message looks like after [MakeDVMessage] and one setter. *)
Definition selected (m : DVMessage) : Payload :=
  let p := m_message m in
  let d := no_payload in
  let t := m_messageType m in
  if t =? PING_REQ then mkPayload (pingReq p) (pingRsp d) (helloReq d) (dvTableMsg d)
  else if t =? PING_RSP then mkPayload (pingReq d) (pingRsp p) (helloReq d) (dvTableMsg d)
  else if t =? HELLO_REQ then mkPayload (pingReq d) (pingRsp d)
    (mkHelloReq (HelloReq_destinationAddress (helloReq p)) (HelloReq_helloMessage (helloReq p)) 0) (dvTableMsg d)
  else mkPayload (pingReq d) (pingRsp d) (helloReq d) (dvTableMsg p).

(** Messages the wire format can represent: a legal type, 32-bit fields,
    strings and vectors shorter than 2^16. *)
Definition payload_valid (m : DVMessage) : Prop :=
  let p := m_message m in
  let t := m_messageType m in
  if decide (t = PING_REQ) then is_u32 (PingReq_destinationAddress (pingReq p)) /\ is_u16 (str_length (PingReq_pingMessage (pingReq p)))
  else if decide (t = PING_RSP) then is_u32 (PingRsp_destinationAddress (pingRsp p)) /\ is_u16 (str_length (PingRsp_pingMessage (pingRsp p)))
  else if decide (t = HELLO_REQ) then is_u32 (HelloReq_destinationAddress (helloReq p)) /\ is_u16 (str_length (HelloReq_helloMessage (helloReq p)))
  else t = DV_TABLE_MSG /\ costs_valid (neighborCosts (dvTableMsg p)).

Definition DVMessage_valid (m : DVMessage) : Prop :=
  is_u32 (m_sequenceNumber m) /\ is_u32 (m_originatorAddress m) /\ is_u8 (m_ttl m) /\ payload_valid m.

#[export] Instance DVMessage_valid_dec m : Decision (DVMessage_valid m).
Proof.
  unfold DVMessage_valid, payload_valid.
  repeat (case_decide; try apply _); apply _.
Defined.

(** Case analysis on the type of a valid message. *)
Lemma dv_payload_cases (m : DVMessage) (P : Z -> Prop) :
  payload_valid m -> P PING_REQ -> P PING_RSP -> P HELLO_REQ -> P DV_TABLE_MSG -> P (m_messageType m).
Proof. unfold payload_valid. repeat case_decide; intros; destruct_and?; congruence. Qed.

Lemma dv_message_writes m : DVMessage_valid m -> writes (DVMessage_Serialize m) (message_bytes m).
Proof.
  intros (_ & _ & _ & Hp). unfold DVMessage_Serialize, message_bytes.
  rewrite u8_small by by apply dv_payload_cases.
  apply writes_header. unfold payload_bytes.
  revert Hp. unfold payload_valid. generalize (m_messageType m). intros t.
  repeat case_decide; intros; destruct_and?; subst t.
  1-3: apply writes_dest_string.
  apply writes_costs.
Qed.

Lemma dv_message_size m :
  DVMessage_valid m -> DVMessage_GetSerializedSize m = Ok (blen (message_bytes m)).
Proof.
  intros (_ & _ & _ & Hp). unfold DVMessage_GetSerializedSize, message_bytes, payload_bytes.
  rewrite blen_app, blen_header. revert Hp. unfold payload_valid. generalize (m_messageType m). intros t.
  unfold PingReq_GetSerializedSize, PingRsp_GetSerializedSize, HelloReq_GetSerializedSize,
    DVTableMsg_GetSerializedSize, IPV4_ADDRESS_SIZE, costs_valid.
  repeat case_decide; intros; destruct_and?; subst; cbn [Z.eqb Pos.eqb PING_REQ PING_RSP HELLO_REQ DV_TABLE_MSG];
    rewrite ?blen_dest_string, ?blen_costs; rewrite u32_add_u32;
    match goal with |- Ok _ = _ => apply (f_equal Ok); lia | _ => unfold is_u32, is_u16 in *; lia end.
Qed.

(** The size [Deserialize] returns. *)
Definition deserialized_size (m : DVMessage) : Z :=
  if m_messageType m =? DV_TABLE_MSG then 10 else blen (message_bytes m).

Lemma dv_PingReq_reads p :
  is_u32 (PingReq_destinationAddress p) -> is_u16 (str_length (PingReq_pingMessage p)) ->
  reads PingReq_Deserialize (dest_string_bytes (PingReq_destinationAddress p) (PingReq_pingMessage p))
    (p, PingReq_GetSerializedSize p).
Proof.
  destruct p as [a s]; cbn. intros.
  by apply (reads_dest_string a s (fun a s => let p := mkPingReq a s in (p, PingReq_GetSerializedSize p))).
Qed.

Lemma dv_PingRsp_reads p :
  is_u32 (PingRsp_destinationAddress p) -> is_u16 (str_length (PingRsp_pingMessage p)) ->
  reads PingRsp_Deserialize (dest_string_bytes (PingRsp_destinationAddress p) (PingRsp_pingMessage p))
    (p, PingRsp_GetSerializedSize p).
Proof.
  destruct p as [a s]; cbn. intros.
  by apply (reads_dest_string a s (fun a s => let p := mkPingRsp a s in (p, PingRsp_GetSerializedSize p))).
Qed.

Lemma dv_HelloReq_reads p old :
  is_u32 (HelloReq_destinationAddress p) -> is_u16 (str_length (HelloReq_helloMessage p)) ->
  HelloReq_timeout p = HelloReq_timeout old ->
  reads (HelloReq_Deserialize old) (dest_string_bytes (HelloReq_destinationAddress p) (HelloReq_helloMessage p))
    (p, HelloReq_GetSerializedSize p).
Proof.
  destruct p as [a s t]; cbn. intros ? ? ->.
  by apply (reads_dest_string a s (fun a s => let p := mkHelloReq a s (HelloReq_timeout old) in
    (p, HelloReq_GetSerializedSize p))).
Qed.

Lemma DVTableMsg_reads p :
  costs_valid (neighborCosts p) ->
  reads (DVTableMsg_Deserialize (mkDVTableMsg [])) (costs_bytes (neighborCosts p))
    (p, DVTableMsg_GetSerializedSize p).
Proof.
  destruct p as [v]; cbn. intros.
  by apply (reads_costs v [] (fun v => let p := mkDVTableMsg v in (p, DVTableMsg_GetSerializedSize p))).
Qed.

Lemma dv_message_reads m fresh :
  DVMessage_valid m -> m_message fresh = no_payload -> m_message m = selected m ->
  reads (DVMessage_Deserialize fresh) (message_bytes m) (m, deserialized_size m).
Proof.
  intros Hv Hf Hsel. pose proof (dv_message_size m Hv) as Hsz. destruct Hv as (Hs & Ho & _ & Hp).
  unfold DVMessage_Deserialize. unfold message_bytes at 1. apply reads_header; [done..|].
  rewrite Hf. unfold deserialized_size, payload_bytes. unfold DVMessage_GetSerializedSize in Hsz.
  destruct m as [t seq orig ttl pl].
  revert Hp Hsel Hsz. unfold payload_valid, selected. cbn [m_messageType m_message m_sequenceNumber m_originatorAddress m_ttl].
  repeat case_decide; intros Hp Hsel Hsz; destruct_and?; subst t;
    cbn [Z.eqb Pos.eqb PING_REQ PING_RSP HELLO_REQ DV_TABLE_MSG] in *;
    injection Hsz as Hsz; rewrite <- ?Hsz.
  - eapply reads_eq; [apply reads_bind_ret, dv_PingReq_reads; done|]. by rewrite Hsel.
  - eapply reads_eq; [apply reads_bind_ret, dv_PingRsp_reads; done|]. by rewrite Hsel.
  - eapply reads_eq; [apply reads_bind_ret, dv_HelloReq_reads; [done..|by rewrite Hsel]|]. by rewrite Hsel.
  - eapply reads_eq; [apply reads_bind_ret, DVTableMsg_reads; done|]. by rewrite Hsel.
Qed.

(** A distance-vector message put on a packet and taken off again: for every
    message the wire format can represent, [Serialize] writes exactly
    [GetSerializedSize] bytes, [AddHeader] puts them in front of the packet
    without an assertion failing, and [RemoveHeader] into a fresh message
    returns the same message.  The packet that is left is the original one
    for the three string messages; for DV_TABLE_MSG the payload (all but the
    first ten bytes of the header) is still in front of it, because
    [Deserialize] does not add its size. *)
Theorem dv_packet_roundtrip Create m fresh p
  (HC : Allocator Create)
  (Hm : DVMessage_valid m) (Hsel : m_message m = selected m)
  (Hf : m_message fresh = no_payload) (Hp : wf p)
  (Hroom : m_end p + blen (message_bytes m) < array_max) :
  exists size p1 p2,
    DVMessage_GetSerializedSize m = Ok size /\
    Packet_AddHeader Create size (DVMessage_Serialize m) p = Ok p1 /\
    contents p1 = message_bytes m ++ contents p /\
    Packet_RemoveHeader (DVMessage_Deserialize fresh) p1 = Ok (m, p2) /\ wf p2 /\
    contents p2 = (if m_messageType m =? DV_TABLE_MSG then payload_bytes m else []) ++ contents p.
Proof.
  exists (blen (message_bytes m)).
  destruct (header_roundtrip Create (DVMessage_Serialize m) (DVMessage_Deserialize fresh)
    (message_bytes m) m (deserialized_size m) p) as (p1 & p2 & H1 & H2 & H3 & H4 & H5);
    auto using dv_message_writes, dv_message_reads.
  { unfold deserialized_size. case_match; [|pose proof (blen_nonneg (message_bytes m)); lia].
    unfold message_bytes. rewrite blen_app, blen_header. pose proof (blen_nonneg (payload_bytes m)). lia. }
  exists p1, p2. split_and!; auto using dv_message_size. rewrite H5. f_equal.
  unfold deserialized_size. destruct (m_messageType m =? DV_TABLE_MSG) eqn:Ht; [done|].
  unfold blen. rewrite Nat2Z.id. by apply drop_all.
Qed.

(** A table message with two neighbours on an empty packet. *)
Definition table_example : DVMessage :=
  mkDVMessage DV_TABLE_MSG 7 0x0a000001 16
    (mkPayload (pingReq no_payload) (pingRsp no_payload) (helloReq no_payload)
      (mkDVTableMsg [(0x0a000102, 1); (0x0a000202, 3)])).

Lemma dv_packet_roundtrip_witness : exists size p1 p2,
  DVMessage_GetSerializedSize table_example = Ok size /\
  Packet_AddHeader zero_array size (DVMessage_Serialize table_example) (empty_packet 0) = Ok p1 /\
  contents p1 = message_bytes table_example ++ contents (empty_packet 0) /\
  Packet_RemoveHeader (DVMessage_Deserialize (MakeDVMessage 0 0 0 0)) p1 = Ok (table_example, p2) /\ wf p2 /\
  contents p2 = payload_bytes table_example ++ contents (empty_packet 0).
Proof.
  apply (dv_packet_roundtrip zero_array table_example (MakeDVMessage 0 0 0 0) (empty_packet 0)).
  - apply zero_array_ok.
  - by apply (bool_decide_unpack _).
  - reflexivity.
  - reflexivity.
  - unfold wf; vm_compute; repeat split; discriminate.
  - reflexivity.
Defined.
