(* ===== verification/TestAppMessage.v ===== *)
(** * TestAppMessage: the header of the ping application

    src/ns-3/cs433/test-app/test-app-message.h and test-app-message.cc. *)

From S2P Require Import Prelude StdMap StdString Ipv4Address BufferIter Buffer Codec.

(** [enum MessageType] *)
Definition PING_REQ : Z := 1.
Definition PING_RSP : Z := 2.

Record PingReq := mkPingReq { PingReq_pingMessage : string }.
Record PingRsp := mkPingRsp { PingRsp_pingMessage : string }.
Record Payload := mkPayload { pingReq : PingReq; pingRsp : PingRsp }.

Record TestAppMessage := mkTestAppMessage {
  m_messageType : Z;
  m_transactionId : Z;
  m_message : Payload
}.

Definition no_payload : Payload := {| pingReq := mkPingReq ""; pingRsp := mkPingRsp "" |}.

Definition MakeTestAppMessage (messageType transactionId : Z) : TestAppMessage :=
  mkTestAppMessage messageType transactionId no_payload.

(** ** Payloads *)

Definition PingReq_GetSerializedSize (p : PingReq) : Z := u32 (2 + str_length (PingReq_pingMessage p)).

Definition PingReq_Print (p : PingReq) : string :=
  "PingReq:: Message: " +:+ PingReq_pingMessage p +:+ newline.

Definition PingReq_Serialize (p : PingReq) : ItM unit :=
  _ ← WriteU16 (u16 (str_length (PingReq_pingMessage p)));
  Write (string_bytes (PingReq_pingMessage p)).

Definition PingReq_Deserialize : ItM (PingReq * Z) :=
  length ← ReadU16;
  str ← Read (Z.to_nat length);
  mret (let p := mkPingReq (bytes_string str) in (p, PingReq_GetSerializedSize p)).

Definition PingRsp_GetSerializedSize (p : PingRsp) : Z := u32 (2 + str_length (PingRsp_pingMessage p)).

Definition PingRsp_Print (p : PingRsp) : string :=
  "PingReq:: Message: " +:+ PingRsp_pingMessage p +:+ newline.

Definition PingRsp_Serialize (p : PingRsp) : ItM unit :=
  _ ← WriteU16 (u16 (str_length (PingRsp_pingMessage p)));
  Write (string_bytes (PingRsp_pingMessage p)).

Definition PingRsp_Deserialize : ItM (PingRsp * Z) :=
  length ← ReadU16;
  str ← Read (Z.to_nat length);
  mret (let p := mkPingRsp (bytes_string str) in (p, PingRsp_GetSerializedSize p)).

(** ** The header *)

Definition TestAppMessage_GetSerializedSize (m : TestAppMessage) : result Z :=
  let size := 1 + 4 in
  let t := m_messageType m in
  if t =? PING_REQ then Ok (u32 (size + PingReq_GetSerializedSize (pingReq (m_message m))))
  else if t =? PING_RSP then Ok (u32 (size + PingRsp_GetSerializedSize (pingRsp (m_message m))))
  else Fault AssertFailed.

Definition TestAppMessage_Print (m : TestAppMessage) : string :=
  newline +:+ "****TestAppMessage Dump****" +:+ newline +:+
  "messageType: " +:+ show_uint (m_messageType m) +:+ newline +:+
  "transactionId: " +:+ show_uint (m_transactionId m) +:+ newline +:+
  "PAYLOAD:: " +:+ newline +:+
  (let t := m_messageType m in
   if t =? PING_REQ then PingReq_Print (pingReq (m_message m))
   else if t =? PING_RSP then PingRsp_Print (pingRsp (m_message m))
   else "") +:+
  newline +:+ "****END OF MESSAGE****" +:+ newline.

Definition TestAppMessage_Serialize (m : TestAppMessage) : ItM unit :=
  _ ← WriteU8 (u8 (m_messageType m));
  _ ← WriteHtonU32 (m_transactionId m);
  let t := m_messageType m in
  if t =? PING_REQ then PingReq_Serialize (pingReq (m_message m))
  else if t =? PING_RSP then PingRsp_Serialize (pingRsp (m_message m))
  else it_assert (fun _ => false).

Definition TestAppMessage_Deserialize (old : TestAppMessage) : ItM (TestAppMessage * Z) :=
  t ← ReadU8;
  tid ← ReadNtohU32;
  let size := 1 + 4 in
  let pl := m_message old in
  if t =? PING_REQ then
    r ← PingReq_Deserialize;
    mret (mkTestAppMessage t tid (mkPayload r.1 (pingRsp pl)), u32 (size + r.2))
  else if t =? PING_RSP then
    r ← PingRsp_Deserialize;
    mret (mkTestAppMessage t tid (mkPayload (pingReq pl) r.1), u32 (size + r.2))
  else _ ← it_assert (fun _ => false); mret (mkTestAppMessage t tid pl, size).

(** ** Setters and getters *)

Definition claim_type (t : Z) (m : TestAppMessage) : result TestAppMessage :=
  if m_messageType m =? 0 then Ok (mkTestAppMessage t (m_transactionId m) (m_message m))
  else _ ← assert (m_messageType m =? t); Ok m.

Definition SetPingReq (pingMessage : string) (m : TestAppMessage) : result TestAppMessage :=
  m ← claim_type PING_REQ m;
  Ok (mkTestAppMessage (m_messageType m) (m_transactionId m)
    (mkPayload (mkPingReq pingMessage) (pingRsp (m_message m)))).
Definition GetPingReq (m : TestAppMessage) : PingReq := pingReq (m_message m).

Definition SetPingRsp (pingMessage : string) (m : TestAppMessage) : result TestAppMessage :=
  m ← claim_type PING_RSP m;
  Ok (mkTestAppMessage (m_messageType m) (m_transactionId m)
    (mkPayload (pingReq (m_message m)) (mkPingRsp pingMessage))).
Definition GetPingRsp (m : TestAppMessage) : PingRsp := pingRsp (m_message m).

Definition SetMessageType (t : Z) (m : TestAppMessage) : TestAppMessage :=
  mkTestAppMessage t (m_transactionId m) (m_message m).
Definition GetMessageType (m : TestAppMessage) : Z := m_messageType m.
Definition SetTransactionId (n : Z) (m : TestAppMessage) : TestAppMessage :=
  mkTestAppMessage (m_messageType m) n (m_message m).
Definition GetTransactionId (m : TestAppMessage) : Z := m_transactionId m.

(** ** Wire format *)

Definition selected_string (m : TestAppMessage) : string :=
  if m_messageType m =? PING_REQ then PingReq_pingMessage (pingReq (m_message m))
  else PingRsp_pingMessage (pingRsp (m_message m)).

Definition message_bytes (m : TestAppMessage) : list Z :=
  [m_messageType m] ++ be32 (m_transactionId m) ++
  le16 (u16 (str_length (selected_string m))) ++ string_bytes (selected_string m).

Definition selected (m : TestAppMessage) : Payload :=
  if m_messageType m =? PING_REQ then mkPayload (pingReq (m_message m)) (pingRsp no_payload)
  else mkPayload (pingReq no_payload) (pingRsp (m_message m)).

Definition TestAppMessage_valid (m : TestAppMessage) : Prop :=
  is_u32 (m_transactionId m) /\ (m_messageType m = PING_REQ \/ m_messageType m = PING_RSP) /\
  is_u16 (str_length (selected_string m)).

#[export] Instance TestAppMessage_valid_dec m : Decision (TestAppMessage_valid m).
Proof. unfold TestAppMessage_valid. apply _. Defined.

Lemma app_message_writes m :
  TestAppMessage_valid m -> writes (TestAppMessage_Serialize m) (message_bytes m).
Proof.
  intros (_ & Ht & _). unfold TestAppMessage_Serialize, message_bytes, selected_string.
  apply writes_seq; [rewrite u8_small; [apply writes_U8|destruct Ht as [-> | ->]; done]|].
  apply writes_seq; [apply writes_HtonU32|].
  destruct Ht as [-> | ->]; apply writes_string.
Qed.

Lemma app_message_size m :
  TestAppMessage_valid m -> TestAppMessage_GetSerializedSize m = Ok (blen (message_bytes m)).
Proof.
  intros (_ & Ht & Hl). unfold TestAppMessage_GetSerializedSize, message_bytes, selected_string in *.
  rewrite !blen_app, blen_string_bytes. change (blen [_]) with 1. change (blen (be32 _)) with 4.
  change (blen (le16 _)) with 2.
  unfold PingReq_GetSerializedSize, PingRsp_GetSerializedSize.
  destruct Ht as [Ht | Ht]; rewrite Ht in *; cbn [Z.eqb Pos.eqb PING_REQ PING_RSP] in *;
    rewrite u32_add_u32;
    match goal with |- Ok _ = _ => apply (f_equal Ok); lia | _ => unfold is_u32, is_u16 in *; lia end.
Qed.

Lemma app_message_reads m fresh :
  TestAppMessage_valid m -> m_message fresh = no_payload -> m_message m = selected m ->
  reads (TestAppMessage_Deserialize fresh) (message_bytes m) (m, blen (message_bytes m)).
Proof.
  intros Hv Hf Hsel. pose proof (app_message_size m Hv) as Hsz. destruct Hv as (Hs & Ht & Hl).
  unfold TestAppMessage_Deserialize. unfold message_bytes at 1.
  eapply reads_bind; [apply reads_U8|]. eapply reads_bind; [by apply reads_NtohU32|].
  unfold TestAppMessage_GetSerializedSize in Hsz. rewrite Hf.
  destruct m as [t tid pl]. revert Hsel Hsz Hl. unfold selected, selected_string.
  cbn [m_messageType m_message m_transactionId] in *.
  destruct Ht as [-> | ->]; cbn [Z.eqb Pos.eqb PING_REQ PING_RSP]; intros Hsel Hsz Hl;
    injection Hsz as Hsz; rewrite <- Hsz.
  - eapply reads_eq; [apply reads_bind_ret|].
    + by apply (reads_string _ (fun s => let p := mkPingReq s in (p, PingReq_GetSerializedSize p))).
    + rewrite Hsel. by destruct (pingReq pl).
  - eapply reads_eq; [apply reads_bind_ret|].
    + by apply (reads_string _ (fun s => let p := mkPingRsp s in (p, PingRsp_GetSerializedSize p))).
    + rewrite Hsel. by destruct (pingRsp pl).
Qed.

(** A ping message put on a packet and taken off again: for every
    message with a legal type and a string shorter than 2^16, [AddHeader] puts
    exactly [GetSerializedSize] bytes in front of the packet and
    [RemoveHeader] returns the same message and the original packet. *)
Theorem testapp_packet_roundtrip Create m fresh p
  (HC : Allocator Create)
  (Hm : TestAppMessage_valid m) (Hsel : m_message m = selected m)
  (Hf : m_message fresh = no_payload) (Hp : wf p)
  (Hroom : m_end p + blen (message_bytes m) < array_max) :
  exists size p1 p2,
    TestAppMessage_GetSerializedSize m = Ok size /\
    Packet_AddHeader Create size (TestAppMessage_Serialize m) p = Ok p1 /\
    contents p1 = message_bytes m ++ contents p /\
    Packet_RemoveHeader (TestAppMessage_Deserialize fresh) p1 = Ok (m, p2) /\ wf p2 /\
    contents p2 = contents p.
Proof.
  exists (blen (message_bytes m)).
  destruct (header_roundtrip Create (TestAppMessage_Serialize m) (TestAppMessage_Deserialize fresh)
    (message_bytes m) m (blen (message_bytes m)) p) as (p1 & p2 & H1 & H2 & H3 & H4 & H5);
    auto using app_message_writes, app_message_reads.
  { pose proof (blen_nonneg (message_bytes m)). lia. }
  exists p1, p2. split_and!; auto using app_message_size. rewrite H5.
  unfold blen. by rewrite Nat2Z.id, drop_all.
Qed.

Lemma testapp_packet_roundtrip_witness :
  let m := mkTestAppMessage PING_RSP 41 (mkPayload (mkPingReq "") (mkPingRsp "hi")) in
  exists size p1 p2,
    TestAppMessage_GetSerializedSize m = Ok size /\
    Packet_AddHeader zero_array size (TestAppMessage_Serialize m) (empty_packet 5) = Ok p1 /\
    contents p1 = message_bytes m ++ contents (empty_packet 5) /\
    Packet_RemoveHeader (TestAppMessage_Deserialize (MakeTestAppMessage 0 0)) p1 = Ok (m, p2) /\ wf p2 /\
    contents p2 = contents (empty_packet 5).
Proof.
  intros m. apply (testapp_packet_roundtrip zero_array m (MakeTestAppMessage 0 0) (empty_packet 5)).
  - apply zero_array_ok.
  - by apply (bool_decide_unpack _).
  - reflexivity.
  - reflexivity.
  - unfold wf; vm_compute; repeat split; discriminate.
  - reflexivity.
Defined.
