(* ===== verification/Node.v ===== *)
(** * Node: what a protocol instance sees of its node

    Simulation time and timers (src/ns-3/src/simulator/nstime.h, timer.cc),
    the tracker records of src/ns-3/cs433/common, routes
    (src/ns-3/src/node/ipv4-route.cc), the interfaces [Ipv4] and
    [Ipv4RoutingProtocol] (src/ns-3/src/node/ipv4.h,
    ipv4-routing-protocol.h: abstract classes there, a record and a class
    here), and the monad the handlers of the protocols run in. *)

From S2P Require Import Prelude StdMap StdString Ipv4Address.

(** ** Time: the integer number of nanoseconds *)

Notation Time := Z (only parsing).
Definition GetMilliSeconds (t : Time) : Z := Z.quot t 1000000.
Definition MilliSeconds (ms : Z) : Time := ms * 1000000.

Lemma GetMilliSeconds_mono s t : s <= t -> GetMilliSeconds s <= GetMilliSeconds t.
Proof. intros. unfold GetMilliSeconds. apply Z.quot_le_mono; lia. Qed.

(** ** Timers: the time of the scheduled event, if there is one

    An event is expired when its time has come: while the function of a timer
    runs, the event that called it no longer counts. *)

Definition Timer : Type := option Time.
Definition IsRunning (now : Time) (t : Timer) : bool :=
  match t with Some ts => now <? ts | None => false end.
Definition Timer_Schedule (now delay : Time) (t : Timer) : result Timer :=
  if IsRunning now t then Fault FatalError else Ok (Some (now + delay)).
Definition Timer_Cancel (t : Timer) : Timer := None.

(** ** Tracker entries *)

Record PingRequest := mkPingRequest {
  PingRequest_m_sequenceNumber : Z;
  PingRequest_m_timestamp : Time;
  PingRequest_m_destinationAddress : Ipv4Address;
  PingRequest_m_pingMessage : string
}.

Record HelloRequest := mkHelloRequest {
  HelloRequest_m_sequenceNumber : Z;
  HelloRequest_m_timestamp : Time;
  HelloRequest_m_destinationAddress : Ipv4Address;
  HelloRequest_m_helloMessage : string;
  HelloRequest_m_timeout : Time
}.

(** [HelloRequest::GetTimeout] returns the time stamp. *)
Definition HelloRequest_GetTimeout (h : HelloRequest) : Time := HelloRequest_m_timestamp h.

(** ** Routes and headers *)

Notation NetDevice := Z (only parsing).
Notation SocketPtr := Z (only parsing).
Notation Packet := (list Z) (only parsing).

Record Ipv4Header := { GetSource : Ipv4Address; GetDestination : Ipv4Address }.

Record Ipv4Route := mkRoute {
  m_dest : Ipv4Address;
  m_source : Ipv4Address;
  m_gateway : Ipv4Address;
  m_outputDevice : NetDevice
}.

(** A multicast route: [m_ttls] holds the time to live for every outgoing
    interface, MAX_TTL where the route does not go. *)
Record Ipv4MulticastRoute := mkMulticastRoute {
  m_group : Ipv4Address;
  m_origin : Ipv4Address;
  m_parent : Z;
  m_ttls : list Z
}.

(** The node's IP stack, an object of the abstract class [Ipv4]: what its
    member functions answer in its present state.  Interfaces are numbers,
    [GetAddress i j] is the address with index [j] of interface [i]; a function
    that is given an interface or index that does not exist may fault. *)
Record Ipv4 := {
  GetNInterfaces : Z;
  GetNAddresses : Z -> result Z;
  GetAddress : Z -> Z -> result Ipv4InterfaceAddress;
  IsUp : Z -> result bool;
  IsForwarding : Z -> result bool;
  (* [device->GetIfIndex ()] of the node's devices *)
  GetIfIndex : NetDevice -> Z;
  GetInterfaceForAddress : Ipv4Address -> Z;
  GetInterfaceForDevice : NetDevice -> Z;
  IsDestinationAddress : Ipv4Address -> Z -> result bool;
  GetNetDevice : Z -> result NetDevice;
  (* the sockets the node creates: the pointer for interface [i], and what
     [Bind] returns on it (0 is success) *)
  CreateSocket : Z -> SocketPtr;
  Bind : Z -> Z
}.

(** What a handler does besides changing its state.  A datagram carries the
    message whose header was put on the packet. *)
Inductive action (M : Type) : Type :=
| SendTo (socket : SocketPtr) (addr : Ipv4Address) (port : Z) (msg : M)
| CloseSocket (socket : SocketPtr)
| UnicastForward (route : Ipv4Route) (packet : Packet)
| MulticastForward (route : Ipv4MulticastRoute) (packet : Packet)
| LocalDeliver (packet : Packet) (iif : Z)
| RouteError (packet : Packet) (sockerr : Z)
| NeighborRow (node : string) (addr interfaceAddr : Ipv4Address)
| RouteRow (node : string) (destAddr : Ipv4Address) (nextHopNum : Z)
    (nextHopAddr interfaceAddr : Ipv4Address) (cost : Z)
| LinkRow (node : string) (neighbors : list (string * Z)).
Arguments SendTo {M} socket addr port msg.
Arguments CloseSocket {M} socket.
Arguments UnicastForward {M} route packet.
Arguments MulticastForward {M} route packet.
Arguments LocalDeliver {M} packet iif.
Arguments RouteError {M} packet sockerr.
Arguments NeighborRow {M} node addr interfaceAddr.
Arguments RouteRow {M} node destAddr nextHopNum nextHopAddr interfaceAddr cost.
Arguments LinkRow {M} node neighbors.

(** The routing protocol a protocol falls back on; static routing
    (StaticRouting) is an instance.  The last argument of [RouteInput_] tells
    whether the local-delivery callback is set.  A protocol holds a pointer to
    the node's stack, which is modelled by the stack's present view;
    [StackChanged_] is not a function of the source, it replaces the view when
    the object behind the pointer has changed. *)
Class Ipv4RoutingProtocol (S : Type) := {
  new_protocol : S;
  RouteOutput_ : S -> Packet -> Ipv4Header -> option NetDevice -> Z -> result (option Ipv4Route * Z);
  RouteInput_ : forall M, S -> Packet -> Ipv4Header -> NetDevice -> bool -> result (bool * list (action M));
  NotifyInterfaceUp_ : Z -> S -> result S;
  NotifyInterfaceDown_ : Z -> S -> result S;
  NotifyAddAddress_ : Z -> Ipv4InterfaceAddress -> S -> result S;
  NotifyRemoveAddress_ : Z -> Ipv4InterfaceAddress -> S -> result S;
  SetIpv4_ : Ipv4 -> S -> result S;
  StackChanged_ : Ipv4 -> S -> S
}.
Arguments RouteInput_ {S _ M}.
#[export] Hint Mode Ipv4RoutingProtocol ! : typeclass_instances.

(** ** Handlers: state, faults and actions *)

Definition handler (S O A : Type) : Type := S -> result (A * S * list O).

#[export] Instance handler_ret {S O} : MRet (handler S O) := fun A a s => Ok (a, s, []).
#[export] Instance handler_bind {S O} : MBind (handler S O) := fun A B k h s =>
  match h s with
  | Ok (a, s', o) =>
      match k a s' with Ok (b, s'', o') => Ok (b, s'', o ++ o') | Fault f => Fault f end
  | Fault f => Fault f
  end.

Section handlers.
Context {S O : Type}.

Definition get : handler S O S := fun s => Ok (s, s, []).
Definition gets {A} (f : S -> A) : handler S O A := fun s => Ok (f s, s, []).
Definition modify (f : S -> S) : handler S O unit := fun s => Ok (tt, f s, []).
Definition emit (o : O) : handler S O unit := fun s => Ok (tt, s, [o]).
Definition emits (o : list O) : handler S O unit := fun s => Ok (tt, s, o).
Definition lift {A} (r : result A) : handler S O A := fun s => a ← r; Ok (a, s, []).
(** A computation on the state that may fault. *)
Definition modifyM (f : S -> result S) : handler S O unit := fun s => s' ← f s; Ok (tt, s', []).

Fixpoint for_loop {A} (l : list A) (f : A -> handler S O unit) : handler S O unit :=
  match l with
  | [] => mret tt
  | a :: l' => _ ← f a; for_loop l' f
  end.

Lemma handler_bind_Ok {A B} (h : handler S O A) (k : A -> handler S O B) s b s'' o'' :
  (h ≫= k) s = Ok (b, s'', o'') <->
  exists a s' o o', h s = Ok (a, s', o) /\ k a s' = Ok (b, s'', o') /\ o'' = o ++ o'.
Proof.
  unfold mbind, handler_bind. destruct (h s) as [[[a s'] o]|f]; [|naive_solver].
  split.
  - destruct (k a s') as [[[b' s3] o']|] eqn:E; [|done]. intros [= -> -> <-].
    exists a, s', o, o'. done.
  - intros (a' & s1 & o1 & o' & [= <- <- <-] & -> & ->). done.
Qed.

(** Invariant rule for loops. *)
Lemma for_loop_inv {A} (P : S -> Prop) (Q : O -> Prop) (l : list A) (f : A -> handler S O unit) s u s' o :
  (forall a s u s' o, a ∈ l -> P s -> f a s = Ok (u, s', o) -> P s' /\ Forall Q o) ->
  P s -> for_loop l f s = Ok (u, s', o) -> P s' /\ Forall Q o.
Proof.
  revert s o; induction l as [|a l IH]; intros s o Hf Hs; cbn.
  - intros [= <- <- <-]. by split.
  - intros (u1 & s1 & o1 & o2 & H1 & H2 & ->)%handler_bind_Ok.
    destruct (Hf a s u1 s1 o1) as [Hs1 Ho1]; [left|done..|].
    destruct (IH s1 o2) as [Hs2 Ho2]; [|done..|].
    + intros; eapply Hf; [by right|done..].
    + split; [done|]. by apply Forall_app.
Qed.
Lemma for_loop_emits {A} (l : list A) (f : A -> handler S O unit) (g : A -> O) s :
  Forall (fun a => f a s = Ok (tt, s, [g a])) l -> for_loop l f s = Ok (tt, s, map g l).
Proof.
  induction 1 as [|a l Ha Hl IH]; [done|]. cbn [for_loop]. unfold mbind, handler_bind.
  rewrite Ha, IH. done.
Qed.

(** The same for a body that emits a list. *)
Lemma for_loop_outputs {A} (l : list A) (f : A -> handler S O unit) (g : A -> list O) s :
  Forall (fun a => f a s = Ok (tt, s, g a)) l -> for_loop l f s = Ok (tt, s, concat (map g l)).
Proof.
  induction 1 as [|a l Ha Hl IH]; [done|]. cbn [for_loop]. unfold mbind, handler_bind.
  rewrite Ha, IH. done.
Qed.
End handlers.

(** [hstep] evaluates a sequence of handler primitives on a known state. *)
Ltac hstep :=
  repeat (unfold mbind, handler_bind, mret, handler_ret, get, gets, modify, modifyM, emit, emits, lift;
          cbn).

(** ** Audit loops *)

(** [for (iter = begin; iter != end;) if (expired) erase (iter++) else ++iter]:
    erasing does not disturb the iteration over the other entries. *)
Definition erase_expired {K V} `{EqDecision K} (expired : V -> bool) (m : stdmap K V) : stdmap K V :=
  foldl (fun m' p => if expired p.2 then map_erase p.1 m' else m') m m.

Section erase_expired.
Context {K V : Type} `{EqDecision K} `{StdLessSpec K} (expired : V -> bool).
Implicit Types m : stdmap K V.

Lemma erase_loop_find (l : stdmap K V) m k :
  map_find k (foldl (fun m' p => if expired p.2 then map_erase p.1 m' else m') m l) =
    if decide (Exists (fun p => p.1 = k /\ expired p.2 = true) l) then None else map_find k m.
Proof.
  revert m; induction l as [|[k1 v1] l IH]; intros m; cbn [foldl].
  - rewrite decide_False; [done|]. by intros ?%Exists_nil.
  - rewrite IH. destruct (decide (Exists _ l)) as [Hl|Hl].
    { rewrite decide_True; [done|]. by right. }
    cbn [fst snd]. destruct (expired v1) eqn:E; [rewrite map_find_erase|].
    + destruct (decide (k1 = k)) as [->|Hk].
      * rewrite decide_True; [done|]. by left.
      * rewrite decide_False; [done|]. intros [[? ?]|?]%Exists_cons; naive_solver.
    + rewrite decide_False; [done|]. intros [[_ Hv]|?]%Exists_cons; [|done]. cbn in Hv. congruence.
Qed.

(** On a well-formed map the audit keeps exactly the entries that are not
    expired. *)
Lemma map_find_erase_expired m k v :
  map_wf m -> map_find k (erase_expired expired m) = Some v <->
    map_find k m = Some v /\ expired v = false.
Proof.
  intros Hm. unfold erase_expired. rewrite erase_loop_find.
  case_decide as Hd.
  - apply Exists_exists in Hd as ([k' v'] & Hin & Hk & Hv). cbn in *; subst k'.
    rewrite (map_elem_find k v' m) by done. split; [done|].
    intros [[= ->] ?]. congruence.
  - split; [|by intros [? _]]. intros Hf. split; [done|].
    destruct (expired v) eqn:E; [|done]. destruct Hd. apply Exists_exists.
    exists (k, v). split; [by apply map_find_elem|done].
Qed.

Lemma map_wf_erase_loop (l : stdmap K V) m :
  map_wf m -> map_wf (foldl (fun m' p => if expired p.2 then map_erase p.1 m' else m') m l).
Proof.
  revert m; induction l as [|p l IH]; intros m Hm; cbn; [done|]. apply IH.
  destruct (expired p.2); [by apply map_wf_erase|done].
Qed.

Lemma map_wf_erase_expired m : map_wf m -> map_wf (erase_expired expired m).
Proof. apply map_wf_erase_loop. Qed.
End erase_expired.

#[export] Hint Resolve map_wf_erase_expired : ns3.

(** A fallback protocol with one fixed route, or none: the smallest instance
    of the interface. *)
Definition fixed_route : Ipv4RoutingProtocol (option Ipv4Route) := {|
  new_protocol := None;
  RouteOutput_ s _ _ _ _ := Ok (s, match s with Some _ => 0 | None => 10 end);
  RouteInput_ M s p _ _ _ := Ok match s with Some r => (true, [UnicastForward r p]) | None => (false, []) end;
  NotifyInterfaceUp_ _ s := Ok s;
  NotifyInterfaceDown_ _ s := Ok s;
  NotifyAddAddress_ _ _ s := Ok s;
  NotifyRemoveAddress_ _ _ s := Ok s;
  SetIpv4_ _ s := Ok s;
  StackChanged_ _ s := s |}.
