(* ===== verification/Triple.v ===== *)
(** * Triple: partial-correctness triples for handlers

    [htriple V P h Q]: run in a state of [P], the handler [h], if it returns,
    leaves a state of [Q], and every action it emits satisfies [V].  The rules
    follow the structure of handlers, so the proof that a protocol keeps its
    invariant follows the text of the handler. *)

From S2P Require Import Prelude Node.

Section triples.
Context {S O : Type} {V : O -> Prop}.

Definition htriple {A} (P : S -> Prop) (h : handler S O A)
    (Q : A -> S -> Prop) : Prop :=
  forall st a st' out, P st -> h st = Ok (a, st', out) -> Q a st' /\ Forall V out.

Lemma triple_bind {A B} P R (Q : B -> S -> Prop) (h : handler S O A) k :
  htriple P h R -> (forall a, htriple (R a) (k a) Q) -> htriple P (h ≫= k) Q.
Proof.
  intros Hh Hk st b st' out HP (a & s1 & o1 & o2 & H1 & H2 & ->)%handler_bind_Ok.
  destruct (Hh _ _ _ _ HP H1) as [HR Ho1]. destruct (Hk a _ _ _ _ HR H2) as [HQ Ho2].
  split; [done|]. by apply Forall_app.
Qed.

Lemma triple_ret {A} (P : A -> S -> Prop) a : htriple (P a) (mret a) P.
Proof. by intros st b st' out HP [= <- <- <-]. Qed.

Lemma triple_get_bind {B} (P : S -> Prop) k (Q : B -> S -> Prop) :
  (forall s, P s -> htriple (eq s) (k s) Q) -> htriple P (get ≫= k) Q.
Proof.
  intros Hk st b st' out HP (a & s1 & o1 & o2 & [= <- <- <-] & H2 & ->)%handler_bind_Ok.
  by eapply (Hk st HP).
Qed.

Lemma triple_modify (P Q : S -> Prop) f :
  (forall st, P st -> Q (f st)) -> htriple P (modify f) (fun _ => Q).
Proof. intros Hf st b st' out HP [= <- <- <-]. auto. Qed.

Lemma triple_modifyM (P Q : S -> Prop) f :
  (forall st st', P st -> f st = Ok st' -> Q st') -> htriple P (modifyM f) (fun _ => Q).
Proof.
  intros Hf st b st' out HP. unfold modifyM. intros (s' & Hs & [= <- <- <-])%bind_Ok. eauto.
Qed.

Lemma triple_lift_bind {A B} P (r : result A) k (Q : B -> S -> Prop) :
  (forall a, r = Ok a -> htriple P (k a) Q) -> htriple P (lift r ≫= k) Q.
Proof.
  intros Hk st b st' out HP (a & s1 & o1 & o2 & H1 & H2 & ->)%handler_bind_Ok.
  unfold lift in H1. apply bind_Ok in H1 as (a' & Ha & [= <- <- <-]). by eapply (Hk a').
Qed.

Lemma triple_emit P o : V o -> htriple P (emit o) (fun _ => P).
Proof. intros Ho st b st' out HP [= <- <- <-]. split; [done|]. by constructor. Qed.

Lemma triple_for {A} P (l : list A) (f : A -> handler S O unit) :
  (forall a, a ∈ l -> htriple P (f a) (fun _ => P)) -> htriple P (for_loop l f) (fun _ => P).
Proof.
  intros Hf st u st' out HP Hl. eapply (for_loop_inv P V); [|exact HP|exact Hl].
  intros a s u' s' o Ha HPs Hs. by eapply Hf.
Qed.

Lemma triple_conseq {A} (P P' : S -> Prop) (Q Q' : A -> S -> Prop) h :
  (forall st, P' st -> P st) -> (forall a st, Q a st -> Q' a st) -> htriple P h Q -> htriple P' h Q'.
Proof. intros HP HQ Ht st a st' out HP' Hs. destruct (Ht st a st' out) as [? ?]; auto. Qed.

End triples.

Arguments htriple {S O} V {A} P h Q.
