(* ===== verification/LSRouting.v ===== *)
(** * LSRouting: the link-state routing protocol

    src/ns-3/cs433/ls-routing-protocol/ls-routing-protocol.h and .cc.  The
    state of a protocol object is [LSState]; a member function that only
    computes is a function of the state, one that changes it or sends is a
    [handler], and one that is given the current time takes [now]
    ([Simulator::Now ()]).  Log output is not modelled, except the rows of the
    DUMP commands.  Dereferencing [find ()] that is [end ()] is
    [Fault DerefEnd]. *)

From S2P Require Import Prelude StdMap StdString Ipv4Address Codec LSMessage Node.

(** ** Data *)

Record RoutingTableEntry := mkRT {
  rt_destAddr : Ipv4Address;
  rt_nextHopNum : Z;
  rt_nextHopAddr : Ipv4Address;
  rt_interfaceAddr : Ipv4Address;
  rt_cost : Z
}.

Record NeighborTableEntry := mkNT {
  nt_neighborAddr : Ipv4Address;
  nt_interfaceAddr : Ipv4Address;
  nt_lastUpdated : Time
}.

Record LSTableEntry := mkLST {
  lst_neighborCosts : list (Ipv4Address * Z);
  lst_sequenceNumber : Z
}.

Section ls_routing.
Context {SR : Type} `{!Ipv4RoutingProtocol SR}.

(** The fields of the class ([m_helloTracker] is never used); [m_ipv4] and
    [m_staticRouting] are pointers. *)
Record LSState := mkLSState {
  m_socketAddresses : stdmap SocketPtr Ipv4InterfaceAddress;
  m_mainAddress : Ipv4Address;
  m_staticRouting : option SR;
  m_ipv4 : option Ipv4;
  m_pingTimeout : Time;
  m_helloTimeout : Time;
  m_maxTTL : Z;
  m_lsPort : Z;
  m_currentSequenceNumber : Z;
  m_nodeAddressMap : stdmap Z Ipv4Address;
  m_addressNodeMap : stdmap Ipv4Address Z;
  m_auditPingsTimer : Timer;
  m_auditHellosTimer : Timer;
  m_pingTracker : stdmap Z PingRequest;
  m_neighborTable : stdmap string NeighborTableEntry;
  m_routingTable : stdmap string RoutingTableEntry;
  m_lsTable : stdmap string LSTableEntry
}.

Definition set_socketAddresses (x : stdmap SocketPtr Ipv4InterfaceAddress) (st : LSState) : LSState :=
    mkLSState x (m_mainAddress st) (m_staticRouting st) (m_ipv4 st) (m_pingTimeout st) (m_helloTimeout st)
    (m_maxTTL st) (m_lsPort st) (m_currentSequenceNumber st) (m_nodeAddressMap st) (m_addressNodeMap st)
    (m_auditPingsTimer st) (m_auditHellosTimer st) (m_pingTracker st) (m_neighborTable st) (m_routingTable st)
    (m_lsTable st).
Definition set_mainAddress (x : Ipv4Address) (st : LSState) : LSState :=   mkLSState (m_socketAddresses st) x
    (m_staticRouting st) (m_ipv4 st) (m_pingTimeout st) (m_helloTimeout st) (m_maxTTL st) (m_lsPort st)
    (m_currentSequenceNumber st) (m_nodeAddressMap st) (m_addressNodeMap st) (m_auditPingsTimer st)
    (m_auditHellosTimer st) (m_pingTracker st) (m_neighborTable st) (m_routingTable st) (m_lsTable st).
Definition set_staticRouting (x : option SR) (st : LSState) : LSState :=   mkLSState (m_socketAddresses st)
    (m_mainAddress st) x (m_ipv4 st) (m_pingTimeout st) (m_helloTimeout st) (m_maxTTL st) (m_lsPort st)
    (m_currentSequenceNumber st) (m_nodeAddressMap st) (m_addressNodeMap st) (m_auditPingsTimer st)
    (m_auditHellosTimer st) (m_pingTracker st) (m_neighborTable st) (m_routingTable st) (m_lsTable st).
Definition set_ipv4 (x : option Ipv4) (st : LSState) : LSState :=   mkLSState (m_socketAddresses st)
    (m_mainAddress st) (m_staticRouting st) x (m_pingTimeout st) (m_helloTimeout st) (m_maxTTL st) (m_lsPort
    st) (m_currentSequenceNumber st) (m_nodeAddressMap st) (m_addressNodeMap st) (m_auditPingsTimer st)
    (m_auditHellosTimer st) (m_pingTracker st) (m_neighborTable st) (m_routingTable st) (m_lsTable st).
Definition set_currentSequenceNumber (x : Z) (st : LSState) : LSState :=   mkLSState (m_socketAddresses st)
    (m_mainAddress st) (m_staticRouting st) (m_ipv4 st) (m_pingTimeout st) (m_helloTimeout st) (m_maxTTL st)
    (m_lsPort st) x (m_nodeAddressMap st) (m_addressNodeMap st) (m_auditPingsTimer st) (m_auditHellosTimer st)
    (m_pingTracker st) (m_neighborTable st) (m_routingTable st) (m_lsTable st).
Definition set_nodeAddressMap (x : stdmap Z Ipv4Address) (st : LSState) : LSState :=   mkLSState
    (m_socketAddresses st) (m_mainAddress st) (m_staticRouting st) (m_ipv4 st) (m_pingTimeout st)
    (m_helloTimeout st) (m_maxTTL st) (m_lsPort st) (m_currentSequenceNumber st) x (m_addressNodeMap st)
    (m_auditPingsTimer st) (m_auditHellosTimer st) (m_pingTracker st) (m_neighborTable st) (m_routingTable st)
    (m_lsTable st).
Definition set_addressNodeMap (x : stdmap Ipv4Address Z) (st : LSState) : LSState :=   mkLSState
    (m_socketAddresses st) (m_mainAddress st) (m_staticRouting st) (m_ipv4 st) (m_pingTimeout st)
    (m_helloTimeout st) (m_maxTTL st) (m_lsPort st) (m_currentSequenceNumber st) (m_nodeAddressMap st) x
    (m_auditPingsTimer st) (m_auditHellosTimer st) (m_pingTracker st) (m_neighborTable st) (m_routingTable st)
    (m_lsTable st).
Definition set_auditPingsTimer (x : Timer) (st : LSState) : LSState :=   mkLSState (m_socketAddresses st)
    (m_mainAddress st) (m_staticRouting st) (m_ipv4 st) (m_pingTimeout st) (m_helloTimeout st) (m_maxTTL st)
    (m_lsPort st) (m_currentSequenceNumber st) (m_nodeAddressMap st) (m_addressNodeMap st) x
    (m_auditHellosTimer st) (m_pingTracker st) (m_neighborTable st) (m_routingTable st) (m_lsTable st).
Definition set_auditHellosTimer (x : Timer) (st : LSState) : LSState :=   mkLSState (m_socketAddresses st)
    (m_mainAddress st) (m_staticRouting st) (m_ipv4 st) (m_pingTimeout st) (m_helloTimeout st) (m_maxTTL st)
    (m_lsPort st) (m_currentSequenceNumber st) (m_nodeAddressMap st) (m_addressNodeMap st) (m_auditPingsTimer
    st) x (m_pingTracker st) (m_neighborTable st) (m_routingTable st) (m_lsTable st).
Definition set_pingTracker (x : stdmap Z PingRequest) (st : LSState) : LSState :=   mkLSState
    (m_socketAddresses st) (m_mainAddress st) (m_staticRouting st) (m_ipv4 st) (m_pingTimeout st)
    (m_helloTimeout st) (m_maxTTL st) (m_lsPort st) (m_currentSequenceNumber st) (m_nodeAddressMap st)
    (m_addressNodeMap st) (m_auditPingsTimer st) (m_auditHellosTimer st) x (m_neighborTable st)
    (m_routingTable st) (m_lsTable st).
Definition set_neighborTable (x : stdmap string NeighborTableEntry) (st : LSState) : LSState :=   mkLSState
    (m_socketAddresses st) (m_mainAddress st) (m_staticRouting st) (m_ipv4 st) (m_pingTimeout st)
    (m_helloTimeout st) (m_maxTTL st) (m_lsPort st) (m_currentSequenceNumber st) (m_nodeAddressMap st)
    (m_addressNodeMap st) (m_auditPingsTimer st) (m_auditHellosTimer st) (m_pingTracker st) x (m_routingTable
    st) (m_lsTable st).
Definition set_routingTable (x : stdmap string RoutingTableEntry) (st : LSState) : LSState :=   mkLSState
    (m_socketAddresses st) (m_mainAddress st) (m_staticRouting st) (m_ipv4 st) (m_pingTimeout st)
    (m_helloTimeout st) (m_maxTTL st) (m_lsPort st) (m_currentSequenceNumber st) (m_nodeAddressMap st)
    (m_addressNodeMap st) (m_auditPingsTimer st) (m_auditHellosTimer st) (m_pingTracker st) (m_neighborTable
    st) x (m_lsTable st).
Definition set_lsTable (x : stdmap string LSTableEntry) (st : LSState) : LSState :=   mkLSState
    (m_socketAddresses st) (m_mainAddress st) (m_staticRouting st) (m_ipv4 st) (m_pingTimeout st)
    (m_helloTimeout st) (m_maxTTL st) (m_lsPort st) (m_currentSequenceNumber st) (m_nodeAddressMap st)
    (m_addressNodeMap st) (m_auditPingsTimer st) (m_auditHellosTimer st) (m_pingTracker st) (m_neighborTable
    st) (m_routingTable st) x.

Notation H := (handler LSState (action LSMessage)).

(** [LSRoutingProtocol ()] with the default attributes; [seq] is the random
    initial sequence number. *)
Definition MakeLSRoutingProtocol (seq : Z) : LSState := {|
  m_socketAddresses := []; m_mainAddress := Ipv4Address_default;
  m_staticRouting := Some new_protocol; m_ipv4 := None;
  m_pingTimeout := MilliSeconds 2000; m_helloTimeout := MilliSeconds 6000;
  m_maxTTL := 16; m_lsPort := 5000; m_currentSequenceNumber := u32 seq;
  m_nodeAddressMap := []; m_addressNodeMap := [];
  m_auditPingsTimer := None; m_auditHellosTimer := None;
  m_pingTracker := []; m_neighborTable := []; m_routingTable := []; m_lsTable := [] |}.

(** ** Configuration *)

Definition SetMainInterface (mainInterface : Z) : H unit := modifyM (fun st =>
  ip ← m_ipv4 st ?? NullDeref;
  a ← GetAddress ip mainInterface 0;
  Ok (set_mainAddress (m_local a) st)).

Definition SetNodeAddressMap (m : stdmap Z Ipv4Address) : H unit := modify (set_nodeAddressMap m).
Definition SetAddressNodeMap (m : stdmap Ipv4Address Z) : H unit := modify (set_addressNodeMap m).

Definition SetIpv4 (ip : Ipv4) : H unit := modifyM (fun st =>
  sr ← m_staticRouting st ?? NullDeref;
  sr ← SetIpv4_ ip sr;
  Ok (set_staticRouting (Some sr) (set_ipv4 (Some ip) st))).

Definition on_static (f : SR -> result SR) : H unit := modifyM (fun st =>
  sr ← m_staticRouting st ?? NullDeref; sr ← f sr; Ok (set_staticRouting (Some sr) st)).
Definition NotifyInterfaceUp (i : Z) : H unit := on_static (NotifyInterfaceUp_ i).
Definition NotifyInterfaceDown (i : Z) : H unit := on_static (NotifyInterfaceDown_ i).
Definition NotifyAddAddress (i : Z) (a : Ipv4InterfaceAddress) : H unit := on_static (NotifyAddAddress_ i a).
Definition NotifyRemoveAddress (i : Z) (a : Ipv4InterfaceAddress) : H unit := on_static (NotifyRemoveAddress_ i a).

Definition DoDispose : H unit :=
  st ← get;
  _ ← for_loop (m_socketAddresses st) (fun p => emit (CloseSocket p.1));
  _ ← modify (set_socketAddresses []);
  _ ← modify (set_staticRouting None);
  _ ← modify (fun st => set_auditPingsTimer (Timer_Cancel (m_auditPingsTimer st)) st);
  _ ← modify (fun st => set_auditHellosTimer (Timer_Cancel (m_auditHellosTimer st)) st);
  modify (set_pingTracker []).

Definition schedule_audit_pings (now : Time) : H unit := modifyM (fun st =>
  t ← Timer_Schedule now (m_pingTimeout st) (m_auditPingsTimer st); Ok (set_auditPingsTimer t st)).
Definition schedule_audit_hellos (now : Time) : H unit := modifyM (fun st =>
  t ← Timer_Schedule now (m_helloTimeout st) (m_auditHellosTimer st); Ok (set_auditHellosTimer t st)).

Definition DoStart (now : Time) : H unit :=
  st ← get;
  ip ← lift (m_ipv4 st ?? NullDeref);
  _ ← for_loop (seqZ 0 (GetNInterfaces ip)) (fun i =>
    address ← lift (GetAddress ip i 0);
    let ipAddress := m_local address in
    if ipAddress =? GetLoopback then mret tt else
    let socket := CreateSocket ip i in
    if negb (Bind ip i =? 0) then lift (Fault FatalError) else
    _ ← lift (GetNetDevice ip i);
    modify (fun st => set_socketAddresses (map_set socket address (m_socketAddresses st)) st));
  _ ← schedule_audit_pings now;
  schedule_audit_hellos now.

(** ** Names and addresses *)

Definition ResolveNodeIpAddress (st : LSState) (nodeNumber : Z) : Ipv4Address :=
  match map_find nodeNumber (m_nodeAddressMap st) with Some a => a | None => GetAny end.

Definition ReverseLookup (st : LSState) (ipAddress : Ipv4Address) : string :=
  match map_find ipAddress (m_addressNodeMap st) with
  | Some nodeNumber => show_uint nodeNumber
  | None => "Unknown"
  end.

Definition IsOwnAddress (st : LSState) (originatorAddress : Ipv4Address) : bool :=
  existsb (fun p => originatorAddress =? m_local p.2) (m_socketAddresses st).

Definition GetNextSequenceNumber : H Z :=
  st ← get;
  _ ← modify (set_currentSequenceNumber (u32 (m_currentSequenceNumber st + 1)));
  mret (m_currentSequenceNumber st).

Definition SearchTable (st : LSState) (dest : Ipv4Address) : option RoutingTableEntry :=
  map_find (ReverseLookup st dest) (m_routingTable st).

(** ** Routing of data packets *)

(** The route built for a next hop and the interface it is reached by. *)
Definition make_route (st : LSState) (ip : Ipv4) (dest gateway interfaceAddr : Ipv4Address) : result Ipv4Route :=
  let interface := GetInterfaceForAddress ip interfaceAddr in
  dev ← GetNetDevice ip (u32 interface);
  Ok (mkRoute dest (m_mainAddress st) gateway dev).

(** The result is the returned route and the error number left in [sockerr];
    the route of the static protocol is bound to a variable of the inner block
    and lost. *)
Definition RouteOutput (st : LSState) (packet : Packet) (header : Ipv4Header)
    (outInterface : option NetDevice) (sockerr : Z) : result (option Ipv4Route * Z) :=
  let dest := GetDestination header in
  if dest =? m_mainAddress st then
    let local := AsciiToIpv4Host "127.0.0.1" in
    ip ← m_ipv4 st ?? NullDeref;
    r ← make_route st ip dest local local; Ok (Some r, sockerr)
  else match SearchTable st dest with
  | Some entry =>
      ip ← m_ipv4 st ?? NullDeref;
      r ← make_route st ip dest (rt_nextHopAddr entry) (rt_interfaceAddr entry); Ok (Some r, sockerr)
  | None =>
      sr ← m_staticRouting st ?? NullDeref;
      '(_, sockerr) ← RouteOutput_ sr packet header outInterface sockerr; Ok (None, sockerr)
  end.

(** [lcb] tells whether the local-delivery callback is set. *)
Definition RouteInput {M} (st : LSState) (packet : Packet) (header : Ipv4Header) (inputDev : NetDevice)
    (lcb : bool) : result (bool * list (action M)) :=
  let destinationAddress := GetDestination header in
  if IsOwnAddress st (GetSource header) then Ok (true, []) else
  ip ← m_ipv4 st ?? NullDeref;
  let interfaceNum := u32 (GetInterfaceForDevice ip inputDev) in
  local ← IsDestinationAddress ip destinationAddress interfaceNum;
  if local : bool then
    if lcb then Ok (true, [LocalDeliver packet interfaceNum]) else Ok (false, [])
  else match SearchTable st destinationAddress with
  | Some entry =>
      r ← make_route st ip destinationAddress (rt_nextHopAddr entry) (rt_interfaceAddr entry);
      Ok (true, [UnicastForward r packet])
  | None =>
      sr ← m_staticRouting st ?? NullDeref;
      RouteInput_ sr packet header inputDev lcb
  end.

(** ** Sending *)

Definition BroadcastPacket (m : LSMessage) : H unit :=
  st ← get;
  for_loop (m_socketAddresses st) (fun p =>
    broadcastAddr ← lift (GetSubnetDirectedBroadcast (m_local p.2) (m_mask p.2));
    emit (SendTo p.1 broadcastAddr (m_lsPort st) m)).

Definition SendHello : H unit :=
  st ← get;
  let destAddress := ResolveNodeIpAddress st 0 in
  sequenceNumber ← GetNextSequenceNumber;
  let lsMessage := MakeLSMessage HELLO_REQ sequenceNumber 1 (m_mainAddress st) in
  lsMessage ← lift (SetHelloReq destAddress "hello" lsMessage);
  BroadcastPacket lsMessage.

Definition SendLSTableMessage : H unit :=
  sequenceNumber ← GetNextSequenceNumber;
  st ← get;
  let neighborAddrs := map (fun i => (nt_neighborAddr i.2, 1)) (m_neighborTable st) in
  let lsMessage := MakeLSMessage LS_TABLE_MSG sequenceNumber (m_maxTTL st) (m_mainAddress st) in
  lsMessage ← lift (SetLSTableMsg neighborAddrs lsMessage);
  BroadcastPacket lsMessage.

(** ** Shortest paths *)

Definition GetNeighbors (st : LSState) (node : string) : list Ipv4Address :=
  match map_find node (m_lsTable st) with
  | None => []
  | Some entry => map fst (lst_neighborCosts entry)
  end.

Fixpoint first_cost (st : LSState) (pairs : list (Ipv4Address * Z)) (node2 : string) : Z :=
  match pairs with
  | [] => INT_MAX
  | (a, c) :: pairs' => if String.eqb (ReverseLookup st a) node2 then c else first_cost st pairs' node2
  end.

Definition DistanceToNeighbor (st : LSState) (node1 node2 : string) : result Z :=
  if String.eqb node1 node2 then Ok 0 else
  entry ← map_find node1 (m_lsTable st) ?? DerefEnd;
  Ok (first_cost st (lst_neighborCosts entry) node2).

(** The closest node and its cost so far are the accumulator; the string
    [closest] starts out empty. *)
Definition GetMinCostNode (rt : stdmap string RoutingTableEntry) (leastCostFound : stdmap string bool) : result string :=
  r ← foldM (fun (acc : Z * string) i =>
    found ← map_find i.1 leastCostFound ?? DerefEnd;
    if negb found then
      let cost := rt_cost i.2 in
      if cost <? acc.1 then Ok (cost, i.1) else Ok acc
    else Ok acc) (INT_MAX, EmptyString) rt;
  Ok r.2.

(** [leastCostFound.find (node)->second = true] *)
Definition mark_found (node : string) (leastCostFound : stdmap string bool) : result (stdmap string bool) :=
  _ ← map_find node leastCostFound ?? DerefEnd;
  Ok (map_update node (fun _ => true) leastCostFound).

(** The routing-table entries [Dijkstra] starts with. *)
Definition Dijkstra_init (st : LSState) (thisNode : string) : result (stdmap string RoutingTableEntry) :=
  let self := mkRT (m_mainAddress st) (m_mainAddress st) (m_mainAddress st) (m_mainAddress st) 0 in
  foldM (fun rt nbr =>
    nt ← map_find (ReverseLookup st nbr) (m_neighborTable st) ?? DerefEnd;
    d ← DistanceToNeighbor st thisNode (ReverseLookup st nbr);
    Ok (map_insert (ReverseLookup st nbr) (mkRT nbr nbr nbr (nt_interfaceAddr nt) d) rt))
    (map_insert thisNode self []) (GetNeighbors st thisNode).

(** The body of the inner loop. *)
Definition relax (st : LSState) (current : string) (rt : stdmap string RoutingTableEntry) (nbr : Ipv4Address)
    : result (stdmap string RoutingTableEntry) :=
  let nbrName := ReverseLookup st nbr in
  let old_cost := match map_find nbrName rt with Some e => rt_cost e | None => INT_MAX end in
  c ← map_find current rt ?? DerefEnd;
  d ← DistanceToNeighbor st current nbrName;
  let new_cost := u32 (rt_cost c + d) in
  if new_cost <? old_cost then
    let nextHopAddr := rt_nextHopAddr c in
    nt ← map_find (ReverseLookup st nextHopAddr) (m_neighborTable st) ?? DerefEnd;
    match map_find nbrName rt with
    | Some e => Ok (map_update nbrName (fun e =>
        mkRT (rt_destAddr e) nextHopAddr nextHopAddr (nt_interfaceAddr nt) new_cost) rt)
    | None => Ok (map_insert nbrName (mkRT nbr nextHopAddr nextHopAddr (nt_interfaceAddr nt) new_cost) rt)
    end
  else Ok rt.

Definition Dijkstra_step (st : LSState) (rt : stdmap string RoutingTableEntry) (found : stdmap string bool)
    : result (stdmap string RoutingTableEntry * stdmap string bool) :=
  current ← GetMinCostNode rt found;
  found ← mark_found current found;
  rt ← foldM (relax st current) rt (GetNeighbors st current);
  Ok (rt, found).

Fixpoint Dijkstra_loop (st : LSState) (n : nat) (rt : stdmap string RoutingTableEntry)
    (found : stdmap string bool) : result (stdmap string RoutingTableEntry) :=
  match n with
  | O => Ok rt
  | S n' => '(rt, found) ← Dijkstra_step st rt found; Dijkstra_loop st n' rt found
  end.

(** The new routing table.  With an empty LS table [mark_found] faults, so
    the loop bound [m_lsTable.size () - 1] is that of natural numbers. *)
Definition Dijkstra_table (st : LSState) : result (stdmap string RoutingTableEntry) :=
  let leastCostFound := foldl (fun m it => map_insert it.1 false m) [] (m_lsTable st) in
  let thisNode := ReverseLookup st (m_mainAddress st) in
  rt ← Dijkstra_init st thisNode;
  leastCostFound ← mark_found thisNode leastCostFound;
  Dijkstra_loop st (length (m_lsTable st) - 1) rt leastCostFound.

Definition Dijkstra : H unit := modifyM (fun st =>
  rt ← Dijkstra_table st; Ok (set_routingTable rt st)).

(** ** Messages received *)

Definition ProcessPingReq (lsMessage : LSMessage) : H unit :=
  st ← get;
  if IsOwnAddress st (PingReq_destinationAddress (GetPingReq lsMessage)) then
    let lsResp := MakeLSMessage PING_RSP (GetSequenceNumber lsMessage) (m_maxTTL st) (m_mainAddress st) in
    lsResp ← lift (SetPingRsp (GetOriginatorAddress lsMessage) (PingReq_pingMessage (GetPingReq lsMessage)) lsResp);
    BroadcastPacket lsResp
  else mret tt.

Definition ProcessPingRsp (lsMessage : LSMessage) : H unit :=
  st ← get;
  if IsOwnAddress st (PingRsp_destinationAddress (GetPingRsp lsMessage)) then
    match map_find (GetSequenceNumber lsMessage) (m_pingTracker st) with
    | Some _ => modify (set_pingTracker (map_erase (GetSequenceNumber lsMessage) (m_pingTracker st)))
    | None => mret tt
    end
  else mret tt.

Definition ProcessHelloReq (now : Time) (lsMessage : LSMessage) (socket : SocketPtr) : H unit :=
  st ← get;
  let neighAddr := GetOriginatorAddress lsMessage in
  let fromNode := ReverseLookup st neighAddr in
  let interfaceAddr :=
    match map_find socket (m_socketAddresses st) with Some i => m_local i | None => Ipv4Address_default end in
  match map_find fromNode (m_neighborTable st) with
  | Some _ =>
      modify (set_neighborTable (map_update fromNode
        (fun e => mkNT (nt_neighborAddr e) (nt_interfaceAddr e) now) (m_neighborTable st)))
  | None =>
      let entry := mkNT neighAddr interfaceAddr now in
      _ ← modify (set_neighborTable (map_insert fromNode entry (m_neighborTable st)));
      let thisNode := ReverseLookup st (m_mainAddress st) in
      _ ← match map_find thisNode (m_lsTable st) with
      | Some _ => modify (set_lsTable (map_update thisNode
          (fun e => mkLST (lst_neighborCosts e ++ [(neighAddr, 1)]) (lst_sequenceNumber e)) (m_lsTable st)))
      | None => modify (set_lsTable (map_insert thisNode
          (mkLST [(neighAddr, 1)] (GetSequenceNumber lsMessage)) (m_lsTable st)))
      end;
      _ ← Dijkstra;
      SendLSTableMessage
  end.

(** The condition under which a table message is new. *)
Definition is_new_lsa (st : LSState) (fromNode : string) (seqNum : Z) : bool :=
  match map_find fromNode (m_lsTable st) with
  | None => true
  | Some entry => lst_sequenceNumber entry <? seqNum
  end.

Definition ProcessLSTableMessage (lsMessage : LSMessage) : H unit :=
  st ← get;
  let neighborAddrs := neighborCosts (GetLSTableMsg lsMessage) in
  let seqNum := GetSequenceNumber lsMessage in
  let fromNode := ReverseLookup st (GetOriginatorAddress lsMessage) in
  if is_new_lsa st fromNode seqNum then
    _ ← modify (fun st => set_lsTable (map_erase fromNode (m_lsTable st)) st);
    let newEntry := mkLST neighborAddrs seqNum in
    _ ← modify (fun st => set_lsTable (map_insert fromNode newEntry (m_lsTable st)) st);
    _ ← Dijkstra;
    BroadcastPacket (SetTTL (u8 (GetTTL lsMessage - 1)) lsMessage)
  else mret tt.

Definition RecvLSMessage (now : Time) (socket : SocketPtr) (lsMessage : LSMessage) : H unit :=
  let t := GetMessageType lsMessage in
  if t =? PING_REQ then ProcessPingReq lsMessage
  else if t =? PING_RSP then ProcessPingRsp lsMessage
  else if t =? HELLO_REQ then ProcessHelloReq now lsMessage socket
  else if t =? LS_TABLE_MSG then ProcessLSTableMessage lsMessage
  else mret tt.

(** ** Audits *)

Definition ping_expired (st : LSState) (now : Time) (r : PingRequest) : bool :=
  GetMilliSeconds (PingRequest_m_timestamp r) + GetMilliSeconds (m_pingTimeout st) <=? GetMilliSeconds now.

Definition AuditPings (now : Time) : H unit :=
  _ ← modify (fun st => set_pingTracker (erase_expired (ping_expired st now) (m_pingTracker st)) st);
  schedule_audit_pings now.

(** Erases the first pair of the address. *)
Fixpoint removeLSTableLink (nodeToRemove : Ipv4Address) (vectorToChange : list (Ipv4Address * Z))
    : list (Ipv4Address * Z) :=
  match vectorToChange with
  | [] => []
  | p :: v => if p.1 =? nodeToRemove then v else p :: removeLSTableLink nodeToRemove v
  end.

(** [removeLSTableLink (a, m_lsTable.find (node)->second.neighborCosts)] *)
Definition removeLink_at (node : string) (a : Ipv4Address) (st : LSState) : result LSState :=
  _ ← map_find node (m_lsTable st) ?? DerefEnd;
  Ok (set_lsTable (map_update node (fun e =>
    mkLST (removeLSTableLink a (lst_neighborCosts e)) (lst_sequenceNumber e)) (m_lsTable st)) st).

Definition hello_expired (st : LSState) (now : Time) (entry : NeighborTableEntry) : bool :=
  GetMilliSeconds (nt_lastUpdated entry) + GetMilliSeconds (m_helloTimeout st) <=? GetMilliSeconds now.

(** One neighbour of the audit loop. *)
Definition audit_neighbor (now : Time) (i : string * NeighborTableEntry) (st : LSState) : result LSState :=
  let entry := i.2 in
  if hello_expired st now entry then
    st ← removeLink_at (ReverseLookup st (m_mainAddress st)) (nt_neighborAddr entry) st;
    st ← removeLink_at (ReverseLookup st (nt_neighborAddr entry)) (m_mainAddress st) st;
    Ok (set_neighborTable (map_erase i.1 (m_neighborTable st)) st)
  else Ok st.

Definition AuditHellos (now : Time) : H unit :=
  _ ← SendHello;
  st ← get;
  let sendMsg := existsb (fun i => hello_expired st now i.2) (m_neighborTable st) in
  _ ← modifyM (fun st => foldM (fun st i => audit_neighbor now i st) st (m_neighborTable st));
  _ ← (if sendMsg then (_ ← Dijkstra; SendLSTableMessage) else mret tt);
  schedule_audit_hellos now.

(** ** Commands *)

Definition DumpNeighbors : H unit :=
  st ← get;
  for_loop (m_neighborTable st) (fun i =>
    emit (NeighborRow i.1 (nt_neighborAddr i.2) (nt_interfaceAddr i.2))).

Definition DumpRoutingTable : H unit :=
  st ← get;
  for_loop (m_routingTable st) (fun i =>
    let entry := i.2 in
    emit (RouteRow (ReverseLookup st (rt_destAddr entry)) (rt_destAddr entry) (rt_nextHopNum entry)
      (rt_nextHopAddr entry) (rt_interfaceAddr entry) (rt_cost entry))).

Definition DumpLSTable : H unit :=
  st ← get;
  for_loop (m_lsTable st) (fun i =>
    emit (LinkRow i.1 (map (fun nc => (ReverseLookup st nc.1, nc.2)) (lst_neighborCosts i.2)))).

(** [sin >> nodeNumber] on text that is no number leaves the variable
    unspecified (it is not initialised). *)
Definition ProcessCommand (now : Time) (tokens : list string) : H unit :=
  command ← lift (tokens !! 0%nat ?? DerefEnd);
  if String.eqb command "PING" then
    match tokens with
    | _ :: number :: pingMessage :: _ =>
        nodeNumber ← lift (read_uint32 number ?? UninitRead);
        st ← get;
        let destAddress := ResolveNodeIpAddress st nodeNumber in
        if negb (destAddress =? GetAny) then
          sequenceNumber ← GetNextSequenceNumber;
          let pingRequest := mkPingRequest sequenceNumber now destAddress pingMessage in
          _ ← modify (fun st => set_pingTracker (map_insert sequenceNumber pingRequest (m_pingTracker st)) st);
          let lsMessage := MakeLSMessage PING_REQ sequenceNumber (m_maxTTL st) (m_mainAddress st) in
          lsMessage ← lift (SetPingReq destAddress pingMessage lsMessage);
          BroadcastPacket lsMessage
        else mret tt
    | _ => mret tt
    end
  else if String.eqb command "DUMP" then
    match tokens with
    | _ :: table :: _ =>
        if String.eqb table "ROUTES" || String.eqb table "ROUTING" then DumpRoutingTable
        else if String.eqb table "NEIGHBORS" || String.eqb table "NEIGHBOURS" then DumpNeighbors
        else if String.eqb table "LSA" then DumpLSTable
        else mret tt
    | _ => mret tt
    end
  else if String.eqb command "HELLO" then SendHello
  else if String.eqb command "LSTABLEMSG" then SendLSTableMessage
  else mret tt.
End ls_routing.

Arguments LSState SR : clear implicits.
