(* ===== verification/LSDijkstra.v ===== *)
(** * LSDijkstra: [Dijkstra] computes shortest paths

    What LSRoutingProtocol::Dijkstra (ls-routing-protocol.cc) is meant to
    compute, as costs of paths in the graph the LS table describes, and the
    proof that it does: the loop invariant [Inv], preserved by every
    iteration, gives the costs, the next hops and the exact condition under
    which the function does not run into [end ()]. *)

From S2P Require Import Prelude StdMap StdString Ipv4Address LSMessage Node LSRouting.

Section dijkstra.
Context {SR : Type} (st : LSState SR).

Notation LS := (m_lsTable st).
Notation rname := (ReverseLookup st).
Notation NT := (m_neighborTable st).
Notation RT := (stdmap string RoutingTableEntry).

Definition this_node : string := ReverseLookup st (m_mainAddress st).

(** ** The graph of the LS table *)

(** [u] lists [v], at cost [w]. *)
Definition edge (u v : string) (w : Z) : Prop :=
  u <> v /\ (exists a, a ∈ GetNeighbors st u /\ rname a = v) /\ DistanceToNeighbor st u v = Ok w.

Inductive path : string -> string -> Z -> Prop :=
| path_nil u : path u u 0
| path_step u v x w c : edge u v w -> path v x c -> path u x (w + c).

Definition reachable (x : string) : Prop := exists c, path this_node x c.

(** What [Dijkstra] needs of the tables: this node has an entry, every
    listed neighbour has one, this node's neighbours are in the neighbour
    table, no name is empty, and path costs stay below the value that stands
    for infinity. *)
Record ls_ready : Prop := {
  ready_wf : map_wf LS;
  ready_self : is_Some (map_find this_node LS);
  ready_name : map_find EmptyString LS = None;
  ready_closed u a : a ∈ GetNeighbors st u -> is_Some (map_find (rname a) LS);
  ready_neighbors a : a ∈ GetNeighbors st this_node -> is_Some (map_find (rname a) NT);
  ready_costs u e a c : map_find u LS = Some e -> (a, c) ∈ lst_neighborCosts e ->
    0 <= c /\ c * Z.of_nat (length LS) < INT_MAX
}.

Lemma path_trans u v x c d : path u v c -> path v x d -> path u x (c + d).
Proof.
  induction 1 as [u|u v x' w c He Hp IH]; intros Hd; [done|].
  rewrite <- Z.add_assoc. econstructor; eauto.
Qed.

Lemma path_snoc u v x c w : path u v c -> edge v x w -> path u x (c + w).
Proof.
  intros Hp He. eapply path_trans; [done|]. rewrite <- (Z.add_0_r w).
  econstructor; [done|constructor].
Qed.

Lemma DistanceToNeighbor_self u : DistanceToNeighbor st u u = Ok 0.
Proof. unfold DistanceToNeighbor. by rewrite String.eqb_refl. Qed.

Lemma first_cost_in pairs a c0 : (a, c0) ∈ pairs -> exists b c,
  (b, c) ∈ pairs /\ rname b = rname a /\ first_cost st pairs (rname a) = c.
Proof.
  induction pairs as [|[b c] pairs IH]; [by intros ?%not_elem_of_nil|].
  intros Hin. cbn. destruct (String.eqb_spec (rname b) (rname a)) as [E|E].
  - exists b, c. split_and!; [left|done..].
  - apply elem_of_cons in Hin as [[= -> ->]|Hin]; [done|].
    destruct (IH Hin) as (b' & c' & ? & ? & ?). exists b', c'. split_and!; [by right|done..].
Qed.

Lemma GetNeighbors_elem u a : a ∈ GetNeighbors st u <->
  exists e c, map_find u LS = Some e /\ (a, c) ∈ lst_neighborCosts e.
Proof.
  unfold GetNeighbors. destruct (map_find u LS) as [e|].
  - rewrite list_elem_of_fmap. split.
    + intros ([b c] & -> & Hin). eauto.
    + intros (e' & c & [= <-] & Hin). by exists (a, c).
  - split; [by intros ?%not_elem_of_nil|naive_solver].
Qed.

Section ready.
Hypothesis R : ls_ready.

Definition max_cost : Z := (INT_MAX - 1) / Z.of_nat (length LS).

Lemma LS_size : (0 < length LS)%nat.
Proof using R.
  destruct (ready_self R) as [e He]. destruct LS; [done|cbn; lia].
Qed.

Lemma max_cost_bound : 0 <= max_cost /\ max_cost * Z.of_nat (length LS) < INT_MAX.
Proof using R.
  pose proof LS_size. unfold max_cost. split; [apply Z.div_pos; unfold INT_MAX; lia|].
  pose proof (Z.mul_div_le (INT_MAX - 1) (Z.of_nat (length LS))). lia.
Qed.

(** A listed neighbour's distance is defined and small. *)
Lemma listed_edge u a :
  a ∈ GetNeighbors st u -> rname a <> u -> exists w, edge u (rname a) w /\ 0 <= w <= max_cost.
Proof using R.
  intros Ha Hne. pose proof Ha as (e & c0 & He & Hin)%GetNeighbors_elem.
  destruct (first_cost_in _ _ _ Hin) as (b & c & Hb & Hn & Hc). exists c. split.
  - split_and!; [done|eauto|]. unfold DistanceToNeighbor.
    destruct (String.eqb_spec u (rname a)); [done|]. rewrite He. cbn. by rewrite Hc.
  - destruct (ready_costs R u e b c) as [? ?]; [done..|]. split; [done|].
    pose proof LS_size. apply Z.div_le_lower_bound; lia.
Qed.

Lemma edge_cost u v w : edge u v w -> 0 <= w <= max_cost.
Proof using R.
  intros (Hne & (a & Ha & <-) & Hd). destruct (listed_edge u a) as (w' & (_ & _ & Hd') & ?); [done..|].
  rewrite Hd in Hd'. by injection Hd' as ->.
Qed.

Lemma edge_target u v w : edge u v w -> is_Some (map_find v LS).
Proof using R. intros (_ & (a & Ha & <-) & _). by eapply ready_closed. Qed.

Lemma path_cost u x c : path u x c -> 0 <= c.
Proof using R. induction 1 as [|? ? ? ? ? H%edge_cost]; lia. Qed.

Lemma path_target u x c : path u x c -> is_Some (map_find u LS) -> is_Some (map_find x LS).
Proof using R. induction 1 as [|u v x w c He Hp IH]; [done|]. intros _. eapply IH, edge_target, He. Qed.

(** ** Choosing the closest node *)

(** What the scan of [GetMinCostNode] knows after a prefix of the table. *)
Definition min_so_far (rt : RT) (found : stdmap string bool) (acc : Z * string) : Prop :=
  acc.1 <= INT_MAX /\
  (forall x e, (x, e) ∈ rt -> map_find x found = Some false -> acc.1 <= rt_cost e) /\
  ((acc = (INT_MAX, EmptyString)) \/
   (acc.1 < INT_MAX /\ exists e, (acc.2, e) ∈ rt /\ rt_cost e = acc.1 /\ map_find acc.2 found = Some false)).

Lemma GetMinCostNode_scan (rt : RT) found :
  (forall x e, (x, e) ∈ rt -> is_Some (map_find x found)) ->
  exists acc, GetMinCostNode rt found = Ok acc.2 /\ min_so_far rt found acc.
Proof.
  intros Hk. unfold GetMinCostNode.
  edestruct (foldM_prefix (fun l acc => min_so_far l found acc)) as (acc & Heq & Hacc).
  3: { eexists; split; [|exact Hacc]. rewrite Heq. done. }
  { split_and!; [cbn; lia| |by left]. by intros ? ? ?%not_elem_of_nil. }
  intros l1 [x e] l2 acc -> (Hle & Hmin & Hor).
  destruct (Hk x e) as [b Hb]; [apply elem_of_app; right; left|]. cbn [fst snd]. rewrite Hb. cbn [or_fault mbind result_bind].
  assert (forall P : Prop, (b = false -> P) -> (b = true -> P) -> P) as Hbool by (intros; destruct b; auto).
  destruct (negb b && (rt_cost e <? acc.1)) eqn:Hlt.
  - destruct b; [done|]. cbn in Hlt |- *. rewrite Hlt. eexists; split; [done|]. apply Z.ltb_lt in Hlt.
    split_and!; cbn; [lia| |right].
    + intros y ey [Hin|[= -> ->]%list_elem_of_singleton]%elem_of_app Hy; [|lia].
      specialize (Hmin y ey Hin Hy). lia.
    + split; [lia|]. exists e. split_and!; [apply elem_of_app; right; left|done..].
  - assert ((if negb b then if rt_cost e <? acc.1 then Ok (rt_cost e, x) else Ok acc else Ok acc) = Ok acc) as Hsame.
    { destruct b; cbn in *; [done|]. by rewrite Hlt. }
    exists acc. split; [exact Hsame|]. split_and!; [done| |].
    + intros y ey [Hin|[= -> ->]%list_elem_of_singleton]%elem_of_app Hy; [by eapply Hmin|].
      rewrite Hb in Hy. injection Hy as ->. cbn in Hlt. apply Z.ltb_ge in Hlt. lia.
    + destruct Hor as [?|(? & e' & ? & ?)]; [by left|right]. split; [done|].
      exists e'. split; [apply elem_of_app; by left|done].
Qed.

(** ** The loop invariant *)

Definition self_entry : RoutingTableEntry :=
  mkRT (m_mainAddress st) (m_mainAddress st) (m_mainAddress st) (m_mainAddress st) 0.

(** The entry of [x] describes a path: its cost, and the first hop with the
    interface towards it. *)
Definition entry_ok (x : string) (e : RoutingTableEntry) : Prop :=
  path this_node x (rt_cost e) /\ rname (rt_destAddr e) = x /\
  (x = this_node -> e = self_entry) /\
  (x <> this_node -> exists w c nt,
    rt_nextHopAddr e ∈ GetNeighbors st this_node /\
    edge this_node (rname (rt_nextHopAddr e)) w /\ path (rname (rt_nextHopAddr e)) x c /\
    rt_cost e = w + c /\ rt_nextHopNum e = rt_nextHopAddr e /\
    map_find (rname (rt_nextHopAddr e)) NT = Some nt /\ rt_interfaceAddr e = nt_interfaceAddr nt).

(** Entries are right, stay on LS nodes and below [k] times the largest cost. *)
Definition table_ok (k : Z) (rt : RT) : Prop :=
  map_wf rt /\ map_find this_node rt = Some self_entry /\
  (forall x e, map_find x rt = Some e -> entry_ok x e /\ is_Some (map_find x LS) /\ 0 <= rt_cost e <= max_cost * k).

Definition done_count (found : stdmap string bool) : nat := length (filter (fun p => p.2 = true) found).

Record Inv (k : nat) (rt : RT) (found : stdmap string bool) : Prop := {
  inv_table : table_ok (Z.of_nat k) rt;
  inv_fwf : map_wf found;
  inv_keys : map_keys found = map_keys LS;
  inv_count : done_count found = k;
  inv_self : map_find this_node found = Some true;
  inv_done x : map_find x found = Some true -> is_Some (map_find x rt);
  inv_relaxed u eu v w : map_find u found = Some true -> map_find u rt = Some eu -> edge u v w ->
    exists ev, map_find v rt = Some ev /\ rt_cost ev <= rt_cost eu + w;
  inv_mono u eu v ev : map_find u found = Some true -> map_find u rt = Some eu ->
    map_find v found = Some false -> map_find v rt = Some ev -> rt_cost eu <= rt_cost ev
}.

(** ** One relaxation *)

Lemma entry_extend s v ec e w nbr nt :
  entry_ok s ec -> s <> this_node -> v <> this_node -> edge s v w ->
  map_find (rname (rt_nextHopAddr ec)) NT = Some nt -> rname nbr = v ->
  e = mkRT nbr (rt_nextHopAddr ec) (rt_nextHopAddr ec) (nt_interfaceAddr nt) (rt_cost ec + w) ->
  entry_ok v e.
Proof.
  intros (Hp & _ & _ & Hhop) Hs Hv He Hnt Hn ->. split_and!; cbn.
  - by eapply path_snoc.
  - done.
  - done.
  - intros _. destruct (Hhop Hs) as (w0 & c0 & nt' & Hin & He0 & Hp0 & Hc & _ & Hnt' & _).
    exists w0, (c0 + w), nt. split_and!; try done; [by eapply path_snoc|lia].
Qed.

(** Either nothing changes, because the known cost is as good, or the entry of
    the neighbour is replaced by the path through the current node. *)
Lemma relax_spec K rt s ec nbr :
  table_ok K rt -> map_find s rt = Some ec -> s <> this_node -> nbr ∈ GetNeighbors st s ->
  rt_cost ec + max_cost < INT_MAX ->
  exists rt', relax st s rt nbr = Ok rt' /\ map_wf rt' /\
    ((rt' = rt /\ (rname nbr = s \/ exists e w, map_find (rname nbr) rt = Some e /\
        edge s (rname nbr) w /\ rt_cost e <= rt_cost ec + w)) \/
     (exists w e', edge s (rname nbr) w /\ entry_ok (rname nbr) e' /\ rt_cost e' = rt_cost ec + w /\
        (forall e, map_find (rname nbr) rt = Some e -> rt_cost e' < rt_cost e) /\
        (forall x, map_find x rt' = if decide (rname nbr = x) then Some e' else map_find x rt))).
Proof using R.
  intros (Hwf & Hself & Hok) Hs Hne Hnbr Hbound. unfold relax. rewrite Hs. cbn [or_fault mbind result_bind].
  destruct (Hok s ec Hs) as (Hes & _ & [Hc0 _]).
  destruct (decide (rname nbr = s)) as [Heq|Hneq].
  { rewrite Heq, DistanceToNeighbor_self, Hs. cbn [mbind result_bind].
    rewrite Z.add_0_r, u32_small by (unfold is_u32, INT_MAX in *; pose proof max_cost_bound; lia).
    rewrite Z.ltb_irrefl. exists rt. split_and!; auto. }
  destruct (listed_edge s nbr Hnbr Hneq) as (w & He & Hw).
  pose proof He as (_ & _ & Hd). rewrite Hd. cbn [mbind result_bind].
  rewrite u32_small by (unfold is_u32, INT_MAX in *; lia).
  destruct Hes as (Hps & Hds & Hts & Hhop).
  destruct (Hhop Hne) as (w0 & c0 & nt & Hin & He0 & Hp0 & Hc & Hnum & Hnt & Hif).
  assert (forall nbr' ov, rname nbr' = rname nbr -> rname nbr <> this_node ->
    ov = mkRT nbr' (rt_nextHopAddr ec) (rt_nextHopAddr ec) (nt_interfaceAddr nt) (rt_cost ec + w) ->
    entry_ok (rname nbr) ov) as Hnew.
  { intros nbr' ov Hn Hv ->. by eapply (entry_extend s (rname nbr) ec). }
  destruct (map_find (rname nbr) rt) as [e|] eqn:Hv.
  - destruct (Hok _ _ Hv) as ((_ & Hdv & Htv & _) & _ & [Hcv _]).
    destruct (Z.ltb_spec (rt_cost ec + w) (rt_cost e)) as [Hlt|Hge].
    + rewrite Hnt. cbn [or_fault mbind result_bind]. eexists; split_and!; [done|by apply map_wf_update|right].
      eexists w, _. split_and!; [done| | | |].
      * eapply (Hnew (rt_destAddr e)); [done| |reflexivity].
        intros Hthis. specialize (Htv Hthis). subst e. cbn in *. lia.
      * done.
      * intros e' [= <-]. done.
      * intros x. rewrite map_find_update. case_decide; [by rewrite Hv|done].
    + exists rt. split_and!; [done..|]. left. eauto 10.
  - destruct (Z.ltb_spec (rt_cost ec + w) INT_MAX) as [Hlt|Hge]; [|lia].
    rewrite Hnt. cbn [or_fault mbind result_bind]. eexists; split_and!; [done|by apply map_wf_insert|right].
    eexists w, _. split_and!; [done| | | |].
    + eapply (Hnew nbr); [done| |reflexivity]. intros Hthis. congruence.
    + done.
    + done.
    + intros x. rewrite map_find_insert, Hv. by case_decide.
Qed.

(** ** The inner loop *)

(** After relaxing the neighbours [l] of [s], starting from [rt0]. *)
Record relaxing (K : Z) (found : stdmap string bool) (rt0 : RT) (s : string) (ec : RoutingTableEntry)
    (l : list Ipv4Address) (rt : RT) : Prop := {
  rx_table : table_ok K rt;
  rx_done u : map_find u found = Some true -> map_find u rt = map_find u rt0;
  rx_less x e : map_find x rt0 = Some e -> exists e', map_find x rt = Some e' /\ rt_cost e' <= rt_cost e;
  rx_mono x e : map_find x rt = Some e -> map_find x found = Some false -> rt_cost ec <= rt_cost e;
  rx_relaxed a : a ∈ l -> rname a <> s -> exists e w, map_find (rname a) rt = Some e /\
    DistanceToNeighbor st s (rname a) = Ok w /\ rt_cost e <= rt_cost ec + w
}.

Lemma relax_step K k found rt0 s ec l rt nbr :
  K = Z.of_nat (S k) -> (S k <= length LS)%nat ->
  map_keys found = map_keys LS ->
  map_find s found = Some true -> s <> this_node -> map_find this_node found = Some true ->
  map_find s rt0 = Some ec -> rt_cost ec <= max_cost * Z.of_nat k ->
  (forall u eu, map_find u found = Some true -> map_find u rt0 = Some eu -> rt_cost eu <= rt_cost ec) ->
  (forall u, map_find u found = Some true -> is_Some (map_find u rt0)) ->
  nbr ∈ GetNeighbors st s ->
  relaxing K found rt0 s ec l rt ->
  exists rt', relax st s rt nbr = Ok rt' /\ relaxing K found rt0 s ec (l ++ [nbr]) rt'.
Proof using R.
  intros -> Hk Hkeys Hs Hne Hthis Hec Hcost Hdone Hin0 Hnbr [Htab Hd Hless Hmono Hrel].
  pose proof max_cost_bound as [Hmc Hmb].
  assert (max_cost * Z.of_nat (S k) <= max_cost * Z.of_nat (length LS)) as Hkb by (apply Z.mul_le_mono_nonneg_l; lia).
  rewrite Nat2Z.inj_succ, Z.mul_succ_r in Hkb.
  pose proof Htab as (Hwf & Hself & Hok).
  assert (map_find s rt = Some ec) as Hsrt by (by rewrite Hd).
  destruct (relax_spec (Z.of_nat (S k)) rt s ec nbr) as (rt' & Hr & Hwf' & Hcase); [done..|lia|].
  exists rt'. split; [done|]. destruct Hcase as [(-> & Hold)|(w & e' & He & Hok' & Hc' & Hlt & Hfind)].
  { split; [done..|]. intros a [Ha|<-%list_elem_of_singleton]%elem_of_app Hna; [by apply Hrel|].
    destruct Hold as [?|(e & w & ? & (_ & _ & ?) & ?)]; [done|eauto 10]. }
  assert (map_find (rname nbr) found <> Some true) as Hnd.
  { intros Ht. destruct (Hin0 _ Ht) as [e0 He0]. pose proof (Hdone _ _ Ht He0).
    specialize (Hlt e0). rewrite Hd in Hlt by done. specialize (Hlt He0).
    apply edge_cost in He. lia. }
  pose proof (edge_cost _ _ _ He) as Hw. destruct (Hok s ec Hsrt) as (_ & _ & [Hc0 _]).
  split.
  - split_and!; [done| |].
    + rewrite Hfind. case_decide as E; [|done]. congruence.
    + intros x e. rewrite Hfind. case_decide as E; [|apply Hok]. intros [= <-]. subst x.
      split_and!; [done|by eapply edge_target|lia|]. rewrite Nat2Z.inj_succ, Z.mul_succ_r. lia.
  - intros u Hu. rewrite Hfind. case_decide; [congruence|auto].
  - intros x e Hx. destruct (Hless x e Hx) as (e1 & He1 & Hle). rewrite Hfind.
    case_decide; [subst|eauto]. exists e'. split; [done|]. specialize (Hlt e1 He1). lia.
  - intros x e. rewrite Hfind. case_decide; [intros [= <-] _; lia|apply Hmono].
  - intros a Ha Hna. rewrite Hfind. apply elem_of_app in Ha as [Ha| ->%list_elem_of_singleton].
    + destruct (Hrel a Ha Hna) as (e1 & w1 & He1 & Hd1 & Hle). case_decide as E; [|eauto].
      exists e', w1. split_and!; [done..|]. rewrite <- E in He1. specialize (Hlt e1 He1). lia.
    + rewrite decide_True by done. exists e', w. split_and!; [done| |lia]. by destruct He as (_ & _ & ?).
Qed.

(** ** Counting finished nodes *)

Lemma done_count_update found x :
  map_wf found -> map_find x found = Some false ->
  done_count (map_update x (fun _ => true) found) = S (done_count found).
Proof.
  unfold done_count. induction found as [|[y b] found IH]; [done|].
  intros [Hwf _]%map_wf_cons. cbn [map_find map_update]. case_decide as E.
  - intros [= ->]. by rewrite !filter_cons, decide_True, decide_False.
  - intros Hx. rewrite !filter_cons. cbn [snd]. case_decide; cbn [length]; rewrite IH; done.
Qed.

Lemma done_count_all found x b :
  done_count found = length found -> map_find x found = Some b -> b = true.
Proof.
  unfold done_count. intros Hc Hx%map_find_elem. revert Hc Hx.
  induction found as [|p found IH]; [by intros _ ?%not_elem_of_nil|].
  rewrite filter_cons. pose proof (length_filter (fun p : string * bool => p.2 = true) found) as Hl.
  case_decide as E; cbn [length]; intros Hc [Hp|Hx]%elem_of_cons; try lia; [by subst p|auto].
Qed.

Lemma keys_is_Some {V} (found : stdmap string V) x :
  map_keys found = map_keys LS -> is_Some (map_find x found) <-> is_Some (map_find x LS).
Proof. intros Hk. by rewrite !map_find_is_Some, Hk. Qed.

(** ** One iteration *)

Lemma found_cases (found : stdmap string bool) x : map_keys found = map_keys LS -> is_Some (map_find x LS) ->
  map_find x found = Some true \/ map_find x found = Some false.
Proof. intros Hk Hx. apply (keys_is_Some found) in Hx as [[] ?]; auto. Qed.

Lemma Inv_keys_rt k rt found x e : Inv k rt found -> map_find x rt = Some e -> is_Some (map_find x found).
Proof.
  intros HI Hx. apply (keys_is_Some found); [apply HI|].
  destruct (inv_table _ _ _ HI) as (_ & _ & Hok). by apply (Hok x e).
Qed.

(** A path that leaves the finished nodes crosses an edge out of them. *)
Lemma frontier found u x c :
  map_find u found = Some true -> map_find x found <> Some true -> path u x c ->
  exists v v' w, map_find v found = Some true /\ map_find v' found <> Some true /\ edge v v' w.
Proof.
  intros Hu Hx Hp. induction Hp as [u|u v x w c He Hp IH]; [done|].
  destruct (decide (map_find v found = Some true)) as [Hv|Hv]; [by apply IH|eauto 10].
Qed.

(** If no unfinished node has an entry, every unfinished node is unreachable. *)
Lemma stuck_unreachable k rt found x :
  Inv k rt found -> (k < length LS)%nat ->
  (forall y e, map_find y rt = Some e -> map_find y found = Some false -> INT_MAX <= rt_cost e) ->
  map_find x found = Some false -> ~ reachable x.
Proof using R.
  intros HI Hk Hmin Hx [c Hp]. destruct (frontier found this_node x c) as (v & v' & w & Hv & Hv' & He);
    [apply HI|congruence|done|].
  destruct (inv_done _ _ _ HI v Hv) as [ev Hev].
  destruct (inv_relaxed _ _ _ HI v ev v' w Hv Hev He) as (ev' & Hev' & Hle).
  destruct (Inv_keys_rt _ _ _ _ _ HI Hev') as [[] Hb]; [done|].
  specialize (Hmin v' ev' Hev' Hb).
  destruct (inv_table _ _ _ HI) as (_ & _ & Hok). destruct (Hok _ _ Hev') as (_ & _ & [_ Hc]).
  pose proof max_cost_bound as [Hm0 Hm].
  assert (max_cost * Z.of_nat k <= max_cost * Z.of_nat (length LS)) by (apply Z.mul_le_mono_nonneg_l; lia).
  lia.
Qed.

Lemma unfinished_node k rt found : Inv k rt found -> (k < length LS)%nat ->
  exists x, is_Some (map_find x LS) /\ map_find x found = Some false.
Proof.
  intros HI Hk. pose proof (inv_count _ _ _ HI) as Hc. unfold done_count in Hc.
  assert (length found = length LS) as Hl.
  { pose proof (f_equal (@length _) (inv_keys _ _ _ HI)) as E. unfold map_keys in E.
    by rewrite !length_fmap in E. }
  destruct (decide (Exists (fun p => p.2 = false) found)) as [He|He].
  - apply Exists_exists in He as ([x b] & Hin & Hb). cbn in Hb; subst.
    assert (map_find x found = Some false) as Hx by (apply map_elem_find; [apply HI|done]).
    exists x. split; [|done]. apply (keys_is_Some found); [apply HI|eauto].
  - exfalso. rewrite <- Hl in Hk. clear Hl HI. revert Hc He Hk.
    assert (forall l : stdmap string bool, ~ Exists (fun p => p.2 = false) l ->
      filter (fun p => p.2 = true) l = l) as Hall.
    { induction l as [|p l IH]; [done|]. intros Hn. rewrite filter_cons, decide_True.
      - rewrite IH; [done|]. intros ?; apply Hn; by right.
      - destruct (p.2) eqn:E; [done|]. destruct Hn. by left. }
    intros Hc He Hk. rewrite Hall in Hc by done. lia.
Qed.

Lemma Inv_next k rt found s es rt' :
  Inv k rt found -> (S k <= length LS)%nat ->
  map_find s rt = Some es -> map_find s found = Some false ->
  relaxing (Z.of_nat (S k)) (map_update s (fun _ => true) found) rt s es (GetNeighbors st s) rt' ->
  Inv (S k) rt' (map_update s (fun _ => true) found).
Proof using R.
  intros HI Hk Hs Hsf [Htab Hd Hless Hmono Hrel].
  assert (forall u, map_find u (map_update s (fun _ => true) found) = Some true <->
    u = s \/ map_find u found = Some true) as Htrue.
  { intros u. rewrite map_find_update, Hsf. case_decide; cbn; naive_solver. }
  assert (forall u, map_find u (map_update s (fun _ => true) found) = Some false <->
    u <> s /\ map_find u found = Some false) as Hfalse.
  { intros u. rewrite map_find_update, Hsf. case_decide; cbn; naive_solver. }
  split.
  - done.
  - apply map_wf_update, HI.
  - rewrite map_keys_update. apply HI.
  - rewrite done_count_update; [by rewrite (inv_count _ _ _ HI)|apply HI|done].
  - apply Htrue. right. apply HI.
  - intros u Hu. rewrite Hd by done. apply Htrue in Hu as [->|Hu]; [eauto|by eapply inv_done].
  - intros u eu v w Hu Heu He. pose proof Hu as Hu'. rewrite Hd in Heu by done.
    apply Htrue in Hu as [->|Hu].
    + assert (eu = es) as -> by congruence. destruct He as (Hne & (a & Ha & <-) & Hdist).
      destruct (Hrel a Ha) as (e & w' & ? & Hw' & ?); [congruence|]. exists e. split; [done|].
      rewrite Hdist in Hw'. by injection Hw' as ->.
    + destruct (inv_relaxed _ _ _ HI u eu v w) as (ev & Hev & Hle); [done..|].
      destruct (Hless _ _ Hev) as (ev' & ? & ?). exists ev'. split; [done|lia].
  - intros u eu v ev Hu Heu Hv Hev. rewrite Hd in Heu by done.
    pose proof (Hmono v ev Hev Hv). apply Htrue in Hu as [->|Hu]; [|].
    + by assert (eu = es) as -> by congruence.
    + pose proof (inv_mono _ _ _ HI u eu s es Hu Heu Hsf Hs). lia.
Qed.

(** An iteration finishes one more node, or the unfinished nodes are
    unreachable and [leastCostFound.find ("")] is dereferenced. *)
Lemma Dijkstra_step_spec k rt found :
  Inv k rt found -> (k < length LS)%nat ->
  (exists rt' found', Dijkstra_step st rt found = Ok (rt', found') /\ Inv (S k) rt' found') \/
  (Dijkstra_step st rt found = Fault DerefEnd /\ exists x, is_Some (map_find x LS) /\ ~ reachable x).
Proof using R.
  intros HI Hk. pose proof (inv_table _ _ _ HI) as (Hwf & Hself & Hok).
  destruct (GetMinCostNode_scan rt found) as ((mc & s) & Hs & Hle & Hmin & Hor).
  { intros x e Hin. eapply Inv_keys_rt; [done|]. by apply map_elem_find. }
  unfold Dijkstra_step. rewrite Hs. cbn [fst snd mbind result_bind] in *. unfold mark_found.
  destruct Hor as [[= -> ->]|(Hlt & es & Hin & Hes & Hsf)].
  - right. assert (map_find EmptyString found = None) as ->.
    { destruct (map_find EmptyString found) eqn:E; [|done].
      assert (is_Some (map_find EmptyString LS)) as Hx by (apply (keys_is_Some found); [apply HI|eauto]).
      rewrite (ready_name R) in Hx. by destruct Hx. }
    split; [done|]. destruct (unfinished_node k rt found) as (x & Hx & Hxf); [done..|].
    exists x. split; [done|]. eapply stuck_unreachable; [done..| |done].
    intros y e Hy Hyf. eapply Hmin; [by apply map_find_elem|done].
  - left. cbn [fst snd] in *. rewrite Hsf. cbn [or_fault mbind result_bind].
    assert (map_find s rt = Some es) as Hsrt by by apply map_elem_find.
    assert (s <> this_node) as Hne by (intros ->; rewrite (inv_self _ _ _ HI) in Hsf; done).
    set (found' := map_update s (fun _ => true) found).
    assert (forall u, map_find u found' = Some true -> u = s \/ map_find u found = Some true) as Htrue.
    { intros u. unfold found'. rewrite map_find_update, Hsf. case_decide; cbn; auto. }
    destruct (foldM_prefix (relaxing (Z.of_nat (S k)) found' rt s es) (relax st s) (GetNeighbors st s) rt)
      as (rt' & Hf & Hrx).
    + split; [|done|by intros x e ?; exists e| |by intros ? ?%not_elem_of_nil].
      * split_and!; [done..|]. intros x e Hx. destruct (Hok x e Hx) as (? & ? & ?). split_and!; try done; [lia|].
        rewrite Nat2Z.inj_succ, Z.mul_succ_r. pose proof max_cost_bound. lia.
      * intros x e Hx Hxf. rewrite Hes. eapply Hmin; [by apply map_find_elem|].
        unfold found' in Hxf. rewrite map_find_update, Hsf in Hxf. by case_decide.
    + intros l1 a l2 x Hl Hx. eapply relax_step; try done.
      * unfold found'. rewrite map_keys_update. apply HI.
      * unfold found'. by rewrite map_find_update, decide_True, Hsf.
      * unfold found'. rewrite map_find_update, decide_False by done. apply HI.
      * by apply (Hok s es).
      * intros u eu [->|Hu]%Htrue Heu; [by assert (eu = es) as -> by congruence|].
        by eapply (inv_mono _ _ _ HI u eu s es).
      * intros u [->|Hu]%Htrue; [eauto|by eapply inv_done].
      * rewrite Hl. apply elem_of_app. right. left.
    + rewrite Hf. cbn [mbind result_bind]. exists rt', found'. split; [done|].
      by eapply Inv_next.
Qed.

(** ** Initialisation *)

Definition direct_costs (rt : RT) : Prop := forall x e, x <> this_node -> map_find x rt = Some e ->
  DistanceToNeighbor st this_node x = Ok (rt_cost e).

Lemma init_step rt a :
  a ∈ GetNeighbors st this_node -> table_ok 1 rt -> direct_costs rt ->
  exists rt', (nt ← map_find (rname a) NT ?? DerefEnd;
      d ← DistanceToNeighbor st this_node (rname a);
      Ok (map_insert (rname a) (mkRT a a a (nt_interfaceAddr nt) d) rt)) = Ok rt' /\ table_ok 1 rt' /\ direct_costs rt' /\
    (forall x e, map_find x rt = Some e -> map_find x rt' = Some e) /\ is_Some (map_find (rname a) rt').
Proof using R.
  intros Ha (Hwf & Hself & Hok) Hdir. destruct (ready_neighbors R a Ha) as [nt Hnt].
  rewrite Hnt. cbn [or_fault mbind result_bind].
  destruct (decide (rname a = this_node)) as [Heq|Hne].
  { rewrite Heq, DistanceToNeighbor_self. cbn [mbind result_bind].
    rewrite (map_insert_find_Some _ _ self_entry) by done.
    exists rt. split_and!; eauto. by split. }
  destruct (listed_edge this_node a Ha Hne) as (w & He & Hw).
  pose proof He as (_ & _ & ->). cbn [mbind result_bind].
  eexists; split; [done|].
  assert (forall x, map_find x (map_insert (rname a) (mkRT a a a (nt_interfaceAddr nt) w) rt) =
    if decide (rname a = x) then Some (default (mkRT a a a (nt_interfaceAddr nt) w) (map_find (rname a) rt))
    else map_find x rt) as Hfind by (intros; by rewrite map_find_insert).
  split_and!.
  - split_and!; [by apply map_wf_insert| |].
    + rewrite Hfind. by case_decide.
    + intros x e. rewrite Hfind. case_decide as E; [|apply Hok]. subst x.
      destruct (map_find (rname a) rt) as [e0|] eqn:Hx; cbn; intros [= <-]; [by apply Hok|].
      split_and!; [|by eapply edge_target|cbn; lia|cbn; lia]. split_and!; cbn; [|done|done|].
      * replace w with (0 + w) by lia. eapply path_snoc; [constructor|done].
      * intros _. exists w, 0, nt. split_and!; try done; [constructor|lia].
  - intros x e Hx. rewrite Hfind. case_decide as E; [|by apply Hdir]. subst x.
    destruct (map_find (rname a) rt) as [e0|] eqn:Hx0; cbn; intros [= <-]; [by apply Hdir|].
    by destruct He as (_ & _ & ?).
  - intros x e Hx. rewrite Hfind. case_decide as E; [|done]. subst x. by rewrite Hx.
  - rewrite Hfind, decide_True by done. eauto.
Qed.

Lemma Dijkstra_init_spec : exists rt, Dijkstra_init st this_node = Ok rt /\ table_ok 1 rt /\ direct_costs rt /\
  forall a, a ∈ GetNeighbors st this_node -> is_Some (map_find (rname a) rt).
Proof using R.
  unfold Dijkstra_init.
  edestruct (foldM_prefix (fun l rt => table_ok 1 rt /\ direct_costs rt /\ forall a, a ∈ l -> is_Some (map_find (rname a) rt)))
    as (rt & Hf & Hrt & Hdir & Hall); [| |exists rt; split_and!; [exact Hf|done..]].
  - split_and!; [|intros x e Hx; cbn; by case_decide|by intros ? ?%not_elem_of_nil].
    split_and!; [apply map_wf_insert, map_wf_nil|cbn; by rewrite decide_True|].
    intros x e. cbn. case_decide as E; [|done]. intros [= <-]. pose proof max_cost_bound.
    split_and!; [|subst; apply (ready_self R)|cbn; lia|cbn; lia].
    split_and!; cbn; [subst; constructor|by subst|done|done].
  - intros l1 a l2 rt Hl (Hrt & Hdir & Hall).
    destruct (init_step rt a) as (rt' & Heq & Hrt' & Hdir' & Hkeep & Hin);
      [rewrite Hl; apply elem_of_app; right; left|done..|].
    exists rt'. split; [exact Heq|]. split_and!; [done..|].
    intros b [Hb|Hb%list_elem_of_singleton]%elem_of_app; [|by subst].
    destruct (Hall b Hb) as [e He]. eauto.
Qed.

(** The map of unfinished nodes. *)
Lemma init_found_find (l : stdmap string LSTableEntry) (m : stdmap string bool) x :
  map_find x (foldl (fun m it => map_insert it.1 false m) m l) =
    match map_find x m with Some b => Some b | None => if decide (x ∈ map_keys l) then Some false else None end.
Proof.
  revert m; induction l as [|[y e] l IH]; intros m; cbn [foldl].
  - destruct (map_find x m); [done|]. rewrite decide_False; [done|apply not_elem_of_nil].
  - rewrite IH, map_find_insert. cbn [fst]. destruct (decide (y = x)) as [->|E].
    + destruct (map_find x m); cbn; [done|]. rewrite decide_True; [done|]. left.
    + destruct (map_find x m); [done|]. destruct (decide (x ∈ map_keys l)).
      * rewrite decide_True; [done|]. by right.
      * rewrite decide_False; [done|]. intros [Hx|?]%elem_of_cons; [cbn in Hx; congruence|done].
Qed.

Lemma init_found_wf (l : stdmap string LSTableEntry) (m : stdmap string bool) :
  map_wf m -> map_wf (foldl (fun m it => map_insert it.1 false m) m l).
Proof. revert m; induction l as [|p l IH]; intros m Hm; cbn; [done|]. by apply IH, map_wf_insert. Qed.

Lemma map_const_wf (l : stdmap string LSTableEntry) :
  map_wf l -> map_wf (map (fun p => (p.1, false)) l).
Proof.
  induction l as [|[y e] l IH]; [intros; apply map_wf_nil|].
  intros [Hw Hf]%map_wf_cons. cbn [map fst]. apply map_wf_cons. split; [by apply IH|].
  apply Forall_map. by eapply Forall_impl.
Qed.

Lemma done_count_const (l : stdmap string LSTableEntry) : done_count (map (fun p => (p.1, false)) l) = 0%nat.
Proof.
  unfold done_count. induction l as [|p l IH]; [done|]. cbn [map]. rewrite filter_cons.
  by case_decide.
Qed.

Lemma init_found_eq : foldl (fun m it => map_insert it.1 false m) [] LS = map (fun p => (p.1, false)) LS.
Proof using R.
  apply map_ext; [apply init_found_wf, map_wf_nil|apply map_const_wf, R|].
  intros x. rewrite init_found_find. cbn. clear R. induction LS as [|[y e] l IH]; [done|].
  cbn [map map_find fst]. destruct (decide (x = y)) as [->|E].
  - rewrite decide_True; [done|]. left.
  - rewrite <- IH. destruct (decide (x ∈ map_keys l)).
    + rewrite decide_True; [done|]. by right.
    + rewrite decide_False; [done|]. intros [Hx|?]%elem_of_cons; [cbn in Hx; congruence|done].
Qed.

Lemma Inv_init rt :
  table_ok 1 rt -> (forall a, a ∈ GetNeighbors st this_node -> is_Some (map_find (rname a) rt)) ->
  direct_costs rt ->
  Inv 1 rt (map_update this_node (fun _ => true) (map (fun p => (p.1, false)) LS)).
Proof using R.
  intros Htab Hnb Hdirect. pose proof Htab as (Hwf & Hself & Hok).
  set (f0 := map (fun p : string * LSTableEntry => (p.1, false)) LS).
  assert (map_keys f0 = map_keys LS) as Hk0 by (unfold f0, map_keys; by rewrite map_map).
  assert (forall x b, map_find x f0 = Some b -> b = false) as Hf0.
  { intros x b (p & [= _ ->] & _)%map_find_elem%list_elem_of_fmap. done. }
  assert (map_find this_node f0 = Some false) as Hthis.
  { destruct (ready_self R) as [e He]. assert (is_Some (map_find this_node f0)) as [b Hb].
    - apply (keys_is_Some f0); eauto.
    - by rewrite Hb, (Hf0 _ _ Hb). }
  assert (map_wf f0) as Hf0wf by apply map_const_wf, R.
  assert (forall u, map_find u (map_update this_node (fun _ => true) f0) = Some true -> u = this_node) as Htrue.
  { intros u. rewrite map_find_update. case_decide; [done|]. intros Hu. by specialize (Hf0 _ _ Hu). }
  split.
  - done.
  - by apply map_wf_update.
  - by rewrite map_keys_update.
  - rewrite done_count_update by done. f_equal. apply done_count_const.
  - by rewrite map_find_update, decide_True, Hthis.
  - intros u ->%Htrue. eauto.
  - intros u eu v w ->%Htrue Heu He. assert (eu = self_entry) as -> by congruence.
    pose proof He as (_ & (a & Ha & <-) & _). destruct (Hnb a Ha) as [ev Hev]. exists ev.
    split; [done|].
    cbn. destruct He as (Hne & _ & Hd). rewrite (Hdirect (rname a) ev) in Hd by done.
    injection Hd as ->. lia.
  - intros u eu v ev ->%Htrue Heu _ Hev. assert (eu = self_entry) as -> by congruence.
    cbn. by apply (Hok v ev).
Qed.

(** ** The whole algorithm *)

Lemma Dijkstra_loop_spec n k rt found :
  Inv k rt found -> (k + n = length LS)%nat ->
  (exists rt' found', Dijkstra_loop st n rt found = Ok rt' /\ Inv (length LS) rt' found') \/
  (Dijkstra_loop st n rt found = Fault DerefEnd /\ exists x, is_Some (map_find x LS) /\ ~ reachable x).
Proof using R.
  revert k rt found; induction n as [|n IH]; intros k rt found HI Hk; cbn [Dijkstra_loop].
  - left. exists rt, found. split; [done|]. by replace (length LS) with k by lia.
  - destruct (Dijkstra_step_spec k rt found HI) as [(rt' & found' & -> & HI')|[-> Hx]]; [lia| |by right].
    cbn [mbind result_bind]. apply (IH (S k)); [done|lia].
Qed.

Lemma Dijkstra_table_spec :
  (exists rt found, Dijkstra_table st = Ok rt /\ Inv (length LS) rt found) \/
  (Dijkstra_table st = Fault DerefEnd /\ exists x, is_Some (map_find x LS) /\ ~ reachable x).
Proof using R.
  unfold Dijkstra_table. fold this_node.
  destruct Dijkstra_init_spec as (rt & -> & Htab & Hdir & Hnb). cbn [mbind result_bind].
  rewrite init_found_eq. pose proof (Inv_init rt Htab Hnb Hdir) as HI. unfold mark_found.
  assert (is_Some (map_find this_node (map (fun p : string * LSTableEntry => (p.1, false)) LS))) as [b ->].
  { apply keys_is_Some; [|apply (ready_self R)]. unfold map_keys. by rewrite map_map. }
  cbn [or_fault mbind result_bind]. pose proof LS_size. apply (Dijkstra_loop_spec _ 1); [done|lia].
Qed.

Lemma Inv_all_found rt found x :
  Inv (length LS) rt found -> is_Some (map_find x LS) -> map_find x found = Some true.
Proof.
  intros HI Hx. destruct (found_cases found x) as [|Hf]; [apply HI|done..|].
  apply (done_count_all found) in Hf; [done|]. rewrite (inv_count _ _ _ HI).
  pose proof (f_equal (@length _) (inv_keys _ _ _ HI)) as E. unfold map_keys in E.
  by rewrite !length_fmap in E.
Qed.

Lemma Inv_optimal rt found u eu x c :
  Inv (length LS) rt found -> map_find u rt = Some eu -> path u x c ->
  exists e, map_find x rt = Some e /\ rt_cost e <= rt_cost eu + c.
Proof.
  intros HI Hu Hp. revert eu Hu. induction Hp as [u|u v x w c He Hp IH]; intros eu Hu.
  - exists eu. split; [done|lia].
  - destruct (inv_table _ _ _ HI) as (_ & _ & Hok).
    assert (map_find u found = Some true) as Hf by (eapply Inv_all_found; [done|by apply (Hok u eu)]).
    destruct (inv_relaxed _ _ _ HI u eu v w Hf Hu He) as (ev & Hev & Hle).
    destruct (IH ev Hev) as (e & ? & ?). exists e. split; [done|lia].
Qed.

(** What a finished table says. *)
Definition shortest (rt : RT) : Prop :=
  map_wf rt /\ (forall x, is_Some (map_find x rt) <-> is_Some (map_find x LS)) /\
  (forall x e, map_find x rt = Some e ->
     entry_ok x e /\ (forall c, path this_node x c -> rt_cost e <= c)).

Lemma Inv_shortest rt found : Inv (length LS) rt found -> shortest rt.
Proof.
  intros HI. pose proof (inv_table _ _ _ HI) as (Hwf & Hself & Hok). split_and!; [done| |].
  - intros x. split.
    + intros [e He]. by apply (Hok x e).
    + intros Hx. eapply inv_done; [done|]. by eapply Inv_all_found.
  - intros x e He. split; [by apply Hok|]. intros c Hp.
    destruct (Inv_optimal _ _ _ _ _ _ HI Hself Hp) as (e' & He' & Hle).
    rewrite He in He'. injection He' as <-. cbn in Hle. lia.
Qed.

Lemma Dijkstra_reachable : (forall x, is_Some (map_find x LS) -> reachable x) ->
  exists rt, Dijkstra_table st = Ok rt /\ shortest rt.
Proof using R.
  intros Hr. destruct Dijkstra_table_spec as [(rt & found & -> & HI)|[_ (x & Hx & Hn)]]; [|naive_solver].
  exists rt. split; [done|]. by eapply Inv_shortest.
Qed.

Lemma Dijkstra_unreachable x : is_Some (map_find x LS) -> ~ reachable x ->
  Dijkstra_table st = Fault DerefEnd.
Proof using R.
  intros Hx Hn. destruct Dijkstra_table_spec as [(rt & found & _ & HI)|[-> _]]; [|done].
  apply Inv_shortest in HI as (_ & Hk & Hs). apply Hk in Hx as [e He].
  destruct Hn. exists (rt_cost e). by apply (Hs x e).
Qed.
End ready.
End dijkstra.

(** ** Two nodes with the same tables see the same graph *)

Section same_graph.
Context {SR : Type} (st1 st2 : LSState SR).
Hypothesis same_ls : m_lsTable st1 = m_lsTable st2.
Hypothesis same_names : m_addressNodeMap st1 = m_addressNodeMap st2.

Lemma ReverseLookup_same a : ReverseLookup st1 a = ReverseLookup st2 a.
Proof using same_names. unfold ReverseLookup. by rewrite same_names. Qed.

Lemma first_cost_same pairs v : first_cost st1 pairs v = first_cost st2 pairs v.
Proof using same_names.
  induction pairs as [|[a c] pairs IH]; cbn; [done|]. by rewrite ReverseLookup_same, IH.
Qed.

Lemma edge_same u v w : edge st1 u v w -> edge st2 u v w.
Proof using same_ls same_names.
  unfold edge, DistanceToNeighbor, GetNeighbors. rewrite same_ls.
  intros (Hne & (a & Ha & Hv) & Hd). rewrite ReverseLookup_same in Hv. split_and!; [done|eauto|].
  destruct (String.eqb u v); [done|]. destruct (map_find u (m_lsTable st2)); cbn in *; [|done].
  by rewrite <- first_cost_same.
Qed.

Lemma path_same u v c : path st1 u v c -> path st2 u v c.
Proof using same_ls same_names. induction 1; econstructor; eauto using edge_same. Qed.

(** [Dijkstra] reads nothing but the LS table, the address map, the main
    address and the neighbour table. *)
Hypothesis same_main : m_mainAddress st1 = m_mainAddress st2.
Hypothesis same_nt : m_neighborTable st1 = m_neighborTable st2.

Lemma DistanceToNeighbor_same u v : DistanceToNeighbor st1 u v = DistanceToNeighbor st2 u v.
Proof using same_ls same_names.
  unfold DistanceToNeighbor. rewrite same_ls. destruct (String.eqb u v); [done|].
  destruct (map_find u (m_lsTable st2)); cbn; [|done]. by rewrite first_cost_same.
Qed.

Lemma relax_same s rt a : relax st1 s rt a = relax st2 s rt a.
Proof using same_ls same_names same_nt.
  unfold relax. rewrite ReverseLookup_same, DistanceToNeighbor_same, same_nt.
  destruct (map_find s rt); cbn; [|done]. by rewrite ReverseLookup_same.
Qed.

Lemma Dijkstra_loop_same n rt found : Dijkstra_loop st1 n rt found = Dijkstra_loop st2 n rt found.
Proof using same_ls same_names same_nt.
  revert rt found; induction n as [|n IH]; intros rt found; cbn [Dijkstra_loop]; [done|].
  assert (Dijkstra_step st1 rt found = Dijkstra_step st2 rt found) as ->.
  { unfold Dijkstra_step. destruct (GetMinCostNode rt found) as [s|]; cbn; [|done].
    destruct (mark_found s found); cbn; [|done]. unfold GetNeighbors. rewrite same_ls.
    by rewrite (foldM_ext (relax st1 s) (relax st2 s)) by apply relax_same. }
  destruct (Dijkstra_step st2 rt found) as [[? ?]|]; cbn; [apply IH|done].
Qed.

Lemma Dijkstra_table_same : Dijkstra_table st1 = Dijkstra_table st2.
Proof using same_ls same_names same_nt same_main.
  unfold Dijkstra_table, Dijkstra_init, GetNeighbors. rewrite same_ls, same_main, ReverseLookup_same.
  rewrite (foldM_ext _ (fun rt nbr => nt ← map_find (ReverseLookup st2 nbr) (m_neighborTable st2) ?? DerefEnd;
    d ← DistanceToNeighbor st2 (ReverseLookup st2 (m_mainAddress st2)) (ReverseLookup st2 nbr);
    Ok (map_insert (ReverseLookup st2 nbr) (mkRT nbr nbr nbr (nt_interfaceAddr nt) d) rt))).
  - destruct (foldM _ _ _) as [rt|]; cbn; [|done]. destruct (mark_found _ _); cbn; [|done].
    apply Dijkstra_loop_same.
  - intros rt a. by rewrite ReverseLookup_same, DistanceToNeighbor_same, same_nt.
Qed.

Lemma ls_ready_same : ls_ready st1 -> ls_ready st2.
Proof using same_ls same_names same_nt same_main.
  intros []. split; unfold this_node, GetNeighbors in *; rewrite <- ?same_ls, <- ?same_main, <- ?same_nt, <- ?ReverseLookup_same;
    try done; intros; rewrite <- ?ReverseLookup_same; eauto.
Qed.

Lemma reachable_same x : reachable st1 x -> reachable st2 x.
Proof using same_ls same_names same_main.
  intros [c Hc]. exists c. unfold this_node in *. rewrite <- same_main, <- ReverseLookup_same. by apply path_same.
Qed.
End same_graph.

(** ** A neighbour without an LS entry *)

Section incomplete.
Context {SR : Type} (st : LSState SR).

Lemma DistanceToNeighbor_fault u v f : DistanceToNeighbor st u v = Fault f -> f = DerefEnd.
Proof.
  unfold DistanceToNeighbor. destruct (String.eqb u v); [done|].
  destruct (map_find u (m_lsTable st)); cbn; [done|]. by intros [= <-].
Qed.

Lemma GetMinCostNode_missing (rt : stdmap string RoutingTableEntry) found x :
  is_Some (map_find x rt) -> map_find x found = None -> GetMinCostNode rt found = Fault DerefEnd.
Proof.
  intros [e He%map_find_elem] Hx. unfold GetMinCostNode.
  rewrite (foldM_fault DerefEnd _ _ _ (x, e)); [done| |done|].
  - intros acc [y ey] f. cbn [fst snd]. destruct (map_find y found) as [b|]; cbn; [|by intros [= <-]].
    destruct b; cbn; [done|]. by destruct (_ <? _).
  - intros acc. cbn. by rewrite Hx.
Qed.

Lemma Dijkstra_init_keys thisNode rt :
  Dijkstra_init st thisNode = Ok rt ->
  forall a, a ∈ GetNeighbors st thisNode -> is_Some (map_find (ReverseLookup st a) rt).
Proof.
  unfold Dijkstra_init. generalize (map_insert thisNode (mkRT (m_mainAddress st) (m_mainAddress st)
    (m_mainAddress st) (m_mainAddress st) 0) []) as rt0.
  set (step := fun _ _ => _). intros rt0 Hf.
  assert (forall l rt0, foldM step rt0 l = Ok rt ->
    (forall x, is_Some (map_find x rt0) -> is_Some (map_find x rt)) /\
    (forall a, a ∈ l -> is_Some (map_find (ReverseLookup st a) rt))) as H; [|by apply (H _ rt0 Hf)].
  clear rt0 Hf. induction l as [|b l IH]; intros rt0; cbn [foldM].
  - intros [= ->]. split; [done|]. by intros a ?%not_elem_of_nil.
  - unfold step at 1. intros (rt1 & (nt & _ & (d & _ & [= <-])%bind_Ok)%bind_Ok & H)%bind_Ok.
    apply IH in H as [Hk Hl].
    assert (forall x, is_Some (map_find x rt0) \/ x = ReverseLookup st b -> is_Some (map_find x rt)) as Hin.
    { intros x Hx. apply Hk. rewrite map_find_insert. case_decide; [eauto|]. destruct Hx; [done|congruence]. }
    split; [auto|]. intros a [->|Ha]%elem_of_cons; auto.
Qed.

Lemma Dijkstra_incomplete a :
  a ∈ GetNeighbors st (this_node st) -> map_find (ReverseLookup st a) (m_lsTable st) = None ->
  (2 <= length (m_lsTable st))%nat -> Dijkstra_table st = Fault DerefEnd.
Proof.
  intros Ha Hn Hsz. unfold Dijkstra_table. fold (this_node st).
  destruct (Dijkstra_init st (this_node st)) as [rt|f] eqn:Hi; cbn [mbind result_bind].
  2: { f_equal. revert Hi. unfold Dijkstra_init. apply foldM_only. intros rt b f'.
    intros [H|(nt & _ & [H|(d & _ & H)]%bind_Fault)]%bind_Fault; [| |done].
    - destruct (map_find (ReverseLookup st b) (m_neighborTable st)); [done|]. by injection H.
    - by apply DistanceToNeighbor_fault in H. }
  unfold mark_found. rewrite init_found_find. cbn [map_find].
  destruct (decide (this_node st ∈ map_keys (m_lsTable st))); [|done]. cbn [or_fault mbind result_bind].
  destruct (length (m_lsTable st) - 1)%nat eqn:El; [lia|]. cbn [Dijkstra_loop]. unfold Dijkstra_step at 1.
  rewrite (GetMinCostNode_missing rt _ (ReverseLookup st a)); [done| |].
  - by eapply Dijkstra_init_keys.
  - assert (ReverseLookup st a <> this_node st).
    { intros E. rewrite E in Hn. apply map_find_None in Hn. done. }
    rewrite map_find_update, decide_False by congruence. rewrite init_found_find. cbn.
    by rewrite decide_False by by apply map_find_None.
Qed.
End incomplete.

(** ** A test for [ls_ready] *)

Definition entries_ok {SR} (st : LSState SR) : Prop :=
  Forall (fun p : string * LSTableEntry => Forall (fun q : Ipv4Address * Z =>
    is_Some (map_find (ReverseLookup st q.1) (m_lsTable st)) /\ 0 <= q.2 /\
    q.2 * Z.of_nat (length (m_lsTable st)) < INT_MAX) (lst_neighborCosts p.2)) (m_lsTable st).

Definition ls_ready_b {SR} (st : LSState SR) : bool :=
  map_wf_b (m_lsTable st) && bool_decide (is_Some (map_find (this_node st) (m_lsTable st))) &&
  bool_decide (map_find EmptyString (m_lsTable st) = None) && bool_decide (entries_ok st) &&
  bool_decide (Forall (fun a => is_Some (map_find (ReverseLookup st a) (m_neighborTable st)))
    (GetNeighbors st (this_node st))).

Lemma entries_ok_elem {SR} (st : LSState SR) u e a c :
  entries_ok st -> map_find u (m_lsTable st) = Some e -> (a, c) ∈ lst_neighborCosts e ->
  is_Some (map_find (ReverseLookup st a) (m_lsTable st)) /\ 0 <= c /\
  c * Z.of_nat (length (m_lsTable st)) < INT_MAX.
Proof.
  intros Hall Hu%map_find_elem Hin. unfold entries_ok in Hall. rewrite Forall_forall in Hall.
  specialize (Hall _ Hu). rewrite Forall_forall in Hall. apply (Hall _ Hin).
Qed.

Lemma ls_ready_b_spec {SR} (st : LSState SR) : ls_ready_b st = true -> ls_ready st.
Proof.
  unfold ls_ready_b. rewrite !andb_true_iff, !bool_decide_eq_true.
  intros ((((Hwf%map_wf_b_spec & Hself) & Hname) & Hent) & Hnb). split; try done.
  - intros u a (e & c & He & Hin)%GetNeighbors_elem. by eapply entries_ok_elem.
  - rewrite Forall_forall in Hnb. exact Hnb.
  - intros u e a c He Hin. by eapply entries_ok_elem.
Qed.

(** ** Example: node 1 of a triangle with one expensive link *)

Definition addr1 : Ipv4Address := 0x0a000101.
Definition addr2 : Ipv4Address := 0x0a000102.
Definition addr3 : Ipv4Address := 0x0a000103.

Definition example_state (main : Ipv4Address) (nt : stdmap string NeighborTableEntry)
    (ls : stdmap string LSTableEntry) : LSState unit := {|
  m_socketAddresses := [(100, MakeInterfaceAddress main 0xffffff00)]; m_mainAddress := main;
  m_staticRouting := Some tt; m_ipv4 := None;
  m_pingTimeout := MilliSeconds 2000; m_helloTimeout := MilliSeconds 6000;
  m_maxTTL := 16; m_lsPort := 5000; m_currentSequenceNumber := 40;
  m_nodeAddressMap := [(1, addr1); (2, addr2); (3, addr3)];
  m_addressNodeMap := [(addr1, 1); (addr2, 2); (addr3, 3)];
  m_auditPingsTimer := None; m_auditHellosTimer := None;
  m_pingTracker := []; m_neighborTable := nt; m_routingTable := []; m_lsTable := ls |}.

Definition triangle : stdmap string LSTableEntry :=
  [("1"%string, mkLST [(addr2, 1); (addr3, 5)] 7); ("2"%string, mkLST [(addr1, 1); (addr3, 1)] 8);
   ("3"%string, mkLST [(addr1, 5); (addr2, 1)] 9)].
Definition neighbors_of (l : list (string * Ipv4Address)) (iface : Ipv4Address) : stdmap string NeighborTableEntry :=
  map (fun p => (p.1, mkNT p.2 iface 0)) l.
Definition triangle_state : LSState unit :=
  example_state addr1 (neighbors_of [("2"%string, addr2); ("3"%string, addr3)] addr1) triangle.

Lemma example_edge {SR} (st : LSState SR) u v a w :
  bool_decide (u <> v /\ a ∈ GetNeighbors st u /\ ReverseLookup st a = v) = true ->
  DistanceToNeighbor st u v = Ok w -> edge st u v w.
Proof. intros (? & ? & ?)%bool_decide_eq_true ?. unfold edge. eauto. Qed.

Lemma triangle_reachable x : is_Some (map_find x (m_lsTable triangle_state)) -> reachable triangle_state x.
Proof.
  intros Hx. apply map_find_is_Some in Hx. change (x ∈ ["1"; "2"; "3"]%string) in Hx.
  assert (edge triangle_state "1" "2" 1) as H12 by by apply (example_edge _ _ _ addr2).
  assert (edge triangle_state "1" "3" 5) as H13 by by apply (example_edge _ _ _ addr3).
  repeat (apply elem_of_cons in Hx as [->|Hx]); [| | |by apply not_elem_of_nil in Hx].
  - exists 0. constructor.
  - exists (1 + 0). econstructor; [exact H12|constructor].
  - exists (5 + 0). econstructor; [exact H13|constructor].
Qed.

(** (C1) [Dijkstra] computes shortest paths.  When the LS table is complete
    ([ls_ready]) and every node of it can be reached, [Dijkstra] neither faults
    nor sends anything, and replaces the routing table by one that has exactly
    the nodes of the LS table, each with the cost of a shortest path, its own
    address, and, for every node but this one, a first hop [nh] that is a
    listed neighbour lying on a shortest path (the cost is that of the link to
    [nh] plus that of a path from [nh]), its address as next-hop number, and
    the interface the neighbour table has for it. *)
Theorem dijkstra_shortest_paths {SR} (st : LSState SR) (HR : ls_ready st)
  (Hreach : forall x, is_Some (map_find x (m_lsTable st)) -> reachable st x) :
  exists rt, Dijkstra st = Ok (tt, set_routingTable rt st, []) /\ map_wf rt /\
    (forall x, is_Some (map_find x rt) <-> is_Some (map_find x (m_lsTable st))) /\
    (forall x e, map_find x rt = Some e ->
       path st (this_node st) x (rt_cost e) /\
       (forall c, path st (this_node st) x c -> rt_cost e <= c) /\
       ReverseLookup st (rt_destAddr e) = x /\
       (x = this_node st -> rt_cost e = 0 /\ rt_nextHopAddr e = m_mainAddress st) /\
       (x <> this_node st -> exists w c nt, let nh := ReverseLookup st (rt_nextHopAddr e) in
          rt_nextHopAddr e ∈ GetNeighbors st (this_node st) /\
          edge st (this_node st) nh w /\ path st nh x c /\ rt_cost e = w + c /\
          rt_nextHopNum e = rt_nextHopAddr e /\
          map_find nh (m_neighborTable st) = Some nt /\ rt_interfaceAddr e = nt_interfaceAddr nt)).
Proof.
  destruct (Dijkstra_reachable st HR Hreach) as (rt & Hrt & Hwf & Hk & Hs).
  exists rt. split_and!; [|done..|].
  - unfold Dijkstra, modifyM. by rewrite Hrt.
  - intros x e He. destruct (Hs x e He) as ((? & ? & Hself & ?) & ?).
    split_and!; try done. intros ->%Hself. done.
Qed.

Lemma dijkstra_shortest_paths_witness :
  exists rt, Dijkstra triangle_state = Ok (tt, set_routingTable rt triangle_state, []) /\
    map_find "3"%string rt = Some (mkRT addr3 addr2 addr2 addr1 2).
Proof.
  destruct (dijkstra_shortest_paths triangle_state (ls_ready_b_spec triangle_state eq_refl) triangle_reachable)
    as (rt & Hd & _).
  exists rt. split; [exact Hd|]. vm_compute in Hd. injection Hd as <-. reflexivity.
Defined.

(** (C13) The exact condition under which [Dijkstra] is defined.  On a complete
    LS table it succeeds if and only if every node of the table can be reached
    from this one; otherwise [GetMinCostNode] returns the empty name, and
    [leastCostFound.find ("")], which is [end ()], is dereferenced. *)
Theorem dijkstra_defined_iff_reachable {SR} (st : LSState SR) (HR : ls_ready st) :
  (is_ok (Dijkstra st) = true <-> (forall x, is_Some (map_find x (m_lsTable st)) -> reachable st x)) /\
  (forall x, is_Some (map_find x (m_lsTable st)) -> ~ reachable st x -> Dijkstra st = Fault DerefEnd).
Proof.
  assert (forall x, is_Some (map_find x (m_lsTable st)) -> ~ reachable st x -> Dijkstra st = Fault DerefEnd) as Hf.
  { intros x Hx Hn. unfold Dijkstra, modifyM. by rewrite (Dijkstra_unreachable st HR x). }
  split; [|done]. split.
  - intros Hok x Hx. destruct (Dijkstra_table_spec st HR) as [(rt & found & _ & HI)|[Hd _]].
    + destruct (Inv_shortest st rt found HI) as (_ & Hk & Hs). destruct (proj2 (Hk x) Hx) as [e He].
      exists (rt_cost e). by apply (Hs x e).
    + unfold Dijkstra, modifyM in Hok. by rewrite Hd in Hok.
  - intros Hr. destruct (Dijkstra_reachable st HR Hr) as (rt & Hrt & _).
    unfold Dijkstra, modifyM. by rewrite Hrt.
Qed.

(** Node 1 still has the LS entry of node 3 although nobody lists node 3. *)
Definition stale_state : LSState unit :=
  example_state addr1 (neighbors_of [("2"%string, addr2)] addr1)
    [("1"%string, mkLST [(addr2, 1)] 7); ("2"%string, mkLST [(addr1, 1)] 8); ("3"%string, mkLST [] 9)].

Lemma stale_unreachable : ~ reachable stale_state "3".
Proof.
  assert (forall u v w, edge stale_state u v w -> v <> "3"%string) as He.
  { intros u v w (_ & (a & (e & c & Hu & Ha)%GetNeighbors_elem & Hv) & _).
    apply map_find_elem in Hu. intros ->. revert Ha Hv.
    repeat (apply elem_of_cons in Hu as [[= -> ->]|Hu]); [| | |by apply not_elem_of_nil in Hu]; cbn.
    - intros [[= -> ->]|?%not_elem_of_nil]%elem_of_cons; done.
    - intros [[= -> ->]|?%not_elem_of_nil]%elem_of_cons; done.
    - by intros ?%not_elem_of_nil. }
  assert (forall u x c, path stale_state u x c -> u <> "3"%string -> x <> "3"%string) as Hp.
  { induction 1; [done|]. intros _. eauto. }
  intros [c Hc]. by apply (Hp _ _ _ Hc).
Qed.

Lemma dijkstra_defined_iff_reachable_witness : Dijkstra stale_state = Fault DerefEnd.
Proof.
  apply (proj2 (dijkstra_defined_iff_reachable stale_state (ls_ready_b_spec stale_state eq_refl)) "3"%string);
    [by eexists|apply stale_unreachable].
Defined.
