(* ===== verification/LSForwarding.v ===== *)
(** * LSForwarding: hop-by-hop forwarding over the routing tables

    RouteInput of ls-routing-protocol.cc sends a packet to the next hop that
    SearchTable finds.  When all nodes hold the same LS table and have run
    [Dijkstra] on it, following the next hops reaches the destination without
    visiting a node twice. *)

From S2P Require Import Prelude StdMap StdString Ipv4Address LSMessage Node LSRouting LSDijkstra.

(** ** Forwarding *)

(** The nodes a packet for [dest] visits from [u] on; [None]: no route, or
    more than [fuel] hops. *)
Fixpoint forward {SR} (net : string -> LSState SR) (fuel : nat) (u : string) (dest : Ipv4Address)
    : option (list string) :=
  if String.eqb (ReverseLookup (net u) dest) u then Some [u] else
  match fuel with
  | O => None
  | S fuel' =>
      match SearchTable (net u) dest with
      | None => None
      | Some e =>
          match forward net fuel' (ReverseLookup (net u) (rt_nextHopAddr e)) dest with
          | Some hops => Some (u :: hops)
          | None => None
          end
      end
  end.

(** The cost node [u] has for a destination. *)
Definition route_cost {SR} (net : string -> LSState SR) (x u : string) : Z :=
  match map_find x (m_routingTable (net u)) with Some e => rt_cost e | None => 0 end.

(** Every node has the LS table [L] and the address map [M], its own name, and
    the routing table [Dijkstra] computes; links have positive costs. *)
Record converged {SR} (net : string -> LSState SR) (L : stdmap string LSTableEntry)
    (M : stdmap Ipv4Address Z) : Prop := {
  cv_ls u : is_Some (map_find u L) -> m_lsTable (net u) = L;
  cv_names u : is_Some (map_find u L) -> m_addressNodeMap (net u) = M;
  cv_self u : is_Some (map_find u L) -> this_node (net u) = u;
  cv_ready u : is_Some (map_find u L) -> ls_ready (net u);
  cv_reachable u x : is_Some (map_find u L) -> is_Some (map_find x L) -> reachable (net u) x;
  cv_routes u : is_Some (map_find u L) -> Dijkstra_table (net u) = Ok (m_routingTable (net u));
  cv_positive u a b w : is_Some (map_find u L) -> edge (net u) a b w -> 0 < w
}.

Section forwarding.
Context {SR : Type} (net : string -> LSState SR) (L : stdmap string LSTableEntry) (M : stdmap Ipv4Address Z).
Hypothesis C : converged net L M.

Lemma converged_shortest u : is_Some (map_find u L) -> shortest (net u) (m_routingTable (net u)).
Proof using C.
  intros Hu. destruct (Dijkstra_reachable (net u)) as (rt & Hrt & Hs); [by apply C| |].
  - rewrite (cv_ls _ _ _ C u Hu). intros x Hx. by apply (cv_reachable _ _ _ C).
  - rewrite (cv_routes _ _ _ C u Hu) in Hrt. by injection Hrt as ->.
Qed.

(** One hop: the next node is known, and strictly closer. *)
Lemma next_hop u x :
  is_Some (map_find u L) -> is_Some (map_find x L) -> x <> u ->
  exists e, map_find x (m_routingTable (net u)) = Some e /\
    let nh := ReverseLookup (net u) (rt_nextHopAddr e) in
    is_Some (map_find nh L) /\ 0 <= route_cost net x nh < route_cost net x u.
Proof using C.
  intros Hu Hx Hne. pose proof (converged_shortest u Hu) as (_ & Hk & Hs).
  rewrite (cv_ls _ _ _ C u Hu) in Hk. destruct (proj2 (Hk x) Hx) as [e He].
  exists e. split; [done|]. destruct (Hs x e He) as ((_ & _ & _ & Hhop) & _).
  rewrite (cv_self _ _ _ C u Hu) in Hhop.
  destruct (Hhop Hne) as (w & c & nt & Hin & Hedge & Hpath & Hcost & _). cbn zeta.
  set (nh := ReverseLookup (net u) (rt_nextHopAddr e)) in *.
  assert (is_Some (map_find nh L)) as Hnh.
  { rewrite <- (cv_ls _ _ _ C u Hu). eapply edge_target; [by apply C|done]. }
  split; [done|]. pose proof (converged_shortest nh Hnh) as (_ & Hk' & Hs').
  rewrite (cv_ls _ _ _ C nh Hnh) in Hk'. destruct (proj2 (Hk' x) Hx) as [e' He'].
  unfold route_cost. rewrite He, He'. destruct (Hs' x e' He') as ((Hp' & _) & Hmin).
  rewrite (cv_self _ _ _ C nh Hnh) in *. pose proof (cv_positive _ _ _ C u _ _ _ Hu Hedge).
  assert (path (net nh) nh x c) as Hpc.
  { eapply path_same; [| |exact Hpath].
    - by rewrite (cv_ls _ _ _ C u Hu), (cv_ls _ _ _ C nh Hnh).
    - by rewrite (cv_names _ _ _ C u Hu), (cv_names _ _ _ C nh Hnh). }
  specialize (Hmin c Hpc). apply path_cost in Hp'; [|by apply C]. lia.
Qed.

Lemma forward_ok n u x dest :
  is_Some (map_find u L) -> is_Some (map_find x L) ->
  (forall v, is_Some (map_find v L) -> ReverseLookup (net v) dest = x) ->
  route_cost net x u <= Z.of_nat n ->
  exists tl, forward net n u dest = Some (u :: tl) /\ last (u :: tl) = Some x /\ NoDup (u :: tl) /\
    Forall (fun v => 0 <= route_cost net x v < route_cost net x u) tl.
Proof using C.
  intros Hu Hx Hname. revert u Hu. induction n as [|n IH]; intros u Hu Hn; cbn [forward].
  all: rewrite Hname by done; destruct (String.eqb_spec x u) as [->|Hne].
  1,3: exists []; split_and!; [done|done|apply NoDup_singleton|constructor].
  - destruct (next_hop u x) as (e & _ & _ & ?); [done..|lia].
  - destruct (next_hop u x) as (e & He & Hnh & Hc); [done..|].
    unfold SearchTable. rewrite Hname, He by done.
    destruct (IH (ReverseLookup (net u) (rt_nextHopAddr e))) as (tl & -> & Hl & Hnd & Hall); [done|lia|].
    assert (Forall (fun v => 0 <= route_cost net x v < route_cost net x u)
      (ReverseLookup (net u) (rt_nextHopAddr e) :: tl)) as Hall'.
    { constructor; [done|]. eapply Forall_impl; [exact Hall|]. cbn. intros v Hv. lia. }
    eexists; split_and!; [done| | |exact Hall'].
    + exact Hl.
    + constructor; [|done]. intros Hin. rewrite Forall_forall in Hall'. specialize (Hall' u Hin).
      cbn in Hall'. lia.
Qed.
End forwarding.

(** (C3) Routes are loop-free and lead to the destination.  In a network whose
    nodes hold the same LS table, agree on names and have run [Dijkstra] on it
    (with positive link costs), a packet sent from any node [u] to any address
    that names a node [x] visits no node twice and arrives at [x], after at
    most as many hops as the cost of [u]'s route; each node on the way has a
    strictly cheaper route than the one before. *)
Theorem forwarding_delivers {SR} (net : string -> LSState SR) L M u x dest n
  (C : converged net L M) (Hu : is_Some (map_find u L)) (Hx : is_Some (map_find x L))
  (Hname : forall v, is_Some (map_find v L) -> ReverseLookup (net v) dest = x)
  (Hn : route_cost net x u <= Z.of_nat n) :
  exists hops, forward net n u dest = Some hops /\
    head hops = Some u /\ last hops = Some x /\ NoDup hops /\
    (forall v, v ∈ tail hops -> 0 <= route_cost net x v < route_cost net x u).
Proof.
  destruct (forward_ok net L M C n u x dest) as (tl & Hf & Hl & Hnd & Hall); [done..|].
  exists (u :: tl). split_and!; [done..|]. by rewrite Forall_forall in Hall.
Qed.

(** The triangle: every node with the routing table it computes; [v u] is the
    stack of node [u]. *)
Definition with_routes (st : LSState unit) : LSState unit :=
  match Dijkstra_table st with Ok rt => set_routingTable rt st | Fault _ => st end.

Definition triangle_net (v : string -> option Ipv4) (u : string) : LSState unit :=
  set_ipv4 (v u) (with_routes
    (if String.eqb u "2" then
       example_state addr2 (neighbors_of [("1"%string, addr1); ("3"%string, addr3)] addr2) triangle
     else if String.eqb u "3" then
       example_state addr3 (neighbors_of [("1"%string, addr1); ("2"%string, addr2)] addr3) triangle
     else triangle_state)).

Lemma triangle_nodes (P : string -> Prop) :
  P "1"%string -> P "2"%string -> P "3"%string -> forall u, is_Some (map_find u triangle) -> P u.
Proof.
  intros ? ? ? u Hu%map_find_is_Some. change (u ∈ ["1"; "2"; "3"]%string) in Hu.
  repeat (apply elem_of_cons in Hu as [->|Hu]; [done|]). by apply not_elem_of_nil in Hu.
Qed.

Lemma triangle_reach (st : LSState unit) :
  ls_ready st -> m_lsTable st = triangle ->
  is_ok (Dijkstra_table st) = true -> forall x, is_Some (map_find x triangle) -> reachable st x.
Proof.
  intros HR Hls Hok x Hx. destruct (Dijkstra_table_spec st HR) as [(rt & found & _ & HI)|[Hd _]].
  - destruct (Inv_shortest st rt found HI) as (_ & Hk & Hs).
    rewrite Hls in Hk. destruct (proj2 (Hk x) Hx) as [e He]. exists (rt_cost e). by apply (Hs x e).
  - by rewrite Hd in Hok.
Qed.

Lemma triangle_converged (v : string -> option Ipv4) : converged (triangle_net v) triangle [(addr1, 1); (addr2, 2); (addr3, 3)].
Proof.
  assert (forall u, is_Some (map_find u triangle) -> ls_ready (triangle_net v u)) as HR.
  { apply triangle_nodes; apply ls_ready_b_spec; vm_compute; reflexivity. }
  assert (forall u, is_Some (map_find u triangle) -> m_lsTable (triangle_net v u) = triangle) as Hls.
  { apply triangle_nodes; reflexivity. }
  assert (forall u, is_Some (map_find u triangle) -> m_addressNodeMap (triangle_net v u) =
    [(addr1, 1); (addr2, 2); (addr3, 3)]) as Hnm.
  { apply triangle_nodes; reflexivity. }
  split; [done|done| | | | |].
  - apply triangle_nodes; reflexivity.
  - done.
  - intros u x Hu Hx. apply triangle_reach; [auto..| |done].
    revert u Hu. apply triangle_nodes; reflexivity.
  - apply triangle_nodes; reflexivity.
  - intros u a b w Hu He. apply (edge_same _ triangle_state) in He; [|by rewrite Hls|by rewrite Hnm].
    destruct He as (Hne & (ad & (e & c & Ha & Hin)%GetNeighbors_elem & Hb) & Hd).
    assert (Forall (fun p : string * LSTableEntry => Forall (fun q : Z * Z =>
      DistanceToNeighbor triangle_state p.1 (ReverseLookup triangle_state q.1) = Ok 1 \/
      DistanceToNeighbor triangle_state p.1 (ReverseLookup triangle_state q.1) = Ok 5)
      (lst_neighborCosts p.2)) triangle) as Hall.
    { by apply (bool_decide_unpack _). }
    apply map_find_elem in Ha. rewrite Forall_forall in Hall. specialize (Hall _ Ha).
    rewrite Forall_forall in Hall. specialize (Hall _ Hin). cbn in Hall. rewrite Hb in Hall.
    destruct Hall as [Hall|Hall]; rewrite Hall in Hd; injection Hd as <-; lia.
Qed.

Lemma forwarding_delivers_witness : exists hops,
  forward (triangle_net (fun _ => None)) 2 "1" addr3 = Some hops /\ hops = ["1"; "2"; "3"]%string /\ NoDup hops.
Proof.
  destruct (forwarding_delivers (triangle_net (fun _ => None)) triangle [(addr1, 1); (addr2, 2); (addr3, 3)] "1" "3" addr3 2)
    as (hops & Hf & _ & _ & Hnd & _).
  - apply triangle_converged.
  - eexists; reflexivity.
  - eexists; reflexivity.
  - apply triangle_nodes; reflexivity.
  - vm_compute. discriminate.
  - exists hops. split; [exact Hf|]. split; [|exact Hnd]. vm_compute in Hf. injection Hf as <-. reflexivity.
Defined.
