(* ===== verification/LSProtocol.v ===== *)
(** * LSProtocol: the message handlers of the link-state protocol

    Properties of RecvLSMessage, the Process functions, the audits and
    RouteOutput of ls-routing-protocol.cc. *)

From S2P Require Import Prelude StdMap StdString Ipv4Address Codec LSMessage Node LSRouting LSDijkstra.

(** ** Broadcasting *)

(** No interface has the mask 255.255.255.255, for which there is no
    subnet-directed broadcast address. *)
Definition broadcast_ok {SR} (st : LSState SR) : Prop :=
  Forall (fun p => m_mask p.2 <> Mask_GetOnes) (m_socketAddresses st).

#[export] Instance broadcast_ok_dec {SR} (st : LSState SR) : Decision (broadcast_ok st).
Proof. unfold broadcast_ok. apply _. Defined.

(** One datagram per socket, to the broadcast address of its subnet. *)
Definition broadcast {SR} (st : LSState SR) (m : LSMessage) : list (action LSMessage) :=
  map (fun p => SendTo p.1 (Z.lor (m_local p.2) (GetInverse (m_mask p.2))) (m_lsPort st) m)
    (m_socketAddresses st).

Lemma BroadcastPacket_ok {SR} (st : LSState SR) m :
  broadcast_ok st -> BroadcastPacket m st = Ok (tt, st, broadcast st m).
Proof.
  intros Hb. unfold BroadcastPacket. unfold mbind, handler_bind, get.
  rewrite (for_loop_emits _ _ (fun p => SendTo p.1 (Z.lor (m_local p.2) (GetInverse (m_mask p.2))) (m_lsPort st) m)).
  - done.
  - eapply Forall_impl; [exact Hb|]. intros p Hm. cbn beta in Hm.
    unfold GetSubnetDirectedBroadcast, Mask_IsEqual, mbind, handler_bind, lift.
    destruct (Z.eqb_spec Mask_GetOnes (m_mask p.2)); [congruence|done].
Qed.

(** The handlers below only differ in what they send; these are their
    normal forms. *)
Lemma GetNextSequenceNumber_eq {SR} (st : LSState SR) :
  GetNextSequenceNumber st =
    Ok (m_currentSequenceNumber st, set_currentSequenceNumber (u32 (m_currentSequenceNumber st + 1)) st, []).
Proof. done. Qed.

Definition hello_message {SR} (st : LSState SR) : LSMessage :=
  mkLSMessage HELLO_REQ (m_currentSequenceNumber st) (m_mainAddress st) 1
    (mkPayload (pingReq no_payload) (pingRsp no_payload)
      (mkHelloReq (ResolveNodeIpAddress st 0) "hello" 0) (lsTableMsg no_payload)).

Definition table_message {SR} (st : LSState SR) : LSMessage :=
  mkLSMessage LS_TABLE_MSG (m_currentSequenceNumber st) (m_mainAddress st) (m_maxTTL st)
    (mkPayload (pingReq no_payload) (pingRsp no_payload) (helloReq no_payload)
      (mkLSTableMsg (map (fun i => (nt_neighborAddr i.2, 1)) (m_neighborTable st)))).

Definition next_seq {SR} (st : LSState SR) : LSState SR :=
  set_currentSequenceNumber (u32 (m_currentSequenceNumber st + 1)) st.

Lemma SendHello_eq {SR} (st : LSState SR) : broadcast_ok st ->
  SendHello st = Ok (tt, next_seq st, broadcast st (hello_message st)).
Proof.
  intros Hb. unfold SendHello. unfold mbind, handler_bind, get, lift. rewrite GetNextSequenceNumber_eq. cbn.
  unfold next_seq. by rewrite BroadcastPacket_ok.
Qed.

Lemma SendLSTableMessage_eq {SR} (st : LSState SR) : broadcast_ok st ->
  SendLSTableMessage st = Ok (tt, next_seq st, broadcast st (table_message st)).
Proof.
  intros Hb. unfold SendLSTableMessage. unfold mbind, handler_bind, get, lift. rewrite GetNextSequenceNumber_eq. cbn.
  unfold next_seq. by rewrite BroadcastPacket_ok.
Qed.

(** ** Flooding of LS table messages *)

(** The state once the entry of a new table message is stored. *)
Definition stored {SR} (st : LSState SR) (fromNode : string) (m : LSMessage) : LSState SR :=
  set_lsTable (map_insert fromNode (mkLST (neighborCosts (GetLSTableMsg m)) (GetSequenceNumber m))
    (map_erase fromNode (m_lsTable st))) st.

Lemma stored_find {SR} (st : LSState SR) fromNode m k :
  map_find k (m_lsTable (stored st fromNode m)) =
    if decide (fromNode = k) then Some (mkLST (neighborCosts (GetLSTableMsg m)) (GetSequenceNumber m))
    else map_find k (m_lsTable st).
Proof.
  unfold stored. cbn [set_lsTable m_lsTable]. rewrite map_find_insert, !map_find_erase.
  rewrite (decide_True (P := fromNode = fromNode)) by done. by case_decide.
Qed.

Lemma ProcessLSTableMessage_eq {SR} (st : LSState SR) m :
  broadcast_ok st ->
  let fromNode := ReverseLookup st (GetOriginatorAddress m) in
  ProcessLSTableMessage m st =
    if is_new_lsa st fromNode (GetSequenceNumber m) then
      rt ← Dijkstra_table (stored st fromNode m);
      Ok (tt, set_routingTable rt (stored st fromNode m), broadcast st (SetTTL (u8 (GetTTL m - 1)) m))
    else Ok (tt, st, []).
Proof.
  intros Hb. cbn zeta. unfold ProcessLSTableMessage. unfold mbind at 1, handler_bind at 1, get at 1.
  destruct (is_new_lsa _ _ _); [|done].
  unfold mbind, handler_bind, modify, Dijkstra, modifyM.
  change (set_lsTable _ (set_lsTable _ st)) with (stored st (ReverseLookup st (GetOriginatorAddress m)) m).
  unfold mbind, result_bind. destruct (Dijkstra_table _) as [rt|f]; [|done]. by rewrite BroadcastPacket_ok.
Qed.

(** (C14) Flooding.  A table message that is not newer than the stored entry of
    its originator is ignored: no change, nothing sent.  A newer one replaces
    exactly that entry, recomputes the routes (and is undefined exactly when
    [Dijkstra] is), and is sent once per interface with its TTL decremented
    modulo 256 (it is sent whatever the TTL was, 0 becomes 255) and otherwise
    unchanged; afterwards every copy of it, and every older message of the
    originator, is ignored. *)
Theorem lsa_flooding {SR} (st : LSState SR) m (Hb : broadcast_ok st) :
  let fromNode := ReverseLookup st (GetOriginatorAddress m) in
  (is_new_lsa st fromNode (GetSequenceNumber m) = false -> ProcessLSTableMessage m st = Ok (tt, st, [])) /\
  (is_new_lsa st fromNode (GetSequenceNumber m) = true ->
     (forall f, ProcessLSTableMessage m st = Fault f <-> Dijkstra_table (stored st fromNode m) = Fault f) /\
     (forall st' out, ProcessLSTableMessage m st = Ok (tt, st', out) ->
        Dijkstra_table (stored st fromNode m) = Ok (m_routingTable st') /\
        (forall k, map_find k (m_lsTable st') = if decide (fromNode = k)
           then Some (mkLST (neighborCosts (GetLSTableMsg m)) (GetSequenceNumber m))
           else map_find k (m_lsTable st)) /\
        out = map (fun p => SendTo p.1 (Z.lor (m_local p.2) (GetInverse (m_mask p.2))) (m_lsPort st)
                (SetTTL (u8 (GetTTL m - 1)) m)) (m_socketAddresses st) /\
        (forall m', GetOriginatorAddress m' = GetOriginatorAddress m ->
           GetSequenceNumber m' <= GetSequenceNumber m ->
           ProcessLSTableMessage m' st' = Ok (tt, st', [])))).
Proof.
  cbn zeta. rewrite ProcessLSTableMessage_eq by done. split; [by intros ->|intros ->].
  set (fromNode := ReverseLookup st (GetOriginatorAddress m)).
  destruct (Dijkstra_table (stored st fromNode m)) as [rt|f0] eqn:Hd; cbn [mbind result_bind].
  - split; [naive_solver|]. intros st' out [= <- <-]. split_and!; [done| |done|].
    + intros k. apply stored_find.
    + intros m' Ho Hs. rewrite ProcessLSTableMessage_eq by done.
      unfold is_new_lsa. rewrite Ho.
      change (ReverseLookup (set_routingTable rt (stored st fromNode m)) (GetOriginatorAddress m)) with fromNode.
      change (m_lsTable (set_routingTable rt _)) with (m_lsTable (stored st fromNode m)).
      rewrite stored_find, decide_True by done. cbn. by rewrite (proj2 (Z.ltb_ge _ _)).
  - split; [|naive_solver]. intros f; split; [intros [= <-]; done|]. by intros [= ->].
Qed.

(** A TTL of 0 is sent on as 255. *)
Definition expired_lsa : LSMessage := SetTTL 0 (table_message (example_state addr2 (neighbors_of [("1"%string, addr1)] addr2) [])).

Lemma lsa_flooding_witness :
  exists st', ProcessLSTableMessage expired_lsa triangle_state =
    Ok (tt, st', [SendTo 100 0x0a0001ff 5000 (SetTTL 255 expired_lsa)]) /\
  ProcessLSTableMessage expired_lsa st' = Ok (tt, st', []).
Proof.
  assert (broadcast_ok triangle_state) as Hb by by apply (bool_decide_unpack _).
  destruct (ProcessLSTableMessage expired_lsa triangle_state) as [[[[] st'] out]|f] eqn:E; [|by vm_compute in E].
  destruct (lsa_flooding triangle_state expired_lsa Hb) as [_ Hnew].
  destruct (proj2 (Hnew eq_refl) st' out E) as (_ & _ & -> & Hagain).
  exists st'. split; [reflexivity|]. apply Hagain; [reflexivity|]. apply Z.le_refl.
Defined.

(** ** Tables that are still incomplete *)

(** [Dijkstra] is undefined while a neighbour has not announced itself:
    if this node lists a neighbour that has no LS entry yet, and the LS table
    has at least two entries, then [GetMinCostNode] looks the neighbour up in
    [leastCostFound], gets [end ()] and dereferences it. *)
Theorem dijkstra_incomplete_fault {SR} (st : LSState SR) a
  (Ha : a ∈ GetNeighbors st (this_node st))
  (Hnone : map_find (ReverseLookup st a) (m_lsTable st) = None)
  (Hsize : (2 <= length (m_lsTable st))%nat) :
  Dijkstra st = Fault DerefEnd.
Proof. unfold Dijkstra, modifyM. by rewrite (Dijkstra_incomplete st a). Qed.

Definition incomplete_state : LSState unit :=
  example_state addr1 (neighbors_of [("2"%string, addr2); ("3"%string, addr3)] addr1)
    [("1"%string, mkLST [(addr2, 1); (addr3, 1)] 7); ("2"%string, mkLST [(addr1, 1)] 8)].

Lemma dijkstra_incomplete_fault_witness : Dijkstra incomplete_state = Fault DerefEnd.
Proof.
  apply (dijkstra_incomplete_fault incomplete_state addr3).
  - right. left.
  - reflexivity.
  - apply le_n.
Defined.

(** Messages of nodes 2 and 3 as they arrive at node 1. *)
Definition hello_from (a : Ipv4Address) (seq : Z) : LSMessage :=
  mkLSMessage HELLO_REQ seq a 1 (mkPayload (pingReq no_payload) (pingRsp no_payload)
    (mkHelloReq addr1 "hello" 0) (lsTableMsg no_payload)).
Definition lsa_from (a : Ipv4Address) (seq : Z) (links : list (Ipv4Address * Z)) : LSMessage :=
  mkLSMessage LS_TABLE_MSG seq a 16 (mkPayload (pingReq no_payload) (pingRsp no_payload)
    (helloReq no_payload) (mkLSTableMsg links)).

Definition ms (n : Z) : Time := MilliSeconds n.

(** Two ordinary runs of node 1 that end in undefined behaviour.  Bringing
    a node with two neighbours up: both hellos are processed, and the first
    table message then dereferences [end ()].  Losing the only link: after a
    hello and a table message from node 2, the hello audit that finds node 2
    silent for the timeout removes the links, keeps node 2 in the LS table and
    runs [Dijkstra], which dereferences [end ()] because node 2 is
    unreachable. *)
Theorem ls_runs_undefined :
  let start := example_state addr1 [] [] in
  let hellos := (_ ← RecvLSMessage (ms 6000) 100 (hello_from addr2 5);
                 RecvLSMessage (ms 6000) 100 (hello_from addr3 6)) in
  let link := (_ ← RecvLSMessage (ms 6000) 100 (hello_from addr2 5);
               RecvLSMessage (ms 6001) 100 (lsa_from addr2 50 [(addr1, 1)])) in
  is_ok (hellos start) = true /\
  (_ ← hellos; RecvLSMessage (ms 6001) 100 (lsa_from addr2 50 [(addr1, 1)])) start = Fault DerefEnd /\
  is_ok (link start) = true /\
  (_ ← link; AuditHellos (ms 12000)) start = Fault DerefEnd.
Proof. vm_compute. repeat split. Qed.

(** ** Audits *)

Definition tables {SR} (st : LSState SR) nt ls : LSState SR := set_neighborTable nt (set_lsTable ls st).

(** The audit loop, when it ends, has erased the silent neighbours and changed
    only the neighbour table and the LS table. *)
Lemma audit_loop {SR} now (l : stdmap string NeighborTableEntry) (st st' : LSState SR) :
  foldM (fun st i => audit_neighbor now i st) st l = Ok st' ->
  exists ls, st' = tables st
    (foldl (fun m p => if hello_expired st now p.2 then map_erase p.1 m else m) (m_neighborTable st) l) ls.
Proof.
  revert st; induction l as [|i l IH]; intros st; cbn [foldM foldl].
  - intros [= <-]. exists (m_lsTable st). by destruct st.
  - intros (st1 & H1 & H2)%bind_Ok. unfold audit_neighbor in H1.
    destruct (hello_expired st now i.2) eqn:He.
    + unfold removeLink_at in H1. apply bind_Ok in H1 as (s1 & (e1 & _ & [= <-])%bind_Ok & H1).
      apply bind_Ok in H1 as (s2 & (e2 & _ & [= <-])%bind_Ok & [= <-]).
      apply IH in H2 as [ls ->]. exists ls. done.
    + injection H1 as <-. by apply IH in H2.
Qed.

Lemma existsb_Forall {A} (f : A -> bool) l : Forall (fun a => f a = false) l -> existsb f l = false.
Proof. induction 1 as [|a l Ha _ IH]; cbn; [done|]. by rewrite Ha. Qed.

Lemma no_expired_loop {SR} now (l : stdmap string NeighborTableEntry) (st : LSState SR) :
  Forall (fun i => hello_expired st now i.2 = false) l ->
  foldM (fun st i => audit_neighbor now i st) st l = Ok st.
Proof.
  induction 1 as [|i l Hi _ IH]; [done|]. cbn [foldM].
  assert (audit_neighbor now i st = Ok st) as -> by (unfold audit_neighbor; by rewrite Hi). apply IH.
Qed.

(** The state [AuditHellos] ends in, for a loop result [st1]. *)
Lemma AuditHellos_eq {SR} now (st : LSState SR) : broadcast_ok st ->
  AuditHellos now st =
    match foldM (fun st i => audit_neighbor now i st) (next_seq st) (m_neighborTable st) with
    | Fault f => Fault f
    | Ok st1 =>
        let finish st2 out :=
          match Timer_Schedule now (m_helloTimeout st2) (m_auditHellosTimer st2) with
          | Ok t => Ok (tt, set_auditHellosTimer t st2, broadcast st (hello_message st) ++ out)
          | Fault f => Fault f
          end in
        if existsb (fun i => hello_expired st now i.2) (m_neighborTable st) then
          match Dijkstra_table st1 with
          | Fault f => Fault f
          | Ok rt =>
              match SendLSTableMessage (set_routingTable rt st1) with
              | Ok (_, st2, out) => finish st2 out
              | Fault f => Fault f
              end
          end
        else finish st1 []
    end.
Proof.
  intros Hb. unfold AuditHellos. unfold mbind at 1, handler_bind at 1. rewrite SendHello_eq by done.
  unfold mbind, handler_bind, get, modifyM, mbind, result_bind.
  change (m_neighborTable (next_seq st)) with (m_neighborTable st).
  change (fun i : string * NeighborTableEntry => hello_expired (next_seq st) now i.2)
    with (fun i : string * NeighborTableEntry => hello_expired st now i.2).
  destruct (foldM _ _ _) as [st1|f]; [|done].
  unfold schedule_audit_hellos, Dijkstra, modifyM, mbind, result_bind, mret, handler_ret.
  destruct (existsb _ _).
  - destruct (Dijkstra_table st1) as [rt|f]; [|done].
    destruct (SendLSTableMessage _) as [[[u st2] out]|f]; [|done].
    destruct (Timer_Schedule _ _ _); [|done]. by rewrite app_nil_r.
  - by destruct (Timer_Schedule _ _ _).
Qed.

(** The audits.  [AuditPings] keeps exactly the tracked pings younger than
    the timeout (in whole milliseconds), sends nothing and schedules itself one
    timeout later; it is fatal if its timer is still running.  [AuditHellos]
    first broadcasts a hello; if it finds no neighbour silent for the timeout
    that is all; otherwise, when it returns, the neighbour table has lost
    exactly the silent neighbours and the routes are those of [Dijkstra]. *)
Theorem audits_spec {SR} (st : LSState SR) now
  (Hb : broadcast_ok st) (Hp : map_wf (m_pingTracker st)) (Hn : map_wf (m_neighborTable st)) :
  (if IsRunning now (m_auditPingsTimer st) then AuditPings now st = Fault FatalError
   else exists st', AuditPings now st = Ok (tt, st', []) /\
     m_auditPingsTimer st' = Some (now + m_pingTimeout st) /\
     (forall k r, map_find k (m_pingTracker st') = Some r <->
        map_find k (m_pingTracker st) = Some r /\ ping_expired st now r = false)) /\
  (IsRunning now (m_auditHellosTimer st) = false ->
   Forall (fun i => hello_expired st now i.2 = false) (m_neighborTable st) ->
   AuditHellos now st = Ok (tt, set_auditHellosTimer (Some (now + m_helloTimeout st)) (next_seq st),
     broadcast st (hello_message st))) /\
  (forall st' out, AuditHellos now st = Ok (tt, st', out) ->
     (forall k e, map_find k (m_neighborTable st') = Some e <->
        map_find k (m_neighborTable st) = Some e /\ hello_expired st now e = false) /\
     m_auditHellosTimer st' = Some (now + m_helloTimeout st) /\
     (existsb (fun i => hello_expired st now i.2) (m_neighborTable st) = true ->
        Dijkstra_table st' = Ok (m_routingTable st'))).
Proof.
  split_and!.
  - unfold AuditPings, schedule_audit_pings, modify, modifyM, mbind, handler_bind, mbind, result_bind.
    unfold Timer_Schedule. cbn [set_pingTracker m_auditPingsTimer].
    destruct (IsRunning now (m_auditPingsTimer st)); [done|].
    eexists; split_and!; [done|done|]. intros k r. cbn [set_auditPingsTimer set_pingTracker m_pingTracker].
    by rewrite map_find_erase_expired.
  - intros Hrun Hall. rewrite AuditHellos_eq, no_expired_loop, existsb_Forall by done.
    unfold Timer_Schedule. cbn [next_seq set_currentSequenceNumber m_auditHellosTimer].
    by rewrite Hrun, app_nil_r.
  - intros st' out. rewrite AuditHellos_eq by done.
    destruct (foldM _ _ _) as [st1|f] eqn:Hl; [|done]. apply audit_loop in Hl as [ls ->].
    set (nt := foldl _ _ _).
    assert (forall k e, map_find k nt = Some e <->
      map_find k (m_neighborTable st) = Some e /\ hello_expired st now e = false) as Hnt.
    { intros k e. apply (map_find_erase_expired (hello_expired st now)). done. }
    cbn zeta. destruct (existsb _ _).
    + set (st1 := tables (next_seq st) nt ls).
      destruct (Dijkstra_table st1) as [rt|f] eqn:Hd; [|done].
      rewrite SendLSTableMessage_eq by exact Hb.
      unfold Timer_Schedule. destruct (IsRunning _ _); [done|]. intros [= <- <-].
      split_and!; [exact Hnt|done|]. intros _.
      transitivity (Dijkstra_table st1); [by apply Dijkstra_table_same|exact Hd].
    + unfold Timer_Schedule. destruct (IsRunning _ _); [done|]. intros [= <- <-].
      by split_and!.
Qed.

(** Node 2 of the triangle fell silent, and the routes survive. *)
Definition silent_state : LSState unit :=
  example_state addr1 [("2"%string, mkNT addr2 addr1 0); ("3"%string, mkNT addr3 addr1 (MilliSeconds 5000))] triangle.

Lemma audits_spec_witness : exists st' out,
  AuditHellos (ms 6000) silent_state = Ok (tt, st', out) /\
  map_find "2"%string (m_neighborTable st') = None /\
  Dijkstra_table st' = Ok (m_routingTable st').
Proof.
  destruct (AuditHellos (ms 6000) silent_state) as [[[[] st'] out]|f] eqn:E; [|by vm_compute in E].
  exists st', out. split; [reflexivity|].
  destruct (audits_spec silent_state (ms 6000)) as (_ & _ & H).
  - by apply (bool_decide_unpack _).
  - apply map_wf_nil.
  - by apply map_wf_b_spec.
  - destruct (H st' out E) as (Hk & _ & Hd). split; [|apply Hd; reflexivity].
    destruct (map_find "2"%string (m_neighborTable st')) as [e|] eqn:He; [|done].
    apply Hk in He as [[= <-] He]. vm_compute in He. discriminate.
Defined.

(** ** Pings *)

(** The three messages of a ping, as the code builds them. *)
Definition ping_req {SR} (st : LSState SR) (dest : Ipv4Address) (text : string) : LSMessage :=
  mkLSMessage PING_REQ (m_currentSequenceNumber st) (m_mainAddress st) (m_maxTTL st)
    (mkPayload (mkPingReq dest text) (pingRsp no_payload) (helloReq no_payload) (lsTableMsg no_payload)).
Definition ping_rsp {SR} (st : LSState SR) (seq : Z) (dest : Ipv4Address) (text : string) : LSMessage :=
  mkLSMessage PING_RSP seq (m_mainAddress st) (m_maxTTL st)
    (mkPayload (pingReq no_payload) (mkPingRsp dest text) (helloReq no_payload) (lsTableMsg no_payload)).

Lemma ProcessCommand_ping {SR} (st : LSState SR) now n text dest :
  broadcast_ok st -> is_u32 n -> ResolveNodeIpAddress st n = dest -> dest <> GetAny ->
  ProcessCommand now ["PING"%string; show_uint n; text] st =
    let st1 := set_pingTracker (map_insert (m_currentSequenceNumber st)
      (mkPingRequest (m_currentSequenceNumber st) now dest text) (m_pingTracker st)) (next_seq st) in
    Ok (tt, st1, broadcast st (ping_req st dest text)).
Proof.
  intros Hb Hn Hr Hd. unfold ProcessCommand.
  unfold mbind, handler_bind, lift, get, modify. cbn [lookup list_lookup or_fault mbind result_bind].
  change (String.eqb "PING" "PING") with true. cbn match. rewrite read_show by done.
  cbn [or_fault mbind result_bind]. rewrite Hr. destruct (Z.eqb_spec dest GetAny); [done|]. cbn [negb].
  rewrite GetNextSequenceNumber_eq. cbn [mbind result_bind].
  unfold mbind, result_bind, SetPingReq, claim_type. cbn -[BroadcastPacket map_insert u32 broadcast].
  rewrite BroadcastPacket_ok by done. done.
Qed.

Lemma ProcessPingReq_eq {SR} (st : LSState SR) now socket seq ttl orig p :
  broadcast_ok st ->
  RecvLSMessage now socket (mkLSMessage PING_REQ seq orig ttl p) st =
    if IsOwnAddress st (PingReq_destinationAddress (pingReq p)) then
      Ok (tt, st, broadcast st (ping_rsp st seq orig (PingReq_pingMessage (pingReq p))))
    else Ok (tt, st, []).
Proof.
  intros Hb. unfold RecvLSMessage, ProcessPingReq. cbn.
  unfold mbind, handler_bind, get, lift, mbind, result_bind. cbn.
  destruct (IsOwnAddress _ _); [|done]. by rewrite BroadcastPacket_ok.
Qed.

Lemma ProcessPingRsp_eq {SR} (st : LSState SR) now socket seq ttl orig p :
  RecvLSMessage now socket (mkLSMessage PING_RSP seq orig ttl p) st =
    if IsOwnAddress st (PingRsp_destinationAddress (pingRsp p)) then
      Ok (tt, set_pingTracker (map_erase seq (m_pingTracker st)) st, [])
    else Ok (tt, st, []).
Proof.
  unfold RecvLSMessage, ProcessPingRsp. cbn. unfold mbind, handler_bind, get. cbn.
  destruct (IsOwnAddress _ _); [|done].
  destruct (map_find seq (m_pingTracker st)) eqn:E; [done|]. unfold mret, handler_ret.
  rewrite map_erase_None by done. by destruct st.
Qed.

(** A ping is answered.  The PING command for a known node tracks the
    request under a new sequence number and broadcasts it; a node that owns
    the destination address answers with a PING_RSP of the same sequence
    number and text, addressed to the originator, and any other node ignores
    it; the response takes the request off the originator's tracker, which is
    then as before the command, and is ignored by nodes it is not addressed
    to. *)
Theorem ping_answered {SRa SRb} (a : LSState SRa) (b : LSState SRb) now1 now2 now3 sa sb n text dest
  (Ha : broadcast_ok a) (Hb : broadcast_ok b) (Hn : is_u32 n)
  (Hdest : ResolveNodeIpAddress a n = dest) (Hany : dest <> GetAny)
  (Hown : IsOwnAddress a (m_mainAddress a) = true)
  (Hfresh : map_find (m_currentSequenceNumber a) (m_pingTracker a) = None) :
  let req := ping_req a dest text in
  let rsp := ping_rsp b (GetSequenceNumber req) (GetOriginatorAddress req) text in
  exists a1 a2,
    ProcessCommand now1 ["PING"%string; show_uint n; text] a = Ok (tt, a1, broadcast a req) /\
    map_find (GetSequenceNumber req) (m_pingTracker a1) =
      Some (mkPingRequest (GetSequenceNumber req) now1 dest text) /\
    RecvLSMessage now2 sb req b =
      Ok (tt, b, if IsOwnAddress b dest then broadcast b rsp else []) /\
    RecvLSMessage now3 sa rsp a1 = Ok (tt, a2, []) /\
    (forall k, map_find k (m_pingTracker a2) = map_find k (m_pingTracker a)).
Proof.
  cbn zeta. eexists; eexists; split_and!.
  - by rewrite (ProcessCommand_ping a now1 n text dest).
  - cbn. rewrite map_find_insert, decide_True by done. by rewrite Hfresh.
  - unfold ping_req. rewrite ProcessPingReq_eq by done. cbn. by destruct (IsOwnAddress b dest).
  - unfold ping_rsp. rewrite ProcessPingRsp_eq.
    replace (IsOwnAddress _ _) with true by (symmetry; exact Hown). done.
  - intros k. cbn [set_pingTracker m_pingTracker GetSequenceNumber ping_req m_sequenceNumber].
    rewrite map_find_erase, map_find_insert. case_decide; [by subst|done].
Qed.

Definition node1 : LSState unit := example_state addr1 [] [].
Definition node2 : LSState unit := example_state addr2 [] [].

Lemma ping_answered_witness :
  let req := ping_req node1 addr2 "hi" in
  let rsp := ping_rsp node2 40 addr1 "hi" in
  exists a1 a2,
    ProcessCommand 0 ["PING"%string; show_uint 2; "hi"%string] node1 = Ok (tt, a1, broadcast node1 req) /\
    RecvLSMessage 0 100 req node2 = Ok (tt, node2, broadcast node2 rsp) /\
    RecvLSMessage 0 100 rsp a1 = Ok (tt, a2, []) /\
    (forall k, map_find k (m_pingTracker a2) = None).
Proof.
  destruct (ping_answered node1 node2 0 0 0 100 100 2 "hi" addr2) as (a1 & a2 & H1 & _ & H2 & H3 & H4).
  - by apply (bool_decide_unpack _).
  - by apply (bool_decide_unpack _).
  - by apply (bool_decide_unpack _).
  - reflexivity.
  - discriminate.
  - reflexivity.
  - reflexivity.
  - exists a1, a2. split; [exact H1|]. split; [exact H2|]. split; [exact H3|]. exact H4.
Defined.

(** ** Routing of data packets *)

(** The data plane.  [RouteOutput] returns a route exactly for the node's
    own main address (gateway 127.0.0.1) and for destinations in the routing
    table (gateway the stored next hop), with the main address as source; for
    every other destination it asks static routing and then returns no route,
    whatever static routing answered.  [RouteInput] drops packets this node
    sent, delivers local ones, forwards along the same routing table, and
    leaves the rest to static routing. *)
Theorem data_plane {SR M} `{!Ipv4RoutingProtocol SR} (st : LSState SR) ip sr packet header oif dev err lcb
  (Hip : m_ipv4 st = Some ip) (Hsr : m_staticRouting st = Some sr)
  (Hdev : forall i, exists d, GetNetDevice ip i = Ok d)
  local (Hlocal : IsDestinationAddress ip (GetDestination header) (u32 (GetInterfaceForDevice ip dev)) = Ok local)
  static_route static_err (Hstatic : RouteOutput_ sr packet header oif err = Ok (static_route, static_err)) :
  let dest := GetDestination header in
  (exists r err', RouteOutput st packet header oif err = Ok (r, err') /\
     match r with
     | Some route => m_dest route = dest /\ m_source route = m_mainAddress st /\ err' = err /\
         (if dest =? m_mainAddress st then m_gateway route = 0x7f000001
          else exists e, SearchTable st dest = Some e /\ m_gateway route = rt_nextHopAddr e)
     | None => dest <> m_mainAddress st /\ SearchTable st dest = None /\
         err' = static_err
     end) /\
  (if IsOwnAddress st (GetSource header) then RouteInput (M := M) st packet header dev lcb = Ok (true, [])
   else let iif := u32 (GetInterfaceForDevice ip dev) in
     if local : bool then
       RouteInput (M := M) st packet header dev lcb = Ok (lcb, if lcb then [LocalDeliver packet iif] else [])
     else match SearchTable st dest with
     | Some e => exists route, RouteInput (M := M) st packet header dev lcb = Ok (true, [UnicastForward route packet]) /\
         m_dest route = dest /\ m_gateway route = rt_nextHopAddr e
     | None => RouteInput (M := M) st packet header dev lcb = RouteInput_ sr packet header dev lcb
     end).
Proof.
  cbn zeta. unfold RouteOutput, RouteInput, make_route. rewrite Hip, Hsr. cbn [or_fault mbind result_bind]. split.
  - destruct (Z.eqb_spec (GetDestination header) (m_mainAddress st)) as [E|E].
    + destruct (Hdev (u32 (GetInterfaceForAddress ip (AsciiToIpv4Host "127.0.0.1")))) as [d ->].
      cbn [mbind result_bind]. eexists (Some _), _. split; [done|]. by split_and!.
    + destruct (SearchTable st (GetDestination header)) as [e|] eqn:Hs.
      * destruct (Hdev (u32 (GetInterfaceForAddress ip (rt_interfaceAddr e)))) as [d ->].
        cbn [mbind result_bind]. eexists (Some _), _. split; [done|]. split_and!; [done..|eauto].
      * rewrite Hstatic. cbn [mbind result_bind]. by exists None, static_err.
  - destruct (IsOwnAddress st (GetSource header)); [done|].
    rewrite Hlocal. cbn [mbind result_bind]. destruct local; [by destruct lcb|].
    destruct (SearchTable st (GetDestination header)) as [e|]; [|done].
    destruct (Hdev (u32 (GetInterfaceForAddress ip (rt_interfaceAddr e)))) as [d ->].
    cbn [mbind result_bind]. eexists; by split_and!.
Qed.

(** A stack whose interface [i] is device [i]. *)
Definition plain_ipv4 : Ipv4 := {|
  GetNInterfaces := 2; GetNAddresses := fun _ => Ok 1;
  GetAddress := fun _ _ => Ok (MakeInterfaceAddress addr1 0xffffff00);
  IsUp := fun _ => Ok true; IsForwarding := fun _ => Ok true; GetIfIndex := fun d => d;
  GetInterfaceForAddress := fun _ => 1; GetInterfaceForDevice := fun d => d;
  IsDestinationAddress := fun a _ => Ok (a =? addr1); GetNetDevice := fun i => Ok i;
  CreateSocket := fun i => 100 + i; Bind := fun _ => 0 |}.

(** Static routing knows the way to 192.168.0.1, and [RouteOutput] does not
    return it. *)
Definition static_route : Ipv4Route := mkRoute 0xc0a80001 addr1 addr2 1.
Definition static_state : LSState (option Ipv4Route) := {|
  m_socketAddresses := []; m_mainAddress := addr1;
  m_staticRouting := Some (Some static_route); m_ipv4 := Some plain_ipv4;
  m_pingTimeout := 0; m_helloTimeout := 0; m_maxTTL := 16; m_lsPort := 5000; m_currentSequenceNumber := 0;
  m_nodeAddressMap := []; m_addressNodeMap := []; m_auditPingsTimer := None; m_auditHellosTimer := None;
  m_pingTracker := []; m_neighborTable := []; m_routingTable := []; m_lsTable := [] |}.

Lemma data_plane_witness :
  let header := {| GetSource := addr2; GetDestination := 0xc0a80001 |} in
  RouteOutput_ (Ipv4RoutingProtocol := fixed_route) (Some static_route) [] header None 10 = Ok (Some static_route, 0) /\
  (exists r err', RouteOutput (Ipv4RoutingProtocol0 := fixed_route) static_state [] header None 10 = Ok (r, err') /\
     r = None /\ err' = 0) /\
  RouteInput (Ipv4RoutingProtocol0 := fixed_route) (M := LSMessage) static_state [] header 1 true =
    Ok (true, [UnicastForward static_route []]).
Proof.
  intros header. split; [reflexivity|].
  destruct (data_plane (Ipv4RoutingProtocol0 := fixed_route) (M := LSMessage) static_state plain_ipv4 (Some static_route)
    [] header None 1 10 true) with (local := false) (static_route := Some static_route) (static_err := 0) as [(r & err' & H1 & H2) H3].
  - reflexivity.
  - reflexivity.
  - intros i. exists i. reflexivity.
  - reflexivity.
  - reflexivity.
  - split; [|exact H3]. exists r, err'. split; [exact H1|]. destruct r as [route|].
    + vm_compute in H2. destruct H2 as (_ & _ & _ & (e & He & _)). discriminate.
    + split; [reflexivity|]. exact (proj2 (proj2 H2)).
Defined.

(** ** A node's own table message coming back *)

Definition links_of {SR} (st : LSState SR) (node : string) : list Ipv4Address := GetNeighbors st node.

(** The run of node 1: hello from 2 (sequence number [s]), hello from 3, and the
    copy of its first table message that node 2 sent on. *)
Definition echo_run (s : Z) : handler (LSState unit) (action LSMessage) unit :=
  _ ← RecvLSMessage (ms 6000) 100 (hello_from addr2 s);
  _ ← RecvLSMessage (ms 6000) 100 (hello_from addr3 6);
  RecvLSMessage (ms 6001) 100 (SetTTL 15 (lsa_from addr1 40 [(addr2, 1)])).

(** The sequence number kept in a node's own LS entry is that of the
    first hello it received, not of a message of its own.  So its own table
    message, sent on by a neighbour, counts as new when the neighbour's hello
    number was smaller: the node replaces its own entry by the old copy, loses
    the link to node 3 that it learnt in between although node 3 stays in the
    neighbour table, and floods the copy again.  When the hello number was
    larger the copy is ignored. *)
Theorem own_lsa_accepted :
  match echo_run 5 node1 with
  | Ok (_, st, out) =>
      map_keys (m_neighborTable st) = ["2"; "3"]%string /\ links_of st "1" = [addr2] /\
      last out = Some (SendTo 100 0x0a0001ff 5000 (SetTTL 14 (lsa_from addr1 40 [(addr2, 1)])))
  | Fault _ => False
  end /\
  match echo_run 50 node1 with
  | Ok (_, st, out) =>
      map_keys (m_neighborTable st) = ["2"; "3"]%string /\ links_of st "1" = [addr2; addr3] /\
      last out = Some (SendTo 100 0x0a0001ff 5000 (lsa_from addr1 41 [(addr2, 1); (addr3, 1)]))
  | Fault _ => False
  end.
Proof. vm_compute. repeat split. Qed.
