(* ===== verification/LSInvariant.v ===== *)
(** * LSInvariant: what holds in every state of a link-state node

    The events that reach an LSRoutingProtocol object, as a step relation, and
    the invariant that all of them keep: the tables are well-formed maps, keyed
    by the names of the addresses they hold, and every message the node sends
    can be represented on the wire. *)

From S2P Require Import Prelude StdMap StdString Ipv4Address Codec LSMessage Node Triple LSRouting LSDijkstra LSProtocol.

(** ** Events *)

Inductive ls_event : Type :=
| EvRecv (socket : SocketPtr) (m : LSMessage)
| EvCommand (tokens : list string)
| EvPingTimer
| EvHelloTimer.

(** Messages come from the wire, and a PING text is short enough for it. *)
Definition event_valid (ev : ls_event) : Prop :=
  match ev with
  | EvRecv _ m => LSMessage_valid m
  | EvCommand tokens => Forall (fun t => is_u16 (str_length t)) tokens
  | _ => True
  end.

Section steps.
Context {SR : Type}.

Definition run_event (now : Time) (ev : ls_event) : handler (LSState SR) (action LSMessage) unit :=
  match ev with
  | EvRecv socket m => RecvLSMessage now socket m
  | EvCommand tokens => ProcessCommand now tokens
  | EvPingTimer => AuditPings now
  | EvHelloTimer => AuditHellos now
  end.

(** [st] handles an event and becomes [st'], sending [out]. *)
Inductive ls_step (st : LSState SR) : LSState SR -> list (action LSMessage) -> Prop :=
| step_event now ev st' out :
    event_valid ev -> run_event now ev st = Ok (tt, st', out) -> ls_step st st' out.

(** Runs, with everything sent on the way. *)
Inductive ls_run (st : LSState SR) : LSState SR -> list (action LSMessage) -> Prop :=
| run_nil : ls_run st st []
| run_snoc st' out st'' out' :
    ls_run st st' out -> ls_step st' st'' out' -> ls_run st st'' (out ++ out').

(** ** The invariant *)

(** Fixed by the configuration. *)
Record ls_config (st : LSState SR) : Prop := {
  cf_main : is_u32 (m_mainAddress st);
  cf_ttl : is_u8 (m_maxTTL st);
  cf_addr_wf : map_wf (m_addressNodeMap st);
  cf_addr a n : map_find a (m_addressNodeMap st) = Some n -> is_u32 n;
  cf_addr_size : Z.of_nat (length (m_addressNodeMap st)) + 1 < 2 ^ 16;
  cf_node n a : map_find n (m_nodeAddressMap st) = Some a -> is_u32 a
}.

Record ls_inv (st : LSState SR) : Prop := {
  iv_config : ls_config st;
  iv_seq : is_u32 (m_currentSequenceNumber st);
  iv_pings : map_wf (m_pingTracker st);
  iv_nt : map_wf (m_neighborTable st);
  iv_ls : map_wf (m_lsTable st);
  iv_rt : map_wf (m_routingTable st);
  iv_nt_name k e : map_find k (m_neighborTable st) = Some e ->
    k = ReverseLookup st (nt_neighborAddr e) /\ is_u32 (nt_neighborAddr e);
  iv_ls_name k e : map_find k (m_lsTable st) = Some e -> exists a, k = ReverseLookup st a
}.

Definition sends_valid (o : action LSMessage) : Prop :=
  match o with SendTo _ _ _ m => LSMessage_valid m | _ => True end.

Notation triple := (htriple sends_valid).

Lemma BroadcastPacket_triple (P : LSState SR -> Prop) m : LSMessage_valid m -> triple P (BroadcastPacket m) (fun _ => P).
Proof.
  intros Hm st u st' out HP. revert st u st' out HP.
  assert (forall s, P s -> triple (eq s) (BroadcastPacket m) (fun _ => P)) as H; [|naive_solver].
  intros s HP. apply triple_get_bind. intros s' <-.
  eapply triple_conseq with (P := P) (Q := fun _ => P); [by intros ? <-|done|].
  apply triple_for. intros p _. apply triple_lift_bind. intros a _. by apply triple_emit.
Qed.

(** ** Names *)

Lemma ReverseLookup_in (st : LSState SR) a :
  ReverseLookup st a ∈ "Unknown"%string :: map show_uint (m_addressNodeMap st).*2.
Proof.
  unfold ReverseLookup. destruct (map_find a (m_addressNodeMap st)) as [n|] eqn:E; [|left].
  right. apply map_find_elem in E. apply list_elem_of_fmap. exists n. split; [done|].
  apply list_elem_of_fmap. by exists (a, n).
Qed.

Lemma neighbors_bounded st : ls_inv st -> is_u16 (Z.of_nat (length (m_neighborTable st))).
Proof.
  intros I. pose proof (cf_addr_size _ (iv_config _ I)) as Hs.
  assert (map_keys (m_neighborTable st) ⊆+ "Unknown"%string :: map show_uint (m_addressNodeMap st).*2) as Hsub.
  { apply NoDup_submseteq; [apply map_wf_NoDup, I|]. intros k Hk.
    apply map_find_is_Some in Hk as [e He]. apply (iv_nt_name _ I) in He as [-> _]. apply ReverseLookup_in. }
  apply submseteq_length in Hsub. unfold map_keys in Hsub. cbn [length] in Hsub.
  rewrite length_map, !length_fmap in Hsub. unfold is_u16. lia.
Qed.

(** ** Messages the node builds *)

Lemma table_message_valid st : ls_inv st -> LSMessage_valid (table_message st).
Proof.
  intros I. unfold LSMessage_valid, table_message. cbn [m_sequenceNumber m_originatorAddress m_ttl].
  split_and!; [apply I|apply (cf_main _ (iv_config _ I))|apply (cf_ttl _ (iv_config _ I))|].
  unfold payload_valid. cbn. split; [done|]. unfold costs_valid. rewrite length_map.
  split; [by apply neighbors_bounded|]. apply Forall_map, Forall_forall. intros [k e] Hin. cbn.
  apply (map_elem_find k e) in Hin; [|apply I]. apply (iv_nt_name _ I) in Hin as [_ ?]. split; [done|].
  unfold is_u32. lia.
Qed.

Lemma resolve_u32 st n : ls_config st -> is_u32 (ResolveNodeIpAddress st n).
Proof.
  intros I. unfold ResolveNodeIpAddress. destruct (map_find n (m_nodeAddressMap st)) eqn:E.
  - by apply (cf_node _ I) in E.
  - done.
Qed.

Lemma string_message_valid t seq ttl orig pl :
  is_u32 seq -> is_u32 orig -> is_u8 ttl -> payload_valid (mkLSMessage t seq orig ttl pl) ->
  LSMessage_valid (mkLSMessage t seq orig ttl pl).
Proof. by unfold LSMessage_valid. Qed.

Lemma SetTTL_valid ttl m : is_u8 ttl -> LSMessage_valid m -> LSMessage_valid (SetTTL ttl m).
Proof. intros Ht (Hs & Ho & _ & Hp). by unfold LSMessage_valid. Qed.

(** ** The updates keep the invariant *)

Lemma config_same (st st' : LSState SR) :
  ls_config st -> m_mainAddress st' = m_mainAddress st -> m_maxTTL st' = m_maxTTL st ->
  m_addressNodeMap st' = m_addressNodeMap st -> m_nodeAddressMap st' = m_nodeAddressMap st -> ls_config st'.
Proof. intros [] E1 E2 E3 E4. split; rewrite ?E1, ?E2, ?E3, ?E4; auto. Qed.

Lemma inv_next_seq st : ls_inv st -> ls_inv (next_seq st).
Proof. intros []. split; try done; [by eapply config_same|apply u32_range]. Qed.

Lemma inv_pingTracker st m : map_wf m -> ls_inv st -> ls_inv (set_pingTracker m st).
Proof. intros Hm []. split; try done. by eapply config_same. Qed.

Lemma inv_routingTable st m : map_wf m -> ls_inv st -> ls_inv (set_routingTable m st).
Proof. intros Hm []. split; try done. by eapply config_same. Qed.

Lemma inv_pingsTimer st t : ls_inv st -> ls_inv (set_auditPingsTimer t st).
Proof. intros []. split; try done. by eapply config_same. Qed.

Lemma inv_hellosTimer st t : ls_inv st -> ls_inv (set_auditHellosTimer t st).
Proof. intros []. split; try done. by eapply config_same. Qed.

Lemma inv_lsTable st m : map_wf m ->
  (forall k e, map_find k m = Some e -> exists a, k = ReverseLookup st a) ->
  ls_inv st -> ls_inv (set_lsTable m st).
Proof. intros Hm Hk []. split; try done. by eapply config_same. Qed.

Lemma inv_neighborTable st m : map_wf m ->
  (forall k e, map_find k m = Some e -> k = ReverseLookup st (nt_neighborAddr e) /\ is_u32 (nt_neighborAddr e)) ->
  ls_inv st -> ls_inv (set_neighborTable m st).
Proof. intros Hm Hk []. split; try done. by eapply config_same. Qed.

(** ** The handlers keep the invariant *)

Lemma GetNextSequenceNumber_triple (s : LSState SR) :
  triple (eq s) GetNextSequenceNumber (fun n st => n = m_currentSequenceNumber s /\ st = next_seq s).
Proof. by intros st n st' out <- [= <- <- <-]. Qed.

Lemma broadcast_inv m : LSMessage_valid m -> triple ls_inv (BroadcastPacket m) (fun _ => ls_inv).
Proof. apply BroadcastPacket_triple. Qed.

Lemma SendHello_inv : triple ls_inv SendHello (fun _ => ls_inv).
Proof.
  apply triple_get_bind. intros s I. eapply triple_bind; [apply GetNextSequenceNumber_triple|].
  intros n. apply triple_lift_bind. intros m [= <-].
  eapply (triple_conseq (fun st => n = m_currentSequenceNumber s /\ ls_inv st)).
  - intros st [-> ->]. split; [done|]. by apply inv_next_seq.
  - intros a st. exact (fun H => H).
  - intros st a st' out [-> HI] H. revert HI H. apply broadcast_inv.
    pose proof (iv_config _ I) as C. apply string_message_valid; [apply I|apply (cf_main _ C)|done|].
    unfold payload_valid. cbn. split; [by apply resolve_u32|done].
Qed.

Lemma SendLSTableMessage_inv : triple ls_inv SendLSTableMessage (fun _ => ls_inv).
Proof.
  assert (forall s, ls_inv s -> triple (eq s) SendLSTableMessage (fun _ => ls_inv)) as H.
  2: { intros st a st' out HI. by apply (H st HI). }
  intros s I. eapply triple_bind; [apply GetNextSequenceNumber_triple|].
  intros n. apply triple_get_bind. intros s1 [-> ->]. apply triple_lift_bind. intros m [= <-].
  eapply (triple_conseq ls_inv); [intros ? <-; by apply inv_next_seq|intros a st H; exact H|].
  apply broadcast_inv. apply (table_message_valid s I).
Qed.

Lemma relax_wf (st : LSState SR) s rt a rt' : relax st s rt a = Ok rt' -> map_wf rt -> map_wf rt'.
Proof.
  unfold relax. intros H Hwf. apply bind_Ok in H as (c & _ & H). apply bind_Ok in H as (d & _ & H).
  destruct (_ <? _); [|by injection H as <-]. apply bind_Ok in H as (nt & _ & H).
  destruct (map_find (ReverseLookup st a) rt); injection H as <-;
    [by apply map_wf_update|by apply map_wf_insert].
Qed.

Lemma Dijkstra_table_wf (st : LSState SR) rt : Dijkstra_table st = Ok rt -> map_wf rt.
Proof.
  unfold Dijkstra_table, Dijkstra_init. intros (rt0 & H0 & H)%bind_Ok. apply bind_Ok in H as (found & _ & H).
  assert (map_wf rt0) as Hwf.
  { eapply (foldM_inv map_wf); [|apply map_wf_insert, map_wf_nil|exact H0].
    intros m b y _ Hm (nt & _ & (d & _ & [= <-])%bind_Ok)%bind_Ok. by apply map_wf_insert. }
  clear H0. revert rt0 found H Hwf. generalize (length (m_lsTable st) - 1)%nat as n.
  induction n as [|n IH]; intros rt0 found; cbn [Dijkstra_loop]; [by intros [= <-]|].
  intros ([rt1 f1] & Hstep & H)%bind_Ok Hwf. eapply IH; [exact H|].
  unfold Dijkstra_step in Hstep. apply bind_Ok in Hstep as (c & _ & Hstep).
  apply bind_Ok in Hstep as (f & _ & Hstep). apply bind_Ok in Hstep as (rt2 & Hf & [= <- <-]).
  eapply (foldM_inv map_wf); [|exact Hwf|exact Hf]. intros m b y _ Hm Hr. by eapply relax_wf.
Qed.

Lemma Dijkstra_inv : triple ls_inv Dijkstra (fun _ => ls_inv).
Proof.
  apply triple_modifyM. intros st st' I (rt & Hrt & [= <-])%bind_Ok.
  apply inv_routingTable; [by eapply Dijkstra_table_wf|done].
Qed.

Lemma ProcessPingReq_inv m : LSMessage_valid m -> GetMessageType m = PING_REQ ->
  triple ls_inv (ProcessPingReq m) (fun _ => ls_inv).
Proof.
  intros (Hs & Ho & _ & Hp) Ht. apply triple_get_bind. intros s I. pose proof (iv_config _ I) as C.
  unfold payload_valid in Hp. unfold GetMessageType in Ht. rewrite decide_True in Hp by done.
  destruct (IsOwnAddress _ _).
  - apply triple_lift_bind. intros r [= <-].
    eapply (triple_conseq ls_inv); [by intros ? <-|intros a st H; exact H|]. apply broadcast_inv.
    apply string_message_valid; [done|apply (cf_main _ C)|apply (cf_ttl _ C)|].
    unfold payload_valid. cbn. split; [done|]. apply Hp.
  - eapply (triple_conseq ls_inv); [by intros ? <-|intros a st H; exact H|].
    apply (triple_ret (fun _ => ls_inv)).
Qed.

Lemma ProcessPingRsp_inv m : triple ls_inv (ProcessPingRsp m) (fun _ => ls_inv).
Proof.
  apply triple_get_bind. intros s I.
  eapply (triple_conseq (fun st => st = s)); [by intros ? <-|intros a st H; exact H|].
  assert (forall st, st = s -> ls_inv st) as Hs by by intros ? ->.
  destruct (IsOwnAddress _ _); [|by apply (triple_conseq ls_inv (fun st => st = s) (fun _ => ls_inv) (fun _ => ls_inv)); [..|apply (triple_ret (fun _ => ls_inv))]].
  destruct (map_find _ _).
  - apply triple_modify. intros st ->. apply inv_pingTracker; [apply map_wf_erase, I|done].
  - by apply (triple_conseq ls_inv (fun st => st = s) (fun _ => ls_inv) (fun _ => ls_inv)); [..|apply (triple_ret (fun _ => ls_inv))].
Qed.

Lemma ProcessHelloReq_inv now m socket : LSMessage_valid m ->
  triple ls_inv (ProcessHelloReq now m socket) (fun _ => ls_inv).
Proof.
  intros (Hs & Ho & _ & Hp). apply triple_get_bind. intros s I. cbn zeta.
  set (fromNode := ReverseLookup s (GetOriginatorAddress m)).
  destruct (map_find fromNode (m_neighborTable s)) as [e0|] eqn:Hf.
  - eapply (triple_conseq (fun st => st = s)); [by intros ? <-|intros a st H; exact H|].
    apply triple_modify. intros st ->. apply inv_neighborTable; [apply map_wf_update, I| |done].
    intros k e. rewrite map_find_update. case_decide; [subst k|apply I].
    rewrite Hf. cbn. intros [= <-]. by apply (iv_nt_name _ I) in Hf.
  - assert (forall a : unit, forall st, ls_inv st -> ls_inv st) as _ by done.
    eapply (triple_bind _ (fun _ st => ls_inv st /\ m_lsTable st = m_lsTable s /\
      forall a, ReverseLookup st a = ReverseLookup s a)).
    { apply triple_modify. intros st <-. split; [|done]. apply inv_neighborTable; [apply map_wf_insert, I| |done].
      intros k e. rewrite map_find_insert, Hf. case_decide; [subst k|apply I]. by intros [= <-]. }
    intros _. eapply (triple_bind _ (fun _ => ls_inv)).
    { set (thisNode := ReverseLookup s (m_mainAddress s)).
      destruct (map_find thisNode (m_lsTable s)) as [e1|] eqn:Hl; apply triple_modify;
        intros st (HI & Hls & Hname); apply inv_lsTable; try done.
      - apply map_wf_update, I.
      - intros k e. rewrite map_find_update. setoid_rewrite Hname. case_decide as E; [|apply I].
        rewrite <- E. intros _. by eexists.
      - apply map_wf_insert, I.
      - intros k e. rewrite map_find_insert. setoid_rewrite Hname. case_decide as E; [|apply I].
        rewrite <- E. intros _. by eexists. }
    intros _. eapply triple_bind; [apply Dijkstra_inv|]. intros ?. apply SendLSTableMessage_inv.
Qed.

Lemma ProcessLSTableMessage_inv m : LSMessage_valid m ->
  triple ls_inv (ProcessLSTableMessage m) (fun _ => ls_inv).
Proof.
  intros Hm. apply triple_get_bind. intros s I.
  eapply (triple_conseq (fun st => ls_inv st /\ st = s)); [by intros ? <-|intros a st H; exact H|].
  cbn zeta. destruct (is_new_lsa s (ReverseLookup s (GetOriginatorAddress m)) (GetSequenceNumber m)).
  - eapply (triple_bind _ (fun _ st => ls_inv st /\ forall a, ReverseLookup st a = ReverseLookup s a)).
    { apply triple_modify. intros st [HI ->]. split; [|done]. apply inv_lsTable; [apply map_wf_erase, I| |done].
      intros k e. rewrite map_find_erase. case_decide; [done|apply I]. }
    intros _. eapply (triple_bind _ (fun _ => ls_inv)).
    { apply triple_modify. intros st [HI Hname]. apply inv_lsTable; [apply map_wf_insert, HI| |done].
      intros k e. rewrite map_find_insert. case_decide; [subst k|apply HI].
      intros _. eexists. symmetry. apply Hname. }
    intros _. eapply triple_bind; [apply Dijkstra_inv|]. intros ?.
    apply broadcast_inv, SetTTL_valid; [apply u8_range|done].
  - eapply (triple_conseq ls_inv); [by intros ? []|intros a st H; exact H|].
    apply (triple_ret (fun _ => ls_inv)).
Qed.

Lemma schedule_pings_inv now : triple ls_inv (schedule_audit_pings now) (fun _ => ls_inv).
Proof. apply triple_modifyM. intros st st' I (t & _ & [= <-])%bind_Ok. by apply inv_pingsTimer. Qed.

Lemma schedule_hellos_inv now : triple ls_inv (schedule_audit_hellos now) (fun _ => ls_inv).
Proof. apply triple_modifyM. intros st st' I (t & _ & [= <-])%bind_Ok. by apply inv_hellosTimer. Qed.

Lemma AuditPings_inv now : triple ls_inv (AuditPings now) (fun _ => ls_inv).
Proof.
  eapply (triple_bind _ (fun _ => ls_inv)); [|intros ?; apply schedule_pings_inv].
  apply triple_modify. intros st I. apply inv_pingTracker; [|done].
  apply map_wf_erase_expired, I.
Qed.

Lemma removeLink_inv node a st st' : removeLink_at node a st = Ok st' -> ls_inv st -> ls_inv st'.
Proof.
  unfold removeLink_at. intros (e0 & He & [= <-])%bind_Ok I.
  apply inv_lsTable; [apply map_wf_update, I| |done].
  intros k e. rewrite map_find_update. case_decide as E; [|apply I]. subst k. intros _.
  apply or_fault_Ok in He. by eapply iv_ls_name.
Qed.

Lemma audit_neighbor_inv now i st st' : audit_neighbor now i st = Ok st' -> ls_inv st -> ls_inv st'.
Proof.
  unfold audit_neighbor. destruct (hello_expired _ _ _); [|by intros [= <-]].
  intros (s1 & H1 & H)%bind_Ok I. apply bind_Ok in H as (s2 & H2 & [= <-]).
  eapply removeLink_inv in H1; [|done]. eapply removeLink_inv in H2; [|done].
  apply inv_neighborTable; [apply map_wf_erase, H2| |done].
  intros k e. rewrite map_find_erase. case_decide; [done|apply H2].
Qed.

Lemma AuditHellos_inv now : triple ls_inv (AuditHellos now) (fun _ => ls_inv).
Proof.
  eapply triple_bind; [apply SendHello_inv|]. intros ?. apply triple_get_bind. intros s I. cbn zeta.
  eapply (triple_bind _ (fun _ => ls_inv)).
  { apply triple_modifyM. intros st st' <- Hf. eapply (foldM_inv ls_inv); [|exact I|exact Hf].
    intros x b y _ Hx Hs. eapply audit_neighbor_inv; [exact Hs|exact Hx]. }
  intros ?. eapply (triple_bind _ (fun _ => ls_inv)); [|intros ?; apply schedule_hellos_inv].
  destruct (existsb _ _); [|apply (triple_ret (fun _ => ls_inv))].
  eapply triple_bind; [apply Dijkstra_inv|]. intros ?. apply SendLSTableMessage_inv.
Qed.

(** Handlers that only print the tables. *)
Lemma dump_inv {A} (l : LSState SR -> list A) (row : LSState SR -> A -> action LSMessage) :
  (forall s a, sends_valid (row s a)) ->
  triple ls_inv (st ← get; for_loop (l st) (fun a => emit (row st a))) (fun _ => ls_inv).
Proof.
  intros Hr. apply triple_get_bind. intros s I.
  eapply (triple_conseq ls_inv); [by intros ? <-|intros a st H; exact H|].
  apply triple_for. intros a _. by apply triple_emit.
Qed.

Lemma ping_command_inv now number pingMessage : is_u16 (str_length pingMessage) ->
  triple ls_inv (
    nodeNumber ← lift (read_uint32 number ?? UninitRead);
    st ← get;
    let destAddress := ResolveNodeIpAddress st nodeNumber in
    if negb (destAddress =? GetAny) then
      sequenceNumber ← GetNextSequenceNumber;
      let pingRequest := mkPingRequest sequenceNumber now destAddress pingMessage in
      _ ← modify (fun st => set_pingTracker (map_insert sequenceNumber pingRequest (m_pingTracker st)) st);
      let lsMessage := MakeLSMessage PING_REQ sequenceNumber (m_maxTTL st) (m_mainAddress st) in
      lsMessage ← lift (SetPingReq destAddress pingMessage lsMessage);
      BroadcastPacket lsMessage
    else mret tt) (fun _ => ls_inv).
Proof.
  intros Hl. apply triple_lift_bind. intros n _. apply triple_get_bind. intros s I. cbn zeta.
  pose proof (iv_config _ I) as C. destruct (negb _).
  - eapply triple_bind; [apply GetNextSequenceNumber_triple|]. intros seq st a st' out [-> ->].
    revert a st' out. assert (ls_inv (next_seq s)) as I' by by apply inv_next_seq.
    revert I'. generalize (next_seq s) as s1. intros s1 I1 a st' out. revert I1. generalize s1, a, st', out.
    eapply (triple_bind _ (fun _ => ls_inv)).
    { apply triple_modify. intros st HI. apply inv_pingTracker; [apply map_wf_insert, HI|done]. }
    intros ?. apply triple_lift_bind. intros m [= <-]. apply broadcast_inv.
    apply string_message_valid; [apply I|apply (cf_main _ C)|apply (cf_ttl _ C)|].
    unfold payload_valid. cbn. split; [by apply resolve_u32|done].
  - eapply (triple_conseq ls_inv); [by intros ? <-|intros a st H; exact H|].
    apply (triple_ret (fun _ => ls_inv)).
Qed.

Lemma ProcessCommand_inv now tokens : Forall (fun t => is_u16 (str_length t)) tokens ->
  triple ls_inv (ProcessCommand now tokens) (fun _ => ls_inv).
Proof.
  intros Ht. assert (triple ls_inv (mret tt) (fun _ => ls_inv)) as Hret by apply (triple_ret (fun _ => ls_inv)).
  apply triple_lift_bind. intros command _. destruct (String.eqb command "PING").
  { destruct tokens as [|c [|n [|t tokens]]]; try exact Hret. apply ping_command_inv.
    rewrite !Forall_cons in Ht. apply Ht. }
  destruct (String.eqb command "DUMP").
  { destruct tokens as [|c [|t tokens]]; try exact Hret.
    destruct (_ || _); [by apply dump_inv|]. destruct (_ || _); [by apply dump_inv|].
    destruct (String.eqb t "LSA"); [by apply dump_inv|done]. }
  destruct (String.eqb command "HELLO"); [apply SendHello_inv|].
  destruct (String.eqb command "LSTABLEMSG"); [apply SendLSTableMessage_inv|done].
Qed.

Lemma RecvLSMessage_inv now socket m : LSMessage_valid m ->
  triple ls_inv (RecvLSMessage now socket m) (fun _ => ls_inv).
Proof.
  intros Hm. unfold RecvLSMessage. cbn zeta.
  destruct (Z.eqb_spec (GetMessageType m) PING_REQ); [by apply ProcessPingReq_inv|].
  destruct (_ =? PING_RSP); [apply ProcessPingRsp_inv|].
  destruct (_ =? HELLO_REQ); [by apply ProcessHelloReq_inv|].
  destruct (_ =? LS_TABLE_MSG); [by apply ProcessLSTableMessage_inv|].
  apply (triple_ret (fun _ => ls_inv)).
Qed.

Lemma run_event_inv now ev : event_valid ev -> triple ls_inv (run_event now ev) (fun _ => ls_inv).
Proof.
  destruct ev; cbn; intros Hv; [by apply RecvLSMessage_inv|by apply ProcessCommand_inv|apply AuditPings_inv|
    apply AuditHellos_inv].
Qed.
End steps.

(** (C17) The invariant of a link-state node.  Whatever valid messages it
    receives, commands it is given and timers expire, in any order, as long as
    no event faults: the tables stay well-formed maps, every neighbour entry is
    filed under the name of its address, every LS entry under the name of some
    address, the sequence number stays a 32-bit number, and every message the
    node sends fits its wire format (so the header round trip applies to
    it). *)
Theorem ls_invariant {SR} (st st' : LSState SR) out (HI : ls_inv st) (Hrun : ls_run st st' out) :
  ls_inv st' /\ Forall sends_valid out.
Proof.
  induction Hrun as [|st' out st'' out' Hrun [I Ho] Hstep]; [by split|].
  destruct Hstep as [now ev st'' out' Hv Hrun']. destruct (run_event_inv now ev Hv _ _ _ _ I Hrun').
  split; [done|]. by apply Forall_app.
Qed.

Lemma node1_inv : ls_inv node1.
Proof.
  split; try by (apply map_wf_b_spec || done).
  split; try by (apply map_wf_b_spec || done).
  - intros a n. cbn. repeat case_decide; try done; intros [= <-]; done.
  - intros n a. cbn. repeat case_decide; try done; intros [= <-]; done.
Qed.

Lemma ls_invariant_witness : exists st' out,
  ls_run node1 st' out /\ length out = 2%nat /\ ls_inv st' /\ Forall sends_valid out.
Proof.
  destruct (run_event (ms 6000) (EvRecv 100 (hello_from addr2 5)) node1) as [[[[] s1] o1]|f] eqn:E1;
    [|by vm_compute in E1].
  destruct (run_event (ms 6001) (EvRecv 100 (lsa_from addr2 50 [(addr1, 1)])) s1) as [[[[] s2] o2]|f] eqn:E2.
  - assert (ls_run node1 s2 (([] ++ o1) ++ o2)) as Hrun.
    { eapply run_snoc; [eapply run_snoc; [apply run_nil|]|].
      - eapply (step_event _ _ _ _ _ _ E1).
      - eapply (step_event _ _ _ _ _ _ E2). }
    exists s2, (([] ++ o1) ++ o2). split; [exact Hrun|]. split.
    + vm_compute in E1. injection E1 as <- <-. vm_compute in E2. injection E2 as <- <-. reflexivity.
    + exact (ls_invariant node1 s2 _ node1_inv Hrun).
  - vm_compute in E1. injection E1 as <- <-. by vm_compute in E2.
  Unshelve. all: by apply (bool_decide_unpack _).
Defined.
