(* ===== verification/LSFlood.v ===== *)
(** * LSFlood: flooding across a link-state network

    Nodes of ls-routing-protocol.cc on a fixed topology, while table messages
    are under way.  A datagram sent on a socket arrives, in any order with
    others, at every node on the other end of its channel ([wire]).  Whatever
    the order, the messages run out, and all nodes end up with the same LS table
    and the routes of [Dijkstra] on it: the state that LSForwarding and ListSpec
    start from.  A delivery faults exactly when the new table leaves some node
    unreachable, and never on a [backbone] of links that all entries list. *)

From stdpp Require Import relations.
From S2P Require Import Prelude StdMap StdString Ipv4Address Codec LSMessage Node LSRouting LSDijkstra LSForwarding LSProtocol.

#[export] Instance LSTableEntry_eq_dec : EqDecision LSTableEntry.
Proof. solve_decision. Defined.

(** A filter that lets less through. *)
Lemma filter_shorter {A} (P Q : A -> Prop) `{!forall x, Decision (P x), !forall x, Decision (Q x)} (l : list A) a :
  (forall x, Q x -> P x) -> a ∈ l -> P a -> ~ Q a -> (length (filter Q l) < length (filter P l))%nat.
Proof.
  intros Hi Ha HP HQ. induction l as [|x l IH]; [by apply not_elem_of_nil in Ha|].
  assert (forall l', length (filter Q l') <= length (filter P l'))%nat as Hle.
  { clear - Hi. intros l'. induction l' as [|y l' IH]; [done|]. rewrite !filter_cons.
    destruct (decide (Q y)) as [q|]; [rewrite (decide_True (P := P y)) by auto; cbn; lia|].
    destruct (decide (P y)); cbn; lia. }
  rewrite !filter_cons. apply elem_of_cons in Ha as [<-|Ha].
  - rewrite decide_False, decide_True by done. cbn. specialize (Hle l). lia.
  - specialize (IH Ha). destruct (decide (Q x)); [rewrite decide_True by auto; cbn; lia|].
    destruct (decide (P x)); cbn; lia.
Qed.

(** A map with no more keys is no longer. *)
Lemma wf_length {V W} (m1 : stdmap string V) (m2 : stdmap string W) : map_wf m1 ->
  (forall x, is_Some (map_find x m1) -> is_Some (map_find x m2)) -> (length m1 <= length m2)%nat.
Proof.
  intros Hwf H. rewrite <- (length_fmap fst m1), <- (length_fmap fst m2). apply submseteq_length, NoDup_submseteq; [by apply map_wf_NoDup|].
  intros x Hx. apply map_find_is_Some, H, map_find_is_Some, Hx.
Qed.

(** ** Networks *)

Section flood.
Context {SR : Type}.

(** The nodes on the other end of a socket's channel. *)
Context (wire : string -> SocketPtr -> list string).

(** Each node's state, and the messages under way with their receivers. *)
Record network := mkNetwork { local : string -> LSState SR; flight : list (string * LSMessage) }.

Definition transmitted (u : string) (out : list (action LSMessage)) : list (string * LSMessage) :=
  concat (map (fun o => match o with SendTo s _ _ m => map (fun v => (v, m)) (wire u s) | _ => [] end) out).

(** The network after node [v] took the message between [l1] and [l2]. *)
Definition after (net : network) (l1 l2 : list (string * LSMessage)) v st' out : network :=
  mkNetwork (fun w => if decide (w = v) then st' else local net w) (l1 ++ l2 ++ transmitted v out).

Inductive deliver (net : network) : network -> Prop :=
| deliver_one l1 v m l2 now socket st' out :
    flight net = l1 ++ (v, m) :: l2 -> RecvLSMessage now socket m (local net v) = Ok (tt, st', out) ->
    deliver net (after net l1 l2 v st' out).

Inductive deliveries : nat -> network -> network -> Prop :=
| no_delivery net : deliveries 0 net net
| more_deliveries n net1 net2 net3 : deliver net1 net2 -> deliveries n net2 net3 -> deliveries (S n) net1 net3.

(** ** What is being flooded *)

(** The LS table the network is to agree on, and the names of addresses. *)
Context (L : stdmap string LSTableEntry) (M : stdmap Ipv4Address Z).

Definition name_of (a : Ipv4Address) : string :=
  match map_find a M with Some n => show_uint n | None => "Unknown" end.
Definition is_node (u : string) : Prop := is_Some (map_find u L).
Definition origin (m : LSMessage) : string := name_of (GetOriginatorAddress m).
Definition entry (net : network) (u x : string) : option LSTableEntry := map_find x (m_lsTable (local net u)).

(** [m] carries the entry of its originator in [L]. *)
Definition announces (m : LSMessage) : Prop :=
  GetMessageType m = LS_TABLE_MSG /\
  map_find (origin m) L = Some (mkLST (neighborCosts (GetLSTableMsg m)) (GetSequenceNumber m)).

Definition linked (net : network) (u v : string) : Prop :=
  exists p, p ∈ m_socketAddresses (local net u) /\ v ∈ wire u p.1.

Definition under_way (net : network) (v x : string) : Prop := exists m, (v, m) ∈ flight net /\ origin m = x.

(** Entry [e] lists only nodes, at positive costs whose sums stay below the
    value that stands for infinity. *)
Definition listed_ok (e : LSTableEntry) : Prop :=
  forall a c, (a, c) ∈ lst_neighborCosts e -> is_node (name_of a) /\ 0 < c /\ c * Z.of_nat (length L) < INT_MAX.

(** A node has in its neighbour table what [e], as its own entry, lists. *)
Definition knows (st : LSState SR) (e : LSTableEntry) : Prop :=
  forall a c, (a, c) ∈ lst_neighborCosts e -> is_Some (map_find (name_of a) (m_neighborTable st)).

(** A state of the flooding: every node is configured, has for every
    originator the entry of [L], an older one or none, and has routes for its
    table; what is under way announces entries of [L]; a node that has an
    entry of [L] has passed it on; and every entry has started out.  [F]
    bounds the datagrams of one broadcast.  Nothing is assumed here of the
    tables the nodes have meanwhile. *)
Record flooding (F : nat) (net : network) : Prop := {
  fl_wf : map_wf L;
  fl_named : map_find EmptyString L = None;
  fl_listed u e : map_find u L = Some e -> listed_ok e;
  fl_known u e : map_find u L = Some e -> knows (local net u) e;
  fl_names u : is_node u -> m_addressNodeMap (local net u) = M;
  fl_self u : is_node u -> this_node (local net u) = u;
  fl_broadcast u : is_node u -> broadcast_ok (local net u);
  fl_wires u s v : is_node u -> v ∈ wire u s -> is_node v;
  fl_fan u m : is_node u -> (length (transmitted u (broadcast (local net u) m)) <= F)%nat;
  fl_connected u v : is_node u -> is_node v -> rtc (linked net) u v;
  fl_table_wf u : is_node u -> map_wf (m_lsTable (local net u));
  fl_entries u x : is_node u -> entry net u x = map_find x L \/
    exists e, map_find x L = Some e /\ forall e0, entry net u x = Some e0 -> lst_sequenceNumber e0 < lst_sequenceNumber e;
  fl_routes u : is_node u -> Dijkstra_table (local net u) = Ok (m_routingTable (local net u));
  fl_flight v m : (v, m) ∈ flight net -> is_node v /\ announces m;
  fl_spread u v x : is_node u -> linked net u v -> entry net u x = map_find x L ->
    entry net v x = map_find x L \/ under_way net v x;
  fl_source x : is_node x -> exists u, is_node u /\ (entry net u x = map_find x L \/ under_way net u x)
}.

(** Originators whose entry a node is still to learn. *)
Definition stale (net : network) : nat :=
  length (filter (fun p : string * string => entry net p.1 p.2 <> map_find p.2 L)
    (list_prod (map_keys L) (map_keys L))).

Definition measure (F : nat) (net : network) : nat := (length (flight net) + F * stale net)%nat.

Lemma name_of_same (st : LSState SR) a : m_addressNodeMap st = M -> ReverseLookup st a = name_of a.
Proof. intros H. unfold ReverseLookup, name_of. by rewrite H. Qed.

Lemma set_lsTable_same (st : LSState SR) : set_lsTable (m_lsTable st) st = st.
Proof. by destruct st. Qed.

(** ** Complete tables *)

(** A table with an entry for every node, each of which lists only nodes. *)
Record complete (st : LSState SR) : Prop := {
  cp_all x : is_node x -> is_Some (map_find x (m_lsTable st));
  cp_listed x e : map_find x (m_lsTable st) = Some e -> listed_ok e;
  cp_knows e : map_find (this_node st) (m_lsTable st) = Some e -> knows st e
}.

(** Every node has one. *)
Definition informed (net : network) : Prop := forall u, is_node u -> complete (local net u).

Definition lists (e : option LSTableEntry) (y : string) : Prop :=
  exists e' a c, e = Some e' /\ (a, c) ∈ lst_neighborCosts e' /\ name_of a = y.

(** Links that connect all nodes and that every entry lists, whether it is the
    new one or the one that a node still has. *)
Record backbone (B : string -> string -> Prop) (net : network) : Prop := {
  bb_connected u x : is_node u -> is_node x -> rtc B u x;
  bb_new x y : is_node x -> B x y -> x <> y -> lists (map_find x L) y;
  bb_old u x y : is_node u -> is_node x -> B x y -> x <> y -> lists (entry net u x) y
}.

Section complete.
Context (st : LSState SR) (HM : m_addressNodeMap st = M) (Hwf : map_wf (m_lsTable st)) (HL : map_find EmptyString L = None).
Context (Hself : is_node (this_node st)) (Honly : forall x, is_Some (map_find x (m_lsTable st)) -> is_node x).
Context (C : complete st).

(** [Dijkstra] can work on it. *)
Lemma complete_ready : ls_ready st.
Proof using All.
  pose proof (wf_length (m_lsTable st) L Hwf Honly) as Hlen. split.
  - exact Hwf.
  - by apply (cp_all _ C).
  - destruct (map_find EmptyString (m_lsTable st)) eqn:E; [|done]. destruct (Honly EmptyString) as [e He]; [by eexists|congruence].
  - intros u a (e & c & He & Hin)%GetNeighbors_elem. rewrite name_of_same by done.
    apply (cp_all _ C). by eapply (cp_listed _ C).
  - intros a (e & c & He & Hin)%GetNeighbors_elem. rewrite name_of_same by done. by eapply (cp_knows _ C).
  - intros u e a c He Hin. destruct (cp_listed _ C u e He a c Hin) as (_ & Hc & Hm). split; nia.
Qed.

Lemma complete_routes : is_ok (Dijkstra_table st) = true <-> forall x, is_node x -> reachable st x.
Proof using All.
  pose proof complete_ready as HR. split.
  - intros Hok x Hx. destruct (Dijkstra_table_spec st HR) as [(rt & found & _ & HI)|[Hd _]]; [|by rewrite Hd in Hok].
    destruct (Inv_shortest st rt found HI) as (_ & Hk & Hs). destruct (proj2 (Hk x) (cp_all _ C x Hx)) as [e He].
    exists (rt_cost e). by apply (Hs x e).
  - intros Hr. destruct (Dijkstra_reachable st HR) as (rt & -> & _); [|done]. intros x Hx. by apply Hr, Honly.
Qed.

Lemma complete_fault f : Dijkstra_table st = Fault f -> f = DerefEnd.
Proof using All.
  destruct (Dijkstra_table_spec st complete_ready) as [(rt & found & E & _)|[E _]]; rewrite E; [done|]. by intros [= <-].
Qed.

Lemma complete_edge x y : is_node x -> x <> y -> lists (map_find x (m_lsTable st)) y -> exists w, edge st x y w.
Proof using All.
  intros Hx Hne (e & a & c & He & Hin & <-). rewrite <- (name_of_same st a HM) in Hne |- *.
  destruct (listed_edge st complete_ready x a) as (w & Hw & _); [|by apply not_eq_sym|by exists w].
  apply GetNeighbors_elem. by exists e, c.
Qed.

(** A backbone reaches every node. *)
Lemma complete_reachable B : (forall x y, is_node x -> B x y -> x <> y -> lists (map_find x (m_lsTable st)) y) ->
  forall x, rtc B (this_node st) x -> reachable st x.
Proof using All.
  intros HB x Hx. assert (forall u, rtc B u x -> is_node u -> exists c, path st u x c) as H; [|by apply H].
  clear Hx. intros u Hx Hu.
  induction Hx as [u|u y x Huy Hyx IH]; [exists 0; constructor|].
  destruct (decide (u = y)) as [<-|Hne]; [by apply IH|].
  pose proof (HB u y Hu Huy Hne) as Hl. destruct (complete_edge u y Hu Hne Hl) as [w Hw].
  destruct IH as [c Hc]. { destruct Hl as (e & a & c & He & Hin & <-). by eapply (cp_listed _ C). }
  exists (w + c). by econstructor.
Qed.
End complete.

Lemma broadcast_same (st st1 : LSState SR) m : m_socketAddresses st = m_socketAddresses st1 -> m_lsPort st = m_lsPort st1 ->
  broadcast st m = broadcast st1 m.
Proof. intros E1 E2. unfold broadcast. by rewrite E1, E2. Qed.

Lemma transmitted_broadcast u (st : LSState SR) m v :
  (exists p, p ∈ m_socketAddresses st /\ v ∈ wire u p.1) -> (v, m) ∈ transmitted u (broadcast st m).
Proof.
  intros (p & Hp & Hv). unfold transmitted, broadcast. rewrite map_map. apply list_elem_of_In, in_concat.
  exists (map (fun w => (w, m)) (wire u p.1)). split.
  - apply in_map_iff. exists p. split; [done|]. by apply list_elem_of_In.
  - apply in_map_iff. exists v. split; [done|]. by apply list_elem_of_In.
Qed.

Lemma transmitted_inv u (st : LSState SR) m v m' :
  (v, m') ∈ transmitted u (broadcast st m) -> m' = m /\ exists s, v ∈ wire u s.
Proof.
  unfold transmitted, broadcast. rewrite map_map. intros (l & (p & <- & Hp)%in_map_iff & Hl)%list_elem_of_In%in_concat.
  apply in_map_iff in Hl as (w & [= -> <-] & Hw). split; [done|]. exists p.1. by apply list_elem_of_In.
Qed.

(** Tables have entries of nodes only. *)
Lemma table_nodes F net u x : flooding F net -> is_node u -> is_Some (entry net u x) -> is_node x.
Proof.
  intros H Hu Hx. destruct (fl_entries _ _ H u x Hu) as [E|(e & E & _)]; [unfold is_node; by rewrite <- E|by exists e].
Qed.

Section delivery.
Context (F : nat) (net : network) (H : flooding F net).
Context (l1 : list (string * LSMessage)) (v : string) (m : LSMessage) (l2 : list (string * LSMessage)).
Context (Hflight : flight net = l1 ++ (v, m) :: l2).

Lemma delivered_to : is_node v /\ announces m.
Proof using H Hflight. apply (fl_flight _ _ H). rewrite Hflight. apply elem_of_app. right. left. Qed.

Lemma delivered_origin : is_node (origin m).
Proof using H Hflight. destruct delivered_to as [_ [_ Ho]]. unfold is_node. by rewrite Ho. Qed.

(** What remains under way once [v] has the entry that [m] announces. *)
Lemma remains w x (out : list (string * LSMessage)) (e : option LSTableEntry) :
  under_way net w x -> (w = v -> x = origin m -> e = map_find x L) ->
  e = map_find x L \/ exists m', (w, m') ∈ l1 ++ l2 ++ out /\ origin m' = x.
Proof using Hflight.
  intros (m' & Hin & Ho) He. rewrite Hflight in Hin.
  apply elem_of_app in Hin as [Hin|[Hin|Hin]%elem_of_cons].
  - right. exists m'. split; [|done]. apply elem_of_app. by left.
  - injection Hin as -> ->. left. by apply He.
  - right. exists m'. split; [|done]. apply elem_of_app. right. apply elem_of_app. by left.
Qed.

Lemma entry_after w x st' out : entry (after net l1 l2 v st' out) w x =
  if decide (w = v) then map_find x (m_lsTable st') else entry net w x.
Proof. unfold entry, after. cbn [local]. by destruct (decide (w = v)). Qed.

Lemma local_after w st' out : local (after net l1 l2 v st' out) w = if decide (w = v) then st' else local net w.
Proof. done. Qed.

(** A message that is not new. *)
Lemma deliver_old now socket :
  is_new_lsa (local net v) (origin m) (GetSequenceNumber m) = false ->
  RecvLSMessage now socket m (local net v) = Ok (tt, local net v, []) /\
  flooding F (after net l1 l2 v (local net v) []) /\
  (measure F (after net l1 l2 v (local net v) []) < measure F net)%nat.
Proof using H Hflight.
  intros Hold. destruct delivered_to as [Hv [Ht Ho]].
  assert (forall w, local (after net l1 l2 v (local net v) []) w = local net w) as Hloc.
  { intros w. rewrite local_after. by case_decide; subst. }
  assert (forall w x, entry (after net l1 l2 v (local net v) []) w x = entry net w x) as Hent.
  { intros w x. unfold entry. by rewrite Hloc. }
  assert (entry net v (origin m) = map_find (origin m) L) as Hhas.
  { destruct (fl_entries _ _ H v (origin m) Hv) as [|(e & He & Hlt)]; [done|]. exfalso.
    rewrite Ho in He. injection He as <-. unfold is_new_lsa in Hold. fold (entry net v (origin m)) in Hold.
    destruct (entry net v (origin m)) as [e0|]; [|done]. specialize (Hlt e0 eq_refl). cbn in Hlt. lia. }
  split; [|split].
  - unfold RecvLSMessage. rewrite Ht. cbn [Z.eqb PING_REQ PING_RSP HELLO_REQ LS_TABLE_MSG Pos.eqb].
    rewrite ProcessLSTableMessage_eq by by apply H.
    rewrite (name_of_same _ (GetOriginatorAddress m)) by by apply H. fold (origin m). by rewrite Hold.
  - split; try (intros; rewrite ?Hloc, ?Hent in *; by eapply H); try by apply H.
    + intros u w Hu Hw. eapply rtc_subrel; [|by apply (fl_connected _ _ H u w)].
      intros a b (p & Hp & Hb). exists p. by rewrite Hloc.
    + intros w m' Hin. apply (fl_flight _ _ H). rewrite Hflight. cbn in Hin.
      rewrite app_nil_r in Hin. apply elem_of_app in Hin as [?|?]; apply elem_of_app; [by left|right; by right].
    + intros u w x Hu (p & Hp & Hw) He. rewrite Hent in *. rewrite Hloc in Hp.
      destruct (fl_spread _ _ H u w x) as [?|Hunder]; [done|by exists p|done|by left|].
      eapply remains; [done|]. intros -> ->. done.
    + intros x Hx. destruct (fl_source _ _ H x Hx) as (u & Hu & Hcase). exists u. split; [done|]. rewrite Hent.
      destruct Hcase as [?|Hunder]; [by left|]. eapply remains; [done|]. by intros -> ->.
  - unfold measure. assert (stale (after net l1 l2 v (local net v) []) = stale net) as ->.
    { unfold stale. f_equal. apply list_filter_iff. intros [a b]. by rewrite Hent. }
    rewrite Hflight. cbn. rewrite app_nil_r, !length_app. cbn. lia.
Qed.

(** The message is new: the entry is stored, the routes computed, and the
    message passed on to every neighbour. *)
Definition passed_on : LSMessage := SetTTL (u8 (GetTTL m - 1)) m.
Definition learnt : LSState SR := stored (local net v) (origin m) m.

Lemma learnt_find x :
  map_find x (m_lsTable learnt) = if decide (origin m = x) then map_find x L else entry net v x.
Proof using H Hflight.
  destruct delivered_to as [Hv [Ht Ho]]. unfold learnt. rewrite stored_find. case_decide as E; [|done].
  by rewrite <- E, Ho.
Qed.

Lemma learnt_wf : map_wf (m_lsTable learnt).
Proof using H Hflight. destruct delivered_to as [Hv _]. apply map_wf_insert, map_wf_erase. by apply (fl_table_wf _ _ H). Qed.

Lemma passed_on_announces : announces passed_on.
Proof using H Hflight. destruct delivered_to as [_ Ha]. exact Ha. Qed.

(** The network after that, [rt] being the routes the node computes. *)
Section new.
Context {rt : list (string * RoutingTableEntry)} (Hrt : Dijkstra_table learnt = Ok rt).
#[local] Notation sent := (broadcast (local net v) passed_on).
#[local] Notation st_new := (set_routingTable rt learnt).
#[local] Notation net_new := (after net l1 l2 v st_new sent).

Lemma after_entry w x : entry net_new w x = if decide (w = v /\ origin m = x) then map_find x L else entry net w x.
Proof using H Hflight.
  rewrite entry_after. destruct (decide (w = v)) as [->|Hw].
  - change (m_lsTable st_new) with (m_lsTable learnt). rewrite learnt_find.
    destruct (decide (origin m = x)); [by rewrite decide_True|rewrite decide_False; [done|tauto]].
  - rewrite decide_False; [done|tauto].
Qed.

Lemma after_keep w x : entry net w x = map_find x L -> entry net_new w x = map_find x L.
Proof using H Hflight. intros E. rewrite after_entry. by case_decide. Qed.

Lemma after_same w : m_socketAddresses (local net_new w) = m_socketAddresses (local net w) /\
  m_addressNodeMap (local net_new w) = m_addressNodeMap (local net w) /\
  m_mainAddress (local net_new w) = m_mainAddress (local net w) /\ m_lsPort (local net_new w) = m_lsPort (local net w) /\
  m_neighborTable (local net_new w) = m_neighborTable (local net w).
Proof using. rewrite local_after. by case_decide; subst. Qed.

Lemma new_flooding : flooding F net_new.
Proof using H Hflight Hrt.
  destruct delivered_to as [Hv _]. split; try by apply H.
  - intros u e He a c Hin. destruct (after_same u) as (_ & _ & _ & _ & E). rewrite E. by eapply (fl_known _ _ H).
  - intros u Hu. destruct (after_same u) as (_ & E & _). rewrite E. by apply H.
  - intros u Hu. unfold this_node, ReverseLookup. destruct (after_same u) as (_ & -> & -> & _). exact (fl_self _ _ H u Hu).
  - intros u Hu. unfold broadcast_ok. destruct (after_same u) as (-> & _). exact (fl_broadcast _ _ H u Hu).
  - intros u m' Hu. destruct (after_same u) as (E1 & _ & _ & E2 & _). rewrite (broadcast_same _ _ m' E1 E2).
    exact (fl_fan _ _ H u m' Hu).
  - intros u w Hu Hw. eapply rtc_subrel; [|by apply (fl_connected _ _ H u w)].
    intros a b (p & Hp & Hb). exists p. by destruct (after_same a) as (-> & _).
  - intros u Hu. rewrite local_after. case_decide; [apply learnt_wf|by apply H].
  - intros u x Hu. rewrite after_entry. case_decide; [by left|by apply H].
  - intros u Hu. rewrite local_after. case_decide; [by rewrite (Dijkstra_table_same st_new learnt)|by apply H].
  - intros w m' Hin. cbn in Hin. apply elem_of_app in Hin as [Hin|[Hin|Hin]%elem_of_app].
    + apply (fl_flight _ _ H). rewrite Hflight. apply elem_of_app. by left.
    + apply (fl_flight _ _ H). rewrite Hflight. apply elem_of_app. right. by right.
    + apply transmitted_inv in Hin as [-> [s Hs]]. split; [by eapply (fl_wires _ _ H v)|apply passed_on_announces].
  - intros u w x Hu (p & Hp & Hw) He. destruct (after_same u) as (Hsock & _). rewrite Hsock in Hp.
    rewrite after_entry in He. destruct (decide (u = v /\ origin m = x)) as [[-> <-]|Hux].
    + right. exists passed_on. split; [|done]. cbn [after flight]. apply elem_of_app. right. apply elem_of_app. right.
      apply transmitted_broadcast. by exists p.
    + destruct (fl_spread _ _ H u w x) as [?|Hunder]; [done|by exists p|done|left; by apply after_keep|].
      eapply remains; [done|]. intros -> ->. rewrite after_entry. by rewrite decide_True.
  - intros x Hx. destruct (fl_source _ _ H x Hx) as (u & Hu & Hcase). exists u. split; [done|].
    destruct Hcase as [?|Hunder]; [left; by apply after_keep|]. eapply remains; [done|].
    intros -> ->. rewrite after_entry. by rewrite decide_True.
Qed.

Lemma new_stale : is_new_lsa (local net v) (origin m) (GetSequenceNumber m) = true -> (stale net_new < stale net)%nat.
Proof using H Hflight.
  intros Hnew. destruct delivered_to as [Hv [_ Ho]]. unfold stale. apply (filter_shorter _ _ _ (v, origin m)).
  - intros [a b]. cbn [fst snd]. intros Hn Hc. by apply Hn, after_keep.
  - apply list_elem_of_In, in_prod; apply list_elem_of_In, map_find_is_Some; [done|]. by apply delivered_origin.
  - cbn [fst snd]. intros Hc. unfold is_new_lsa in Hnew. fold (entry net v (origin m)) in Hnew.
    rewrite Hc, Ho in Hnew. cbn in Hnew. lia.
  - cbn [fst snd]. intros Hc. apply Hc. rewrite after_entry. by rewrite decide_True.
Qed.
End new.

Lemma recv_new now socket : is_new_lsa (local net v) (origin m) (GetSequenceNumber m) = true ->
  RecvLSMessage now socket m (local net v) =
    rt ← Dijkstra_table learnt; Ok (tt, set_routingTable rt learnt, broadcast (local net v) passed_on).
Proof using H Hflight.
  intros Hnew. destruct delivered_to as [Hv [Ht Ho]].
  unfold RecvLSMessage. rewrite Ht. cbn [Z.eqb PING_REQ PING_RSP HELLO_REQ LS_TABLE_MSG Pos.eqb].
  rewrite ProcessLSTableMessage_eq by by apply H.
  rewrite (name_of_same _ (GetOriginatorAddress m)) by by apply H. fold (origin m). rewrite Hnew.
  fold learnt. by destruct (Dijkstra_table learnt).
Qed.

Lemma new_measure rt : is_new_lsa (local net v) (origin m) (GetSequenceNumber m) = true ->
  (measure F (after net l1 l2 v (set_routingTable rt learnt) (broadcast (local net v) passed_on)) < measure F net)%nat.
Proof using H Hflight.
  intros Hnew. destruct delivered_to as [Hv _].
  pose proof (new_stale (rt:=rt) Hnew) as Hst. unfold measure. pose proof (fl_fan _ _ H v passed_on Hv) as Hfan.
  rewrite Hflight. cbn [after flight]. rewrite !length_app. cbn [length]. nia.
Qed.

(** The table with the new entry is complete if the old one was. *)
Lemma learnt_complete : complete (local net v) -> complete learnt.
Proof using H Hflight.
  intros C. destruct delivered_to as [Hv _]. assert (this_node learnt = this_node (local net v)) as Hthis by done. split.
  - intros x Hx. rewrite learnt_find. case_decide; [exact Hx|by apply (cp_all _ C)].
  - intros x e. rewrite learnt_find. case_decide; [apply (fl_listed _ _ H)|apply (cp_listed _ C)].
  - intros e. rewrite Hthis, learnt_find. case_decide; [|exact (cp_knows _ C e)].
    rewrite (fl_self _ _ H v Hv). exact (fl_known _ _ H v e).
Qed.

Lemma learnt_only x : is_Some (map_find x (m_lsTable learnt)) -> is_node x.
Proof using H Hflight.
  destruct delivered_to as [Hv _]. rewrite learnt_find. case_decide; [done|]. by apply (table_nodes F net v).
Qed.
End delivery.

(** ** Runs *)

Lemma flooding_step F net1 net2 : flooding F net1 -> deliver net1 net2 ->
  flooding F net2 /\ (measure F net2 < measure F net1)%nat.
Proof.
  intros H [l1 v m l2 now socket st' out Hf Hr].
  destruct (is_new_lsa (local net1 v) (origin m) (GetSequenceNumber m)) eqn:Hnew.
  - rewrite (recv_new F net1 H l1 v m l2 Hf now socket Hnew) in Hr. apply bind_Ok in Hr as (rt & Hrt & [= <- <-]).
    split; [by apply (new_flooding F net1 H l1 v m l2 Hf)|by apply new_measure].
  - destruct (deliver_old F net1 H l1 v m l2 Hf now socket Hnew) as (Hr1 & Hok). rewrite Hr1 in Hr. by injection Hr as <- <-.
Qed.

Lemma flooding_run F n net1 net2 : flooding F net1 -> deliveries n net1 net2 ->
  flooding F net2 /\ (n + measure F net2 <= measure F net1)%nat.
Proof.
  intros H Hr. induction Hr as [net|n net1 net2 net3 Hd Hr IH]; [split; [done|lia]|].
  destruct (flooding_step F net1 net2 H Hd) as [H2 Hm]. destruct (IH H2) as [H3 Hm3]. split; [done|lia].
Qed.

(** Completeness and a backbone stay. *)
Lemma informed_step F net1 net2 : flooding F net1 -> deliver net1 net2 -> informed net1 -> informed net2.
Proof.
  intros H [l1 v m l2 now socket st' out Hf Hr] HI u Hu. rewrite local_after.
  case_decide as E; [subst u|by apply HI]. destruct (is_new_lsa (local net1 v) (origin m) (GetSequenceNumber m)) eqn:Hnew.
  - rewrite (recv_new F net1 H l1 v m l2 Hf now socket Hnew) in Hr. apply bind_Ok in Hr as (rt & _ & [= <- _]).
    destruct (learnt_complete F net1 H l1 v m l2 Hf (HI v Hu)) as [C1 C2 C3]. by split.
  - destruct (deliver_old F net1 H l1 v m l2 Hf now socket Hnew) as (Hr1 & _). rewrite Hr1 in Hr. injection Hr as <- _. by apply HI.
Qed.

Lemma backbone_step F B net1 net2 : flooding F net1 -> deliver net1 net2 -> backbone B net1 -> backbone B net2.
Proof.
  intros H [l1 v m l2 now socket st' out Hf Hr] [B1 B2 B3]. split; [done|done|]. intros u x y Hu Hx HB Hne.
  rewrite entry_after. case_decide as E; [subst u|by apply B3].
  destruct (is_new_lsa (local net1 v) (origin m) (GetSequenceNumber m)) eqn:Hnew.
  - rewrite (recv_new F net1 H l1 v m l2 Hf now socket Hnew) in Hr. apply bind_Ok in Hr as (rt & _ & [= <- _]).
    change (m_lsTable (set_routingTable rt ?s)) with (m_lsTable s). rewrite (learnt_find F net1 H l1 v m l2 Hf).
    case_decide; [by apply B2|by apply B3].
  - destruct (deliver_old F net1 H l1 v m l2 Hf now socket Hnew) as (Hr1 & _). rewrite Hr1 in Hr. injection Hr as <- _. by apply B3.
Qed.

Lemma flooding_keeps F n net1 net2 : flooding F net1 -> deliveries n net1 net2 ->
  (informed net1 -> informed net2) /\ (forall B, backbone B net1 -> backbone B net2).
Proof.
  intros H Hr. induction Hr as [net|n net1 net2 net3 Hd Hr IH]; [done|].
  destruct (flooding_step F net1 net2 H Hd) as [H2 _]. destruct (IH H2) as [I1 I2]. split.
  - intros HI. by apply I1, (informed_step F net1).
  - intros B HB. by apply I2, (backbone_step F B net1).
Qed.

(** When a message under way can be taken, on complete tables. *)
Lemma delivery_defined F net v m now socket : flooding F net -> informed net -> (v, m) ∈ flight net ->
  (is_ok (RecvLSMessage now socket m (local net v)) = true <->
    (is_new_lsa (local net v) (origin m) (GetSequenceNumber m) = true ->
     forall x, is_node x -> reachable (stored (local net v) (origin m) m) x)) /\
  (forall f, RecvLSMessage now socket m (local net v) = Fault f -> f = DerefEnd).
Proof.
  intros H HI (l1 & l2 & Hf)%list_elem_of_split. destruct (delivered_to F net H l1 v m l2 Hf) as [Hv _].
  destruct (is_new_lsa (local net v) (origin m) (GetSequenceNumber m)) eqn:Hnew.
  - rewrite (recv_new F net H l1 v m l2 Hf now socket Hnew). set (st := stored _ _ _).
    change (learnt net v m) with st.
    assert (complete st) as C by (by apply (learnt_complete F net H l1 v m l2 Hf), HI).
    assert (m_addressNodeMap st = M) as HM by (by apply (fl_names _ _ H)).
    assert (map_wf (m_lsTable st)) as Hwf by by apply (learnt_wf F net H l1 v m l2 Hf).
    assert (is_node (this_node st)) as Hself. { change (this_node st) with (this_node (local net v)). by rewrite (fl_self _ _ H v Hv). }
    pose proof (learnt_only F net H l1 v m l2 Hf : forall x, is_Some (map_find x (m_lsTable st)) -> is_node x) as Honly.
    pose proof (fl_named _ _ H) as HN. split.
    + rewrite <- (complete_routes st HM Hwf HN Hself Honly C). destruct (Dijkstra_table st); cbn; tauto.
    + intros f. destruct (Dijkstra_table st) as [rt|f'] eqn:E; [done|]. intros [= <-]. by apply (complete_fault st HM Hwf HN Hself Honly C).
  - destruct (deliver_old F net H l1 v m l2 Hf now socket Hnew) as (-> & _). split; [|done]. split; [done|done].
Qed.

Lemma backbone_defined F B net v m now socket : flooding F net -> informed net -> backbone B net -> (v, m) ∈ flight net ->
  exists st' out, RecvLSMessage now socket m (local net v) = Ok (tt, st', out).
Proof.
  intros H HI [B1 B2 B3] Hin. destruct (delivery_defined F net v m now socket H HI Hin) as [[_ Hok] _].
  destruct (RecvLSMessage now socket m (local net v)) as [[[[] st'] out]|f]; [by exists st', out|].
  assert (is_ok (Fault f : result (unit * LSState SR * list (action LSMessage))) = true); [|done]. apply Hok. clear Hok.
  intros _ x Hx. apply list_elem_of_split in Hin as (l1 & l2 & Hf). destruct (delivered_to F net H l1 v m l2 Hf) as [Hv _].
  set (st := stored _ _ _). assert (this_node st = v) as Hthis by exact (fl_self _ _ H v Hv).
  apply (complete_reachable st) with (B := B); rewrite ?Hthis; auto.
  - by apply (fl_names _ _ H).
  - by apply (learnt_wf F net H l1 v m l2 Hf).
  - by apply (fl_named _ _ H).
  - by apply (learnt_only F net H l1 v m l2 Hf).
  - by apply (learnt_complete F net H l1 v m l2 Hf), HI.
  - intros a b Ha HB Hne. unfold st. rewrite (learnt_find F net H l1 v m l2 Hf : forall x, map_find x (m_lsTable (stored _ _ _)) = _).
    case_decide; [by apply B2|by apply B3].
Qed.

Lemma edge_positive F net (st : LSState SR) a b w : flooding F net -> m_lsTable st = L -> ls_ready st -> edge st a b w -> 0 < w.
Proof using Type.
  intros H HL HR (Hne & (ad & (e & c & Ha & Hin)%GetNeighbors_elem & Hb) & Hd). rewrite HL in Ha.
  destruct (first_cost_in st _ _ _ Hin) as (b' & c' & Hin' & _ & Hc). unfold DistanceToNeighbor in Hd.
  destruct (String.eqb_spec a b); [done|]. rewrite HL, Ha in Hd. cbn in Hd. rewrite <- Hb, Hc in Hd. injection Hd as <-.
  by destruct (fl_listed _ _ H a e Ha b' c' Hin') as (_ & ? & _).
Qed.

(** When nothing is under way any more, all nodes agree. *)
Lemma quiet_agree F net : flooding F net -> flight net = [] ->
  forall u x, is_node u -> is_node x -> entry net u x = map_find x L.
Proof.
  intros H Hq. assert (forall w x, ~ under_way net w x) as Hno.
  { intros w x (m & Hin & _). rewrite Hq in Hin. by apply not_elem_of_nil in Hin. }
  intros u x Hu Hx. destruct (fl_source _ _ H x Hx) as (s & Hs & [He|Hun]); [|by apply Hno in Hun].
  pose proof (fl_connected _ _ H s u Hs Hu) as Hc. clear Hx Hu. revert Hs He.
  induction Hc as [|a b c Hab Hc IH]; intros Hs He; [done|].
  destruct Hab as (p & Hp & Hb). apply IH; [by eapply (fl_wires _ _ H a)|].
  destruct (fl_spread _ _ H a b x Hs) as [?|Hun]; [by exists p|done|done|by apply Hno in Hun].
Qed.

Lemma quiet_converged F net : flooding F net -> flight net = [] -> converged (local net) L M.
Proof.
  intros H Hq. assert (forall u, is_node u -> m_lsTable (local net u) = L) as HL.
  { intros u Hu. apply map_ext; [by apply H|by apply H|]. intros x.
    destruct (fl_entries _ _ H u x Hu) as [|(e & He & _)]; [done|]. apply (quiet_agree F); [done..|]. by exists e. }
  assert (forall u, is_node u -> ls_ready (local net u) /\ forall x, is_node x -> reachable (local net u) x) as HR.
  { intros u Hu. assert (complete (local net u)) as C.
    { split; rewrite HL by done; [done|apply (fl_listed _ _ H)|]. rewrite (fl_self _ _ H u Hu). apply (fl_known _ _ H). }
    assert (is_node (this_node (local net u))) as Hself by by rewrite (fl_self _ _ H u Hu).
    assert (forall x, is_Some (map_find x (m_lsTable (local net u))) -> is_node x) as Honly by (intros x; by apply (table_nodes F net u)).
    pose proof (fl_names _ _ H u Hu) as HM. pose proof (fl_table_wf _ _ H u Hu) as Hwf. pose proof (fl_named _ _ H) as HN.
    split; [by apply complete_ready|]. apply (complete_routes _ HM Hwf HN Hself Honly C). by rewrite (fl_routes _ _ H u Hu). }
  split; try by apply H.
  - exact HL.
  - intros u Hu. by apply HR.
  - intros u x Hu Hx. by apply HR.
  - intros u a b w Hu He. eapply (edge_positive F net (local net u)); [done|by apply HL|by apply HR|done].
Qed.
End flood.

(** (C4) Flooding makes a network agree, and when it can fail.  While newer LS
    entries of any number of nodes are being flooded on a connected topology,
    in whatever order the table messages arrive, and as long as no delivery
    faults: there are at most as many deliveries as messages under way plus
    [F] for every entry a node is still to learn; and when no message is left,
    all nodes hold the same LS table [L] with the routes of [Dijkstra] on it, so
    that packets are delivered as LSForwarding and ListSpec prove.  A delivery
    can fault: if every node started with an entry for every node, exactly when
    the entry is new and some node cannot be reached in the table that has it,
    and then it is the dereference of [end ()].  So if the nodes are connected
    by links that all entries list, the new ones and those that the nodes still
    had, no delivery faults.  (A network that is just coming up has no such
    tables: [ls_runs_undefined].) *)
Theorem flooding_converges {SR} wire L M F (net net' : network (SR := SR)) n
  (H : flooding wire L M F net) (Hrun : deliveries wire n net net') :
  (n <= length (flight net) + F * stale L net)%nat /\
  (flight net' = [] -> converged (local net') L M) /\
  (informed L M net -> forall v m now socket, (v, m) ∈ flight net' ->
     (is_ok (RecvLSMessage now socket m (local net' v)) = true <->
       (is_new_lsa (local net' v) (origin M m) (GetSequenceNumber m) = true ->
        forall x, is_node L x -> reachable (stored (local net' v) (origin M m) m) x)) /\
     (forall f, RecvLSMessage now socket m (local net' v) = Fault f -> f = DerefEnd)) /\
  (informed L M net -> (exists B, backbone L M B net) -> forall v m now socket, (v, m) ∈ flight net' ->
     exists st' out, RecvLSMessage now socket m (local net' v) = Ok (tt, st', out)).
Proof.
  destruct (flooding_run wire L M F n net net' H Hrun) as [H' Hm]. unfold measure in Hm.
  destruct (flooding_keeps wire L M F n net net' H Hrun) as [HI HB]. split_and!; [lia| | |].
  - by apply (quiet_converged wire L M F).
  - intros Hi v m now socket. by apply (delivery_defined wire L M F); [|apply HI].
  - intros Hi [B Hb] v m now socket. apply (backbone_defined wire L M F B); [done|by apply HI|by apply HB].
Qed.

(** ** How a flooding starts: one node announces its neighbours *)

(** The network once node [s] has run [SendLSTableMessage]. *)
Definition announced {SR} wire (states : string -> LSState SR) (s : string) : network (SR := SR) :=
  mkNetwork (fun w => if decide (w = s) then next_seq (states s) else states w)
    (transmitted wire s (broadcast (states s) (table_message (states s)))).

Definition announcement {SR} (states : string -> LSState SR) (s : string) : LSTableEntry :=
  mkLST (map (fun i => (nt_neighborAddr i.2, 1)) (m_neighborTable (states s))) (m_currentSequenceNumber (states s)).

Section announcement.
Context {SR : Type} (wire : string -> SocketPtr -> list string) (states : string -> LSState SR).
Context (L0 : stdmap string LSTableEntry) (M : stdmap Ipv4Address Z) (s : string) (F : nat).
Let L := map_set s (announcement states s) L0.

Hypothesis C : converged states L0 M.
Hypothesis Hs : is_node L0 s.
Hypothesis Hnew : forall e, map_find s L0 = Some e -> lst_sequenceNumber e < m_currentSequenceNumber (states s).
Hypothesis Hpos : forall u e a c, map_find u L0 = Some e -> (a, c) ∈ lst_neighborCosts e -> 0 < c.
Hypothesis Hbroadcast : forall u, is_node L0 u -> broadcast_ok (states u).
Hypothesis Hwires : forall u p v, is_node L0 u -> v ∈ wire u p -> is_node L0 v.
Hypothesis Hfan : forall u m, is_node L0 u -> (length (transmitted wire u (broadcast (states u) m)) <= F)%nat.
Hypothesis Hconnected : forall u v, is_node L0 u -> is_node L0 v ->
  rtc (fun a b => exists p, p ∈ m_socketAddresses (states a) /\ b ∈ wire a p.1) u v.
Hypothesis Hneighbor : exists p v, p ∈ m_socketAddresses (states s) /\ v ∈ wire s p.1.
Hypothesis Hneighbors : forall y nte, (y, nte) ∈ m_neighborTable (states s) -> name_of M (nt_neighborAddr nte) = y /\ is_node L0 y.
Hypothesis Hsize : Z.of_nat (length L0) < INT_MAX.

Lemma announcement_nodes u : is_node L u <-> is_node L0 u.
Proof using Hs.
  unfold is_node, L. rewrite map_find_set. case_decide as E; [|done]. rewrite <- E.
  split; intros _; [exact Hs|by eexists].
Qed.

Lemma announced_local w : m_lsTable (local (announced wire states s) w) = m_lsTable (states w) /\
  m_socketAddresses (local (announced wire states s) w) = m_socketAddresses (states w) /\
  m_addressNodeMap (local (announced wire states s) w) = m_addressNodeMap (states w) /\
  m_mainAddress (local (announced wire states s) w) = m_mainAddress (states w) /\
  m_neighborTable (local (announced wire states s) w) = m_neighborTable (states w) /\
  m_routingTable (local (announced wire states s) w) = m_routingTable (states w) /\
  m_lsPort (local (announced wire states s) w) = m_lsPort (states w).
Proof. unfold announced. cbn [local]. by destruct (decide (w = s)) as [->|]. Qed.

Lemma announcement_message : announces L M (table_message (states s)) /\ origin M (table_message (states s)) = s.
Proof using C Hs.
  assert (origin M (table_message (states s)) = s) as Ho.
  { unfold origin. rewrite <- (name_of_same M (states s)) by by apply C. by apply (cv_self _ _ _ C). }
  split; [|done]. split; [done|]. rewrite Ho. unfold L. by rewrite map_find_set_eq.
Qed.

Lemma old_wf : map_wf L0.
Proof using C Hs. rewrite <- (cv_ls _ _ _ C s Hs). apply ready_wf. by apply (cv_ready _ _ _ C). Qed.

Lemma old_named : map_find EmptyString L0 = None.
Proof using C Hs. rewrite <- (cv_ls _ _ _ C s Hs). apply ready_name. by apply (cv_ready _ _ _ C). Qed.

Lemma old_table u : is_node L u -> m_lsTable (states u) = L0.
Proof using C Hs. intros Hu%announcement_nodes. by apply (cv_ls _ _ _ C). Qed.

(** The entries list nodes, before and after, and each node its neighbours. *)
Lemma old_listed x e : map_find x L0 = Some e -> listed_ok L M e.
Proof using C Hs Hpos.
  intros He a c Hin. pose proof (cv_ready _ _ _ C s Hs) as R. pose proof (cv_ls _ _ _ C s Hs) as E.
  assert ((length L <= length L0)%nat) as Hlen.
  { apply wf_length; [apply map_wf_set, old_wf|]. intros y. apply announcement_nodes. }
  destruct (ready_costs _ R x e a c) as [H0 Hm]; [by rewrite E|done|]. rewrite E in Hm. split_and!.
  - rewrite <- (name_of_same M (states s)) by by apply C. apply announcement_nodes. unfold is_node. rewrite <- E.
    apply (ready_closed _ R x). apply GetNeighbors_elem. exists e, c. by rewrite E.
  - by eapply Hpos.
  - nia.
Qed.

Lemma old_known u e : is_node L u -> map_find u L0 = Some e -> knows M (states u) e.
Proof using C Hs.
  intros Hu%announcement_nodes He a c Hin. rewrite <- (name_of_same M (states u)) by by apply C.
  apply (ready_neighbors _ (cv_ready _ _ _ C u Hu)), GetNeighbors_elem. exists e, c.
  rewrite (cv_ls _ _ _ C u Hu). split; [|done]. change (this_node (states u)) with (this_node (states u)).
  by rewrite (cv_self _ _ _ C u Hu).
Qed.

Lemma new_listed x e : map_find x L = Some e -> listed_ok L M e.
Proof using C Hs Hpos Hneighbors Hsize.
  unfold L at 1. rewrite map_find_set. case_decide as E; [|apply old_listed]. intros [= <-] a c Hin.
  apply list_elem_of_fmap in Hin as ([y nte] & [= -> ->] & Hin). destruct (Hneighbors y nte Hin) as [E1 E2].
  cbn [snd] in *. rewrite E1. split; [by apply announcement_nodes|]. split; [lia|].
  assert ((length L <= length L0)%nat); [|lia].
  apply wf_length; [apply map_wf_set, old_wf|]. intros z. apply announcement_nodes.
Qed.

Lemma new_known u e : map_find u L = Some e -> knows M (states u) e.
Proof using C Hs Hneighbors.
  intros He. assert (is_node L u) as Hu by by exists e. revert He. unfold L. rewrite map_find_set.
  case_decide as E; [subst u|by apply old_known]. intros [= <-] a c Hin.
  apply list_elem_of_fmap in Hin as ([y nte] & [= -> ->] & Hin). destruct (Hneighbors y nte Hin) as [E1 _].
  cbn [snd]. rewrite E1. apply map_find_is_Some. apply list_elem_of_fmap. by exists (y, nte).
Qed.

Lemma announcement_floods : flooding wire L M F (announced wire states s).
Proof using All.
  destruct announcement_message as [Ha Ho].
  assert (forall u x, is_node L u -> entry (announced wire states s) u x = map_find x L0) as Hent.
  { intros u x Hu. unfold entry. destruct (announced_local u) as (E & _). by rewrite E, old_table. }
  assert (forall x, x <> s -> map_find x L = map_find x L0) as Hother by (intros; by apply map_find_set_ne).
  split.
  - apply map_wf_set, old_wf.
  - unfold L. rewrite map_find_set. case_decide as E; [|exact old_named].
    destruct Hs as [e He]. rewrite E, old_named in He. done.
  - apply new_listed.
  - intros u e He a c Hin. destruct (announced_local u) as (_ & _ & _ & _ & E & _). rewrite E. by eapply new_known.
  - intros u Hu%announcement_nodes. destruct (announced_local u) as (_ & _ & E & _). rewrite E. by apply (cv_names _ _ _ C).
  - intros u Hu%announcement_nodes. unfold this_node, ReverseLookup. destruct (announced_local u) as (_ & _ & E1 & E2 & _).
    rewrite E1, E2. exact (cv_self _ _ _ C u Hu).
  - intros u Hu%announcement_nodes. unfold broadcast_ok. destruct (announced_local u) as (_ & E & _). rewrite E.
    exact (Hbroadcast u Hu).
  - intros u p v Hu%announcement_nodes Hv. apply announcement_nodes. by eapply Hwires.
  - intros u m Hu%announcement_nodes. unfold broadcast. destruct (announced_local u) as (_ & E & _ & _ & _ & _ & E').
    rewrite E, E'. exact (Hfan u m Hu).
  - intros u v Hu%announcement_nodes Hv%announcement_nodes. eapply rtc_subrel; [|by apply Hconnected].
    intros a b (p & Hp & Hb). exists p. destruct (announced_local a) as (_ & E & _). by rewrite E.
  - intros u Hu. destruct (announced_local u) as (E & _). rewrite E, old_table by done. apply old_wf.
  - intros u x Hu. rewrite Hent by done. destruct (decide (x = s)) as [->|Hx]; [|left; by rewrite Hother].
    right. exists (announcement states s). split; [apply map_find_set_eq|]. intros e0 He0. by apply Hnew.
  - intros u Hu%announcement_nodes. destruct (announced_local u) as (E1 & _ & E2 & E3 & E4 & E5 & _).
    rewrite E5, (Dijkstra_table_same _ (states u)) by done. by apply (cv_routes _ _ _ C).
  - intros v m [-> [p Hp]]%transmitted_inv. split; [|done]. apply announcement_nodes. by eapply Hwires.
  - intros u v x Hu (p & Hp & Hv) He. left. rewrite Hent in He by done. rewrite Hent; [done|].
    apply announcement_nodes in Hu. apply announcement_nodes. by eapply Hwires.
  - intros x Hx. destruct (decide (x = s)) as [->|Hxs].
    + destruct Hneighbor as (p & v & Hp & Hv). exists v. split; [apply announcement_nodes; by eapply Hwires|]. right.
      exists (table_message (states s)). split; [|done]. apply transmitted_broadcast. by exists p.
    + exists x. split; [done|]. left. by rewrite Hent, Hother.
Qed.

Lemma announcement_informed : informed L M (announced wire states s).
Proof using C Hs Hpos.
  intros u Hu. destruct (announced_local u) as (E1 & _ & E2 & E3 & E4 & _). split.
  - intros x Hx. rewrite E1, old_table by done. by apply announcement_nodes.
  - intros x e. rewrite E1, old_table by done. apply old_listed.
  - intros e. rewrite E1, old_table by done. unfold this_node, ReverseLookup. rewrite E2, E3.
    change (map_find (this_node (states u)) L0 = Some e -> knows M (local (announced wire states s) u) e).
    rewrite (cv_self _ _ _ C u) by by apply announcement_nodes. intros He a c Hin. rewrite E4. by eapply (old_known u e).
Qed.

(** Links that stay, the announcing node's included, are a backbone. *)
Lemma announcement_backbone B : (forall u x, is_node L0 u -> is_node L0 x -> rtc B u x) ->
  (forall x y, is_node L0 x -> B x y -> x <> y -> lists M (map_find x L0) y) ->
  (forall y, B s y -> s <> y -> lists M (Some (announcement states s)) y) -> backbone L M B (announced wire states s).
Proof using C Hs.
  intros HB Hold Hann. split.
  - intros u x Hu%announcement_nodes Hx%announcement_nodes. by apply HB.
  - intros x y Hx%announcement_nodes Hxy Hne. unfold L. rewrite map_find_set. case_decide as E; [subst x; by apply Hann|by apply Hold].
  - intros u x y Hu Hx%announcement_nodes Hxy Hne. unfold entry. destruct (announced_local u) as (-> & _).
    rewrite old_table by done. by apply Hold.
Qed.
End announcement.

(** ** Example: node 1 of the triangle lowers the cost of its links *)

Definition lan (u : string) (s : SocketPtr) : list string :=
  if s =? 100 then filter (fun v => v <> u) ["1"; "2"; "3"]%string else [].
Definition triangle_states : string -> LSState unit := triangle_net (fun _ => None).
Definition triangle_names : stdmap Ipv4Address Z := [(addr1, 1); (addr2, 2); (addr3, 3)].
Definition new_triangle : stdmap string LSTableEntry := map_set "1"%string (announcement triangle_states "1") triangle.

(** Messages taken in the order they were sent. *)
Fixpoint in_order (n : nat) (net : network (SR := unit)) : network (SR := unit) :=
  match n, flight net with
  | S n', (v, m) :: l2 =>
      match RecvLSMessage 0 100 m (local net v) with
      | Ok (_, st', out) => in_order n' (after lan net [] l2 v st' out)
      | Fault _ => net
      end
  | _, _ => net
  end.

Lemma in_order_run n net : exists k, deliveries lan k net (in_order n net).
Proof.
  revert net; induction n as [|n IH]; intros net; cbn [in_order]; [exists 0%nat; constructor|].
  destruct (flight net) as [|[v m] l2] eqn:E; [exists 0%nat; constructor|].
  destruct (RecvLSMessage 0 100 m (local net v)) as [[[[] st'] out]|f] eqn:Hr; [|exists 0%nat; constructor].
  destruct (IH (after lan net [] l2 v st' out)) as [k Hk]. exists (S k). econstructor; [|exact Hk]. by eapply deliver_one.
Qed.

(** Every node lists the two others, before and after. *)
Definition all_listed (T : stdmap string LSTableEntry) : bool :=
  forallb (fun x => forallb (fun y => String.eqb x y ||
    match map_find x T with Some e => existsb (fun p => String.eqb (name_of triangle_names p.1) y) (lst_neighborCosts e) | None => false end)
    (map_keys triangle)) (map_keys triangle).

Lemma all_listed_spec T x y : all_listed T = true -> is_node triangle x -> is_node triangle y -> x <> y ->
  lists triangle_names (map_find x T) y.
Proof.
  intros HT Hx%map_find_is_Some%list_elem_of_In Hy%map_find_is_Some%list_elem_of_In Hne.
  unfold all_listed in HT. rewrite forallb_forall in HT. specialize (HT x Hx). rewrite forallb_forall in HT. specialize (HT y Hy).
  apply orb_true_iff in HT as [->%String.eqb_eq|HT]; [done|]. destruct (map_find x T) as [e|]; [|done].
  apply existsb_exists in HT as ([a c] & Hin%list_elem_of_In & E%String.eqb_eq). by exists e, a, c.
Qed.

Lemma triangle_backbone : backbone new_triangle triangle_names (fun x y => is_node triangle x /\ is_node triangle y)
  (announced lan triangle_states "1").
Proof.
  apply (announcement_backbone lan triangle_states triangle).
  - apply triangle_converged.
  - by eexists.
  - intros u x Hu Hx. by apply rtc_once.
  - intros x y _ [Hx Hy]. apply all_listed_spec; [vm_compute; reflexivity|done|done].
  - intros y [Hx Hy] Hne. change (Some (announcement triangle_states "1")) with (map_find "1"%string new_triangle).
    apply all_listed_spec; [vm_compute; reflexivity|done..].
Qed.

Lemma triangle_positive u e a c : map_find u triangle = Some e -> (a, c) ∈ lst_neighborCosts e -> 0 < c.
Proof.
  intros Hu%map_find_elem Hin.
  assert (Forall (fun p => Forall (fun q => 0 < q.2) (lst_neighborCosts p.2)) triangle) as Hall by by apply (bool_decide_unpack _).
  rewrite Forall_forall in Hall. specialize (Hall _ Hu). rewrite Forall_forall in Hall. exact (Hall _ Hin).
Qed.

Lemma triangle_informed : informed new_triangle triangle_names (announced lan triangle_states "1").
Proof.
  apply announcement_informed; [apply triangle_converged|by eexists|apply triangle_positive].
Qed.

Lemma triangle_floods : flooding lan new_triangle triangle_names 2 (announced lan triangle_states "1").
Proof.
  apply announcement_floods.
  - apply triangle_converged.
  - by eexists.
  - intros e [= <-]. vm_compute. reflexivity.
  - apply triangle_positive.
  - apply triangle_nodes; apply (bool_decide_unpack _); vm_compute; exact I.
  - intros u p v _. unfold lan. destruct (p =? 100); [|by intros ?%not_elem_of_nil].
    intros [_ Hv]%list_elem_of_filter. unfold is_node. revert v Hv. apply Forall_forall. by apply (bool_decide_unpack _).
  - intros u m. revert u. apply triangle_nodes; vm_compute; lia.
  - intros u v Hu Hv. destruct (decide (u = v)) as [->|Hne]; [done|]. apply rtc_once.
    assert (exists a, (100, a) ∈ m_socketAddresses (triangle_states u)) as [a Ha].
    { clear Hne. revert u Hu. apply triangle_nodes; eexists; left. }
    exists (100, a). split; [done|]. cbn [fst lan Z.eqb Pos.eqb]. apply list_elem_of_filter. split; [done|].
    clear - Hv. apply map_find_is_Some in Hv. exact Hv.
  - eexists _, "2"%string. split; [left|]. vm_compute. left.
  - assert (Forall (fun p => name_of triangle_names (nt_neighborAddr p.2) = p.1 /\ is_node triangle p.1) (m_neighborTable (triangle_states "1"))) as Hall
      by (repeat constructor; eexists; vm_compute; reflexivity).
    rewrite Forall_forall in Hall. intros y nte Hin. exact (Hall (y, nte) Hin).
  - vm_compute. reflexivity.
Qed.

Lemma flooding_converges_witness :
  (forall v m now socket, (v, m) ∈ flight (announced lan triangle_states "1") ->
     exists st' out, RecvLSMessage now socket m (local (announced lan triangle_states "1") v) = Ok (tt, st', out)) /\
  exists n net', deliveries lan n (announced lan triangle_states "1") net' /\
    flight net' = [] /\ converged (local net') new_triangle triangle_names.
Proof.
  split.
  { apply (flooding_converges lan new_triangle triangle_names 2 _ _ 0 triangle_floods (no_delivery lan _)).
    - apply triangle_informed.
    - eexists. apply triangle_backbone. }
  destruct (in_order_run 20 (announced lan triangle_states "1")) as [n Hn].
  exists n, (in_order 20 (announced lan triangle_states "1")).
  assert (flight (in_order 20 (announced lan triangle_states "1")) = []) as Hq by (vm_compute; reflexivity).
  split; [exact Hn|]. split; [exact Hq|].
  apply (flooding_converges lan new_triangle triangle_names 2 _ _ n triangle_floods Hn). exact Hq.
Defined.
