(* ===== verification/DVRouting.v ===== *)
(** * DVRouting: the distance-vector routing protocol

    src/ns-3/cs433/dv-routing-protocol/dv-routing-protocol.h and .cc, modelled
    in the same way as the link-state protocol (LSRouting). *)

From S2P Require Import Prelude StdMap StdString Ipv4Address Codec DVMessage Node.

(** ** Data *)

(** [M_INF], [std::numeric_limits<int>::max ()] *)
Definition M_INF : Z := INT_MAX.

Notation distanceVector := (stdmap string Z) (only parsing).

Record RoutingTableEntry := mkRT {
  rt_destAddr : Ipv4Address;
  rt_nextHopNum : Z;
  rt_nextHopAddr : Ipv4Address;
  rt_interfaceAddr : Ipv4Address;
  rt_cost : Z
}.

Record NeighborTableEntry := mkNT {
  nt_neighborAddr : Ipv4Address;
  nt_interfaceAddr : Ipv4Address;
  nt_lastUpdated : Time;
  nt_dv : distanceVector
}.

Section dv_routing.
Context {SR : Type} `{!Ipv4RoutingProtocol SR}.

(** The fields of the class; [m_ipv4] and [m_staticRouting] are pointers. *)
Record DVState := mkDVState {
  m_socketAddresses : stdmap SocketPtr Ipv4InterfaceAddress;
  m_mainAddress : Ipv4Address;
  m_staticRouting : option SR;
  m_ipv4 : option Ipv4;
  m_pingTimeout : Time;
  m_helloTimeout : Time;
  m_maxTTL : Z;
  m_dvPort : Z;
  m_currentSequenceNumber : Z;
  m_nodeAddressMap : stdmap Z Ipv4Address;
  m_addressNodeMap : stdmap Ipv4Address Z;
  m_auditPingsTimer : Timer;
  m_auditHellosTimer : Timer;
  m_pingTracker : stdmap Z PingRequest;
  m_dv : distanceVector;
  m_costs : distanceVector;
  m_neighborTable : stdmap string NeighborTableEntry;
  m_routingTable : stdmap string RoutingTableEntry
}.

Definition set_socketAddresses (x : stdmap SocketPtr Ipv4InterfaceAddress) (st : DVState) : DVState :=
    mkDVState x (m_mainAddress st) (m_staticRouting st) (m_ipv4 st) (m_pingTimeout st) (m_helloTimeout st)
    (m_maxTTL st) (m_dvPort st) (m_currentSequenceNumber st) (m_nodeAddressMap st) (m_addressNodeMap st)
    (m_auditPingsTimer st) (m_auditHellosTimer st) (m_pingTracker st) (m_dv st) (m_costs st) (m_neighborTable
    st) (m_routingTable st).
Definition set_mainAddress (x : Ipv4Address) (st : DVState) : DVState :=   mkDVState (m_socketAddresses st) x
    (m_staticRouting st) (m_ipv4 st) (m_pingTimeout st) (m_helloTimeout st) (m_maxTTL st) (m_dvPort st)
    (m_currentSequenceNumber st) (m_nodeAddressMap st) (m_addressNodeMap st) (m_auditPingsTimer st)
    (m_auditHellosTimer st) (m_pingTracker st) (m_dv st) (m_costs st) (m_neighborTable st) (m_routingTable
    st).
Definition set_staticRouting (x : option SR) (st : DVState) : DVState :=   mkDVState (m_socketAddresses st)
    (m_mainAddress st) x (m_ipv4 st) (m_pingTimeout st) (m_helloTimeout st) (m_maxTTL st) (m_dvPort st)
    (m_currentSequenceNumber st) (m_nodeAddressMap st) (m_addressNodeMap st) (m_auditPingsTimer st)
    (m_auditHellosTimer st) (m_pingTracker st) (m_dv st) (m_costs st) (m_neighborTable st) (m_routingTable
    st).
Definition set_ipv4 (x : option Ipv4) (st : DVState) : DVState :=   mkDVState (m_socketAddresses st)
    (m_mainAddress st) (m_staticRouting st) x (m_pingTimeout st) (m_helloTimeout st) (m_maxTTL st) (m_dvPort
    st) (m_currentSequenceNumber st) (m_nodeAddressMap st) (m_addressNodeMap st) (m_auditPingsTimer st)
    (m_auditHellosTimer st) (m_pingTracker st) (m_dv st) (m_costs st) (m_neighborTable st) (m_routingTable
    st).
Definition set_currentSequenceNumber (x : Z) (st : DVState) : DVState :=   mkDVState (m_socketAddresses st)
    (m_mainAddress st) (m_staticRouting st) (m_ipv4 st) (m_pingTimeout st) (m_helloTimeout st) (m_maxTTL st)
    (m_dvPort st) x (m_nodeAddressMap st) (m_addressNodeMap st) (m_auditPingsTimer st) (m_auditHellosTimer st)
    (m_pingTracker st) (m_dv st) (m_costs st) (m_neighborTable st) (m_routingTable st).
Definition set_nodeAddressMap (x : stdmap Z Ipv4Address) (st : DVState) : DVState :=   mkDVState
    (m_socketAddresses st) (m_mainAddress st) (m_staticRouting st) (m_ipv4 st) (m_pingTimeout st)
    (m_helloTimeout st) (m_maxTTL st) (m_dvPort st) (m_currentSequenceNumber st) x (m_addressNodeMap st)
    (m_auditPingsTimer st) (m_auditHellosTimer st) (m_pingTracker st) (m_dv st) (m_costs st) (m_neighborTable
    st) (m_routingTable st).
Definition set_addressNodeMap (x : stdmap Ipv4Address Z) (st : DVState) : DVState :=   mkDVState
    (m_socketAddresses st) (m_mainAddress st) (m_staticRouting st) (m_ipv4 st) (m_pingTimeout st)
    (m_helloTimeout st) (m_maxTTL st) (m_dvPort st) (m_currentSequenceNumber st) (m_nodeAddressMap st) x
    (m_auditPingsTimer st) (m_auditHellosTimer st) (m_pingTracker st) (m_dv st) (m_costs st) (m_neighborTable
    st) (m_routingTable st).
Definition set_auditPingsTimer (x : Timer) (st : DVState) : DVState :=   mkDVState (m_socketAddresses st)
    (m_mainAddress st) (m_staticRouting st) (m_ipv4 st) (m_pingTimeout st) (m_helloTimeout st) (m_maxTTL st)
    (m_dvPort st) (m_currentSequenceNumber st) (m_nodeAddressMap st) (m_addressNodeMap st) x
    (m_auditHellosTimer st) (m_pingTracker st) (m_dv st) (m_costs st) (m_neighborTable st) (m_routingTable
    st).
Definition set_auditHellosTimer (x : Timer) (st : DVState) : DVState :=   mkDVState (m_socketAddresses st)
    (m_mainAddress st) (m_staticRouting st) (m_ipv4 st) (m_pingTimeout st) (m_helloTimeout st) (m_maxTTL st)
    (m_dvPort st) (m_currentSequenceNumber st) (m_nodeAddressMap st) (m_addressNodeMap st) (m_auditPingsTimer
    st) x (m_pingTracker st) (m_dv st) (m_costs st) (m_neighborTable st) (m_routingTable st).
Definition set_pingTracker (x : stdmap Z PingRequest) (st : DVState) : DVState :=   mkDVState
    (m_socketAddresses st) (m_mainAddress st) (m_staticRouting st) (m_ipv4 st) (m_pingTimeout st)
    (m_helloTimeout st) (m_maxTTL st) (m_dvPort st) (m_currentSequenceNumber st) (m_nodeAddressMap st)
    (m_addressNodeMap st) (m_auditPingsTimer st) (m_auditHellosTimer st) x (m_dv st) (m_costs st)
    (m_neighborTable st) (m_routingTable st).
Definition set_dv (x : distanceVector) (st : DVState) : DVState :=   mkDVState (m_socketAddresses st)
    (m_mainAddress st) (m_staticRouting st) (m_ipv4 st) (m_pingTimeout st) (m_helloTimeout st) (m_maxTTL st)
    (m_dvPort st) (m_currentSequenceNumber st) (m_nodeAddressMap st) (m_addressNodeMap st) (m_auditPingsTimer
    st) (m_auditHellosTimer st) (m_pingTracker st) x (m_costs st) (m_neighborTable st) (m_routingTable st).
Definition set_costs (x : distanceVector) (st : DVState) : DVState :=   mkDVState (m_socketAddresses st)
    (m_mainAddress st) (m_staticRouting st) (m_ipv4 st) (m_pingTimeout st) (m_helloTimeout st) (m_maxTTL st)
    (m_dvPort st) (m_currentSequenceNumber st) (m_nodeAddressMap st) (m_addressNodeMap st) (m_auditPingsTimer
    st) (m_auditHellosTimer st) (m_pingTracker st) (m_dv st) x (m_neighborTable st) (m_routingTable st).
Definition set_neighborTable (x : stdmap string NeighborTableEntry) (st : DVState) : DVState :=   mkDVState
    (m_socketAddresses st) (m_mainAddress st) (m_staticRouting st) (m_ipv4 st) (m_pingTimeout st)
    (m_helloTimeout st) (m_maxTTL st) (m_dvPort st) (m_currentSequenceNumber st) (m_nodeAddressMap st)
    (m_addressNodeMap st) (m_auditPingsTimer st) (m_auditHellosTimer st) (m_pingTracker st) (m_dv st) (m_costs
    st) x (m_routingTable st).
Definition set_routingTable (x : stdmap string RoutingTableEntry) (st : DVState) : DVState :=   mkDVState
    (m_socketAddresses st) (m_mainAddress st) (m_staticRouting st) (m_ipv4 st) (m_pingTimeout st)
    (m_helloTimeout st) (m_maxTTL st) (m_dvPort st) (m_currentSequenceNumber st) (m_nodeAddressMap st)
    (m_addressNodeMap st) (m_auditPingsTimer st) (m_auditHellosTimer st) (m_pingTracker st) (m_dv st) (m_costs
    st) (m_neighborTable st) x.

Notation H := (handler DVState (action DVMessage)).

(** [DVRoutingProtocol ()] with the default attributes; [seq] is the random
    initial sequence number. *)
Definition MakeDVRoutingProtocol (seq : Z) : DVState := {|
  m_socketAddresses := []; m_mainAddress := Ipv4Address_default;
  m_staticRouting := Some new_protocol; m_ipv4 := None;
  m_pingTimeout := MilliSeconds 2000; m_helloTimeout := MilliSeconds 6000;
  m_maxTTL := 16; m_dvPort := 6000; m_currentSequenceNumber := u32 seq;
  m_nodeAddressMap := []; m_addressNodeMap := [];
  m_auditPingsTimer := None; m_auditHellosTimer := None;
  m_pingTracker := []; m_dv := []; m_costs := []; m_neighborTable := []; m_routingTable := [] |}.

(** ** Configuration *)

Definition SetMainInterface (mainInterface : Z) : H unit := modifyM (fun st =>
  ip ← m_ipv4 st ?? NullDeref;
  a ← GetAddress ip mainInterface 0;
  Ok (set_mainAddress (m_local a) st)).

Definition SetNodeAddressMap (m : stdmap Z Ipv4Address) : H unit := modify (set_nodeAddressMap m).
Definition SetAddressNodeMap (m : stdmap Ipv4Address Z) : H unit := modify (set_addressNodeMap m).

Definition SetIpv4 (ip : Ipv4) : H unit := modifyM (fun st =>
  sr ← m_staticRouting st ?? NullDeref;
  sr ← SetIpv4_ ip sr;
  Ok (set_staticRouting (Some sr) (set_ipv4 (Some ip) st))).

Definition on_static (f : SR -> result SR) : H unit := modifyM (fun st =>
  sr ← m_staticRouting st ?? NullDeref; sr ← f sr; Ok (set_staticRouting (Some sr) st)).
Definition NotifyInterfaceUp (i : Z) : H unit := on_static (NotifyInterfaceUp_ i).
Definition NotifyInterfaceDown (i : Z) : H unit := on_static (NotifyInterfaceDown_ i).
Definition NotifyAddAddress (i : Z) (a : Ipv4InterfaceAddress) : H unit := on_static (NotifyAddAddress_ i a).
Definition NotifyRemoveAddress (i : Z) (a : Ipv4InterfaceAddress) : H unit := on_static (NotifyRemoveAddress_ i a).

Definition DoDispose : H unit :=
  st ← get;
  _ ← for_loop (m_socketAddresses st) (fun p => emit (CloseSocket p.1));
  _ ← modify (set_socketAddresses []);
  _ ← modify (set_staticRouting None);
  _ ← modify (fun st => set_auditPingsTimer (Timer_Cancel (m_auditPingsTimer st)) st);
  _ ← modify (fun st => set_auditHellosTimer (Timer_Cancel (m_auditHellosTimer st)) st);
  modify (set_pingTracker []).

Definition schedule_audit_pings (now : Time) : H unit := modifyM (fun st =>
  t ← Timer_Schedule now (m_pingTimeout st) (m_auditPingsTimer st); Ok (set_auditPingsTimer t st)).
Definition schedule_audit_hellos (now : Time) : H unit := modifyM (fun st =>
  t ← Timer_Schedule now (m_helloTimeout st) (m_auditHellosTimer st); Ok (set_auditHellosTimer t st)).

(** ** Names and addresses *)

Definition ResolveNodeIpAddress (st : DVState) (nodeNumber : Z) : Ipv4Address :=
  match map_find nodeNumber (m_nodeAddressMap st) with Some a => a | None => GetAny end.

Definition ReverseLookup (st : DVState) (ipAddress : Ipv4Address) : string :=
  match map_find ipAddress (m_addressNodeMap st) with
  | Some nodeNumber => show_uint nodeNumber
  | None => "Unknown"
  end.

Definition IsOwnAddress (st : DVState) (originatorAddress : Ipv4Address) : bool :=
  existsb (fun p => originatorAddress =? m_local p.2) (m_socketAddresses st).

Definition GetNextSequenceNumber : H Z :=
  st ← get;
  _ ← modify (set_currentSequenceNumber (u32 (m_currentSequenceNumber st + 1)));
  mret (m_currentSequenceNumber st).

Definition SearchTable (st : DVState) (dest : Ipv4Address) : option RoutingTableEntry :=
  map_find (ReverseLookup st dest) (m_routingTable st).

(** ** Start *)

Definition DoStart (now : Time) : H unit :=
  st ← get;
  ip ← lift (m_ipv4 st ?? NullDeref);
  _ ← for_loop (seqZ 0 (GetNInterfaces ip)) (fun i =>
    address ← lift (GetAddress ip i 0);
    let ipAddress := m_local address in
    if ipAddress =? GetLoopback then mret tt else
    let socket := CreateSocket ip i in
    if negb (Bind ip i =? 0) then lift (Fault FatalError) else
    _ ← lift (GetNetDevice ip i);
    modify (fun st => set_socketAddresses (map_set socket address (m_socketAddresses st)) st));
  _ ← schedule_audit_pings now;
  _ ← schedule_audit_hellos now;
  modify (fun st => set_dv (map_insert (ReverseLookup st (m_mainAddress st)) 0 (m_dv st)) st).

(** ** Routing of data packets *)

(** The route built for a next hop and the interface it is reached by. *)
Definition make_route (st : DVState) (ip : Ipv4) (dest gateway interfaceAddr : Ipv4Address) : result Ipv4Route :=
  let interface := GetInterfaceForAddress ip interfaceAddr in
  dev ← GetNetDevice ip (u32 interface);
  Ok (mkRoute dest (m_mainAddress st) gateway dev).

(** The result is the returned route and the error number left in [sockerr];
    the route of the static protocol is bound to a variable of the inner block
    and lost. *)
Definition RouteOutput (st : DVState) (packet : Packet) (header : Ipv4Header)
    (outInterface : option NetDevice) (sockerr : Z) : result (option Ipv4Route * Z) :=
  let dest := GetDestination header in
  if dest =? m_mainAddress st then
    let local := AsciiToIpv4Host "127.0.0.1" in
    ip ← m_ipv4 st ?? NullDeref;
    r ← make_route st ip dest local local; Ok (Some r, sockerr)
  else match SearchTable st dest with
  | Some entry =>
      ip ← m_ipv4 st ?? NullDeref;
      r ← make_route st ip dest (rt_nextHopAddr entry) (rt_interfaceAddr entry); Ok (Some r, sockerr)
  | None =>
      sr ← m_staticRouting st ?? NullDeref;
      '(_, sockerr) ← RouteOutput_ sr packet header outInterface sockerr; Ok (None, sockerr)
  end.

(** [lcb] tells whether the local-delivery callback is set. *)
Definition RouteInput {M} (st : DVState) (packet : Packet) (header : Ipv4Header) (inputDev : NetDevice)
    (lcb : bool) : result (bool * list (action M)) :=
  let destinationAddress := GetDestination header in
  if IsOwnAddress st (GetSource header) then Ok (true, []) else
  ip ← m_ipv4 st ?? NullDeref;
  let interfaceNum := u32 (GetInterfaceForDevice ip inputDev) in
  local ← IsDestinationAddress ip destinationAddress interfaceNum;
  if local : bool then
    if lcb then Ok (true, [LocalDeliver packet interfaceNum]) else Ok (false, [])
  else match SearchTable st destinationAddress with
  | Some entry =>
      r ← make_route st ip destinationAddress (rt_nextHopAddr entry) (rt_interfaceAddr entry);
      Ok (true, [UnicastForward r packet])
  | None =>
      sr ← m_staticRouting st ?? NullDeref;
      RouteInput_ sr packet header inputDev lcb
  end.

(** ** Sending *)

Definition BroadcastPacket (m : DVMessage) : H unit :=
  st ← get;
  for_loop (m_socketAddresses st) (fun p =>
    broadcastAddr ← lift (GetSubnetDirectedBroadcast (m_local p.2) (m_mask p.2));
    emit (SendTo p.1 broadcastAddr (m_dvPort st) m)).

Definition SendHello : H unit :=
  st ← get;
  let destAddress := ResolveNodeIpAddress st 0 in
  sequenceNumber ← GetNextSequenceNumber;
  let dvMessage := MakeDVMessage HELLO_REQ sequenceNumber 1 (m_mainAddress st) in
  dvMessage ← lift (SetHelloReq destAddress "hello" dvMessage);
  BroadcastPacket dvMessage.


(** The first socket bound to the interface; the broadcast address is computed
    for every socket on the way.  With no such socket nothing is sent. *)
Fixpoint SendPacket_loop (port : Z) (m : DVMessage) (interfaceAddr : Ipv4Address)
    (sockets : stdmap SocketPtr Ipv4InterfaceAddress) : H unit :=
  match sockets with
  | [] => mret tt
  | i :: sockets' =>
      broadcastAddr ← lift (GetSubnetDirectedBroadcast (m_local i.2) (m_mask i.2));
      if interfaceAddr =? m_local i.2 then emit (SendTo i.1 broadcastAddr port m)
      else SendPacket_loop port m interfaceAddr sockets'
  end.

Definition SendPacket (m : DVMessage) (interfaceAddr : Ipv4Address) : H unit :=
  st ← get; SendPacket_loop (m_dvPort st) m interfaceAddr (m_socketAddresses st).

(** [ResolveNodeIpAddress (std::atoi (name.c_str ()))] *)
Definition resolve_name (st : DVState) (name : string) : Ipv4Address :=
  ResolveNodeIpAddress st (u32 (atoi name)).

(** The vector advertised to neighbour [n]: its own entry is poisoned when the
    route to it goes through itself. *)
Definition advertised (st : DVState) (n : string) : result (list (Ipv4Address * Z)) :=
  foldM (fun newdv j =>
    let dest := j.1 in
    let destAddr := resolve_name st dest in
    nte ← map_find n (m_neighborTable st) ?? DerefEnd;
    let poison :=
      (destAddr =? nt_neighborAddr nte) &&
      match map_find dest (m_routingTable st) with
      | Some rte => rt_nextHopAddr rte =? destAddr
      | None => false
      end in
    Ok (newdv ++ [(destAddr, if poison then M_INF else j.2)])) [] (m_dv st).

Definition SendDVTableMessage : H unit :=
  sequenceNumber ← GetNextSequenceNumber;
  st ← get;
  for_loop (m_costs st) (fun i =>
    let dvMessage := MakeDVMessage DV_TABLE_MSG sequenceNumber 1 (m_mainAddress st) in
    newdv ← lift (advertised st i.1);
    dvMessage ← lift (SetDVTableMsg newdv dvMessage);
    nte ← lift (map_find i.1 (m_neighborTable st) ?? DerefEnd);
    SendPacket dvMessage (nt_interfaceAddr nte)).

(** ** The distance-vector computation *)

(** The inner loop of [BellmanFord] for one destination: the minimal cost, the
    next hop (empty at first), and whether any neighbour knows [dest]. *)
Definition best_step (st : DVState) (dest : string) (acc : Z * string * bool) (j : string * Z)
    : result (Z * string * bool) :=
  let '(minCost, nextHop, updated_value) := acc in
  let cost_to_neighbor := j.2 in
  entry ← map_find j.1 (m_neighborTable st) ?? DerefEnd;
  match map_find dest (nt_dv entry) with
  | None => Ok acc
  | Some neighbor_to_dest =>
      let current :=
        if neighbor_to_dest <? u32 (M_INF - cost_to_neighbor)
        then u32 (cost_to_neighbor + neighbor_to_dest) else neighbor_to_dest in
      if current <? minCost then Ok (current, j.1, true) else Ok (minCost, nextHop, true)
  end.

Definition best_route (st : DVState) (dest : string) : result (Z * string * bool) :=
  foldM (best_step st dest) (M_INF, EmptyString, false) (m_costs st).

(** The body of the loop over [m_dv]: the vector, the routing table and
    [sendDV]. *)
Definition BF_dest (st : DVState) (acc : distanceVector * stdmap string RoutingTableEntry * bool) (i : string * Z)
    : result (distanceVector * stdmap string RoutingTableEntry * bool) :=
  let '(dv, rt, sendDV) := acc in
  let dest := i.1 in
  let thisNode := ReverseLookup st (m_mainAddress st) in
  if String.eqb dest thisNode then
    let nodeEntry := mkRT (m_mainAddress st) (m_mainAddress st) (m_mainAddress st)
      (AsciiToIpv4Host "127.0.0.1") 0 in
    Ok (dv, map_insert thisNode nodeEntry rt, sendDV)
  else
    '(minCost, nextHop, updated_value) ← best_route st dest;
    let change := updated_value && negb (minCost =? i.2) && (minCost <=? 16) in
    let dv := if change then map_update dest (fun _ => minCost) dv else dv in
    let sendDV := sendDV || change in
    if (minCost <? M_INF) && (minCost <? 16) then
      let nha := resolve_name st nextHop in
      nte ← map_find (ReverseLookup st nha) (m_neighborTable st) ?? DerefEnd;
      let nodeEntry := mkRT (resolve_name st dest) nha nha (nt_interfaceAddr nte) minCost in
      Ok (dv, map_insert dest nodeEntry rt, sendDV)
    else Ok (dv, rt, sendDV).

(** The destinations of [ndv] not known yet get the entry [M_INF]. *)
Definition add_unknown (ndv dv : distanceVector) : distanceVector :=
  foldl (fun dv j => match map_find j.1 dv with None => map_set j.1 M_INF dv | Some _ => dv end) dv ndv.

(** The new vector, the new routing table, and whether to advertise. *)
Definition BF_tables (st : DVState) (ndv : distanceVector)
    : result (distanceVector * stdmap string RoutingTableEntry * bool) :=
  let dv := add_unknown ndv (m_dv st) in
  foldM (BF_dest st) (dv, [], false) dv.

Definition BellmanFord (ndv : distanceVector) : H unit :=
  st ← get;
  '(dv, rt, sendDV) ← lift (BF_tables st ndv);
  _ ← modify (fun st => set_routingTable rt (set_dv dv st));
  if sendDV : bool then SendDVTableMessage else mret tt.

(** ** Messages received *)

Definition ProcessPingReq (dvMessage : DVMessage) : H unit :=
  st ← get;
  if IsOwnAddress st (PingReq_destinationAddress (GetPingReq dvMessage)) then
    let dvResp := MakeDVMessage PING_RSP (GetSequenceNumber dvMessage) (m_maxTTL st) (m_mainAddress st) in
    dvResp ← lift (SetPingRsp (GetOriginatorAddress dvMessage) (PingReq_pingMessage (GetPingReq dvMessage)) dvResp);
    BroadcastPacket dvResp
  else mret tt.

Definition ProcessPingRsp (dvMessage : DVMessage) : H unit :=
  st ← get;
  if IsOwnAddress st (PingRsp_destinationAddress (GetPingRsp dvMessage)) then
    match map_find (GetSequenceNumber dvMessage) (m_pingTracker st) with
    | Some _ => modify (set_pingTracker (map_erase (GetSequenceNumber dvMessage) (m_pingTracker st)))
    | None => mret tt
    end
  else mret tt.

Definition ProcessHelloReq (now : Time) (dvMessage : DVMessage) (socket : SocketPtr) : H unit :=
  st ← get;
  let neighAddr := GetOriginatorAddress dvMessage in
  let fromNode := ReverseLookup st neighAddr in
  let interfaceAddr :=
    match map_find socket (m_socketAddresses st) with Some i => m_local i | None => Ipv4Address_default end in
  match map_find fromNode (m_neighborTable st) with
  | Some _ =>
      modify (set_neighborTable (map_update fromNode
        (fun e => mkNT (nt_neighborAddr e) (nt_interfaceAddr e) now (nt_dv e)) (m_neighborTable st)))
  | None =>
      let entry := mkNT neighAddr interfaceAddr now [] in
      _ ← modify (fun st => set_neighborTable (map_insert fromNode entry (m_neighborTable st)) st);
      _ ← modify (fun st => set_dv (map_insert fromNode 1 (m_dv st)) st);
      _ ← modify (fun st => set_costs (map_insert fromNode 1 (m_costs st)) st);
      _ ← BellmanFord [];
      SendDVTableMessage
  end.

(** The received vector, keyed by name. *)
Definition received_dv (st : DVState) (neighborAddrs : list (Ipv4Address * Z)) : distanceVector :=
  foldl (fun newdv p => map_set (ReverseLookup st p.1) p.2 newdv) [] neighborAddrs.

Definition ProcessDVTableMessage (now : Time) (dvMessage : DVMessage) (socket : SocketPtr) : H unit :=
  st ← get;
  let neighborAddrs := neighborCosts (GetDVTableMsg dvMessage) in
  let fromAddr := GetOriginatorAddress dvMessage in
  let fromNode := ReverseLookup st fromAddr in
  let newdv := received_dv st neighborAddrs in
  _ ← match map_find fromNode (m_neighborTable st) with
  | None =>
      let interfaceAddr :=
        match map_find socket (m_socketAddresses st) with Some i => m_local i | None => Ipv4Address_default end in
      modify (set_neighborTable (map_set fromNode (mkNT fromAddr interfaceAddr now newdv) (m_neighborTable st)))
  | Some _ =>
      modify (set_neighborTable (map_update fromNode
        (fun e => mkNT (nt_neighborAddr e) (nt_interfaceAddr e) (nt_lastUpdated e) newdv) (m_neighborTable st)))
  end;
  BellmanFord newdv.

Definition RecvDVMessage (now : Time) (socket : SocketPtr) (dvMessage : DVMessage) : H unit :=
  let t := GetMessageType dvMessage in
  if t =? PING_REQ then ProcessPingReq dvMessage
  else if t =? PING_RSP then ProcessPingRsp dvMessage
  else if t =? HELLO_REQ then ProcessHelloReq now dvMessage socket
  else if t =? DV_TABLE_MSG then ProcessDVTableMessage now dvMessage socket
  else mret tt.

(** ** Audits *)

Definition ping_expired (st : DVState) (now : Time) (r : PingRequest) : bool :=
  GetMilliSeconds (PingRequest_m_timestamp r) + GetMilliSeconds (m_pingTimeout st) <=? GetMilliSeconds now.

Definition AuditPings (now : Time) : H unit :=
  _ ← modify (fun st => set_pingTracker (erase_expired (ping_expired st now) (m_pingTracker st)) st);
  schedule_audit_pings now.

Definition hello_expired (st : DVState) (now : Time) (entry : NeighborTableEntry) : bool :=
  GetMilliSeconds (nt_lastUpdated entry) + GetMilliSeconds (m_helloTimeout st) <=? GetMilliSeconds now.

(** One neighbour of the audit loop; [m_costs.erase (m_costs.find (...))]. *)
Definition audit_neighbor (now : Time) (i : string * NeighborTableEntry) (st : DVState) : result DVState :=
  let entry := i.2 in
  if hello_expired st now entry then
    let nodeName := ReverseLookup st (nt_neighborAddr entry) in
    let st := set_dv (map_set nodeName M_INF (m_dv st)) st in
    _ ← map_find nodeName (m_costs st) ?? DerefEnd;
    let st := set_costs (map_erase nodeName (m_costs st)) st in
    Ok (set_neighborTable (map_erase i.1 (m_neighborTable st)) st)
  else Ok st.

(** [BellmanFord (m_dv)] is passed [m_dv] itself, in which every name is known. *)
Definition AuditHellos (now : Time) : H unit :=
  _ ← SendHello;
  st ← get;
  let sendMsg := existsb (fun i => hello_expired st now i.2) (m_neighborTable st) in
  _ ← modifyM (fun st => foldM (fun st i => audit_neighbor now i st) st (m_neighborTable st));
  _ ← (if sendMsg then (st ← get; BellmanFord (m_dv st)) else mret tt);
  schedule_audit_hellos now.

(** ** Commands *)

Definition DumpNeighbors : H unit :=
  st ← get;
  for_loop (m_neighborTable st) (fun i =>
    emit (NeighborRow i.1 (nt_neighborAddr i.2) (nt_interfaceAddr i.2))).

Definition DumpRoutingTable : H unit :=
  st ← get;
  for_loop (m_routingTable st) (fun i =>
    let entry := i.2 in
    emit (RouteRow (ReverseLookup st (rt_destAddr entry)) (rt_destAddr entry) (rt_nextHopNum entry)
      (rt_nextHopAddr entry) (rt_interfaceAddr entry) (rt_cost entry))).

Definition DumpDV : H unit :=
  st ← get; emit (LinkRow (ReverseLookup st (m_mainAddress st)) (m_dv st)).

Definition DumpNeighborDV (nte : NeighborTableEntry) : H unit :=
  st ← get; emit (LinkRow (ReverseLookup st (nt_neighborAddr nte)) (nt_dv nte)).

(** [sin >> nodeNumber] on text that is no number leaves the variable
    unspecified (it is not initialised). *)
Definition ProcessCommand (now : Time) (tokens : list string) : H unit :=
  command ← lift (tokens !! 0%nat ?? DerefEnd);
  if String.eqb command "PING" then
    match tokens with
    | _ :: number :: pingMessage :: _ =>
        nodeNumber ← lift (read_uint32 number ?? UninitRead);
        st ← get;
        let destAddress := ResolveNodeIpAddress st nodeNumber in
        if negb (destAddress =? GetAny) then
          sequenceNumber ← GetNextSequenceNumber;
          let pingRequest := mkPingRequest sequenceNumber now destAddress pingMessage in
          _ ← modify (fun st => set_pingTracker (map_insert sequenceNumber pingRequest (m_pingTracker st)) st);
          let dvMessage := MakeDVMessage PING_REQ sequenceNumber (m_maxTTL st) (m_mainAddress st) in
          dvMessage ← lift (SetPingReq destAddress pingMessage dvMessage);
          BroadcastPacket dvMessage
        else mret tt
    | _ => mret tt
    end
  else if String.eqb command "DUMP" then
    match tokens with
    | _ :: table :: _ =>
        if String.eqb table "ROUTES" || String.eqb table "ROUTING" then DumpRoutingTable
        else if String.eqb table "NEIGHBORS" || String.eqb table "NEIGHBOURS" then DumpNeighbors
        else if String.eqb table "DV" then DumpDV
        else mret tt
    | _ => mret tt
    end
  else mret tt.
End dv_routing.

Arguments DVState SR : clear implicits.
