(* ===== verification/DVBellmanFord.v ===== *)
(** * DVBellmanFord: what [BellmanFord] computes

    BellmanFord of dv-routing-protocol.cc against its specification: for
    every destination the least cost over the neighbours' vectors, cut off at
    16. *)

From S2P Require Import Prelude StdMap StdString Ipv4Address Codec DVMessage Node DVRouting.

Section bellman_ford.
Context {SR : Type} (st : DVState SR).

Notation NT := (m_neighborTable st).

Definition this_node : string := ReverseLookup st (m_mainAddress st).

(** The cost of [dest] through a neighbour at cost [c] that advertises [d]. *)
Definition via (c d : Z) : Z := if d <? u32 (M_INF - c) then u32 (c + d) else d.

(** Neighbour [n] offers [dest] at cost [v]. *)
Definition offers (dest n : string) (v : Z) : Prop :=
  exists c e d, (n, c) ∈ m_costs st /\ map_find n NT = Some e /\ map_find dest (nt_dv e) = Some d /\ v = via c d.

(** The least finite offer [b] and who makes it, or [M_INF] and nobody. *)
Definition best (dest : string) (b : Z) (n : string) : Prop :=
  (forall m v, offers dest m v -> b <= v) /\
  ((b = M_INF /\ n = EmptyString) \/ (b < M_INF /\ offers dest n b)).

Lemma via_M_INF c : 0 <= c <= M_INF -> via c M_INF = M_INF.
Proof.
  intros. unfold via. rewrite u32_small by (unfold is_u32, M_INF, INT_MAX in *; lia).
  by replace (M_INF <? M_INF - c) with false by lia.
Qed.

Lemma via_small c d : 0 <= c -> 0 <= d -> c + d < M_INF -> via c d = c + d.
Proof.
  intros. unfold via. rewrite u32_small by (unfold is_u32, M_INF, INT_MAX in *; lia).
  replace (d <? M_INF - c) with true by lia. apply u32_small. unfold is_u32, M_INF, INT_MAX in *; lia.
Qed.

Lemma best_step_eq dest acc n c e :
  map_find n NT = Some e ->
  best_step st dest acc (n, c) = Ok
    match map_find dest (nt_dv e) with
    | None => acc
    | Some d => if via c d <? acc.1.1 then (via c d, n, true) else (acc.1.1, acc.1.2, true)
    end.
Proof.
  intros Hn. destruct acc as [[b h] u]. unfold best_step. cbn [fst snd]. rewrite Hn. cbn [or_fault mbind result_bind].
  destruct (map_find dest (nt_dv e)); [|done]. unfold via. by destruct (_ <? b).
Qed.

(** What the scan knows after a prefix of [m_costs]. *)
Definition scanned (dest : string) (l : stdmap string Z) (acc : Z * string * bool) : Prop :=
  (forall n c e d, (n, c) ∈ l -> map_find n NT = Some e -> map_find dest (nt_dv e) = Some d ->
     acc.1.1 <= via c d) /\
  ((acc.1.1 = M_INF /\ acc.1.2 = EmptyString) \/ (acc.1.1 < M_INF /\ acc.2 = true /\
     exists c e d, (acc.1.2, c) ∈ l /\ map_find acc.1.2 NT = Some e /\ map_find dest (nt_dv e) = Some d /\
       acc.1.1 = via c d)).

Lemma scanned_step dest l acc n c e :
  map_find n NT = Some e -> scanned dest l acc -> exists acc',
  best_step st dest acc (n, c) = Ok acc' /\ scanned dest (l ++ [(n, c)]) acc'.
Proof.
  intros Hn (Hmin & Hor). rewrite (best_step_eq dest acc n c e) by done. eexists; split; [done|].
  destruct (map_find dest (nt_dv e)) as [d|] eqn:Hd.
  - destruct (Z.ltb_spec (via c d) acc.1.1) as [Hlt|Hge]; split; cbn [fst snd].
    + intros m c' e' d' [Hm|[= -> ->]%list_elem_of_singleton]%elem_of_app He Hd'.
      * specialize (Hmin m c' e' d' Hm He Hd'). lia.
      * rewrite Hn in He. injection He as <-. rewrite Hd in Hd'. injection Hd' as <-. lia.
    + right. split_and!; [destruct Hor as [[? _]|[? _]]; lia|done|].
      exists c, e, d. split_and!; try done. apply elem_of_app. right. left.
    + intros m c' e' d' [Hm|[= -> ->]%list_elem_of_singleton]%elem_of_app He Hd'; [by eapply Hmin|].
      rewrite Hn in He. injection He as <-. rewrite Hd in Hd'. injection Hd' as <-. lia.
    + destruct Hor as [?|(? & ? & c' & e' & d' & ? & ?)]; [by left|right]. split_and!; [done|done|].
      exists c', e', d'. split; [|done]. apply elem_of_app. by left.
  - split.
    + intros m c' e' d' [Hm|[= -> ->]%list_elem_of_singleton]%elem_of_app He Hd'; [by eapply Hmin|congruence].
    + destruct Hor as [?|(? & ? & c' & e' & d' & ? & ?)]; [by left|right]. split_and!; [done|done|].
      exists c', e', d'. split; [|done]. apply elem_of_app. by left.
Qed.

Lemma best_route_scanned dest :
  (forall n c, (n, c) ∈ m_costs st -> is_Some (map_find n NT)) ->
  exists acc, best_route st dest = Ok acc /\ scanned dest (m_costs st) acc.
Proof.
  intros Hk. unfold best_route. apply foldM_prefix.
  - split; [by intros ? ? ? ? ?%not_elem_of_nil|by left].
  - intros l1 [n c] l2 acc Hl Hacc. destruct (Hk n c) as [e He].
    { rewrite Hl. apply elem_of_app. right. left. }
    by eapply scanned_step.
Qed.

Lemma scanned_best dest acc : scanned dest (m_costs st) acc -> best dest acc.1.1 acc.1.2.
Proof.
  intros [Hmin Hor]. split.
  - intros m v (c & e & d & Hin & He & Hd & ->). by eapply Hmin.
  - destruct Hor as [?|(? & _ & Hex)]; [by left|right]. by split.
Qed.

(** ** One destination, and all of them *)

(** The neighbours in [m_costs] have table entries and their names resolve. *)
Definition costs_ok : Prop := forall n c, (n, c) ∈ m_costs st ->
  is_Some (map_find n NT) /\ ReverseLookup st (resolve_name st n) = n.

Definition self_entry : RoutingTableEntry :=
  mkRT (m_mainAddress st) (m_mainAddress st) (m_mainAddress st) 0x7f000001 0.

(** The vector entry [v] and the route [r] that the computation leaves for
    [dest], whose vector entry was [old]. *)
Definition dest_result (dest : string) (old : Z) (v : option Z) (r : option RoutingTableEntry) : Prop :=
  if decide (dest = this_node) then v = Some old /\ r = Some self_entry
  else exists b n, best dest b n /\ v = Some (if b <=? 16 then b else old) /\
    if b <? 16 then exists nte, map_find n NT = Some nte /\
      r = Some (mkRT (resolve_name st dest) (resolve_name st n) (resolve_name st n) (nt_interfaceAddr nte) b)
    else r = None.

(** Before and after the loop body for the key [k]. *)
Lemma BF_dest_step dv rt sendDV k old :
  costs_ok -> map_wf dv -> map_wf rt -> map_find k dv = Some old -> map_find k rt = None ->
  exists dv' rt' sendDV', BF_dest st (dv, rt, sendDV) (k, old) = Ok (dv', rt', sendDV') /\
    map_wf dv' /\ map_wf rt' /\ dest_result k old (map_find k dv') (map_find k rt') /\
    (forall x, x <> k -> map_find x dv' = map_find x dv /\ map_find x rt' = map_find x rt) /\
    (sendDV' = true <-> sendDV = true \/ map_find k dv' <> Some old).
Proof.
  intros Hc Hwd Hwr Hk Hr. unfold BF_dest, dest_result. cbn [fst snd]. fold this_node.
  destruct (String.eqb_spec k this_node) as [->|Hne].
  { eexists _, _, _. split; [done|]. rewrite decide_True by done.
    split_and!; [done|by apply map_wf_insert|done|..].
    - by rewrite map_find_insert, decide_True, Hr.
    - intros x Hx. rewrite map_find_insert, decide_False by done. done.
    - naive_solver. }
  destruct (best_route_scanned k) as (((b & n) & u) & -> & Hsc); [intros; by eapply Hc|].
  pose proof (scanned_best _ _ Hsc) as Hb. destruct Hsc as [_ Hor]. cbn [fst snd] in *.
  cbn [mbind result_bind].
  set (change := u && negb (b =? old) && (b <=? 16)).
  set (dv' := if change then map_update k (fun _ => b) dv else dv).
  assert (map_wf dv') as Hwd' by (unfold dv'; destruct change; [by apply map_wf_update|done]).
  assert (forall x, x <> k -> map_find x dv' = map_find x dv) as Hother.
  { intros x Hx. unfold dv'. destruct change; [|done]. by rewrite map_find_update, decide_False. }
  assert (map_find k dv' = Some (if b <=? 16 then b else old)) as Hthis.
  { unfold dv', change. destruct (Z.leb_spec b 16).
    - destruct Hor as [[-> _]|(_ & -> & _)]; [unfold M_INF, INT_MAX in *; lia|]. cbn.
      destruct (Z.eqb_spec b old); cbn; [by subst|]. by rewrite map_find_update, decide_True, Hk.
    - by rewrite andb_false_r. }
  assert (forall s, s || change = true <-> s = true \/ map_find k dv' <> Some old) as Hsend.
  { intros s. rewrite Hthis. unfold change. destruct s; [cbn; naive_solver|]. cbn [orb].
    destruct (Z.leb_spec b 16).
    - destruct Hor as [[-> _]|(_ & -> & _)]; [unfold M_INF, INT_MAX in *; lia|].
      destruct (Z.eqb_spec b old); cbn; naive_solver.
    - rewrite andb_false_r. naive_solver. }
  replace ((b <? M_INF) && (b <? 16)) with (b <? 16) by (unfold M_INF, INT_MAX in *; lia).
  destruct (Z.ltb_spec b 16) as [Hlt|Hge].
  - pose proof Hb as [_ [[-> _]|[_ Hoff]]]; [unfold M_INF, INT_MAX in *; lia|].
    pose proof Hoff as (c & e & d & Hin & He & _). destruct (Hc n c Hin) as [_ Hname]. rewrite Hname, He.
    cbn [or_fault mbind result_bind]. eexists _, _, _. split; [done|].
    rewrite decide_False by done. split_and!; [done|by apply map_wf_insert| | |done].
    + exists b, n. split; [exact Hb|]. split; [exact Hthis|].
      replace (b <? 16) with true by lia.
      exists e. split; [done|]. by rewrite map_find_insert, decide_True, Hr.
    + intros x Hx. split; [by apply Hother|]. by rewrite map_find_insert, decide_False.
  - eexists _, _, _. split; [done|]. rewrite decide_False by done. split_and!; [done..| | |done].
    + exists b, n. split; [exact Hb|]. split; [exact Hthis|]. by replace (b <? 16) with false by lia.
    + intros x Hx. split; [by apply Hother|done].
Qed.

(** The tables after the keys of [l] have been processed, from the vector
    [dv0]. *)
Definition BF_inv (dv0 l : stdmap string Z) (acc : stdmap string Z * stdmap string RoutingTableEntry * bool) : Prop :=
  let '(dv, rt, sendDV) := acc in
  map_wf dv /\ map_wf rt /\
  (forall k old, (k, old) ∈ l -> dest_result k old (map_find k dv) (map_find k rt)) /\
  (forall k, k ∉ map_keys l -> map_find k dv = map_find k dv0 /\ map_find k rt = None) /\
  (sendDV = true <-> exists k old, (k, old) ∈ l /\ map_find k dv <> Some old).

Lemma BF_loop dv0 : costs_ok -> map_wf dv0 ->
  exists acc, foldM (BF_dest st) (dv0, [], false) dv0 = Ok acc /\ BF_inv dv0 dv0 acc.
Proof.
  intros Hc Hwf. apply foldM_prefix.
  - split_and!; [done|apply map_wf_nil|by intros ? ? ?%not_elem_of_nil|done|].
    split; [done|]. by intros (? & ? & ?%not_elem_of_nil & _).
  - intros l1 [k old] l2 [[dv rt] s] Hl (Hwd & Hwr & Hin & Hout & Hs).
    pose proof (map_wf_NoDup dv0 Hwf) as Hnd. rewrite Hl in Hnd. unfold map_keys in Hnd.
    rewrite fmap_app, fmap_cons in Hnd. apply NoDup_app in Hnd as (_ & Hdis & _).
    assert (k ∉ map_keys l1) as Hk.
    { intros Hk. apply (Hdis k Hk). left. }
    destruct (Hout k Hk) as [Hdk Hrk].
    destruct (BF_dest_step dv rt s k old) as (dv' & rt' & s' & -> & Hwd' & Hwr' & Hres & Hoth & Hs'); try done.
    { rewrite Hdk. apply map_elem_find; [done|]. rewrite Hl. apply elem_of_app. right. left. }
    eexists; split; [done|]. assert (forall x v, (x, v) ∈ l1 -> x <> k) as Hne.
    { intros x v Hx ->. apply Hk. by eapply map_elem_keys. }
    split_and!; [done|done| | |].
    + intros x v [Hx|[= -> ->]%list_elem_of_singleton]%elem_of_app; [|done].
      destruct (Hoth x (Hne x v Hx)) as [-> ->]. by apply Hin.
    + intros x Hx. unfold map_keys in Hx. rewrite fmap_app, not_elem_of_app in Hx.
      destruct Hx as [Hx Hxk]. destruct (Hoth x) as [-> ->]; [|by apply Hout].
      intros ->. apply Hxk. left.
    + rewrite Hs', Hs. split.
      * intros [(x & v & Hx & Hv)|Hv].
        -- exists x, v. split; [apply elem_of_app; by left|]. by destruct (Hoth x (Hne x v Hx)) as [-> _].
        -- exists k, old. split; [apply elem_of_app; right; left|done].
      * intros (x & v & [Hx|[= -> ->]%list_elem_of_singleton]%elem_of_app & Hv); [left|by right].
        exists x, v. split; [done|]. by destruct (Hoth x (Hne x v Hx)) as [<- _].
Qed.

(** ** New destinations *)

Lemma add_unknown_find (ndv dv : stdmap string Z) x :
  map_find x (add_unknown ndv dv) =
    match map_find x dv with
    | Some v => Some v
    | None => if decide (x ∈ map_keys ndv) then Some M_INF else None
    end.
Proof.
  unfold add_unknown. revert dv; induction ndv as [|[y v] ndv IH]; intros dv; cbn [foldl fst].
  - destruct (map_find x dv); [done|]. rewrite decide_False; [done|apply not_elem_of_nil].
  - rewrite IH. destruct (decide (x = y)) as [->|Hne].
    + destruct (map_find y dv) eqn:E; [by rewrite E|]. rewrite map_find_set_eq, decide_True; [done|left].
    + assert (map_find x (match map_find y dv with Some _ => dv | None => map_set y M_INF dv end) = map_find x dv) as ->.
      { destruct (map_find y dv); [done|]. by rewrite map_find_set_ne by congruence. }
      destruct (map_find x dv); [done|]. destruct (decide (x ∈ map_keys ndv)).
      * rewrite decide_True; [done|by right].
      * rewrite decide_False; [done|]. intros [Hx|?]%elem_of_cons; [cbn in Hx; congruence|done].
Qed.

Lemma add_unknown_wf (ndv dv : stdmap string Z) : map_wf dv -> map_wf (add_unknown ndv dv).
Proof.
  unfold add_unknown. revert dv; induction ndv as [|p ndv IH]; intros dv Hd; cbn [foldl]; [done|].
  apply IH. destruct (map_find p.1 dv); [done|by apply map_wf_set].
Qed.

(** The whole computation of the tables. *)
Lemma BF_tables_spec ndv : costs_ok -> map_wf (m_dv st) ->
  exists dv rt sendDV, BF_tables st ndv = Ok (dv, rt, sendDV) /\ map_wf dv /\ map_wf rt /\
    (forall k, match map_find k (add_unknown ndv (m_dv st)) with
       | Some old => dest_result k old (map_find k dv) (map_find k rt)
       | None => map_find k dv = None /\ map_find k rt = None
       end) /\
    (sendDV = true <-> dv <> add_unknown ndv (m_dv st)).
Proof.
  intros Hc Hwf. set (dv0 := add_unknown ndv (m_dv st)).
  assert (map_wf dv0) as Hwf0 by by apply add_unknown_wf.
  destruct (BF_loop dv0 Hc Hwf0) as ([[dv rt] s] & Heq & Hwd & Hwr & Hin & Hout & Hs).
  exists dv, rt, s. split_and!; [exact Heq|done|done| |].
  - intros k. destruct (map_find k dv0) as [old|] eqn:E.
    + apply Hin. by apply map_find_elem.
    + apply map_find_None in E as Hk. destruct (Hout k Hk) as [-> ->]. done.
  - rewrite Hs. split.
    + intros (k & old & Hk & Hne) ->. apply Hne. by apply map_elem_find.
    + intros Hne. destruct (decide (Exists (fun p => map_find p.1 dv <> Some p.2) dv0)) as [He|He].
      * apply Exists_exists in He as ([k old] & ? & ?). eauto.
      * destruct Hne. apply map_ext; [done..|]. intros k. destruct (map_find k dv0) as [old|] eqn:E.
        -- apply map_find_elem in E. destruct (decide (map_find k dv = Some old)); [done|].
           destruct He. apply Exists_exists. by exists (k, old).
        -- apply map_find_None in E as Hk. destruct (Hout k Hk) as [-> _]. done.
Qed.
End bellman_ford.
