(* ===== verification/DVProtocol.v ===== *)
(** * DVProtocol: the handlers of the distance-vector protocol

    BellmanFord, SendDVTableMessage, SendPacket, AuditHellos and the message
    handlers of dv-routing-protocol.cc. *)

From S2P Require Import Prelude StdMap StdString Ipv4Address Codec DVMessage Node DVRouting DVBellmanFord.

(** ** Sending *)

Definition broadcast_ok {SR} (st : DVState SR) : Prop :=
  Forall (fun p => m_mask p.2 <> Mask_GetOnes) (m_socketAddresses st).

#[export] Instance broadcast_ok_dec {SR} (st : DVState SR) : Decision (broadcast_ok st).
Proof. unfold broadcast_ok. apply _. Defined.

Definition broadcast {SR} (st : DVState SR) (m : DVMessage) : list (action DVMessage) :=
  map (fun p => SendTo p.1 (Z.lor (m_local p.2) (GetInverse (m_mask p.2))) (m_dvPort st) m)
    (m_socketAddresses st).

Lemma dv_BroadcastPacket_ok {SR} (st : DVState SR) m :
  broadcast_ok st -> BroadcastPacket m st = Ok (tt, st, broadcast st m).
Proof.
  intros Hb. unfold BroadcastPacket. unfold mbind, handler_bind, get.
  rewrite (for_loop_emits _ _ (fun p => SendTo p.1 (Z.lor (m_local p.2) (GetInverse (m_mask p.2))) (m_dvPort st) m)).
  - done.
  - eapply Forall_impl; [exact Hb|]. intros p Hm. cbn beta in Hm.
    unfold GetSubnetDirectedBroadcast, Mask_IsEqual, mbind, handler_bind, lift.
    destruct (Z.eqb_spec Mask_GetOnes (m_mask p.2)); [congruence|done].
Qed.

(** The datagram through the first socket of an interface, if there is one. *)
Fixpoint unicast_on (port : Z) (m : DVMessage) (ifc : Ipv4Address)
    (sockets : stdmap SocketPtr Ipv4InterfaceAddress) : list (action DVMessage) :=
  match sockets with
  | [] => []
  | p :: sockets' =>
      if ifc =? m_local p.2 then [SendTo p.1 (Z.lor (m_local p.2) (GetInverse (m_mask p.2))) port m]
      else unicast_on port m ifc sockets'
  end.

Definition unicast {SR} (st : DVState SR) (m : DVMessage) (ifc : Ipv4Address) : list (action DVMessage) :=
  unicast_on (m_dvPort st) m ifc (m_socketAddresses st).

Lemma SendPacket_ok {SR} (st : DVState SR) m ifc :
  broadcast_ok st -> SendPacket m ifc st = Ok (tt, st, unicast st m ifc).
Proof.
  intros Hb. unfold SendPacket, unicast. unfold mbind at 1, handler_bind at 1, get. cbn [app].
  unfold broadcast_ok in Hb. induction Hb as [|p l Hm _ IH]; [done|].
  cbn [SendPacket_loop unicast_on]. unfold mbind, handler_bind, lift.
  unfold GetSubnetDirectedBroadcast, Mask_IsEqual.
  destruct (Z.eqb_spec Mask_GetOnes (m_mask p.2)); [congruence|]. cbn [mbind result_bind].
  destruct (ifc =? m_local p.2); [done|]. destruct (SendPacket_loop _ _ _ _ _) as [[[[] s] o]|f]; [|done].
  injection IH as -> ->. done.
Qed.

Lemma foldM_appends {A B} (f : list B -> A -> result (list B)) (g : A -> B) acc l :
  (forall acc x, f acc x = Ok (acc ++ [g x])) -> foldM f acc l = Ok (acc ++ map g l).
Proof.
  intros Hf. revert acc; induction l as [|x l IH]; intros acc; cbn [foldM map]; [by rewrite app_nil_r|].
  rewrite Hf. unfold mbind, result_bind. rewrite IH. by rewrite <- app_assoc.
Qed.

(** The vector advertised to a neighbour with table entry [nte]. *)
Definition advert {SR} (st : DVState SR) (nte : NeighborTableEntry) : list (Ipv4Address * Z) :=
  map (fun j =>
    let destAddr := resolve_name st j.1 in
    (destAddr,
     if (destAddr =? nt_neighborAddr nte) &&
        match map_find j.1 (m_routingTable st) with Some rte => rt_nextHopAddr rte =? destAddr | None => false end
     then M_INF else j.2)) (m_dv st).

Lemma advertised_eq {SR} (st : DVState SR) n nte :
  map_find n (m_neighborTable st) = Some nte -> advertised st n = Ok (advert st nte).
Proof.
  intros Hn. unfold advertised. rewrite (foldM_appends _ (fun j => (resolve_name st j.1,
     if (resolve_name st j.1 =? nt_neighborAddr nte) &&
        match map_find j.1 (m_routingTable st) with
        | Some rte => rt_nextHopAddr rte =? resolve_name st j.1 | None => false end
     then M_INF else j.2))); [done|]. intros acc j. by rewrite Hn.
Qed.

Definition vector_message {SR} (st : DVState SR) (newdv : list (Ipv4Address * Z)) : DVMessage :=
  mkDVMessage DV_TABLE_MSG (m_currentSequenceNumber st) (m_mainAddress st) 1
    (mkPayload (pingReq no_payload) (pingRsp no_payload) (helloReq no_payload) (mkDVTableMsg newdv)).

Definition next_seq {SR} (st : DVState SR) : DVState SR :=
  set_currentSequenceNumber (u32 (m_currentSequenceNumber st + 1)) st.

(** Everything [SendDVTableMessage] sends, neighbour by neighbour. *)
Definition adverts {SR} (st : DVState SR) : list (action DVMessage) :=
  concat (map (fun i => match map_find i.1 (m_neighborTable st) with
    | Some nte => unicast st (vector_message st (advert st nte)) (nt_interfaceAddr nte)
    | None => []
    end) (m_costs st)).

Lemma SendDVTableMessage_ok {SR} (st : DVState SR) :
  broadcast_ok st -> costs_ok st -> SendDVTableMessage st = Ok (tt, next_seq st, adverts st).
Proof.
  intros Hb Hc. unfold SendDVTableMessage. unfold mbind at 1, handler_bind at 1.
  change (GetNextSequenceNumber st) with (Ok (m_currentSequenceNumber st, next_seq st, @nil (action DVMessage))).
  unfold mbind at 1, handler_bind at 1, get. cbn [app].
  change (m_costs (next_seq st)) with (m_costs st).
  match goal with |- context [for_loop (m_costs st) ?f _] => rewrite (for_loop_outputs _ f
    (fun i => match map_find i.1 (m_neighborTable st) with
      | Some nte => unicast st (vector_message st (advert st nte)) (nt_interfaceAddr nte)
      | None => []
      end)) end; [done|].
  apply Forall_forall. intros [n c] Hin. destruct (Hc n c Hin) as [[nte Hn] _]. cbn [fst].
  unfold mbind, handler_bind, lift. rewrite (advertised_eq (next_seq st) n nte) by done. cbn [mbind result_bind].
  change (m_neighborTable (next_seq st)) with (m_neighborTable st). rewrite Hn. cbn.
  change (advert (next_seq st) nte) with (advert st nte).
  rewrite SendPacket_ok by done. done.
Qed.

(** ** The handler [BellmanFord] *)

(** What [m_dv] is compared with: its entries, and [M_INF] for the names of
    [ndv] it did not have. *)
Definition dv_before {SR} (st : DVState SR) (ndv : stdmap string Z) : stdmap string Z :=
  add_unknown ndv (m_dv st).

Lemma costs_ok_same {SR} (st st' : DVState SR) :
  m_costs st' = m_costs st -> m_neighborTable st' = m_neighborTable st ->
  m_addressNodeMap st' = m_addressNodeMap st -> m_nodeAddressMap st' = m_nodeAddressMap st ->
  costs_ok st -> costs_ok st'.
Proof.
  intros E1 E2 E3 E4 H n c. rewrite E1, E2. intros Hin. destruct (H n c Hin) as [? Hn]. split; [done|].
  rewrite <- Hn at 2. unfold ReverseLookup, resolve_name, ResolveNodeIpAddress. by rewrite E3, E4.
Qed.

(** (C12) What [BellmanFord] does.  The neighbours' vectors, read through
    [m_costs], give every destination in [m_dv] or in the received vector its
    least cost [b] and a neighbour [n] that offers it.  If [b < 16] the routing
    table gets the route over [n], otherwise it has none.  The vector entry of
    the destination becomes [b] when [b <= 16]; when every offer is larger, or
    there is none, it keeps its old value.  Nothing is left of the previous
    routing table, and the vector is advertised exactly when it changed. *)
Theorem bellman_ford_spec {SR} (st : DVState SR) ndv
  (Hc : costs_ok st) (Hwf : map_wf (m_dv st)) (Hb : broadcast_ok st) :
  exists dv rt st' out,
    BellmanFord ndv st = Ok (tt, st', out) /\ map_wf dv /\ map_wf rt /\
    (forall k, match map_find k (dv_before st ndv) with
       | Some old => dest_result st k old (map_find k dv) (map_find k rt)
       | None => map_find k dv = None /\ map_find k rt = None
       end) /\
    let computed := set_routingTable rt (set_dv dv st) in
    if decide (dv = dv_before st ndv) then st' = computed /\ out = []
    else st' = next_seq computed /\ out = adverts computed.
Proof.
  destruct (BF_tables_spec st ndv Hc Hwf) as (dv & rt & s & Heq & Hwd & Hwr & Hk & Hs).
  unfold BellmanFord. unfold mbind, handler_bind, get, lift, modify. rewrite Heq. cbn [mbind result_bind].
  assert (costs_ok (set_routingTable rt (set_dv dv st))) as Hc' by by apply (costs_ok_same st).
  unfold dv_before. destruct s.
  - rewrite SendDVTableMessage_ok by done. eexists dv, rt, _, _. split; [done|].
    split_and!; [done..|]. cbn zeta. rewrite decide_False by by apply Hs. done.
  - eexists dv, rt, _, _. split; [done|]. split_and!; [done..|]. cbn zeta.
    rewrite decide_True; [done|]. destruct (decide (dv = add_unknown ndv (m_dv st))); [done|].
    by apply Hs in n.
Qed.

(** Node 1, one hop from nodes 2 and 3; node 3 reaches node 4 in two hops. *)
Definition dv_state (main : Ipv4Address) (dv costs : stdmap string Z)
    (nt : stdmap string NeighborTableEntry) : DVState unit := {|
  m_socketAddresses := [(100, MakeInterfaceAddress main 0xffffff00)]; m_mainAddress := main;
  m_staticRouting := Some tt; m_ipv4 := None;
  m_pingTimeout := MilliSeconds 2000; m_helloTimeout := MilliSeconds 6000;
  m_maxTTL := 16; m_dvPort := 6000; m_currentSequenceNumber := 40;
  m_nodeAddressMap := [(1, 0x0a000101); (2, 0x0a000102); (3, 0x0a000103); (4, 0x0a000104)];
  m_addressNodeMap := [(0x0a000101, 1); (0x0a000102, 2); (0x0a000103, 3); (0x0a000104, 4)];
  m_auditPingsTimer := None; m_auditHellosTimer := None;
  m_pingTracker := []; m_dv := dv; m_costs := costs; m_neighborTable := nt; m_routingTable := [] |}.

Definition star_state : DVState unit :=
  dv_state 0x0a000101 [("1", 0); ("2", 1); ("3", 1)]%string [("2", 1); ("3", 1)]%string
    [("2"%string, mkNT 0x0a000102 0x0a000101 0 [("1", 1); ("2", 0); ("3", 2); ("4", 9)]%string);
     ("3"%string, mkNT 0x0a000103 0x0a000101 0 [("1", 1); ("2", 2); ("3", 0); ("4", 2)]%string)].

(** [costs_ok], as a test. *)
Definition costs_ok_b {SR} (st : DVState SR) : bool :=
  forallb (fun p => match map_find p.1 (m_neighborTable st) with Some _ => true | None => false end &&
    String.eqb (ReverseLookup st (resolve_name st p.1)) p.1) (m_costs st).

Lemma costs_ok_b_spec {SR} (st : DVState SR) : costs_ok_b st = true -> costs_ok st.
Proof.
  unfold costs_ok_b. rewrite forallb_forall. intros H n c Hin.
  specialize (H (n, c)). cbn [fst] in H. apply list_elem_of_In in Hin. apply H in Hin.
  apply andb_prop in Hin as [H1 H2%String.eqb_eq]. split; [|done]. by destruct (map_find n _).
Qed.

Lemma bellman_ford_spec_witness :
  let ndv := [("4"%string, 2)] in
  exists dv rt st' out, BellmanFord ndv star_state = Ok (tt, st', out) /\
    dest_result star_state "4" M_INF (map_find "4"%string dv) (map_find "4"%string rt) /\
    map_find "4"%string (m_routingTable st') = Some (mkRT 0x0a000104 0x0a000103 0x0a000103 0x0a000101 3) /\
    length out = 2%nat.
Proof.
  destruct (bellman_ford_spec star_state [("4"%string, 2)]) as (dv & rt & st' & out & H & _ & _ & Hk & _).
  - by apply costs_ok_b_spec.
  - by apply map_wf_b_spec.
  - by apply (bool_decide_unpack _).
  - exists dv, rt, st', out. split; [exact H|]. split; [exact (Hk "4"%string)|].
    vm_compute in H. injection H as <- <-. split; reflexivity.
Defined.

(** ** Advertisements *)

Lemma unicast_on_find port m ifc (sockets : stdmap SocketPtr Ipv4InterfaceAddress) :
  unicast_on port m ifc sockets =
    match List.find (fun p => ifc =? m_local p.2) sockets with
    | Some p => [SendTo p.1 (Z.lor (m_local p.2) (GetInverse (m_mask p.2))) port m]
    | None => []
    end.
Proof. induction sockets as [|p l IH]; [done|]. cbn. destruct (ifc =? m_local p.2); [done|exact IH]. Qed.

(** What node [st] tells the neighbour [nte] about its entry [x], at [d]. *)
Definition advertised_cost {SR} (st : DVState SR) (nte : NeighborTableEntry) (x : string) (d : Z) : Z :=
  if (resolve_name st x =? nt_neighborAddr nte) &&
     match map_find x (m_routingTable st) with Some rte => rt_nextHopAddr rte =? resolve_name st x | None => false end
  then M_INF else d.

(** Advertisements.  [SendDVTableMessage] takes one sequence number and
    sends, for every neighbour in [m_costs], one datagram through the first
    socket on that neighbour's interface (none if there is no such socket) to
    the broadcast address of its subnet.  It lists the whole vector in order.
    The only cost that is poisoned is the one to the neighbour itself, when
    the route to it goes straight to it; a cost whose route goes through the
    neighbour to somewhere else is told as it is. *)
Theorem dv_advertisement {SR} (st : DVState SR) (Hc : costs_ok st) (Hb : broadcast_ok st) :
  exists out, SendDVTableMessage st = Ok (tt, next_seq st, out) /\
  (forall a, a ∈ out <-> exists n c nte p, (n, c) ∈ m_costs st /\
     map_find n (m_neighborTable st) = Some nte /\
     List.find (fun p => nt_interfaceAddr nte =? m_local p.2) (m_socketAddresses st) = Some p /\
     a = SendTo p.1 (Z.lor (m_local p.2) (GetInverse (m_mask p.2))) (m_dvPort st)
           (vector_message st (advert st nte))) /\
  (forall nte, length (advert st nte) = length (m_dv st) /\
     forall i x d, m_dv st !! i = Some (x, d) ->
       advert st nte !! i = Some (resolve_name st x, advertised_cost st nte x d) /\
       (resolve_name st x <> nt_neighborAddr nte -> advert st nte !! i = Some (resolve_name st x, d))).
Proof.
  exists (adverts st). split; [by apply SendDVTableMessage_ok|]. split.
  - intros a. unfold adverts. rewrite list_elem_of_In, in_concat. split.
    + intros (l & Hl & Ha). apply in_map_iff in Hl as ([n c] & Hl & Hin). cbn [fst] in Hl.
      destruct (map_find n (m_neighborTable st)) as [nte|] eqn:Hn; [|by subst l].
      subst l. unfold unicast in Ha. rewrite unicast_on_find in Ha.
      destruct (List.find _ _) as [p|] eqn:Hp; [|done]. destruct Ha as [<-|[]].
      exists n, c, nte, p. split; [by apply list_elem_of_In|done].
    + intros (n & c & nte & p & Hin & Hn & Hp & ->). apply list_elem_of_In in Hin.
      eexists; split; [apply in_map_iff; exists (n, c); split; [done|exact Hin]|].
      cbn [fst]. rewrite Hn. unfold unicast. rewrite unicast_on_find, Hp. by left.
  - intros nte. split; [apply length_map|]. intros i x d Hi. unfold advert.
    rewrite list_lookup_fmap, Hi. split; [done|]. intros Hne. cbn.
    by replace (_ =? nt_neighborAddr nte) with false by (symmetry; by apply Z.eqb_neq).
Qed.

(** Node 3 is reached through node 2 at cost 2: node 2 is told so. *)
Definition line_state : DVState unit :=
  set_routingTable [("2"%string, mkRT 0x0a000102 0x0a000102 0x0a000102 0x0a000101 1);
      ("3"%string, mkRT 0x0a000103 0x0a000102 0x0a000102 0x0a000101 2)]
    (dv_state 0x0a000101 [("1", 0); ("2", 1); ("3", 2)]%string [("2"%string, 1)]
      [("2"%string, mkNT 0x0a000102 0x0a000101 0 [("1", 1); ("2", 0); ("3", 1)]%string)]).

Lemma dv_advertisement_witness : exists out a,
  SendDVTableMessage line_state = Ok (tt, next_seq line_state, out) /\ a ∈ out /\
  a = SendTo 100 0x0a0001ff 6000
    (vector_message line_state [(0x0a000101, 0); (0x0a000102, M_INF); (0x0a000103, 2)]).
Proof.
  destruct (dv_advertisement line_state) as (out & H & Hout & _).
  - by apply costs_ok_b_spec.
  - by apply (bool_decide_unpack _).
  - exists out. eexists. split; [exact H|]. split; [|reflexivity]. apply Hout.
    do 4 eexists. split; [left|]. split; [reflexivity|]. split; [reflexivity|reflexivity].
Defined.

(** ** The vector as the neighbour stores it *)

Lemma map_set_loop_find {A} (f : A -> string * Z) (l : list A) (m : stdmap string Z) k :
  NoDup (map (fun x => (f x).1) l) ->
  map_find k (foldl (fun m x => map_set (f x).1 (f x).2 m) m l) =
    match List.find (fun x => String.eqb (f x).1 k) l with
    | Some x => Some (f x).2
    | None => map_find k m
    end.
Proof.
  revert m; induction l as [|x l IH]; intros m; cbn [map foldl List.find]; [done|].
  intros [Hx Hnd]%NoDup_cons. rewrite IH by done. destruct (String.eqb_spec (f x).1 k) as [<-|Hne].
  - destruct (List.find _ l) as [y|] eqn:Hy; [|by rewrite map_find_set_eq].
    destruct Hx. apply List.find_some in Hy as [Hin Hy%String.eqb_eq]. rewrite <- Hy.
    rewrite list_elem_of_In. apply (in_map (fun x => (f x).1)) in Hin. done.
  - destruct (List.find _ l); [done|]. by rewrite map_find_set_ne.
Qed.

Lemma received_advert {SRa SRb} (a : DVState SRa) (b : DVState SRb) nte k :
  map_wf (m_dv a) -> (forall x, x ∈ map_keys (m_dv a) -> ReverseLookup b (resolve_name a x) = x) ->
  map_find k (received_dv b (advert a nte)) = advertised_cost a nte k <$> map_find k (m_dv a).
Proof.
  intros Hwf Hn. unfold received_dv, advert.
  assert (forall l m, (forall x v, (x, v) ∈ l -> ReverseLookup b (resolve_name a x) = x) ->
    foldl (fun newdv p => map_set (ReverseLookup b p.1) p.2 newdv) m
      (map (fun j => (resolve_name a j.1, advertised_cost a nte j.1 j.2)) l) =
    foldl (fun m j => map_set j.1 (advertised_cost a nte j.1 j.2) m) m l) as Hl.
  { induction l as [|[x v] l IH]; intros m Hx; [done|]. cbn [map foldl fst snd].
    rewrite (Hx x v) by left. apply IH. intros y w Hy. apply (Hx y w). by right. }
  etransitivity; [apply f_equal, (Hl (m_dv a) [])|].
  { intros x v Hx. apply Hn. by eapply map_elem_keys. }
  rewrite (map_set_loop_find (fun j => (j.1, advertised_cost a nte j.1 j.2))).
  2: { apply map_wf_NoDup in Hwf. exact Hwf. }
  cbn [fst snd]. destruct (List.find _ _) as [[x v]|] eqn:Hf.
  - apply List.find_some in Hf as [Hin Hx%String.eqb_eq]. cbn in *. subst x.
    rewrite (map_elem_find k v) by (done || by apply list_elem_of_In). done.
  - destruct (map_find k (m_dv a)) as [v|] eqn:Hk; [|done]. apply map_find_elem, list_elem_of_In in Hk.
    eapply List.find_none in Hf; [|exact Hk]. cbn in Hf. by rewrite String.eqb_refl in Hf.
Qed.

(** [BellmanFord] and [SendDVTableMessage] leave these alone. *)
Definition same_node {SR} (st st' : DVState SR) : Prop :=
  m_socketAddresses st' = m_socketAddresses st /\ m_mainAddress st' = m_mainAddress st /\
  m_nodeAddressMap st' = m_nodeAddressMap st /\ m_addressNodeMap st' = m_addressNodeMap st /\
  m_costs st' = m_costs st.

(** The tables [BellmanFord] leaves, as in [bellman_ford_spec]. *)
Definition computed {SR} (st : DVState SR) (ndv dv : stdmap string Z) (rt : stdmap string RoutingTableEntry) : Prop :=
  forall k, match map_find k (dv_before st ndv) with
    | Some old => dest_result st k old (map_find k dv) (map_find k rt)
    | None => map_find k dv = None /\ map_find k rt = None
    end.

Lemma BellmanFord_run {SR} (st : DVState SR) ndv :
  costs_ok st -> map_wf (m_dv st) -> broadcast_ok st -> exists st' out,
  BellmanFord ndv st = Ok (tt, st', out) /\ map_wf (m_dv st') /\ map_wf (m_routingTable st') /\
  computed st ndv (m_dv st') (m_routingTable st') /\ same_node st st' /\
  m_neighborTable st' = m_neighborTable st.
Proof.
  intros Hc Hwf Hb. destruct (BF_tables_spec st ndv Hc Hwf) as (dv & rt & s & Heq & Hwd & Hwr & Hk & _).
  unfold BellmanFord. unfold mbind, handler_bind, get, lift, modify. rewrite Heq. cbn [mbind result_bind].
  destruct s; [rewrite SendDVTableMessage_ok; [|done|by apply (costs_ok_same st)]|];
    (eexists _, _; split; [done|]; by split_and!).
Qed.

(** Node [b] handles the table message of node [a]. *)
Lemma exchange_run {SRa SRb} (a : DVState SRa) (b : DVState SRb) nte now socket :
  map_wf (m_dv a) ->
  (forall x, x ∈ map_keys (m_dv a) -> ReverseLookup b (resolve_name a x) = x) ->
  costs_ok b -> map_wf (m_dv b) -> broadcast_ok b ->
  let fromNode := ReverseLookup b (m_mainAddress a) in
  let newdv := received_dv b (advert a nte) in
  exists nt b' out e,
    RecvDVMessage now socket (vector_message a (advert a nte)) b = Ok (tt, b', out) /\
    map_find fromNode nt = Some e /\ nt_dv e = newdv /\
    (forall k, map_find k newdv = advertised_cost a nte k <$> map_find k (m_dv a)) /\
    match map_find fromNode (m_neighborTable b) with
    | Some e0 => nt_lastUpdated e = nt_lastUpdated e0 /\ nt_neighborAddr e = nt_neighborAddr e0
    | None => nt_lastUpdated e = now /\ nt_neighborAddr e = m_mainAddress a
    end /\
    (forall k, k <> fromNode -> map_find k nt = map_find k (m_neighborTable b)) /\
    m_neighborTable b' = nt /\ map_wf (m_dv b') /\
    computed (set_neighborTable nt b) newdv (m_dv b') (m_routingTable b') /\ same_node b b'.
Proof.
  intros Ha Hnames Hc Hwf Hb. cbn zeta. set (fromNode := ReverseLookup b (m_mainAddress a)).
  set (newdv := received_dv b (advert a nte)).
  assert (forall nt : stdmap string NeighborTableEntry,
    (forall k, is_Some (map_find k (m_neighborTable b)) -> is_Some (map_find k nt)) ->
    exists b' out, BellmanFord newdv (set_neighborTable nt b) = Ok (tt, b', out) /\
      m_neighborTable b' = nt /\ map_wf (m_dv b') /\
      computed (set_neighborTable nt b) newdv (m_dv b') (m_routingTable b') /\ same_node b b') as Hrun.
  { intros nt Hnt. destruct (BellmanFord_run (set_neighborTable nt b) newdv) as (b' & out & H & H1 & _ & H3 & H4 & H5);
      [|done..|by exists b', out].
    intros n c Hin. destruct (Hc n c Hin) as [? ?]. by split; [apply Hnt|]. }
  assert (forall k, map_find k newdv = advertised_cost a nte k <$> map_find k (m_dv a)) as Hdv
    by (intros k; by apply received_advert).
  assert (RecvDVMessage now socket (vector_message a (advert a nte)) b =
    (_ ← match map_find fromNode (m_neighborTable b) with
      | None => modify (set_neighborTable (map_set fromNode (mkNT (m_mainAddress a)
          (match map_find socket (m_socketAddresses b) with Some i => m_local i | None => Ipv4Address_default end)
          now newdv) (m_neighborTable b)))
      | Some _ => modify (set_neighborTable (map_update fromNode
          (fun e => mkNT (nt_neighborAddr e) (nt_interfaceAddr e) (nt_lastUpdated e) newdv) (m_neighborTable b)))
      end; BellmanFord newdv) b) as ->.
  { unfold RecvDVMessage. change (GetMessageType (vector_message a (advert a nte))) with DV_TABLE_MSG. cbn.
    unfold ProcessDVTableMessage. unfold mbind at 1, handler_bind at 1, get. cbn [app].
    change (GetOriginatorAddress (vector_message a (advert a nte))) with (m_mainAddress a).
    change (neighborCosts (GetDVTableMsg (vector_message a (advert a nte)))) with (advert a nte). cbn zeta.
    fold fromNode newdv.
    match goal with |- match ?X with _ => _ end = _ => by destruct X as [[[[] s] o]|] end. }
  unfold mbind, handler_bind.
  destruct (map_find fromNode (m_neighborTable b)) as [e0|] eqn:E0; unfold modify.
  - set (nt := map_update fromNode _ _). destruct (Hrun nt) as (b' & out & -> & Hrest).
    { intros k Hk. unfold nt. rewrite map_find_update. case_decide; [subst k; by rewrite E0|done]. }
    eexists nt, b', out, _. split; [done|]. unfold nt at 1. rewrite map_find_update, decide_True, E0 by done.
    split; [done|]. split; [done|]. split; [exact Hdv|]. split; [done|]. split; [|exact Hrest].
    intros k Hk. unfold nt. by rewrite map_find_update, decide_False.
  - set (nt := map_set fromNode _ _). destruct (Hrun nt) as (b' & out & -> & Hrest).
    { intros k Hk. unfold nt. rewrite map_find_set. case_decide; done. }
    eexists nt, b', out, _. split; [done|]. unfold nt at 1. rewrite map_find_set_eq. split; [done|]. split; [done|].
    split; [exact Hdv|]. split; [done|]. split; [|exact Hrest]. intros k Hk. unfold nt. by rewrite map_find_set_ne.
Qed.

(** The exchange of vectors.  When node [b] handles the table message
    node [a] sends it, it stores under [a]'s name exactly [a]'s vector, with
    the one poisoned cost, whatever it had stored before; the time of the last
    hello is untouched for a neighbour it knows. *)
Theorem dv_vector_exchange {SRa SRb} (a : DVState SRa) (b : DVState SRb) nte now socket
  (Ha : map_wf (m_dv a))
  (Hnames : forall x, x ∈ map_keys (m_dv a) -> ReverseLookup b (resolve_name a x) = x)
  (Hc : costs_ok b) (Hwf : map_wf (m_dv b)) (Hb : broadcast_ok b) :
  let fromNode := ReverseLookup b (m_mainAddress a) in
  exists b' out e,
    RecvDVMessage now socket (vector_message a (advert a nte)) b = Ok (tt, b', out) /\
    map_find fromNode (m_neighborTable b') = Some e /\
    (forall k, map_find k (nt_dv e) = advertised_cost a nte k <$> map_find k (m_dv a)) /\
    match map_find fromNode (m_neighborTable b) with
    | Some e0 => nt_lastUpdated e = nt_lastUpdated e0 /\ nt_neighborAddr e = nt_neighborAddr e0
    | None => nt_lastUpdated e = now /\ nt_neighborAddr e = m_mainAddress a
    end /\
    (forall k, k <> fromNode -> map_find k (m_neighborTable b') = map_find k (m_neighborTable b)).
Proof.
  cbn zeta. destruct (exchange_run a b nte now socket Ha Hnames Hc Hwf Hb)
    as (nt & b' & out & e & H & He & Hdv & Hrec & Hold & Hoth & Hnt & _).
  exists b', out, e. rewrite Hnt, Hdv. by split_and!.
Qed.

(** Node 2 receives the vector of [line_state]. *)
Definition line_neighbor : DVState unit :=
  dv_state 0x0a000102 [("1", 1); ("2", 0); ("3", 1)]%string [("1", 1); ("3", 1)]%string
    [("1"%string, mkNT 0x0a000101 0x0a000102 0 []); ("3"%string, mkNT 0x0a000103 0x0a000102 0 [])].

Lemma dv_vector_exchange_witness :
  exists b' out e,
    RecvDVMessage 5 100 (vector_message line_state (advert line_state (mkNT 0x0a000102 0x0a000101 0 [])))
      line_neighbor = Ok (tt, b', out) /\
    map_find "1"%string (m_neighborTable b') = Some e /\
    map_find "2"%string (nt_dv e) = Some M_INF /\ map_find "3"%string (nt_dv e) = Some 2.
Proof.
  destruct (dv_vector_exchange line_state line_neighbor (mkNT 0x0a000102 0x0a000101 0 []) 5 100)
    as (b' & out & e & H & He & Hdv & _).
  - by apply map_wf_b_spec.
  - apply Forall_forall. by apply (bool_decide_unpack _).
  - by apply costs_ok_b_spec.
  - by apply map_wf_b_spec.
  - by apply (bool_decide_unpack _).
  - exists b', out, e. split; [exact H|]. split; [exact He|]. rewrite !Hdv. split; reflexivity.
Defined.

(** ** Runs that go wrong *)

Definition dv_ms (n : Z) : Time := MilliSeconds n.

Definition dv_hello_from (a : Ipv4Address) (seq : Z) : DVMessage :=
  mkDVMessage HELLO_REQ seq a 1 (mkPayload (pingReq no_payload) (pingRsp no_payload)
    (mkHelloReq 0x0a000101 "hello" 0) (dvTableMsg no_payload)).
Definition dv_table_from (a : Ipv4Address) (seq : Z) (l : list (Ipv4Address * Z)) : DVMessage :=
  mkDVMessage DV_TABLE_MSG seq a 1 (mkPayload (pingReq no_payload) (pingRsp no_payload)
    (helloReq no_payload) (mkDVTableMsg l)).

Definition fresh_node : DVState unit := dv_state 0x0a000101 [("1"%string, 0)] [] [].

(** Bad news does not travel.  Node 1 learns from node 2 a two-hop
    way to node 3; node 2 then advertises that it has lost node 3.  Node 1
    drops its route, but its vector keeps the old cost 2 and it advertises
    nothing, so its neighbours go on believing in the lost path. *)
Theorem withdrawal_not_advertised :
  match (_ ← RecvDVMessage (dv_ms 6000) 100 (dv_hello_from 0x0a000102 5);
         RecvDVMessage (dv_ms 6001) 100 (dv_table_from 0x0a000102 6 [(0x0a000102, 0); (0x0a000103, 1)]))
        fresh_node with
  | Ok (_, st, _) =>
      map_find "3"%string (m_routingTable st) = Some (mkRT 0x0a000103 0x0a000102 0x0a000102 0x0a000101 2) /\
      match RecvDVMessage (dv_ms 6002) 100 (dv_table_from 0x0a000102 7 [(0x0a000102, 0); (0x0a000103, M_INF)]) st with
      | Ok (_, st', out) =>
          map_find "3"%string (m_routingTable st') = None /\ map_find "3"%string (m_dv st') = Some 2 /\ out = []
      | Fault _ => False
      end
  | Fault _ => False
  end.
Proof. vm_compute. repeat split. Qed.

(** A table message that arrives before the first hello of its sender
    enters the sender in the neighbour table but not in [m_costs], and later
    hellos, of a neighbour now known, do not add it.  No route goes over that
    neighbour, and when it falls silent the hello audit erases
    [m_costs.find (...)], which is [end ()]: undefined behaviour. *)
Theorem table_before_hello :
  match (_ ← RecvDVMessage (dv_ms 1000) 100 (dv_table_from 0x0a000102 6 [(0x0a000102, 0); (0x0a000103, 1)]);
         RecvDVMessage (dv_ms 2000) 100 (dv_hello_from 0x0a000102 7)) fresh_node with
  | Ok (_, st, _) =>
      map_keys (m_neighborTable st) = ["2"%string] /\ m_costs st = [] /\ map_keys (m_routingTable st) = ["1"%string] /\
      AuditHellos (dv_ms 8000) st = Fault DerefEnd
  | Fault _ => False
  end.
Proof. vm_compute. repeat split. Qed.
