(* ===== verification/DVInvariant.v ===== *)
(** * DVInvariant: what holds in every state of a distance-vector node

    The events that reach a DVRoutingProtocol object, as a step relation, and
    the invariant that all of them keep: costs stay within 16 or are [M_INF],
    the tables are well-formed maps keyed by names of addresses, and every
    message the node sends can be represented on the wire. *)

From S2P Require Import Prelude StdMap StdString Ipv4Address Codec DVMessage Node Triple DVRouting DVBellmanFord DVProtocol.

(** ** Events *)

Inductive dv_event : Type :=
| DvRecv (socket : SocketPtr) (m : DVMessage)
| DvCommand (tokens : list string)
| DvPingTimer
| DvHelloTimer.

(** Messages come from the wire, and a PING text is short enough for it. *)
Definition event_valid (ev : dv_event) : Prop :=
  match ev with
  | DvRecv _ m => DVMessage_valid m
  | DvCommand tokens => Forall (fun t => is_u16 (str_length t)) tokens
  | _ => True
  end.

(** A cost the node may store in its own vector. *)
Definition vector_cost (v : Z) : Prop := 0 <= v <= 16 \/ v = M_INF.

Lemma vector_cost_u32 v : vector_cost v -> is_u32 v.
Proof. unfold vector_cost, is_u32, M_INF, INT_MAX. lia. Qed.

(** Every value of a map satisfies [P]. *)
Definition map_values {K V} `{EqDecision K} (P : V -> Prop) (m : stdmap K V) : Prop :=
  forall k v, map_find k m = Some v -> P v.

Section map_values.
Context {K V : Type} `{EqDecision K} `{StdLess K} (P : V -> Prop).
Implicit Types m : stdmap K V.

Lemma map_values_set k v m : P v -> map_values P m -> map_values P (map_set k v m).
Proof. intros Hv Hm k' v'. rewrite map_find_set. case_decide; [by intros [= <-]|apply Hm]. Qed.

Lemma map_values_insert k v m : P v -> map_values P m -> map_values P (map_insert k v m).
Proof.
  intros Hv Hm. unfold map_insert. destruct (map_find k m); [done|by apply map_values_set].
Qed.

Lemma map_values_update k f m :
  (forall v, map_find k m = Some v -> P (f v)) -> map_values P m -> map_values P (map_update k f m).
Proof.
  intros Hf Hm k' v'. rewrite map_find_update. case_decide as E; [subst k'|apply Hm].
  destruct (map_find k m) eqn:E; [|done]. intros [= <-]. by apply Hf.
Qed.

Lemma map_values_erase k m : map_values P m -> map_values P (map_erase k m).
Proof. intros Hm k' v'. rewrite map_find_erase. case_decide; [done|apply Hm]. Qed.

Lemma map_values_nil : map_values P ([] : stdmap K V).
Proof. intros k v. by rewrite map_find_nil. Qed.
End map_values.

(** Every key of a map satisfies [P]. *)
Definition keys_in {V} (P : string -> Prop) (m : stdmap string V) : Prop :=
  forall k, is_Some (map_find k m) -> P k.

Section keys_in.
Context {V : Type} (P : string -> Prop).
Implicit Types m : stdmap string V.

Lemma keys_in_set k v m : P k -> keys_in P m -> keys_in P (map_set k v m).
Proof. intros Hk Hm k'. rewrite map_find_set. case_decide; [by subst|apply Hm]. Qed.

Lemma keys_in_insert k v m : P k -> keys_in P m -> keys_in P (map_insert k v m).
Proof. intros Hk Hm. unfold map_insert. destruct (map_find k m); [done|by apply keys_in_set]. Qed.

Lemma keys_in_update k f m : keys_in P m -> keys_in P (map_update k f m).
Proof.
  intros Hm k'. rewrite map_find_update. case_decide as E; [subst k'|apply Hm].
  intros [v Hv]. apply Hm. destruct (map_find k m); [by eexists|done].
Qed.

Lemma keys_in_erase k m : keys_in P m -> keys_in P (map_erase k m).
Proof. intros Hm k'. rewrite map_find_erase. case_decide; [by intros []|apply Hm]. Qed.
End keys_in.

Section dv_steps.
Context {SR : Type}.

Definition run_event (now : Time) (ev : dv_event) : handler (DVState SR) (action DVMessage) unit :=
  match ev with
  | DvRecv socket m => RecvDVMessage now socket m
  | DvCommand tokens => ProcessCommand now tokens
  | DvPingTimer => AuditPings now
  | DvHelloTimer => AuditHellos now
  end.

(** [st] handles an event and becomes [st'], sending [out]. *)
Inductive dv_step (st : DVState SR) : DVState SR -> list (action DVMessage) -> Prop :=
| dv_step_event now ev st' out :
    event_valid ev -> run_event now ev st = Ok (tt, st', out) -> dv_step st st' out.

(** Runs, with everything sent on the way. *)
Inductive dv_run (st : DVState SR) : DVState SR -> list (action DVMessage) -> Prop :=
| dv_run_nil : dv_run st st []
| dv_run_snoc st' out st'' out' :
    dv_run st st' out -> dv_step st' st'' out' -> dv_run st st'' (out ++ out').

(** ** The invariant *)

(** Fixed by the configuration. *)
Record dv_config (st : DVState SR) : Prop := {
  cf_main : is_u32 (m_mainAddress st);
  cf_ttl : is_u8 (m_maxTTL st);
  cf_addr_wf : map_wf (m_addressNodeMap st);
  cf_addr_size : Z.of_nat (length (m_addressNodeMap st)) + 1 < 2 ^ 16;
  cf_node n a : map_find n (m_nodeAddressMap st) = Some a -> is_u32 a
}.

(** The node's name for some address. *)
Definition named (st : DVState SR) (k : string) : Prop := exists a, k = ReverseLookup st a.

Definition neighbor_ok (e : NeighborTableEntry) : Prop :=
  is_u32 (nt_neighborAddr e) /\ map_wf (nt_dv e) /\ map_values is_u32 (nt_dv e).

Record dv_inv (st : DVState SR) : Prop := {
  iv_config : dv_config st;
  iv_seq : is_u32 (m_currentSequenceNumber st);
  iv_pings : map_wf (m_pingTracker st);
  iv_dv : map_wf (m_dv st);
  iv_dv_cost : map_values vector_cost (m_dv st);
  iv_dv_name : keys_in (named st) (m_dv st);
  iv_costs : map_wf (m_costs st);
  iv_costs_one : map_values (eq 1) (m_costs st);
  iv_costs_nt : keys_in (fun k => is_Some (map_find k (m_neighborTable st))) (m_costs st);
  iv_nt : map_wf (m_neighborTable st);
  iv_nt_ok : map_values neighbor_ok (m_neighborTable st);
  iv_nt_name k e : map_find k (m_neighborTable st) = Some e -> k = ReverseLookup st (nt_neighborAddr e);
  iv_rt : map_wf (m_routingTable st);
  iv_rt_cost : map_values (fun e => 0 <= rt_cost e < 16) (m_routingTable st)
}.

Definition sends_valid (o : action DVMessage) : Prop :=
  match o with SendTo _ _ _ m => DVMessage_valid m | _ => True end.

Notation triple := (htriple sends_valid).

(** ** Names *)

Lemma dv_ReverseLookup_in (st : DVState SR) a :
  ReverseLookup st a ∈ "Unknown"%string :: map show_uint (m_addressNodeMap st).*2.
Proof.
  unfold ReverseLookup. destruct (map_find a (m_addressNodeMap st)) as [n|] eqn:E; [|left].
  right. apply map_find_elem in E. apply list_elem_of_fmap. exists n. split; [done|].
  apply list_elem_of_fmap. by exists (a, n).
Qed.

Lemma vector_bounded st : dv_inv st -> is_u16 (Z.of_nat (length (m_dv st))).
Proof.
  intros I. pose proof (cf_addr_size _ (iv_config _ I)) as Hs.
  assert (map_keys (m_dv st) ⊆+ "Unknown"%string :: map show_uint (m_addressNodeMap st).*2) as Hsub.
  { apply NoDup_submseteq; [apply map_wf_NoDup, I|]. intros k Hk.
    apply map_find_is_Some in Hk. apply (iv_dv_name _ I) in Hk as [a ->]. apply dv_ReverseLookup_in. }
  apply submseteq_length in Hsub. unfold map_keys in Hsub. cbn [length] in Hsub.
  rewrite length_map, !length_fmap in Hsub. unfold is_u16. lia.
Qed.

Lemma dv_resolve_u32 st n : dv_config st -> is_u32 (ResolveNodeIpAddress st n).
Proof.
  intros I. unfold ResolveNodeIpAddress. destruct (map_find n (m_nodeAddressMap st)) eqn:E; [|done].
  by apply (cf_node _ I) in E.
Qed.

(** ** The updates keep the invariant *)

Lemma dv_config_same (st st' : DVState SR) :
  dv_config st -> m_mainAddress st' = m_mainAddress st -> m_maxTTL st' = m_maxTTL st ->
  m_addressNodeMap st' = m_addressNodeMap st -> m_nodeAddressMap st' = m_nodeAddressMap st -> dv_config st'.
Proof. intros [] E1 E2 E3 E4. split; rewrite ?E1, ?E2, ?E3, ?E4; auto. Qed.

Lemma dv_inv_next_seq st : dv_inv st -> dv_inv (next_seq st).
Proof. intros []. split; try done; [by eapply dv_config_same|apply u32_range]. Qed.

Lemma dv_inv_pingTracker st m : map_wf m -> dv_inv st -> dv_inv (set_pingTracker m st).
Proof. intros Hm []. split; try done. by eapply dv_config_same. Qed.

Lemma dv_inv_pingsTimer st t : dv_inv st -> dv_inv (set_auditPingsTimer t st).
Proof. intros []. split; try done. by eapply dv_config_same. Qed.

Lemma dv_inv_hellosTimer st t : dv_inv st -> dv_inv (set_auditHellosTimer t st).
Proof. intros []. split; try done. by eapply dv_config_same. Qed.

Lemma inv_tables st dv rt : map_wf dv -> map_values vector_cost dv -> keys_in (named st) dv ->
  map_wf rt -> map_values (fun e => 0 <= rt_cost e < 16) rt ->
  dv_inv st -> dv_inv (set_routingTable rt (set_dv dv st)).
Proof. intros H1 H2 H3 H4 H5 []. split; try done. by eapply dv_config_same. Qed.

Lemma inv_dv st dv : map_wf dv -> map_values vector_cost dv -> keys_in (named st) dv ->
  dv_inv st -> dv_inv (set_dv dv st).
Proof. intros H1 H2 H3 []. split; try done. by eapply dv_config_same. Qed.

Lemma inv_costs st m : map_wf m -> map_values (eq 1) m ->
  keys_in (fun k => is_Some (map_find k (m_neighborTable st))) m ->
  dv_inv st -> dv_inv (set_costs m st).
Proof. intros H1 H2 H3 []. split; try done. by eapply dv_config_same. Qed.

Lemma dv_inv_neighborTable st m : map_wf m -> map_values neighbor_ok m ->
  (forall k e, map_find k m = Some e -> k = ReverseLookup st (nt_neighborAddr e)) ->
  keys_in (fun k => is_Some (map_find k m)) (m_costs st) ->
  dv_inv st -> dv_inv (set_neighborTable m st).
Proof. intros H1 H2 H3 H4 []. split; try done. by eapply dv_config_same. Qed.

(** ** Messages the node builds *)

Lemma advert_valid st nte : dv_inv st -> costs_valid (advert st nte).
Proof.
  intros I. unfold costs_valid, advert. rewrite length_map. split; [by apply vector_bounded|].
  apply Forall_map, Forall_forall. intros [k v] Hin. cbn. split; [apply dv_resolve_u32, I|].
  assert (vector_cost v) as Hv.
  { apply (map_elem_find k v) in Hin; [|apply I]. by apply (iv_dv_cost _ I) in Hin. }
  case_match; [|by apply vector_cost_u32]. unfold is_u32, M_INF, INT_MAX. lia.
Qed.

Lemma vector_message_valid st nte : dv_inv st -> DVMessage_valid (vector_message st (advert st nte)).
Proof.
  intros I. unfold DVMessage_valid, vector_message. cbn [m_sequenceNumber m_originatorAddress m_ttl].
  split_and!; [apply I|apply (cf_main _ (iv_config _ I))|done|].
  unfold payload_valid. cbn. split; [done|]. by apply advert_valid.
Qed.

(** ** Sending *)

Lemma dv_BroadcastPacket_triple (P : DVState SR -> Prop) m : DVMessage_valid m -> triple P (BroadcastPacket m) (fun _ => P).
Proof.
  intros Hm st u st' out HP. revert st u st' out HP.
  assert (forall s, P s -> triple (eq s) (BroadcastPacket m) (fun _ => P)) as H; [|naive_solver].
  intros s HP. apply triple_get_bind. intros s' <-.
  eapply triple_conseq with (P := P) (Q := fun _ => P); [by intros ? <-|done|].
  apply triple_for. intros p _. apply triple_lift_bind. intros a _. by apply triple_emit.
Qed.

Lemma SendPacket_triple (P : DVState SR -> Prop) m ifc : DVMessage_valid m -> triple P (SendPacket m ifc) (fun _ => P).
Proof.
  intros Hm. assert (forall s port l, P s -> triple (eq s) (SendPacket_loop port m ifc l) (fun _ => P)) as H.
  { intros s port l HP. induction l as [|p l IH]; cbn [SendPacket_loop].
    - intros st u st' out <- [= <- <- <-]. by split.
    - apply triple_lift_bind. intros a _. destruct (_ =? _); [|exact IH].
      eapply triple_conseq with (P := P) (Q := fun _ => P); [by intros ? <-|done|]. by apply triple_emit. }
  apply triple_get_bind. intros s HP. by apply H.
Qed.

Lemma dv_GetNextSequenceNumber_triple (s : DVState SR) :
  triple (eq s) GetNextSequenceNumber (fun n st => n = m_currentSequenceNumber s /\ st = next_seq s).
Proof. by intros st n st' out <- [= <- <- <-]. Qed.

Lemma dv_SendHello_inv : triple dv_inv SendHello (fun _ => dv_inv).
Proof.
  apply triple_get_bind. intros s I. eapply triple_bind; [apply dv_GetNextSequenceNumber_triple|].
  intros n. apply triple_lift_bind. intros m [= <-].
  eapply (triple_conseq (fun st => n = m_currentSequenceNumber s /\ dv_inv st)).
  - intros st [-> ->]. split; [done|]. by apply dv_inv_next_seq.
  - intros a st. exact (fun H => H).
  - intros st a st' out [-> HI] H. revert HI H. apply dv_BroadcastPacket_triple.
    pose proof (iv_config _ I) as C. unfold DVMessage_valid. cbn.
    split_and!; [apply I|apply (cf_main _ C)|done|].
    unfold payload_valid. cbn. split; [by apply dv_resolve_u32|done].
Qed.

Lemma advertised_advert (st : DVState SR) n nte l : map_find n (m_neighborTable st) = Some nte ->
  advertised st n = Ok l -> l = advert st nte.
Proof. intros Hn. rewrite (advertised_eq st n nte Hn). by intros [= <-]. Qed.

Lemma SendDVTableMessage_inv : triple dv_inv SendDVTableMessage (fun _ => dv_inv).
Proof.
  assert (forall s, dv_inv s -> triple (eq s) SendDVTableMessage (fun _ => dv_inv)) as H.
  2: { intros st a st' out HI. by apply (H st HI). }
  intros s I. eapply triple_bind; [apply dv_GetNextSequenceNumber_triple|].
  intros n. apply triple_get_bind. intros s1 [-> ->].
  eapply (triple_conseq dv_inv); [intros ? <-; by apply dv_inv_next_seq|intros a st H; exact H|].
  apply triple_for. intros [k c] Hin. cbn zeta. apply triple_lift_bind. intros l Hl.
  destruct (iv_costs_nt _ I k) as [nte Hn].
  { apply map_find_is_Some. by eapply map_elem_keys. }
  apply (advertised_advert _ _ nte) in Hl; [|exact Hn]. subst l.
  apply triple_lift_bind. intros m [= <-]. apply triple_lift_bind. intros e _.
  apply SendPacket_triple. apply (vector_message_valid s nte I).
Qed.

(** ** The computation *)

Lemma best_route_nonneg st dest acc : dv_inv st -> best_route st dest = Ok acc -> 0 <= acc.1.1.
Proof.
  intros I. unfold best_route. apply (foldM_inv (fun acc => 0 <= acc.1.1)); [|by vm_compute].
  intros [[b h] u] [n c] y Hin Hb Hy. unfold best_step in Hy. cbn [fst snd] in *.
  apply bind_Ok in Hy as (e & He & Hy). apply or_fault_Ok in He.
  destruct (map_find dest (nt_dv e)) as [d|] eqn:Hd; [|by revert Hy; intros [= <-]].
  apply (iv_nt_ok _ I) in He as (_ & _ & He). apply He in Hd.
  revert Hy. repeat case_match; intros [= <-]; cbn; try done; [apply u32_range|]. by destruct Hd.
Qed.

Lemma BF_dest_inv st acc i y : dv_inv st -> vector_cost i.2 -> named st i.1 ->
  map_wf acc.1.1 /\ map_values vector_cost acc.1.1 /\ keys_in (named st) acc.1.1 /\
  map_wf acc.1.2 /\ map_values (fun e => 0 <= rt_cost e < 16) acc.1.2 ->
  BF_dest st acc i = Ok y ->
  map_wf y.1.1 /\ map_values vector_cost y.1.1 /\ keys_in (named st) y.1.1 /\
  map_wf y.1.2 /\ map_values (fun e => 0 <= rt_cost e < 16) y.1.2.
Proof.
  destruct acc as [[dv rt] s], i as [k old]. cbn [fst snd]. intros I Hold Hk (H1 & H2 & H3 & H4 & H5).
  unfold BF_dest. cbn [fst snd]. destruct (String.eqb _ _).
  { intros [= <-]. split_and!; try done; [by apply map_wf_insert|by apply map_values_insert]. }
  intros ([[b n] u] & Hb & Hy)%bind_Ok. apply best_route_nonneg in Hb; [|done]. cbn [fst] in Hb.
  set (change := u && negb (b =? old) && (b <=? 16)) in *.
  set (dv' := if change then _ else dv) in *.
  assert (map_wf dv' /\ map_values vector_cost dv' /\ keys_in (named st) dv') as (G1 & G2 & G3).
  { unfold dv'. destruct change eqn:E; [|done].
    split_and!; [by apply map_wf_update|apply map_values_update; [|done]|by apply keys_in_update].
    intros v _. left. unfold change in E. lia. }
  destruct ((b <? M_INF) && (b <? 16)) eqn:E; [|by injection Hy as <-].
  apply bind_Ok in Hy as (nte & _ & [= <-]). cbn [fst snd].
  split_and!; try done; [by apply map_wf_insert|apply map_values_insert; [cbn; lia|done]].
Qed.

Lemma add_unknown_names st ndv dv : keys_in (named st) ndv -> keys_in (named st) dv ->
  keys_in (named st) (add_unknown ndv dv).
Proof.
  intros Hn Hd k. rewrite add_unknown_find. destruct (map_find k dv) eqn:E; [intros _; apply Hd; by eexists|].
  case_decide as Hk; [|by intros []]. intros _. by apply Hn, map_find_is_Some.
Qed.

Lemma add_unknown_values ndv dv : map_values vector_cost dv -> map_values vector_cost (add_unknown ndv dv).
Proof.
  intros Hd k v. rewrite add_unknown_find. destruct (map_find k dv) eqn:E; [intros [= <-]; by eapply Hd|].
  case_decide; [|done]. intros [= <-]. by right.
Qed.

Lemma BellmanFord_inv ndv (P : DVState SR -> Prop) :
  (forall st, P st -> keys_in (named st) ndv) ->
  triple (fun st => dv_inv st /\ P st) (BellmanFord ndv) (fun _ => dv_inv).
Proof.
  intros HP. apply triple_get_bind. intros s [I Hp]. apply triple_lift_bind. intros [[dv rt] sendDV] Hbf.
  eapply (triple_bind _ (fun _ => dv_inv)).
  - apply triple_modify. intros st <-. unfold BF_tables in Hbf.
    set (dv0 := add_unknown ndv (m_dv s)) in *.
    assert (map_wf dv0 /\ map_values vector_cost dv0 /\ keys_in (named s) dv0) as (H1 & H2 & H3).
    { split_and!; [apply add_unknown_wf, I|apply add_unknown_values, I|].
      apply add_unknown_names; [by apply HP|apply I]. }
    eapply (foldM_inv (fun acc => map_wf acc.1.1 /\ map_values vector_cost acc.1.1 /\
      keys_in (named s) acc.1.1 /\ map_wf acc.1.2 /\ map_values (fun e => 0 <= rt_cost e < 16) acc.1.2)) in Hbf.
    + cbn [fst snd] in Hbf. destruct Hbf as (? & ? & ? & ? & ?). by apply inv_tables.
    + intros acc [k old] y Hin Hacc. apply BF_dest_inv; try done.
      * apply map_elem_find in Hin; [|done]. by apply H2 in Hin.
      * apply map_elem_keys, map_find_is_Some in Hin. by apply H3.
    + split_and!; try done; apply map_wf_nil.
  - intros _. destruct sendDV; [apply SendDVTableMessage_inv|apply (triple_ret (fun _ => dv_inv))].
Qed.

(** ** The handlers keep the invariant *)

Lemma same_inv (s : DVState SR) : dv_inv s -> triple (eq s) (mret tt) (fun _ => dv_inv).
Proof. by intros I st u st' out <- [= <- <- <-]. Qed.

Lemma dv_ProcessPingReq_inv m : DVMessage_valid m -> GetMessageType m = PING_REQ ->
  triple dv_inv (ProcessPingReq m) (fun _ => dv_inv).
Proof.
  intros (Hs & Ho & _ & Hp) Ht. apply triple_get_bind. intros s I. pose proof (iv_config _ I) as C.
  unfold payload_valid in Hp. unfold GetMessageType in Ht. rewrite decide_True in Hp by done.
  destruct (IsOwnAddress _ _); [|by apply same_inv].
  apply triple_lift_bind. intros r [= <-].
  eapply (triple_conseq dv_inv); [by intros ? <-|intros a st H; exact H|]. apply dv_BroadcastPacket_triple.
  unfold DVMessage_valid. cbn. split_and!; [done|apply (cf_main _ C)|apply (cf_ttl _ C)|].
  unfold payload_valid. cbn. split; [done|]. apply Hp.
Qed.

Lemma dv_ProcessPingRsp_inv m : triple dv_inv (ProcessPingRsp m) (fun _ => dv_inv).
Proof.
  apply triple_get_bind. intros s I. destruct (IsOwnAddress _ _); [|by apply same_inv].
  destruct (map_find _ _); [|by apply same_inv].
  apply triple_modify. intros st <-. apply dv_inv_pingTracker; [apply map_wf_erase, I|done].
Qed.

Lemma keys_in_mono {V} (P Q : string -> Prop) (m : stdmap string V) :
  (forall k, P k -> Q k) -> keys_in P m -> keys_in Q m.
Proof. intros H Hm k Hk. by apply H, Hm. Qed.

Lemma nt_insert_inv st k e : dv_inv st -> k = ReverseLookup st (nt_neighborAddr e) -> neighbor_ok e ->
  dv_inv (set_neighborTable (map_set k e (m_neighborTable st)) st).
Proof.
  intros I Hk He. apply dv_inv_neighborTable; [apply map_wf_set, I|apply map_values_set; [done|apply I]| | |done].
  - intros k' e'. rewrite map_find_set. case_decide; [|apply I]. intros [= <-]. by subst.
  - eapply keys_in_mono; [|apply (iv_costs_nt _ I)]. intros k' Hk'. rewrite map_find_set. case_decide; done.
Qed.

Lemma nt_update_inv st k f : dv_inv st ->
  (forall e, neighbor_ok e -> neighbor_ok (f e) /\ nt_neighborAddr (f e) = nt_neighborAddr e) ->
  dv_inv (set_neighborTable (map_update k f (m_neighborTable st)) st).
Proof.
  intros I Hf. apply dv_inv_neighborTable; [apply map_wf_update, I|apply map_values_update; [|apply I]| | |done].
  - intros e He. apply (iv_nt_ok _ I) in He. by apply Hf.
  - intros k' e'. rewrite map_find_update. case_decide; [subst k'|apply I].
    destruct (map_find k (m_neighborTable st)) as [e|] eqn:E; [|done]. intros [= <-].
    apply (iv_nt_ok _ I) in E as He. apply Hf in He as [_ ->]. by apply (iv_nt_name _ I).
  - eapply keys_in_mono; [|apply (iv_costs_nt _ I)]. intros k' [e' Hk']. rewrite map_find_update, Hk'.
    case_decide; [subst k'; rewrite Hk'|]; by eexists.
Qed.

Lemma dv_ProcessHelloReq_inv now m socket : DVMessage_valid m ->
  triple dv_inv (ProcessHelloReq now m socket) (fun _ => dv_inv).
Proof.
  intros (Hs & Ho & _ & Hp). apply triple_get_bind. intros s I. cbn zeta.
  set (fromNode := ReverseLookup s (GetOriginatorAddress m)).
  destruct (map_find fromNode (m_neighborTable s)) as [e0|] eqn:Hf.
  { apply triple_modify. intros st <-. apply nt_update_inv; [done|]. intros e He. split; done. }
  set (has := fun st : DVState SR => dv_inv st /\ is_Some (map_find fromNode (m_neighborTable st)) /\ named st fromNode).
  eapply (triple_bind _ (fun _ => has)).
  { apply triple_modify. intros st <-. unfold map_insert. rewrite Hf. split; [|split].
    - apply nt_insert_inv; [done..|]. split_and!; [done|apply map_wf_nil|apply map_values_nil].
    - cbn. rewrite map_find_set_eq. by eexists.
    - by eexists. }
  intros _. eapply (triple_bind _ (fun _ => has)).
  { apply triple_modify. intros st (J & Hn & Hk). split; [|done].
    apply inv_dv; [apply map_wf_insert, J|apply map_values_insert; [by left|apply J]|
      apply keys_in_insert; [done|apply J]|done]. }
  intros _. eapply (triple_bind _ (fun _ => dv_inv)).
  { apply triple_modify. intros st (J & Hn & Hk).
    apply inv_costs; [apply map_wf_insert, J|apply map_values_insert; [done|apply J]|
      apply keys_in_insert; [done|apply J]|done]. }
  intros _. eapply (triple_bind _ (fun _ => dv_inv)); [|intros _; apply SendDVTableMessage_inv].
  eapply triple_conseq; [|intros a st H; exact H|apply (BellmanFord_inv [] (fun _ => True))]; [done|].
  intros st _ k [v Hv]. by rewrite map_find_nil in Hv.
Qed.

Lemma received_dv_ok (s : DVState SR) l : costs_valid l ->
  map_wf (received_dv s l) /\ map_values is_u32 (received_dv s l) /\ keys_in (named s) (received_dv s l).
Proof.
  intros [_ Hl]. unfold received_dv.
  assert (map_wf ([] : stdmap string Z) /\ map_values is_u32 ([] : stdmap string Z) /\
    keys_in (named s) ([] : stdmap string Z)) as H0.
  { split_and!; [apply map_wf_nil|apply map_values_nil|]. intros k [v Hv]. by rewrite map_find_nil in Hv. }
  revert H0. generalize (@nil (string * Z)) as m. induction Hl as [|[a c] l [_ Hc] _ IH]; intros m Hm; [exact Hm|].
  cbn [foldl]. apply IH. destruct Hm as (H1 & H2 & H3).
  split_and!; [by apply map_wf_set|by apply map_values_set|apply keys_in_set; [by eexists|done]].
Qed.

Lemma ProcessDVTableMessage_inv now m socket : DVMessage_valid m -> GetMessageType m = DV_TABLE_MSG ->
  triple dv_inv (ProcessDVTableMessage now m socket) (fun _ => dv_inv).
Proof.
  intros (Hs & Ho & _ & Hp) Ht. apply triple_get_bind. intros s I. cbn zeta.
  assert (costs_valid (neighborCosts (GetDVTableMsg m))) as Hl.
  { unfold payload_valid in Hp. unfold GetMessageType in Ht. rewrite Ht in Hp. apply Hp. }
  set (newdv := received_dv s _). destruct (received_dv_ok s _ Hl) as (H1 & H2 & H3).
  eapply (triple_bind _ (fun _ st => dv_inv st /\ forall a, ReverseLookup st a = ReverseLookup s a)).
  - destruct (map_find _ _) as [e0|] eqn:E; apply triple_modify; intros st <-.
    + split; [|done]. apply nt_update_inv; [done|]. intros e (Ha & _ & _). by split_and!.
    + split; [|done]. by apply nt_insert_inv.
  - intros _. apply BellmanFord_inv. intros st Hst. eapply keys_in_mono; [|exact H3].
    intros k [a ->]. exists a. by rewrite Hst.
Qed.

Lemma dv_schedule_pings_inv now : triple dv_inv (schedule_audit_pings now) (fun _ => dv_inv).
Proof. apply triple_modifyM. intros st st' I (t & _ & [= <-])%bind_Ok. by apply dv_inv_pingsTimer. Qed.

Lemma dv_schedule_hellos_inv now : triple dv_inv (schedule_audit_hellos now) (fun _ => dv_inv).
Proof. apply triple_modifyM. intros st st' I (t & _ & [= <-])%bind_Ok. by apply dv_inv_hellosTimer. Qed.

Lemma dv_AuditPings_inv now : triple dv_inv (AuditPings now) (fun _ => dv_inv).
Proof.
  eapply (triple_bind _ (fun _ => dv_inv)); [|intros ?; apply dv_schedule_pings_inv].
  apply triple_modify. intros st I. apply dv_inv_pingTracker; [|done]. apply map_wf_erase_expired, I.
Qed.

Lemma dv_audit_neighbor_inv now i st st' :
  (exists st0 : DVState SR, (forall a, ReverseLookup st0 a = ReverseLookup st a) /\
     i.1 = ReverseLookup st0 (nt_neighborAddr i.2)) ->
  audit_neighbor now i st = Ok st' -> dv_inv st ->
  dv_inv st' /\ (forall a, ReverseLookup st' a = ReverseLookup st a).
Proof.
  intros (st0 & H0 & Hi). unfold audit_neighbor. destruct (hello_expired _ _ _); [|by intros [= <-]].
  intros (c & _ & [= <-])%bind_Ok I. split; [|done].
  rewrite H0 in Hi. rewrite <- Hi. cbn [set_dv m_costs].
  set (s1 := set_dv (map_set i.1 M_INF (m_dv st)) st).
  assert (dv_inv s1) as I1.
  { apply inv_dv; [apply map_wf_set, I|apply map_values_set; [by right|apply I]|
      apply keys_in_set; [by eexists|apply I]|done]. }
  set (s2 := set_costs (map_erase i.1 (m_costs st)) s1).
  assert (dv_inv s2) as I2.
  { apply inv_costs; [apply map_wf_erase, I|apply map_values_erase, I|apply keys_in_erase, I|done]. }
  apply dv_inv_neighborTable; [apply map_wf_erase, I|apply map_values_erase, I| | |done].
  - intros k e. rewrite map_find_erase. case_decide; [done|apply I].
  - intros k. cbn [s2 s1 set_costs set_dv m_costs m_neighborTable]. rewrite !map_find_erase.
    case_decide; [by intros []|apply I].
Qed.

Lemma dv_AuditHellos_inv now : triple dv_inv (AuditHellos now) (fun _ => dv_inv).
Proof.
  eapply triple_bind; [apply dv_SendHello_inv|]. intros ?. apply triple_get_bind. intros s I. cbn zeta.
  eapply (triple_bind _ (fun _ => dv_inv)).
  { apply triple_modifyM. intros st st' <- Hf.
    eapply (foldM_inv (fun st => dv_inv st /\ forall a, ReverseLookup st a = ReverseLookup s a)) in Hf;
      [apply Hf| |by split].
    intros x [k e] y Hin [Hx Hn] Hs. eapply dv_audit_neighbor_inv in Hs as [J HJ]; [| |exact Hx].
    - split; [done|]. intros b. by rewrite HJ.
    - exists s. split; [done|]. cbn. apply (map_elem_find k e) in Hin; [|apply I]. by apply (iv_nt_name _ I). }
  intros ?. eapply (triple_bind _ (fun _ => dv_inv)); [|intros ?; apply dv_schedule_hellos_inv].
  destruct (existsb _ _); [|apply (triple_ret (fun _ => dv_inv))].
  apply triple_get_bind. intros s1 I1.
  eapply triple_conseq; [|intros b st H; exact H|apply (BellmanFord_inv (m_dv s1) (fun st => s1 = st))].
  - by intros st <-.
  - intros st <-. apply I1.
Qed.

(** Handlers that only print the tables. *)
Lemma dv_dump_inv {A} (l : DVState SR -> list A) (row : DVState SR -> A -> action DVMessage) :
  (forall s a, sends_valid (row s a)) ->
  triple dv_inv (st ← get; for_loop (l st) (fun a => emit (row st a))) (fun _ => dv_inv).
Proof.
  intros Hr. apply triple_get_bind. intros s I.
  eapply (triple_conseq dv_inv); [by intros ? <-|intros a st H; exact H|].
  apply triple_for. intros a _. by apply triple_emit.
Qed.

Lemma dv_ping_command_inv now number pingMessage : is_u16 (str_length pingMessage) ->
  triple dv_inv (
    nodeNumber ← lift (read_uint32 number ?? UninitRead);
    st ← get;
    let destAddress := ResolveNodeIpAddress st nodeNumber in
    if negb (destAddress =? GetAny) then
      sequenceNumber ← GetNextSequenceNumber;
      let pingRequest := mkPingRequest sequenceNumber now destAddress pingMessage in
      _ ← modify (fun st => set_pingTracker (map_insert sequenceNumber pingRequest (m_pingTracker st)) st);
      let dvMessage := MakeDVMessage PING_REQ sequenceNumber (m_maxTTL st) (m_mainAddress st) in
      dvMessage ← lift (SetPingReq destAddress pingMessage dvMessage);
      BroadcastPacket dvMessage
    else mret tt) (fun _ => dv_inv).
Proof.
  intros Hl. apply triple_lift_bind. intros n _. apply triple_get_bind. intros s I. cbn zeta.
  pose proof (iv_config _ I) as C. destruct (negb _); [|by apply same_inv].
  eapply triple_bind; [apply dv_GetNextSequenceNumber_triple|]. intros seq.
  eapply (triple_conseq (fun st => seq = m_currentSequenceNumber s /\ dv_inv st)).
  { intros st [-> ->]. split; [done|]. by apply dv_inv_next_seq. }
  { intros a st H. exact H. }
  intros st a st' out [-> HI]. revert st a st' out HI.
  eapply (triple_bind _ (fun _ => dv_inv)).
  { apply triple_modify. intros st HI. apply dv_inv_pingTracker; [apply map_wf_insert, HI|done]. }
  intros ?. apply triple_lift_bind. intros m [= <-]. apply dv_BroadcastPacket_triple.
  unfold DVMessage_valid. cbn. split_and!; [apply I|apply (cf_main _ C)|apply (cf_ttl _ C)|].
  unfold payload_valid. cbn. split; [by apply dv_resolve_u32|done].
Qed.

Lemma dv_ProcessCommand_inv now tokens : Forall (fun t => is_u16 (str_length t)) tokens ->
  triple dv_inv (ProcessCommand now tokens) (fun _ => dv_inv).
Proof.
  intros Ht. assert (triple dv_inv (mret tt) (fun _ => dv_inv)) as Hret by apply (triple_ret (fun _ => dv_inv)).
  apply triple_lift_bind. intros command _. destruct (String.eqb command "PING").
  { destruct tokens as [|c [|n [|t tokens]]]; try exact Hret. apply dv_ping_command_inv.
    rewrite !Forall_cons in Ht. apply Ht. }
  destruct (String.eqb command "DUMP"); [|done].
  destruct tokens as [|c [|t tokens]]; try exact Hret.
  destruct (_ || _); [by apply dv_dump_inv|]. destruct (_ || _); [by apply dv_dump_inv|].
  destruct (String.eqb t "DV"); [|done]. apply triple_get_bind. intros s I.
  eapply (triple_conseq dv_inv); [by intros ? <-|intros a st H; exact H|]. by apply triple_emit.
Qed.

Lemma RecvDVMessage_inv now socket m : DVMessage_valid m ->
  triple dv_inv (RecvDVMessage now socket m) (fun _ => dv_inv).
Proof.
  intros Hm. unfold RecvDVMessage. cbn zeta.
  destruct (Z.eqb_spec (GetMessageType m) PING_REQ); [by apply dv_ProcessPingReq_inv|].
  destruct (_ =? PING_RSP); [apply dv_ProcessPingRsp_inv|].
  destruct (_ =? HELLO_REQ); [by apply dv_ProcessHelloReq_inv|].
  destruct (Z.eqb_spec (GetMessageType m) DV_TABLE_MSG); [by apply ProcessDVTableMessage_inv|].
  apply (triple_ret (fun _ => dv_inv)).
Qed.

Lemma dv_run_event_inv now ev : event_valid ev -> triple dv_inv (run_event now ev) (fun _ => dv_inv).
Proof.
  destruct ev; cbn; intros Hv; [by apply RecvDVMessage_inv|by apply dv_ProcessCommand_inv|apply dv_AuditPings_inv|
    apply dv_AuditHellos_inv].
Qed.
End dv_steps.

(** (C16) The invariant of a distance-vector node.  Whatever valid messages it
    receives (with costs of any 32-bit value), commands it is given and timers
    expire, in any order, as long as no event faults: its own vector holds only
    costs up to 16 or [M_INF], every route costs less than 16, every link costs
    1 and leads to a node of the neighbour table, every neighbour is filed
    under the name of its address, the tables are well-formed maps, and every
    message the node sends fits its wire format. *)
Theorem dv_invariant {SR} (st st' : DVState SR) out (HI : dv_inv st) (Hrun : dv_run st st' out) :
  dv_inv st' /\ Forall sends_valid out.
Proof.
  induction Hrun as [|st' out st'' out' Hrun [I Ho] Hstep]; [by split|].
  destruct Hstep as [now ev st'' out' Hv Hrun']. destruct (dv_run_event_inv now ev Hv _ _ _ _ I Hrun').
  split; [done|]. by apply Forall_app.
Qed.

Lemma fresh_node_inv : dv_inv fresh_node.
Proof.
  split; try by (apply map_wf_b_spec || done).
  - split; try by (apply map_wf_b_spec || done).
    intros n a. cbn. repeat case_decide; try done; intros [= <-]; done.
  - intros k v. cbn. case_decide; [|done]. intros [= <-]. by left.
  - intros k. cbn. case_decide as E; [|by intros []]. intros _. exists 0x0a000101. by subst.
  - intros k. cbn. by intros [].
Qed.

Lemma dv_invariant_witness : exists st' out,
  dv_run fresh_node st' out /\ length out = 2%nat /\ dv_inv st' /\ Forall sends_valid out.
Proof.
  destruct (run_event (dv_ms 6000) (DvRecv 100 (dv_hello_from 0x0a000102 5)) fresh_node) as [[[[] s1] o1]|f] eqn:E1;
    [|by vm_compute in E1].
  destruct (run_event (dv_ms 6001)
    (DvRecv 100 (dv_table_from 0x0a000102 6 [(0x0a000102, 0); (0x0a000103, 1)])) s1) as [[[[] s2] o2]|f] eqn:E2.
  - assert (dv_run fresh_node s2 (([] ++ o1) ++ o2)) as Hrun.
    { eapply dv_run_snoc; [eapply dv_run_snoc; [apply dv_run_nil|]|].
      - eapply (dv_step_event _ _ _ _ _ _ E1).
      - eapply (dv_step_event _ _ _ _ _ _ E2). }
    exists s2, (([] ++ o1) ++ o2). split; [exact Hrun|]. split.
    + vm_compute in E1. injection E1 as <- <-. vm_compute in E2. injection E2 as <- <-. reflexivity.
    + exact (dv_invariant fresh_node s2 _ fresh_node_inv Hrun).
  - vm_compute in E1. injection E1 as <- <-. by vm_compute in E2.
  Unshelve. all: by apply (bool_decide_unpack _).
Defined.
