(* ===== verification/DVNetwork.v ===== *)
(** * DVNetwork: distance-vector nodes in a network

    Nodes of dv-routing-protocol.cc on a fixed topology, exchanging messages
    that may be lost, duplicated and reordered.  Whatever happens, every cost
    a node holds is the length of a real walk and every route follows one;
    DVConverge shows that the costs become the distances. *)

From S2P Require Import Prelude StdMap StdString Ipv4Address Codec DVMessage Node Triple DVRouting DVBellmanFord DVProtocol DVInvariant.

Section network.
Context {SR : Type}.

(** The topology, the main address of each node, and the tables of numbers and
    addresses all nodes are configured with. *)
Context (node : string -> Prop) (link : string -> string -> Prop) (addr : string -> Ipv4Address).
Context (nodeAddressMap : stdmap Z Ipv4Address) (addressNodeMap : stdmap Ipv4Address Z).

Definition name_of (a : Ipv4Address) : string :=
  match map_find a addressNodeMap with Some n => show_uint n | None => "Unknown" end.
Definition addr_of (x : string) : Ipv4Address :=
  match map_find (u32 (atoi x)) nodeAddressMap with Some a => a | None => GetAny end.

Record topology : Prop := {
  tp_node u v : link u v -> node u /\ node v;
  tp_sym u v : link u v -> link v u;
  tp_main v : node v -> name_of (addr v) = v;
  tp_resolve v : node v -> name_of (addr_of v) = v
}.

(** [walk u x n]: a walk of [n] links from [u] to [x]. *)
Inductive walk : string -> string -> Z -> Prop :=
| walk_here u : node u -> walk u u 0
| walk_link u v x n : link u v -> walk v x n -> walk u x (n + 1).

Lemma walk_nonneg u x n : walk u x n -> 0 <= n.
Proof. induction 1; lia. Qed.

Lemma walk_target u x n : walk u x n -> node x.
Proof. by induction 1. Qed.

(** The state of node [u] is configured for this network. *)
Definition placed (u : string) (st : DVState SR) : Prop :=
  m_mainAddress st = addr u /\ m_nodeAddressMap st = nodeAddressMap /\ m_addressNodeMap st = addressNodeMap.

Lemma placed_name u st a : placed u st -> ReverseLookup st a = name_of a.
Proof. intros (_ & _ & H). unfold ReverseLookup, name_of. by rewrite H. Qed.

Lemma placed_resolve u st x : placed u st -> resolve_name st x = addr_of x.
Proof. intros (_ & H & _). unfold resolve_name, ResolveNodeIpAddress, addr_of. by rewrite H. Qed.

(** [v] is a cost node [u] may hold for [x]: infinite, or the length of a walk. *)
Definition cost_ok (u x : string) (v : Z) : Prop := v = M_INF \/ (0 <= v <= 16 /\ walk u x v).

(** The route [e] of node [u] to [x] follows a walk. *)
Definition route_ok (u x : string) (e : RoutingTableEntry) : Prop :=
  0 <= rt_cost e < 16 /\ walk u x (rt_cost e) /\
  (x <> u -> link u (name_of (rt_nextHopAddr e)) /\ walk (name_of (rt_nextHopAddr e)) x (rt_cost e - 1)).

Record sound (u : string) (st : DVState SR) : Prop := {
  so_placed : placed u st;
  so_dv_wf : map_wf (m_dv st);
  so_dv x v : map_find x (m_dv st) = Some v -> cost_ok u x v;
  so_costs_wf : map_wf (m_costs st);
  so_costs n c : map_find n (m_costs st) = Some c -> c = 1 /\ link u n;
  so_nt n e x d : map_find n (m_neighborTable st) = Some e -> map_find x (nt_dv e) = Some d -> cost_ok n x d;
  so_rt x e : map_find x (m_routingTable st) = Some e -> route_ok u x e
}.

(** What node [u] may send. *)
Definition message_ok (u : string) (m : DVMessage) : Prop :=
  GetOriginatorAddress m = addr u /\
  (GetMessageType m = DV_TABLE_MSG ->
     forall a d, (a, d) ∈ neighborCosts (GetDVTableMsg m) -> cost_ok u (name_of a) d).

Definition action_ok (u : string) (o : action DVMessage) : Prop :=
  match o with SendTo _ _ _ m => message_ok u m | _ => True end.

Notation triple u := (htriple (action_ok u)).

(** ** Updates *)

Lemma placed_same u st st' : placed u st -> m_mainAddress st' = m_mainAddress st ->
  m_nodeAddressMap st' = m_nodeAddressMap st -> m_addressNodeMap st' = m_addressNodeMap st -> placed u st'.
Proof. intros (H1 & H2 & H3) E1 E2 E3. unfold placed. by rewrite E1, E2, E3. Qed.

Lemma sound_same u st st' : sound u st -> m_mainAddress st' = m_mainAddress st ->
  m_nodeAddressMap st' = m_nodeAddressMap st -> m_addressNodeMap st' = m_addressNodeMap st ->
  m_dv st' = m_dv st -> m_costs st' = m_costs st -> m_neighborTable st' = m_neighborTable st ->
  m_routingTable st' = m_routingTable st -> sound u st'.
Proof.
  intros [] E1 E2 E3 E4 E5 E6 E7. split; rewrite ?E4, ?E5, ?E6, ?E7; try done. by eapply placed_same.
Qed.

Lemma sound_next_seq u st : sound u st -> sound u (next_seq st).
Proof. intros I. by apply (sound_same u st). Qed.

Lemma sound_tables u st dv rt : sound u st -> map_wf dv -> (forall x v, map_find x dv = Some v -> cost_ok u x v) ->
  (forall x e, map_find x rt = Some e -> route_ok u x e) -> sound u (set_routingTable rt (set_dv dv st)).
Proof. intros [] Hw Hd Hr. by split. Qed.

Lemma sound_dv u st dv : sound u st -> map_wf dv -> (forall x v, map_find x dv = Some v -> cost_ok u x v) ->
  sound u (set_dv dv st).
Proof. intros [] Hw Hd. by split. Qed.

Lemma sound_costs u st m : sound u st -> map_wf m -> (forall n c, map_find n m = Some c -> c = 1 /\ link u n) ->
  sound u (set_costs m st).
Proof. intros [] Hw Hd. by split. Qed.

Lemma sound_nt u st m : sound u st ->
  (forall n e x d, map_find n m = Some e -> map_find x (nt_dv e) = Some d -> cost_ok n x d) ->
  sound u (set_neighborTable m st).
Proof. intros [] Hd. by split. Qed.

(** ** Sending *)

Lemma net_broadcast u (P : DVState SR -> Prop) m : message_ok u m -> triple u P (BroadcastPacket m) (fun _ => P).
Proof.
  intros Hm. apply triple_get_bind. intros s HP.
  eapply triple_conseq with (P := P) (Q := fun _ => P); [by intros ? <-|done|].
  apply triple_for. intros p _. apply triple_lift_bind. intros a _. by apply triple_emit.
Qed.

Lemma net_SendPacket u (P : DVState SR -> Prop) m ifc : message_ok u m -> triple u P (SendPacket m ifc) (fun _ => P).
Proof.
  intros Hm. apply triple_get_bind. intros s HP.
  eapply triple_conseq with (P := P) (Q := fun _ => P); [by intros ? <-|done|].
  induction (m_socketAddresses s) as [|p l IH]; cbn [SendPacket_loop]; [apply (triple_ret (fun _ => P))|].
  apply triple_lift_bind. intros a _. destruct (_ =? _); [by apply triple_emit|exact IH].
Qed.

(** Taking a sequence number. *)
Lemma net_next_seq u : triple u (sound u) GetNextSequenceNumber (fun _ => sound u).
Proof. intros st n st' out I [= <- <- <-]. split; [by apply sound_next_seq|done]. Qed.

Lemma net_SendHello u : triple u (sound u) SendHello (fun _ => sound u).
Proof.
  apply triple_get_bind. intros s I.
  eapply (triple_conseq (sound u)); [by intros ? <-|intros a st H; exact H|].
  eapply triple_bind; [apply net_next_seq|]. intros n. apply triple_lift_bind. intros m [= <-].
  apply net_broadcast. split; [apply (so_placed _ _ I)|done].
Qed.

Lemma sound_name u st a : sound u st -> ReverseLookup st a = name_of a.
Proof. intros I. by eapply placed_name, so_placed. Qed.

Lemma sound_self u st : topology -> node u -> sound u st -> this_node st = u.
Proof.
  intros T Hu I. unfold this_node. rewrite (sound_name u) by done.
  destruct (so_placed _ _ I) as (-> & _ & _). by apply (tp_main T).
Qed.

(** The finite costs are to nodes, whose names survive the translation to an
    address and back. *)
Lemma cost_ok_renamed u st x v : topology -> sound u st -> cost_ok u x v -> cost_ok u (name_of (resolve_name st x)) v.
Proof.
  intros T I [->|[Hv Hw]]; [by left|right]. split; [done|].
  rewrite (placed_resolve u) by apply I. rewrite (tp_resolve T); [done|]. by eapply walk_target.
Qed.

Lemma net_advertised u st n l : topology -> sound u st -> advertised st n = Ok l ->
  forall a d, (a, d) ∈ l -> cost_ok u (name_of a) d.
Proof.
  intros T I. unfold advertised. apply (foldM_inv (fun l => forall a d, (a, d) ∈ l -> cost_ok u (name_of a) d)).
  - intros l0 [x v] y Hin Hl (nte & _ & [= <-])%bind_Ok a d [Ha|[= -> ->]%list_elem_of_singleton]%elem_of_app;
      [by apply Hl|]. apply map_elem_find in Hin; [|apply I]. cbn [fst snd].
    case_match; [by left|]. by apply cost_ok_renamed; [| |apply I].
  - by intros a d ?%not_elem_of_nil.
Qed.

Lemma net_SendDVTableMessage u : topology -> triple u (sound u) SendDVTableMessage (fun _ => sound u).
Proof.
  intros T. eapply triple_bind; [apply net_next_seq|]. intros n. apply triple_get_bind. intros s I.
  eapply (triple_conseq (sound u)); [by intros ? <-|intros a st H; exact H|].
  apply triple_for. intros [k c] Hin. cbn zeta. apply triple_lift_bind. intros l Hl.
  apply triple_lift_bind. intros m [= <-]. apply triple_lift_bind. intros e _.
  apply net_SendPacket. split; [apply (so_placed _ _ I)|]. intros _ a d Ha.
  by eapply (net_advertised u s k l).
Qed.

(** ** The computation *)

Lemma best_route_from (st : DVState SR) dest acc : best_route st dest = Ok acc ->
  acc.1.1 = M_INF \/ exists c e d, (acc.1.2, c) ∈ m_costs st /\
    map_find acc.1.2 (m_neighborTable st) = Some e /\ map_find dest (nt_dv e) = Some d /\ acc.1.1 = via c d.
Proof.
  unfold best_route. apply (foldM_inv (fun acc => acc.1.1 = M_INF \/ exists c e d, (acc.1.2, c) ∈ m_costs st /\
    map_find acc.1.2 (m_neighborTable st) = Some e /\ map_find dest (nt_dv e) = Some d /\ acc.1.1 = via c d));
    [|by left].
  intros acc0 [n c] y Hin Hacc Hy. destruct (map_find n (m_neighborTable st)) as [e|] eqn:He.
  - rewrite (best_step_eq st dest acc0 n c e He) in Hy. injection Hy as <-.
    destruct (map_find dest (nt_dv e)) as [d|] eqn:Hd; [|done].
    destruct (via c d <? acc0.1.1); cbn; [right; by exists c, e, d|done].
  - unfold best_step in Hy. destruct acc0 as [[b h] w]. cbn [fst snd] in Hy. by rewrite He in Hy.
Qed.

(** A finite least cost is a walk over the chosen neighbour. *)
Lemma best_walk u st dest b n w : sound u st -> best_route st dest = Ok (b, n, w) -> b < M_INF ->
  link u n /\ 1 <= b <= 17 /\ walk n dest (b - 1) /\ walk u dest b.
Proof.
  intros I Hb Hlt. apply best_route_from in Hb. cbn [fst snd] in Hb.
  destruct Hb as [->|(c & e & d & Hc & He & Hd & ->)]; [lia|].
  apply map_elem_find in Hc; [|apply I]. destruct (so_costs _ _ I n c Hc) as [-> Hl].
  destruct (so_nt _ _ I n e dest d He Hd) as [->|[Hd' Hw]].
  - rewrite via_M_INF in Hlt by (unfold M_INF, INT_MAX; lia). lia.
  - rewrite via_small in * by (unfold M_INF, INT_MAX in *; lia).
    split_and!; [done|lia|lia|by replace (1 + d - 1) with d by lia|].
    rewrite (Z.add_comm 1 d). by econstructor.
Qed.

Lemma net_BF_dest u st acc i y : topology -> node u -> sound u st ->
  map_wf acc.1.1 /\ (forall x v, map_find x acc.1.1 = Some v -> cost_ok u x v) /\
  (forall x e, map_find x acc.1.2 = Some e -> route_ok u x e) ->
  BF_dest st acc i = Ok y ->
  map_wf y.1.1 /\ (forall x v, map_find x y.1.1 = Some v -> cost_ok u x v) /\
  (forall x e, map_find x y.1.2 = Some e -> route_ok u x e).
Proof.
  destruct acc as [[dv rt] s], i as [k old]. cbn [fst snd]. intros T Hu I (H0 & H1 & H2).
  unfold BF_dest. cbn [fst snd]. fold (this_node st). rewrite (sound_self u) by done.
  destruct (String.eqb_spec k u) as [->|Hne].
  { intros [= <-]. split_and!; [done|done|]. cbn [fst snd]. intros x e. rewrite map_find_insert.
    case_decide; [subst x|apply H2]. intros [= <-]. destruct (map_find u rt) eqn:E; cbn; [by apply H2|].
    split_and!; cbn; [lia|lia|by constructor|done]. }
  intros ([[b n] w] & Hb & Hy)%bind_Ok.
  set (change := w && negb (b =? old) && (b <=? 16)) in *. set (dv' := if change then _ else dv) in *.
  assert (map_wf dv' /\ forall x v, map_find x dv' = Some v -> cost_ok u x v) as [Hd0 Hd].
  { unfold dv'. destruct change eqn:E; [|done]. split; [by apply map_wf_update|].
    intros x v. rewrite map_find_update. case_decide; [subst x|apply H1].
    destruct (map_find k dv); [|done]. intros [= <-]. right. unfold change in E.
    destruct (best_walk u st k b n w) as (_ & ? & _ & ?); [done..|unfold M_INF, INT_MAX; lia|]. split; [lia|done]. }
  destruct ((b <? M_INF) && (b <? 16)) eqn:E; [|by injection Hy as <-].
  apply bind_Ok in Hy as (nte & _ & [= <-]). cbn [fst snd]. split_and!; [done|done|].
  intros x e. rewrite map_find_insert. case_decide; [subst x|apply H2].
  intros [= <-]. destruct (map_find k rt) eqn:E'; cbn; [by apply H2|].
  destruct (best_walk u st k b n w) as (Hl & ? & Hn & Hw); [done..|lia|].
  assert (name_of (resolve_name st n) = n) as Hnm.
  { rewrite (placed_resolve u) by apply I. apply (tp_resolve T), (tp_node T u n Hl). }
  split_and!; cbn; [lia|lia|done|]. intros _. by rewrite Hnm.
Qed.

Lemma net_BellmanFord u ndv : topology -> node u -> triple u (sound u) (BellmanFord ndv) (fun _ => sound u).
Proof.
  intros T Hu. apply triple_get_bind. intros s I. apply triple_lift_bind. intros [[dv rt] sendDV] Hbf.
  eapply (triple_bind _ (fun _ => sound u)).
  - apply triple_modify. intros st <-. unfold BF_tables in Hbf.
    eapply (foldM_inv (fun acc => map_wf acc.1.1 /\ (forall x v, map_find x acc.1.1 = Some v -> cost_ok u x v) /\
      (forall x e, map_find x acc.1.2 = Some e -> route_ok u x e))) in Hbf.
    + cbn [fst snd] in Hbf. destruct Hbf as (? & ? & ?). by apply sound_tables.
    + intros acc i y _ Hacc. by apply net_BF_dest.
    + cbn [fst snd]. split_and!; [apply add_unknown_wf, I| |done].
      intros x v. rewrite add_unknown_find. destruct (map_find x (m_dv s)) eqn:E; [intros [= <-]; by apply I|].
      case_decide; [|done]. intros [= <-]. by left.
  - intros _. destruct sendDV; [by apply net_SendDVTableMessage|apply (triple_ret (fun _ => sound u))].
Qed.

(** ** The handlers *)

Lemma net_same u (s : DVState SR) : sound u s -> triple u (eq s) (mret tt) (fun _ => sound u).
Proof. by intros I st a st' out <- [= <- <- <-]. Qed.

Lemma net_ProcessPingReq u m : triple u (sound u) (ProcessPingReq m) (fun _ => sound u).
Proof.
  apply triple_get_bind. intros s I. destruct (IsOwnAddress _ _); [|by apply net_same].
  apply triple_lift_bind. intros r [= <-].
  eapply (triple_conseq (sound u)); [by intros ? <-|intros a st H; exact H|].
  apply net_broadcast. split; [apply (so_placed _ _ I)|done].
Qed.

Lemma net_ProcessPingRsp u m : triple u (sound u) (ProcessPingRsp m) (fun _ => sound u).
Proof.
  apply triple_get_bind. intros s I. destruct (IsOwnAddress _ _); [|by apply net_same].
  destruct (map_find _ _); [|by apply net_same].
  apply triple_modify. intros st <-. by apply (sound_same u s).
Qed.

Lemma net_ProcessHelloReq u v now m socket : topology -> link v u -> message_ok v m ->
  triple u (sound u) (ProcessHelloReq now m socket) (fun _ => sound u).
Proof.
  intros T Hl [Ho _]. pose proof (tp_node T v u Hl) as [Hv Hu]. apply (tp_sym T) in Hl.
  apply triple_get_bind. intros s I. cbn zeta.
  rewrite (sound_name u s _ I), Ho, (tp_main T v Hv).
  destruct (map_find v (m_neighborTable s)) as [e0|] eqn:Hf.
  { apply triple_modify. intros st <-. apply sound_nt; [done|]. intros n e x d. rewrite map_find_update.
    case_decide; [subst n|apply I]. rewrite Hf. intros [= <-]. exact (so_nt _ _ I v e0 x d Hf). }
  eapply (triple_bind _ (fun _ => sound u)).
  { apply triple_modify. intros st <-. apply sound_nt; [done|]. intros n e x d. rewrite map_find_insert, Hf.
    case_decide; [|apply I]. by intros [= <-]. }
  intros _. eapply (triple_bind _ (fun _ => sound u)).
  { apply triple_modify. intros st J. apply sound_dv; [done|apply map_wf_insert, J|]. intros x d. rewrite map_find_insert.
    case_decide; [subst x|apply J]. destruct (map_find v (m_dv st)) eqn:E; intros [= <-]; [by apply J|].
    right. split; [lia|]. apply (walk_link u v v 0); [done|by constructor]. }
  intros _. eapply (triple_bind _ (fun _ => sound u)).
  { apply triple_modify. intros st J. apply sound_costs; [done|apply map_wf_insert, J|]. intros n c.
    rewrite map_find_insert. case_decide; [subst n|apply J].
    destruct (map_find v (m_costs st)) eqn:E; intros [= <-]; [by apply J|done]. }
  intros _. eapply (triple_bind _ (fun _ => sound u)); [by apply net_BellmanFord|].
  intros _. by apply net_SendDVTableMessage.
Qed.

Lemma net_received u v (s : DVState SR) l : sound u s ->
  (forall a d, (a, d) ∈ l -> cost_ok v (name_of a) d) ->
  forall x d, map_find x (received_dv s l) = Some d -> cost_ok v x d.
Proof.
  intros I Hl. unfold received_dv.
  assert (forall x d, map_find x (@nil (string * Z)) = Some d -> cost_ok v x d) as H0 by done.
  revert H0 Hl. generalize (@nil (string * Z)) as m. induction l as [|[a d0] l IH]; intros m Hm Hl; [exact Hm|].
  cbn [foldl fst snd]. apply IH; [|intros; apply Hl; by right].
  intros x d. rewrite map_find_set. case_decide; [subst x|apply Hm].
  intros [= <-]. rewrite (sound_name u) by done. apply Hl. left.
Qed.

Lemma net_ProcessDVTableMessage u v now m socket : topology -> link v u -> message_ok v m ->
  GetMessageType m = DV_TABLE_MSG -> triple u (sound u) (ProcessDVTableMessage now m socket) (fun _ => sound u).
Proof.
  intros T Hl [Ho Hm] Ht. pose proof (tp_node T v u Hl) as [Hv Hu].
  apply triple_get_bind. intros s I. cbn zeta. rewrite (sound_name u s _ I), Ho, (tp_main T v Hv).
  pose proof (net_received u v s _ I (Hm Ht)) as Hdv.
  eapply (triple_bind _ (fun _ => sound u)); [|intros _; by apply net_BellmanFord].
  destruct (map_find v (m_neighborTable s)) as [e0|] eqn:E; apply triple_modify; intros st <-;
    apply sound_nt; try done; intros n e x d.
  - rewrite map_find_update. case_decide; [subst n|apply I]. rewrite E. intros [= <-]. apply Hdv.
  - rewrite map_find_set. case_decide; [subst n|apply I]. intros [= <-]. apply Hdv.
Qed.

Lemma net_audit_neighbor u now i st st' : audit_neighbor now i st = Ok st' -> sound u st -> sound u st'.
Proof.
  unfold audit_neighbor. destruct (hello_expired _ _ _); [|by intros [= <-]].
  intros (c & _ & [= <-])%bind_Ok I. apply sound_nt; [apply sound_costs; [apply sound_dv; [done|..]|..]|].
  - apply map_wf_set, I.
  - intros x v. rewrite map_find_set. case_decide; [intros [= <-]; by left|apply I].
  - apply map_wf_erase, I.
  - intros n d. cbn [set_dv m_costs]. rewrite map_find_erase. case_decide; [done|apply I].
  - intros n e x d. cbn [set_dv set_costs m_neighborTable]. rewrite map_find_erase. case_decide; [done|apply I].
Qed.

Lemma net_schedule_pings u now : triple u (sound u) (schedule_audit_pings now) (fun _ => sound u).
Proof. apply triple_modifyM. intros st st' I (t & _ & [= <-])%bind_Ok. by apply (sound_same u st). Qed.

Lemma net_schedule_hellos u now : triple u (sound u) (schedule_audit_hellos now) (fun _ => sound u).
Proof. apply triple_modifyM. intros st st' I (t & _ & [= <-])%bind_Ok. by apply (sound_same u st). Qed.

Lemma net_AuditPings u now : triple u (sound u) (AuditPings now) (fun _ => sound u).
Proof.
  eapply (triple_bind _ (fun _ => sound u)); [|intros ?; apply net_schedule_pings].
  apply triple_modify. intros st I. by apply (sound_same u st).
Qed.

Lemma net_AuditHellos u now : topology -> node u -> triple u (sound u) (AuditHellos now) (fun _ => sound u).
Proof.
  intros T Hu. eapply triple_bind; [apply net_SendHello|]. intros ?. apply triple_get_bind. intros s I. cbn zeta.
  eapply (triple_bind _ (fun _ => sound u)).
  { apply triple_modifyM. intros st st' <- Hf. eapply (foldM_inv (sound u)); [|exact I|exact Hf].
    intros x b y _ Hx Hs. exact (net_audit_neighbor u now b x y Hs Hx). }
  intros ?. eapply (triple_bind _ (fun _ => sound u)); [|intros ?; apply net_schedule_hellos].
  destruct (existsb _ _); [|apply (triple_ret (fun _ => sound u))].
  apply triple_get_bind. intros s1 I1.
  eapply triple_conseq; [|intros b st H; exact H|by apply net_BellmanFord]. by intros ? <-.
Qed.

Lemma net_dump u {A} (l : DVState SR -> list A) (row : DVState SR -> A -> action DVMessage) :
  (forall s a, action_ok u (row s a)) ->
  triple u (sound u) (st ← get; for_loop (l st) (fun a => emit (row st a))) (fun _ => sound u).
Proof.
  intros Hr. apply triple_get_bind. intros s I.
  eapply (triple_conseq (sound u)); [by intros ? <-|intros a st H; exact H|].
  apply triple_for. intros a _. by apply triple_emit.
Qed.

Lemma net_ProcessCommand u now tokens : triple u (sound u) (ProcessCommand now tokens) (fun _ => sound u).
Proof.
  assert (triple u (sound u) (mret tt) (fun _ => sound u)) as Hret by apply (triple_ret (fun _ => sound u)).
  apply triple_lift_bind. intros command _. destruct (String.eqb command "PING").
  { destruct tokens as [|c [|n [|t tokens]]]; try exact Hret. apply triple_lift_bind. intros k _.
    apply triple_get_bind. intros s I. cbn zeta.
    eapply (triple_conseq (sound u)); [by intros ? <-|intros a st H; exact H|].
    destruct (negb _); [|done]. eapply triple_bind; [apply net_next_seq|]. intros seq.
    eapply (triple_bind _ (fun _ => sound u)); [apply triple_modify; intros st J; by apply (sound_same u st)|].
    intros _. apply triple_lift_bind. intros m [= <-]. apply net_broadcast. split; [apply (so_placed _ _ I)|done]. }
  destruct (String.eqb command "DUMP"); [|done].
  destruct tokens as [|c [|t tokens]]; try exact Hret.
  destruct (_ || _); [by apply net_dump|]. destruct (_ || _); [by apply net_dump|].
  destruct (String.eqb t "DV"); [|done]. apply triple_get_bind. intros s I.
  eapply (triple_conseq (sound u)); [by intros ? <-|intros a st H; exact H|]. by apply triple_emit.
Qed.

(** ** The network *)

Record network := mkNetwork {
  local : string -> DVState SR;
  sent : list (string * DVMessage)
}.

(** The messages among the actions of node [u]. *)
Definition outgoing (u : string) (out : list (action DVMessage)) : list (string * DVMessage) :=
  omap (fun o => match o with SendTo _ _ _ m => Some (u, m) | _ => None end) out.

(** Node [u] may receive what a neighbour has ever sent; its commands and
    timers are not restricted. *)
Definition can_happen (net : network) (u : string) (ev : dv_event) : Prop :=
  match ev with DvRecv _ m => exists v, (v, m) ∈ sent net /\ link v u | _ => True end.

Inductive net_step (net : network) : network -> Prop :=
| net_event u now ev st' out :
    node u -> can_happen net u ev -> run_event now ev (local net u) = Ok (tt, st', out) ->
    net_step net (mkNetwork (fun x => if decide (x = u) then st' else local net x) (sent net ++ outgoing u out)).

Inductive net_run (net : network) : network -> Prop :=
| net_run_nil : net_run net net
| net_run_snoc net' net'' : net_run net net' -> net_step net' net'' -> net_run net net''.

Definition net_sound (net : network) : Prop :=
  (forall u, node u -> sound u (local net u)) /\ (forall u m, (u, m) ∈ sent net -> message_ok u m).

Lemma net_event_sound u v now ev : topology -> node u ->
  match ev with DvRecv _ m => link v u /\ message_ok v m | _ => True end ->
  triple u (sound u) (run_event now ev) (fun _ => sound u).
Proof.
  intros T Hu Hev. destruct ev as [socket m|tokens| |]; cbn.
  - destruct Hev as [Hl Hm]. unfold RecvDVMessage. cbn zeta.
    destruct (_ =? PING_REQ); [apply net_ProcessPingReq|].
    destruct (_ =? PING_RSP); [apply net_ProcessPingRsp|].
    destruct (_ =? HELLO_REQ); [by eapply net_ProcessHelloReq|].
    destruct (Z.eqb_spec (GetMessageType m) DV_TABLE_MSG); [by eapply net_ProcessDVTableMessage|].
    apply (triple_ret (fun _ => sound u)).
  - apply net_ProcessCommand.
  - apply net_AuditPings.
  - by apply net_AuditHellos.
Qed.

Lemma net_step_sound net net' : topology -> net_sound net -> net_step net net' -> net_sound net'.
Proof.
  intros T [Hs Hm] Hstep. destruct Hstep as [u now ev st' out Hu Hev Hrun].
  assert (sound u st' /\ Forall (action_ok u) out) as [Hs' Ho].
  { destruct ev as [socket m|tokens| |]; cbn in Hev; [destruct Hev as (v & Hsent & Hl)| | |].
    - exact (net_event_sound u v now (DvRecv socket m) T Hu (conj Hl (Hm v m Hsent)) _ _ _ _ (Hs u Hu) Hrun).
    - exact (net_event_sound u u now (DvCommand tokens) T Hu I _ _ _ _ (Hs u Hu) Hrun).
    - exact (net_event_sound u u now DvPingTimer T Hu I _ _ _ _ (Hs u Hu) Hrun).
    - exact (net_event_sound u u now DvHelloTimer T Hu I _ _ _ _ (Hs u Hu) Hrun). }
  split; cbn.
  - intros x Hx. case_decide; [by subst|by apply Hs].
  - intros x m [Hin|Hin]%elem_of_app; [by apply Hm|]. unfold outgoing in Hin.
    apply list_elem_of_omap in Hin as (o & Hin & Heq). rewrite Forall_forall in Ho. apply Ho in Hin.
    destruct o; try done. by injection Heq as <- <-.
Qed.

(** Node [u] just after [DoStart]. *)
Definition initial (u : string) (st : DVState SR) : Prop :=
  placed u st /\ m_dv st = [(u, 0)] /\ m_costs st = [] /\ m_neighborTable st = [] /\ m_routingTable st = [].

Lemma initial_sound u st : node u -> initial u st -> sound u st.
Proof.
  intros Hu (Hp & Hd & Hc & Hn & Hr). split; rewrite ?Hd, ?Hc, ?Hn, ?Hr; try done.
  - apply map_wf_b_spec. reflexivity.
  - intros x v. cbn. case_decide; [subst x|done]. intros [= <-]. right. split; [lia|by constructor].
  - apply map_wf_nil.
Qed.

(** (C7) No node ever holds a cost that is too good.  On a fixed topology,
    from freshly started nodes, whatever the nodes are told and whenever their
    timers expire, with messages lost, duplicated and delivered in any order
    and at any time: every cost in a node's vector is [M_INF] or the length, at
    most 16, of a walk of the topology, so it is never less than the distance;
    and every route costs the length of a walk and leads to a neighbour from
    which the rest of that walk goes on. *)
Theorem dv_network_sound net net' u
  (T : topology) (Hinit : forall u, node u -> initial u (local net u)) (Hsent : sent net = [])
  (Hrun : net_run net net') (Hu : node u) :
  (forall x v, map_find x (m_dv (local net' u)) = Some v -> v = M_INF \/ (0 <= v <= 16 /\ walk u x v)) /\
  (forall x e, map_find x (m_routingTable (local net' u)) = Some e ->
     0 <= rt_cost e < 16 /\ walk u x (rt_cost e) /\
     (x <> u -> link u (name_of (rt_nextHopAddr e)) /\ walk (name_of (rt_nextHopAddr e)) x (rt_cost e - 1))).
Proof.
  assert (net_sound net') as [Hs _].
  { induction Hrun as [|net' net'' Hrun IH Hstep]; [|by eapply net_step_sound].
    split; [intros v Hv; by apply initial_sound; [|apply Hinit]|]. rewrite Hsent. by intros v m ?%not_elem_of_nil. }
  destruct (Hs u Hu). by split.
Qed.
End network.

(** ** Example: the line 1 - 2 - 3 *)

Definition line_nodes : list string := ["1"; "2"; "3"]%string.
Definition line_links : list (string * string) := [("1", "2"); ("2", "1"); ("2", "3"); ("3", "2")]%string.
Definition line_addr (x : string) : Ipv4Address := 0x0a000100 + u32 (atoi x).
Definition line_node (x : string) : Prop := x ∈ line_nodes.
Definition line_link (u v : string) : Prop := (u, v) ∈ line_links.

#[export] Instance line_node_dec x : Decision (line_node x).
Proof. unfold line_node. apply _. Defined.
#[export] Instance line_link_dec u v : Decision (line_link u v).
Proof. unfold line_link. apply _. Defined.

Definition line_numbers : stdmap Z Ipv4Address := [(1, 0x0a000101); (2, 0x0a000102); (3, 0x0a000103); (4, 0x0a000104)].
Definition line_names : stdmap Ipv4Address Z := [(0x0a000101, 1); (0x0a000102, 2); (0x0a000103, 3); (0x0a000104, 4)].

Lemma line_topology : topology line_node line_link line_addr line_numbers line_names.
Proof.
  split.
  - assert (Forall (fun p => p.1 ∈ line_nodes /\ p.2 ∈ line_nodes) line_links) as H by by apply (bool_decide_unpack _).
    rewrite Forall_forall in H. intros u v Huv. by apply H in Huv.
  - assert (Forall (fun p => (p.2, p.1) ∈ line_links) line_links) as H by by apply (bool_decide_unpack _).
    rewrite Forall_forall in H. intros u v Huv. by apply H in Huv.
  - apply Forall_forall. by apply (bool_decide_unpack _).
  - apply Forall_forall. by apply (bool_decide_unpack _).
Qed.

Definition line_net : network := mkNetwork
  (fun x => dv_state (line_addr x) [(x, 0)] [] []) [].

(** One event, as a function. *)
Definition play {SR} (u : string) (now : Time) (ev : dv_event) (net : network (SR := SR)) : network (SR := SR) :=
  match run_event now ev (local net u) with
  | Ok (_, st', out) => mkNetwork (fun x => if decide (x = u) then st' else local net x) (sent net ++ outgoing u out)
  | Fault _ => net
  end.

Lemma play_run {SR} node link (net0 net : network (SR := SR)) u now ev :
  net_run node link net0 net -> node u -> can_happen link net u ev ->
  is_ok (run_event now ev (local net u)) = true -> net_run node link net0 (play u now ev net).
Proof.
  intros Hrun Hu Hev Hok. eapply net_run_snoc; [exact Hrun|]. unfold play.
  destruct (run_event now ev (local net u)) as [[[[] st'] out]|] eqn:E; [|done]. by econstructor.
Qed.

(** The hello of node 1 arrives at node 2, and node 2's at node 1. *)
Definition line_hello (x : string) (seq : Z) : DVMessage :=
  mkDVMessage HELLO_REQ seq (line_addr x) 1 (mkPayload (pingReq no_payload) (pingRsp no_payload)
    (mkHelloReq GetAny "hello" 0) (dvTableMsg no_payload)).
Definition line_net1 : network := play "1" (dv_ms 10) DvHelloTimer line_net.
Definition line_net2 : network := play "2" (dv_ms 11) (DvRecv 100 (line_hello "1" 40)) line_net1.

Lemma dv_network_sound_witness :
  map_find "1"%string (m_dv (local line_net2 "2")) = Some 1 /\ walk line_node line_link "2" "1" 1.
Proof.
  split; [reflexivity|].
  destruct (dv_network_sound line_node line_link line_addr line_numbers line_names line_net line_net2 "2") as [H _].
  - apply line_topology.
  - intros u Hu. repeat split.
  - reflexivity.
  - unfold line_net2. apply play_run; [unfold line_net1; apply play_run|..].
    + apply net_run_nil.
    + by apply (bool_decide_unpack _).
    + exact I.
    + reflexivity.
    + by apply (bool_decide_unpack _).
    + exists "1"%string. split; [|unfold line_link, line_links; left].
      change (("1"%string, line_hello "1" 40) ∈ sent line_net1). left.
    + reflexivity.
  - by apply (bool_decide_unpack _).
  - destruct (H "1"%string 1) as [H1|[_ H1]]; [reflexivity|discriminate|exact H1].
Defined.
