(* ===== verification/DVConverge.v ===== *)
(** * DVConverge: the distance-vector protocol finds the distances

    On a fixed topology whose nodes know their neighbours, rounds of vector
    exchanges make every cost the distance: after [k] rounds those up to [k]
    are right, up to the protocol's limit of 16. *)

From S2P Require Import Prelude StdMap StdString Ipv4Address Codec DVMessage Node Triple DVRouting DVBellmanFord DVProtocol DVInvariant DVNetwork.

(** One vector on its way: from a node to a neighbour, the time it arrives and
    the socket it arrives on. *)
Record delivery := mkDelivery {
  dl_from : string;
  dl_to : string;
  dl_now : Time;
  dl_socket : SocketPtr
}.

Notation net_map SR := (string -> DVState SR).

(** The current vector of one node, as [SendDVTableMessage] advertises it, is
    handled by the other. *)
Definition exchange {SR} (net : net_map SR) (d : delivery) : result (net_map SR) :=
  let a := net (dl_from d) in
  nte ← map_find (dl_to d) (m_neighborTable a) ?? DerefEnd;
  '(_, b, _) ← RecvDVMessage (dl_now d) (dl_socket d) (vector_message a (advert a nte)) (net (dl_to d));
  Ok (fun x => if decide (x = dl_to d) then b else net x).

Definition run_rounds {SR} (rounds : list (list delivery)) (net : net_map SR) : result (net_map SR) :=
  foldM (foldM exchange) net rounds.

(** The nodes a packet for [dest] visits from [u] on, forwarded along the
    routing tables as RouteInput does; [None]: no route, or more than [fuel]
    hops. *)
Fixpoint dv_forward {SR} (net : net_map SR) (fuel : nat) (u : string) (dest : Ipv4Address) : option (list string) :=
  if String.eqb (ReverseLookup (net u) dest) u then Some [u] else
  match fuel with
  | O => None
  | S fuel' =>
      match SearchTable (net u) dest with
      | None => None
      | Some e =>
          match dv_forward net fuel' (ReverseLookup (net u) (rt_nextHopAddr e)) dest with
          | Some hops => Some (u :: hops)
          | None => None
          end
      end
  end.

Section converge.
Context {SR : Type}.
Context (node : string -> Prop) (link : string -> string -> Prop) (addr : string -> Ipv4Address).
Context (nodeAddressMap : stdmap Z Ipv4Address) (addressNodeMap : stdmap Ipv4Address Z).

Notation topology := (topology node link addr nodeAddressMap addressNodeMap).
Notation walk := (walk node link).
Notation name_of := (name_of addressNodeMap).
Notation placed := (placed addr nodeAddressMap addressNodeMap).
Notation cost_ok := (cost_ok node link).
Notation sound := (sound node link addr nodeAddressMap addressNodeMap).

(** [n] is the distance from [u] to [x]. *)
Definition dist (u x : string) (n : Z) : Prop := walk u x n /\ forall m, walk u x m -> n <= m.

Lemma dist_self u n : node u -> dist u u n -> n = 0.
Proof.
  intros Hu [Hw Hmin]. apply walk_nonneg in Hw. specialize (Hmin 0 (walk_here _ _ u Hu)). lia.
Qed.

Lemma dist_0 u x : dist u x 0 -> x = u.
Proof. intros [Hw _]. inversion Hw as [|? v ? n Hl Hw' Hn]; [done|]. apply walk_nonneg in Hw'. lia. Qed.

(** The first link of a shortest walk. *)
Lemma dist_step u x n : x <> u -> dist u x n -> exists w, link u w /\ dist w x (n - 1) /\ 1 <= n.
Proof.
  intros Hne [Hw Hmin]. destruct Hw as [|u w x n Hl Hw]; [done|]. exists w. split; [done|].
  pose proof (walk_nonneg _ _ _ _ _ Hw). replace (n + 1 - 1) with n by lia. split; [|lia]. split; [done|].
  intros m Hm. specialize (Hmin (m + 1) (walk_link _ _ u w x m Hl Hm)). lia.
Qed.

(** Node [v] when it has heard the hellos of the neighbours [heard]. *)
Record linked (heard : string -> Prop) (v : string) (st : DVState SR) : Prop := {
  rd_sound : sound v st;
  rd_broadcast : broadcast_ok st;
  rd_self : map_find v (m_dv st) = Some 0;
  rd_names x : is_Some (map_find x (m_dv st)) -> node x;
  rd_links u : heard u -> link v u /\ map_find u (m_costs st) = Some 1 /\
    exists e, map_find u (m_neighborTable st) = Some e /\ nt_neighborAddr e = addr u;
  rd_costs u c : map_find u (m_costs st) = Some c -> heard u;
  rd_table u : link v u -> is_Some (map_find u (m_neighborTable st)) -> heard u
}.

(** ... and has every destination they told it of in its vector. *)
Definition known (heard : string -> Prop) (st : DVState SR) (dv : stdmap string Z) : Prop :=
  forall u e x, heard u -> map_find u (m_neighborTable st) = Some e -> is_Some (map_find x (nt_dv e)) ->
    is_Some (map_find x dv).

Definition acquainted (heard : string -> Prop) (v : string) (st : DVState SR) : Prop :=
  linked heard v st /\ known heard st (m_dv st).

(** Node [v], once it knows all its neighbours. *)
Definition ready (v : string) (st : DVState SR) : Prop := acquainted (link v) v st.

(** The vector stored for [u] at [v] has [u]'s distances below [m] (and below
    16), but to [v] itself, which may be poisoned. *)
Definition stored_from (m : Z) (u v : string) (st : DVState SR) : Prop :=
  forall e x i, map_find u (m_neighborTable st) = Some e -> x <> v -> dist u x i -> i < m -> i < 16 ->
    map_find x (nt_dv e) = Some i.

(** Node [v] has its distances up to [m] (and up to 16), and routes to the
    nodes nearer than 16. *)
Definition exact (m : Z) (v : string) (st : DVState SR) : Prop :=
  forall x j, dist v x j -> j <= m -> j <= 16 -> map_find x (m_dv st) = Some j /\
    (x <> v -> j < 16 -> exists e, map_find x (m_routingTable st) = Some e /\ rt_cost e = j /\
       link v (name_of (rt_nextHopAddr e)) /\ dist (name_of (rt_nextHopAddr e)) x (j - 1)).

Lemma linked_costs_ok heard v st : topology -> linked heard v st -> costs_ok st.
Proof.
  intros T R n c Hin. pose proof (rd_sound _ _ _ R) as I.
  apply map_elem_find in Hin; [|apply I]. apply (rd_costs _ _ _ R) in Hin as Hh.
  destruct (rd_links _ _ _ R n Hh) as (Hl & _ & e & He & _). split; [by eexists|].
  rewrite (placed_name addr nodeAddressMap addressNodeMap v) by apply I.
  rewrite (placed_resolve addr nodeAddressMap addressNodeMap v) by apply I.
  apply (tp_resolve _ _ _ _ _ T), (tp_node _ _ _ _ _ T v n Hl).
Qed.

(** What [BellmanFord] computes from stored distances. *)
Lemma computed_exact m v st ndv dv rt :
  topology -> node v -> linked (link v) v st -> known (link v) st (dv_before st ndv) ->
  (forall u, link v u -> stored_from m u v st) -> computed st ndv dv rt ->
  forall x j, dist v x j -> j <= m -> j <= 16 -> map_find x dv = Some j /\
    (x <> v -> j < 16 -> exists e, map_find x rt = Some e /\ rt_cost e = j /\
       link v (name_of (rt_nextHopAddr e)) /\ dist (name_of (rt_nextHopAddr e)) x (j - 1)).
Proof.
  intros T Hv R Hk Hst Hcomp x j Hd Hm H16. pose proof (rd_sound _ _ _ R) as I.
  specialize (Hcomp x).
  assert (this_node st = v) as Hthis by by eapply sound_self.
  destruct (decide (x = v)) as [->|Hne].
  { unfold dv_before in Hcomp. rewrite add_unknown_find, (rd_self _ _ _ R) in Hcomp. unfold dest_result in Hcomp. rewrite decide_True in Hcomp by done.
    destruct Hcomp as [-> _]. split; [|done]. by apply dist_self in Hd as ->. }
  destruct (dist_step v x j Hne Hd) as (w & Hl & Hdw & Hj).
  destruct (rd_links _ _ _ R w Hl) as (_ & Hc & e & He & _).
  assert (map_find x (nt_dv e) = Some (j - 1)) as Hw by by (eapply (Hst w Hl); [done|done|done|lia|lia]).
  destruct (Hk w e x Hl He) as [old Hold]; [by rewrite Hw|]. rewrite Hold in Hcomp.
  unfold dest_result in Hcomp. rewrite decide_False in Hcomp by congruence.
  destruct Hcomp as (b & n & [Hmin Hbest] & -> & Hrt).
  assert (via 1 (j - 1) = j) as Hvia by (rewrite via_small by (unfold M_INF, INT_MAX; lia); lia).
  assert (b <= j) as Hle.
  { rewrite <- Hvia. apply (Hmin w). exists 1, e, (j - 1). by split_and!; [apply map_find_elem|..]. }
  destruct Hbest as [[-> _]|[_ (c & e' & d & Hin & He' & Hd' & Hb)]]; [unfold M_INF, INT_MAX in *; lia|].
  apply map_elem_find in Hin; [|apply I]. destruct (so_costs _ _ _ _ _ _ _ I n c Hin) as [-> Hln].
  assert (walk n x (b - 1) /\ b = j) as [Hwn ->].
  { destruct (so_nt _ _ _ _ _ _ _ I n e' x d He' Hd') as [->|[Hd16 Hwd]].
    - rewrite via_M_INF in Hb by (unfold M_INF, INT_MAX; lia). unfold M_INF, INT_MAX in *; lia.
    - rewrite via_small in Hb by (unfold M_INF, INT_MAX; lia). subst b.
      replace (1 + d - 1) with d by lia. split; [done|].
      pose proof (proj2 Hd (d + 1) (walk_link _ _ v n x d Hln Hwd)). lia. }
  replace (j <=? 16) with true by lia. split; [done|]. intros _ Hj16.
  replace (j <? 16) with true in Hrt by lia. destruct Hrt as (nte & Hn & ->).
  eexists; split; [done|]. cbn. split; [done|].
  assert (name_of (resolve_name st n) = n) as ->.
  { rewrite (placed_resolve addr nodeAddressMap addressNodeMap v) by apply I.
    apply (tp_resolve _ _ _ _ _ T), (tp_node _ _ _ _ _ T v n Hln). }
  split; [done|]. split; [done|]. intros q Hq.
  pose proof (proj2 Hd (q + 1) (walk_link _ _ v n x q Hln Hq)). lia.
Qed.

Lemma dest_result_Some (st : DVState SR) k old v r : dest_result st k old v r -> is_Some v.
Proof.
  unfold dest_result. case_decide; [intros [-> _]; by eexists|]. intros (b & n & _ & -> & _). by eexists.
Qed.

Lemma dv_before_Some (st : DVState SR) ndv x :
  is_Some (map_find x (dv_before st ndv)) <-> is_Some (map_find x (m_dv st)) \/ is_Some (map_find x ndv).
Proof.
  unfold dv_before. rewrite add_unknown_find, (map_find_is_Some x ndv).
  destruct (map_find x (m_dv st)); [naive_solver|]. case_decide; [naive_solver|]. split; [by intros []|].
  intros [[]|?]; done.
Qed.

Lemma computed_keys (st : DVState SR) ndv dv rt x : computed st ndv dv rt ->
  is_Some (map_find x dv) <-> is_Some (map_find x (dv_before st ndv)).
Proof.
  intros Hc. specialize (Hc x). destruct (map_find x (dv_before st ndv)).
  - apply dest_result_Some in Hc. split; [by eexists|done].
  - destruct Hc as [-> _]. done.
Qed.

(** The poisoned cost is that of the receiver to itself. *)
Lemma advertised_other u v (a : DVState SR) nte x d : topology -> node x -> node v -> sound u a ->
  nt_neighborAddr nte = addr v -> x <> v -> advertised_cost a nte x d = d.
Proof.
  intros T Hx Hv I Hn Hne. unfold advertised_cost.
  destruct (Z.eqb_spec (resolve_name a x) (nt_neighborAddr nte)) as [E|]; [|done].
  destruct Hne. rewrite (placed_resolve addr nodeAddressMap addressNodeMap u) in E by apply I.
  rewrite <- (tp_resolve _ _ _ _ _ T x Hx), E, Hn. by apply (tp_main _ _ _ _ _ T).
Qed.

(** A node stays acquainted when only [BellmanFord] has run. *)
Lemma acquainted_computed (heard : string -> Prop) v st1 ndv st' :
  topology -> node v -> linked heard v st1 -> known heard st1 (dv_before st1 ndv) ->
  (forall x, is_Some (map_find x ndv) -> node x) ->
  computed st1 ndv (m_dv st') (m_routingTable st') -> same_node st1 st' ->
  m_neighborTable st' = m_neighborTable st1 -> sound v st' -> acquainted heard v st'.
Proof.
  intros T Hv L K Hndv Hcomp (S1 & S2 & S3 & S4 & S5) Hnt I. split; [split|].
  - done.
  - unfold broadcast_ok. rewrite S1. apply L.
  - specialize (Hcomp v). assert (this_node st1 = v) as Hthis by (eapply sound_self; [done|done|apply L]).
    unfold dv_before in Hcomp. rewrite add_unknown_find, (rd_self _ _ _ L) in Hcomp.
    unfold dest_result in Hcomp. rewrite decide_True in Hcomp by done. apply Hcomp.
  - intros x. rewrite (computed_keys _ _ _ _ x Hcomp), dv_before_Some. intros [Hx|Hx]; [by apply L|by apply Hndv].
  - intros w Hw. rewrite S5, Hnt. by apply L.
  - intros w c. rewrite S5. apply L.
  - intros w. rewrite Hnt. apply L.
  - intros w e x Hw. rewrite Hnt. intros H1 H2. rewrite (computed_keys _ _ _ _ x Hcomp). by eapply K.
Qed.

(** A new vector from a heard neighbour [u] with its old address. *)
Section heard_vector.
Context (heard : string -> Prop) (u v : string) (st : DVState SR) (nt : stdmap string NeighborTableEntry) (e e0 : NeighborTableEntry).
Context (Hu : heard u) (He : map_find u nt = Some e) (He0 : map_find u (m_neighborTable st) = Some e0).
Context (Hoth : forall w, w <> u -> map_find w nt = map_find w (m_neighborTable st)).

Lemma linked_vector : linked heard v st -> nt_neighborAddr e = nt_neighborAddr e0 ->
  (forall x d, map_find x (nt_dv e) = Some d -> cost_ok u x d) -> linked heard v (set_neighborTable nt st).
Proof.
  intros L Ha Hd. split; [|apply L|apply L|apply L| |apply L|].
  - apply sound_nt; [apply L|]. intros n e1 x d. destruct (decide (n = u)) as [->|Hne].
    + rewrite He. intros [= <-]. apply Hd.
    + rewrite Hoth by done. by apply (so_nt _ _ _ _ _ _ _ (rd_sound _ _ _ L)).
  - intros w Hw. destruct (rd_links _ _ _ L w Hw) as (Hlw & Hc & e1 & He1 & Ha1). do 2 (split; [done|]).
    cbn [set_neighborTable m_neighborTable]. destruct (decide (w = u)) as [->|Hne].
    + exists e. split; [done|]. congruence.
    + exists e1. by rewrite Hoth.
  - intros w Hw. cbn [set_neighborTable m_neighborTable]. destruct (decide (w = u)) as [->|Hne]; [done|].
    rewrite Hoth by done. by apply L.
Qed.

Lemma known_vector : known heard st (m_dv st) -> known heard (set_neighborTable nt st) (dv_before (set_neighborTable nt st) (nt_dv e)).
Proof.
  intros K w e1 x Hw. cbn [set_neighborTable m_neighborTable]. rewrite dv_before_Some. destruct (decide (w = u)) as [->|Hne].
  - rewrite He. intros [= <-]. by right.
  - rewrite Hoth by done. intros H1 H2. left. by eapply K.
Qed.
End heard_vector.

(** One delivery between nodes that have heard each other. *)
Lemma exchange_spec heard net u v now socket :
  topology -> (forall v, node v -> acquainted (heard v) v (net v)) -> node u -> node v -> heard v u -> heard u v ->
  exists b st1 ndv, exchange net (mkDelivery u v now socket) = Ok (fun x => if decide (x = v) then b else net x) /\
    acquainted (heard v) v b /\ linked (heard v) v st1 /\ known (heard v) st1 (dv_before st1 ndv) /\
    computed st1 ndv (m_dv b) (m_routingTable b) /\ m_neighborTable st1 = m_neighborTable b /\
    (exists e, map_find u (m_neighborTable b) = Some e /\
       forall x, x <> v -> map_find x (nt_dv e) = map_find x (m_dv (net u))) /\
    (forall w, w <> u -> map_find w (m_neighborTable b) = map_find w (m_neighborTable (net v))).
Proof.
  intros T Hready Hu Hv Hvu Huv.
  destruct (Hready u Hu) as [Ra Ka], (Hready v Hv) as [Rb Kb].
  destruct (rd_links _ _ _ Ra v Huv) as (Hl & _ & nte & Hnte & Hntea).
  pose proof (rd_sound _ _ _ Ra) as Ia. pose proof (rd_sound _ _ _ Rb) as Ib.
  assert (forall x, ReverseLookup (net v) x = name_of x) as Hname by (intros x; by eapply placed_name, so_placed).
  assert (forall x, resolve_name (net u) x = addr_of nodeAddressMap x) as Hres
    by (intros x; by eapply placed_resolve, so_placed).
  destruct (exchange_run (net u) (net v) nte now socket) as
    (nt & b & out & e & Hrun & He & Hed & Hdv & Hold & Hoth & Hnt & Hwf & Hcomp & Hsame).
  { apply Ia. }
  { intros x Hx. rewrite Hname, Hres. apply (tp_resolve _ _ _ _ _ T), (rd_names _ _ _ Ra), map_find_is_Some, Hx. }
  { by eapply linked_costs_ok. }
  { apply Ib. }
  { apply Rb. }
  assert (ReverseLookup (net v) (m_mainAddress (net u)) = u) as Hfrom.
  { rewrite Hname. destruct (so_placed _ _ _ _ _ _ _ Ia) as (-> & _). by apply (tp_main _ _ _ _ _ T). }
  rewrite Hfrom in *. set (ndv := received_dv (net v) (advert (net u) nte)) in *.
  set (st1 := set_neighborTable nt (net v)) in *.
  destruct (rd_links _ _ _ Rb u Hvu) as (_ & _ & e0 & He0 & He0a).
  rewrite He0 in Hold. destruct Hold as [_ Hold].
  assert (forall x, is_Some (map_find x ndv) -> is_Some (map_find x (m_dv (net u)))) as Hndv.
  { intros x. rewrite Hdv. by destruct (map_find x (m_dv (net u))). }
  assert (linked (heard v) v st1) as L1.
  { eapply linked_vector; [done..|congruence|]. rewrite Hed. intros x d. rewrite Hdv.
    destruct (map_find x (m_dv (net u))) as [d0|] eqn:E; [|done].
    intros [= <-]. unfold advertised_cost. case_match; [by left|]. by apply (so_dv _ _ _ _ _ _ _ Ia). }
  assert (known (heard v) st1 (dv_before st1 ndv)) as K1 by (rewrite <- Hed; by eapply known_vector).
  assert (acquainted (heard v) v b) as R1.
  { eapply acquainted_computed; [done..| |exact Hcomp|by apply Hsame|done|].
    - intros x Hx. by apply (rd_names _ _ _ Ra), Hndv.
    - assert (message_ok node link addr addressNodeMap u (vector_message (net u) (advert (net u) nte))) as Hm.
      { split; [apply (so_placed _ _ _ _ _ _ _ Ia)|]. intros _ a d Ha.
        eapply (net_advertised node link addr nodeAddressMap addressNodeMap u (net u) v); [done|done| |exact Ha].
        by apply advertised_eq. }
      exact (proj1 (net_event_sound node link addr nodeAddressMap addressNodeMap v u now
        (DvRecv socket _) T Hv (conj Hl Hm) _ _ _ _ Ib Hrun)). }
  exists b, st1, ndv. split_and!; [|done..|by rewrite Hnt| |].
  - unfold exchange. cbn [dl_from dl_to dl_now dl_socket]. rewrite Hnte. cbn [or_fault mbind result_bind].
    by rewrite Hrun.
  - exists e. rewrite Hnt. split; [done|]. intros x Hx. rewrite Hed, Hdv.
    destruct (map_find x (m_dv (net u))) as [d|] eqn:E; [|done]. cbn. f_equal.
    eapply (advertised_other u v); try done. apply (rd_names _ _ _ Ra). by eexists.
  - intros w Hw. rewrite Hnt. by apply Hoth.
Qed.

(** ** Rounds *)

Lemma stored_mono m m' u v (st : DVState SR) : m' <= m -> stored_from m u v st -> stored_from m' u v st.
Proof. intros Hm H e x i He Hx Hd Hi. apply H; [done..|lia]. Qed.

Lemma stored_same m u v (st st' : DVState SR) :
  map_find u (m_neighborTable st') = map_find u (m_neighborTable st) ->
  stored_from m u v st -> stored_from m u v st'.
Proof. intros E H e x i. rewrite E. apply H. Qed.

(** During round [k + 1], when the links of [D] have delivered. *)
Record progress (k : Z) (D : string -> string -> Prop) (net : net_map SR) (v : string) : Prop := {
  pr_stored u : link u v -> stored_from k u v (net v);
  pr_exact : exact k v (net v);
  pr_fresh u : link u v -> D u v -> stored_from (k + 1) u v (net v);
  pr_next : (forall u, link u v -> D u v) -> exact (k + 1) v (net v)
}.

Definition in_round (k : Z) (D : string -> string -> Prop) (net : net_map SR) : Prop :=
  forall v, node v -> ready v (net v) /\ progress k D net v.

Lemma exchange_progress k D net u v now socket :
  topology -> link u v -> in_round k D net ->
  exists net', exchange net (mkDelivery u v now socket) = Ok net' /\
    in_round k (fun a b => (a = u /\ b = v) \/ D a b) net'.
Proof.
  intros T Hl HI. destruct (tp_node _ _ _ _ _ T u v Hl) as [Hu Hv].
  destruct (exchange_spec link net u v now socket)
    as (b & st1 & ndv & -> & Rb & L1 & K1 & Hcomp & Hnt & (e & He & Hdv) & Hoth);
    [done|by intros w Hw; apply HI|done|done|by apply (tp_sym _ _ _ _ _ T)|done|].
  eexists; split; [done|]. intros x Hx.
  assert (forall st' : DVState SR, (if decide (x = v) then b else net x) = st' ->
    ready x st' /\ progress k (fun a b => (a = u /\ b = v) \/ D a b) (fun _ => st') x) as Hgoal.
  2: { destruct (Hgoal _ eq_refl) as [G0 [G1 G2 G3 G4]]. by split; [|split]. }
  intros st' <-. destruct (decide (x = v)) as [->|Hxv].
  2: { destruct (HI x Hx) as [Rx [P1 P2 P3 P4]]. split; [done|].
    split; try done.
    - intros w Hw [[_ ?]|HD]; [done|by apply P3].
    - intros Hall. apply P4. intros w Hw. destruct (Hall w Hw) as [[_ ?]|?]; done. }
  destruct (HI v Hv) as [_ P]. destruct (HI u Hu) as [_ Pu].
  assert (forall w, link w v -> (w = u \/ D w v) -> stored_from (k + 1) w v b) as Hfresh.
  { intros w Hw HD. destruct (decide (w = u)) as [->|Hne].
    - intros e1 y i. rewrite He. intros [= <-] Hy Hd Hi Hi16. rewrite Hdv by done.
      apply (pr_exact _ _ _ _ Pu y i); [done|lia|lia].
    - eapply stored_same; [by apply Hoth|]. apply P; [done|]. by destruct HD. }
  assert (forall w, link w v -> stored_from k w v b) as Hstored.
  { intros w Hw. destruct (decide (w = u)) as [->|Hne].
    - eapply (stored_mono (k + 1)); [lia|]. apply Hfresh; [done|by left].
    - eapply stored_same; [by apply Hoth|]. by apply P. }
  assert (forall m, (forall w, link w v -> stored_from m w v b) -> exact m v b) as Hexact.
  { intros m Hm. refine (computed_exact m v st1 ndv _ _ T Hv L1 K1 _ Hcomp). intros w Hw.
    eapply stored_same; [by rewrite Hnt|]. by apply Hm, (tp_sym _ _ _ _ _ T). }
  split; [done|]. split; [done|by apply Hexact|..].
  - intros w Hw HD. apply Hfresh; [done|]. destruct HD as [[-> _]|]; [by left|by right].
  - intros Hall. apply Hexact. intros w Hw. apply Hfresh; [done|].
    destruct (Hall w Hw) as [[-> _]|]; [by left|by right].
Qed.

Lemma deliveries_progress k ds D net :
  topology -> Forall (fun d => link (dl_from d) (dl_to d)) ds -> in_round k D net ->
  exists net', foldM exchange net ds = Ok net' /\
    in_round k (fun a b => D a b \/ exists d, d ∈ ds /\ a = dl_from d /\ b = dl_to d) net'.
Proof.
  intros T Hds. revert D net. induction Hds as [|[u v now socket] ds Hl _ IH]; intros D net HI.
  - exists net. split; [done|]. intros v Hv. destruct (HI v Hv) as [R [P1 P2 P3 P4]]. split; [done|]. split; try done.
    + intros w Hw [HD|(d & Hd & _)]; [by apply P3|by apply not_elem_of_nil in Hd].
    + intros Hall. apply P4. intros w Hw. destruct (Hall w Hw) as [HD|(d & Hd & _)]; [done|by apply not_elem_of_nil in Hd].
  - destruct (exchange_progress k D net u v now socket T Hl HI) as (net1 & H1 & I1).
    destruct (IH _ net1 I1) as (net' & H2 & I2). exists net'. cbn [foldM]. rewrite H1. cbn [mbind result_bind].
    split; [done|]. intros w Hw. destruct (I2 w Hw) as [R [P1 P2 P3 P4]]. split; [done|]. split; try done.
    + intros a Ha HD. apply P3; [done|]. destruct HD as [HD|(d & [->|Hd]%elem_of_cons & Hf & Ht)]; [naive_solver..|].
      right. eauto.
    + intros Hall. apply P4. intros a Ha. destruct (Hall a Ha) as [HD|(d & [->|Hd]%elem_of_cons & Hf & Ht)];
        [naive_solver..|]. right. eauto.
Qed.

(** Every link delivers, and nothing else does. *)
Definition full_round (ds : list delivery) : Prop :=
  Forall (fun d => link (dl_from d) (dl_to d)) ds /\
  forall u v, link u v -> exists d, d ∈ ds /\ u = dl_from d /\ v = dl_to d.

Lemma round_progress k ds net :
  topology -> full_round ds -> 0 <= k -> in_round k (fun _ _ => False) net ->
  exists net', foldM exchange net ds = Ok net' /\ in_round (k + 1) (fun _ _ => False) net'.
Proof.
  intros T [Hds Hall] Hk HI. destruct (deliveries_progress k ds _ net T Hds HI) as (net' & H & I').
  exists net'. split; [done|]. intros v Hv. destruct (I' v Hv) as [R P]. split; [done|].
  assert (exact (k + 1) v (net' v)) as Hex by (apply P; intros u Hu; right; by apply Hall).
  split; [|done|done|].
  - intros u Hu. apply P; [done|]. right. by apply Hall.
  - intros Hno x j Hd Hj H16. destruct (decide (x = v)) as [->|Hne].
    + apply dist_self in Hd as Hd0; [|done]. subst j. apply Hex; [done|lia|lia].
    + destruct (dist_step v x j Hne Hd) as (w & Hw & _). by destruct (Hno w (tp_sym _ _ _ _ _ T v w Hw)).
Qed.

Lemma ready_start net : topology -> (forall v, node v -> ready v (net v)) -> in_round 0 (fun _ _ => False) net.
Proof.
  intros T HR v Hv. split; [by apply HR|]. split; [| |done|].
  - intros u _ e x i _ _ [Hw _] Hi. apply walk_nonneg in Hw. lia.
  - intros x j Hd Hj _. pose proof (walk_nonneg _ _ _ _ _ (proj1 Hd)).
    assert (j = 0) as -> by lia. apply dist_0 in Hd as ->. split; [apply (HR v Hv)|done].
  - intros Hno x j Hd _ _. destruct (decide (x = v)) as [->|Hne].
    + apply dist_self in Hd as ->; [|done]. split; [apply (HR v Hv)|done].
    + destruct (dist_step v x j Hne Hd) as (w & Hw & _). by destruct (Hno w (tp_sym _ _ _ _ _ T v w Hw)).
Qed.

Lemma rounds_progress rounds net k :
  topology -> Forall full_round rounds -> 0 <= k -> in_round k (fun _ _ => False) net ->
  exists net', run_rounds rounds net = Ok net' /\
    in_round (k + Z.of_nat (length rounds)) (fun _ _ => False) net'.
Proof.
  intros T Hrounds. revert net k. induction Hrounds as [|ds rounds Hd _ IH]; intros net k Hk HI.
  - exists net. cbn. by rewrite Z.add_0_r.
  - destruct (round_progress k ds net T Hd Hk HI) as (net1 & H1 & I1).
    destruct (IH net1 (k + 1)) as (net' & H2 & I2); [lia|done|]. exists net'. unfold run_rounds in *.
    cbn [foldM length]. rewrite H1. split; [exact H2|].
    by replace (k + Z.of_nat (S (length rounds))) with (k + 1 + Z.of_nat (length rounds)) by lia.
Qed.

(** (C5) The protocol converges.  On a fixed topology whose nodes have heard
    the hellos of all their neighbours ([ready]; what they hold otherwise may
    be any costs of real walks), let every link, in both directions, deliver
    the sender's current vector once or more per round, in any order.  No
    delivery faults, and after [k] rounds every node's cost for every node at
    distance [n <= k] (up to 16, the protocol's limit) is exactly [n]; below 16
    it also has a route of that cost, over a neighbour that is one link nearer.
    What lies further away, or cannot be reached, has the length of a walk or
    [M_INF]. *)
Theorem dv_converges (net : net_map SR) rounds
  (T : topology) (Hready : forall v, node v -> ready v (net v)) (Hrounds : Forall full_round rounds) :
  exists net', run_rounds rounds net = Ok net' /\
  forall v, node v ->
    (forall x n, dist v x n -> n <= Z.of_nat (length rounds) -> n <= 16 ->
       map_find x (m_dv (net' v)) = Some n /\
       (x <> v -> n < 16 -> exists e, map_find x (m_routingTable (net' v)) = Some e /\ rt_cost e = n /\
          link v (name_of (rt_nextHopAddr e)) /\ dist (name_of (rt_nextHopAddr e)) x (n - 1))) /\
    (forall x c, map_find x (m_dv (net' v)) = Some c -> c = M_INF \/ (0 <= c <= 16 /\ walk v x c)).
Proof.
  destruct (rounds_progress rounds net 0) as (net' & Hrun & HI); [done|done|lia|by apply ready_start|].
  exists net'. split; [exact Hrun|]. intros v Hv. destruct (HI v Hv) as [[R _] P]. split.
  - intros x n Hd Hn H16. by apply P.
  - intros x c Hc. by apply (so_dv _ _ _ _ _ _ _ (rd_sound _ _ _ R)).
Qed.

Lemma dist_unique u x n m : dist u x n -> dist u x m -> n = m.
Proof. intros [H1 H2] [H3 H4]. apply H2 in H3 as ?. apply H4 in H1 as ?. lia. Qed.

Lemma dv_forward_ok (net : net_map SR) m dest x n u :
  topology -> (forall v, node v -> placed v (net v) /\ exact m v (net v)) -> name_of dest = x ->
  node u -> dist u x (Z.of_nat n) -> Z.of_nat n <= m -> Z.of_nat n < 16 ->
  exists tl, dv_forward net n u dest = Some (u :: tl) /\ last (u :: tl) = Some x /\ length tl = n /\
    NoDup (u :: tl) /\ Forall (fun v => exists k, dist v x k /\ k < Z.of_nat n) tl.
Proof.
  intros T Hnet Hname. revert u. induction n as [|n IH]; intros u Hu Hd Hm H16; destruct (Hnet u Hu) as [Hp Hex];
    cbn [dv_forward]; rewrite (placed_name addr nodeAddressMap addressNodeMap u _ dest Hp), Hname;
    destruct (String.eqb_spec x u) as [->|Hne].
  1: exists []; split_and!; [done|done|done|apply NoDup_singleton|constructor].
  - apply dist_0 in Hd. congruence.
  - apply dist_self in Hd; [lia|done].
  - destruct (Hex x _ Hd) as [_ Hrt]; [lia|lia|]. destruct Hrt as (e & He & _ & Hl & Hdn); [congruence|lia|].
    unfold SearchTable. rewrite (placed_name addr nodeAddressMap addressNodeMap u _ dest Hp), Hname, He.
    rewrite (placed_name addr nodeAddressMap addressNodeMap u _ _ Hp).
    set (nh := name_of (rt_nextHopAddr e)) in *.
    replace (Z.of_nat (S n) - 1) with (Z.of_nat n) in Hdn by lia.
    destruct (IH nh) as (tl & -> & Hlast & Hlen & Hnd & Hall); [by apply (tp_node _ _ _ _ _ T u)|done|lia|lia|].
    assert (Forall (fun v => exists k, dist v x k /\ k < Z.of_nat (S n)) (nh :: tl)) as Hall'.
    { constructor; [exists (Z.of_nat n); split; [done|lia]|]. eapply Forall_impl; [exact Hall|].
      intros v (k & Hk & Hlt). exists k. split; [done|lia]. }
    exists (nh :: tl). split_and!; [done|exact Hlast|cbn; lia| |exact Hall'].
    constructor; [|done]. rewrite Forall_forall in Hall'. intros Hin. destruct (Hall' u Hin) as (k & Hk & Hlt).
    pose proof (dist_unique _ _ _ _ Hd Hk). lia.
Qed.

(** (C15) Converged distance-vector routes deliver.  Once every node has its
    distances up to [m], with routes to match (the state [dv_converges] ends
    in), a packet from any node for any address of a node [x] at distance
    [n <= m] below 16 reaches [x] over exactly [n] links, a shortest way,
    without visiting a node twice. *)
Theorem dv_forwarding_delivers (net : net_map SR) m dest x n u
  (T : topology) (Hnet : forall v, node v -> placed v (net v) /\ exact m v (net v)) (Hname : name_of dest = x)
  (Hu : node u) (Hd : dist u x (Z.of_nat n)) (Hm : Z.of_nat n <= m) (H16 : Z.of_nat n < 16) :
  exists hops, dv_forward net n u dest = Some hops /\ length hops = S n /\
    head hops = Some u /\ last hops = Some x /\ NoDup hops.
Proof.
  destruct (dv_forward_ok net m dest x n u T Hnet Hname Hu Hd Hm H16) as (tl & H1 & H2 & H3 & H4 & _).
  exists (u :: tl). split_and!; [done|by cbn; rewrite H3|done..].
Qed.
End converge.

(** ** Example: the line 1 - 2 - 3 *)

Definition line_nt (x : string) (l : list string) : stdmap string NeighborTableEntry :=
  map (fun y => (y, mkNT (line_addr y) (line_addr x) 0 [])) l.
Definition line_neighbors (x : string) : list string :=
  if decide (x = "2"%string) then ["1"; "3"]%string else ["2"]%string.
Definition line_ready (x : string) : DVState unit :=
  let dv := if decide (x = "2"%string) then [("1", 1); ("2", 0); ("3", 1)]%string
    else if decide (x = "1"%string) then [("1", 0); ("2", 1)]%string else [("2", 1); ("3", 0)]%string in
  dv_state (line_addr x) dv (map (fun y => (y, 1)) (line_neighbors x)) (line_nt x (line_neighbors x)).
Definition line_round : list delivery := map (fun p => mkDelivery p.1 p.2 0 100) line_links.

Lemma line_cases x : line_node x -> x = "1"%string \/ x = "2"%string \/ x = "3"%string.
Proof. unfold line_node, line_nodes. rewrite !elem_of_cons, elem_of_nil. naive_solver. Qed.

Lemma line_link_cases u v : line_link u v ->
  (u = "1" /\ v = "2" \/ u = "2" /\ v = "1" \/ u = "2" /\ v = "3" \/ u = "3" /\ v = "2")%string.
Proof. unfold line_link, line_links. rewrite !elem_of_cons, elem_of_nil. naive_solver. Qed.

Lemma line_adjacent u v : line_link u v -> walk line_node line_link u v 1.
Proof.
  intros H. apply (walk_link _ _ u v v 0 H). constructor.
  apply (tp_node _ _ _ _ _ line_topology u v H).
Qed.

(** The entries of a concrete map, one by one. *)
Ltac line_entries :=
  match goal with |- map_find _ ?m = _ -> _ => let m' := eval vm_compute in m in change m with m' end;
  let Hm := fresh "Hm" in
  intros Hm%map_find_elem; rewrite !elem_of_cons, elem_of_nil in Hm; destruct_or! Hm; simplify_eq; try done.

Lemma line_sound x : line_node x -> sound line_node line_link line_addr line_numbers line_names x (line_ready x).
Proof.
  intros Hx. split.
  - destruct (line_cases x Hx) as [-> | [-> | ->]]; by split_and!.
  - destruct (line_cases x Hx) as [-> | [-> | ->]]; by apply map_wf_b_spec.
  - intros y v. destruct (line_cases x Hx) as [-> | [-> | ->]]; line_entries; right; (split; [lia|]);
      first [by apply walk_here|apply line_adjacent; by apply (bool_decide_unpack _)].
  - destruct (line_cases x Hx) as [-> | [-> | ->]]; by apply map_wf_b_spec.
  - intros n c. destruct (line_cases x Hx) as [-> | [-> | ->]]; line_entries; (split; [done|]);
      by apply (bool_decide_unpack _).
  - intros n e y d. destruct (line_cases x Hx) as [-> | [-> | ->]]; by line_entries.
  - done.
Qed.

Lemma line_is_ready x : line_node x -> ready line_node line_link line_addr line_numbers line_names x (line_ready x).
Proof.
  intros Hx. split; [split|].
  - by apply line_sound.
  - destruct (line_cases x Hx) as [-> | [-> | ->]]; by apply (bool_decide_unpack _).
  - destruct (line_cases x Hx) as [-> | [-> | ->]]; reflexivity.
  - intros y [v Hy]. revert Hy. destruct (line_cases x Hx) as [-> | [-> | ->]]; line_entries;
      by apply (bool_decide_unpack _).
  - intros u Hu. destruct (line_link_cases x u Hu) as [[-> ->]|[[-> ->]|[[-> ->]|[-> ->]]]];
      (split; [by apply (bool_decide_unpack _)|]); (split; [reflexivity|]); eexists; split; reflexivity.
  - intros u c Hc. destruct (so_costs _ _ _ _ _ _ _ (line_sound x Hx) u c Hc). done.
  - done.
  - intros u e y _ He [v Hv]. revert e He Hv.
    destruct (line_cases x Hx) as [-> | [-> | ->]]; intros e; by line_entries.
Qed.

Lemma line_dist : dist line_node line_link "1" "3" 2.
Proof.
  split.
  - apply (walk_link _ _ "1" "2" "3" 1)%string; [by apply (bool_decide_unpack _)|].
    apply line_adjacent. by apply (bool_decide_unpack _).
  - intros m Hm. inversion Hm as [|? w ? n Hl Hw]; subst. inversion Hw as [|? w' ? n' Hl' Hw']; subst.
    + by apply (bool_decide_eq_false _) in Hl.
    + apply walk_nonneg in Hw'. lia.
Qed.

Lemma line_full_round : full_round line_link line_round.
Proof.
  split; [by apply (bool_decide_unpack _)|]. intros u v Huv. exists (mkDelivery u v 0 100). split; [|by split].
  apply list_elem_of_fmap. by exists (u, v).
Qed.

Lemma dv_converges_witness : exists net',
  run_rounds [line_round; line_round] line_ready = Ok net' /\
  map_find "3"%string (m_dv (net' "1"%string)) = Some 2 /\
  exists e, map_find "3"%string (m_routingTable (net' "1"%string)) = Some e /\ rt_cost e = 2.
Proof.
  destruct (dv_converges line_node line_link line_addr line_numbers line_names line_ready [line_round; line_round])
    as (net' & Hrun & H).
  - apply line_topology.
  - apply line_is_ready.
  - constructor; [apply line_full_round|]. constructor; [apply line_full_round|constructor].
  - exists net'. split; [exact Hrun|].
    destruct (H "1"%string) as [H1 _]; [by apply (bool_decide_unpack _)|].
    destruct (H1 "3"%string 2 line_dist) as [H2 H3]; [apply Z.le_refl|vm_compute; discriminate|].
    split; [exact H2|].
    destruct H3 as (e & He & Hc & _); [discriminate|reflexivity|]. exists e. exact (conj He Hc).
Defined.

Lemma line_rounds : exists net', run_rounds [line_round; line_round] line_ready = Ok net' /\
  forall v, line_node v -> placed line_addr line_numbers line_names v (net' v) /\
    exact line_node line_link line_names 2 v (net' v).
Proof.
  destruct (rounds_progress line_node line_link line_addr line_numbers line_names [line_round; line_round] line_ready 0)
    as (net' & Hrun & HI).
  - apply line_topology.
  - constructor; [apply line_full_round|]. constructor; [apply line_full_round|constructor].
  - lia.
  - apply ready_start; [apply line_topology|apply line_is_ready].
  - exists net'. split; [exact Hrun|]. intros v Hv. destruct (HI v Hv) as [[R _] P].
    split; [apply (so_placed _ _ _ _ _ _ _ (rd_sound _ _ _ _ _ _ _ _ R))|exact (pr_exact _ _ _ _ _ _ _ P)].
Qed.

Lemma dv_forwarding_delivers_witness : exists net' hops,
  run_rounds [line_round; line_round] line_ready = Ok net' /\
  dv_forward net' 2 "1"%string 0x0a000103 = Some hops /\ length hops = 3%nat /\ last hops = Some "3"%string.
Proof.
  destruct line_rounds as (net' & Hrun & Hnet).
  destruct (dv_forwarding_delivers line_node line_link line_addr line_numbers line_names net' 2 0x0a000103 "3" 2 "1")
    as (hops & H1 & H2 & _ & H3 & _).
  - apply line_topology.
  - exact Hnet.
  - reflexivity.
  - by apply (bool_decide_unpack _).
  - exact line_dist.
  - discriminate.
  - reflexivity.
  - exists net', hops. exact (conj Hrun (conj H1 (conj H2 H3))).
Defined.
