(* ===== verification/DVStart.v ===== *)
(** * DVStart: from the first hello to the distances

    The nodes start with nothing but themselves in their vectors.  When every
    neighbour's hello arrives, and arrives before that neighbour's first
    vector, the network reaches the states from which DVConverge shows that
    rounds of vectors make the costs the distances. *)

From S2P Require Import Prelude StdMap StdString Ipv4Address Codec DVMessage Node Triple DVRouting DVBellmanFord DVProtocol DVInvariant DVNetwork DVConverge.

(** The hello [SendHello] broadcasts. *)
Definition hello_message {SR} (st : DVState SR) : DVMessage :=
  mkDVMessage HELLO_REQ (m_currentSequenceNumber st) (m_mainAddress st) 1
    (mkPayload (pingReq no_payload) (pingRsp no_payload) (mkHelloReq (ResolveNodeIpAddress st 0) "hello" 0)
       (dvTableMsg no_payload)).

Lemma SendHello_ok {SR} (st : DVState SR) :
  broadcast_ok st -> SendHello st = Ok (tt, next_seq st, broadcast st (hello_message st)).
Proof.
  intros Hb. unfold SendHello. unfold mbind at 1, handler_bind at 1, get. cbn zeta.
  unfold mbind at 1, handler_bind at 1.
  change (GetNextSequenceNumber st) with (Ok (m_currentSequenceNumber st, next_seq st, @nil (action DVMessage))).
  unfold mbind, handler_bind, lift.
  change (SetHelloReq _ _ _) with (Ok (hello_message st)). cbn [mbind result_bind].
  by rewrite dv_BroadcastPacket_ok.
Qed.

(** A hello, or the current vector, of one node is handled by another. *)
Inductive contact := Hears (d : delivery) | Tells (d : delivery).

Definition meet {SR} (net : net_map SR) (c : contact) : result (net_map SR) :=
  match c with
  | Hears d =>
      '(_, b, _) ← RecvDVMessage (dl_now d) (dl_socket d) (hello_message (net (dl_from d))) (net (dl_to d));
      Ok (fun x => if decide (x = dl_to d) then b else net x)
  | Tells d => exchange net d
  end.

(** [heard v u]: node [v] has heard the hello of [u]. *)
Definition hears (heard : string -> string -> Prop) (c : contact) : string -> string -> Prop :=
  match c with
  | Hears d => fun v u => (v = dl_to d /\ u = dl_from d) \/ heard v u
  | Tells _ => heard
  end.

(** Hellos only come over links, and vectors between nodes that have heard
    each other's hellos. *)
Fixpoint orderly (link : string -> string -> Prop) (heard : string -> string -> Prop) (cs : list contact) : Prop :=
  match cs with
  | [] => True
  | c :: cs =>
      match c with
      | Hears d => link (dl_from d) (dl_to d)
      | Tells d => heard (dl_from d) (dl_to d) /\ heard (dl_to d) (dl_from d)
      end /\ orderly link (hears heard c) cs
  end.

Section start.
Context {SR : Type}.
Context (node : string -> Prop) (link : string -> string -> Prop) (addr : string -> Ipv4Address).
Context (nodeAddressMap : stdmap Z Ipv4Address) (addressNodeMap : stdmap Ipv4Address Z).

Notation topology := (topology node link addr nodeAddressMap addressNodeMap).
Notation name_of := (name_of addressNodeMap).
Notation sound := (sound node link addr nodeAddressMap addressNodeMap).
Notation linked := (linked node link addr nodeAddressMap addressNodeMap).
Notation acquainted := (acquainted node link addr nodeAddressMap addressNodeMap).
Notation ready := (ready node link addr nodeAddressMap addressNodeMap).
Notation exact := (exact node link addressNodeMap).
Notation initial := (initial addr nodeAddressMap addressNodeMap).

Implicit Types (net : net_map SR) (st : DVState SR).

Lemma linked_ext (h h' : string -> Prop) v st : (forall u, h u <-> h' u) -> linked h v st -> linked h' v st.
Proof.
  intros E L. split; [apply L..| | |].
  - intros u Hu. by apply (rd_links _ _ _ _ _ _ _ _ L), E.
  - intros u c Hu. by eapply E, (rd_costs _ _ _ _ _ _ _ _ L).
  - intros u Hl Hu. by apply E, (rd_table _ _ _ _ _ _ _ _ L).
Qed.

Lemma acquainted_ext (h h' : string -> Prop) v st :
  (forall u, h u <-> h' u) -> acquainted h v st -> acquainted h' v st.
Proof. intros E [L K]. split; [by eapply linked_ext|]. intros u e x Hu. by apply K, E. Qed.

(** ** A hello arrives *)

Definition refreshed (now : Time) (u : string) st : DVState SR :=
  set_neighborTable (map_update u (fun e => mkNT (nt_neighborAddr e) (nt_interfaceAddr e) now (nt_dv e))
    (m_neighborTable st)) st.

(** The state in which [ProcessHelloReq] calls [BellmanFord]. *)
Definition greeted (now : Time) (a : Ipv4Address) (interfaceAddr : Ipv4Address) (u : string) st : DVState SR :=
  set_costs (map_insert u 1 (m_costs st)) (set_dv (map_insert u 1 (m_dv st))
    (set_neighborTable (map_insert u (mkNT a interfaceAddr now []) (m_neighborTable st)) st)).

Lemma hello_run u (a st : DVState SR) now socket : ReverseLookup st (m_mainAddress a) = u ->
  RecvDVMessage now socket (hello_message a) st =
    match map_find u (m_neighborTable st) with
    | Some _ => Ok (tt, refreshed now u st, [])
    | None => (_ ← BellmanFord []; SendDVTableMessage) (greeted now (m_mainAddress a)
        match map_find socket (m_socketAddresses st) with Some i => m_local i | None => Ipv4Address_default end u st)
    end.
Proof.
  intros <-. change (RecvDVMessage now socket (hello_message a) st) with (ProcessHelloReq now (hello_message a) socket st).
  unfold ProcessHelloReq. unfold mbind at 1, handler_bind at 1, get. cbn zeta.
  change (GetOriginatorAddress (hello_message a)) with (m_mainAddress a).
  destruct (map_find (ReverseLookup st (m_mainAddress a)) (m_neighborTable st)); [done|].
  unfold modify, mbind, handler_bind. cbn [app]. fold (greeted now (m_mainAddress a)
    match map_find socket (m_socketAddresses st) with Some i => m_local i | None => Ipv4Address_default end
    (ReverseLookup st (m_mainAddress a)) st).
  destruct (BellmanFord [] _) as [[[[] s] o]|]; [|done]. destruct (SendDVTableMessage s) as [[[[] s'] o']|]; done.
Qed.

Lemma refreshed_acquainted heard now u v st :
  sound v (refreshed now u st) -> acquainted heard v st -> acquainted heard v (refreshed now u st).
Proof.
  intros I [L K].
  assert (forall w e, map_find w (m_neighborTable (refreshed now u st)) = Some e ->
    exists e1, map_find w (m_neighborTable st) = Some e1 /\ nt_neighborAddr e1 = nt_neighborAddr e /\ nt_dv e1 = nt_dv e)
    as Hup.
  { intros w e. cbn [refreshed set_neighborTable m_neighborTable]. rewrite map_find_update.
    case_decide as E; [subst w|by eauto]. destruct (map_find u (m_neighborTable st)) as [e1|]; [|done]. intros [= <-]. eauto. }
  split; [split|].
  - done.
  - apply L.
  - apply L.
  - apply L.
  - intros w Hw. destruct (rd_links _ _ _ _ _ _ _ _ L w Hw) as (? & ? & e & He & Ha). do 2 (split; [done|]).
    cbn [refreshed set_neighborTable m_neighborTable]. rewrite map_find_update. case_decide; [subst w|by eauto].
    rewrite He. eauto.
  - apply L.
  - intros w Hw [e (e1 & He & _)%Hup]. apply L; [done|by rewrite He].
  - intros w e x Hw (e1 & He & _ & <-)%Hup. by apply (K w e1 x).
Qed.

Lemma greeted_linked heard now ifc u v st :
  topology -> link v u -> map_find u (m_neighborTable st) = None -> linked heard v st ->
  linked (fun w => w = u \/ heard w) v (greeted now (addr u) ifc u st).
Proof.
  intros T Hl E0 L. destruct (tp_node _ _ _ _ _ T v u Hl) as [Hv Hu]. pose proof (rd_sound _ _ _ _ _ _ _ _ L) as I.
  assert (map_find u (m_costs st) = None) as Ec.
  { destruct (map_find u (m_costs st)) as [c|] eqn:E; [|done]. apply (rd_costs _ _ _ _ _ _ _ _ L) in E.
    destruct (rd_links _ _ _ _ _ _ _ _ L u E) as (_ & _ & e & He & _). congruence. }
  split; cbn [greeted set_costs set_dv set_neighborTable m_costs m_dv m_neighborTable].
  - apply sound_costs; [apply sound_dv; [apply sound_nt; [done|]|..]|..]; try by apply map_wf_insert, I.
    + intros n e x d. rewrite map_find_insert, E0. case_decide; [|apply I]. by intros [= <-].
    + intros x d. rewrite map_find_insert. case_decide; [subst x|apply I].
      destruct (map_find u (m_dv st)) eqn:E; intros [= <-]; [by apply I|].
      right. split; [lia|]. apply (walk_link _ _ v u u 0); [done|by constructor].
    + intros n c. rewrite map_find_insert, Ec. case_decide; [subst n; intros [= <-]; done|apply I].
  - apply L.
  - rewrite map_find_insert. case_decide; [subst u|apply L]. by rewrite (rd_self _ _ _ _ _ _ _ _ L).
  - intros x. rewrite map_find_insert. case_decide; [by subst x|apply L].
  - intros w Hw. rewrite !map_find_insert, Ec, E0. case_decide as E; [subst w|].
    + do 2 (split; [done|]). by eexists.
    + destruct Hw; [congruence|]. by apply L.
  - intros w c. rewrite map_find_insert. case_decide; [by left|]. right. by eapply (rd_costs _ _ _ _ _ _ _ _ L).
  - intros w Hw. rewrite map_find_insert. case_decide; [by left|]. right. by apply L.
Qed.

Lemma hello_acquaints heard u v (a st : DVState SR) now socket :
  topology -> link u v -> sound u a -> acquainted heard v st ->
  exists b out, RecvDVMessage now socket (hello_message a) st = Ok (tt, b, out) /\
    acquainted (fun w => w = u \/ heard w) v b.
Proof.
  intros T Hl Ia A. pose proof A as [L K]. destruct (tp_node _ _ _ _ _ T u v Hl) as [Hu Hv].
  pose proof (rd_sound _ _ _ _ _ _ _ _ L) as I. destruct (so_placed _ _ _ _ _ _ _ Ia) as (Ha & _).
  assert (ReverseLookup st (m_mainAddress a) = u) as Hname.
  { rewrite (sound_name node link addr nodeAddressMap addressNodeMap v) by done.
    rewrite Ha. by apply (tp_main _ _ _ _ _ T). }
  assert (message_ok node link addr addressNodeMap u (hello_message a)) as Hm by (split; done).
  assert (forall b out, RecvDVMessage now socket (hello_message a) st = Ok (tt, b, out) -> sound v b) as Hsound.
  { intros b out H. exact (proj1 (net_event_sound node link addr nodeAddressMap addressNodeMap v u now
      (DvRecv socket (hello_message a)) T Hv (conj Hl Hm) st tt b out I H)). }
  apply (tp_sym _ _ _ _ _ T) in Hl. rewrite (hello_run u) in * by done. rewrite Ha in *.
  destruct (map_find u (m_neighborTable st)) as [e0|] eqn:E0.
  - eexists _, _. split; [done|]. apply acquainted_ext with (h := heard).
    { intros w. split; [by right|]. intros [->|]; [|done]. apply (rd_table _ _ _ _ _ _ _ _ L); [done|by rewrite E0]. }
    apply refreshed_acquainted; [by eapply Hsound|done].
  - set (ifc := match map_find socket _ with Some _ => _ | None => _ end) in *.
    pose proof (greeted_linked heard now ifc u v st T Hl E0 L) as L1. set (st1 := greeted now (addr u) ifc u st) in *.
    assert (costs_ok st1) as Hc by by eapply linked_costs_ok.
    destruct (BellmanFord_run st1 []) as (b & out & Hb & Hwf & _ & Hcomp & Hsame & Hnt); [done|apply L1|apply L1|].
    assert (SendDVTableMessage b = Ok (tt, next_seq b, adverts b)) as Hsend.
    { destruct Hsame as (S1 & S2 & S3 & S4 & S5). apply SendDVTableMessage_ok.
      - unfold broadcast_ok. rewrite S1. apply L1.
      - by apply (costs_ok_same st1). }
    unfold mbind, handler_bind in *. rewrite Hb, Hsend in *. eexists _, _. split; [done|].
    eapply (acquainted_computed node link addr nodeAddressMap addressNodeMap _ v st1 []);
      [done|done|done| |by intros x []|exact Hcomp|exact Hsame|exact Hnt|by eapply Hsound].
    intros w e x Hw. change (dv_before st1 []) with (map_insert u 1 (m_dv st)).
    change (m_neighborTable st1) with (map_insert u (mkNT (addr u) ifc now []) (m_neighborTable st)).
    rewrite !map_find_insert, E0. case_decide; [intros [= <-] []; done|]. intros He Hx.
    destruct Hw as [->|Hw]; [done|]. case_decide; [by eexists|by eapply K].
Qed.

(** ** Orderly meetings *)

Definition acquainted_net (heard : string -> string -> Prop) net : Prop :=
  (forall v, node v -> acquainted (heard v) v (net v)) /\ (forall v u, heard v u -> link v u).

Lemma meet_acquaints heard net c : topology -> acquainted_net heard net ->
  match c with
  | Hears d => link (dl_from d) (dl_to d)
  | Tells d => heard (dl_from d) (dl_to d) /\ heard (dl_to d) (dl_from d)
  end -> exists net', meet net c = Ok net' /\ acquainted_net (hears heard c) net'.
Proof.
  intros T [HA Hlink]. destruct c as [[u v now socket]|[u v now socket]]; cbn [dl_from dl_to].
  - intros Hl. destruct (tp_node _ _ _ _ _ T u v Hl) as [Hu Hv].
    destruct (hello_acquaints (heard v) u v (net u) (net v) now socket) as (b & out & H & Hb); [done|done|apply HA, Hu|by apply HA|].
    cbn [meet dl_from dl_to dl_now dl_socket]. rewrite H. eexists; split; [done|]. split.
    + intros w Hw. case_decide as E; [subst w|]; (eapply acquainted_ext; [|first [exact Hb|by apply HA]]); naive_solver.
    + intros w x [[-> ->]|]; [by apply (tp_sym _ _ _ _ _ T)|by apply Hlink].
  - intros [Huv Hvu]. destruct (tp_node _ _ _ _ _ T u v) as [Hu Hv]; [by apply Hlink|].
    destruct (exchange_spec node link addr nodeAddressMap addressNodeMap heard net u v now socket) as (b & st1 & ndv & H & Hb & _);
      [done..|]. cbn [meet]. rewrite H. eexists; split; [done|]. split; [|done].
    intros w Hw. case_decide; [by subst w|by apply HA].
Qed.

Lemma meetings_acquaint cs heard net : topology -> acquainted_net heard net -> orderly link heard cs ->
  exists net', foldM meet net cs = Ok net' /\ acquainted_net (foldl hears heard cs) net'.
Proof.
  intros T. revert heard net. induction cs as [|c cs IH]; intros heard net HA; [by exists net|].
  intros [Hc Hcs]. destruct (meet_acquaints heard net c T HA Hc) as (net1 & H1 & HA1).
  destruct (IH _ net1 HA1 Hcs) as (net' & H2 & HA'). exists net'. split; [|done].
  cbn [foldM]. by rewrite H1.
Qed.

Lemma hears_in cs heard v u : foldl hears heard cs v u <->
  heard v u \/ exists d, Hears d ∈ cs /\ dl_from d = u /\ dl_to d = v.
Proof.
  revert heard. induction cs as [|c cs IH]; intros heard; cbn [foldl].
  - split; [by left|]. by intros [|(d & ?%not_elem_of_nil & _)].
  - rewrite IH. destruct c as [d|d]; cbn [hears]; setoid_rewrite elem_of_cons; naive_solver.
Qed.

Lemma initial_acquainted v st : node v -> initial v st -> broadcast_ok st -> acquainted (fun _ => False) v st.
Proof.
  intros Hv Hi Hb. pose proof (initial_sound node link addr nodeAddressMap addressNodeMap v st Hv Hi) as I.
  destruct Hi as (_ & Hd & Hc & Hn & _). split; [split|].
  - done.
  - done.
  - rewrite Hd. cbn. by rewrite decide_True.
  - intros x. rewrite Hd. cbn. case_decide; [by subst x|by intros []].
  - done.
  - intros u c. by rewrite Hc.
  - intros u _. rewrite Hn. by intros [].
  - by intros u e x [].
Qed.

(** (C6) The protocol finds the distances from a cold start.  On a fixed
    topology, from freshly started nodes, let hellos arrive in any order and
    any number of times, and vectors too, as long as the two ends of a link
    have heard each other's hello before a vector crosses it.  Nothing faults.
    Once every link has carried a hello in both directions, rounds in which
    every link delivers a vector follow: after [k] of them every node's cost
    for every node at distance at most [k] (up to 16) is that distance, with a
    route of that cost through a nearer neighbour below 16. *)
Theorem dv_starts (net : net_map SR) cs rounds
  (T : topology) (Hinit : forall v, node v -> initial v (net v) /\ broadcast_ok (net v))
  (Horder : orderly link (fun _ _ => False) cs)
  (Hhello : forall u v, link u v -> exists d, Hears d ∈ cs /\ dl_from d = u /\ dl_to d = v)
  (Hrounds : Forall (full_round link) rounds) :
  exists net1 net2, foldM meet net cs = Ok net1 /\ run_rounds rounds net1 = Ok net2 /\
  forall v, node v -> ready v (net1 v) /\
    forall x n, dist node link v x n -> n <= Z.of_nat (length rounds) -> n <= 16 ->
      map_find x (m_dv (net2 v)) = Some n /\
      (x <> v -> n < 16 -> exists e, map_find x (m_routingTable (net2 v)) = Some e /\ rt_cost e = n /\
         link v (name_of (rt_nextHopAddr e)) /\ dist node link (name_of (rt_nextHopAddr e)) x (n - 1)).
Proof.
  destruct (meetings_acquaint cs (fun _ _ => False) net) as (net1 & H1 & [HA Hlink]); [done| |done|].
  { split; [|done]. intros v Hv. by apply initial_acquainted; [|apply Hinit..]. }
  assert (forall v, node v -> ready v (net1 v)) as Hready.
  { intros v Hv. eapply acquainted_ext; [|by apply HA]. intros u. split; [apply Hlink|].
    intros Hl. apply hears_in. right. apply Hhello. by apply (tp_sym _ _ _ _ _ T). }
  destruct (rounds_progress node link addr nodeAddressMap addressNodeMap rounds net1 0) as (net2 & H2 & HI);
    [done|done|lia|by apply ready_start|].
  exists net1, net2. do 2 (split; [done|]). intros v Hv. split; [by apply Hready|]. intros x n Hd Hn H16.
  destruct (HI v Hv) as [_ P]. by apply (pr_exact _ _ _ _ _ _ _ P).
Qed.
End start.

(** ** Example: the line 1 - 2 - 3 *)

Definition line_hears (u v : string) : contact := Hears (mkDelivery u v 0 100).

(** Node 2 hears node 1 and is told its vector before node 3 is there. *)
Definition line_start : list contact :=
  [line_hears "1" "2"; line_hears "2" "1"; Tells (mkDelivery "1" "2" 0 100); line_hears "3" "2"; line_hears "2" "3"]%string.

Lemma dv_starts_witness : exists net1 net2,
  foldM meet (local line_net) line_start = Ok net1 /\ run_rounds [line_round; line_round] net1 = Ok net2 /\
  map_find "3"%string (m_dv (net2 "1"%string)) = Some 2.
Proof.
  destruct (dv_starts line_node line_link line_addr line_numbers line_names (local line_net) line_start
    [line_round; line_round]) as (net1 & net2 & H1 & H2 & H).
  - apply line_topology.
  - intros v _. split; [repeat split|by apply (bool_decide_unpack _)].
  - cbn. split_and!; first [by apply (bool_decide_unpack _)|naive_solver].
  - intros u v Hl. exists (mkDelivery u v 0 100). split; [|done]. unfold line_start, line_hears. rewrite !elem_of_cons.
    destruct (line_link_cases u v Hl) as [[-> ->]|[[-> ->]|[[-> ->]|[-> ->]]]]; naive_solver.
  - constructor; [apply line_full_round|]. constructor; [apply line_full_round|constructor].
  - exists net1, net2. do 2 (split; [assumption|]).
    destruct (H "1"%string) as [_ H3]; [by apply (bool_decide_unpack _)|].
    apply (H3 "3"%string 2 line_dist); [apply Z.le_refl|vm_compute; discriminate].
Defined.
