(* ===== verification/TestApp.v ===== *)
(** * TestApp: the ping application

    src/ns-3/cs433/test-app/test-app.h and .cc: pings over UDP through the
    routing protocols, a tracker of the unanswered ones, and periodic traffic
    to a set of nodes. *)

From S2P Require Import Prelude StdMap StdString Ipv4Address Codec TestAppMessage Node Triple.

(** What the application does: datagrams (with the message whose header is on
    the packet), closing its socket, and scheduling [SendTraffic] after a
    delay (0 for [ScheduleNow]). *)
Inductive app_action : Type :=
| AppSendTo (socket : SocketPtr) (addr : Ipv4Address) (port : Z) (msg : TestAppMessage)
| AppClose (socket : SocketPtr)
| ScheduleSendTraffic (delay : Time).

(** [m_socket] is a pointer; the keys of [m_trafficSet] are the set. *)
Record TestAppState := mkTestApp {
  m_currentTransactionId : Z;
  m_socket : option SocketPtr;
  m_pingTimeout : Time;
  m_appPort : Z;
  m_nodeAddressMap : stdmap Z Ipv4Address;
  m_addressNodeMap : stdmap Ipv4Address Z;
  m_auditPingsTimer : Timer;
  m_pingTracker : stdmap Z PingRequest;
  m_trafficSet : stdmap Z unit;
  m_trafficRunning : bool;
  m_trafficPeriod : Time
}.

Definition set_currentTransactionId (x : Z) (st : TestAppState) : TestAppState :=
  mkTestApp x (m_socket st) (m_pingTimeout st) (m_appPort st) (m_nodeAddressMap st) (m_addressNodeMap st)
    (m_auditPingsTimer st) (m_pingTracker st) (m_trafficSet st) (m_trafficRunning st) (m_trafficPeriod st).
Definition set_socket (x : option SocketPtr) (st : TestAppState) : TestAppState :=
  mkTestApp (m_currentTransactionId st) x (m_pingTimeout st) (m_appPort st) (m_nodeAddressMap st)
    (m_addressNodeMap st) (m_auditPingsTimer st) (m_pingTracker st) (m_trafficSet st) (m_trafficRunning st)
    (m_trafficPeriod st).
Definition set_nodeAddressMap (x : stdmap Z Ipv4Address) (st : TestAppState) : TestAppState :=
  mkTestApp (m_currentTransactionId st) (m_socket st) (m_pingTimeout st) (m_appPort st) x
    (m_addressNodeMap st) (m_auditPingsTimer st) (m_pingTracker st) (m_trafficSet st) (m_trafficRunning st)
    (m_trafficPeriod st).
Definition set_addressNodeMap (x : stdmap Ipv4Address Z) (st : TestAppState) : TestAppState :=
  mkTestApp (m_currentTransactionId st) (m_socket st) (m_pingTimeout st) (m_appPort st) (m_nodeAddressMap st)
    x (m_auditPingsTimer st) (m_pingTracker st) (m_trafficSet st) (m_trafficRunning st) (m_trafficPeriod st).
Definition set_auditPingsTimer (x : Timer) (st : TestAppState) : TestAppState :=
  mkTestApp (m_currentTransactionId st) (m_socket st) (m_pingTimeout st) (m_appPort st) (m_nodeAddressMap st)
    (m_addressNodeMap st) x (m_pingTracker st) (m_trafficSet st) (m_trafficRunning st) (m_trafficPeriod st).
Definition set_pingTracker (x : stdmap Z PingRequest) (st : TestAppState) : TestAppState :=
  mkTestApp (m_currentTransactionId st) (m_socket st) (m_pingTimeout st) (m_appPort st) (m_nodeAddressMap st)
    (m_addressNodeMap st) (m_auditPingsTimer st) x (m_trafficSet st) (m_trafficRunning st) (m_trafficPeriod st).
Definition set_traffic (s : stdmap Z unit) (running : bool) (st : TestAppState) : TestAppState :=
  mkTestApp (m_currentTransactionId st) (m_socket st) (m_pingTimeout st) (m_appPort st) (m_nodeAddressMap st)
    (m_addressNodeMap st) (m_auditPingsTimer st) (m_pingTracker st) s running (m_trafficPeriod st).

Notation H := (handler TestAppState app_action).

(** [TestApp ()] with the default attributes; [id] is the random first
    transaction number. *)
Definition MakeTestApp (id : Z) : TestAppState := {|
  m_currentTransactionId := u32 id; m_socket := None; m_pingTimeout := MilliSeconds 2000; m_appPort := 10000;
  m_nodeAddressMap := []; m_addressNodeMap := []; m_auditPingsTimer := None; m_pingTracker := [];
  m_trafficSet := []; m_trafficRunning := false; m_trafficPeriod := MilliSeconds 2 |}.

Definition SetNodeAddressMap (m : stdmap Z Ipv4Address) : H unit := modify (set_nodeAddressMap m).
Definition SetAddressNodeMap (m : stdmap Ipv4Address Z) : H unit := modify (set_addressNodeMap m).

Definition ResolveNodeIpAddress (st : TestAppState) (nodeNumber : Z) : Ipv4Address :=
  match map_find nodeNumber (m_nodeAddressMap st) with Some a => a | None => GetAny end.

Definition ReverseLookup (st : TestAppState) (ipAddress : Ipv4Address) : string :=
  match map_find ipAddress (m_addressNodeMap st) with
  | Some nodeNumber => show_uint nodeNumber
  | None => "Unknown"
  end.

Definition schedule_audit_pings (now : Time) : H unit := modifyM (fun st =>
  t ← Timer_Schedule now (m_pingTimeout st) (m_auditPingsTimer st); Ok (set_auditPingsTimer t st)).

(** [newSocket] is the socket [Socket::CreateSocket] returns. *)
Definition StartApplication (now : Time) (newSocket : SocketPtr) : H unit :=
  _ ← modify (fun st => match m_socket st with None => set_socket (Some newSocket) st | Some _ => st end);
  schedule_audit_pings now.

Definition StopApplication : H unit :=
  st ← get;
  _ ← match m_socket st with
      | Some s => _ ← emit (AppClose s); modify (set_socket None)
      | None => mret tt
      end;
  _ ← modify (fun st => set_auditPingsTimer (Timer_Cancel (m_auditPingsTimer st)) st);
  modify (set_pingTracker []).

Definition DoDispose : H unit := StopApplication.

Definition GetNextTransactionId : H Z :=
  st ← get;
  _ ← modify (set_currentTransactionId (u32 (m_currentTransactionId st + 1)));
  mret (m_currentTransactionId st).

Definition SendTo_socket (addr : Ipv4Address) (port : Z) (m : TestAppMessage) : H unit :=
  st ← get;
  s ← lift (m_socket st ?? NullDeref);
  emit (AppSendTo s addr port m).

Definition SendPing (now : Time) (nodeNumber : Z) (pingMessage : string) : H unit :=
  st ← get;
  let destAddress := ResolveNodeIpAddress st nodeNumber in
  if negb (destAddress =? GetAny) then
    transactionId ← GetNextTransactionId;
    let pingRequest := mkPingRequest transactionId now destAddress pingMessage in
    _ ← modify (fun st => set_pingTracker (map_insert transactionId pingRequest (m_pingTracker st)) st);
    message ← lift (SetPingReq pingMessage (MakeTestAppMessage PING_REQ transactionId));
    SendTo_socket destAddress (m_appPort st) message
  else mret tt.

Definition StartTraffic (nodeNumber : Z) : H unit :=
  st ← get;
  let destAddress := ResolveNodeIpAddress st nodeNumber in
  if destAddress =? GetAny then mret tt else
  _ ← modify (fun st => set_traffic (map_insert nodeNumber tt (m_trafficSet st)) (m_trafficRunning st) st);
  if negb (m_trafficRunning st) then
    _ ← modify (fun st => set_traffic (m_trafficSet st) true st);
    emit (ScheduleSendTraffic 0)
  else mret tt.

(** The test at the end is the source's: running ends when nodes remain. *)
Definition StopTraffic (nodeNumber : Z) : H unit :=
  st ← get;
  match map_find nodeNumber (m_trafficSet st) with
  | None => mret tt
  | Some _ =>
      let s := map_erase nodeNumber (m_trafficSet st) in
      modify (set_traffic s (if negb (Z.of_nat (length s) =? 0) then false else m_trafficRunning st))
  end.

Definition SendTraffic (now : Time) : H unit :=
  st ← get;
  if negb (m_trafficRunning st) then mret tt else
  _ ← for_loop (m_trafficSet st) (fun p => SendPing now p.1 "****TRAFFIC_MSG****");
  emit (ScheduleSendTraffic (m_trafficPeriod st)).

Definition ProcessPingReq (message : TestAppMessage) (sourceAddress : Ipv4Address) (sourcePort : Z) : H unit :=
  resp ← lift (SetPingRsp (PingReq_pingMessage (GetPingReq message))
    (MakeTestAppMessage PING_RSP (GetTransactionId message)));
  SendTo_socket sourceAddress sourcePort resp.

Definition ProcessPingRsp (message : TestAppMessage) : H unit :=
  st ← get;
  match map_find (GetTransactionId message) (m_pingTracker st) with
  | Some _ => modify (set_pingTracker (map_erase (GetTransactionId message) (m_pingTracker st)))
  | None => mret tt
  end.

Definition RecvMessage (message : TestAppMessage) (sourceAddress : Ipv4Address) (sourcePort : Z) : H unit :=
  let t := GetMessageType message in
  if t =? PING_REQ then ProcessPingReq message sourceAddress sourcePort
  else if t =? PING_RSP then ProcessPingRsp message
  else mret tt.

Definition ping_expired (st : TestAppState) (now : Time) (r : PingRequest) : bool :=
  GetMilliSeconds (PingRequest_m_timestamp r) + GetMilliSeconds (m_pingTimeout st) <=? GetMilliSeconds now.

Definition AuditPings (now : Time) : H unit :=
  _ ← modify (fun st => set_pingTracker (erase_expired (ping_expired st now) (m_pingTracker st)) st);
  schedule_audit_pings now.

(** The node number is used only by the two options. *)
Definition traffic_option (option : string) (number : result Z) : H unit :=
  if String.eqb option "START" then nodeNumber ← lift number; StartTraffic nodeNumber
  else if String.eqb option "STOP" then nodeNumber ← lift number; StopTraffic nodeNumber
  else mret tt.

(** [sin >> nodeNumber] on text that is no number leaves the variable
    unspecified (it is not initialised). *)
Definition ProcessCommand (now : Time) (tokens : list string) : H unit :=
  command ← lift (tokens !! 0%nat ?? DerefEnd);
  if String.eqb command "PING" then
    match tokens with
    | _ :: node :: pingMessage :: _ =>
        if negb (String.eqb node "*") then
          nodeNumber ← lift (read_uint32 node ?? UninitRead);
          SendPing now nodeNumber pingMessage
        else
          st ← get;
          for_loop (m_nodeAddressMap st) (fun p => SendPing now p.1 pingMessage)
    | _ => mret tt
    end
  else if String.eqb command "TRAFFIC" then
    match tokens with
    | _ :: option :: node :: _ =>
        if negb (String.eqb node "*") then
          traffic_option option (read_uint32 node ?? UninitRead)
        else
          st ← get;
          for_loop (m_nodeAddressMap st) (fun p => traffic_option option (Ok p.1))
    | _ => mret tt
    end
  else mret tt.

(** ** Pings *)

Definition ping_req (id : Z) (text : string) : TestAppMessage :=
  mkTestAppMessage PING_REQ id (mkPayload (mkPingReq text) (pingRsp no_payload)).
Definition ping_rsp (id : Z) (text : string) : TestAppMessage :=
  mkTestAppMessage PING_RSP id (mkPayload (pingReq no_payload) (mkPingRsp text)).

(** The state after a ping has been sent to [dest]. *)
Definition pinged (now : Time) (dest : Ipv4Address) (text : string) (st : TestAppState) : TestAppState :=
  set_pingTracker (map_insert (m_currentTransactionId st)
      (mkPingRequest (m_currentTransactionId st) now dest text) (m_pingTracker st))
    (set_currentTransactionId (u32 (m_currentTransactionId st + 1)) st).

Lemma SendPing_eq now n text st s :
  m_socket st = Some s ->
  SendPing now n text st =
    if ResolveNodeIpAddress st n =? GetAny then Ok (tt, st, [])
    else Ok (tt, pinged now (ResolveNodeIpAddress st n) text st,
      [AppSendTo s (ResolveNodeIpAddress st n) (m_appPort st) (ping_req (m_currentTransactionId st) text)]).
Proof.
  intros Hs. unfold SendPing. unfold mbind at 1, handler_bind at 1, get at 1. cbn [app].
  destruct (_ =? GetAny); [done|]. cbn [negb].
  unfold SendTo_socket, GetNextTransactionId. hstep. unfold SetPingReq, claim_type. cbn. rewrite Hs. done.
Qed.

Lemma RecvMessage_rsp id text addr port st :
  RecvMessage (ping_rsp id text) addr port st =
    match map_find id (m_pingTracker st) with
    | Some _ => Ok (tt, set_pingTracker (map_erase id (m_pingTracker st)) st, [])
    | None => Ok (tt, st, [])
    end.
Proof.
  unfold RecvMessage, ProcessPingRsp, mbind, handler_bind, get. cbn -[map_erase].
  by destruct (map_find id (m_pingTracker st)).
Qed.

(** A ping is answered.  [SendPing] to a node it cannot resolve does
    nothing; otherwise it tracks the request under a new transaction number and
    sends it to the node's address.  The receiver answers the sender's address
    and port with the same number and text and keeps its own state; the
    response takes the request off the tracker, which is then as before.  A
    response to a number that is not tracked changes nothing.  Both messages
    fit the wire format when the text does. *)
Theorem app_ping_answered a b now n text sa sb addr port
  (Ha : m_socket a = Some sa) (Hb : m_socket b = Some sb)
  (Hid : is_u32 (m_currentTransactionId a)) (Htext : is_u16 (str_length text))
  (Hfresh : map_find (m_currentTransactionId a) (m_pingTracker a) = None) :
  let dest := ResolveNodeIpAddress a n in
  let req := ping_req (m_currentTransactionId a) text in
  let rsp := ping_rsp (m_currentTransactionId a) text in
  TestAppMessage_valid req /\ TestAppMessage_valid rsp /\
  (dest = GetAny -> SendPing now n text a = Ok (tt, a, [])) /\
  (dest <> GetAny -> exists a1 a2,
     SendPing now n text a = Ok (tt, a1, [AppSendTo sa dest (m_appPort a) req]) /\
     map_find (m_currentTransactionId a) (m_pingTracker a1) =
       Some (mkPingRequest (m_currentTransactionId a) now dest text) /\
     RecvMessage req addr port b = Ok (tt, b, [AppSendTo sb addr port rsp]) /\
     RecvMessage rsp addr port a1 = Ok (tt, a2, []) /\
     (forall k, map_find k (m_pingTracker a2) = map_find k (m_pingTracker a)) /\
     RecvMessage rsp addr port a2 = Ok (tt, a2, [])).
Proof.
  cbn zeta. rewrite (SendPing_eq _ _ _ _ sa Ha).
  split; [unfold TestAppMessage_valid; cbn; naive_solver|].
  split; [unfold TestAppMessage_valid; cbn; naive_solver|].
  split; [by intros ->|]. intros Hd. destruct (Z.eqb_spec (ResolveNodeIpAddress a n) GetAny); [done|].
  set (a1 := pinged _ _ _ _).
  set (a2 := set_pingTracker (map_erase (m_currentTransactionId a) (m_pingTracker a1)) a1).
  assert (map_find (m_currentTransactionId a) (m_pingTracker a1) =
    Some (mkPingRequest (m_currentTransactionId a) now (ResolveNodeIpAddress a n) text)) as H1.
  { unfold a1, pinged. cbn. by rewrite map_find_insert, decide_True, Hfresh. }
  assert (map_find (m_currentTransactionId a) (m_pingTracker a2) = None) as H2.
  { unfold a2. cbn [m_pingTracker set_pingTracker]. by rewrite map_find_erase, decide_True. }
  exists a1, a2. split_and!; [done|exact H1| | | |].
  - unfold RecvMessage, ProcessPingReq, SendTo_socket. cbn. hstep. by rewrite Hb.
  - by rewrite RecvMessage_rsp, H1.
  - intros k. unfold a2, a1, pinged. cbn [m_pingTracker set_pingTracker set_currentTransactionId m_currentTransactionId]. rewrite map_find_erase, map_find_insert. case_decide; [by subst|done].
  - by rewrite RecvMessage_rsp, H2.
Qed.

Definition app1 : TestAppState :=
  mkTestApp 7 (Some 50) (MilliSeconds 2000) 10000 [(2, 0x0a000102); (3, 0x0a000103)]
    [(0x0a000102, 2); (0x0a000103, 3)] None [] [] false (MilliSeconds 2).

Lemma app_ping_answered_witness : exists a1 a2,
  SendPing 5 2 "hi" app1 = Ok (tt, a1, [AppSendTo 50 0x0a000102 10000 (ping_req 7 "hi")]) /\
  RecvMessage (ping_rsp 7 "hi") 0x0a000102 10000 a1 = Ok (tt, a2, []) /\ m_pingTracker a1 <> [].
Proof.
  destruct (app_ping_answered app1 app1 5 2 "hi" 50 50 0x0a000102 10000) as (_ & _ & _ & H).
  - reflexivity.
  - reflexivity.
  - by apply (bool_decide_unpack _).
  - by apply (bool_decide_unpack _).
  - reflexivity.
  - destruct H as (a1 & a2 & H1 & H2 & _ & H3 & _); [discriminate|].
    exists a1, a2. split; [exact H1|]. split; [exact H3|]. intros E. rewrite E in H2. discriminate.
Defined.

(** ** Traffic *)

Definition traffic_text : string := "****TRAFFIC_MSG****".

(** The pings to the nodes of [l], from transaction number [id] on. *)
Fixpoint traffic_pings (st : TestAppState) (sock : SocketPtr) (id : Z) (l : list Z) : list app_action :=
  match l with
  | [] => []
  | n :: l' =>
      let dest := ResolveNodeIpAddress st n in
      if dest =? GetAny then traffic_pings st sock id l'
      else AppSendTo sock dest (m_appPort st) (ping_req id traffic_text) :: traffic_pings st sock (u32 (id + 1)) l'
  end.

Lemma traffic_pings_same st st' sock id l :
  m_nodeAddressMap st' = m_nodeAddressMap st -> m_appPort st' = m_appPort st ->
  traffic_pings st' sock id l = traffic_pings st sock id l.
Proof.
  intros H1 H2. revert id; induction l as [|n l IH]; intros id; cbn [traffic_pings]; [done|].
  unfold ResolveNodeIpAddress. rewrite H1, H2, !IH. done.
Qed.

Lemma traffic_loop now sock (l : stdmap Z unit) st :
  m_socket st = Some sock -> exists st',
  for_loop l (fun p => SendPing now p.1 traffic_text) st =
    Ok (tt, st', traffic_pings st sock (m_currentTransactionId st) (map_keys l)) /\
  m_trafficSet st' = m_trafficSet st /\ m_trafficRunning st' = m_trafficRunning st.
Proof.
  revert st; induction l as [|[n u] l IH]; intros st Hs; [by exists st|].
  cbn [for_loop map_keys fmap list_fmap fst traffic_pings]. unfold mbind, handler_bind.
  rewrite (SendPing_eq _ _ _ _ sock Hs). destruct (_ =? GetAny).
  { destruct (IH st Hs) as (st' & -> & H1 & H2). by exists st'. }
  destruct (IH (pinged now (ResolveNodeIpAddress st n) traffic_text st) Hs) as (st' & -> & H1 & H2).
  exists st'. split; [|done]. by erewrite traffic_pings_same.
Qed.

(** The traffic commands.  [StartTraffic] of a node that resolves adds it
    to the set, and schedules [SendTraffic] when traffic was not running.
    [StopTraffic] removes the node, but ends the traffic when nodes remain in
    the set and leaves it running when none does.  [SendTraffic] does nothing
    when traffic is not running; otherwise it pings every node of the set, in
    increasing order and with consecutive transaction numbers, and schedules
    itself one period later. *)
Theorem app_traffic st now n sock
  (Hs : m_socket st = Some sock) (Hwf : map_wf (m_trafficSet st)) :
  (exists st' out, StartTraffic n st = Ok (tt, st', out) /\
     if ResolveNodeIpAddress st n =? GetAny then st' = st /\ out = []
     else m_trafficRunning st' = true /\
       (forall k, k ∈ map_keys (m_trafficSet st') <-> k = n \/ k ∈ map_keys (m_trafficSet st)) /\
       out = if m_trafficRunning st then [] else [ScheduleSendTraffic 0]) /\
  (exists st', StopTraffic n st = Ok (tt, st', []) /\
     (forall k, k ∈ map_keys (m_trafficSet st') <-> k <> n /\ k ∈ map_keys (m_trafficSet st)) /\
     (m_trafficRunning st' = true <-> m_trafficRunning st = true /\
        (n ∈ map_keys (m_trafficSet st) -> m_trafficSet st' = []))) /\
  (exists st' out, SendTraffic now st = Ok (tt, st', out) /\
     m_trafficSet st' = m_trafficSet st /\ m_trafficRunning st' = m_trafficRunning st /\
     out = if m_trafficRunning st
       then traffic_pings st sock (m_currentTransactionId st) (map_keys (m_trafficSet st)) ++
         [ScheduleSendTraffic (m_trafficPeriod st)]
       else []).
Proof.
  split_and!.
  - unfold StartTraffic. unfold mbind at 1, handler_bind at 1, get at 1. cbn [app].
    destruct (_ =? GetAny); [by eexists _, _|]. unfold mbind, handler_bind, modify.
    assert (forall k, k ∈ map_keys (map_insert n tt (m_trafficSet st)) <-> k = n \/ k ∈ map_keys (m_trafficSet st)) as Hk.
    { intros k. rewrite <- !map_find_is_Some, map_find_insert. case_decide as E; [subst k; split; [by left|by eexists]|].
      naive_solver. }
    destruct (m_trafficRunning st) eqn:E; eexists _, _; (split; [done|]); by split_and!.
  - unfold StopTraffic. unfold mbind at 1, handler_bind at 1, get at 1. cbn [app].
    destruct (map_find n (m_trafficSet st)) eqn:E.
    + eexists. split; [done|]. cbn [set_traffic m_trafficSet m_trafficRunning]. split.
      * intros k. rewrite <- !map_find_is_Some, map_find_erase. case_decide; [|naive_solver].
        split; [by intros []|naive_solver].
      * assert (n ∈ map_keys (m_trafficSet st)) as Hn by (apply map_find_is_Some; by eexists).
        destruct (map_erase n (m_trafficSet st)) as [|p l]; cbn; [naive_solver|].
        split; [done|]. intros [_ H']. by specialize (H' Hn).
    + apply map_find_None in E. exists st. split; [done|]. split; [|naive_solver].
      intros k. split; [intros Hk; split; [by intros ->|done]|naive_solver].
  - unfold SendTraffic. unfold mbind at 1, handler_bind at 1, get at 1. cbn [app].
    destruct (m_trafficRunning st) eqn:E; cbn [negb]; [|by exists st, []].
    destruct (traffic_loop now sock (m_trafficSet st) st Hs) as (st' & H1 & H2 & H3).
    unfold mbind, handler_bind. unfold traffic_text in *. rewrite H1. eexists st', _. split; [done|].
    by rewrite H2, H3.
Qed.

(** Traffic to nodes 2 and 3; stopping node 2 silences node 3 as well. *)
Definition app_busy : TestAppState := set_traffic [(2, tt); (3, tt)] true app1.

Lemma app_traffic_witness : exists st',
  StopTraffic 2 app_busy = Ok (tt, st', []) /\ 3 ∈ map_keys (m_trafficSet st') /\
  SendTraffic 9 st' = Ok (tt, st', []) /\
  exists st2, SendTraffic 9 app_busy = Ok (tt, st2,
    [AppSendTo 50 0x0a000102 10000 (ping_req 7 traffic_text);
     AppSendTo 50 0x0a000103 10000 (ping_req 8 traffic_text); ScheduleSendTraffic (MilliSeconds 2)]).
Proof.
  destruct (app_traffic app_busy 9 2 50) as (_ & (st' & H1 & H2 & H3) & (st2 & out & H4 & _ & _ & H5)).
  - reflexivity.
  - by apply map_wf_b_spec.
  - exists st'. split; [exact H1|]. split; [apply H2; split; [done|right; left]|]. split.
    + injection H1 as <-. reflexivity.
    + exists st2. rewrite H4, H5. reflexivity.
Defined.

(** ** Events and the invariant *)

Inductive app_event : Type :=
| AppStart (newSocket : SocketPtr)
| AppStop
| AppRecv (m : TestAppMessage) (addr : Ipv4Address) (port : Z)
| AppCommand (tokens : list string)
| AppTraffic
| AppPingTimer.

Definition app_event_valid (ev : app_event) : Prop :=
  match ev with
  | AppRecv m _ _ => TestAppMessage_valid m
  | AppCommand tokens => Forall (fun t => is_u16 (str_length t)) tokens
  | _ => True
  end.

Definition run_app_event (now : Time) (ev : app_event) : H unit :=
  match ev with
  | AppStart s => StartApplication now s
  | AppStop => StopApplication
  | AppRecv m addr port => RecvMessage m addr port
  | AppCommand tokens => ProcessCommand now tokens
  | AppTraffic => SendTraffic now
  | AppPingTimer => AuditPings now
  end.

Inductive app_run (st : TestAppState) : TestAppState -> list app_action -> Prop :=
| app_run_nil : app_run st st []
| app_run_snoc now ev st' out st'' out' :
    app_run st st' out -> app_event_valid ev -> run_app_event now ev st' = Ok (tt, st'', out') ->
    app_run st st'' (out ++ out').

Record app_inv (st : TestAppState) : Prop := {
  ai_id : is_u32 (m_currentTransactionId st);
  ai_pings : map_wf (m_pingTracker st);
  ai_pings_key k r : map_find k (m_pingTracker st) = Some r ->
    k = PingRequest_m_sequenceNumber r /\ PingRequest_m_destinationAddress r <> GetAny;
  ai_traffic : map_wf (m_trafficSet st);
  ai_traffic_node n : n ∈ map_keys (m_trafficSet st) -> ResolveNodeIpAddress st n <> GetAny
}.

Definition app_valid (o : app_action) : Prop :=
  match o with AppSendTo _ addr _ m => TestAppMessage_valid m | _ => True end.

Notation triple := (htriple app_valid app_inv).

Lemma app_ret : triple (mret tt) (fun _ => app_inv).
Proof. apply (triple_ret (fun _ => app_inv)). Qed.

Lemma app_get {B} (k : TestAppState -> H B) Q :
  (forall s, htriple app_valid (fun st => st = s /\ app_inv st) (k s) Q) -> triple (get ≫= k) Q.
Proof.
  intros Hk. apply triple_get_bind. intros s I. eapply triple_conseq; [|intros a st HQ; exact HQ|apply Hk].
  by intros ? <-.
Qed.

Lemma app_weaken {A} s (h : H A) Q : triple h Q -> htriple app_valid (fun st => st = s /\ app_inv st) h Q.
Proof. intros Hh. eapply triple_conseq; [|intros a st HQ; exact HQ|exact Hh]. by intros ? []. Qed.

Lemma app_send addr port m : TestAppMessage_valid m -> triple (SendTo_socket addr port m) (fun _ => app_inv).
Proof. intros Hm. apply app_get. intros s. apply app_weaken, triple_lift_bind. intros sock _. by apply triple_emit. Qed.

Lemma app_modify f : (forall st, app_inv st -> app_inv (f st)) -> triple (modify f) (fun _ => app_inv).
Proof. intros Hf. by apply triple_modify. Qed.

Lemma inv_tracker st m : map_wf m ->
  (forall k r, map_find k m = Some r -> k = PingRequest_m_sequenceNumber r /\ PingRequest_m_destinationAddress r <> GetAny) ->
  app_inv st -> app_inv (set_pingTracker m st).
Proof. intros H1 H2 []. by split. Qed.

Lemma app_schedule now : triple (schedule_audit_pings now) (fun _ => app_inv).
Proof. apply triple_modifyM. intros st st' [] (t & _ & [= <-])%bind_Ok. by split. Qed.

Lemma SendPing_inv now n text : is_u16 (str_length text) -> triple (SendPing now n text) (fun _ => app_inv).
Proof.
  intros Ht. apply app_get. intros s. cbn zeta. destruct (Z.eqb_spec (ResolveNodeIpAddress s n) GetAny) as [|Hd];
    [apply app_weaken, app_ret|]. cbn [negb].
  eapply (triple_bind _ (fun id st => is_u32 id /\ app_inv st)).
  { intros st id st' out [-> []] [= <- <- <-]. split; [|done]. split; [done|]. split; try done. apply u32_range. }
  intros id. eapply (triple_bind _ (fun _ st => is_u32 id /\ app_inv st)).
  { apply triple_modify. intros st [Hid I]. split; [done|]. apply inv_tracker; [apply map_wf_insert, I| |done].
    intros k r. rewrite map_find_insert. case_decide as E; [|apply I]. subst k.
    destruct (map_find id (m_pingTracker st)) as [r0|] eqn:E; cbn; intros [= <-]; [by apply I|done]. }
  intros _. apply triple_lift_bind. intros m [= <-]. intros st a st' out [Hid I]. revert I.
  apply (app_send _ _ _). unfold TestAppMessage_valid. cbn. by split_and!; [|left|].
Qed.

Lemma StartTraffic_inv n : triple (StartTraffic n) (fun _ => app_inv).
Proof.
  apply app_get. intros s. cbn zeta. destruct (Z.eqb_spec (ResolveNodeIpAddress s n) GetAny) as [|Hd];
    [apply app_weaken, app_ret|].
  eapply (triple_bind _ (fun _ => app_inv)).
  - apply triple_modify. intros st [-> I]. destruct I. split; try done; cbn [set_traffic m_trafficSet];
      [by apply map_wf_insert|].
    intros k. rewrite <- map_find_is_Some, map_find_insert. case_decide; [by subst|].
    intros Hk. apply ai_traffic_node0. by apply map_find_is_Some.
  - intros _. destruct (negb _); [|apply app_ret]. eapply (triple_bind _ (fun _ => app_inv)).
    + apply app_modify. intros st []. by split.
    + intros _. by apply triple_emit.
Qed.

Lemma StopTraffic_inv n : triple (StopTraffic n) (fun _ => app_inv).
Proof.
  apply app_get. intros s. destruct (map_find n (m_trafficSet s)); [|apply app_weaken, app_ret].
  apply triple_modify. intros st [-> I]. destruct I. split; try done; cbn [set_traffic m_trafficSet];
    [by apply map_wf_erase|].
  intros k. rewrite <- map_find_is_Some, map_find_erase. case_decide; [by intros []|].
  intros Hk. apply ai_traffic_node0. by apply map_find_is_Some.
Qed.

Lemma traffic_option_inv o r : triple (traffic_option o r) (fun _ => app_inv).
Proof.
  unfold traffic_option. destruct (String.eqb _ _); [|destruct (String.eqb _ _); [|apply app_ret]];
    apply triple_lift_bind; intros n _; [apply StartTraffic_inv|apply StopTraffic_inv].
Qed.

Lemma app_command_inv now tokens : Forall (fun t => is_u16 (str_length t)) tokens ->
  triple (ProcessCommand now tokens) (fun _ => app_inv).
Proof.
  intros Ht. apply triple_lift_bind. intros command _. destruct (String.eqb command "PING").
  - destruct tokens as [|c [|n [|t tokens]]]; try apply app_ret. rewrite !Forall_cons in Ht.
    destruct (negb _).
    + apply triple_lift_bind. intros k _. apply SendPing_inv, Ht.
    + apply app_get. intros s. apply app_weaken, triple_for. intros p _. apply SendPing_inv, Ht.
  - destruct (String.eqb command "TRAFFIC"); [|apply app_ret].
    destruct tokens as [|c [|o [|t tokens]]]; try apply app_ret. destruct (negb _); [apply traffic_option_inv|].
    apply app_get. intros s. apply app_weaken, triple_for. intros p _. apply traffic_option_inv.
Qed.

Lemma RecvMessage_inv m addr port : TestAppMessage_valid m -> triple (RecvMessage m addr port) (fun _ => app_inv).
Proof.
  intros (Hid & Ht & Hl). unfold RecvMessage. cbn zeta. unfold GetMessageType.
  destruct (Z.eqb_spec (m_messageType m) PING_REQ) as [E|].
  - apply triple_lift_bind. intros r [= <-]. apply app_send. unfold selected_string in Hl. rewrite E in Hl.
    unfold TestAppMessage_valid. cbn. by split_and!; [|right|].
  - destruct (_ =? PING_RSP); [|apply app_ret]. apply app_get. intros s.
    destruct (map_find _ _); [|apply app_weaken, app_ret].
    apply triple_modify. intros st [-> I]. apply inv_tracker; [apply map_wf_erase, I| |done].
    intros k r. rewrite map_find_erase. case_decide; [done|apply I].
Qed.

Lemma app_audit_inv now : triple (AuditPings now) (fun _ => app_inv).
Proof.
  eapply (triple_bind _ (fun _ => app_inv)); [|intros ?; apply app_schedule].
  apply app_modify. intros st I. apply inv_tracker; [apply map_wf_erase_expired, I| |done].
  intros k r [Hk _]%map_find_erase_expired; [by apply I|apply I].
Qed.

Lemma StopApplication_inv : triple StopApplication (fun _ => app_inv).
Proof.
  apply app_get. intros s. apply app_weaken. eapply (triple_bind _ (fun _ => app_inv)).
  - destruct (m_socket s); [|apply app_ret]. eapply (triple_bind _ (fun _ => app_inv)).
    + by apply triple_emit.
    + intros _. apply app_modify. intros st []. by split.
  - intros _. eapply (triple_bind _ (fun _ => app_inv)); [apply app_modify; intros st []; by split|].
    intros _. apply app_modify. intros st I. apply inv_tracker; [apply map_wf_nil| |done]. done.
Qed.

Lemma run_app_event_inv now ev : app_event_valid ev -> triple (run_app_event now ev) (fun _ => app_inv).
Proof.
  destruct ev; cbn; intros Hv.
  - eapply (triple_bind _ (fun _ => app_inv)); [|intros _; apply app_schedule].
    apply app_modify. intros st []. destruct (m_socket st); by split.
  - apply StopApplication_inv.
  - by apply RecvMessage_inv.
  - by apply app_command_inv.
  - apply app_get. intros s. destruct (negb _); [apply app_weaken, app_ret|].
    apply app_weaken. eapply (triple_bind _ (fun _ => app_inv)); [|intros _; by apply triple_emit].
    apply triple_for. intros p _. by apply SendPing_inv.
  - apply app_audit_inv.
Qed.

(** (C39) The invariant of the application.  Whatever it is told to do, in any
    order, as long as nothing faults: every tracked ping is filed under its
    transaction number and went to a real address, every node of the traffic
    set resolves, so that every period pings all of them, and every message
    sent fits the wire format. *)
Theorem app_invariant st st' out (HI : app_inv st) (Hrun : app_run st st' out) :
  app_inv st' /\ Forall app_valid out.
Proof.
  induction Hrun as [|now ev st' out st'' out' Hrun [I Ho] Hv Hev]; [by split|].
  destruct (run_app_event_inv now ev Hv _ _ _ _ I Hev). split; [done|]. by apply Forall_app.
Qed.

Lemma app_invariant_witness : exists st' out,
  app_run app1 st' out /\ app_inv st' /\ Forall app_valid out /\ length out = 4%nat.
Proof.
  destruct (run_app_event 5 (AppCommand ["TRAFFIC"; "START"; "*"]%string) app1) as [[[[] s1] o1]|f] eqn:E1;
    [|by vm_compute in E1].
  destruct (run_app_event 5 AppTraffic s1) as [[[[] s2] o2]|f] eqn:E2.
  - assert (app_run app1 s2 (([] ++ o1) ++ o2)) as Hrun.
    { eapply app_run_snoc; [eapply app_run_snoc; [apply app_run_nil| |exact E1]| |exact E2].
      - by apply (bool_decide_unpack _).
      - exact I. }
    destruct (app_invariant app1 s2 _ ltac:(split; by (apply map_wf_b_spec || done || intros ? ?%not_elem_of_nil)) Hrun)
      as [H1 H2].
    exists s2, (([] ++ o1) ++ o2). split; [exact Hrun|]. split; [exact H1|]. split; [exact H2|].
    vm_compute in E1. injection E1 as <- <-. vm_compute in E2. injection E2 as <- <-. reflexivity.
  - vm_compute in E1. injection E1 as <- <-. by vm_compute in E2.
Defined.
