(* ===== verification/StaticRouting.v ===== *)
(** * StaticRouting: the routes of the connected networks and of the user

    src/ns-3/src/routing/static-routing/ipv4-routing-table-entry.cc and
    ipv4-static-routing.cc: the protocol both routing protocols of cs433 fall
    back on.  [m_networkRoutes] and [m_multicastRoutes] are the lists of the
    source, with the entries themselves in the place of the pointers, which
    are not shared.  [m_ipv4] is the present view of the node's IP stack; when
    the stack itself changes (an interface is set up or down, an address comes
    or goes) this field is replaced ([set_ipv4]). *)

From S2P Require Import Prelude StdMap StdString Ipv4Address Node.

(** ** Table entries *)

Record Ipv4RoutingTableEntry := mkEntry {
  GetDest : Ipv4Address;
  GetDestNetworkMask : Ipv4Mask;
  GetGateway : Ipv4Address;
  GetInterface : Z
}.

#[export] Instance Ipv4RoutingTableEntry_eq_dec : EqDecision Ipv4RoutingTableEntry.
Proof. solve_decision. Defined.

Definition GetDestNetwork (r : Ipv4RoutingTableEntry) : Ipv4Address := GetDest r.

Definition IsHost (r : Ipv4RoutingTableEntry) : bool := Mask_IsEqual (GetDestNetworkMask r) Mask_GetOnes.
Definition IsNetwork (r : Ipv4RoutingTableEntry) : bool := negb (IsHost r).
Definition IsDefault (r : Ipv4RoutingTableEntry) : bool := GetZero =? GetDest r.
Definition IsGateway (r : Ipv4RoutingTableEntry) : bool := negb (GetZero =? GetGateway r).

Definition CreateHostRouteTo (dest nextHop : Ipv4Address) (interface : Z) : Ipv4RoutingTableEntry :=
  mkEntry dest Mask_GetOnes nextHop interface.
Definition CreateHostRouteTo_direct (dest : Ipv4Address) (interface : Z) : Ipv4RoutingTableEntry :=
  mkEntry dest Mask_GetOnes GetZero interface.
Definition CreateNetworkRouteTo (network : Ipv4Address) (networkMask : Ipv4Mask) (nextHop : Ipv4Address)
    (interface : Z) : Ipv4RoutingTableEntry :=
  mkEntry network networkMask nextHop interface.
Definition CreateNetworkRouteTo_direct (network : Ipv4Address) (networkMask : Ipv4Mask) (interface : Z)
    : Ipv4RoutingTableEntry :=
  mkEntry network networkMask GetZero interface.
(** The mask is that of a host route. *)
Definition CreateDefaultRoute (nextHop : Ipv4Address) (interface : Z) : Ipv4RoutingTableEntry :=
  mkEntry GetZero Mask_GetOnes nextHop interface.

(** [operator<<]: the text of an entry. *)
Definition Entry_Print (route : Ipv4RoutingTableEntry) : result string :=
  let out := show_uint (GetInterface route) in
  let hop := ", next hop=" +:+ Addr_Print (GetGateway route) in
  if IsDefault route then
    _ ← assert (IsGateway route);
    Ok ("default out=" +:+ out +:+ hop)
  else if IsHost route then
    let text := "host=" +:+ Addr_Print (GetDest route) +:+ ", out=" +:+ out in
    if IsGateway route then Ok (text +:+ hop) else Ok text
  else
    let text := "network=" +:+ Addr_Print (GetDestNetwork route) +:+
      ", mask=" +:+ Addr_Print (GetDestNetworkMask route) +:+ ",out=" +:+ out in
    if IsGateway route then Ok (text +:+ hop) else Ok text.

Record Ipv4MulticastRoutingTableEntry := mkMulticastEntry {
  GetOrigin : Ipv4Address;
  GetGroup : Ipv4Address;
  GetInputInterface : Z;
  GetOutputInterfaces : list Z
}.

Definition GetNOutputInterfaces (r : Ipv4MulticastRoutingTableEntry) : Z :=
  u32 (Z.of_nat (length (GetOutputInterfaces r))).
Definition GetOutputInterface (r : Ipv4MulticastRoutingTableEntry) (n : Z) : result Z :=
  GetOutputInterfaces r !! Z.to_nat n ?? AssertFailed.
Definition CreateMulticastRoute (origin group : Ipv4Address) (inputInterface : Z) (outputInterfaces : list Z)
    : Ipv4MulticastRoutingTableEntry :=
  mkMulticastEntry origin group inputInterface outputInterfaces.

Definition MulticastEntry_Print (route : Ipv4MulticastRoutingTableEntry) : string :=
  "origin=" +:+ Addr_Print (GetOrigin route) +:+ ", group=" +:+ Addr_Print (GetGroup route) +:+
  ", input interface=" +:+ show_uint (GetInputInterface route) +:+ ", output interfaces=" +:+
  foldr (fun i s => show_uint i +:+ " " +:+ s) EmptyString (GetOutputInterfaces route).

(** ** The protocol object *)

Record StaticState := mkStatic {
  m_networkRoutes : list (Ipv4RoutingTableEntry * Z);
  m_multicastRoutes : list Ipv4MulticastRoutingTableEntry;
  m_ipv4 : option Ipv4
}.

Definition set_networkRoutes (l : list (Ipv4RoutingTableEntry * Z)) (st : StaticState) : StaticState :=
  mkStatic l (m_multicastRoutes st) (m_ipv4 st).
Definition set_multicastRoutes (l : list Ipv4MulticastRoutingTableEntry) (st : StaticState) : StaticState :=
  mkStatic (m_networkRoutes st) l (m_ipv4 st).
Definition set_ipv4 (ip : option Ipv4) (st : StaticState) : StaticState :=
  mkStatic (m_networkRoutes st) (m_multicastRoutes st) ip.

Definition MakeIpv4StaticRouting : StaticState := mkStatic [] [] None.

(** The stack behind [m_ipv4->]. *)
Definition stack (st : StaticState) : result Ipv4 := m_ipv4 st ?? NullDeref.

(** [m_networkRoutes.push_back] *)
Definition push_route (route : Ipv4RoutingTableEntry) (metric : Z) (st : StaticState) : StaticState :=
  set_networkRoutes (m_networkRoutes st ++ [(route, metric)]) st.

Definition AddNetworkRouteTo (network : Ipv4Address) (networkMask : Ipv4Mask) (nextHop : Ipv4Address)
    (interface metric : Z) : StaticState -> StaticState :=
  push_route (CreateNetworkRouteTo network networkMask nextHop interface) metric.
Definition AddNetworkRouteTo_direct (network : Ipv4Address) (networkMask : Ipv4Mask) (interface metric : Z)
    : StaticState -> StaticState :=
  push_route (CreateNetworkRouteTo_direct network networkMask interface) metric.
Definition AddHostRouteTo (dest nextHop : Ipv4Address) (interface metric : Z) : StaticState -> StaticState :=
  AddNetworkRouteTo dest Mask_GetOnes nextHop interface metric.
Definition AddHostRouteTo_direct (dest : Ipv4Address) (interface metric : Z) : StaticState -> StaticState :=
  AddNetworkRouteTo_direct dest Mask_GetOnes interface metric.
Definition SetDefaultRoute (nextHop : Ipv4Address) (interface metric : Z) : StaticState -> StaticState :=
  AddNetworkRouteTo (AsciiToIpv4Host "0.0.0.0") Mask_GetZero nextHop interface metric.

Definition AddMulticastRoute (origin group : Ipv4Address) (inputInterface : Z) (outputInterfaces : list Z)
    (st : StaticState) : StaticState :=
  set_multicastRoutes (m_multicastRoutes st ++ [CreateMulticastRoute origin group inputInterface outputInterfaces]) st.
Definition SetDefaultMulticastRoute (outputInterface : Z) (st : StaticState) : result StaticState :=
  let network := AsciiToIpv4Host "224.0.0.0" in
  networkMask ← Ipv4Mask_of_string "240.0.0.0";
  Ok (push_route (CreateNetworkRouteTo_direct network networkMask outputInterface) 0 st).

Definition GetNMulticastRoutes (st : StaticState) : Z := u32 (Z.of_nat (length (m_multicastRoutes st))).
Definition GetMulticastRoute (st : StaticState) (index : Z) : result Ipv4MulticastRoutingTableEntry :=
  m_multicastRoutes st !! Z.to_nat index ?? AssertFailed.

(** Erases the first entry with these keys; the result tells whether there was
    one. *)
Fixpoint remove_multicast (origin group : Ipv4Address) (inputInterface : Z)
    (l : list Ipv4MulticastRoutingTableEntry) : bool * list Ipv4MulticastRoutingTableEntry :=
  match l with
  | [] => (false, [])
  | r :: l' =>
      if (origin =? GetOrigin r) && (group =? GetGroup r) && (inputInterface =? GetInputInterface r) then (true, l')
      else let '(b, l'') := remove_multicast origin group inputInterface l' in (b, r :: l'')
  end.
Definition RemoveMulticastRoute (origin group : Ipv4Address) (inputInterface : Z) (st : StaticState)
    : bool * StaticState :=
  let '(b, l) := remove_multicast origin group inputInterface (m_multicastRoutes st) in
  (b, set_multicastRoutes l st).
(** An index that does not exist removes nothing. *)
Definition RemoveMulticastRoute_index (index : Z) (st : StaticState) : StaticState :=
  set_multicastRoutes (delete (Z.to_nat index) (m_multicastRoutes st)) st.

Definition GetNRoutes (st : StaticState) : Z := u32 (Z.of_nat (length (m_networkRoutes st))).
Definition GetRoute (st : StaticState) (index : Z) : result Ipv4RoutingTableEntry :=
  r ← m_networkRoutes st !! Z.to_nat index ?? AssertFailed; Ok r.1.
Definition GetMetric (st : StaticState) (index : Z) : result Z :=
  r ← m_networkRoutes st !! Z.to_nat index ?? AssertFailed; Ok r.2.
Definition RemoveRoute (index : Z) (st : StaticState) : result StaticState :=
  _ ← m_networkRoutes st !! Z.to_nat index ?? AssertFailed;
  Ok (set_networkRoutes (delete (Z.to_nat index) (m_networkRoutes st)) st).

(** ** Lookup *)

(** The loop of [SourceAddressSelection] over the addresses of the interface. *)
Fixpoint source_loop (ip : Ipv4) (interfaceIdx : Z) (dest candidate : Ipv4Address) (l : list Z) : result Ipv4Address :=
  match l with
  | [] => Ok candidate
  | i :: l' =>
      test ← GetAddress ip interfaceIdx i;
      if (CombineMask (m_local test) (m_mask test) =? CombineMask dest (m_mask test)) && negb (m_secondary test)
      then Ok (m_local test)
      else source_loop ip interfaceIdx dest candidate l'
  end.

Definition SourceAddressSelection (st : StaticState) (interfaceIdx : Z) (dest : Ipv4Address) : result Ipv4Address :=
  ip ← stack st;
  n ← GetNAddresses ip interfaceIdx;
  first ← GetAddress ip interfaceIdx 0;
  if n =? 1 then Ok (m_local first)
  else source_loop ip interfaceIdx dest (m_local first) (seqZ 0 n).

(** [mask.GetPrefixLength ()]; its loop ends within 32 rounds on every 32-bit
    mask ([GetPrefixLength_loop_spec]). *)
Definition prefix_length (m : Ipv4Mask) : Z :=
  match GetPrefixLength m with Some n => n | None => 32 end.

(** [oif != 0 && oif != m_ipv4->GetNetDevice (j->GetInterface ())] *)
Definition other_interface (st : StaticState) (oif : option NetDevice) (j : Ipv4RoutingTableEntry) : result bool :=
  match oif with
  | None => Ok false
  | Some d => ip ← stack st; dev ← GetNetDevice ip (GetInterface j); Ok (negb (d =? dev))
  end.

(** The [Ipv4Route] made of an entry. *)
Definition make_route (st : StaticState) (route : Ipv4RoutingTableEntry) : result Ipv4Route :=
  let interfaceIdx := GetInterface route in
  source ← SourceAddressSelection st interfaceIdx (GetDest route);
  ip ← stack st;
  dev ← GetNetDevice ip interfaceIdx;
  Ok (mkRoute (GetDest route) source (GetGateway route) dev).

(** One network route: [rtentry], [longest_mask] and [shortest_metric]. *)
Definition lookup_step (st : StaticState) (dest : Ipv4Address) (oif : option NetDevice)
    (acc : option Ipv4Route * Z * Z) (i : Ipv4RoutingTableEntry * Z) : result (option Ipv4Route * Z * Z) :=
  let '(rtentry, longest_mask, shortest_metric) := acc in
  let '(j, metric) := i in
  let mask := GetDestNetworkMask j in
  let masklen := prefix_length mask in
  if IsMatch mask dest (GetDestNetwork j) then
    skip ← other_interface st oif j;
    if skip : bool then Ok acc
    else if masklen <? longest_mask then Ok acc
    else
      let shortest_metric := if longest_mask <? masklen then 0xffffffff else shortest_metric in
      if shortest_metric <? metric then Ok (rtentry, masklen, shortest_metric)
      else rtentry ← make_route st j; Ok (Some rtentry, masklen, metric)
  else Ok acc.

Definition LookupStatic (st : StaticState) (dest : Ipv4Address) (oif : option NetDevice) : result (option Ipv4Route) :=
  if IsLocalMulticast dest then
    oif ← oif ?? AssertFailed;
    ip ← stack st;
    address ← GetAddress ip (GetIfIndex ip oif) 0;
    Ok (Some (mkRoute dest (m_local address) GetZero oif))
  else
    r ← foldM (lookup_step st dest oif) (None, 0, 0xffffffff) (m_networkRoutes st);
    Ok r.1.1.

Definition IF_ANY : Z := 0xffffffff.
Definition MAX_INTERFACES : nat := 16.
Definition MAX_TTL : Z := 255.

(** [Ipv4MulticastRoute::SetOutputTtl]: [m_ttls[oif] = ttl]. *)
Definition SetOutputTtl (oif ttl : Z) (ttls : list Z) : result (list Z) :=
  _ ← ttls !! Z.to_nat oif ?? OutOfRange;
  Ok (<[Z.to_nat oif := ttl]> ttls).

Definition output_ttls (route : Ipv4MulticastRoutingTableEntry) : result (list Z) :=
  foldM (fun ttls oif => if oif =? 0 then Ok ttls else SetOutputTtl oif (MAX_TTL - 1) ttls)
    (replicate MAX_INTERFACES MAX_TTL) (GetOutputInterfaces route).

Fixpoint lookup_multicast (group : Ipv4Address) (interface : Z) (l : list Ipv4MulticastRoutingTableEntry)
    : result (option Ipv4MulticastRoute) :=
  match l with
  | [] => Ok None
  | route :: l' =>
      if (group =? GetGroup route) && ((interface =? IF_ANY) || (interface =? GetInputInterface route)) then
        ttls ← output_ttls route;
        Ok (Some (mkMulticastRoute (GetGroup route) (GetOrigin route) (GetInputInterface route) ttls))
      else lookup_multicast group interface l'
  end.

(** The origin is only compared for a log message. *)
Definition LookupStatic_multicast (st : StaticState) (origin group : Ipv4Address) (interface : Z)
    : result (option Ipv4MulticastRoute) :=
  lookup_multicast group interface (m_multicastRoutes st).

(** [uninit]: the interface number of a default-constructed entry, which no
    constructor sets. *)
Definition GetDefaultRoute (uninit : Z) (st : StaticState) : Ipv4RoutingTableEntry :=
  let r := foldl (fun (acc : option Ipv4RoutingTableEntry * Z) i =>
    let '(j, metric) := i in
    if negb (prefix_length (GetDestNetworkMask j) =? 0) then acc
    else if acc.2 <? metric then acc
    else (Some j, metric)) (None, 0xffffffff) (m_networkRoutes st) in
  match r.1 with
  | Some j => j
  | None => mkEntry Ipv4Address_default Ipv4Mask_default Ipv4Address_default uninit
  end.

(** ** Routing *)

Definition ERROR_NOTERROR : Z := 0.
Definition ERROR_NOROUTETOHOST : Z := 10.

(** The old value of [sockerr] is overwritten. *)
Definition RouteOutput (st : StaticState) (p : Packet) (header : Ipv4Header) (oif : option NetDevice) (sockerr : Z)
    : result (option Ipv4Route * Z) :=
  rtentry ← LookupStatic st (GetDestination header) oif;
  Ok (rtentry, match rtentry with Some _ => ERROR_NOTERROR | None => ERROR_NOROUTETOHOST end).

(** The loop over the addresses of one interface: is one of them, or its
    broadcast address, the destination? *)
Fixpoint for_me_on (ip : Ipv4) (dest : Ipv4Address) (j : Z) (l : list Z) : result bool :=
  match l with
  | [] => Ok false
  | i :: l' =>
      iaddr ← GetAddress ip j i;
      if (m_local iaddr =? dest) || (dest =? m_broadcast iaddr) then Ok true
      else for_me_on ip dest j l'
  end.

Fixpoint for_me (ip : Ipv4) (dest : Ipv4Address) (l : list Z) : result bool :=
  match l with
  | [] => Ok false
  | j :: l' =>
      n ← GetNAddresses ip j;
      b ← for_me_on ip dest j (seqZ 0 n);
      if b : bool then Ok true else for_me ip dest l'
  end.

(** A call of a callback that is not set dereferences null; only [lcb] may be
    missing. *)
Definition RouteInput {M} (st : StaticState) (p : Packet) (ipHeader : Ipv4Header) (idev : NetDevice) (lcb : bool)
    : result (bool * list (action M)) :=
  let dest := GetDestination ipHeader in
  ip ← m_ipv4 st ?? AssertFailed;
  _ ← assert (0 <=? GetInterfaceForDevice ip idev);
  let iif := u32 (GetInterfaceForDevice ip idev) in
  if IsMulticast dest then
    mrtentry ← LookupStatic_multicast st (GetSource ipHeader) dest iif;
    match mrtentry with
    | Some r => Ok (true, [MulticastForward r p])
    | None => Ok (false, [])
    end
  else
    local ← for_me ip dest (seqZ 0 (GetNInterfaces ip));
    if local : bool then (if lcb then Ok (true, [LocalDeliver p iif]) else Fault NullDeref)
    else
      forwarding ← IsForwarding ip iif;
      if negb forwarding then Ok (false, [RouteError p ERROR_NOROUTETOHOST])
      else
        rtentry ← LookupStatic st dest None;
        match rtentry with
        | Some r => Ok (true, [UnicastForward r p])
        | None => Ok (false, [])
        end.

Definition DoDispose (st : StaticState) : StaticState := mkStatic [] [] None.

(** ** Changes of the interfaces *)

(** The route to the network of an address of interface [i]. *)
Definition network_route (address : Ipv4InterfaceAddress) (i : Z) : StaticState -> StaticState :=
  AddNetworkRouteTo_direct (CombineMask (m_local address) (m_mask address)) (m_mask address) i 0.

Definition NotifyInterfaceUp (i : Z) (st : StaticState) : result StaticState :=
  ip ← stack st;
  n ← GetNAddresses ip i;
  foldM (fun st j =>
    address ← GetAddress ip i j;
    if negb (m_local address =? Ipv4Address_default) && negb (m_mask address =? Ipv4Mask_default) &&
       negb (m_mask address =? Mask_GetOnes)
    then Ok (network_route address i st) else Ok st) st (seqZ 0 n).

(** [while (j < GetNRoutes ())]: every round removes a route or moves on, so
    the number of routes is enough rounds. *)
Fixpoint NotifyInterfaceDown_loop (rounds : nat) (i j : Z) (st : StaticState) : result StaticState :=
  if j <? GetNRoutes st then
    match rounds with
    | O => Ok st
    | S rounds' =>
        route ← GetRoute st j;
        if GetInterface route =? i then
          st ← RemoveRoute j st; NotifyInterfaceDown_loop rounds' i j st
        else NotifyInterfaceDown_loop rounds' i (u32 (j + 1)) st
    end
  else Ok st.
Definition NotifyInterfaceDown (i : Z) (st : StaticState) : result StaticState :=
  NotifyInterfaceDown_loop (length (m_networkRoutes st)) i 0 st.

Definition NotifyAddAddress (interface : Z) (address : Ipv4InterfaceAddress) (st : StaticState) : result StaticState :=
  ip ← stack st;
  up ← IsUp ip interface;
  if negb up then Ok st
  else if negb (m_local address =? Ipv4Address_default) && negb (m_mask address =? Ipv4Mask_default)
  then Ok (network_route address interface st) else Ok st.

(** The test of [NotifyRemoveAddress]. *)
Definition references (interface : Z) (address : Ipv4InterfaceAddress) (route : Ipv4RoutingTableEntry) : bool :=
  (GetInterface route =? interface) && IsNetwork route &&
  (GetDestNetwork route =? CombineMask (m_local address) (m_mask address)) &&
  (GetDestNetworkMask route =? m_mask address).

(** [for (j = 0; j < GetNRoutes (); j++)]: [j] also moves on after a removal. *)
Fixpoint NotifyRemoveAddress_loop (rounds : nat) (interface : Z) (address : Ipv4InterfaceAddress) (j : Z)
    (st : StaticState) : result StaticState :=
  if j <? GetNRoutes st then
    match rounds with
    | O => Ok st
    | S rounds' =>
        route ← GetRoute st j;
        st ← (if references interface address route then RemoveRoute j st else Ok st);
        NotifyRemoveAddress_loop rounds' interface address (u32 (j + 1)) st
    end
  else Ok st.
Definition NotifyRemoveAddress (interface : Z) (address : Ipv4InterfaceAddress) (st : StaticState)
    : result StaticState :=
  ip ← stack st;
  up ← IsUp ip interface;
  if negb up then Ok st
  else NotifyRemoveAddress_loop (length (m_networkRoutes st)) interface address 0 st.

Definition SetIpv4 (ip : Ipv4) (st : StaticState) : result StaticState :=
  _ ← assert (match m_ipv4 st with None => true | Some _ => false end);
  foldM (fun st i =>
    up ← IsUp ip i;
    if up : bool then NotifyInterfaceUp i st else NotifyInterfaceDown i st)
    (set_ipv4 (Some ip) st) (seqZ 0 (GetNInterfaces ip)).

(** Static routing as the fallback of the routing protocols. *)
#[export] Instance static_routing : Ipv4RoutingProtocol StaticState := {|
  new_protocol := MakeIpv4StaticRouting;
  RouteOutput_ := RouteOutput;
  RouteInput_ M := RouteInput;
  NotifyInterfaceUp_ := NotifyInterfaceUp;
  NotifyInterfaceDown_ := NotifyInterfaceDown;
  NotifyAddAddress_ := NotifyAddAddress;
  NotifyRemoveAddress_ := NotifyRemoveAddress;
  SetIpv4_ := SetIpv4;
  StackChanged_ ip st := match m_ipv4 st with Some _ => set_ipv4 (Some ip) st | None => st end |}.
