(* ===== verification/StaticSpec.v ===== *)
(** * StaticSpec: what static routing promises

    Longest-prefix matching of Ipv4StaticRouting::LookupStatic, the upkeep of
    the connected networks' routes by the Notify functions, and the data plane
    of ipv4-static-routing.cc. *)

From S2P Require Import Prelude StdMap StdString Ipv4Address Node StaticRouting.

(** ** Longest-prefix matching *)

Section lookup.
Context (st : StaticState) (dest : Ipv4Address) (oif : option NetDevice).
Notation Route := (Ipv4RoutingTableEntry * Z)%type.
Implicit Types (r : Route) (l : list Route).

(** A route to a network that holds [dest], out of the requested interface. *)
Definition candidate r : bool :=
  IsMatch (GetDestNetworkMask r.1) dest (GetDestNetwork r.1) &&
  match other_interface st oif r.1 with Ok skip => negb skip | Fault _ => false end.

(** [r'] is at least as good as [r]: a longer prefix, or the same and a metric
    that is not larger. *)
Definition at_least r r' : bool :=
  let p := prefix_length (GetDestNetworkMask r.1) in
  let p' := prefix_length (GetDestNetworkMask r'.1) in
  (p <? p') || ((p =? p') && (r'.2 <=? r.2)).

(** The route that must be chosen: the last of the best candidates. *)
Definition chosen l r : Prop := exists l1 l2,
  l = l1 ++ r :: l2 /\ candidate r = true /\
  (forall r1, r1 ∈ l1 -> candidate r1 = true -> at_least r1 r = true) /\
  (forall r2, r2 ∈ l2 -> candidate r2 = true -> at_least r r2 = false).

(** What the code asks of the stack for this lookup is defined. *)
Definition route_defined r : Prop :=
  is_u32 r.2 /\ (exists skip, other_interface st oif r.1 = Ok skip) /\ exists rt, make_route st r.1 = Ok rt.

Lemma at_least_trans r1 r2 r3 : at_least r1 r2 = true -> at_least r2 r3 = true -> at_least r1 r3 = true.
Proof. unfold at_least. cbn zeta. intros. lia. Qed.

(** The chosen route of a list with one more route. *)
Lemma chosen_snoc_skip l r r0 : chosen l r -> (candidate r0 = true -> at_least r r0 = false) -> chosen (l ++ [r0]) r.
Proof.
  intros (l1 & l2 & -> & Hc & H1 & H2) Hr0. exists l1, (l2 ++ [r0]). split_and!; [by rewrite <- app_assoc|done..|].
  intros r2 [Hr2| ->%list_elem_of_singleton]%elem_of_app; auto.
Qed.

Lemma chosen_snoc_take l r r0 : chosen l r -> candidate r0 = true -> at_least r r0 = true -> chosen (l ++ [r0]) r0.
Proof.
  intros (l1 & l2 & -> & Hc & H1 & H2) Hr0 Hle. exists (l1 ++ r :: l2), []. split_and!; [done|done| |].
  - intros r1 [Hr1|[->|Hr1]%elem_of_cons]%elem_of_app Hc1; [|done|].
    + by apply at_least_trans with r; [apply H1|].
    + specialize (H2 _ Hr1 Hc1). unfold at_least in *. cbn zeta in *. lia.
  - by intros r2 ?%not_elem_of_nil.
Qed.

Lemma chosen_first l r : (forall r', r' ∈ l -> candidate r' = false) -> candidate r = true -> chosen (l ++ [r]) r.
Proof.
  intros Hl Hr. exists l, []. split_and!; [done|done| |by intros ? ?%not_elem_of_nil].
  intros r1 Hr1 Hc. by rewrite Hl in Hc.
Qed.

(** The loop invariant, after the routes [l]. *)
Definition looked_up l (acc : option Ipv4Route * Z * Z) : Prop :=
  ((forall r, r ∈ l -> candidate r = false) /\ acc = (None, 0, 0xffffffff)) \/
  exists r rt, chosen l r /\ make_route st r.1 = Ok rt /\
    acc = (Some rt, prefix_length (GetDestNetworkMask r.1), r.2).

Lemma prefix_length_nonneg m : 0 <= prefix_length m.
Proof.
  unfold prefix_length, GetPrefixLength. enough (forall fuel m t n, 0 <= t -> GetPrefixLength_loop fuel m t = Some n -> 0 <= n) as H.
  { destruct (GetPrefixLength_loop _ _ _) eqn:E; [|lia]. by eapply H, E. }
  induction fuel as [|fuel IH]; intros m' t n Ht; cbn [GetPrefixLength_loop]; destruct (m' =? 0); try done.
  - intros [= <-]. done.
  - intros [= <-]. done.
  - apply IH. apply u16_range.
Qed.

Lemma lookup_step_spec l acc r :
  route_defined r -> looked_up l acc ->
  exists acc', lookup_step st dest oif acc r = Ok acc' /\ looked_up (l ++ [r]) acc'.
Proof.
  intros (Hu & (skip & Hskip) & (rt & Hrt)) Hacc. destruct acc as [[rtentry longest] shortest], r as [j metric].
  cbn [fst snd] in *. unfold lookup_step. destruct (candidate (j, metric)) eqn:Hc.
  - assert (Hc' := Hc). unfold candidate in Hc'. cbn [fst] in Hc'. rewrite Hskip in Hc'.
    apply andb_true_iff in Hc' as [-> Hs]. rewrite Hskip. cbn [mbind result_bind]. destruct skip; [done|].
    destruct Hacc as [[Hnone [= -> -> ->]]|(r & rt0 & Hch & Hrt0 & [= -> -> ->])].
    + pose proof (prefix_length_nonneg (GetDestNetworkMask j)). unfold is_u32 in Hu.
      rewrite (proj2 (Z.ltb_ge _ 0)) by done.
      replace (if 0 <? _ then _ else _) with 4294967295 by by destruct (0 <? _).
      rewrite (proj2 (Z.ltb_ge _ metric)) by lia. rewrite Hrt. eexists; split; [done|]. right.
      exists (j, metric), rt. split_and!; [by apply chosen_first|done..].
    + destruct (Z.ltb_spec (prefix_length (GetDestNetworkMask j)) (prefix_length (GetDestNetworkMask r.1))) as [Hlt|Hge].
      { eexists; split; [done|]. right. exists r, rt0. split_and!; [|done..].
        apply chosen_snoc_skip; [done|]. intros _. unfold at_least. cbn [fst snd]. lia. }
      destruct (Z.ltb_spec (prefix_length (GetDestNetworkMask r.1)) (prefix_length (GetDestNetworkMask j))) as [Hgt|Heq].
      * unfold is_u32 in Hu. rewrite (proj2 (Z.ltb_ge _ metric)) by lia. rewrite Hrt. eexists; split; [done|]. right.
        exists (j, metric), rt. split_and!; [|done..]. eapply chosen_snoc_take; [done..|]. unfold at_least. cbn [fst snd]. lia.
      * assert (prefix_length (GetDestNetworkMask j) = prefix_length (GetDestNetworkMask r.1)) as Hp by lia.
        destruct (Z.ltb_spec r.2 metric) as [Hm|Hm].
        -- eexists; split; [done|]. right. exists r, rt0. split_and!; [|done|by rewrite Hp].
           apply chosen_snoc_skip; [done|]. intros _. unfold at_least. cbn [fst snd]. lia.
        -- rewrite Hrt. eexists; split; [done|]. right. exists (j, metric), rt. split_and!; [|done..].
           eapply chosen_snoc_take; [done..|]. unfold at_least. cbn [fst snd]. lia.
  - exists (rtentry, longest, shortest). split.
    + unfold candidate in Hc. cbn [fst] in Hc. rewrite Hskip in *. destruct (IsMatch _ _ _); [|done].
      cbn [mbind result_bind]. by destruct skip.
    + destruct Hacc as [[Hnone Hacc]|(r & rt0 & Hch & Hrt0 & Hacc)]; [left|right].
      * split; [|done]. by intros r' [Hr| ->%list_elem_of_singleton]%elem_of_app; [apply Hnone|].
      * exists r, rt0. split_and!; [|done..]. apply chosen_snoc_skip; [done|]. by rewrite Hc.
Qed.

Lemma LookupStatic_spec :
  IsLocalMulticast dest = false -> Forall route_defined (m_networkRoutes st) ->
  (LookupStatic st dest oif = Ok None /\ forall r, r ∈ m_networkRoutes st -> candidate r = false) \/
  exists r rt, chosen (m_networkRoutes st) r /\ make_route st r.1 = Ok rt /\ LookupStatic st dest oif = Ok (Some rt).
Proof.
  intros Hm Hd. unfold LookupStatic. rewrite Hm.
  destruct (foldM_prefix looked_up (lookup_step st dest oif) (m_networkRoutes st) (None, 0, 0xffffffff))
    as (acc & -> & Hacc).
  { left. split; [|done]. by intros r ?%not_elem_of_nil. }
  { intros l1 r l2 acc Hl Hacc. apply lookup_step_spec; [|done]. rewrite Hl in Hd.
    by apply Forall_app in Hd as [_ [Hr _]%Forall_cons]. }
  cbn [mbind result_bind]. destruct Hacc as [[Hn ->]|(r & rt & Hch & Hrt & ->)]; [by left|].
  right. by exists r, rt.
Qed.
End lookup.

(** ** The loops over the routes *)

Section notifications.
Notation Route := (Ipv4RoutingTableEntry * Z)%type.
Implicit Types (st : StaticState) (l : list Route) (ip : Ipv4).

(** A 32-bit count of the routes counts them all. *)
Definition countable st : Prop := Z.of_nat (length (m_networkRoutes st)) < 2 ^ 32.

Lemma GetNRoutes_spec st : countable st -> GetNRoutes st = Z.of_nat (length (m_networkRoutes st)).
Proof. intros H. unfold countable in H. apply u32_small. unfold is_u32. lia. Qed.

Lemma set_same st : set_networkRoutes (m_networkRoutes st) st = st.
Proof. by destruct st. Qed.

(** The route behind the first [length l1]. *)
Lemma route_at {A} (l1 : list A) (a : A) (l2 : list A) : (l1 ++ a :: l2) !! Z.to_nat (Z.of_nat (length l1)) = Some a.
Proof. rewrite Nat2Z.id. by apply list_lookup_middle. Qed.

Lemma delete_at {A} (l1 : list A) (a : A) (l2 : list A) : delete (Z.to_nat (Z.of_nat (length l1))) (l1 ++ a :: l2) = l1 ++ l2.
Proof. rewrite Nat2Z.id. apply delete_middle. Qed.

Lemma next_index {A} (l1 : list A) (a : A) : Z.of_nat (length l1) + 1 = Z.of_nat (length (l1 ++ [a])).
Proof. rewrite length_app. cbn. lia. Qed.

Lemma NotifyInterfaceDown_loop_spec i l2 : forall rounds l1 st,
  m_networkRoutes st = l1 ++ l2 -> (length l2 <= rounds)%nat -> countable st ->
  NotifyInterfaceDown_loop rounds i (Z.of_nat (length l1)) st =
    Ok (set_networkRoutes (l1 ++ filter (fun r => GetInterface r.1 <> i) l2) st).
Proof.
  induction l2 as [|r l2 IH]; intros rounds l1 st Hl Hn Hc.
  - assert (Z.of_nat (length l1) <? GetNRoutes st = false) as Hj.
    { rewrite GetNRoutes_spec, Hl, app_nil_r by done. lia. }
    rewrite app_nil_r in *. subst l1. rewrite set_same. destruct rounds; cbn [NotifyInterfaceDown_loop]; by rewrite Hj.
  - destruct rounds as [|rounds]; [cbn in Hn; lia|]. cbn [NotifyInterfaceDown_loop].
    assert (Z.of_nat (length l1) <? GetNRoutes st = true) as ->.
    { rewrite GetNRoutes_spec, Hl, length_app by done. cbn [length]. apply Z.ltb_lt. lia. }
    unfold GetRoute, RemoveRoute. rewrite Hl, route_at. cbn [or_fault mbind result_bind].
    rewrite filter_cons.
    destruct (Z.eqb_spec (GetInterface r.1) i) as [E|E].
    + rewrite decide_False by tauto. rewrite delete_at, (IH _ l1); [done|done|cbn in Hn; lia|].
      unfold countable in *. cbn [set_networkRoutes m_networkRoutes]. rewrite Hl in Hc. rewrite !length_app in *. cbn [length] in Hc. lia.
    + rewrite decide_True by done. rewrite next_index with (a := r), u32_small, (IH _ (l1 ++ [r])).
      * by rewrite <- app_assoc.
      * by rewrite Hl, <- app_assoc.
      * cbn in Hn. lia.
      * done.
      * unfold countable in Hc. rewrite Hl in Hc. unfold is_u32. rewrite !length_app in *. cbn [length] in *. lia.
Qed.

(** What [NotifyRemoveAddress] leaves: a route behind a removed one is passed
    over without being looked at. *)
Fixpoint remove_skipping (p : Ipv4RoutingTableEntry -> bool) l : list Route :=
  match l with
  | [] => []
  | r :: l' =>
      if p r.1 then match l' with [] => [] | r' :: l'' => r' :: remove_skipping p l'' end
      else r :: remove_skipping p l'
  end.

Lemma NotifyRemoveAddress_loop_end rounds i a st :
  countable st -> NotifyRemoveAddress_loop rounds i a (Z.of_nat (length (m_networkRoutes st))) st = Ok st.
Proof.
  intros Hc. assert (Z.of_nat (length (m_networkRoutes st)) <? GetNRoutes st = false) as Hj.
  { rewrite GetNRoutes_spec by done. lia. }
  destruct rounds; cbn [NotifyRemoveAddress_loop]; by rewrite Hj.
Qed.

Lemma NotifyRemoveAddress_loop_spec i a n : forall l2 rounds l1 st,
  (length l2 <= n)%nat -> m_networkRoutes st = l1 ++ l2 -> (length l2 <= rounds)%nat -> countable st ->
  NotifyRemoveAddress_loop rounds i a (Z.of_nat (length l1)) st =
    Ok (set_networkRoutes (l1 ++ remove_skipping (references i a) l2) st).
Proof.
  induction n as [|n IH]; intros [|r l2] rounds l1 st Hln Hl Hn Hc; try (cbn in Hln; lia);
    try (rewrite app_nil_r in Hl; subst l1; cbn [remove_skipping]; rewrite app_nil_r, set_same;
         by apply NotifyRemoveAddress_loop_end).
  destruct rounds as [|rounds]; [cbn in Hn; lia|]. cbn [NotifyRemoveAddress_loop].
  assert (Z.of_nat (length l1) <? GetNRoutes st = true) as ->.
  { rewrite GetNRoutes_spec, Hl, length_app by done. cbn [length]. apply Z.ltb_lt. lia. }
  unfold GetRoute, RemoveRoute. rewrite Hl, route_at. cbn [or_fault mbind result_bind remove_skipping].
  assert (is_u32 (Z.of_nat (length l1) + 1)) as Hu.
  { unfold countable in Hc. rewrite Hl in Hc. unfold is_u32. rewrite length_app in Hc. cbn [length] in Hc. lia. }
  rewrite u32_small by done. cbn in Hn, Hln.
  destruct (references i a r.1).
  - rewrite delete_at. set (st' := set_networkRoutes (l1 ++ l2) st).
    assert (countable st') as Hc'.
    { unfold countable, st' in *. cbn [set_networkRoutes m_networkRoutes]. rewrite Hl in Hc. rewrite !length_app in *. cbn [length] in Hc. lia. }
    destruct l2 as [|r' l2].
    + cbn [mbind result_bind]. assert (Z.of_nat (length l1) + 1 <? GetNRoutes st' = false) as Hj.
      { rewrite GetNRoutes_spec by done. unfold st'. cbn [set_networkRoutes m_networkRoutes]. rewrite app_nil_r. lia. }
      destruct rounds; cbn [NotifyRemoveAddress_loop]; by rewrite Hj.
    + cbn [mbind result_bind]. rewrite next_index with (a := r'), (IH l2 _ (l1 ++ [r']) st').
      * cbn. by rewrite <- app_assoc.
      * cbn in Hln. lia.
      * cbn. by rewrite <- app_assoc.
      * cbn in Hn. lia.
      * done.
  - cbn [mbind result_bind]. rewrite next_index with (a := r), (IH l2 _ (l1 ++ [r]) st).
    + by rewrite <- app_assoc.
    + lia.
    + by rewrite Hl, <- app_assoc.
    + lia.
    + done.
Qed.

Lemma NotifyInterfaceDown_spec i st :
  countable st ->
  NotifyInterfaceDown i st = Ok (set_networkRoutes (filter (fun r => GetInterface r.1 <> i) (m_networkRoutes st)) st).
Proof. intros Hc. exact (NotifyInterfaceDown_loop_spec i (m_networkRoutes st) _ [] st eq_refl (le_n _) Hc). Qed.

Lemma NotifyRemoveAddress_spec i a st ip :
  m_ipv4 st = Some ip -> IsUp ip i = Ok true -> countable st ->
  NotifyRemoveAddress i a st = Ok (set_networkRoutes (remove_skipping (references i a) (m_networkRoutes st)) st).
Proof.
  intros Hip Hup Hc. unfold NotifyRemoveAddress, stack. rewrite Hip. cbn [or_fault mbind result_bind].
  rewrite Hup. cbn [mbind result_bind negb].
  exact (NotifyRemoveAddress_loop_spec i a _ (m_networkRoutes st) _ [] st (le_n _) eq_refl (le_n _) Hc).
Qed.

Lemma remove_skipping_none p l : (forall r, r ∈ l -> p r.1 = false) -> remove_skipping p l = l.
Proof.
  induction l as [|r l IH]; intros Hl; [done|]. cbn [remove_skipping].
  rewrite Hl by left. rewrite IH; [done|]. intros r' Hr'. apply Hl. by right.
Qed.

Lemma remove_skipping_first p l1 r l2 :
  (forall r', r' ∈ l1 -> p r'.1 = false) -> p r.1 = true ->
  remove_skipping p (l1 ++ r :: l2) =
    l1 ++ match l2 with [] => [] | r' :: l' => r' :: remove_skipping p l' end.
Proof.
  induction l1 as [|r1 l1 IH]; intros Hl Hr; cbn [app remove_skipping].
  - by rewrite Hr.
  - rewrite Hl by left. rewrite IH; [done| |done]. intros r' Hr'. apply Hl. by right.
Qed.
End notifications.

(** ** The connected networks *)

Section connected.
Notation Route := (Ipv4RoutingTableEntry * Z)%type.
Implicit Types (st : StaticState) (ip : Ipv4).

(** A stack with these interfaces: whether each is up, and its addresses. *)
Record stack_has ip (ifs : list (bool * list Ipv4InterfaceAddress)) : Prop := {
  stack_size : GetNInterfaces ip = Z.of_nat (length ifs);
  stack_up i up addrs : ifs !! i = Some (up, addrs) -> IsUp ip (Z.of_nat i) = Ok up;
  stack_naddrs i up addrs : ifs !! i = Some (up, addrs) -> GetNAddresses ip (Z.of_nat i) = Ok (Z.of_nat (length addrs));
  stack_addr i up addrs j a :
    ifs !! i = Some (up, addrs) -> addrs !! j = Some a -> GetAddress ip (Z.of_nat i) (Z.of_nat j) = Ok a
}.

(** An address that gets a route to its network when its interface is set
    up. *)
Definition networked (a : Ipv4InterfaceAddress) : bool :=
  negb (m_local a =? Ipv4Address_default) && negb (m_mask a =? Ipv4Mask_default) && negb (m_mask a =? Mask_GetOnes).

Definition connected_route (i : Z) (a : Ipv4InterfaceAddress) : Route :=
  (mkEntry (CombineMask (m_local a) (m_mask a)) (m_mask a) GetZero i, 0).

Definition interface_routes (i : Z) (addrs : list Ipv4InterfaceAddress) : list Route :=
  map (connected_route i) (filter (fun a => networked a = true) addrs).

Definition connected_routes (ifs : list (bool * list Ipv4InterfaceAddress)) : list Route :=
  concat (imap (fun i (x : bool * list Ipv4InterfaceAddress) => if x.1 then interface_routes (Z.of_nat i) x.2 else []) ifs).

Lemma filter_all {A} (P : A -> Prop) `{!forall x, Decision (P x)} (l : list A) : (forall x, x ∈ l -> P x) -> filter P l = l.
Proof.
  induction l as [|x l IH]; intros Hl; [done|]. rewrite filter_cons_True by (apply Hl; left).
  rewrite IH; [done|]. intros y Hy. apply Hl. by right.
Qed.

(** The indices of the elements of a list, from the element behind [l1] on. *)
Lemma seqZ_next {A} (l1 : list A) (a : A) (l2 : list A) :
  seqZ (Z.of_nat (length l1)) (Z.of_nat (length (a :: l2))) =
    Z.of_nat (length l1) :: seqZ (Z.of_nat (length (l1 ++ [a]))) (Z.of_nat (length l2)).
Proof.
  rewrite seqZ_cons by (cbn [length]; lia). rewrite length_app. cbn [length]. do 2 f_equal; lia.
Qed.

(** Loops over [0 .. n - 1]. *)
Lemma foldM_seqZ {A} (P : nat -> A -> Prop) (f : A -> Z -> result A) n a :
  P O a -> (forall k a, (k < n)%nat -> P k a -> exists a', f a (Z.of_nat k) = Ok a' /\ P (S k) a') ->
  exists a', foldM f a (seqZ 0 (Z.of_nat n)) = Ok a' /\ P n a'.
Proof.
  intros H0 Hf. induction n as [|n IH]; [by exists a|].
  destruct IH as (a1 & H1 & HP). { intros k x Hk. apply Hf. lia. }
  destruct (Hf n a1) as (a2 & H2 & HP2); [lia|done|]. exists a2. split; [|done].
  replace (Z.of_nat (S n)) with (Z.of_nat n + 1) by lia. rewrite seqZ_app by lia. rewrite foldM_app, H1.
  cbn [mbind result_bind]. change (seqZ (0 + Z.of_nat n) 1) with [0 + Z.of_nat n]. cbn [foldM].
  rewrite Z.add_0_l, H2. done.
Qed.

Lemma interface_routes_snoc i addrs a :
  interface_routes i (addrs ++ [a]) = interface_routes i addrs ++ if networked a then [connected_route i a] else [].
Proof.
  unfold interface_routes. rewrite filter_app, map_app. f_equal. rewrite filter_cons, filter_nil.
  destruct (networked a); [by rewrite decide_True|by rewrite decide_False].
Qed.

Lemma NotifyInterfaceUp_spec ip ifs i up addrs st :
  stack_has ip ifs -> m_ipv4 st = Some ip -> ifs !! i = Some (up, addrs) ->
  NotifyInterfaceUp (Z.of_nat i) st =
    Ok (set_networkRoutes (m_networkRoutes st ++ interface_routes (Z.of_nat i) addrs) st).
Proof.
  intros S Hip Hi. unfold NotifyInterfaceUp, stack. rewrite Hip. cbn [or_fault mbind result_bind].
  rewrite (stack_naddrs _ _ S i up addrs Hi). cbn [mbind result_bind].
  match goal with |- foldM ?g _ _ = _ => set (f := g) end.
  destruct (foldM_seqZ (fun k st' => st' =
    set_networkRoutes (m_networkRoutes st ++ interface_routes (Z.of_nat i) (take k addrs)) st) f (length addrs) st)
    as (st' & -> & ->).
  - by rewrite app_nil_r, set_same.
  - intros k st' Hk ->. destruct (lookup_lt_is_Some_2 addrs k Hk) as [a Ha]. unfold f.
    rewrite (stack_addr _ _ S i up addrs k a) by done. cbn [mbind result_bind].
    rewrite (take_S_r addrs k a), interface_routes_snoc by done. unfold networked.
    destruct (_ && _); eexists; (split; [done|]).
    + unfold network_route, AddNetworkRouteTo_direct, push_route, set_networkRoutes. cbn. by rewrite app_assoc.
    + by rewrite app_nil_r.
  - by rewrite firstn_all.
Qed.

Lemma connected_routes_snoc ifs x :
  connected_routes (ifs ++ [x]) = connected_routes ifs ++
    if x.1 then interface_routes (Z.of_nat (length ifs)) x.2 else [].
Proof.
  unfold connected_routes. rewrite imap_app, concat_app. f_equal. cbn. by rewrite app_nil_r, Nat.add_0_r.
Qed.

Lemma connected_interface ifs r : r ∈ connected_routes ifs -> 0 <= GetInterface r.1 < Z.of_nat (length ifs).
Proof.
  unfold connected_routes. rewrite list_elem_of_In, in_concat. intros (l & Hl%list_elem_of_In & Hr%list_elem_of_In).
  apply elem_of_lookup_imap in Hl as (i & [up addrs] & -> & Hi%lookup_lt_Some). cbn in Hr.
  destruct up; [|by apply not_elem_of_nil in Hr]. unfold interface_routes in Hr.
  apply list_elem_of_In, in_map_iff in Hr as (a & <- & _). cbn. lia.
Qed.

Lemma connected_app_le ifs x : (length (connected_routes ifs) <= length (connected_routes (ifs ++ x)))%nat.
Proof. unfold connected_routes. rewrite imap_app, concat_app, length_app. lia. Qed.

Lemma SetIpv4_spec ip ifs :
  stack_has ip ifs -> Z.of_nat (length (connected_routes ifs)) < 2 ^ 32 ->
  SetIpv4 ip MakeIpv4StaticRouting = Ok (mkStatic (connected_routes ifs) [] (Some ip)).
Proof.
  intros S Hlen. unfold SetIpv4. cbn [m_ipv4 MakeIpv4StaticRouting assert mbind result_bind].
  rewrite (stack_size _ _ S). match goal with |- foldM ?g _ _ = _ => set (f := g) end.
  destruct (foldM_seqZ (fun k st' => st' = mkStatic (connected_routes (take k ifs)) [] (Some ip)) f (length ifs)
    (mkStatic [] [] (Some ip))) as (st' & Heq & ->).
  - done.
  - intros k st' Hk ->. destruct (lookup_lt_is_Some_2 ifs k Hk) as [[up addrs] Hi]. unfold f.
    rewrite (stack_up _ _ S k up addrs Hi). cbn [mbind result_bind].
    rewrite (take_S_r ifs k (up, addrs)), connected_routes_snoc, length_take by done. cbn [fst snd].
    rewrite (Nat.min_l k) by lia. destruct up.
    + rewrite (NotifyInterfaceUp_spec ip ifs k true addrs) by done. eexists; by split.
    + rewrite NotifyInterfaceDown_spec.
      2: { unfold countable. cbn. pose proof (connected_app_le (take k ifs) (drop k ifs)) as Hle.
           rewrite take_drop in Hle. lia. }
      eexists; split; [done|]. unfold set_networkRoutes. cbn. rewrite app_nil_r. f_equal.
      apply filter_all. intros r Hr.
      apply connected_interface in Hr. rewrite length_take in Hr. lia.
  - unfold set_ipv4. cbn. rewrite Heq. by rewrite firstn_all.
Qed.

(** The converse of [connected_interface]: the routes are those of the
    addresses. *)
Lemma elem_of_connected ifs r :
  r ∈ connected_routes ifs <-> exists i addrs a, ifs !! i = Some (true, addrs) /\ a ∈ addrs /\ networked a = true /\
    r = connected_route (Z.of_nat i) a.
Proof.
  unfold connected_routes. rewrite list_elem_of_In, in_concat. split.
  - intros (l & Hl%list_elem_of_In & Hr%list_elem_of_In).
    apply elem_of_lookup_imap in Hl as (i & [up addrs] & -> & Hi). cbn [fst snd] in Hr.
    destruct up; [|by apply not_elem_of_nil in Hr].
    apply list_elem_of_In, in_map_iff in Hr as (a & <- & Ha%list_elem_of_In).
    apply list_elem_of_filter in Ha as [Hn Ha]. by exists i, addrs, a.
  - intros (i & addrs & a & Hi & Ha & Hn & ->). exists (interface_routes (Z.of_nat i) addrs). split.
    + apply list_elem_of_In, elem_of_lookup_imap. by exists i, (true, addrs).
    + apply in_map, list_elem_of_In, list_elem_of_filter. by split.
Qed.

Lemma source_loop_spec ip ifs i up addrs dest candidate l2 : forall l1,
  stack_has ip ifs -> ifs !! i = Some (up, addrs) -> addrs = l1 ++ l2 -> (exists b, b ∈ addrs /\ candidate = m_local b) ->
  exists b, b ∈ addrs /\
    source_loop ip (Z.of_nat i) dest candidate (seqZ (Z.of_nat (length l1)) (Z.of_nat (length l2))) = Ok (m_local b).
Proof.
  induction l2 as [|a l2 IH]; intros l1 S Hi Hl (b & Hb & ->); [by exists b|].
  rewrite seqZ_next. cbn [source_loop].
  rewrite (stack_addr _ _ S i up addrs (length l1) a Hi) by (rewrite Hl; by apply list_lookup_middle).
  cbn [mbind result_bind]. destruct (_ && _).
  - exists a. split; [|done]. rewrite Hl. apply elem_of_app. right. left.
  - apply IH; [done|done|by rewrite Hl, <- app_assoc|by exists b].
Qed.

(** The source address of a packet out of interface [i] is one of its
    addresses. *)
Lemma SourceAddressSelection_spec st ip ifs i up addrs dest :
  stack_has ip ifs -> m_ipv4 st = Some ip -> ifs !! i = Some (up, addrs) -> addrs <> [] ->
  exists b, b ∈ addrs /\ SourceAddressSelection st (Z.of_nat i) dest = Ok (m_local b).
Proof.
  intros S Hip Hi Hne. destruct addrs as [|a addrs]; [done|]. unfold SourceAddressSelection, stack. rewrite Hip.
  cbn [or_fault mbind result_bind]. rewrite (stack_naddrs _ _ S i up _ Hi).
  assert (GetAddress ip (Z.of_nat i) 0 = Ok a) as Ha by exact (stack_addr _ _ S i up (a :: addrs) 0 a Hi eq_refl).
  rewrite Ha. cbn [mbind result_bind]. destruct (_ =? 1); [exists a; split; [left|done]|].
  apply (source_loop_spec ip ifs i up (a :: addrs) dest (m_local a) (a :: addrs) []); [done..|].
  exists a. split; [left|done].
Qed.

Lemma make_route_spec st ip ifs i up addrs r :
  stack_has ip ifs -> m_ipv4 st = Some ip -> ifs !! i = Some (up, addrs) -> addrs <> [] -> GetInterface r = Z.of_nat i ->
  (exists d, GetNetDevice ip (Z.of_nat i) = Ok d) ->
  exists b dev, b ∈ addrs /\ GetNetDevice ip (Z.of_nat i) = Ok dev /\
    make_route st r = Ok (mkRoute (GetDest r) (m_local b) (GetGateway r) dev).
Proof.
  intros S Hip Hi Hne Hr [d Hd]. unfold make_route. rewrite Hr.
  destruct (SourceAddressSelection_spec st ip ifs i up addrs (GetDest r)) as (b & Hb & ->); [done..|].
  unfold stack. rewrite Hip. cbn [or_fault mbind result_bind]. rewrite Hd. exists b, d. by split_and!.
Qed.

(** *** One interface changes *)

Definition routes_from (n : nat) (ifs : list (bool * list Ipv4InterfaceAddress)) : list Route :=
  concat (imap (fun i (x : bool * list Ipv4InterfaceAddress) =>
    if x.1 then interface_routes (Z.of_nat (n + i)) x.2 else []) ifs).

Lemma connected_split l1 x l2 :
  connected_routes (l1 ++ x :: l2) =
    connected_routes l1 ++ (if x.1 then interface_routes (Z.of_nat (length l1)) x.2 else []) ++
    routes_from (S (length l1)) l2.
Proof.
  unfold connected_routes, routes_from. rewrite imap_app, concat_app, imap_cons. cbn [concat]. do 2 f_equal.
  - cbn. by rewrite Nat.add_0_r.
  - f_equal. apply imap_ext. intros k y _. cbn. by rewrite Nat.add_succ_r.
Qed.

Lemma routes_from_interface n ifs r : r ∈ routes_from n ifs -> Z.of_nat n <= GetInterface r.1.
Proof.
  unfold routes_from. rewrite list_elem_of_In, in_concat. intros (l & Hl%list_elem_of_In & Hr%list_elem_of_In).
  apply elem_of_lookup_imap in Hl as (i & [up addrs] & -> & _). cbn [fst snd] in Hr.
  destruct up; [|by apply not_elem_of_nil in Hr].
  apply list_elem_of_In, in_map_iff in Hr as (a & <- & _). cbn [connected_route fst GetInterface]. lia.
Qed.

Lemma filter_none {A} (P : A -> Prop) `{!forall x, Decision (P x)} (l : list A) : (forall x, x ∈ l -> ~ P x) -> filter P l = [].
Proof.
  induction l as [|x l IH]; intros Hl; [done|]. rewrite filter_cons_False by (apply Hl; left).
  apply IH. intros y Hy. apply Hl. by right.
Qed.

(** The routes through one interface are those of its addresses. *)
Lemma connected_filter i l1 up addrs l2 :
  length l1 = i ->
  filter (fun r : Route => GetInterface r.1 <> Z.of_nat i) (connected_routes (l1 ++ (up, addrs) :: l2)) =
    connected_routes (l1 ++ (false, addrs) :: l2).
Proof.
  intros <-. rewrite !connected_split. cbn [fst snd]. rewrite !filter_app. repeat f_equal.
  - apply filter_all. intros r Hr%connected_interface. lia.
  - destruct up; [|done]. apply filter_none. intros r Hr%list_elem_of_In.
    apply in_map_iff in Hr as (a & <- & _). cbn. auto.
  - apply filter_all. intros r Hr%routes_from_interface. lia.
Qed.

(** *** Local delivery *)

(** The link-local multicast addresses are multicast. *)
Lemma local_multicast dest : is_u32 dest -> IsLocalMulticast dest = true -> IsMulticast dest = true.
Proof.
  unfold IsLocalMulticast, IsMulticast, is_u32. intros Hu H%Z.eqb_eq.
  change 0xffffff00 with (Z.ldiff (Z.ones 32) (Z.ones 8)) in H.
  assert (Z.land dest (Z.ldiff (Z.ones 32) (Z.ones 8)) = Z.ldiff (Z.land dest (Z.ones 32)) (Z.ones 8)) as E.
  { apply Z.bits_inj'. intros n _. rewrite Z.land_spec, !Z.ldiff_spec, Z.land_spec. by destruct (Z.testbit dest n), (Z.testbit (Z.ones 32) n). }
  rewrite E, Z.land_ones, Z.mod_small, Z.ldiff_ones_r, Z.shiftl_mul_pow2, Z.shiftr_div_pow2 in H by lia.
  change (2 ^ 8) with 256 in H. dlia.
Qed.


Definition addressed (dest : Ipv4Address) (a : Ipv4InterfaceAddress) : bool :=
  (m_local a =? dest) || (dest =? m_broadcast a).

Lemma for_me_on_spec ip ifs i up addrs dest l2 : forall l1,
  stack_has ip ifs -> ifs !! i = Some (up, addrs) -> addrs = l1 ++ l2 ->
  for_me_on ip dest (Z.of_nat i) (seqZ (Z.of_nat (length l1)) (Z.of_nat (length l2))) = Ok (existsb (addressed dest) l2).
Proof.
  induction l2 as [|a l2 IH]; intros l1 S Hi Hl; [done|].
  rewrite seqZ_next. cbn [for_me_on existsb].
  rewrite (stack_addr _ _ S i up addrs (length l1) a Hi) by (rewrite Hl; by apply list_lookup_middle).
  cbn [mbind result_bind]. fold (addressed dest a). destruct (addressed dest a); [done|].
  apply IH; [done|done|by rewrite Hl, <- app_assoc].
Qed.

Lemma for_me_spec ip ifs dest l2 : forall l1,
  stack_has ip ifs -> ifs = l1 ++ l2 ->
  for_me ip dest (seqZ (Z.of_nat (length l1)) (Z.of_nat (length l2))) =
    Ok (existsb (fun x : bool * list Ipv4InterfaceAddress => existsb (addressed dest) x.2) l2).
Proof.
  induction l2 as [|[up addrs] l2 IH]; intros l1 S Hl; [done|].
  assert (ifs !! length l1 = Some (up, addrs)) as Hi by (rewrite Hl; by apply list_lookup_middle).
  rewrite seqZ_next. cbn [for_me existsb].
  rewrite (stack_naddrs _ _ S _ up addrs Hi). cbn [mbind result_bind snd].
  rewrite (for_me_on_spec ip ifs (length l1) up addrs dest addrs [] S Hi eq_refl : for_me_on _ _ _ (seqZ 0 _) = _).
  cbn [mbind result_bind]. destruct (existsb (addressed dest) addrs); [done|].
  apply IH; [done|by rewrite Hl, <- app_assoc].
Qed.
End connected.

(** ** Properties *)

(** (C18) Longest-prefix matching.  For a destination that is not link-local
    multicast, [RouteOutput] returns the route of the last of the best table
    entries: among those whose network holds the destination and that lead out
    of the requested interface (if one is requested), the prefix is longest,
    and among these the metric is least.  The error number says whether there
    was one. *)
Theorem static_longest_prefix st p header oif err
  (Hm : IsLocalMulticast (GetDestination header) = false)
  (Hd : Forall (route_defined st oif) (m_networkRoutes st)) :
  exists rtentry,
    RouteOutput st p header oif err =
      Ok (rtentry, match rtentry with Some _ => ERROR_NOTERROR | None => ERROR_NOROUTETOHOST end) /\
    match rtentry with
    | None => forall r, r ∈ m_networkRoutes st -> candidate st (GetDestination header) oif r = false
    | Some rt => exists r, chosen st (GetDestination header) oif (m_networkRoutes st) r /\ make_route st r.1 = Ok rt
    end.
Proof.
  unfold RouteOutput. destruct (LookupStatic_spec st (GetDestination header) oif Hm Hd) as [[-> Hn]|(r & rt & Hc & Hr & ->)].
  - by exists None.
  - exists (Some rt). split; [done|]. by exists r.
Qed.

(** The connected networks.  After [SetIpv4] on a new protocol object, a
    packet to an address in the network of some address of an interface that
    is up goes directly (gateway 0.0.0.0) out of such an interface, with the
    longest mask there is, from an address of that interface; for any other
    destination there is no route. *)
Theorem static_connected ip ifs p header err
  (S : stack_has ip ifs) (Hlen : Z.of_nat (length (connected_routes ifs)) < 2 ^ 32)
  (Hdev : forall i, (i < length ifs)%nat -> exists d, GetNetDevice ip (Z.of_nat i) = Ok d)
  (Hm : IsLocalMulticast (GetDestination header) = false) :
  let in_network a := IsMatch (m_mask a) (GetDestination header) (CombineMask (m_local a) (m_mask a)) in
  let up_address i addrs a := ifs !! i = Some (true, addrs) /\ a ∈ addrs /\ networked a = true /\ in_network a = true in
  exists st rtentry,
    SetIpv4 ip MakeIpv4StaticRouting = Ok st /\
    RouteOutput st p header None err =
      Ok (rtentry, match rtentry with Some _ => ERROR_NOTERROR | None => ERROR_NOROUTETOHOST end) /\
    match rtentry with
    | None => forall i addrs a, ~ up_address i addrs a
    | Some rt => exists i addrs a b, up_address i addrs a /\
        (forall i' addrs' a', up_address i' addrs' a' -> prefix_length (m_mask a') <= prefix_length (m_mask a)) /\
        rt = mkRoute (CombineMask (m_local a) (m_mask a)) (m_local b) GetZero (m_outputDevice rt) /\
        b ∈ addrs /\ GetNetDevice ip (Z.of_nat i) = Ok (m_outputDevice rt)
    end.
Proof.
  cbn zeta. set (st := mkStatic (connected_routes ifs) [] (Some ip)).
  assert (forall i addrs a, ifs !! i = Some (true, addrs) -> a ∈ addrs -> exists b dev, b ∈ addrs /\
    GetNetDevice ip (Z.of_nat i) = Ok dev /\ make_route st (connected_route (Z.of_nat i) a).1 =
      Ok (mkRoute (CombineMask (m_local a) (m_mask a)) (m_local b) GetZero dev)) as Hroute.
  { intros i addrs a Hi Ha. apply (make_route_spec st ip ifs i true addrs); try done.
    - by intros ->; apply not_elem_of_nil in Ha.
    - by eapply Hdev, lookup_lt_Some. }
  assert (Forall (route_defined st None) (connected_routes ifs)) as Hd.
  { apply Forall_forall. intros r (i & addrs & a & Hi & Ha & Hn & ->)%elem_of_connected. split_and!; [done|by exists false|].
    destruct (Hroute i addrs a Hi Ha) as (b & dev & _ & _ & ->). by eexists. }
  exists st. unfold RouteOutput.
  destruct (LookupStatic_spec st (GetDestination header) None Hm Hd) as [[-> Hn]|(r & rt & Hc & Hr & ->)].
  - exists None. split_and!; [by apply SetIpv4_spec|done|]. intros i addrs a (Hi & Ha & Hw & Hin).
    assert (connected_route (Z.of_nat i) a ∈ connected_routes ifs) as Hel by (apply elem_of_connected; by exists i, addrs, a).
    apply Hn in Hel. unfold candidate in Hel. cbn in Hel. unfold GetDestNetwork in Hel. cbn in Hel. by rewrite Hin in Hel.
  - exists (Some rt). split_and!; [by apply SetIpv4_spec|done|].
    destruct Hc as (l1 & l2 & Hl & Hc & H1 & H2).
    assert (r ∈ connected_routes ifs) as Hel.
    { change (connected_routes ifs) with (m_networkRoutes st). rewrite Hl. apply elem_of_app. right. left. }
    apply elem_of_connected in Hel as (i & addrs & a & Hi & Ha & Hw & ->).
    destruct (Hroute i addrs a Hi Ha) as (b & dev & Hb & Hdv & Hmk). rewrite Hmk in Hr. injection Hr as <-.
    exists i, addrs, a, b. unfold candidate in Hc. apply andb_true_iff in Hc as [Hc _]. split_and!; try done.
    intros i' addrs' a' (Hi' & Ha' & Hw' & Hin').
    assert (connected_route (Z.of_nat i') a' ∈ m_networkRoutes st) as Hel by (apply elem_of_connected; by exists i', addrs', a').
    assert (candidate st (GetDestination header) None (connected_route (Z.of_nat i') a') = true) as Hc'.
    { unfold candidate. cbn. unfold GetDestNetwork. cbn. by rewrite Hin'. }
    rewrite Hl in Hel. apply elem_of_app in Hel as [Hel|[Hel|Hel]%elem_of_cons].
    + specialize (H1 _ Hel Hc'). unfold at_least in H1. cbn [connected_route fst snd GetDestNetworkMask] in H1. lia.
    + injection Hel as _ <- _. done.
    + specialize (H2 _ Hel Hc'). unfold at_least in H2. cbn [connected_route fst snd GetDestNetworkMask] in H2. lia.
Qed.

(** Keeping up with the interfaces.  When an interface changes and the
    protocol is notified, its table holds the same routes as that of a new
    protocol object given the changed stack: exactly the same table when the
    interface went down, the same routes in another order when it came up. *)
Theorem static_interface_changes ip ip' ifs i up addrs
  (Hi : ifs !! i = Some (negb up, addrs)) (HS : stack_has ip ifs) (HS' : stack_has ip' (<[i := (up, addrs)]> ifs))
  (Hlen : Z.of_nat (length (connected_routes ifs)) < 2 ^ 32)
  (Hlen' : Z.of_nat (length (connected_routes (<[i := (up, addrs)]> ifs))) < 2 ^ 32) :
  exists st st' fresh,
    SetIpv4 ip MakeIpv4StaticRouting = Ok st /\ SetIpv4 ip' MakeIpv4StaticRouting = Ok fresh /\
    (if up then NotifyInterfaceUp else NotifyInterfaceDown) (Z.of_nat i) (set_ipv4 (Some ip') st) = Ok st' /\
    m_networkRoutes st' ≡ₚ m_networkRoutes fresh /\ (up = false -> st' = fresh).
Proof.
  destruct (list_elem_of_split_length _ _ _ Hi) as (l1 & l2 & Hl & Ht).
  assert (<[i := (up, addrs)]> ifs = l1 ++ (up, addrs) :: l2) as Hins.
  { rewrite Hl, Ht, insert_app_r_alt, Nat.sub_diag by done. done. }
  set (routes := if up then connected_routes ifs ++ interface_routes (Z.of_nat i) addrs
    else connected_routes (<[i := (up, addrs)]> ifs)).
  exists (mkStatic (connected_routes ifs) [] (Some ip)), (mkStatic routes [] (Some ip')),
    (mkStatic (connected_routes (<[i := (up, addrs)]> ifs)) [] (Some ip')).
  split_and!; [by apply SetIpv4_spec|by apply SetIpv4_spec| | |].
  - destruct up.
    + rewrite (NotifyInterfaceUp_spec ip' (<[i := (true, addrs)]> ifs) i true addrs); [done|done|done|].
      apply list_lookup_insert_eq. by eapply lookup_lt_Some.
    + rewrite NotifyInterfaceDown_spec by done. unfold set_networkRoutes, routes.
      cbn [set_ipv4 m_networkRoutes m_multicastRoutes m_ipv4]. by rewrite Hins, Hl, connected_filter.
  - unfold routes. cbn [m_networkRoutes]. destruct up; [|done].
    rewrite Hins, Hl, !connected_split. cbn [fst snd app negb]. rewrite <- Ht, <- !app_assoc.
    by rewrite (Permutation_app_comm _ (interface_routes _ _)).
  - unfold routes. by intros ->.
Qed.

Section removal.
Implicit Types (st : StaticState) (ip : Ipv4) (address : Ipv4InterfaceAddress).

(** An address comes and goes.  While the interface is up, adding an
    address appends the route to its network.  Removing it takes that route
    out again and leaves the table as it was, when no route referenced the
    network before and the mask is not that of a host; the route that was added
    for a host mask stays, because only network routes are looked at. *)
Theorem static_address_comes_and_goes st ip i address
  (Hip : m_ipv4 st = Some ip) (Hup : IsUp ip i = Ok true)
  (Hlen : Z.of_nat (length (m_networkRoutes st)) + 1 < 2 ^ 32)
  (Hlocal : m_local address <> Ipv4Address_default) (Hmask : m_mask address <> Ipv4Mask_default)
  (Hnew : forall r, r ∈ m_networkRoutes st -> references i address r.1 = false) :
  exists st', NotifyAddAddress i address st = Ok st' /\
    m_networkRoutes st' = m_networkRoutes st ++ [connected_route i address] /\
    NotifyRemoveAddress i address st' = Ok (if m_mask address =? Mask_GetOnes then st' else st).
Proof.
  exists (network_route address i st). unfold NotifyAddAddress, stack. rewrite Hip. cbn [or_fault mbind result_bind].
  rewrite Hup. cbn [mbind result_bind negb].
  rewrite (proj2 (Z.eqb_neq _ _) Hlocal), (proj2 (Z.eqb_neq _ _) Hmask). split_and!; [done|done|].
  rewrite (NotifyRemoveAddress_spec i address _ ip); [|done|done|].
  2: { unfold countable. cbn. rewrite length_app. cbn [length]. lia. }
  change (m_networkRoutes (network_route address i st)) with (m_networkRoutes st ++ [connected_route i address]).
  assert (references i address (connected_route i address).1 = negb (m_mask address =? Mask_GetOnes)) as Href.
  { unfold references, IsNetwork, IsHost, Mask_IsEqual, GetDestNetwork. cbn [connected_route fst GetInterface GetDestNetworkMask GetDest].
    rewrite !Z.eqb_refl, (Z.eqb_sym Mask_GetOnes), !andb_true_r. done. }
  destruct (m_mask address =? Mask_GetOnes).
  - rewrite remove_skipping_none; [by destruct st|].
    by intros r [Hr| ->%list_elem_of_singleton]%elem_of_app; [apply Hnew|].
  - rewrite remove_skipping_first, app_nil_r by done. by destruct st.
Qed.

(** The loop of [NotifyRemoveAddress] skips the route behind each one it
    removes.  If the first route that references the network is followed by
    another one, the second is still in the table afterwards; all is well when
    there is only one. *)
Theorem static_remove_address_skips st ip i address l1 r l2
  (Hip : m_ipv4 st = Some ip) (Hup : IsUp ip i = Ok true)
  (Hlen : Z.of_nat (length (m_networkRoutes st)) < 2 ^ 32)
  (Hroutes : m_networkRoutes st = l1 ++ r :: l2)
  (Hl1 : forall r', r' ∈ l1 -> references i address r'.1 = false) (Hr : references i address r.1 = true) :
  exists st', NotifyRemoveAddress i address st = Ok st' /\
    (forall r' l3, l2 = r' :: l3 -> r' ∈ m_networkRoutes st') /\
    ((forall r', r' ∈ l2 -> references i address r'.1 = false) -> m_networkRoutes st' = l1 ++ l2).
Proof.
  rewrite (NotifyRemoveAddress_spec i address st ip) by done. eexists; split; [done|].
  cbn [set_networkRoutes m_networkRoutes]. rewrite Hroutes, remove_skipping_first by done. split.
  - intros r' l3 ->. apply elem_of_app. right. left.
  - intros Hl2. destruct l2 as [|r' l3]; [done|]. rewrite remove_skipping_none; [done|].
    intros r2 Hr2. apply Hl2. by right.
Qed.

(** What static routing does with a packet that came in (not multicast):
    delivered if some interface has the destination as an address or as a
    broadcast address; otherwise an error if the incoming interface does not
    forward; otherwise sent along the route [LookupStatic] finds, and if there
    is none left to other protocols. *)
Theorem static_route_input {M} st ip ifs p header dev
  (Hip : m_ipv4 st = Some ip) (S : stack_has ip ifs)
  (Hiif : is_u32 (GetInterfaceForDevice ip dev))
  (Hu : is_u32 (GetDestination header)) (Hm : IsMulticast (GetDestination header) = false)
  forwarding (Hf : IsForwarding ip (GetInterfaceForDevice ip dev) = Ok forwarding)
  (Hd : Forall (route_defined st None) (m_networkRoutes st)) :
  let dest := GetDestination header in
  let iif := GetInterfaceForDevice ip dev in
  if existsb (fun x : bool * list Ipv4InterfaceAddress => existsb (addressed dest) x.2) ifs then
    RouteInput (M := M) st p header dev true = Ok (true, [LocalDeliver p iif])
  else if negb forwarding then RouteInput (M := M) st p header dev true = Ok (false, [RouteError p ERROR_NOROUTETOHOST])
  else
    (RouteInput (M := M) st p header dev true = Ok (false, []) /\
       forall r, r ∈ m_networkRoutes st -> candidate st dest None r = false) \/
    exists r rt, chosen st dest None (m_networkRoutes st) r /\ make_route st r.1 = Ok rt /\
      RouteInput (M := M) st p header dev true = Ok (true, [UnicastForward rt p]).
Proof.
  cbn zeta. unfold RouteInput. rewrite Hip. cbn [or_fault mbind result_bind].
  assert (assert (0 <=? GetInterfaceForDevice ip dev) = Ok tt) as ->.
  { unfold assert, is_u32 in *. by rewrite (proj2 (Z.leb_le _ _)) by lia. }
  cbn [mbind result_bind]. rewrite u32_small, Hm, (stack_size _ _ S) by done.
  rewrite (for_me_spec ip ifs (GetDestination header) ifs [] S eq_refl : for_me _ _ (seqZ 0 _) = _).
  cbn [mbind result_bind]. destruct (existsb _ ifs); [done|]. rewrite Hf. cbn [mbind result_bind].
  destruct forwarding; cbn [negb]; [|done].
  assert (IsLocalMulticast (GetDestination header) = false) as Hlm.
  { destruct (IsLocalMulticast _) eqn:E; [|done]. by rewrite (local_multicast _ Hu E) in Hm. }
  destruct (LookupStatic_spec st (GetDestination header) None Hlm Hd) as [[-> Hn]|(r & rt & Hc & Hr & ->)].
  - by left.
  - right. by exists r, rt.
Qed.
End removal.

(** ** Examples *)

(** A stack with given interfaces, interface [i] on device [i]. *)
Definition plain_stack (ifs : list (bool * list Ipv4InterfaceAddress)) : Ipv4 := {|
  GetNInterfaces := Z.of_nat (length ifs);
  GetNAddresses i := x ← ifs !! Z.to_nat i ?? NullDeref; Ok (Z.of_nat (length x.2));
  GetAddress i j := x ← ifs !! Z.to_nat i ?? NullDeref; x.2 !! Z.to_nat j ?? AssertFailed;
  IsUp i := x ← ifs !! Z.to_nat i ?? NullDeref; Ok x.1;
  IsForwarding _ := Ok true; GetIfIndex d := d;
  GetInterfaceForAddress _ := 0; GetInterfaceForDevice d := d;
  IsDestinationAddress _ _ := Ok false; GetNetDevice i := Ok i;
  CreateSocket i := 100 + i; Bind _ := 0 |}.

Lemma plain_stack_has ifs : stack_has (plain_stack ifs) ifs.
Proof.
  split; cbn; [done|..].
  - intros i up addrs Hi. by rewrite Nat2Z.id, Hi.
  - intros i up addrs Hi. by rewrite Nat2Z.id, Hi.
  - intros i up addrs j a Hi Hj. rewrite !Nat2Z.id, Hi. cbn. by rewrite Hj.
Qed.

(** Loopback, 10.0.1.1/24, and 10.0.2.1/24 (down or up). *)
Definition loop_addr : Ipv4InterfaceAddress := MakeInterfaceAddress GetLoopback Mask_GetLoopback.
Definition net1_addr : Ipv4InterfaceAddress := MakeInterfaceAddress 0x0a000101 0xffffff00.
Definition net2_addr : Ipv4InterfaceAddress := MakeInterfaceAddress 0x0a000201 0xffffff00.
Definition example_ifs (up : bool) : list (bool * list Ipv4InterfaceAddress) :=
  [(true, [loop_addr]); (true, [net1_addr]); (up, [net2_addr])].
Definition example_ip (up : bool) : Ipv4 := plain_stack (example_ifs up).

(** A default route (metric 5), 10.0.0.0/8 over 10.0.1.2 twice (metrics 2 and
    1), and the connected networks. *)
Definition example_static (up : bool) : StaticState :=
  mkStatic ([(mkEntry 0 0 0x0a000109 1, 5); (mkEntry 0x0a000000 0xff000000 0x0a000102 1, 2);
             (mkEntry 0x0a000000 0xff000000 0x0a000103 1, 1)] ++ connected_routes (example_ifs up)) [] (Some (example_ip up)).
Definition packet_to (dest : Ipv4Address) : Ipv4Header := {| GetSource := 0x0a000101; GetDestination := dest |}.

Lemma route_defined_b st oif l :
  forallb (fun r => bool_decide (is_u32 r.2) && is_ok (other_interface st oif r.1) && is_ok (make_route st r.1)) l = true ->
  Forall (route_defined st oif) l.
Proof.
  rewrite forallb_forall, Forall_forall. intros H r Hr%list_elem_of_In.
  specialize (H r Hr). apply andb_true_iff in H as [[Hu%bool_decide_eq_true Ho]%andb_true_iff Hm].
  split; [done|]. destruct (other_interface _ _ _), (make_route _ _); try discriminate. by split; eexists.
Qed.

Lemma example_defined up : Forall (route_defined (example_static up) None) (m_networkRoutes (example_static up)).
Proof. apply route_defined_b. by destruct up; vm_compute. Qed.

Definition rte_of (r : result (option Ipv4Route * Z)) : option Ipv4Route :=
  match r with Ok (o, _) => o | Fault _ => None end.

Lemma static_longest_prefix_witness :
  IsLocalMulticast 0x0a050001 = false /\
  exists r, chosen (example_static true) 0x0a050001 None (m_networkRoutes (example_static true)) r /\
    make_route (example_static true) r.1 = Ok (mkRoute 0x0a000000 0x0a000101 0x0a000103 1).
Proof.
  split; [reflexivity|].
  destruct (static_longest_prefix (example_static true) [] (packet_to 0x0a050001) None 10 eq_refl
    (example_defined true)) as (rtentry & Ho & H).
  assert (rtentry = Some (mkRoute 0x0a000000 0x0a000101 0x0a000103 1)) as ->.
  { apply (f_equal rte_of) in Ho. vm_compute in Ho. symmetry. exact Ho. }
  exact H.
Defined.

Lemma static_connected_witness :
  exists st rtentry,
    SetIpv4 (example_ip false) MakeIpv4StaticRouting = Ok st /\
    RouteOutput st [] (packet_to 0x0a000107) None 10 = Ok (rtentry, 0) /\
    m_gateway <$> rtentry = Some 0.
Proof.
  destruct (static_connected (example_ip false) (example_ifs false) [] (packet_to 0x0a000107) 10
    (plain_stack_has _) ltac:(vm_compute; reflexivity) ltac:(intros i _; exists (Z.of_nat i); reflexivity) eq_refl)
    as (st & rtentry & H1 & H2 & H3).
  exists st, rtentry. split; [exact H1|]. destruct rtentry as [rt|].
  - split; [exact H2|]. destruct H3 as (i & addrs & a & b & _ & _ & Hrt & _). rewrite Hrt. reflexivity.
  - destruct (H3 1%nat [net1_addr] net1_addr). split; [reflexivity|]. split; [left|]. split; reflexivity.
Defined.

Lemma static_interface_changes_witness :
  exists st st' fresh,
    SetIpv4 (example_ip true) MakeIpv4StaticRouting = Ok st /\ SetIpv4 (example_ip false) MakeIpv4StaticRouting = Ok fresh /\
    NotifyInterfaceDown 2 (set_ipv4 (Some (example_ip false)) st) = Ok st' /\ st' = fresh.
Proof.
  destruct (static_interface_changes (example_ip true) (example_ip false) (example_ifs true) 2 false [net2_addr]
    eq_refl (plain_stack_has _) (plain_stack_has _) ltac:(vm_compute; reflexivity) ltac:(vm_compute; reflexivity))
    as (st & st' & fresh & H1 & H2 & H3 & _ & H4).
  exists st, st', fresh. split; [exact H1|]. split; [exact H2|]. split; [exact H3|]. by apply H4.
Defined.

(** 10.0.9.1/24 is new on interface 1; the second address has a host mask. *)
Definition net9_addr : Ipv4InterfaceAddress := MakeInterfaceAddress 0x0a000901 0xffffff00.

Ltac no_reference := intros r Hr; repeat (apply elem_of_cons in Hr as [->|Hr]; [reflexivity|]);
  by apply not_elem_of_nil in Hr.

Lemma static_address_comes_and_goes_witness :
  exists st', NotifyAddAddress 1 net9_addr (example_static true) = Ok st' /\
    length (m_networkRoutes st') = 7%nat /\ NotifyRemoveAddress 1 net9_addr st' = Ok (example_static true).
Proof.
  destruct (static_address_comes_and_goes (example_static true) (example_ip true) 1 net9_addr eq_refl eq_refl
    ltac:(vm_compute; reflexivity) ltac:(discriminate) ltac:(discriminate) ltac:(no_reference)) as (st' & H1 & H2 & H3).
  exists st'. split; [exact H1|]. split; [rewrite H2; reflexivity|exact H3].
Defined.

(** The network of 10.0.1.1/24 twice in the table: one route is left. *)
Definition doubled_static : StaticState :=
  mkStatic [connected_route 0 loop_addr; connected_route 1 net1_addr; connected_route 1 net1_addr] [] (Some (example_ip true)).

Lemma static_remove_address_skips_witness :
  exists st', NotifyRemoveAddress 1 net1_addr doubled_static = Ok st' /\ connected_route 1 net1_addr ∈ m_networkRoutes st'.
Proof.
  destruct (static_remove_address_skips doubled_static (example_ip true) 1 net1_addr [connected_route 0 loop_addr]
    (connected_route 1 net1_addr) [connected_route 1 net1_addr] eq_refl eq_refl ltac:(vm_compute; reflexivity) eq_refl
    ltac:(no_reference) eq_refl) as (st' & H1 & H2 & _).
  exists st'. split; [exact H1|]. by apply (H2 (connected_route 1 net1_addr) []).
Defined.

Lemma static_route_input_witness :
  RouteInput (M := Empty_set) (example_static true) [] (packet_to 0x0a000101) 2 true = Ok (true, [LocalDeliver [] 2]).
Proof.
  exact (static_route_input (M := Empty_set) (example_static true) (example_ip true) (example_ifs true) []
    (packet_to 0x0a000101) 2 eq_refl (plain_stack_has _) ltac:(vm_compute; split; congruence)
    ltac:(vm_compute; split; congruence) eq_refl true eq_refl (example_defined true)).
Defined.
