(* ===== verification/Ipv4Stack.v ===== *)
(** * Ipv4Stack: the interfaces of a node and the IP layer

    src/ns-3/src/internet-stack/ipv4-interface.cc and ipv4-l3-protocol.cc: the
    object behind the interface [Ipv4] of Node.v, and the functions between the
    devices and the routing protocol.  Transport protocols and raw sockets are
    above this model and devices and ARP below it: what is handed to them is an
    [ip_action].  Trace sources are left out except [m_dropTrace]. *)

From S2P Require Import Prelude StdMap StdString Ipv4Address Node.

(** ** [Ipv4Interface] *)

Record Ipv4Interface := mkInterface {
  m_device : NetDevice;
  m_ifaddrs : list Ipv4InterfaceAddress;
  m_ifup : bool;
  m_forwarding : bool;
  m_metric : Z
}.

Module Interface.
Definition create (device : NetDevice) : Ipv4Interface := mkInterface device [] false true 1.
Definition SetUp (i : Ipv4Interface) : Ipv4Interface :=
  mkInterface (m_device i) (m_ifaddrs i) true (m_forwarding i) (m_metric i).
Definition SetDown (i : Ipv4Interface) : Ipv4Interface :=
  mkInterface (m_device i) (m_ifaddrs i) false (m_forwarding i) (m_metric i).
Definition SetForwarding (val : bool) (i : Ipv4Interface) : Ipv4Interface :=
  mkInterface (m_device i) (m_ifaddrs i) (m_ifup i) val (m_metric i).
Definition SetMetric (metric : Z) (i : Ipv4Interface) : Ipv4Interface :=
  mkInterface (m_device i) (m_ifaddrs i) (m_ifup i) (m_forwarding i) (u16 metric).
Definition GetNAddresses (i : Ipv4Interface) : Z := u32 (Z.of_nat (length (m_ifaddrs i))).
Definition AddAddress (addr : Ipv4InterfaceAddress) (i : Ipv4Interface) : Ipv4Interface :=
  mkInterface (m_device i) (m_ifaddrs i ++ [addr]) (m_ifup i) (m_forwarding i) (m_metric i).
Definition GetAddress (i : Ipv4Interface) (index : Z) : result Ipv4InterfaceAddress :=
  m_ifaddrs i !! Z.to_nat index ?? AssertFailed.

(** [while (i != m_ifaddrs.end ())]: the iterator stays at the first address,
    only [tmp] goes up, so [index + 1] rounds are enough. *)
Fixpoint RemoveAddress_loop (rounds : nat) (tmp index : Z) (l : list Ipv4InterfaceAddress)
    : result (Ipv4InterfaceAddress * list Ipv4InterfaceAddress) :=
  match l, rounds with
  | [], _ => Fault AssertFailed
  | addr :: l', Datatypes.S rounds' =>
      if tmp =? index then Ok (addr, l') else RemoveAddress_loop rounds' (u32 (tmp + 1)) index l
  | _ :: _, O => Fault AssertFailed
  end.
Definition RemoveAddress (index : Z) (i : Ipv4Interface) : result (Ipv4InterfaceAddress * Ipv4Interface) :=
  _ ← assert (negb (Z.of_nat (length (m_ifaddrs i)) <=? index));
  '(addr, l) ← RemoveAddress_loop (S (Z.to_nat index)) 0 index (m_ifaddrs i);
  Ok (addr, mkInterface (m_device i) l (m_ifup i) (m_forwarding i) (m_metric i)).
End Interface.

(** ** Headers and what leaves the IP layer *)

Record IpHeader := mkIpHeader {
  h_source : Ipv4Address;
  h_destination : Ipv4Address;
  h_protocol : Z;
  h_payloadSize : Z;
  h_ttl : Z;
  h_identification : Z
}.
Definition SetTtl (ttl : Z) (h : IpHeader) : IpHeader :=
  mkIpHeader (h_source h) (h_destination h) (h_protocol h) (h_payloadSize h) ttl (h_identification h).
Definition routing_header (h : IpHeader) : Ipv4Header :=
  {| GetSource := h_source h; GetDestination := h_destination h |}.
(** [Ipv4Header::GetSerializedSize]. *)
Definition IP_HEADER_SIZE : Z := 20.

Inductive DropReason := DROP_TTL_EXPIRED | DROP_NO_ROUTE | DROP_BAD_CHECKSUM | DROP_INTERFACE_DOWN | DROP_ROUTE_ERROR.

(** A link-layer destination: the broadcast address of the device, or the
    multicast address it maps an IP address to. *)
Inductive hardware := HwBroadcast | HwMulticast (dest : Ipv4Address).

Inductive ip_action :=
| DeviceSend (device : NetDevice) (header : IpHeader) (packet : Packet) (to : hardware)
| ArpLookup (device : NetDevice) (header : IpHeader) (packet : Packet) (dest : Ipv4Address)
| LoopBack (device : NetDevice) (header : IpHeader) (packet : Packet)
| DeliverUp (header : IpHeader) (packet : Packet) (iif : Z)
| SendTimeExceeded (header : IpHeader) (packet : Packet)
| Dropped (header : IpHeader) (packet : Packet) (reason : DropReason) (interface : Z).

(** What the devices and the node tell the IP layer. *)
Record NodeEnv := {
  dev_IfIndex : NetDevice -> Z;
  dev_Mtu : NetDevice -> Z;
  dev_IsLoopback : NetDevice -> bool;
  dev_NeedsArp : NetDevice -> bool;
  dev_IsMulticast : NetDevice -> bool;
  env_CreateSocket : Z -> SocketPtr;
  env_Bind : Z -> Z
}.

Section stack.
Context {S : Type} `{!Ipv4RoutingProtocol S} (env : NodeEnv).

Record L3 := mkL3 {
  m_interfaces : list Ipv4Interface;
  m_routingProtocol : option S;
  m_ipForward : bool;
  m_weakEsModel : bool;
  m_defaultTtl : Z;
  m_identification : Z
}.

Definition set_interfaces (l : list Ipv4Interface) (st : L3) : L3 :=
  mkL3 l (m_routingProtocol st) (m_ipForward st) (m_weakEsModel st) (m_defaultTtl st) (m_identification st).
Definition set_routingProtocol (r : option S) (st : L3) : L3 :=
  mkL3 (m_interfaces st) r (m_ipForward st) (m_weakEsModel st) (m_defaultTtl st) (m_identification st).
Definition set_ipForward (b : bool) (st : L3) : L3 :=
  mkL3 (m_interfaces st) (m_routingProtocol st) b (m_weakEsModel st) (m_defaultTtl st) (m_identification st).
Definition set_identification (n : Z) (st : L3) : L3 :=
  mkL3 (m_interfaces st) (m_routingProtocol st) (m_ipForward st) (m_weakEsModel st) (m_defaultTtl st) n.
Definition SetDefaultTtl (ttl : Z) (st : L3) : L3 :=
  mkL3 (m_interfaces st) (m_routingProtocol st) (m_ipForward st) (m_weakEsModel st) (u8 ttl) (m_identification st).
Definition SetWeakEsModel (model : bool) (st : L3) : L3 :=
  mkL3 (m_interfaces st) (m_routingProtocol st) (m_ipForward st) model (m_defaultTtl st) (m_identification st).

(** A new object with its default attributes. *)
Definition MakeIpv4L3Protocol : L3 := mkL3 [] None true true 64 0.

(** ** Queries *)

(** [None] is the null pointer. *)
Definition GetInterface (st : L3) (index : Z) : option Ipv4Interface := m_interfaces st !! Z.to_nat index.
Definition interface_at (st : L3) (index : Z) : result Ipv4Interface := GetInterface st index ?? NullDeref.

Definition GetNInterfaces (st : L3) : Z := u32 (Z.of_nat (length (m_interfaces st))).
Definition GetNAddresses (st : L3) (i : Z) : result Z := iface ← interface_at st i; Ok (Interface.GetNAddresses iface).
Definition GetAddress (st : L3) (i j : Z) : result Ipv4InterfaceAddress :=
  iface ← interface_at st i; Interface.GetAddress iface j.
Definition IsUp (st : L3) (i : Z) : result bool := iface ← interface_at st i; Ok (m_ifup iface).
Definition IsForwarding (st : L3) (i : Z) : result bool := iface ← interface_at st i; Ok (m_forwarding iface).
Definition GetMetric (st : L3) (i : Z) : result Z := iface ← interface_at st i; Ok (m_metric iface).
Definition GetNetDevice (st : L3) (i : Z) : result NetDevice := iface ← interface_at st i; Ok (m_device iface).
Definition GetMtu (st : L3) (i : Z) : result Z := iface ← interface_at st i; Ok (dev_Mtu env (m_device iface)).

(** The number of the first interface that satisfies [f], or -1. *)
Fixpoint find_interface (f : Ipv4Interface -> bool) (interface : Z) (l : list Ipv4Interface) : Z :=
  match l with
  | [] => -1
  | i :: l' => if f i then interface else find_interface f (interface + 1) l'
  end.

Definition GetInterfaceForAddress (st : L3) (address : Ipv4Address) : Z :=
  find_interface (fun i => existsb (fun a => m_local a =? address) (m_ifaddrs i)) 0 (m_interfaces st).
Definition GetInterfaceForPrefix (st : L3) (address : Ipv4Address) (mask : Ipv4Mask) : Z :=
  find_interface (fun i => existsb (fun a => CombineMask (m_local a) mask =? CombineMask address mask) (m_ifaddrs i))
    0 (m_interfaces st).
Definition GetInterfaceForDevice (st : L3) (device : NetDevice) : Z :=
  find_interface (fun i => m_device i =? device) 0 (m_interfaces st).

(** Is [address] an address or a broadcast address of the interface? *)
Definition is_own (address : Ipv4Address) (i : Ipv4Interface) : bool :=
  existsb (fun iaddr => (address =? m_local iaddr) || (address =? m_broadcast iaddr)) (m_ifaddrs i).

Fixpoint other_own (address : Ipv4Address) (iif j : Z) (l : list Ipv4Interface) : bool :=
  match l with
  | [] => false
  | i :: l' => (negb (j =? iif) && is_own address i) || other_own address iif (j + 1) l'
  end.

Definition IsDestinationAddress (st : L3) (address : Ipv4Address) (iif : Z) : result bool :=
  iface ← interface_at st iif;
  if is_own address iface then Ok true
  else if IsMulticast address then Ok true
  else if IsBroadcast address then Ok true
  else if m_weakEsModel st then Ok (other_own address iif 0 (m_interfaces st))
  else Ok false.

(** The stack as the routing protocol sees it through its pointer. *)
Definition view (st : L3) : Ipv4 := {|
  Node.GetNInterfaces := GetNInterfaces st;
  Node.GetNAddresses := GetNAddresses st;
  Node.GetAddress := GetAddress st;
  Node.IsUp := IsUp st;
  Node.IsForwarding := IsForwarding st;
  Node.GetIfIndex := dev_IfIndex env;
  Node.GetInterfaceForAddress := GetInterfaceForAddress st;
  Node.GetInterfaceForDevice := GetInterfaceForDevice st;
  Node.IsDestinationAddress := IsDestinationAddress st;
  Node.GetNetDevice := GetNetDevice st;
  Node.CreateSocket := env_CreateSocket env;
  Node.Bind := env_Bind env
|}.

(** ** Changes *)

(** The routing protocol sees the new stack. *)
Definition refresh (st : L3) : L3 := set_routingProtocol (StackChanged_ (view st) <$> m_routingProtocol st) st.

(** [if (m_routingProtocol != 0) m_routingProtocol->Notify... ()] on the changed
    stack. *)
Definition notify (f : S -> result S) (st : L3) : result L3 :=
  match m_routingProtocol (refresh st) with
  | None => Ok (refresh st)
  | Some r => r ← f r; Ok (set_routingProtocol (Some r) (refresh st))
  end.

Definition change_interface (i : Z) (f : Ipv4Interface -> Ipv4Interface) (st : L3) : result L3 :=
  iface ← interface_at st i;
  Ok (set_interfaces (<[Z.to_nat i := f iface]> (m_interfaces st)) st).

(** The protocol is told the stack once and for all. *)
Definition SetRoutingProtocol (routingProtocol : S) (st : L3) : result L3 :=
  r ← SetIpv4_ (view st) routingProtocol; Ok (set_routingProtocol (Some r) st).

Definition AddIpv4Interface (interface : Ipv4Interface) (st : L3) : Z * L3 :=
  (u32 (Z.of_nat (length (m_interfaces st))), refresh (set_interfaces (m_interfaces st ++ [interface]) st)).
Definition AddInterface (device : NetDevice) (st : L3) : Z * L3 :=
  AddIpv4Interface (Interface.SetForwarding (m_ipForward st) (Interface.create device)) st.

(** With [device] the node's loopback device. *)
Definition SetupLoopback (device : NetDevice) (st : L3) : result L3 :=
  let ifaceAddr := MakeInterfaceAddress GetLoopback Mask_GetLoopback in
  let interface := Interface.AddAddress ifaceAddr (Interface.create device) in
  let '(index, st) := AddIpv4Interface interface st in
  st ← change_interface index Interface.SetUp st;
  notify (NotifyInterfaceUp_ index) st.

Definition SetUp (i : Z) (st : L3) : result L3 :=
  st ← change_interface i Interface.SetUp st; notify (NotifyInterfaceUp_ i) st.
Definition SetDown (i : Z) (st : L3) : result L3 :=
  st ← change_interface i Interface.SetDown st; notify (NotifyInterfaceDown_ i) st.
Definition AddAddress (i : Z) (address : Ipv4InterfaceAddress) (st : L3) : result L3 :=
  st ← change_interface i (Interface.AddAddress address) st; notify (NotifyAddAddress_ i address) st.
(** The default-constructed address it compares with. *)
Definition RemoveAddress (i addressIndex : Z) (st : L3) : result (bool * L3) :=
  iface ← interface_at st i;
  '(address, iface) ← Interface.RemoveAddress addressIndex iface;
  let st := set_interfaces (<[Z.to_nat i := iface]> (m_interfaces st)) st in
  if negb (InterfaceAddress_eqb address InterfaceAddress_default) then
    st ← notify (NotifyRemoveAddress_ i address) st; Ok (true, st)
  else Ok (false, refresh st).
Definition SetForwarding (i : Z) (val : bool) (st : L3) : result L3 :=
  st ← change_interface i (Interface.SetForwarding val) st; Ok (refresh st).
Definition SetIpForward (forward : bool) (st : L3) : L3 :=
  refresh (set_interfaces (map (Interface.SetForwarding forward) (m_interfaces st)) (set_ipForward forward st)).
Definition SetMetric (i metric : Z) (st : L3) : result L3 :=
  st ← change_interface i (Interface.SetMetric metric) st; Ok (refresh st).

(** ** Source address selection *)

Definition device_step (dst : Ipv4Address) (scope : InterfaceAddressScope_e)
    (acc : Ipv4Address + option Ipv4Address) (iaddr : Ipv4InterfaceAddress) : Ipv4Address + option Ipv4Address :=
  match acc with
  | inl a => inl a
  | inr found =>
      if m_secondary iaddr then acc
      else if scope_rank scope <? scope_rank (m_scope iaddr) then acc
      else if CombineMask dst (m_mask iaddr) =? CombineMask (m_local iaddr) (m_mask iaddr) then inl (m_local iaddr)
      else match found with Some _ => acc | None => inr (Some (m_local iaddr)) end
  end.

(** The first address that fits, over all interfaces. *)
Definition any_source (scope : InterfaceAddressScope_e) (l : list Ipv4InterfaceAddress) : option Ipv4Address :=
  m_local <$> List.find (fun iaddr => negb (m_secondary iaddr) && bool_decide (m_scope iaddr <> LINK) &&
    (scope_rank (m_scope iaddr) <=? scope_rank scope)) l.

(** [inl a]: the function returned [a] inside the first loop; [inr (Some a)]:
    [found] with [addr = a]. *)
Definition SelectSourceAddress (st : L3) (device : option NetDevice) (dst : Ipv4Address)
    (scope : InterfaceAddressScope_e) : result Ipv4Address :=
  r ← match device with
  | None => Ok (inr None)
  | Some d =>
      let i := GetInterfaceForDevice st d in
      _ ← assert (0 <=? i);
      iface ← interface_at st i;
      Ok (foldl (device_step dst scope) (inr None) (m_ifaddrs iface))
  end;
  match r with
  | inl a | inr (Some a) => Ok a
  | inr None =>
      Ok (match any_source scope (concat (map m_ifaddrs (m_interfaces st))) with
          | Some a => a
          | None => AsciiToIpv4Host "0.0.0.0"
          end)
  end.

(** ** Sending *)

(** [Ipv4Interface::Send]; the header is on the packet. *)
Definition Interface_Send (i : Ipv4Interface) (h : IpHeader) (p : Packet) (dest : Ipv4Address) : result (list ip_action) :=
  let device := m_device i in
  if negb (m_ifup i) then Ok []
  else if dev_IsLoopback env device then Ok [DeviceSend device h p HwBroadcast]
  else if existsb (fun a => dest =? m_local a) (m_ifaddrs i) then Ok [LoopBack device h p]
  else if dev_NeedsArp env device then
    if IsBroadcast dest then Ok [DeviceSend device h p HwBroadcast]
    else if IsMulticast dest then
      _ ← assert (dev_IsMulticast env device); Ok [DeviceSend device h p (HwMulticast dest)]
    else if existsb (fun a => IsSubnetDirectedBroadcast dest (m_mask a)) (m_ifaddrs i) then
      Ok [DeviceSend device h p HwBroadcast]
    else Ok [ArpLookup device h p dest]
  else Ok [DeviceSend device h p HwBroadcast].

Definition SendRealOut (st : L3) (route : option Ipv4Route) (h : IpHeader) (p : Packet) : result (list ip_action) :=
  match route with
  | None => Ok [Dropped h p DROP_NO_ROUTE 0]
  | Some route =>
      let interface := GetInterfaceForDevice st (m_outputDevice route) in
      _ ← assert (0 <=? interface);
      outInterface ← interface_at st interface;
      _ ← assert (IP_HEADER_SIZE + Z.of_nat (length p) <=? dev_Mtu env (m_device outInterface));
      let dest := if m_gateway route =? AsciiToIpv4Host "0.0.0.0" then h_destination h else m_gateway route in
      if m_ifup outInterface then Interface_Send outInterface h p dest
      else Ok [Dropped h p DROP_INTERFACE_DOWN interface]
  end.

(** [Icmpv4L4Protocol::PROT_NUMBER]. *)
Definition ICMP_PROT_NUMBER : Z := 1.

Definition IpForward (st : L3) (rtentry : Ipv4Route) (header : IpHeader) (p : Packet) : result (list ip_action) :=
  let interface := GetInterfaceForDevice st (m_outputDevice rtentry) in
  let ipHeader := SetTtl (u8 (h_ttl header - 1)) header in
  if h_ttl ipHeader =? 0 then
    Ok ((if negb (h_protocol ipHeader =? ICMP_PROT_NUMBER) && negb (IsBroadcast (h_destination ipHeader)) &&
            negb (IsMulticast (h_destination ipHeader)) then [SendTimeExceeded ipHeader p] else []) ++
        [Dropped header p DROP_TTL_EXPIRED interface])
  else SendRealOut st (Some rtentry) ipHeader p.

(** The loop over the interfaces of a multicast route, from [i] on; [rounds] is
    the number of interfaces left. *)
Fixpoint IpMulticastForward_loop (st : L3) (mrtentry : Ipv4MulticastRoute) (header : IpHeader) (p : Packet)
    (i : Z) (rounds : nat) : result (list ip_action) :=
  match rounds with
  | O => Ok []
  | Datatypes.S rounds' =>
      ttl ← m_ttls mrtentry !! Z.to_nat i ?? OutOfRange;
      if ttl <? 255 then
        let h := SetTtl (u8 (h_ttl header - 1)) header in
        if h_ttl h =? 0 then Ok [Dropped header p DROP_TTL_EXPIRED i]
        else
          device ← GetNetDevice st i;
          out ← SendRealOut st (Some (mkRoute (h_destination h) (h_source h) GetAny device)) h p;
          rest ← IpMulticastForward_loop st mrtentry header p (i + 1) rounds';
          Ok (out ++ rest)
      else IpMulticastForward_loop st mrtentry header p (i + 1) rounds'
  end.
Definition IpMulticastForward (st : L3) (mrtentry : Ipv4MulticastRoute) (header : IpHeader) (p : Packet)
    : result (list ip_action) := IpMulticastForward_loop st mrtentry header p 0 16.

(** The new header, and the object with the next identification. *)
Definition BuildHeader (source destination : Ipv4Address) (protocol payloadSize ttl : Z) (st : L3) : IpHeader * L3 :=
  (mkIpHeader source destination protocol (u16 payloadSize) ttl (m_identification st),
   set_identification (u16 (m_identification st + 1)) st).

(** The first interface one of whose subnets has [destination] as its
    broadcast address. *)
Definition broadcast_interface (destination : Ipv4Address) (l : list Ipv4Interface) : option Ipv4Interface :=
  List.find (fun i => existsb (fun a => IsSubnetDirectedBroadcast destination (m_mask a) &&
    (CombineMask destination (m_mask a) =? CombineMask (m_local a) (m_mask a))) (m_ifaddrs i)) l.

(** [tag]: the time to live a socket asked for. *)
Definition Send (tag : option Z) (p : Packet) (source destination : Ipv4Address) (protocol : Z)
    (route : option Ipv4Route) (st : L3) : result (L3 * list ip_action) :=
  let ttl := match tag with Some ttl => ttl | None => m_defaultTtl st end in
  let '(ipHeader, st') := BuildHeader source destination protocol (Z.of_nat (length p)) ttl st in
  if IsBroadcast destination || IsLocalMulticast destination then
    out ← foldM (fun out i =>
      _ ← assert (Z.of_nat (length p) <=? dev_Mtu env (m_device i));
      o ← Interface_Send i ipHeader p destination; Ok (out ++ o)) [] (m_interfaces st);
    Ok (st', out)
  else match broadcast_interface destination (m_interfaces st) with
  | Some i => out ← Interface_Send i ipHeader p destination; Ok (st', out)
  | None =>
      match route with
      | Some r =>
          if m_gateway r =? Ipv4Address_default then Fault FatalError
          else out ← SendRealOut st' route ipHeader p; Ok (st', out)
      | None =>
          newRoute ← match m_routingProtocol st' with
          | Some rp => r ← RouteOutput_ rp p (routing_header ipHeader) None 0; Ok r.1
          | None => Ok None
          end;
          match newRoute with
          | Some _ => out ← SendRealOut st' newRoute ipHeader p; Ok (st', out)
          | None => Ok (st', [Dropped ipHeader p DROP_NO_ROUTE 0])
          end
      end
  end.

(** ** Receiving *)

(** What the callbacks given to [RouteInput] do. *)
Definition callback (st : L3) (header : IpHeader) (a : action Empty_set) : result (list ip_action) :=
  match a with
  | UnicastForward route p => IpForward st route header p
  | MulticastForward route p => IpMulticastForward st route header p
  | LocalDeliver p iif => Ok [DeliverUp header p iif]
  | RouteError p _ => Ok [Dropped header p DROP_ROUTE_ERROR 0]
  | _ => Ok []
  end.

(** The search for the receiving interface: its number ([size] when there is
    none), and whether it was found to be down. *)
Fixpoint receiving (device : NetDevice) (interface : Z) (l : list Ipv4Interface) : Z * bool :=
  match l with
  | [] => (interface, false)
  | i :: l' => if m_device i =? device then (interface, negb (m_ifup i)) else receiving device (interface + 1) l'
  end.

(** [h] and [packet] are the header and the rest of the packet received;
    checksums are off, as they are by default. *)
Definition Receive (st : L3) (device : NetDevice) (h : IpHeader) (packet : Packet) : result (list ip_action) :=
  let '(interface, down) := receiving device 0 (m_interfaces st) in
  if down : bool then Ok [Dropped h packet DROP_INTERFACE_DOWN interface]
  else
    let packet := take (Z.to_nat (h_payloadSize h)) packet in
    rp ← m_routingProtocol st ?? AssertFailed;
    '(routed, actions) ← RouteInput_ (M := Empty_set) rp packet (routing_header h) device true;
    out ← foldM (fun out a => o ← callback st h a; Ok (out ++ o)) [] actions;
    Ok (out ++ if routed : bool then [] else [Dropped h packet DROP_NO_ROUTE interface]).
End stack.

Arguments L3 S : clear implicits.
