(* ===== verification/IpHeaderWire.v ===== *)
(** * IpHeaderWire: the IPv4 header on the wire

    src/ns-3/src/node/ipv4-header.cc: the fields of [Ipv4Header], their
    accessors, and its 20 bytes in a packet with the checksum. *)

From S2P Require Import Prelude StdMap StdString Ipv4Address BufferIter Buffer Codec BufferWords Ipv4Stack.

Module Wire.
(** ** Fields *)

(** [m_tos], [m_ttl] and [m_protocol] are bit-fields of 8 bits, [m_flags] of 3
    and [m_fragmentOffset] of 13. *)
Record Header := mkHeader {
  m_calcChecksum : bool;
  m_payloadSize : Z;
  m_identification : Z;
  m_tos : Z;
  m_ttl : Z;
  m_protocol : Z;
  m_flags : Z;
  m_fragmentOffset : Z;
  m_source : Ipv4Address;
  m_destination : Ipv4Address;
  m_checksum : Z;
  m_goodChecksum : bool
}.

Definition u13 (z : Z) : Z := z mod 2 ^ 13.
Definition DONT_FRAGMENT : Z := 1.
Definition MORE_FRAGMENTS : Z := 2.

Definition Ipv4Header_new : Header :=
  mkHeader false 0 0 0 0 0 0 0 Ipv4Address_default Ipv4Address_default 0 true.

Definition EnableChecksum (h : Header) : Header :=
  mkHeader true (m_payloadSize h) (m_identification h) (m_tos h) (m_ttl h) (m_protocol h) (m_flags h)
    (m_fragmentOffset h) (m_source h) (m_destination h) (m_checksum h) (m_goodChecksum h).
Definition SetPayloadSize (size : Z) (h : Header) : Header :=
  mkHeader (m_calcChecksum h) (u16 size) (m_identification h) (m_tos h) (m_ttl h) (m_protocol h) (m_flags h)
    (m_fragmentOffset h) (m_source h) (m_destination h) (m_checksum h) (m_goodChecksum h).
Definition SetIdentification (identification : Z) (h : Header) : Header :=
  mkHeader (m_calcChecksum h) (m_payloadSize h) (u16 identification) (m_tos h) (m_ttl h) (m_protocol h) (m_flags h)
    (m_fragmentOffset h) (m_source h) (m_destination h) (m_checksum h) (m_goodChecksum h).
Definition SetTos (tos : Z) (h : Header) : Header :=
  mkHeader (m_calcChecksum h) (m_payloadSize h) (m_identification h) (u8 tos) (m_ttl h) (m_protocol h) (m_flags h)
    (m_fragmentOffset h) (m_source h) (m_destination h) (m_checksum h) (m_goodChecksum h).
Definition set_flags (flags : Z) (h : Header) : Header :=
  mkHeader (m_calcChecksum h) (m_payloadSize h) (m_identification h) (m_tos h) (m_ttl h) (m_protocol h) (flags mod 8)
    (m_fragmentOffset h) (m_source h) (m_destination h) (m_checksum h) (m_goodChecksum h).
Definition SetMoreFragments (h : Header) : Header := set_flags (Z.lor (m_flags h) MORE_FRAGMENTS) h.
Definition SetLastFragment (h : Header) : Header := set_flags (Z.land (m_flags h) (Z.lnot MORE_FRAGMENTS)) h.
Definition SetDontFragment (h : Header) : Header := set_flags (Z.lor (m_flags h) DONT_FRAGMENT) h.
Definition SetMayFragment (h : Header) : Header := set_flags (Z.land (m_flags h) (Z.lnot DONT_FRAGMENT)) h.
Definition IsLastFragment (h : Header) : bool := Z.land (m_flags h) MORE_FRAGMENTS =? 0.
Definition IsDontFragment (h : Header) : bool := negb (Z.land (m_flags h) DONT_FRAGMENT =? 0).

(** [NS_ASSERT (!(offset & (~0x3fff)))] lets 14 bits through, one more than
    the bit-field holds. *)
Definition SetFragmentOffset (offset : Z) (h : Header) : result Header :=
  _ ← assert (Z.land offset (Z.lnot 0x3fff) =? 0);
  Ok (mkHeader (m_calcChecksum h) (m_payloadSize h) (m_identification h) (m_tos h) (m_ttl h) (m_protocol h)
    (m_flags h) (u13 offset) (m_source h) (m_destination h) (m_checksum h) (m_goodChecksum h)).
Definition GetFragmentOffset (h : Header) : result Z :=
  _ ← assert (Z.land (m_fragmentOffset h) (Z.lnot 0x3fff) =? 0); Ok (m_fragmentOffset h).

Definition SetTtl (ttl : Z) (h : Header) : Header :=
  mkHeader (m_calcChecksum h) (m_payloadSize h) (m_identification h) (m_tos h) (u8 ttl) (m_protocol h) (m_flags h)
    (m_fragmentOffset h) (m_source h) (m_destination h) (m_checksum h) (m_goodChecksum h).
Definition SetProtocol (protocol : Z) (h : Header) : Header :=
  mkHeader (m_calcChecksum h) (m_payloadSize h) (m_identification h) (m_tos h) (m_ttl h) (u8 protocol) (m_flags h)
    (m_fragmentOffset h) (m_source h) (m_destination h) (m_checksum h) (m_goodChecksum h).
Definition SetSource (source : Ipv4Address) (h : Header) : Header :=
  mkHeader (m_calcChecksum h) (m_payloadSize h) (m_identification h) (m_tos h) (m_ttl h) (m_protocol h) (m_flags h)
    (m_fragmentOffset h) source (m_destination h) (m_checksum h) (m_goodChecksum h).
Definition SetDestination (dst : Ipv4Address) (h : Header) : Header :=
  mkHeader (m_calcChecksum h) (m_payloadSize h) (m_identification h) (m_tos h) (m_ttl h) (m_protocol h) (m_flags h)
    (m_fragmentOffset h) (m_source h) dst (m_checksum h) (m_goodChecksum h).
Definition IsChecksumOk (h : Header) : bool := m_goodChecksum h.

(** ** On the wire *)

Definition GetSerializedSize : Z := 5 * 4.

(** [i = start], and [Iterator i = start]. *)
Definition goto (start : Iterator) : ItM unit := fun _ m => Ok (tt, start, m).
Definition here : ItM Iterator := fun it m => Ok (it, it, m).

Definition flags_byte (h : Header) (fragmentOffset : Z) : Z :=
  let flagsFrag := Z.land (Z.shiftr fragmentOffset 8) 0x1f in
  let flagsFrag := if IsDontFragment h then Z.lor flagsFrag (Z.shiftl 1 6) else flagsFrag in
  if negb (IsLastFragment h) then Z.lor flagsFrag (Z.shiftl 1 5) else flagsFrag.

(** [Serialize] up to the test of [m_calcChecksum]. *)
Definition write_fields (h : Header) : ItM unit :=
  let verIhl := Z.lor (Z.shiftl 4 4) 5 in
  _ ← WriteU8 verIhl;
  _ ← WriteU8 (m_tos h);
  _ ← WriteHtonU16 (u16 (m_payloadSize h + 5 * 4));
  _ ← WriteHtonU16 (m_identification h);
  let fragmentOffset := m_fragmentOffset h / 8 in
  _ ← WriteU8 (flags_byte h fragmentOffset);
  let frag := Z.land fragmentOffset 0xff in
  _ ← WriteU8 frag;
  _ ← WriteU8 (m_ttl h);
  _ ← WriteU8 (m_protocol h);
  _ ← WriteHtonU16 0;
  _ ← WriteHtonU32 (m_source h);
  WriteHtonU32 (m_destination h).

Definition Serialize (h : Header) : ItM unit :=
  start ← here;
  _ ← write_fields h;
  if m_calcChecksum h then
    _ ← goto start;
    checksum ← CalculateIpChecksum 20 0;
    _ ← goto start;
    _ ← Next 10;
    WriteU16 checksum
  else mret tt.

(** The flags of the byte [flags]. *)
Definition flags_of (flags : Z) : Z :=
  let m_flags := 0 in
  let m_flags := if Z.land flags (Z.shiftl 1 6) =? 0 then m_flags else Z.lor m_flags DONT_FRAGMENT in
  if Z.land flags (Z.shiftl 1 5) =? 0 then m_flags else Z.lor m_flags MORE_FRAGMENTS.

(** [Deserialize] up to the test of the checksum; with [headerSize]. *)
Definition read_fields (h : Header) : ItM (Header * Z) :=
  verIhl ← ReadU8;
  let ihl := Z.land verIhl 0x0f in
  let headerSize := ihl * 4 in
  _ ← it_assert (fun _ => Z.shiftr verIhl 4 =? 4);
  tos ← ReadU8;
  size ← ReadNtohU16;
  identification ← ReadNtohU16;
  flags ← ReadU8;
  _ ← Prev 1;
  byte1 ← ReadU8;
  let fragmentOffset := Z.land byte1 0x1f in
  let fragmentOffset := u13 (Z.shiftl fragmentOffset 8) in
  byte0 ← ReadU8;
  let fragmentOffset := u13 (Z.lor fragmentOffset byte0) in
  let fragmentOffset := u13 (Z.shiftl fragmentOffset 3) in
  ttl ← ReadU8;
  protocol ← ReadU8;
  checksum ← ReadU16;
  source ← ReadNtohU32;
  destination ← ReadNtohU32;
  mret (mkHeader (m_calcChecksum h) (u16 (size - headerSize)) identification tos ttl protocol (flags_of flags)
    fragmentOffset source destination checksum (m_goodChecksum h), headerSize).

Definition set_goodChecksum (good : bool) (h : Header) : Header :=
  mkHeader (m_calcChecksum h) (m_payloadSize h) (m_identification h) (m_tos h) (m_ttl h) (m_protocol h) (m_flags h)
    (m_fragmentOffset h) (m_source h) (m_destination h) (m_checksum h) good.

(** The result is the header and the size the caller removes from the packet. *)
Definition Deserialize (h : Header) : ItM (Header * Z) :=
  start ← here;
  '(h, headerSize) ← read_fields h;
  if m_calcChecksum h then
    _ ← goto start;
    checksum ← CalculateIpChecksum headerSize 0;
    mret (set_goodChecksum (checksum =? 0) h, GetSerializedSize)
  else mret (h, GetSerializedSize).

(** ** Reading twenty bytes *)

Lemma reads_ReadNtohU16 bs : length bs = 2%nat -> reads ReadNtohU16 bs (ntoh16 bs).
Proof.
  intros Hl. apply (reads_ext (bs ← fetch m_current 2; mret (ntoh16 bs))).
  - apply reads_bind_ret. by apply reads_fetch.
  - unfold blen, ReadNtohU16. rewrite Hl. intros it m Hh Hr. rewrite (hdr_u32 it m) by (done || lia).
    by replace (m_current it + 2 <=? m_zeroStart it) with true by lia.
Qed.

Lemma reads_ReadNtohU32 bs : length bs = 4%nat -> reads ReadNtohU32 bs (ntoh32 bs).
Proof.
  intros Hl. apply (reads_ext (bs ← fetch m_current 4; mret (ntoh32 bs))).
  - apply reads_bind_ret. by apply reads_fetch.
  - unfold blen, ReadNtohU32. rewrite Hl. intros it m Hh Hr. rewrite (hdr_u32 it m) by (done || lia).
    by replace (m_current it + 4 <=? m_zeroStart it) with true by lia.
Qed.

(** [ReadU8], [Prev ()] and [ReadU8] give the byte twice. *)
Lemma reads_again {A} (k : Z -> Z -> ItM A) b bs a :
  reads (k b b) bs a -> reads (x ← ReadU8; _ ← Prev 1; y ← ReadU8; k x y) (b :: bs) a.
Proof.
  intros H it m Hh Hr Hs.
  etransitivity; [|exact (reads_bind ReadU8 (fun _ => k b b) [b] bs b a (reads_U8 b) H it m Hh Hr Hs)].
  unfold mbind, ItM_bind.
  pose proof (blen_nonneg bs). rewrite blen_cons in Hr.
  pose proof Hs as Hs'. change (b :: bs) with ([b] ++ bs) in Hs'.
  apply slice_split in Hs' as [Hb _]; [|unfold hdr in Hh; rewrite ?blen_app; unfold blen in *; cbn; lia..].
  rewrite (reads_U8 b it m Hh) by (done || (unfold blen; cbn; lia)). change (blen [b]) with 1.
  unfold Prev. pose proof (advance_current it m 1 Hh ltac:(lia) ltac:(lia)) as E. rewrite E.
  replace (1 <=? m_current it + 1) with true by (unfold hdr in Hh; lia).
  rewrite advance_advance. replace (1 + Z.opp 1) with 0 by done. rewrite (advance_0 it m Hh).
  by rewrite (reads_U8 b it m Hh) by (done || (unfold blen; cbn; lia)).
Qed.

Lemma reads_assert {A} (p : Iterator -> bool) (k : ItM A) bs a :
  (forall it, p it = true) -> reads k bs a -> reads (_ ← it_assert p; k) bs a.
Proof. intros Hp H it m. unfold mbind, ItM_bind, it_assert. rewrite Hp. apply H. Qed.

Lemma reads_cons {A B} (c : ItM A) (k : A -> ItM B) x bs a b :
  reads c [x] a -> reads (k a) bs b -> reads (c ≫= k) (x :: bs) b.
Proof. intros Hc Hk. by apply (reads_bind c k [x] bs a). Qed.

(** A header of five words, byte by byte, and the fields it stands for. *)
Definition wire_bytes (tos s1 s0 i1 i0 f1 f0 ttl protocol c0 c1 a3 a2 a1 a0 d3 d2 d1 d0 : Z) : list Z :=
  [0x45; tos; s1; s0; i1; i0; f1; f0; ttl; protocol; c0; c1; a3; a2; a1; a0; d3; d2; d1; d0].

Definition wire_fields (h : Header) (tos s1 s0 i1 i0 f1 f0 ttl protocol c0 c1 a3 a2 a1 a0 d3 d2 d1 d0 : Z) : Header :=
  mkHeader (m_calcChecksum h) (u16 (ntoh16 [s1; s0] - 20)) (ntoh16 [i1; i0]) tos ttl protocol (flags_of f1)
    (u13 (Z.shiftl (u13 (Z.lor (u13 (Z.shiftl (Z.land f1 0x1f) 8)) f0)) 3))
    (ntoh32 [a3; a2; a1; a0]) (ntoh32 [d3; d2; d1; d0]) (c0 + 256 * c1) (m_goodChecksum h).

Lemma reads_fields h tos s1 s0 i1 i0 f1 f0 ttl protocol c0 c1 a3 a2 a1 a0 d3 d2 d1 d0 :
  is_u8 c0 -> is_u8 c1 ->
  reads (read_fields h) (wire_bytes tos s1 s0 i1 i0 f1 f0 ttl protocol c0 c1 a3 a2 a1 a0 d3 d2 d1 d0)
    (wire_fields h tos s1 s0 i1 i0 f1 f0 ttl protocol c0 c1 a3 a2 a1 a0 d3 d2 d1 d0, 20).
Proof.
  intros H0 H1. unfold read_fields, wire_bytes.
  eapply reads_cons; [apply reads_U8|]. apply reads_assert; [done|].
  eapply reads_cons; [apply reads_U8|].
  eapply (reads_bind _ _ [s1; s0]); [by apply reads_ReadNtohU16|].
  eapply (reads_bind _ _ [i1; i0]); [by apply reads_ReadNtohU16|].
  eapply reads_again. eapply reads_cons; [apply reads_U8|].
  eapply reads_cons; [apply reads_U8|]. eapply reads_cons; [apply reads_U8|].
  eapply (reads_bind _ _ [c0; c1]); [by apply reads_word|].
  eapply (reads_bind _ _ [a3; a2; a1; a0]); [by apply reads_ReadNtohU32|].
  rewrite <- (app_nil_r [d3; d2; d1; d0]).
  eapply (reads_bind _ _ [d3; d2; d1; d0]); [by apply reads_ReadNtohU32|]. apply reads_ret.
Qed.

(** A reader of [bs] may go back to its start. *)
Lemma reads_from_here {A B} (c : ItM A) (d : Iterator -> A -> ItM B) bs a b :
  reads c bs a ->
  (forall start, reads (d start a) [] b \/ (exists d', d start a = (_ ← goto start; d') /\ reads d' bs b)) ->
  reads (start ← here; x ← c; d start x) bs b.
Proof.
  intros Hc Hd it m Hh Hr Hs. unfold mbind, ItM_bind, here. rewrite (Hc it m Hh Hr Hs).
  pose proof (blen_nonneg bs). destruct (Hd it) as [Hk|(d' & -> & Hk)].
  - rewrite (Hk (advance it (blen bs)) m).
    + rewrite advance_advance. change (blen []) with 0. by rewrite Z.add_0_r.
    + by apply hdr_advance.
    + rewrite (advance_current it m) by done. change (blen []) with 0. change (m_zeroStart (advance it (blen bs))) with (m_zeroStart it). lia.
    + done.
  - unfold mbind, ItM_bind, goto. by apply Hk.
Qed.

Definition received (h : Header) (tos s1 s0 i1 i0 f1 f0 ttl protocol c0 c1 a3 a2 a1 a0 d3 d2 d1 d0 : Z) : Header :=
  let h' := wire_fields h tos s1 s0 i1 i0 f1 f0 ttl protocol c0 c1 a3 a2 a1 a0 d3 d2 d1 d0 in
  if m_calcChecksum h then set_goodChecksum (finish_checksum (word_sum
    (wire_bytes tos s1 s0 i1 i0 f1 f0 ttl protocol c0 c1 a3 a2 a1 a0 d3 d2 d1 d0)) =? 0) h' else h'.

Lemma reads_Deserialize h tos s1 s0 i1 i0 f1 f0 ttl protocol c0 c1 a3 a2 a1 a0 d3 d2 d1 d0 :
  Forall is_u8 (wire_bytes tos s1 s0 i1 i0 f1 f0 ttl protocol c0 c1 a3 a2 a1 a0 d3 d2 d1 d0) ->
  reads (Deserialize h) (wire_bytes tos s1 s0 i1 i0 f1 f0 ttl protocol c0 c1 a3 a2 a1 a0 d3 d2 d1 d0)
    (received h tos s1 s0 i1 i0 f1 f0 ttl protocol c0 c1 a3 a2 a1 a0 d3 d2 d1 d0, GetSerializedSize).
Proof.
  intros Hb. unfold Deserialize. eapply reads_from_here.
  - apply reads_fields; (eapply Forall_forall; [exact Hb|]); unfold wire_bytes; rewrite !elem_of_cons; naive_solver.
  - intros start. unfold received.
    set (h' := wire_fields _ _ _ _ _ _ _ _ _ _ _ _ _ _ _ _ _ _ _ _).
    change (m_calcChecksum h) with (m_calcChecksum h'). destruct (m_calcChecksum h').
    + right. eexists. split; [reflexivity|].
      apply (reads_bind_ret _ (fun checksum => (set_goodChecksum (checksum =? 0) h', GetSerializedSize))).
      by apply (reads_checksum 10).
    + left. apply reads_ret.
Qed.

(** ** Writing them *)

(** The bytes of [h] around the checksum [c]. *)
Definition header_bytes (h : Header) (c : Z) : list Z :=
  let fragmentOffset := m_fragmentOffset h / 8 in
  [0x45; m_tos h] ++ be16 (u16 (m_payloadSize h + 20)) ++ be16 (m_identification h) ++
  [flags_byte h fragmentOffset; Z.land fragmentOffset 0xff; m_ttl h; m_protocol h] ++
  le16 c ++ be32 (m_source h) ++ be32 (m_destination h).

Definition valid (h : Header) : Prop :=
  is_u16 (m_payloadSize h) /\ is_u16 (m_identification h) /\ is_u8 (m_tos h) /\ is_u8 (m_ttl h) /\
  is_u8 (m_protocol h) /\ 0 <= m_flags h < 8 /\ 0 <= m_fragmentOffset h < 2 ^ 13 /\
  is_u32 (m_source h) /\ is_u32 (m_destination h).

#[export] Instance valid_dec h : Decision (valid h).
Proof. unfold valid. apply _. Defined.

Lemma writes_fields h : writes (write_fields h) (header_bytes h 0).
Proof.
  unfold write_fields, header_bytes. cbn zeta.
  apply (writes_seq _ _ [_]); [apply writes_U8|]. apply (writes_seq _ _ [_]); [apply writes_U8|].
  apply (writes_seq _ _ (be16 _)); [apply writes_HtonU16|]. apply (writes_seq _ _ (be16 _)); [apply writes_HtonU16|].
  do 4 (apply (writes_seq _ _ [_]); [apply writes_U8|]).
  apply (writes_seq _ _ (le16 0)); [apply writes_HtonU16|].
  apply writes_seq; apply writes_HtonU32.
Qed.

(** A byte of flags holds the flags and the five high bits of the offset. *)
Lemma flags_byte_spec h x : 0 <= m_flags h < 8 -> 0 <= x < 1024 ->
  is_u8 (flags_byte h x) /\ Z.land (flags_byte h x) 0x1f = x / 256 /\ flags_of (flags_byte h x) = Z.land (m_flags h) 3.
Proof.
  intros Hf Hx. unfold flags_byte, IsDontFragment, IsLastFragment. rewrite shiftr_8.
  assert (x / 256 = 0 \/ x / 256 = 1 \/ x / 256 = 2 \/ x / 256 = 3) as Hq by dlia.
  assert (m_flags h = 0 \/ m_flags h = 1 \/ m_flags h = 2 \/ m_flags h = 3 \/
    m_flags h = 4 \/ m_flags h = 5 \/ m_flags h = 6 \/ m_flags h = 7) as Hm by lia.
  destruct Hq as [-> | [-> | [-> | ->]]];
    destruct Hm as [-> | [-> | [-> | [-> | [-> | [-> | [-> | ->]]]]]]]; by apply (bool_decide_unpack _).
Qed.

Lemma land_u8 z : is_u8 (Z.land z 0xff).
Proof. rewrite byte_mod. unfold is_u8. dlia. Qed.

Lemma header_bytes_u8 h c : valid h -> Forall is_u8 (header_bytes h c).
Proof.
  intros (_ & _ & Ht & Htl & Hp & Hf & Ho & _). destruct (flags_byte_spec h (m_fragmentOffset h / 8)) as (Hfb & _); [done|dlia|].
  unfold header_bytes, be16, be32, le16. cbn [app]. 
  repeat (apply Forall_cons_2; [first [apply land_u8|assumption|by apply (bool_decide_unpack _)]|]). apply Forall_nil_2.
Qed.

Lemma splice_within m i b1 b2 b2' b3 :
  0 <= i -> i + blen (b1 ++ b2 ++ b3) <= blen m -> length b2 = length b2' ->
  splice (splice m i (b1 ++ b2 ++ b3)) (i + blen b1) b2' = splice m i (b1 ++ b2' ++ b3).
Proof.
  intros Hi Hb Hl. destruct (mem_split m i (length (b1 ++ b2 ++ b3))) as (l & x & r & -> & -> & Hx); [done|done|].
  rewrite splice_app by done. rewrite splice_app by (rewrite Hx, !length_app; lia).
  replace (l ++ (b1 ++ b2 ++ b3) ++ r) with ((l ++ b1) ++ b2 ++ (b3 ++ r)) by by rewrite <- !app_assoc.
  rewrite <- blen_app, splice_app by done. by rewrite <- !app_assoc.
Qed.

(** The checksum [Serialize] puts into the header. *)
Definition sent_checksum (h : Header) : Z :=
  if m_calcChecksum h then finish_checksum (word_sum (header_bytes h 0)) else 0.

Lemma stores_Serialize h : valid h -> stores (Serialize h) (header_bytes h (sent_checksum h)).
Proof.
  intros Hv it m Hh Hr. change (blen (header_bytes h (sent_checksum h))) with 20 in Hr.
  unfold Serialize, sent_checksum. unfold mbind at 1, ItM_bind at 1, here. unfold mbind at 1, ItM_bind at 1.
  rewrite (writes_fields h it m Hh Hr). change (blen (header_bytes h 0)) with 20.
  assert (0 <= m_current it /\ m_current it + 20 <= blen m) as [Hc Hm] by (unfold hdr in Hh; lia).
  destruct (m_calcChecksum h); [|by eexists].
  set (m1 := splice m (m_current it) (header_bytes h 0)).
  assert (blen m1 = blen m) as Hm1 by by apply blen_splice.
  assert (hdr it m1) as Hh1 by (unfold hdr in *; lia).
  unfold goto. unfold mbind at 1, ItM_bind at 1. unfold mbind at 1, ItM_bind at 1.
  pose proof (reads_checksum 10 (header_bytes h 0) (header_bytes_u8 h 0 Hv) eq_refl ltac:(lia) it m1 Hh1 Hr
    (slice_splice m (m_current it) (header_bytes h 0) Hc Hm)) as E.
  change (blen (header_bytes h 0)) with 20 in E. rewrite E.
  set (c := finish_checksum _). unfold mbind at 1, ItM_bind at 1. unfold mbind at 1, ItM_bind at 1.
  unfold Next. rewrite (hdr_u32 it m) by (done || lia).
  replace (m_current it + 10 <=? m_dataEnd it) with true by (unfold hdr in Hh; lia).
  rewrite (writes_U16 c (advance it 10) m1).
  - eexists. apply (f_equal (fun m' => Ok (tt, _, m'))). rewrite (advance_current it m) by (done || lia).
    exact (splice_within m (m_current it) (take 10 (header_bytes h 0)) (le16 0) (le16 c)
      (be32 (m_source h) ++ be32 (m_destination h)) Hc Hm eq_refl).
  - apply hdr_advance; [done|lia|lia].
  - rewrite (advance_current it m) by (done || lia). change (blen (le16 c)) with 2.
    change (m_zeroStart (advance it 10)) with (m_zeroStart it). lia.
Qed.

(** ** From one node to the next *)

Lemma ntoh16_be16 z : is_u16 z -> ntoh16 (be16 z) = z.
Proof.
  intros Hz. unfold ntoh16, be16. cbn [nth]. rewrite Z.lor_0_l, !byte_mod, Z.shiftr_0_r, shiftr_8. unfold is_u16 in Hz.
  rewrite u16_small; [rewrite lor_shiftl_add by dlia; dlia|].
  unfold is_u16. rewrite Z.shiftl_mul_pow2 by lia. dlia.
Qed.

Lemma le16_value c : is_u16 c -> Z.land c 0xff + 256 * Z.land (Z.shiftr c 8) 0xff = c.
Proof. intros Hc. rewrite !byte_mod, shiftr_8. unfold is_u16 in Hc. dlia. Qed.

Lemma header_word_sum h c : is_u16 c -> word_sum (header_bytes h c) = word_sum (header_bytes h 0) + c.
Proof.
  intros Hc. pose proof (le16_value c Hc) as E. unfold header_bytes, be16, le16, be32. cbn [app word_sum].
  change (Z.land (Z.shiftr 0 8) 0xff) with 0. change (Z.land 0 0xff) with 0. lia.
Qed.

(** A finished checksum is 16 bits. *)
Lemma finish_checksum_u16 sum : is_u16 (finish_checksum sum).
Proof. apply u16_range. Qed.

Lemma sent_checksum_u16 h : is_u16 (sent_checksum h).
Proof. unfold sent_checksum. destruct (m_calcChecksum h); [apply u16_range|by unfold is_u16]. Qed.

(** The header [h0] after it has read the bytes of [h]. *)
Definition arrives (h0 h : Header) : Header :=
  mkHeader (m_calcChecksum h0) (m_payloadSize h) (m_identification h) (m_tos h) (m_ttl h) (m_protocol h)
    (Z.land (m_flags h) 3) (8 * (m_fragmentOffset h / 8)) (m_source h) (m_destination h) (sent_checksum h)
    (if m_calcChecksum h0
     then m_calcChecksum h || (finish_checksum (word_sum (header_bytes h 0)) =? 0) else m_goodChecksum h0).

Lemma checksum_of_sent h : valid h -> finish_checksum (word_sum (header_bytes h (sent_checksum h))) =
  if m_calcChecksum h then 0 else finish_checksum (word_sum (header_bytes h 0)).
Proof.
  intros Hv. rewrite header_word_sum by apply sent_checksum_u16. unfold sent_checksum.
  destruct (m_calcChecksum h); [|by rewrite Z.add_0_r].
  pose proof (word_sum_range 10 (header_bytes h 0) eq_refl (header_bytes_u8 h 0 Hv)).
  apply checksum_closes; lia.
Qed.

Lemma wire_fields_sent h0 h c tos s1 s0 i1 i0 f1 f0 ttl protocol c0 c1 a3 a2 a1 a0 d3 d2 d1 d0 :
  valid h -> is_u16 c ->
  header_bytes h c = wire_bytes tos s1 s0 i1 i0 f1 f0 ttl protocol c0 c1 a3 a2 a1 a0 d3 d2 d1 d0 ->
  wire_fields h0 tos s1 s0 i1 i0 f1 f0 ttl protocol c0 c1 a3 a2 a1 a0 d3 d2 d1 d0 =
    mkHeader (m_calcChecksum h0) (m_payloadSize h) (m_identification h) (m_tos h) (m_ttl h) (m_protocol h)
      (Z.land (m_flags h) 3) (8 * (m_fragmentOffset h / 8)) (m_source h) (m_destination h) c (m_goodChecksum h0).
Proof.
  intros (Hp & Hi & Ht & Htl & Hpr & Hf & Ho & Hs & Hd) Hc.
  destruct (flags_byte_spec h (m_fragmentOffset h / 8) Hf ltac:(dlia)) as (_ & H1f & Hfl).
  pose proof (ntoh16_be16 (u16 (m_payloadSize h + 20)) (u16_range _)) as E1. pose proof (ntoh16_be16 _ Hi) as E2.
  pose proof (ntoh32_be32 _ Hs) as E3. pose proof (ntoh32_be32 _ Hd) as E4. pose proof (le16_value c Hc) as E5.
  unfold be16, be32 in *. intros [= <- <- <- <- <- <- <- <- <- <- <- <- <- <- <- <- <- <- <-].
  unfold wire_fields. rewrite E1, E2, E3, E4, E5, H1f, Hfl. f_equal.
  - unfold is_u16 in Hp. uint.
  - rewrite byte_mod. set (q := m_fragmentOffset h / 8). assert (0 <= q < 1024) as Hq by (unfold q; dlia).
    unfold u13. rewrite (Z.mod_small (Z.shiftl (q / 256) 8)) by (rewrite Z.shiftl_mul_pow2 by lia; dlia).
    rewrite lor_shiftl_add by dlia. rewrite (Z.mod_small (_ + _)) by dlia.
    rewrite Z.shiftl_mul_pow2, Z.mod_small by dlia. dlia.
Qed.

Lemma reads_sent h0 h : valid h ->
  reads (Deserialize h0) (header_bytes h (sent_checksum h)) (arrives h0 h, GetSerializedSize).
Proof.
  intros Hv. pose proof (header_bytes_u8 h (sent_checksum h) Hv) as Hb. pose proof (checksum_of_sent h Hv) as Hc.
  eapply reads_eq; [exact (reads_Deserialize h0 _ _ _ _ _ _ _ _ _ _ _ _ _ _ _ _ _ _ _ Hb)|]. f_equal.
  unfold received, arrives. rewrite (wire_fields_sent h0 h (sent_checksum h)); [|done|apply sent_checksum_u16|done].
  cbn zeta. change (wire_bytes _ _ _ _ _ _ _ _ _ _ _ _ _ _ _ _ _ _ _) with (header_bytes h (sent_checksum h)).
  rewrite Hc. destruct (m_calcChecksum h0), (m_calcChecksum h); done.
Qed.

(** (C33) An IPv4 header survives the wire.  [AddHeader] puts the 20 bytes of a
    header with fields in range in front of the packet, and [RemoveHeader] at
    the receiver takes exactly them off and gives every field back: addresses,
    TTL, protocol, type of service, identification, payload size (also where
    the total length wraps around in its 16 bits), the two flags, and the
    fragment offset rounded down to the 8-byte units it is sent in.  A header
    sent with a checksum passes the receiver's test. *)
Theorem ipv4_header_roundtrip Create h0 h p
  (HC : Allocator Create)
  (Hp : wf p) (Hv : valid h) (Hroom : m_end p + 20 < array_max) :
  exists p1 h' p2, Packet_AddHeader Create GetSerializedSize (Serialize h) p = Ok p1 /\
    contents p1 = header_bytes h (sent_checksum h) ++ contents p /\
    Packet_RemoveHeader (Deserialize h0) p1 = Ok (h', p2) /\ wf p2 /\ contents p2 = contents p /\
    m_source h' = m_source h /\ m_destination h' = m_destination h /\ m_ttl h' = m_ttl h /\
    m_protocol h' = m_protocol h /\ m_tos h' = m_tos h /\ m_identification h' = m_identification h /\
    m_payloadSize h' = m_payloadSize h /\ IsDontFragment h' = IsDontFragment h /\
    IsLastFragment h' = IsLastFragment h /\
    m_fragmentOffset h' = m_fragmentOffset h - m_fragmentOffset h mod 8 /\
    (m_calcChecksum h = true -> m_goodChecksum h0 = true -> IsChecksumOk h' = true).
Proof.
  destruct (stores_roundtrip Create (Serialize h) (Deserialize h0) (header_bytes h (sent_checksum h)) (arrives h0 h)
    GetSerializedSize p) as (p1 & p2 & H1 & H2 & H3 & H4 & H5);
    [done|done|by apply stores_Serialize|by apply reads_sent|done|done|].
  exists p1, (arrives h0 h), p2. do 4 (split; [done|]). split; [done|]. do 7 (split; [done|]).
  split_and!.
  - unfold IsDontFragment. cbn [arrives m_flags]. by rewrite <- Z.land_assoc.
  - unfold IsLastFragment. cbn [arrives m_flags]. by rewrite <- Z.land_assoc.
  - cbn [arrives m_fragmentOffset]. dlia.
  - intros Hc Hg. unfold IsChecksumOk. cbn [arrives m_goodChecksum]. rewrite Hc, Hg. by destruct (m_calcChecksum h0).
Qed.

Definition header_example : Header :=
  EnableChecksum (SetDontFragment (SetIdentification 7 (SetTtl 64 (SetPayloadSize 65530 (SetProtocol 17
    (SetDestination 0x0a000102 (SetSource 0x0a000101 Ipv4Header_new))))))).

Lemma ipv4_header_roundtrip_witness : exists p1 h' p2,
  Packet_AddHeader zero_array 20 (Serialize header_example) (empty_packet 6) = Ok p1 /\
  Packet_RemoveHeader (Deserialize (EnableChecksum Ipv4Header_new)) p1 = Ok (h', p2) /\
  m_payloadSize h' = 65530 /\ m_ttl h' = 64 /\ IsDontFragment h' = true /\ IsChecksumOk h' = true.
Proof.
  destruct (ipv4_header_roundtrip zero_array (EnableChecksum Ipv4Header_new) header_example (empty_packet 6))
    as (p1 & h' & p2 & H1 & _ & H3 & _ & _ & _ & _ & H4 & _ & _ & _ & H5 & H6 & _ & _ & H7).
  - apply zero_array_ok.
  - unfold wf; vm_compute; repeat split; discriminate.
  - by apply (bool_decide_unpack _).
  - reflexivity.
  - exists p1, h', p2. split; [exact H1|]. split; [exact H3|]. split; [exact H5|]. split; [exact H4|].
    split; [exact H6|]. by apply H7.
Defined.

(** (C34) What the checksum catches.  Let a header leave with a checksum and
    one of its 16-bit words be changed on the way (but not the first, which
    holds version and length).  The receiver notices, unless the word was all
    zeros and became all ones or the other way round: these two are the same
    number to the checksum. *)
Theorem checksum_detects h0 h p l a b a' b' r rest
  (Hv : valid h) (Hc : m_calcChecksum h = true) (Hc0 : m_calcChecksum h0 = true)
  (Hsent : header_bytes h (sent_checksum h) = l ++ [a; b] ++ r)
  (Hl : Nat.Even (length l)) (Hl0 : l <> [])
  (Ha : is_u8 a') (Hb : is_u8 b') (Hne : (a', b') <> (a, b))
  (Hones : ~ ((a = 0 /\ b = 0 /\ a' = 255 /\ b' = 255) \/ (a = 255 /\ b = 255 /\ a' = 0 /\ b' = 0)))
  (Hp : wf p) (Hcont : contents p = l ++ [a'; b'] ++ r ++ rest) (Hz : m_start p + 20 <= m_zeroAreaStart p) :
  exists h' p', Packet_RemoveHeader (Deserialize h0) p = Ok (h', p') /\ IsChecksumOk h' = false.
Proof.
  pose proof (header_bytes_u8 h (sent_checksum h) Hv) as Hu. rewrite Hsent, !Forall_app in Hu. destruct Hu as (Hul & Hab & Hur).
  inversion Hab as [|? ? Ha0 Hab']; subst. inversion Hab' as [|? ? Hb0 _]; subst.
  pose proof (checksum_of_sent h Hv) as Hzero. rewrite Hc, Hsent in Hzero.
  set (bs := l ++ [a'; b'] ++ r). assert (Forall is_u8 bs) as Hu'.
  { unfold bs. rewrite !Forall_app. split; [done|]. split; [|done]. by apply Forall_cons_2, Forall_cons_2, Forall_nil_2. }
  assert (length bs = 20%nat) as Hlen.
  { apply (f_equal length) in Hsent. unfold bs. rewrite length_app in *. cbn in *. lia. }
  assert (exists tos s1 s0 i1 i0 f1 f0 ttl protocol c0 c1 a3 a2 a1 a0 d3 d2 d1 d0,
    bs = wire_bytes tos s1 s0 i1 i0 f1 f0 ttl protocol c0 c1 a3 a2 a1 a0 d3 d2 d1 d0) as
    (tos & s1 & s0 & i1 & i0 & f1 & f0 & ttl & protocol & c0 & c1 & a3 & a2 & a1 & a0 & d3 & d2 & d1 & d0 & Hbs).
  { destruct l as [|v l']; [done|]. injection Hsent as <- _. unfold bs in *. clear -Hlen.
    cbn [app length] in Hlen |- *. revert Hlen. generalize (l' ++ a' :: b' :: r). intros bytes H.
    do 19 (destruct bytes as [|? bytes]; [done|]). destruct bytes; [|done]. by repeat eexists. }
  rewrite Hbs in Hu'. pose proof (reads_Deserialize h0 _ _ _ _ _ _ _ _ _ _ _ _ _ _ _ _ _ _ _ Hu') as Hr.
  rewrite <- Hbs in Hr, Hu'. 
  destruct (RemoveHeader_contents (Deserialize h0) bs rest _ GetSerializedSize p Hp Hr) as (p' & Hrun & _).
  { unfold bs. by rewrite <- !app_assoc. }
  { unfold blen. rewrite Hlen. exact Hz. }
  { done. }
  { unfold wf, GetSerializedSize in *. lia. }
  eexists _, p'. split; [exact Hrun|]. unfold received, IsChecksumOk. rewrite Hc0. cbn [set_goodChecksum m_goodChecksum].
  rewrite <- Hbs. apply Z.eqb_neq. intros Hz'.
  pose proof (word_sum_range 10 bs Hlen Hu') as Hws.
  apply checksum_zero in Hz' as [_ Hm']; [|unfold is_u32; lia].
  assert (word_sum bs = word_sum (l ++ [a; b] ++ r) - (a + 256 * b) + (a' + 256 * b')) as E.
  { unfold bs. rewrite (word_sum_app l ([a'; b'] ++ r)), (word_sum_app l ([a; b] ++ r)) by done. cbn [app word_sum]. lia. }
  pose proof (word_sum_range 10 (header_bytes h (sent_checksum h)) eq_refl (header_bytes_u8 h (sent_checksum h) Hv)) as Hws0. rewrite Hsent in Hws0.
  apply checksum_zero in Hzero as [_ Hm]; [|unfold is_u32; lia].
  unfold is_u8 in *. assert (a + 256 * b <> a' + 256 * b') as Hd.
  { intros Heq. apply Hne. f_equal; dlia. }
  revert Hm Hm'. rewrite E. generalize (word_sum (l ++ [a; b] ++ r)). intros W Hm Hm'.
  assert (a' + 256 * b' - (a + 256 * b) = 65535 \/ a' + 256 * b' - (a + 256 * b) = -65535) by dlia. lia.
Qed.

(** The TTL byte (the low byte of word 4) of the example changes. *)
Definition damaged : Buffer := {|
  buf := {| m_count := 1; m_size := 20; m_dirtyStart := 0; m_dirtyEnd := 20;
    m_data := take 8 (header_bytes header_example (sent_checksum header_example)) ++ [63; 17] ++
      drop 10 (header_bytes header_example (sent_checksum header_example)) |};
  m_maxZeroAreaStart := 20; m_zeroAreaStart := 20; m_zeroAreaEnd := 20; m_start := 0; m_end := 20 |}.

Lemma checksum_detects_witness : exists h' p',
  Packet_RemoveHeader (Deserialize (EnableChecksum Ipv4Header_new)) damaged = Ok (h', p') /\ IsChecksumOk h' = false.
Proof.
  apply (checksum_detects (EnableChecksum Ipv4Header_new) header_example damaged
    (take 8 (header_bytes header_example (sent_checksum header_example))) 64 17 63 17
    (drop 10 (header_bytes header_example (sent_checksum header_example))) []).
  - by apply (bool_decide_unpack _).
  - reflexivity.
  - reflexivity.
  - vm_compute. reflexivity.
  - by exists 4%nat.
  - discriminate.
  - by apply (bool_decide_unpack _).
  - by apply (bool_decide_unpack _).
  - discriminate.
  - lia.
  - unfold wf; vm_compute; repeat split; discriminate.
  - vm_compute. reflexivity.
  - vm_compute. discriminate.
Defined.

(** ** The headers of the IP layer *)

(** What Ipv4Stack keeps of a header. *)
Definition to_ip (h : Header) : IpHeader :=
  mkIpHeader (m_source h) (m_destination h) (m_protocol h) (m_payloadSize h) (m_ttl h) (m_identification h).

(** [Ipv4L3Protocol::BuildHeader] on the fields of the wire. *)
Definition BuildHeader_wire (source destination : Ipv4Address) (protocol payloadSize ttl : Z)
    (mayFragment checksumEnabled : bool) (identification : Z) : Header :=
  let ipHeader := Ipv4Header_new in
  let ipHeader := SetSource source ipHeader in
  let ipHeader := SetDestination destination ipHeader in
  let ipHeader := SetProtocol protocol ipHeader in
  let ipHeader := SetPayloadSize payloadSize ipHeader in
  let ipHeader := SetTtl ttl ipHeader in
  let ipHeader := if mayFragment then SetMayFragment ipHeader else SetDontFragment ipHeader in
  let ipHeader := SetIdentification identification ipHeader in
  if checksumEnabled then EnableChecksum ipHeader else ipHeader.

Lemma BuildHeader_to_ip {RP} (st : L3 RP) source destination protocol payloadSize ttl mayFragment checksumEnabled :
  is_u8 protocol -> is_u8 ttl -> is_u16 (Ipv4Stack.m_identification st) ->
  (BuildHeader source destination protocol payloadSize ttl st).1 =
  to_ip (BuildHeader_wire source destination protocol payloadSize ttl mayFragment checksumEnabled (Ipv4Stack.m_identification st)).
Proof.
  intros Hp Ht Hi. unfold BuildHeader, to_ip, BuildHeader_wire. cbn.
  destruct mayFragment, checksumEnabled; cbn; by rewrite (u8_small _ Hp), (u8_small _ Ht), (u16_small _ Hi).
Qed.

(** The wire brings the IP layer the header it sent. *)
Lemma to_ip_arrives h0 h : to_ip (arrives h0 h) = to_ip h.
Proof. done. Qed.

(** [SetFragmentOffset] accepts an offset its field cannot hold. *)
Lemma fragment_offset_lost : exists h, SetFragmentOffset 8192 Ipv4Header_new = Ok h /\ GetFragmentOffset h = Ok 0.
Proof. eexists. split; reflexivity. Qed.
End Wire.
