(* ===== verification/StackSpec.v ===== *)
(** * StackSpec: the IP layer keeps its promises

    The routes of ipv4-static-routing.cc follow the interfaces and addresses of
    ipv4-l3-protocol.cc by the rules of [table_step]; the time to live bounds forwarding; and
    Ipv4Interface::RemoveAddress removes the first address whatever its index. *)

From S2P Require Import Prelude StdMap StdString Ipv4Address Node StaticRouting StaticSpec Ipv4Stack.

(** ** The view of the stack *)

Section view.
Context {S : Type} `{!Ipv4RoutingProtocol S} (env : NodeEnv).
Implicit Types st : L3 S.

(** The interfaces as [stack_has] describes them. *)
Definition ifs_of st : list (bool * list Ipv4InterfaceAddress) :=
  map (fun i => (m_ifup i, m_ifaddrs i)) (m_interfaces st).

(** All counts fit 32 bits. *)
Definition sized st : Prop :=
  Z.of_nat (length (m_interfaces st)) < 2 ^ 32 /\
  forall i, i ∈ m_interfaces st -> Z.of_nat (length (m_ifaddrs i)) < 2 ^ 32.

Lemma ifs_lookup st k up addrs :
  ifs_of st !! k = Some (up, addrs) ->
  exists i, m_interfaces st !! k = Some i /\ m_ifup i = up /\ m_ifaddrs i = addrs.
Proof.
  unfold ifs_of. rewrite list_lookup_fmap. destruct (m_interfaces st !! k) as [i|] eqn:E; [|done].
  intros [= <- <-]. by exists i.
Qed.

Lemma view_has st : sized st -> stack_has (view env st) (ifs_of st).
Proof.
  intros [Hn Ha]. split.
  - cbn. unfold GetNInterfaces, ifs_of. rewrite length_map, u32_small; [done|]. unfold is_u32. lia.
  - intros k up addrs (i & Hi & <- & _)%ifs_lookup. cbn. unfold IsUp, interface_at, GetInterface.
    by rewrite Nat2Z.id, Hi.
  - intros k up addrs (i & Hi & _ & <-)%ifs_lookup. cbn. unfold GetNAddresses, interface_at, GetInterface, Interface.GetNAddresses.
    rewrite Nat2Z.id, Hi. cbn. rewrite u32_small; [done|]. unfold is_u32.
    specialize (Ha i (list_elem_of_lookup_2 _ _ _ Hi)). lia.
  - intros k up addrs j a (i & Hi & _ & <-)%ifs_lookup Hj. cbn.
    unfold GetAddress, interface_at, GetInterface, Interface.GetAddress. rewrite !Nat2Z.id, Hi. cbn. by rewrite Hj.
Qed.
Lemma sized_insert st k f :
  sized st -> (forall i, m_ifaddrs (f i) = m_ifaddrs i) -> forall i, m_interfaces st !! k = Some i ->
  sized (set_interfaces (<[k := f i]> (m_interfaces st)) st).
Proof.
  intros [Hn Ha] Hf i Hi. split; cbn.
  - by rewrite length_insert.
  - intros i' Hi'. apply list_elem_of_lookup in Hi' as [j Hj]. destruct (decide (j = k)) as [->|Hne].
    + rewrite list_lookup_insert_eq in Hj by by eapply lookup_lt_Some. injection Hj as <-. rewrite Hf.
      by apply Ha, list_elem_of_lookup_2 with k.
    + rewrite list_lookup_insert_ne in Hj by done. by apply Ha, list_elem_of_lookup_2 with j.
Qed.
End view.

(** ** Connected networks *)

Lemma elem_of_interface_routes i addrs r :
  r ∈ interface_routes i addrs <-> exists a, a ∈ addrs /\ networked a = true /\ r = connected_route i a.
Proof.
  unfold interface_routes. rewrite list_elem_of_In, in_map_iff. split.
  - intros (a & <- & [Hn Ha]%list_elem_of_In%list_elem_of_filter). by exists a.
  - intros (a & Ha & Hn & ->). exists a. split; [done|]. by apply list_elem_of_In, list_elem_of_filter.
Qed.

(** One interface replaced: its routes, and those of the others. *)
Lemma elem_of_connected_insert ifs k up addrs r :
  (k < length ifs)%nat ->
  r ∈ connected_routes (<[k := (up, addrs)]> ifs) <->
    (up = true /\ r ∈ interface_routes (Z.of_nat k) addrs) \/
    (StaticRouting.GetInterface r.1 <> Z.of_nat k /\ r ∈ connected_routes ifs).
Proof.
  intros Hk. rewrite elem_of_interface_routes, !elem_of_connected. split.
  - intros (i & addrs' & a & Hi & Ha & Hn & ->). destruct (decide (i = k)) as [->|Hne].
    + rewrite list_lookup_insert_eq in Hi by done. injection Hi as -> <-. left. split; [done|]. by exists a.
    + rewrite list_lookup_insert_ne in Hi by done. right. split; [cbn; lia|]. by exists i, addrs', a.
  - intros [[-> (a & Ha & Hn & ->)]|[Hne (i & addrs' & a & Hi & Ha & Hn & ->)]].
    + exists k, addrs, a. by rewrite list_lookup_insert_eq.
    + exists i, addrs', a. rewrite list_lookup_insert_ne by (cbn in Hne; lia). done.
Qed.

(** The routes through an interface are those of its addresses. *)
Lemma connected_through ifs k up addrs r :
  ifs !! k = Some (up, addrs) -> r ∈ connected_routes ifs -> StaticRouting.GetInterface r.1 = Z.of_nat k ->
  up = true /\ r ∈ interface_routes (Z.of_nat k) addrs.
Proof.
  intros Hk (i & addrs' & a & Hi & Ha & Hn & ->)%elem_of_connected Hr. cbn in Hr.
  assert (i = k) as -> by lia. rewrite Hk in Hi. injection Hi as -> ->. split; [done|].
  apply elem_of_interface_routes. by exists a.
Qed.

(** Removing an address of an interface. *)
Lemma RemoveAddress_loop_spec rounds tmp index a l :
  0 <= tmp <= index -> is_u32 index -> index - tmp < Z.of_nat rounds ->
  Interface.RemoveAddress_loop rounds tmp index (a :: l) = Ok (a, l).
Proof.
  revert tmp; induction rounds as [|rounds IH]; intros tmp Ht Hi Hr; [lia|]. cbn [Interface.RemoveAddress_loop].
  destruct (Z.eqb_spec tmp index) as [|Hne]; [done|]. unfold is_u32 in *.
  rewrite u32_small by (unfold is_u32; lia). apply IH; [lia|done|lia].
Qed.

Lemma Interface_RemoveAddress_spec i index a l :
  m_ifaddrs i = a :: l -> 0 <= index < Z.of_nat (length (a :: l)) -> is_u32 index ->
  Interface.RemoveAddress index i = Ok (a, mkInterface (m_device i) l (m_ifup i) (m_forwarding i) (m_metric i)).
Proof.
  intros Hl Hi Hu. unfold Interface.RemoveAddress. rewrite Hl.
  rewrite (proj2 (Z.leb_gt _ _)) by lia. cbn [negb assert mbind result_bind].
  rewrite RemoveAddress_loop_spec by lia || done. done.
Qed.

Section sync.
Context (env : NodeEnv).
Implicit Types st : L3 StaticState.

(** The changes of a stack in operation. *)
Inductive stack_op :=
| OpAddInterface (device : NetDevice)
| OpAddAddress (i : Z) (a : Ipv4InterfaceAddress)
| OpRemoveAddress (i index : Z)
| OpSetUp (i : Z)
| OpSetDown (i : Z)
| OpSetForwarding (i : Z) (val : bool)
| OpSetIpForward (forward : bool)
| OpSetMetric (i metric : Z).

Definition run_op (o : stack_op) st : result (L3 StaticState) :=
  match o with
  | OpAddInterface d => Ok (AddInterface env d st).2
  | OpAddAddress i a => AddAddress env i a st
  | OpRemoveAddress i index => '(_, st) ← RemoveAddress env i index st; Ok st
  | OpSetUp i => SetUp env i st
  | OpSetDown i => SetDown env i st
  | OpSetForwarding i val => SetForwarding env i val st
  | OpSetIpForward b => Ok (SetIpForward env b st)
  | OpSetMetric i m => SetMetric env i m st
  end.

Definition on_interface st (i : Z) : Prop := 0 <= i < Z.of_nat (length (m_interfaces st)).

(** The interface of the operation exists, and so does an address to remove. *)
Definition op_valid (o : stack_op) st : Prop :=
  match o with
  | OpAddInterface _ | OpSetIpForward _ => True
  | OpRemoveAddress i index => on_interface st i /\ 0 <= index /\
      forall iface, m_interfaces st !! Z.to_nat i = Some iface -> index < Z.of_nat (length (m_ifaddrs iface))
  | OpAddAddress i _ | OpSetUp i | OpSetDown i | OpSetForwarding i _ | OpSetMetric i _ => on_interface st i
  end.

(** ** What the operations do to the routes

    Interfaces, each up or not with its addresses, and the routes. *)
Definition table : Type := list (bool * list Ipv4InterfaceAddress) * list (Ipv4RoutingTableEntry * Z).
Definition interface_of (t : table) (k : Z) : bool * list Ipv4InterfaceAddress := default (false, []) (t.1 !! Z.to_nat k).
Definition put (k : Z) (x : bool * list Ipv4InterfaceAddress) (t : table) : list (bool * list Ipv4InterfaceAddress) :=
  <[Z.to_nat k := x]> t.1.

(** An address of an interface that is up gets a route when it is added, a host
    mask or not. *)
Definition numbered (a : Ipv4InterfaceAddress) : bool :=
  negb (m_local a =? Ipv4Address_default) && negb (m_mask a =? Ipv4Mask_default).

Definition table_step (o : stack_op) (t : table) : table :=
  match o with
  | OpAddInterface _ => (t.1 ++ [(false, [])], t.2)
  | OpAddAddress k a => let '(up, addrs) := interface_of t k in
      (put k (up, addrs ++ [a]) t, if up && numbered a then t.2 ++ [connected_route k a] else t.2)
  | OpRemoveAddress k _ =>
      match interface_of t k with
      | (up, a :: addrs) => (put k (up, addrs) t,
          if up && negb (InterfaceAddress_eqb a InterfaceAddress_default) then remove_skipping (references k a) t.2 else t.2)
      | (_, []) => t
      end
  | OpSetUp k => let addrs := (interface_of t k).2 in (put k (true, addrs) t, t.2 ++ interface_routes k addrs)
  | OpSetDown k => (put k (false, (interface_of t k).2) t, filter (fun r => StaticRouting.GetInterface r.1 <> k) t.2)
  | OpSetForwarding _ _ | OpSetIpForward _ | OpSetMetric _ _ => t
  end.

(** The protocol has the present stack and the routes of [t]. *)
Definition tracked st (t : table) : Prop :=
  exists rp, m_routingProtocol st = Some rp /\ m_ipv4 rp = Some (view env st) /\
    (ifs_of st, m_networkRoutes rp) = t.

(** Counts that fit 32 bits, the number of routes included. *)
Definition counted st : Prop :=
  sized st /\ forall rp, m_routingProtocol st = Some rp -> Z.of_nat (length (m_networkRoutes rp)) < 2 ^ 32.

(** [change_interface] on an interface that exists. *)
Lemma change_interface_spec st k f : on_interface st k -> exists i,
  m_interfaces st !! Z.to_nat k = Some i /\
  change_interface k f st = Ok (set_interfaces (<[Z.to_nat k := f i]> (m_interfaces st)) st).
Proof.
  intros Hk. destruct (lookup_lt_is_Some_2 (m_interfaces st) (Z.to_nat k)) as [i Hi]; [unfold on_interface in Hk; lia|].
  exists i. split; [done|]. unfold change_interface, interface_at, GetInterface. by rewrite Hi.
Qed.

Lemma ifs_insert st k i : ifs_of (set_interfaces (<[k := i]> (m_interfaces st)) st) =
  <[k := (m_ifup i, m_ifaddrs i)]> (ifs_of st).
Proof. unfold ifs_of. cbn. by rewrite list_fmap_insert. Qed.

(** A change that the routing protocol is not told of. *)
Lemma tracked_refresh st st' t : m_routingProtocol st' = m_routingProtocol st -> tracked st t ->
  tracked (refresh env st') (ifs_of st', t.2).
Proof.
  intros Hr (rp & Hrp & Hip & <-). exists (StaticRouting.set_ipv4 (Some (view env st')) rp).
  unfold refresh. cbn. rewrite Hr, Hrp. cbn. by rewrite Hip.
Qed.

(** A change the protocol is notified of. *)
Lemma tracked_notify st st' t f routes : m_routingProtocol st' = m_routingProtocol st -> tracked st t ->
  (forall rp, m_routingProtocol st = Some rp -> m_networkRoutes rp = t.2 ->
     f (StaticRouting.set_ipv4 (Some (view env st')) rp) =
       Ok (set_networkRoutes routes (StaticRouting.set_ipv4 (Some (view env st')) rp))) ->
  exists st'', notify env f st' = Ok st'' /\ tracked st'' (ifs_of st', routes).
Proof.
  intros Hr (rp & Hrp & Hip & <-) Hf. pose proof (Hf rp Hrp eq_refl) as Heq.
  unfold notify, refresh. cbn. rewrite Hr, Hrp. cbn. rewrite Hip, Heq. cbn [mbind result_bind].
  eexists; split; [done|]. by eexists.
Qed.

Lemma ifs_at st k i : m_interfaces st !! k = Some i -> ifs_of st !! k = Some (m_ifup i, m_ifaddrs i).
Proof. intros Hi. unfold ifs_of. by rewrite list_lookup_fmap, Hi. Qed.

Lemma ifs_length st : length (ifs_of st) = length (m_interfaces st).
Proof. apply length_map. Qed.

(** Setting one attribute that static routing does not look at. *)
Lemma ifs_same st k i f : m_interfaces st !! k = Some i ->
  m_ifup (f i) = m_ifup i -> m_ifaddrs (f i) = m_ifaddrs i ->
  ifs_of (set_interfaces (<[k := f i]> (m_interfaces st)) st) = ifs_of st.
Proof.
  intros Hi Hu Ha. rewrite ifs_insert, Hu, Ha. apply list_insert_id. by apply ifs_at.
Qed.

Lemma interface_at_ifs st k i rs : m_interfaces st !! Z.to_nat k = Some i -> interface_of (ifs_of st, rs) k = (m_ifup i, m_ifaddrs i).
Proof. intros Hi. unfold interface_of. cbn [fst]. by rewrite (ifs_at _ _ _ Hi). Qed.

Lemma step_quiet st t k f :
  on_interface st k -> (forall i, m_ifup (f i) = m_ifup i /\ m_ifaddrs (f i) = m_ifaddrs i) -> tracked st t ->
  exists st', (st1 ← change_interface k f st; Ok (refresh env st1)) = Ok st' /\ tracked st' t.
Proof.
  intros Hk Hf Ht. destruct (change_interface_spec st k f Hk) as (i & Hi & ->). cbn [mbind result_bind].
  eexists; split; [done|]. pose proof Ht as (rp & _ & _ & <-).
  rewrite <- (ifs_same st _ i f Hi) by apply Hf. by eapply (tracked_refresh st _ (_, _)).
Qed.

Lemma step_add_interface st t d : tracked st t -> tracked (AddInterface env d st).2 (table_step (OpAddInterface d) t).
Proof.
  intros Ht. unfold AddInterface, AddIpv4Interface. cbn [snd table_step]. set (st1 := set_interfaces _ st).
  assert (ifs_of st1 = ifs_of st ++ [(false, [])]) as Hifs by (unfold ifs_of; cbn; by rewrite map_app).
  pose proof Ht as (rp & _ & _ & <-). cbn [fst snd]. rewrite <- Hifs. by eapply (tracked_refresh st _ (_, _)).
Qed.

Lemma step_ip_forward st t b : tracked st t -> tracked (SetIpForward env b st) t.
Proof.
  intros Ht. unfold SetIpForward. set (st1 := set_interfaces _ _).
  assert (ifs_of st1 = ifs_of st) as Hifs by (unfold ifs_of; cbn; by rewrite map_map).
  pose proof Ht as (rp & _ & _ & <-). rewrite <- Hifs at 1. by eapply (tracked_refresh st _ (_, _)).
Qed.

Lemma step_up st t k : on_interface st k -> counted st -> tracked st t ->
  exists st', SetUp env k st = Ok st' /\ tracked st' (table_step (OpSetUp k) t).
Proof.
  intros Hk [Hz _] Ht. unfold SetUp. destruct (change_interface_spec st k Interface.SetUp Hk) as (i & Hi & ->).
  cbn [mbind result_bind]. set (st1 := set_interfaces _ st). pose proof Ht as (rp0 & _ & _ & E). rewrite <- E.
  cbn [table_step fst snd]. rewrite (interface_at_ifs st k i) by done. cbn [snd].
  assert (Hifs : ifs_of st1 = <[Z.to_nat k := (true, m_ifaddrs i)]> (ifs_of st)) by exact (ifs_insert st _ (Interface.SetUp i)).
  unfold put. cbn [fst]. rewrite <- Hifs. assert (Hlt := lookup_lt_Some _ _ _ Hi).
  assert (Hz1 : sized st1) by by apply (sized_insert st _ Interface.SetUp).
  assert (Hk1 : ifs_of st1 !! Z.to_nat k = Some (true, m_ifaddrs i)).
  { rewrite Hifs. apply list_lookup_insert_eq. by rewrite ifs_length. }
  eapply (tracked_notify st _ t); [done|exact Ht|]. rewrite <- E. intros rp _ Hroutes. cbn [snd] in Hroutes. unfold on_interface in Hk.
  cbn [NotifyInterfaceUp_ static_routing]. rewrite <- (Z2Nat.id k) at 1 2 by lia.
  rewrite (NotifyInterfaceUp_spec (view env st1) (ifs_of st1) (Z.to_nat k) true (m_ifaddrs i)) by (done || by apply view_has).
  cbn. by rewrite Hroutes.
Qed.

Lemma step_down st t k : on_interface st k -> counted st -> tracked st t ->
  exists st', SetDown env k st = Ok st' /\ tracked st' (table_step (OpSetDown k) t).
Proof.
  intros Hk [Hz Hc] Ht. unfold SetDown. destruct (change_interface_spec st k Interface.SetDown Hk) as (i & Hi & ->).
  cbn [mbind result_bind]. pose proof Ht as (rp0 & _ & _ & E). rewrite <- E.
  cbn [table_step fst snd]. rewrite (interface_at_ifs st k i) by done. unfold put. cbn [fst snd].
  change (false, m_ifaddrs i) with (m_ifup (Interface.SetDown i), m_ifaddrs (Interface.SetDown i)). rewrite <- ifs_insert.
  eapply (tracked_notify st _ t); [done|exact Ht|]. rewrite <- E. intros rp Hrp Hroutes. cbn [snd] in Hroutes.
  cbn [NotifyInterfaceDown_ static_routing]. rewrite NotifyInterfaceDown_spec by exact (Hc rp Hrp). cbn. by rewrite Hroutes.
Qed.

Lemma step_add_address st t k a : on_interface st k -> tracked st t ->
  exists st', AddAddress env k a st = Ok st' /\ tracked st' (table_step (OpAddAddress k a) t).
Proof.
  intros Hk Ht. unfold AddAddress.
  destruct (change_interface_spec st k (Interface.AddAddress a) Hk) as (i & Hi & ->).
  cbn [mbind result_bind]. set (st1 := set_interfaces _ st). assert (Hlt := lookup_lt_Some _ _ _ Hi).
  pose proof Ht as (rp0 & _ & _ & E). rewrite <- E. cbn [table_step]. rewrite (interface_at_ifs st k i) by done.
  unfold put. cbn [fst snd]. assert (<[Z.to_nat k := (m_ifup i, m_ifaddrs i ++ [a])]> (ifs_of st) = ifs_of st1) as ->
    by (symmetry; exact (ifs_insert st _ (Interface.AddAddress a i))).
  assert (IsUp st1 k = Ok (m_ifup i)) as Hup.
  { unfold IsUp, interface_at, GetInterface, st1. cbn. by rewrite list_lookup_insert_eq. }
  eapply (tracked_notify st _ t); [done|exact Ht|]. rewrite <- E. intros rp _ Hroutes. cbn [snd] in Hroutes. rewrite <- Hroutes.
  cbn [NotifyAddAddress_ static_routing]. unfold NotifyAddAddress, stack. cbn [StaticRouting.set_ipv4 m_ipv4 or_fault mbind result_bind].
  change (Node.IsUp (view env st1) k) with (IsUp st1 k). rewrite Hup. cbn [mbind result_bind].
  unfold numbered. by destruct (m_ifup i), (m_local a =? Ipv4Address_default), (m_mask a =? Ipv4Mask_default).
Qed.

Lemma step_remove_address st t k index : op_valid (OpRemoveAddress k index) st -> counted st -> tracked st t ->
  exists st', run_op (OpRemoveAddress k index) st = Ok st' /\ tracked st' (table_step (OpRemoveAddress k index) t).
Proof.
  intros (Hk & H0 & Hindex) [[_ Hz] Hc] Ht. destruct (lookup_lt_is_Some_2 (m_interfaces st) (Z.to_nat k)) as [i Hi]; [unfold on_interface in Hk; lia|].
  specialize (Hindex i Hi). specialize (Hz i (list_elem_of_lookup_2 _ _ _ Hi)).
  destruct (m_ifaddrs i) as [|a l] eqn:Hl; [cbn in Hindex; lia|].
  cbn [run_op]. unfold RemoveAddress, interface_at, GetInterface. rewrite Hi. cbn [or_fault mbind result_bind].
  rewrite (Interface_RemoveAddress_spec i index a l) by (done || (unfold is_u32; lia)). cbn [mbind result_bind].
  set (st1 := set_interfaces _ st). assert (Hlt := lookup_lt_Some _ _ _ Hi).
  pose proof Ht as (rp0 & _ & _ & E). rewrite <- E. cbn [table_step]. rewrite (interface_at_ifs st k i), Hl by done.
  unfold put. cbn [fst snd]. assert (<[Z.to_nat k := (m_ifup i, l)]> (ifs_of st) = ifs_of st1) as ->
    by (symmetry; exact (ifs_insert st _ (mkInterface (m_device i) l (m_ifup i) (m_forwarding i) (m_metric i)))).
  assert (IsUp st1 k = Ok (m_ifup i)) as Hup.
  { unfold IsUp, interface_at, GetInterface, st1. cbn. by rewrite list_lookup_insert_eq. }
  destruct (InterfaceAddress_eqb a InterfaceAddress_default); cbn [negb].
  { rewrite andb_false_r. eexists. split; [done|]. rewrite <- E in Ht. by eapply (tracked_refresh st _ (_, _)). }
  rewrite andb_true_r. edestruct (tracked_notify st st1 t (NotifyRemoveAddress_ k a)) as (st2 & -> & H2); [done|exact Ht| |].
  2: { eexists. split; [reflexivity|exact H2]. }
  rewrite <- E. intros rp Hrp Hroutes. cbn [snd] in Hroutes. cbn [NotifyRemoveAddress_ static_routing].
  set (st' := StaticRouting.set_ipv4 _ rp). assert (countable st') as Hcount by exact (Hc rp Hrp).
  destruct (m_ifup i) eqn:Hu.
  - rewrite (NotifyRemoveAddress_spec k a st' (view env st1)) by done. cbn. by rewrite Hroutes.
  - unfold NotifyRemoveAddress, stack. cbn [st' StaticRouting.set_ipv4 m_ipv4 or_fault mbind result_bind].
    change (Node.IsUp (view env st1) k) with (IsUp st1 k). rewrite Hup, <- Hroutes. cbn [mbind result_bind negb]. exact (eq_sym (f_equal Ok (set_same st'))). 
Qed.

Lemma op_tracked st o t : counted st -> op_valid o st -> tracked st t ->
  exists st', run_op o st = Ok st' /\ tracked st' (table_step o t).
Proof.
  intros Hc Hv Ht. destruct o; cbn [run_op op_valid] in *.
  - eexists; split; [done|]. by apply step_add_interface.
  - by apply step_add_address.
  - by apply step_remove_address.
  - by apply step_up.
  - by apply step_down.
  - by apply step_quiet.
  - eexists; split; [done|]. by apply step_ip_forward.
  - by apply step_quiet.
Qed.

(** ** What is known of the routes *)

Definition in_range (o : stack_op) (t : table) : Prop :=
  match o with
  | OpAddInterface _ | OpSetIpForward _ => True
  | OpAddAddress k _ | OpRemoveAddress k _ | OpSetUp k | OpSetDown k | OpSetForwarding k _ | OpSetMetric k _ =>
      0 <= k < Z.of_nat (length t.1)
  end.

Lemma op_in_range st o t : op_valid o st -> tracked st t -> in_range o t.
Proof.
  intros Hv (rp & _ & _ & <-). unfold in_range. cbn [fst]. rewrite ifs_length.
  destruct o; cbn [op_valid] in Hv; unfold on_interface in Hv; tauto.
Qed.

(** Every route goes out of an interface that is up. *)
Definition out_of_up (ifs : list (bool * list Ipv4InterfaceAddress)) (r : Ipv4RoutingTableEntry * Z) : Prop :=
  0 <= StaticRouting.GetInterface r.1 /\ exists addrs, ifs !! Z.to_nat (StaticRouting.GetInterface r.1) = Some (true, addrs).
Definition routes_up (t : table) : Prop := forall r, r ∈ t.2 -> out_of_up t.1 r.

Lemma interface_at_table t k up addrs : 0 <= k < Z.of_nat (length t.1) -> interface_of t k = (up, addrs) ->
  t.1 !! Z.to_nat k = Some (up, addrs).
Proof.
  intros Hk. unfold interface_of. destruct (lookup_lt_is_Some_2 t.1 (Z.to_nat k)) as [x Hx]; [lia|]. rewrite Hx. cbn. by intros ->.
Qed.

Lemma put_up t k up addrs up' addrs' r : 0 <= k < Z.of_nat (length t.1) -> interface_of t k = (up, addrs) ->
  (StaticRouting.GetInterface r.1 = k -> up = true -> up' = true) -> out_of_up t.1 r -> out_of_up (put k (up', addrs') t) r.
Proof.
  intros Hk Ht Hup [H0 [l Hl]]. pose proof (interface_at_table _ _ _ _ Hk Ht) as E. split; [done|]. unfold put.
  destruct (decide (Z.to_nat k = Z.to_nat (StaticRouting.GetInterface r.1))) as [Ek|Hne].
  - rewrite Ek in E |- *. rewrite Hl in E. injection E as <- <-. exists addrs'.
    rewrite list_lookup_insert_eq by by eapply lookup_lt_Some. by rewrite Hup by (done || lia).
  - exists l. by rewrite list_lookup_insert_ne.
Qed.

Lemma route_up t k addrs a : 0 <= k < Z.of_nat (length t.1) -> out_of_up (put k (true, addrs) t) (connected_route k a).
Proof.
  intros Hk. split; [cbn; lia|]. exists addrs. unfold put. cbn [connected_route fst StaticRouting.GetInterface].
  apply list_lookup_insert_eq. lia.
Qed.

Lemma elem_of_remove_skipping p l r : r ∈ remove_skipping p l -> r ∈ l.
Proof.
  remember (length l) as n eqn:Hn. assert (length l <= n)%nat as Hle by lia. clear Hn. revert l Hle.
  induction n as [|n IH]; intros [|x l] Hle; cbn [remove_skipping length] in *; [done|lia|done|].
  destruct (p x.1).
  - destruct l as [|y l]; [by intros ?%elem_of_nil|]. cbn [length] in Hle.
    intros [->|Hr]%elem_of_cons; [right; left|]. do 2 right. apply IH; [lia|done].
  - intros [->|Hr]%elem_of_cons; [left|]. right. apply IH; [lia|done].
Qed.

Lemma table_up o t : in_range o t -> routes_up t -> routes_up (table_step o t).
Proof.
  intros Hk Ht r. destruct o as [d|k a|k index|k|k|k v|b|k m]; cbn [table_step in_range fst snd] in *; try by apply Ht.
  - intros Hr. destruct (Ht r Hr) as [H0 [l Hl]]. split; [done|]. exists l. by apply lookup_app_l_Some.
  - destruct (interface_of t k) as [up addrs] eqn:E. cbn [fst snd]. intros Hr.
    assert (r ∈ t.2 \/ (up = true /\ r = connected_route k a)) as [H|[-> ->]]; [|by eapply put_up; [done|done|done|apply Ht]|by apply route_up].
    destruct (up && numbered a) eqn:Hup; [|by left]. apply andb_true_iff in Hup as [-> _].
    apply elem_of_app in Hr as [?| ->%list_elem_of_singleton]; [by left|by right].
  - destruct (interface_of t k) as [up [|a addrs]] eqn:E; [by apply Ht|]. cbn [fst snd]. intros Hr.
    eapply put_up; [done|done|done|]. apply Ht. destruct (_ && _); [by eapply elem_of_remove_skipping|done].
  - destruct (interface_of t k) as [up addrs] eqn:E. cbn [snd].
    intros [Hr|(a & _ & _ & ->)%elem_of_interface_routes]%elem_of_app; [|by apply route_up].
    eapply put_up; [done|done|done|by apply Ht].
  - destruct (interface_of t k) as [up addrs] eqn:E. cbn [snd]. intros [Hne Hr]%list_elem_of_filter.
    eapply put_up; [done|done|done|by apply Ht].
Qed.

(** The routes are exactly the connected networks. *)
Definition connected (t : table) : Prop := forall r, r ∈ t.2 <-> r ∈ connected_routes t.1.

(** No address is removed, and none that is added is that of a single host. *)
Definition plain (o : stack_op) : Prop :=
  match o with OpRemoveAddress _ _ => False | OpAddAddress _ a => m_mask a <> Mask_GetOnes | _ => True end.

(** The routes of one interface, and the others. *)
Lemma connected_at t k up addrs r : 0 <= k < Z.of_nat (length t.1) -> interface_of t k = (up, addrs) ->
  r ∈ connected_routes t.1 <-> (up = true /\ r ∈ interface_routes k addrs) \/
    (StaticRouting.GetInterface r.1 <> k /\ r ∈ connected_routes t.1).
Proof.
  intros Hk E%interface_at_table; [|done]. rewrite <- (list_insert_id t.1 (Z.to_nat k) (up, addrs)) at 1 by done.
  rewrite elem_of_connected_insert, Z2Nat.id by lia. done.
Qed.

Lemma table_connected o t : in_range o t -> plain o -> connected t -> connected (table_step o t).
Proof.
  intros Hk Ho Ht r. pose proof (Ht r) as Hr. destruct o as [d|k a|k index|k|k|k v|b|k m]; cbn [table_step in_range plain fst snd] in *; try by apply Ht.
  - by rewrite connected_routes_snoc, app_nil_r.
  - destruct (interface_of t k) as [up addrs] eqn:E. cbn [fst snd]. unfold put. rewrite elem_of_connected_insert, Z2Nat.id by lia.
    pose proof (connected_at t k up addrs r Hk E) as Hc. rewrite interface_routes_snoc, elem_of_app.
    assert (networked a = numbered a) as -> by (unfold networked, numbered; by rewrite (proj2 (Z.eqb_neq _ _) Ho), andb_true_r).
    destruct up, (numbered a); cbn [andb]; rewrite ?elem_of_app, ?elem_of_nil;
      assert (true = true) by done; assert (false <> true) by done; tauto.
  - done.
  - destruct (interface_of t k) as [up addrs] eqn:E. cbn [snd]. unfold put. rewrite elem_of_connected_insert, Z2Nat.id by lia.
    pose proof (connected_at t k up addrs r Hk E) as Hc. rewrite elem_of_app. assert (true = true) by done. tauto.
  - destruct (interface_of t k) as [up addrs] eqn:E. cbn [snd]. unfold put. rewrite elem_of_connected_insert, Z2Nat.id by lia.
    rewrite list_elem_of_filter. assert (false <> true) by done. tauto.
Qed.

(** Operations one after the other, on stacks whose counts fit 32 bits. *)
Inductive stack_run st : list stack_op -> L3 StaticState -> Prop :=
| run_none : stack_run st [] st
| run_more os st' o st'' : stack_run st os st' -> counted st' -> op_valid o st' -> run_op o st' = Ok st'' ->
    stack_run st (os ++ [o]) st''.

Lemma run_tracked st os st' t : stack_run st os st' -> tracked st t ->
  let t' := foldl (fun t o => table_step o t) t os in
  tracked st' t' /\ (routes_up t -> routes_up t') /\ (Forall plain os -> connected t -> connected t').
Proof.
  intros Hrun Ht. cbn zeta. induction Hrun as [|os st' o st'' Hrun (IH1 & IH2 & IH3) Hc Hv Hop]; [done|].
  rewrite foldl_app. cbn [foldl]. pose proof (op_in_range _ _ _ Hv IH1) as Hk.
  destruct (op_tracked st' o _ Hc Hv IH1) as (st2 & H2 & Ht2). rewrite H2 in Hop. injection Hop as <-. split_and!; [done| |].
  - intros Hup. apply table_up; [done|by apply IH2].
  - intros [Hos Ho]%Forall_app Hcon. apply table_connected; [exact Hk|by inversion Ho|by apply IH3].
Qed.

Lemma connected_up ifs : routes_up (ifs, connected_routes ifs).
Proof.
  intros r (i & addrs & a & Hi & _ & _ & ->)%elem_of_connected. split; [cbn; lia|]. exists addrs.
  cbn [connected_route fst StaticRouting.GetInterface]. by rewrite Nat2Z.id.
Qed.

(** (C19) The routes follow the interfaces.  Install static routing in a stack;
    then, whatever interfaces and addresses are added, whatever addresses are
    removed and however often interfaces are set up and down: no operation on
    an existing interface and address faults; the routes are, in their order,
    those of [table_step], which adds the networks of an interface that comes
    up and of an address an interface that is up gets, drops all routes over an
    interface that goes down, and on the removal of an address (always the
    first of the interface) drops the routes to its network but passes over the
    route behind each; every route goes out of an interface that is up; and if
    no address is removed and none is added that has a host mask, the routes
    are exactly the connected networks of the interfaces that are up.  (A
    removed address can leave a route, and take one that another address still
    needs; that of a host mask stays until the interface goes down.) *)
Theorem static_routes_follow_interfaces st0 st1 os st
  (Hstart : sized st0) (Hlen : Z.of_nat (length (connected_routes (ifs_of st0))) < 2 ^ 32)
  (Hset : SetRoutingProtocol env MakeIpv4StaticRouting st0 = Ok st1) (Hrun : stack_run st1 os st) :
  (exists rp, m_routingProtocol st = Some rp /\
     (ifs_of st, m_networkRoutes rp) = foldl (fun t o => table_step o t) (ifs_of st0, connected_routes (ifs_of st0)) os /\
     (forall r, r ∈ m_networkRoutes rp -> out_of_up (ifs_of st) r) /\
     (Forall plain os -> forall r, r ∈ m_networkRoutes rp <-> r ∈ connected_routes (ifs_of st))) /\
  (forall o, counted st -> op_valid o st -> exists st', run_op o st = Ok st').
Proof.
  assert (tracked st1 (ifs_of st0, connected_routes (ifs_of st0))) as Ht.
  { unfold SetRoutingProtocol in Hset. cbn [SetIpv4_ static_routing] in Hset.
    rewrite (SetIpv4_spec (view env st0) (ifs_of st0)) in Hset by (done || by apply view_has).
    injection Hset as <-. by eexists. }
  destruct (run_tracked st1 os st _ Hrun Ht) as (Ht' & Hup & Hcon). split.
  - pose proof Ht' as (rp & Hrp & _ & E). exists rp. rewrite <- E in Hup, Hcon. split_and!; [done|done| |].
    + intros r Hr. by apply (Hup (connected_up _)).
    + intros Hos r. by apply (Hcon Hos).
  - intros o Hc Hv. destruct (op_tracked st o _ Hc Hv Ht') as (st' & Hst' & _). by exists st'.
Qed.
End sync.

(** ** Removing an address *)

(** [RemoveAddress] always removes the first address of the interface: the
    loop of [Ipv4Interface::RemoveAddress] counts up to the index without
    moving the iterator.  Whatever valid index it is called with, the call is
    the one with index 0, and the other addresses stay. *)
Theorem remove_address_first {S} `{!Ipv4RoutingProtocol S} (env : NodeEnv) (st : L3 S) i index iface a l
  (Hi : m_interfaces st !! Z.to_nat i = Some iface) (Ha : m_ifaddrs iface = a :: l)
  (Hindex : 0 <= index < Z.of_nat (length (a :: l))) (Hu : is_u32 index) :
  RemoveAddress env i index st = RemoveAddress env i 0 st /\
  forall b st', RemoveAddress env i index st = Ok (b, st') ->
    exists iface', m_interfaces st' !! Z.to_nat i = Some iface' /\ m_ifaddrs iface' = l.
Proof.
  unfold RemoveAddress, interface_at, GetInterface. rewrite Hi. cbn [or_fault mbind result_bind].
  rewrite !(Interface_RemoveAddress_spec iface _ a l) by (done || (cbn [length]; lia)). cbn [mbind result_bind].
  split; [done|]. intros b st'. set (st1 := set_interfaces _ st).
  assert (exists iface', m_interfaces st1 !! Z.to_nat i = Some iface' /\ m_ifaddrs iface' = l) as H1.
  { eexists. split; [apply list_lookup_insert_eq; by eapply lookup_lt_Some|done]. }
  destruct (negb _); [|by intros [= _ <-]]. unfold notify.
  destruct (m_routingProtocol (refresh env st1)) as [r|]; [|by intros [= _ <-]].
  destruct (NotifyRemoveAddress_ i a r) as [r'|]; [|done]. by intros [= _ <-].
Qed.

(** ** Time to live *)

(** The header a packet that goes on carries. *)
Definition carries (o : ip_action) : option IpHeader :=
  match o with
  | DeviceSend _ h _ _ | ArpLookup _ h _ _ | LoopBack _ h _ => Some h
  | DeliverUp _ _ _ | SendTimeExceeded _ _ | Dropped _ _ _ _ => None
  end.

(** All packets of [out] that go on carry [h]. *)
Definition carry (h : IpHeader) (out : list ip_action) : Prop :=
  Forall (fun o => forall h', carries o = Some h' -> h' = h) out.

Lemma carry_one h o : (forall h', carries o = Some h' -> h' = h) -> carry h [o].
Proof. intros. by constructor. Qed.

Lemma carry_app h o1 o2 : carry h o1 -> carry h o2 -> carry h (o1 ++ o2).
Proof. intros. by apply Forall_app. Qed.

Ltac carry := match goal with
  | |- carry _ [] => constructor
  | |- carry _ [_] => apply carry_one; cbn; congruence
  end.

Section ttl.
Context (env : NodeEnv).

Lemma Interface_Send_carry i h p dest out : Interface_Send env i h p dest = Ok out -> carry h out.
Proof.
  unfold Interface_Send, assert. repeat case_match; cbn; try discriminate; intros [= <-]; carry.
Qed.

Context {S : Type} `{!Ipv4RoutingProtocol S}.

Lemma SendRealOut_carry (st : L3 S) route h p out : SendRealOut env st route h p = Ok out -> carry h out.
Proof.
  unfold SendRealOut. destruct route as [route|]; [|intros [= <-]; carry].
  intros (? & _ & (i & _ & (? & _ & H)%bind_Ok)%bind_Ok)%bind_Ok. destruct (m_ifup i).
  - by eapply Interface_Send_carry.
  - injection H as <-. carry.
Qed.

Lemma IpForward_carry (st : L3 S) route h p out :
  IpForward env st route h p = Ok out -> carry (SetTtl (u8 (h_ttl h - 1)) h) out /\
    (u8 (h_ttl h - 1) = 0 -> Forall (fun o => carries o = None) out).
Proof.
  unfold IpForward. cbn [SetTtl h_ttl]. destruct (Z.eqb_spec (u8 (h_ttl h - 1)) 0) as [E|E].
  - intros [= <-]. destruct (_ && _); split; repeat constructor; cbn; congruence.
  - intros H%SendRealOut_carry. by split.
Qed.

Lemma IpMulticastForward_carry (st : L3 S) route h p rounds i out :
  IpMulticastForward_loop env st route h p i rounds = Ok out -> carry (SetTtl (u8 (h_ttl h - 1)) h) out /\
    (u8 (h_ttl h - 1) = 0 -> Forall (fun o => carries o = None) out).
Proof.
  revert i out; induction rounds as [|rounds IH]; intros i out; cbn [IpMulticastForward_loop].
  { intros [= <-]. split; constructor. }
  intros (ttl & _ & H)%bind_Ok. destruct (ttl <? 255); [|by eapply IH]. cbn [SetTtl h_ttl] in H.
  destruct (Z.eqb_spec (u8 (h_ttl h - 1)) 0) as [E|E].
  - injection H as <-. split; [carry|by repeat constructor].
  - apply bind_Ok in H as (dev & _ & H). apply bind_Ok in H as (o1 & H1%SendRealOut_carry & H).
    apply bind_Ok in H as (o2 & H2%IH & [= <-]). split; [by apply carry_app; destruct H2|done].
Qed.

Lemma callback_carry (st : L3 S) h a out :
  callback env st h a = Ok out -> carry (SetTtl (u8 (h_ttl h - 1)) h) out /\
    (u8 (h_ttl h - 1) = 0 -> Forall (fun o => carries o = None) out).
Proof.
  destruct a; cbn [callback]; try (intros [= <-]; split; repeat constructor; cbn; congruence).
  - apply IpForward_carry.
  - apply IpMulticastForward_carry.
Qed.

Lemma Receive_carry (st : L3 S) device h p out :
  Receive env st device h p = Ok out -> carry (SetTtl (u8 (h_ttl h - 1)) h) out /\
    (u8 (h_ttl h - 1) = 0 -> Forall (fun o => carries o = None) out).
Proof.
  unfold Receive. destruct (receiving device 0 (m_interfaces st)) as [interface down].
  destruct down; [intros [= <-]; split; repeat constructor; cbn; congruence|].
  intros (rp & _ & ([routed actions] & _ & (o1 & H & [= <-])%bind_Ok)%bind_Ok)%bind_Ok.
  eapply (foldM_inv (fun o => carry (SetTtl (u8 (h_ttl h - 1)) h) o /\
    (u8 (h_ttl h - 1) = 0 -> Forall (fun o => carries o = None) o))) in H; [|..|split; by constructor].
  - destruct H as [H1 H2]. split.
    + apply carry_app; [done|]. destruct routed; carry.
    + intros E. apply Forall_app; split; [by apply H2|]. destruct routed; by repeat constructor.
  - intros o a o' _ [Ho1 Ho2] (o2 & [H1 H2]%callback_carry & [= <-])%bind_Ok.
    split; [by apply carry_app|]. intros E. apply Forall_app; auto.
Qed.
End ttl.

(** A router, with any routing protocol, receives a packet with header [h] and
    sends it on with header [h']; [hops n] is [n] of these one after the
    other. *)
Inductive hop (h h' : IpHeader) : Prop :=
| hop_receive env S (P : Ipv4RoutingProtocol S) (st : L3 S) device p out o :
    Receive env st device h p = Ok out -> o ∈ out -> carries o = Some h' -> hop h h'.
Inductive hops : nat -> IpHeader -> IpHeader -> Prop :=
| hops_none h : hops O h h
| hops_more n h h' h'' : hop h h' -> hops n h' h'' -> hops (S n) h h''.

(** (C35) The time to live ends every journey.  Whatever the routers' tables say
    (they may send the packet in circles), a packet that arrives with a TTL
    from 1 to 255 is sent on with that TTL less one, and only while it stays
    positive: it makes less hops than its TTL.  A packet that arrives with TTL
    0 goes on with TTL 255, because the TTL is decremented before it is
    tested. *)
Theorem ttl_bounds_hops n h h' (Hhops : hops n h h') :
  (1 <= h_ttl h <= 255 -> h_ttl h' = h_ttl h - Z.of_nat n /\ 1 <= h_ttl h') /\
  (h_ttl h = 0 -> n = 1%nat -> h_ttl h' = 255).
Proof.
  induction Hhops as [h|n h h1 h' Hhop Hhops [IH _]]; [split; [lia|done]|].
  destruct Hhop as [env SS P st device p out o Hr Ho Hh1]. apply Receive_carry in Hr as [Hc H0].
  unfold carry in Hc. rewrite Forall_forall in Hc. specialize (Hc o Ho h1 Hh1). subst h1. cbn [SetTtl h_ttl] in IH.
  split.
  - intros Ht. assert (u8 (h_ttl h - 1) = h_ttl h - 1) as E by (apply u8_small; unfold is_u8; lia).
    rewrite E in *. destruct (decide (h_ttl h - 1 = 0)) as [E0|].
    + specialize (H0 E0). rewrite Forall_forall in H0. specialize (H0 o Ho). congruence.
    + lia.
  - intros E0 [= ->]. inversion Hhops; subst. cbn [SetTtl h_ttl]. by rewrite E0.
Qed.

(** ** Examples *)

(** A node whose device 0 is the loopback device, with point-to-point links. *)
Definition p2p_env : NodeEnv := {|
  dev_IfIndex d := d; dev_Mtu _ := 1500; dev_IsLoopback d := d =? 0; dev_NeedsArp _ := false;
  dev_IsMulticast _ := false; env_CreateSocket i := 100 + i; env_Bind _ := 0 |}.

Section checked.
Context (env : NodeEnv).
Implicit Types st : L3 StaticState.

Definition sized_b st : bool :=
  (Z.of_nat (length (m_interfaces st)) <? 2 ^ 32) &&
  forallb (fun i => Z.of_nat (length (m_ifaddrs i)) <? 2 ^ 32) (m_interfaces st).
Definition counted_b st : bool :=
  sized_b st && match m_routingProtocol st with
    | Some rp => Z.of_nat (length (m_networkRoutes rp)) <? 2 ^ 32 | None => true end.
Definition op_valid_b (o : stack_op) st : bool :=
  let on i := (0 <=? i) && (i <? Z.of_nat (length (m_interfaces st))) in
  match o with
  | OpAddInterface _ | OpSetIpForward _ => true
  | OpRemoveAddress i index => on i && (0 <=? index) &&
      match m_interfaces st !! Z.to_nat i with Some iface => index <? Z.of_nat (length (m_ifaddrs iface)) | None => false end
  | OpAddAddress i _ | OpSetUp i | OpSetDown i | OpSetForwarding i _ | OpSetMetric i _ => on i
  end.

Lemma sized_b_spec st : sized_b st = true -> sized st.
Proof.
  intros [H1%Z.ltb_lt H2]%andb_true_iff. split; [done|]. intros i Hi%list_elem_of_In.
  rewrite forallb_forall in H2. by apply Z.ltb_lt, H2.
Qed.

Lemma counted_b_spec st : counted_b st = true -> counted st.
Proof.
  intros [H1 H2]%andb_true_iff. split; [by apply sized_b_spec|]. intros rp Hrp. rewrite Hrp in H2. by apply Z.ltb_lt.
Qed.

Lemma op_valid_b_spec o st : op_valid_b o st = true -> op_valid o st.
Proof.
  unfold op_valid_b, op_valid, on_interface. destruct o as [d|i a|i index|i|i|i v|b|i m]; [done|lia| |lia|lia|lia|done|lia].
  destruct (m_interfaces st !! Z.to_nat i) as [iface|]; [|lia]. intros H. split; [lia|]. split; [lia|]. intros iface' [= <-]. lia.
Qed.

Fixpoint checked_run (os : list stack_op) st : result (L3 StaticState) :=
  match os with
  | [] => Ok st
  | o :: os' => if counted_b st && op_valid_b o st then st ← run_op env o st; checked_run os' st else Fault AssertFailed
  end.

Lemma checked_run_spec os st0 os0 st st' :
  stack_run env st0 os0 st -> checked_run os st = Ok st' -> stack_run env st0 (os0 ++ os) st'.
Proof.
  revert os0 st; induction os as [|o os IH]; intros os0 st Hrun; cbn [checked_run].
  - intros [= <-]. by rewrite app_nil_r.
  - destruct (counted_b st) eqn:Hc; [|done]. destruct (op_valid_b o st) eqn:Hv; [|done]. cbn [andb].
    intros (st1 & H1 & H)%bind_Ok. rewrite cons_middle, app_assoc. eapply IH; [|done].
    eapply run_more; [done|by apply counted_b_spec|by apply op_valid_b_spec|done].
Qed.
End checked.

(** Loopback only, with static routing; then two interfaces come up and one
    goes down again. *)
Definition loop_stack : L3 StaticState :=
  mkL3 [mkInterface 0 [loop_addr] true true 1] None true true 64 0.
Definition bring_up : list stack_op :=
  [OpAddInterface 1; OpAddAddress 1 net1_addr; OpSetUp 1; OpAddInterface 2; OpSetUp 2; OpAddAddress 2 net2_addr;
   OpSetUp 1; OpSetDown 2].

Lemma is_ok_spec {A} (m : result A) : is_ok m = true -> exists a, m = Ok a.
Proof. destruct m; [by eexists|done]. Qed.

Lemma run_after_start os : is_ok (st1 ← SetRoutingProtocol p2p_env MakeIpv4StaticRouting loop_stack; checked_run p2p_env os st1) = true ->
  exists st1 st, SetRoutingProtocol p2p_env MakeIpv4StaticRouting loop_stack = Ok st1 /\ stack_run p2p_env st1 os st.
Proof.
  intros [st (st1 & E1 & E2)%bind_Ok]%is_ok_spec. exists st1, st. split; [exact E1|].
  apply (checked_run_spec p2p_env os st1 [] st1 st); [constructor|exact E2].
Qed.

(** In the first run the routes are the connected networks.  Then the only
    address of interface 1 is removed, and one of the two routes to its network
    is left. *)
Lemma static_routes_follow_interfaces_witness :
  (exists st1 st rp, SetRoutingProtocol p2p_env MakeIpv4StaticRouting loop_stack = Ok st1 /\ stack_run p2p_env st1 bring_up st /\
     m_routingProtocol st = Some rp /\ forall r, r ∈ m_networkRoutes rp <-> r ∈ connected_routes (ifs_of st)) /\
  (exists st1 st rp, stack_run p2p_env st1 (bring_up ++ [OpRemoveAddress 1 0]) st /\ m_routingProtocol st = Some rp /\
     ifs_of st = [(true, [loop_addr]); (true, []); (false, [net2_addr])] /\
     m_networkRoutes rp = [connected_route 0 loop_addr; connected_route 1 net1_addr]).
Proof.
  split.
  - destruct (run_after_start bring_up) as (st1 & st & E1 & Hrun); [vm_compute; reflexivity|].
    destruct (static_routes_follow_interfaces p2p_env loop_stack st1 bring_up st
      (sized_b_spec loop_stack eq_refl) ltac:(vm_compute; reflexivity) E1 Hrun) as [(rp & Hrp & _ & _ & Hr) _].
    exists st1, st, rp. split; [exact E1|]. split; [exact Hrun|]. split; [exact Hrp|]. apply Hr.
    repeat constructor; discriminate.
  - destruct (run_after_start (bring_up ++ [OpRemoveAddress 1 0])) as (st1 & st & E1 & Hrun); [vm_compute; reflexivity|].
    destruct (static_routes_follow_interfaces p2p_env loop_stack st1 _ st
      (sized_b_spec loop_stack eq_refl) ltac:(vm_compute; reflexivity) E1 Hrun) as [(rp & Hrp & Hr & _) _].
    exists st1, st, rp. split; [exact Hrun|]. split; [exact Hrp|]. vm_compute in Hr. injection Hr as H1 H2.
    split; [exact H1|exact H2].
Defined.

(** Interface 1 has two addresses; the second one is to be removed. *)
Definition two_addresses : L3 StaticState :=
  mkL3 [mkInterface 0 [loop_addr] true true 1; mkInterface 1 [net1_addr; net2_addr] true true 1] None true true 64 0.

Lemma remove_address_first_witness : exists b st' iface',
  RemoveAddress p2p_env 1 1 two_addresses = Ok (b, st') /\
  m_interfaces st' !! 1%nat = Some iface' /\ m_ifaddrs iface' = [net2_addr].
Proof.
  destruct (remove_address_first p2p_env two_addresses 1 1 (mkInterface 1 [net1_addr; net2_addr] true true 1)
    net1_addr [net2_addr] eq_refl eq_refl ltac:(cbn; lia) ltac:(split; [lia|reflexivity])) as [_ H].
  assert (is_ok (RemoveAddress p2p_env 1 1 two_addresses) = true) as E by (vm_compute; reflexivity).
  apply is_ok_spec in E as [[b st'] E].
  destruct (H b st' E) as (iface' & H1 & H2). exists b, st', iface'. split; [exact E|]. split; [exact H1|exact H2].
Defined.

(** A packet with TTL 2 for 10.0.1.2 crosses a router once. *)
Definition router : L3 StaticState :=
  mkL3 [mkInterface 0 [loop_addr] true true 1; mkInterface 1 [net1_addr] true true 1; mkInterface 2 [net2_addr] true true 1]
    (Some (mkStatic (connected_routes (example_ifs true)) [] (Some (example_ip true)))) true true 64 0.
Definition header_ttl (ttl : Z) : IpHeader := mkIpHeader 0x0a000202 0x0a000102 17 0 ttl 0.

Lemma router_hop : hop (header_ttl 2) (header_ttl 1).
Proof.
  eapply (hop_receive _ _ p2p_env StaticState static_routing router 2 [] [DeviceSend 1 (header_ttl 1) [] HwBroadcast]).
  - vm_compute. reflexivity.
  - left.
  - reflexivity.
Qed.

Lemma ttl_bounds_hops_witness : hops 1 (header_ttl 2) (header_ttl 1) /\ 1 <= h_ttl (header_ttl 1).
Proof.
  assert (hops 1 (header_ttl 2) (header_ttl 1)) as H by (eapply hops_more; [apply router_hop|apply hops_none]).
  split; [exact H|]. apply (ttl_bounds_hops 1 (header_ttl 2) (header_ttl 1) H). vm_compute. split; congruence.
Defined.
