(* ===== verification/ListRouting.v ===== *)
(** * ListRouting: several routing protocols on one node

    src/ns-3/src/routing/list-routing/ipv4-list-routing.cc: a list of protocols
    ordered by priority, itself a routing protocol.  The protocols of the list
    are of one type with an instance of [Ipv4RoutingProtocol]; the sum of two
    protocol types is such a type, and so are the two protocols of cs433. *)

From S2P Require Import Prelude StdMap StdString Ipv4Address Node LSRouting DVRouting.

Section list_routing.
Context {P : Type} `{!Ipv4RoutingProtocol P}.

Record ListState := mkList {
  m_routingProtocols : list (Z * P);
  m_ipv4 : option Ipv4
}.
Implicit Types st : ListState.

Definition set_protocols (l : list (Z * P)) st : ListState := mkList l (m_ipv4 st).

Definition MakeIpv4ListRouting : ListState := mkList [] None.
Definition DoDispose st : ListState := mkList [] None.

(** The entries of the list with the protocol changed by [f]. *)
Definition each (f : P -> result P) (l : list (Z * P)) : result (list (Z * P)) :=
  foldM (fun acc e => p ← f e.2; Ok (acc ++ [(e.1, p)])) [] l.
Definition on_all (f : P -> result P) st : result ListState :=
  l ← each f (m_routingProtocols st); Ok (set_protocols l st).

(** [Compare (a, b)]: [a] comes before [b]. *)
Definition Compare (a b : Z * P) : bool := b.1 <? a.1.

(** [std::list::sort], a stable sort: an element moves behind all the elements
    that it need not precede. *)
Fixpoint insert_entry (e : Z * P) (l : list (Z * P)) : list (Z * P) :=
  match l with
  | [] => [e]
  | x :: l' => if Compare e x then e :: l else x :: insert_entry e l'
  end.
Definition sort_entries (l : list (Z * P)) : list (Z * P) := foldl (fun acc e => insert_entry e acc) [] l.

(** The protocol is told the stack, if it is known, through its pointer. *)
Definition AddRoutingProtocol (routingProtocol : P) (priority : Z) st : result ListState :=
  p ← match m_ipv4 st with Some ip => SetIpv4_ ip routingProtocol | None => Ok routingProtocol end;
  Ok (set_protocols (sort_entries (m_routingProtocols st ++ [(priority, p)])) st).

Definition GetNRoutingProtocols st : Z := u32 (Z.of_nat (length (m_routingProtocols st))).

(** [Ok None] is the null pointer. *)
Definition GetRoutingProtocol st (index : Z) : result (option (Z * P)) :=
  if Z.of_nat (length (m_routingProtocols st)) <? index then Fault FatalError
  else Ok (m_routingProtocols st !! Z.to_nat index).

Fixpoint RouteOutput_loop (l : list (Z * P)) (p : Packet) (header : Ipv4Header) (oif : option NetDevice) (sockerr : Z)
    : result (option Ipv4Route * Z) :=
  match l with
  | [] => Ok (None, 10)
  | e :: l' =>
      '(route, sockerr) ← RouteOutput_ e.2 p header oif sockerr;
      match route with
      | Some r => Ok (Some r, 0)
      | None => RouteOutput_loop l' p header oif sockerr
      end
  end.
Definition RouteOutput st : Packet -> Ipv4Header -> option NetDevice -> Z -> result (option Ipv4Route * Z) :=
  RouteOutput_loop (m_routingProtocols st).

(** The protocols' answers; the callbacks of those that found no route have
    been called too. *)
Fixpoint RouteInput_loop {M} (l : list (Z * P)) (p : Packet) (header : Ipv4Header) (idev : NetDevice) (lcb retVal : bool)
    : result (bool * list (action M)) :=
  match l with
  | [] => Ok (retVal, [])
  | e :: l' =>
      '(found, out) ← RouteInput_ (M := M) e.2 p header idev lcb;
      if found : bool then Ok (true, out)
      else '(r, out') ← RouteInput_loop l' p header idev lcb retVal; Ok (r, out ++ out')
  end.

(** [call_lcb]: the local-delivery callback; not set, it dereferences null. *)
Definition call_lcb {M} (lcb : bool) (p : Packet) (iif : Z) : result (list (action M)) :=
  if lcb then Ok [LocalDeliver p iif] else Fault NullDeref.

Definition RouteInput {M} st (p : Packet) (header : Ipv4Header) (idev : NetDevice) (lcb : bool)
    : result (bool * list (action M)) :=
  ip ← m_ipv4 st ?? AssertFailed;
  _ ← assert (0 <=? GetInterfaceForDevice ip idev);
  let iif := u32 (GetInterfaceForDevice ip idev) in
  retVal ← IsDestinationAddress ip (GetDestination header) iif;
  if retVal && negb (IsMulticast (GetDestination header)) then
    out ← call_lcb lcb p iif; Ok (true, out)
  else
    out ← (if retVal : bool then call_lcb lcb p iif else Ok []);
    forwarding ← IsForwarding ip iif;
    if negb forwarding then Ok (false, out ++ [RouteError p 10])
    else
      '(r, out') ← RouteInput_loop (m_routingProtocols st) p header idev (lcb && negb retVal) retVal;
      Ok (r, out ++ out').

Definition NotifyInterfaceUp (interface : Z) : ListState -> result ListState := on_all (NotifyInterfaceUp_ interface).
Definition NotifyInterfaceDown (interface : Z) : ListState -> result ListState := on_all (NotifyInterfaceDown_ interface).
Definition NotifyAddAddress (interface : Z) (address : Ipv4InterfaceAddress) : ListState -> result ListState :=
  on_all (NotifyAddAddress_ interface address).
Definition NotifyRemoveAddress (interface : Z) (address : Ipv4InterfaceAddress) : ListState -> result ListState :=
  on_all (NotifyRemoveAddress_ interface address).

Definition SetIpv4 (ip : Ipv4) st : result ListState :=
  _ ← assert (match m_ipv4 st with None => true | Some _ => false end);
  st ← on_all (SetIpv4_ ip) st;
  Ok (mkList (m_routingProtocols st) (Some ip)).

#[export] Instance list_protocol : Ipv4RoutingProtocol ListState := {|
  new_protocol := MakeIpv4ListRouting;
  RouteOutput_ := RouteOutput;
  RouteInput_ M := RouteInput;
  NotifyInterfaceUp_ := NotifyInterfaceUp;
  NotifyInterfaceDown_ := NotifyInterfaceDown;
  NotifyAddAddress_ := NotifyAddAddress;
  NotifyRemoveAddress_ := NotifyRemoveAddress;
  SetIpv4_ := SetIpv4;
  StackChanged_ ip st := mkList (map (fun e => (e.1, StackChanged_ ip e.2)) (m_routingProtocols st))
    (match m_ipv4 st with Some _ => Some ip | None => None end) |}.
End list_routing.
Arguments ListState P : clear implicits.

(** ** Protocols of two types in one list *)

Section sum.
Context {A B : Type} `{!Ipv4RoutingProtocol A} `{!Ipv4RoutingProtocol B}.

Definition on_sum (f : A -> result A) (g : B -> result B) (s : A + B) : result (A + B) :=
  match s with
  | inl a => a ← f a; Ok (inl a)
  | inr b => b ← g b; Ok (inr b)
  end.

Definition sum_protocol : Ipv4RoutingProtocol (A + B) := {|
  new_protocol := inl new_protocol;
  RouteOutput_ s := match s with inl a => RouteOutput_ a | inr b => RouteOutput_ b end;
  RouteInput_ M s := match s with inl a => RouteInput_ a | inr b => RouteInput_ b end;
  NotifyInterfaceUp_ i := on_sum (NotifyInterfaceUp_ i) (NotifyInterfaceUp_ i);
  NotifyInterfaceDown_ i := on_sum (NotifyInterfaceDown_ i) (NotifyInterfaceDown_ i);
  NotifyAddAddress_ i a := on_sum (NotifyAddAddress_ i a) (NotifyAddAddress_ i a);
  NotifyRemoveAddress_ i a := on_sum (NotifyRemoveAddress_ i a) (NotifyRemoveAddress_ i a);
  SetIpv4_ ip := on_sum (SetIpv4_ ip) (SetIpv4_ ip);
  StackChanged_ ip s := match s with inl a => inl (StackChanged_ ip a) | inr b => inr (StackChanged_ ip b) end |}.
End sum.

(** ** The protocols of cs433 as list members *)

Section cs433.
Context {SR : Type} `{!Ipv4RoutingProtocol SR}.

(** A handler that only changes its state. *)
Definition run_state {T O} (h : handler T O unit) (s : T) : result T := '(_, s, _) ← h s; Ok s.

(** The view of the stack, here and in the static protocol behind. *)
Definition ls_stack_changed (ip : Ipv4) (st : LSState SR) : LSState SR :=
  LSRouting.set_staticRouting (StackChanged_ ip <$> LSRouting.m_staticRouting st)
    (LSRouting.set_ipv4 (match LSRouting.m_ipv4 st with Some _ => Some ip | None => None end) st).
Definition dv_stack_changed (ip : Ipv4) (st : DVState SR) : DVState SR :=
  DVRouting.set_staticRouting (StackChanged_ ip <$> DVRouting.m_staticRouting st)
    (DVRouting.set_ipv4 (match DVRouting.m_ipv4 st with Some _ => Some ip | None => None end) st).

(** [seq]: the random initial sequence number of a new object. *)
Definition ls_protocol (seq : Z) : Ipv4RoutingProtocol (LSState SR) := {|
  new_protocol := MakeLSRoutingProtocol seq;
  RouteOutput_ := LSRouting.RouteOutput;
  RouteInput_ M := LSRouting.RouteInput;
  NotifyInterfaceUp_ i := run_state (LSRouting.NotifyInterfaceUp i);
  NotifyInterfaceDown_ i := run_state (LSRouting.NotifyInterfaceDown i);
  NotifyAddAddress_ i a := run_state (LSRouting.NotifyAddAddress i a);
  NotifyRemoveAddress_ i a := run_state (LSRouting.NotifyRemoveAddress i a);
  SetIpv4_ ip := run_state (LSRouting.SetIpv4 ip);
  StackChanged_ := ls_stack_changed |}.

Definition dv_protocol (seq : Z) : Ipv4RoutingProtocol (DVState SR) := {|
  new_protocol := MakeDVRoutingProtocol seq;
  RouteOutput_ := DVRouting.RouteOutput;
  RouteInput_ M := DVRouting.RouteInput;
  NotifyInterfaceUp_ i := run_state (DVRouting.NotifyInterfaceUp i);
  NotifyInterfaceDown_ i := run_state (DVRouting.NotifyInterfaceDown i);
  NotifyAddAddress_ i a := run_state (DVRouting.NotifyAddAddress i a);
  NotifyRemoveAddress_ i a := run_state (DVRouting.NotifyRemoveAddress i a);
  SetIpv4_ ip := run_state (DVRouting.SetIpv4 ip);
  StackChanged_ := dv_stack_changed |}.
End cs433.
