(* ===== verification/ListSpec.v ===== *)
(** * ListSpec: which protocol answers, and a whole node

    The order of ipv4-list-routing.cc, and the way of a packet through
    ipv4-l3-protocol.cc, ipv4-list-routing.cc and ls-routing-protocol.cc. *)

From Stdlib Require Import Sorting.Sorted.
From S2P Require Import Prelude StdMap StdString Ipv4Address LSMessage Node LSRouting LSDijkstra LSForwarding LSProtocol StaticRouting StaticSpec Ipv4Stack StackSpec ListRouting.

(** ** The order of the list *)

Section order.
Context {P : Type}.
Implicit Types (e : Z * P) (l : list (Z * P)).

Definition descending l : Prop := StronglySorted (fun a b => b.1 <= a.1) l.

Lemma insert_entry_perm e l : insert_entry e l ≡ₚ e :: l.
Proof.
  induction l as [|x l IH]; [done|]. cbn [insert_entry]. destruct (Compare e x); [done|].
  rewrite IH. apply Permutation_swap.
Qed.

Lemma insert_entry_sorted e l : descending l -> descending (insert_entry e l).
Proof.
  unfold descending. induction 1 as [|x l Hs IH Hx]; [by repeat constructor|].
  cbn [insert_entry]. unfold Compare. destruct (Z.ltb_spec x.1 e.1) as [Hlt|Hge].
  - constructor; [by constructor|]. constructor; [lia|]. eapply Forall_impl; [exact Hx|]. cbn. lia.
  - constructor; [done|]. rewrite insert_entry_perm. by constructor; [lia|].
Qed.

(** The entry goes behind all those of its own priority. *)
Lemma insert_entry_stable e l k :
  descending l ->
  filter (fun x => x.1 = k) (insert_entry e l) = filter (fun x => x.1 = k) (l ++ [e]).
Proof.
  unfold descending. induction 1 as [|x l Hs IH Hx]; [done|]. cbn [insert_entry app]. unfold Compare.
  destruct (Z.ltb_spec x.1 e.1) as [Hlt|Hge]; [|by rewrite !filter_cons, IH].
  assert (forall l', Forall (fun b => b.1 <= x.1) l' -> filter (fun x => x.1 = k) (e :: l') = filter (fun x => x.1 = k) (l' ++ [e])) as Hlater.
  { intros l' Hl'. rewrite filter_app, (filter_cons _ e). destruct (decide (e.1 = k)) as [He|He].
    - rewrite (filter_none _ l'); [by rewrite filter_cons_True|]. intros b Hb Hk. rewrite Forall_forall in Hl'.
      specialize (Hl' b Hb). lia.
    - by rewrite (filter_cons_False _ e), filter_nil, app_nil_r. }
  change (x :: (l ++ [e])) with ((x :: l) ++ [e]). apply Hlater. constructor; [lia|done].
Qed.

Lemma sort_entries_snoc l e : sort_entries (l ++ [e]) = insert_entry e (sort_entries l).
Proof. unfold sort_entries. by rewrite foldl_app. Qed.

Lemma sort_entries_spec l :
  sort_entries l ≡ₚ l /\ descending (sort_entries l) /\
  forall k, filter (fun x => x.1 = k) (sort_entries l) = filter (fun x => x.1 = k) l.
Proof.
  induction l as [|e l (Hp & Hs & Hk)] using rev_ind; [by repeat constructor|]. rewrite sort_entries_snoc. split_and!.
  - rewrite insert_entry_perm, Hp. apply Permutation_cons_append.
  - by apply insert_entry_sorted.
  - intros k. rewrite insert_entry_stable, !filter_app, Hk by done. done.
Qed.
End order.

(** ** The answer *)

Section answer.
Context {P : Type} `{!Ipv4RoutingProtocol P}.
Implicit Types st : ListState P.

Definition add_all (adds : list (Z * P)) st : result (ListState P) :=
  foldM (fun st e => AddRoutingProtocol e.2 e.1 st) st adds.

(** Adding to a list that knows no stack yet. *)
Lemma add_all_spec adds : exists l, add_all adds MakeIpv4ListRouting = Ok (mkList l None) /\
  l ≡ₚ adds /\ descending l /\ forall k, filter (fun x => x.1 = k) l = filter (fun x => x.1 = k) adds.
Proof.
  unfold add_all. induction adds as [|e adds (l & Hl & Hp & Hs & Hk)] using rev_ind; [exists []; by repeat constructor|].
  rewrite foldM_app, Hl. cbn [mbind result_bind foldM]. unfold AddRoutingProtocol. cbn [m_ipv4 m_routingProtocols mbind result_bind].
  destruct e as [priority p]. cbn [fst snd set_protocols m_ipv4]. eexists; split; [done|].
  destruct (sort_entries_spec (l ++ [(priority, p)])) as (Hp' & Hs' & Hk'). split_and!.
  - by rewrite Hp', Hp.
  - done.
  - intros k. by rewrite Hk', !filter_app, Hk.
Qed.

Lemma RouteOutput_loop_spec (l : list (Z * P)) p header oif answer err :
  (forall e err, e ∈ l -> exists err', RouteOutput_ e.2 p header oif err = Ok (answer e.2, err')) ->
  ListRouting.RouteOutput_loop l p header oif err =
    Ok (match head (omap (fun e => answer e.2) l) with
        | Some r => (Some r, ERROR_NOTERROR)
        | None => (None, ERROR_NOROUTETOHOST)
        end).
Proof.
  revert err; induction l as [|e l IH]; intros err Ha; [done|]. cbn [ListRouting.RouteOutput_loop omap list_omap].
  destruct (Ha e err) as [err' ->]; [left|]. cbn [mbind result_bind]. destruct (answer e.2) as [r|]; [done|].
  apply IH. intros e' err0 He'. apply Ha. by right.
Qed.

(** (C36) Priorities.  After protocols have been added, in any order, the list
    has all of them, by descending priority and, within a priority, in the
    order they were added; and [RouteOutput] gives the answer of the first one
    of the list that finds a route. *)
Theorem list_priorities (adds : list (Z * P)) p header oif answer err
  (Ha : forall e err, e ∈ adds -> exists err', RouteOutput_ e.2 p header oif err = Ok (answer e.2, err')) :
  exists st, add_all adds MakeIpv4ListRouting = Ok st /\
    m_routingProtocols st ≡ₚ adds /\
    StronglySorted (fun a b => b.1 <= a.1) (m_routingProtocols st) /\
    (forall k, filter (fun e => e.1 = k) (m_routingProtocols st) = filter (fun e => e.1 = k) adds) /\
    ListRouting.RouteOutput st p header oif err =
      Ok (match head (omap (fun e => answer e.2) (m_routingProtocols st)) with
          | Some r => (Some r, ERROR_NOTERROR)
          | None => (None, ERROR_NOROUTETOHOST)
          end).
Proof.
  destruct (add_all_spec adds) as (l & Hl & Hp & Hs & Hk). exists (mkList l None). split_and!; [done..|].
  apply RouteOutput_loop_spec. intros e err' He. apply Ha. by rewrite <- Hp.
Qed.
End answer.

(** Two protocols of fixed answers, the one without a route added first. *)
Lemma list_priorities_witness : exists st,
  add_all (Ipv4RoutingProtocol0 := fixed_route) [(5, None); (10, Some static_route); (5, Some static_route)]
    MakeIpv4ListRouting = Ok st /\
  m_routingProtocols st = [(10, Some static_route); (5, None); (5, Some static_route)] /\
  ListRouting.RouteOutput (Ipv4RoutingProtocol0 := fixed_route) st []
    {| GetSource := 0; GetDestination := 0xc0a80001 |} None 10 = Ok (Some static_route, ERROR_NOTERROR).
Proof.
  destruct (list_priorities (Ipv4RoutingProtocol0 := fixed_route)
    [(5, None); (10, Some static_route); (5, Some static_route)] []
    {| GetSource := 0; GetDestination := 0xc0a80001 |} None (fun s => s) 10) as (st & H1 & _ & _ & _ & H2).
  - intros e err _. exists (match e.2 with Some _ => 0 | None => 10 end). reflexivity.
  - exists st. split; [exact H1|]. vm_compute in H1. injection H1 as <-. split; [reflexivity|exact H2].
Defined.

(** ** The way of a packet through a node

    A node runs the link-state protocol as the only member of its list
    (simulator-main.cc gives every node such a list). *)

Lemma find_interface_NoDup f k n (l : list Ipv4Interface) i :
  l !! k = Some i -> f i = true ->
  (forall k' i', (k' < k)%nat -> l !! k' = Some i' -> f i' = false) ->
  find_interface f n l = n + Z.of_nat k.
Proof.
  revert n k; induction l as [|x l IH]; intros n k; [done|]. cbn [find_interface].
  destruct k as [|k]; cbn; intros Hk Hf Hbefore.
  - injection Hk as ->. rewrite Hf. lia.
  - rewrite (Hbefore 0%nat x ltac:(lia) eq_refl).
    rewrite (IH (n + 1) k Hk Hf); [lia|]. intros k' i' Hk' Hi'. by apply (Hbefore (S k') i'); [lia|].
Qed.

Lemma receiving_spec device k n (l : list Ipv4Interface) i :
  l !! k = Some i -> m_device i = device ->
  (forall k' i', (k' < k)%nat -> l !! k' = Some i' -> m_device i' <> device) ->
  receiving device n l = (n + Z.of_nat k, negb (m_ifup i)).
Proof.
  revert n k; induction l as [|x l IH]; intros n k; [done|]. cbn [receiving].
  destruct k as [|k]; cbn; intros Hk Hf Hbefore.
  - injection Hk as ->. rewrite Hf, Z.eqb_refl. f_equal. lia.
  - destruct (Z.eqb_spec (m_device x) device) as [E|E]; [by destruct (Hbefore 0%nat x ltac:(lia) eq_refl)|].
    rewrite (IH (n + 1) k Hk Hf); [f_equal; lia|]. intros k' i' Hk' Hi'. by apply (Hbefore (S k') i'); [lia|].
Qed.

Section node.
Context {SR : Type} `{!Ipv4RoutingProtocol SR} (env : NodeEnv) (seq : Z).
#[local] Instance node_protocol : Ipv4RoutingProtocol (ListState (LSState SR)) :=
  @list_protocol _ (ls_protocol seq).
Implicit Types (st : L3 (ListState (LSState SR))) (ls : LSState SR) (i o : Ipv4Interface).

(** The node's list has the protocol state [ls] alone, both see the stack as it
    is, and the devices of the interfaces differ. *)
Record runs st ls : Prop := {
  runs_protocol : exists priority, m_routingProtocol st = Some (mkList [(priority, ls)] (Some (view env st)));
  runs_view : LSRouting.m_ipv4 ls = Some (view env st);
  runs_devices : NoDup (map m_device (m_interfaces st));
  runs_sized : Z.of_nat (length (m_interfaces st)) < 2 ^ 31
}.

(** Interface [k] of the node is up, forwards, and has device [device]. *)
Definition on_device st (k : nat) device i : Prop :=
  m_interfaces st !! k = Some i /\ m_device i = device /\ m_ifup i = true /\ m_forwarding i = true.

Section ready.
Context st ls (Hruns : runs st ls).

Lemma device_before k i k' i' :
  m_interfaces st !! k = Some i -> m_interfaces st !! k' = Some i' -> (k' < k)%nat -> m_device i' <> m_device i.
Proof using Hruns.
  intros Hk Hk' Hlt E. assert (k' = k); [|lia].
  eapply (NoDup_lookup _ _ _ _ (runs_devices _ _ Hruns)); rewrite list_lookup_fmap.
  - by rewrite Hk'.
  - rewrite Hk. cbn. by rewrite E.
Qed.

Lemma number_of k i : m_interfaces st !! k = Some i ->
  GetInterfaceForDevice st (m_device i) = Z.of_nat k /\ u32 (Z.of_nat k) = Z.of_nat k.
Proof using Hruns.
  intros Hk. split.
  - unfold GetInterfaceForDevice. rewrite (find_interface_NoDup _ k _ _ i Hk); [done|apply Z.eqb_refl|].
    intros k' i' Hlt Hk'. apply Z.eqb_neq. by eapply device_before.
  - apply u32_small. unfold is_u32. apply lookup_lt_Some in Hk. pose proof (runs_sized _ _ Hruns). lia.
Qed.

Lemma received device k i h p :
  on_device st k device i -> h_payloadSize h = Z.of_nat (length p) ->
  Receive env st device h p =
    (rp ← m_routingProtocol st ?? AssertFailed;
     '(routed, actions) ← RouteInput_ (M := Empty_set) rp p (routing_header h) device true;
     out ← foldM (fun out a => o ← callback env st h a; Ok (out ++ o)) [] actions;
     Ok (out ++ if routed : bool then [] else [Dropped h p DROP_NO_ROUTE (Z.of_nat k)])).
Proof using Hruns.
  intros (Hk & <- & Hup & _) Hsize. unfold Receive.
  rewrite (receiving_spec _ k 0 _ i Hk eq_refl), Hup; [|by intros; eapply device_before]. cbn [negb].
  by rewrite Hsize, Nat2Z.id, firstn_all.
Qed.

(** A packet for the node itself goes up, unchanged. *)
Lemma node_delivers device k i h p :
  on_device st k device i -> h_payloadSize h = Z.of_nat (length p) ->
  Ipv4Stack.IsDestinationAddress st (h_destination h) (Z.of_nat k) = Ok true -> IsMulticast (h_destination h) = false ->
  Receive env st device h p = Ok [DeliverUp h p (Z.of_nat k)].
Proof using Hruns.
  intros Hon Hsize Hlocal Hm. rewrite (received _ _ _ _ _ Hon Hsize).
  destruct Hruns as [[priority Hp] _ _ _]. rewrite Hp. destruct Hon as (Hk & <- & Hup & Hf).
  destruct (number_of k i Hk) as [Hn Hu].
  cbn [or_fault mbind result_bind RouteInput_ node_protocol list_protocol]. unfold ListRouting.RouteInput.
  cbn [ListRouting.m_ipv4 or_fault mbind result_bind view Node.GetInterfaceForDevice Node.IsDestinationAddress].
  cbn [routing_header GetDestination]. rewrite Hn, Hu.
  rewrite (proj2 (Z.leb_le 0 _)) by lia. cbn [assert mbind result_bind]. rewrite Hlocal. cbn [mbind result_bind]. by rewrite Hm.
Qed.

(** The way to entry [e]: through interface [j], a point-to-point link that is
    up and takes packets of [size] bytes. *)
Record way_out (e : RoutingTableEntry) (j : nat) o (size : Z) : Prop := {
  out_at : m_interfaces st !! j = Some o;
  out_found : Ipv4Stack.GetInterfaceForAddress st (rt_interfaceAddr e) = Z.of_nat j;
  out_up : m_ifup o = true;
  out_p2p : dev_IsLoopback env (m_device o) = false /\ dev_NeedsArp env (m_device o) = false;
  out_next : rt_nextHopAddr e <> 0 /\ rt_nextHopAddr e <> Ipv4Address_default /\
    existsb (fun a => rt_nextHopAddr e =? m_local a) (m_ifaddrs o) = false;
  out_fits : IP_HEADER_SIZE + size <= dev_Mtu env (m_device o)
}.

Lemma sent_out e j o h p route :
  way_out e j o (Z.of_nat (length p)) -> m_gateway route = rt_nextHopAddr e -> m_outputDevice route = m_device o ->
  SendRealOut env st (Some route) h p = Ok [DeviceSend (m_device o) h p HwBroadcast].
Proof using Hruns.
  intros [Hj _ Hup [Hlo Harp] (Hn0 & _ & Hown) Hmtu] Hgw Hd. unfold SendRealOut. rewrite Hd, Hgw.
  destruct (number_of j o Hj) as [-> _]. rewrite (proj2 (Z.leb_le 0 _)) by lia. cbn [assert mbind result_bind].
  unfold interface_at, Ipv4Stack.GetInterface. rewrite Nat2Z.id, Hj. cbn [or_fault mbind result_bind].
  rewrite (proj2 (Z.leb_le _ _)) by done. cbn [assert mbind result_bind].
  change (AsciiToIpv4Host "0.0.0.0") with 0. rewrite (proj2 (Z.eqb_neq _ _) Hn0), Hup.
  unfold Interface_Send. by rewrite Hup, Hlo, Hown, Harp.
Qed.

(** The route made for the entry leads that way. *)
Lemma route_made e j o size dest :
  way_out e j o size ->
  LSRouting.make_route ls (view env st) dest (rt_nextHopAddr e) (rt_interfaceAddr e) =
    Ok (mkRoute dest (m_mainAddress ls) (rt_nextHopAddr e) (m_device o)).
Proof using Hruns.
  intros [Hj Hf _ _ _ _]. unfold LSRouting.make_route. cbn [view Node.GetInterfaceForAddress Node.GetNetDevice]. rewrite Hf.
  destruct (number_of j o Hj) as [_ ->]. unfold GetNetDevice, interface_at, Ipv4Stack.GetInterface.
  by rewrite Nat2Z.id, Hj.
Qed.

(** A packet for another node goes out on the way of its routing table entry,
    with the TTL decremented. *)
Lemma node_forwards device k i h p e j o :
  on_device st k device i -> h_payloadSize h = Z.of_nat (length p) ->
  Ipv4Stack.IsDestinationAddress st (h_destination h) (Z.of_nat k) = Ok false ->
  IsOwnAddress ls (h_source h) = false -> SearchTable ls (h_destination h) = Some e ->
  way_out e j o (Z.of_nat (length p)) -> 2 <= h_ttl h <= 255 ->
  Receive env st device h p = Ok [DeviceSend (m_device o) (SetTtl (h_ttl h - 1) h) p HwBroadcast].
Proof using Hruns.
  intros Hon Hsize Hlocal Hsrc Hs Hway Httl. rewrite (received _ _ _ _ _ Hon Hsize).
  destruct (runs_protocol _ _ Hruns) as [priority Hp]. rewrite Hp. destruct Hon as (Hk & <- & Hup & Hf).
  destruct (number_of k i Hk) as [Hn Hu].
  cbn [or_fault mbind result_bind RouteInput_ node_protocol list_protocol]. unfold ListRouting.RouteInput.
  cbn [ListRouting.m_ipv4 or_fault mbind result_bind view Node.GetInterfaceForDevice Node.IsDestinationAddress Node.IsForwarding].
  cbn [routing_header GetDestination]. rewrite Hn, Hu.
  rewrite (proj2 (Z.leb_le 0 _)) by lia. cbn [assert mbind result_bind]. rewrite Hlocal. cbn [mbind result_bind andb].
  unfold Ipv4Stack.IsForwarding, interface_at, Ipv4Stack.GetInterface. rewrite Nat2Z.id, Hk. cbn [or_fault mbind result_bind]. rewrite Hf.
  cbn [negb andb ListRouting.m_routingProtocols ListRouting.RouteInput_loop RouteInput_ ls_protocol snd].
  unfold LSRouting.RouteInput. cbn [GetSource GetDestination routing_header]. rewrite Hsrc, (runs_view _ _ Hruns).
  cbn [or_fault mbind result_bind view Node.GetInterfaceForDevice Node.IsDestinationAddress]. rewrite Hn, Hu, Hlocal.
  cbn [mbind result_bind]. rewrite Hs. fold (view env st).
  rewrite (route_made e j o (Z.of_nat (length p)) (h_destination h) Hway).
  cbn [mbind result_bind app foldM callback]. unfold IpForward. cbn [SetTtl h_ttl].
  rewrite u8_small by (unfold is_u8; lia). rewrite (proj2 (Z.eqb_neq _ _)) by lia.
  erewrite sent_out by done. cbn [mbind result_bind]. by rewrite app_nil_r.
Qed.

(** What a sender that asks the list gets. *)
Lemma RouteOutput_answer priority e j o size header p err r err' :
  GetDestination header <> m_mainAddress ls -> SearchTable ls (GetDestination header) = Some e -> way_out e j o size ->
  RouteOutput_ (mkList [(priority, ls)] (Some (view env st))) p header None err = Ok (r, err') ->
  r = Some (mkRoute (GetDestination header) (m_mainAddress ls) (rt_nextHopAddr e) (m_device o)).
Proof using Hruns.
  intros Hmain Hs Hway. cbn [RouteOutput_ node_protocol list_protocol]. unfold ListRouting.RouteOutput.
  cbn [ListRouting.m_routingProtocols ListRouting.RouteOutput_loop snd RouteOutput_ ls_protocol].
  unfold LSRouting.RouteOutput. rewrite (proj2 (Z.eqb_neq _ _) Hmain), Hs, (runs_view _ _ Hruns).
  cbn [or_fault mbind result_bind]. rewrite (route_made e j o size _ Hway). by intros [= <- <-].
Qed.

(** The node's own packets take the same way, whether the sender asked for a
    route before or not. *)
Lemma node_sends tag p source dest protocol route e j o :
  IsBroadcast dest = false -> IsLocalMulticast dest = false ->
  broadcast_interface dest (m_interfaces st) = None ->
  dest <> m_mainAddress ls -> SearchTable ls dest = Some e -> way_out e j o (Z.of_nat (length p)) ->
  route ∈ [None; Some (mkRoute dest (m_mainAddress ls) (rt_nextHopAddr e) (m_device o))] ->
  let h := (BuildHeader source dest protocol (Z.of_nat (length p))
              (match tag with Some ttl => ttl | None => m_defaultTtl st end) st).1 in
  exists st', Ipv4Stack.Send env tag p source dest protocol route st = Ok (st', [DeviceSend (m_device o) h p HwBroadcast]).
Proof using Hruns.
  intros Hb Hm Hbi Hmain Hs Hway Hroute. unfold Ipv4Stack.Send, BuildHeader. cbn [fst]. rewrite Hb, Hm, Hbi. cbn [orb].
  assert (forall route' h, SendRealOut env (set_identification (u16 (m_identification st + 1)) st) route' h p =
    SendRealOut env st route' h p) as Hid by done.
  apply list_elem_of_In in Hroute as [<-|[<-|[]]].
  - destruct (runs_protocol _ _ Hruns) as [priority Hp]. cbn [set_identification m_routingProtocol]. rewrite Hp.
    cbn [RouteOutput_ node_protocol list_protocol]. unfold ListRouting.RouteOutput.
    cbn [ListRouting.m_routingProtocols ListRouting.RouteOutput_loop snd RouteOutput_ ls_protocol].
    unfold LSRouting.RouteOutput. cbn [routing_header GetDestination h_destination].
    rewrite (proj2 (Z.eqb_neq _ _) Hmain), Hs, (runs_view _ _ Hruns). cbn [or_fault mbind result_bind].
    rewrite (route_made e j o (Z.of_nat (length p)) dest Hway). cbn [mbind result_bind fst].
    setoid_rewrite Hid. erewrite sent_out by done. by eexists.
  - cbn [m_gateway]. rewrite (proj2 (Z.eqb_neq _ _)).
    + setoid_rewrite Hid. erewrite sent_out by done. by eexists.
    + by destruct Hway as [_ _ _ _ (_ & ? & _) _].
Qed.
End ready.
End node.

(** ** The way of a packet through the network *)

Section network.
Context {SR : Type} `{!Ipv4RoutingProtocol SR} (seq : Z).
#[local] Hint Extern 0 (Ipv4RoutingProtocol (ListState (LSState _))) => exact (node_protocol seq) : typeclass_instances.

(** A network: the nodes' devices, stacks and protocols, and the cables. *)
Record Network := {
  nw_env : string -> NodeEnv;
  nw_stack : string -> L3 (ListState (LSState SR));
  nw_ls : string -> LSState SR;
  nw_wire : string -> NetDevice -> option (string * NetDevice)
}.
Implicit Types N : Network.

(** The nodes a packet received by [u] goes through, and the header and packet
    handed up at the end. *)
Fixpoint journey N (fuel : nat) (u : string) (device : NetDevice) (h : IpHeader) (p : Packet)
    : option (list string * IpHeader * Packet) :=
  match Receive (nw_env N u) (nw_stack N u) device h p with
  | Ok [DeliverUp h' p' _] => Some ([u], h', p')
  | Ok [DeviceSend d h' p' HwBroadcast] =>
      match fuel, nw_wire N u d with
      | Datatypes.S fuel', Some (v, d') => '(hops, h'', p'') ← journey N fuel' v d' h' p'; Some (u :: hops, h'', p'')
      | _, _ => None
      end
  | _ => None
  end.

(** [Ipv4L3Protocol::Send] at [s], then the way of the packet it sends. *)
Definition sent_journey N (fuel : nat) (s : string) (p : Packet) (source dest : Ipv4Address) (protocol : Z)
    (route : option Ipv4Route) : option (list string * IpHeader * Packet) :=
  match Ipv4Stack.Send (nw_env N s) None p source dest protocol route (nw_stack N s) with
  | Ok (_, [DeviceSend d h' p' HwBroadcast]) =>
      match nw_wire N s d with
      | Some (v, d') => '(hops, h'', p'') ← journey N fuel v d' h' p'; Some (s :: hops, h'', p'')
      | None => None
      end
  | _ => None
  end.

(** The nodes of the LS table run their protocols; [x] is the one that has the
    address [dest]; and for every other node the way of its entry for [x] is a
    cable to the next hop. *)
Record cabled N (L : stdmap string LSTableEntry) (x : string) (dest : Ipv4Address) (size : Z) : Prop := {
  cb_runs u : is_Some (map_find u L) -> runs (nw_env N u) (nw_stack N u) (nw_ls N u);
  cb_name u : is_Some (map_find u L) -> ReverseLookup (nw_ls N u) dest = x;
  cb_owner u k : is_Some (map_find u L) -> (k < length (m_interfaces (nw_stack N u)))%nat ->
    Ipv4Stack.IsDestinationAddress (nw_stack N u) dest (Z.of_nat k) = Ok (String.eqb x u);
  cb_unicast : IsMulticast dest = false /\ IsLocalMulticast dest = false /\ IsBroadcast dest = false;
  cb_way u e : is_Some (map_find u L) -> x <> u -> SearchTable (nw_ls N u) dest = Some e ->
    exists j o d k i, way_out (nw_env N u) (nw_stack N u) e j o size /\
      nw_wire N u (m_device o) = Some (ReverseLookup (nw_ls N u) (rt_nextHopAddr e), d) /\
      on_device (nw_stack N (ReverseLookup (nw_ls N u) (rt_nextHopAddr e))) k d i
}.

Section travel.
Context N L M x dest size (C : converged (nw_ls N) L M) (B : cabled N L x dest size) (Hx : is_Some (map_find x L)).
Notation cost := (route_cost (nw_ls N) x).

Lemma journey_ok n u device k i h (p : Packet) :
  is_Some (map_find u L) -> on_device (nw_stack N u) k device i ->
  h_destination h = dest -> h_payloadSize h = Z.of_nat (length p) -> Z.of_nat (length p) = size ->
  (forall v, is_Some (map_find v L) -> cost v <= cost u -> IsOwnAddress (nw_ls N v) (h_source h) = false) ->
  cost u <= Z.of_nat n -> Z.of_nat n < h_ttl h <= 255 ->
  exists tl, forward (nw_ls N) n u dest = Some (u :: tl) /\
    journey N n u device h p = Some (u :: tl, SetTtl (h_ttl h - Z.of_nat (length tl)) h, p) /\
    Z.of_nat (length tl) <= cost u.
Proof using C B Hx.
  revert u device k i h; induction n as [|n IH]; intros u device k i h Hu Hon Hd Hps Hsz Hsrc Hc Httl;
    cbn [forward journey]; rewrite (cb_name _ _ _ _ _ B u Hu).
  all: assert (k < length (m_interfaces (nw_stack N u)))%nat as Hk by (destruct Hon as [Hk _]; by eapply lookup_lt_Some).
  all: pose proof (cb_owner _ _ _ _ _ B u k Hu Hk) as Hown; pose proof (cb_runs _ _ _ _ _ B u Hu) as Hruns.
  all: destruct (String.eqb_spec x u) as [<-|Hne].
  1,3: rewrite (node_delivers _ seq _ _ Hruns device k i) by (rewrite ?Hd; done || by destruct (cb_unicast _ _ _ _ _ B));
    exists []; cbn; rewrite Z.sub_0_r; (split_and!; [done|by destruct h|]);
    pose proof (converged_shortest _ _ _ C x Hx) as (_ & Hkeys & Hs); rewrite (cv_ls _ _ _ C x Hx) in Hkeys;
    destruct (proj2 (Hkeys x) Hx) as [e He]; unfold route_cost; rewrite He;
    destruct (Hs x e He) as ((Hp & _) & _); apply path_cost in Hp; [lia|by apply C].
  - destruct (next_hop _ _ _ C u x) as (e & _ & _ & ?); [done..|lia].
  - destruct (next_hop _ _ _ C u x) as (e & He & Hnh & Hcost); [done..|].
    assert (SearchTable (nw_ls N u) dest = Some e) as Hs.
    { unfold SearchTable. by rewrite (cb_name _ _ _ _ _ B u Hu). }
    rewrite Hs. destruct (cb_way _ _ _ _ _ B u e Hu Hne Hs) as (j & o & d & k' & i' & Hway & Hwire & Hon').
    rewrite <- Hsz in Hway.
    rewrite (node_forwards _ seq _ _ Hruns device k i h p e j o) by (rewrite ?Hd; done || (apply Hsrc; [done|lia]) || lia).
    rewrite Hwire. cbn zeta in *.
    destruct (IH _ d k' i' (SetTtl (h_ttl h - 1) h) Hnh Hon') as (tl & Hf & Hj & Hl); [done..| |lia|cbn; lia|].
    { intros v Hv Hcv. apply Hsrc; [done|lia]. }
    eexists. rewrite Hf, Hj. cbn [mbind option_bind]. split_and!; [done| |cbn; lia].
    cbn [length SetTtl h_ttl]. unfold SetTtl. cbn. do 4 f_equal. lia.
Qed.
End travel.

(** (C2) A packet crosses the network.  The nodes agree on the LS table and the
    names, hold the routes [Dijkstra] computes, and the interfaces of their
    routes lead to the neighbours the routes name.  Then a packet that the
    transport layer of [s] hands down for an address of another node [x], with
    the route it asked for or without one, leaves [s], is handed on by exactly
    the nodes of the path the routing tables give, and goes up at [x]: the
    payload unchanged, the header as [s] built it except for the TTL, which is
    decremented by every node between the two.  This holds while the cost of
    the route of [s] is less than the TTL. *)
Theorem packet_delivered N L M s x dest (p : Packet) source protocol route n
  (C : converged (nw_ls N) L M) (B : cabled N L x dest (Z.of_nat (length p)))
  (Hs : is_Some (map_find s L)) (Hx : is_Some (map_find x L)) (Hne : x <> s)
  (Hsource : forall v, is_Some (map_find v L) -> v <> s -> IsOwnAddress (nw_ls N v) source = false)
  (Hbroadcast : broadcast_interface dest (m_interfaces (nw_stack N s)) = None)
  (Hroute : route = None \/ exists rp header err err', m_routingProtocol (nw_stack N s) = Some rp /\
    GetDestination header = dest /\ RouteOutput_ rp p header None err = Ok (route, err'))
  (Hcost : route_cost (nw_ls N) x s <= Z.of_nat (Datatypes.S n) < m_defaultTtl (nw_stack N s))
  (Httl : m_defaultTtl (nw_stack N s) <= 255) (Hsize : Z.of_nat (length p) < 2 ^ 16) :
  exists hops h, forward (nw_ls N) (Datatypes.S n) s dest = Some (s :: hops) /\
    sent_journey N n s p source dest protocol route = Some (s :: hops, h, p) /\
    last hops = Some x /\ NoDup (s :: hops) /\
    h = mkIpHeader source dest protocol (Z.of_nat (length p))
      (m_defaultTtl (nw_stack N s) - (Z.of_nat (length hops) - 1)) (m_identification (nw_stack N s)).
Proof.
  pose proof (cb_runs _ _ _ _ _ B s Hs) as Hruns.
  destruct (next_hop _ _ _ C s x) as (e & He & Hnh & Hlt); [done..|]. cbn zeta in *.
  assert (forall v, is_Some (map_find v L) -> ReverseLookup (nw_ls N v) dest = x) as Hname by by apply (cb_name _ _ _ _ _ B).
  assert (SearchTable (nw_ls N s) dest = Some e) as Hse by (unfold SearchTable; by rewrite Hname).
  destruct (cb_way _ _ _ _ _ B s e Hs Hne Hse) as (j & o & d & k & i & Hway & Hwire & Hon).
  assert (dest <> m_mainAddress (nw_ls N s)) as Hmain.
  { intros ->. apply Hne. rewrite <- (Hname s Hs). apply (cv_self _ _ _ C s Hs). }
  destruct (cb_unicast _ _ _ _ _ B) as (_ & Hlm & Hb).
  assert (route ∈ [None; Some (mkRoute dest (m_mainAddress (nw_ls N s)) (rt_nextHopAddr e) (m_device o))]) as Hr.
  { destruct Hroute as [->|(rp & header & err & err' & Hrp & <- & Hout)]; [left|].
    destruct (runs_protocol _ _ _ Hruns) as [priority Hp]. rewrite Hp in Hrp. injection Hrp as <-.
    eapply (RouteOutput_answer _ seq) in Hout; [|done..]. rewrite Hout. right; left. }
  destruct (node_sends _ seq _ _ Hruns None p source dest protocol route e j o Hb Hlm Hbroadcast Hmain Hse Hway Hr) as [st' Hsend].
  set (h := mkIpHeader source dest protocol (Z.of_nat (length p)) (m_defaultTtl (nw_stack N s)) (m_identification (nw_stack N s))).
  cbn [BuildHeader fst] in Hsend. rewrite (u16_small (Z.of_nat (length p))) in Hsend by (unfold is_u16; lia). fold h in Hsend.
  destruct (journey_ok N L M x dest _ C B Hx n _ d k i h p Hnh Hon) as (tl & Hf & Hj & Hl); [done..| |lia|cbn; lia|].
  { intros v Hv Hcv. apply Hsource; [done|]. intros ->. lia. }
  destruct (forward_ok _ _ _ C (Datatypes.S n) s x dest Hs Hx Hname) as (tl' & Hf' & Hl' & Hnd & _); [lia|].
  assert (tl' = ReverseLookup (nw_ls N s) (rt_nextHopAddr e) :: tl) as ->.
  { cbn [forward] in Hf'. rewrite Hname, Hse, Hf in Hf' by done. destruct (String.eqb_spec x s); [done|]. by injection Hf'. }
  eexists _, _. split_and!; [done| |exact Hl'|done|].
  - unfold sent_journey. rewrite Hsend, Hwire, Hj. done.
  - unfold SetTtl. cbn. f_equal. lia.
Qed.
End network.

(** A fallback protocol that knows no route. *)
#[local] Instance no_routes : Ipv4RoutingProtocol unit := {|
  new_protocol := tt;
  RouteOutput_ _ _ _ _ _ := Ok (None, ERROR_NOROUTETOHOST);
  RouteInput_ M _ _ _ _ _ := Ok (false, []);
  NotifyInterfaceUp_ _ := Ok;
  NotifyInterfaceDown_ _ := Ok;
  NotifyAddAddress_ _ _ := Ok;
  NotifyRemoveAddress_ _ _ := Ok;
  SetIpv4_ _ := Ok;
  StackChanged_ _ s := s |}.

(** The triangle of LSForwarding with cables: node 1 to node 2 (device 1 to
    device 2), node 2 to node 3 (device 1 to device 1). *)
Definition triangle_base (u : string) : L3 (ListState (LSState unit)) :=
  let iface device a := mkInterface device [MakeInterfaceAddress a 0xffffff00] true true 1 in
  mkL3 (if String.eqb u "1" then [mkInterface 0 [loop_addr] true true 1; iface 1 addr1]
        else if String.eqb u "2" then [mkInterface 0 [loop_addr] true true 1; iface 1 addr2; iface 2 0x0a000902]
        else [mkInterface 0 [loop_addr] true true 1; iface 1 addr3]) None true true 64 7.
Definition triangle_view (u : string) : option Ipv4 :=
  Some (view p2p_env (triangle_base u)).
Definition triangle_stack (u : string) : L3 (ListState (LSState unit)) :=
  set_routingProtocol (Some (mkList [(10, triangle_net triangle_view u)] (triangle_view u))) (triangle_base u).
Definition triangle_cables : Network (SR := unit) := {|
  nw_env _ := p2p_env; nw_stack := triangle_stack; nw_ls := triangle_net triangle_view;
  nw_wire u d := if String.eqb u "1" then Some ("2"%string, 2) else if String.eqb u "2" then Some ("3"%string, 1) else None |}.

Lemma triangle_cabled : cabled triangle_cables triangle "3" addr3 3.
Proof.
  split; cbn [triangle_cables nw_env nw_stack nw_ls nw_wire].
  - apply triangle_nodes; (split; [by exists 10|reflexivity|apply (bool_decide_unpack _); reflexivity|reflexivity]).
  - apply triangle_nodes; reflexivity.
  - intros u k Hu. revert k. pattern u. revert u Hu. apply triangle_nodes; intros k Hk; cbn in Hk;
      do 3 (destruct k as [|k]; [reflexivity||lia|]); lia.
  - by split_and!.
  - intros u e Hu. revert e. pattern u. revert u Hu. apply triangle_nodes; intros e Hne He; [| |done];
      vm_compute in He; injection He as <-.
    + exists 1%nat, (mkInterface 1 [MakeInterfaceAddress addr1 0xffffff00] true true 1), 2, 2%nat,
        (mkInterface 2 [MakeInterfaceAddress 0x0a000902 0xffffff00] true true 1).
      split; [by split|]. by split.
    + exists 1%nat, (mkInterface 1 [MakeInterfaceAddress addr2 0xffffff00] true true 1), 1, 1%nat,
        (mkInterface 1 [MakeInterfaceAddress addr3 0xffffff00] true true 1).
      split; [by split|]. by split.
Qed.

Lemma packet_delivered_witness : exists h,
  sent_journey 0 triangle_cables 1 "1" [1; 2; 3] addr1 addr3 17 None = Some (["1"; "2"; "3"]%string, h, [1; 2; 3]) /\
  h = mkIpHeader addr1 addr3 17 3 63 7.
Proof.
  destruct (packet_delivered 0 triangle_cables triangle [(addr1, 1); (addr2, 2); (addr3, 3)] "1" "3" addr3 [1; 2; 3]
    addr1 17 None 1) as (hops & h & Hf & Hj & _ & _ & Hh).
  - apply triangle_converged.
  - apply triangle_cabled.
  - eexists; reflexivity.
  - eexists; reflexivity.
  - discriminate.
  - apply (triangle_nodes (fun v => v <> "1"%string -> IsOwnAddress (nw_ls triangle_cables v) addr1 = false));
      [intros []; reflexivity|reflexivity|reflexivity].
  - reflexivity.
  - left; reflexivity.
  - vm_compute. split; congruence.
  - vm_compute. congruence.
  - vm_compute. reflexivity.
  - vm_compute in Hf. injection Hf as <-. exists h. split; [exact Hj|]. exact Hh.
Defined.
