(* ===== verification/AddressGenerator.v ===== *)
(** * AddressGenerator: the allocation of IP addresses

    src/ns-3/src/node/ipv4-address-generator.cc (one object of
    [Ipv4AddressGeneratorImpl], the simulation's singleton) and the counters of
    src/ns-3/src/helper/ipv4-address-helper.cc.  NS_ABORT_MSG_UNLESS is
    [FatalError]. *)

From S2P Require Import Prelude Ipv4Address.

(** ** [Ipv4AddressGeneratorImpl] *)

Definition N_BITS : Z := 32.
Definition MOST_SIGNIFICANT_BIT : Z := 0x80000000.

Definition abort_unless (b : bool) : result unit := if b then Ok tt else Fault FatalError.

Module Generator.

Record NetworkState := mkNetworkState { mask : Z; shift : Z; network : Z; addr : Z; addrMax : Z }.
Record Entry := mkEntry { addrLow : Z; addrHigh : Z }.
Record State := mkState { m_netTable : list NetworkState; m_entries : list Entry; m_test : bool }.

Definition set_table (t : list NetworkState) (st : State) : State := mkState t (m_entries st) (m_test st).
Definition set_entries (l : list Entry) (st : State) : State := mkState (m_netTable st) l (m_test st).
Definition set_network (n : Z) (s : NetworkState) : NetworkState := mkNetworkState (mask s) (shift s) n (addr s) (addrMax s).
Definition set_addr (a : Z) (s : NetworkState) : NetworkState := mkNetworkState (mask s) (shift s) (network s) a (addrMax s).

(** The rows from [i] on, with [mask] the local variable; [rounds] rows are
    left. *)
Fixpoint Reset_loop (rounds : nat) (i mask : Z) : list NetworkState :=
  match rounds with
  | O => []
  | S rounds' =>
      let mask' := Z.lor (Z.shiftr mask 1) MOST_SIGNIFICANT_BIT in
      mkNetworkState mask (N_BITS - i) 1 1 (u32 (Z.lnot mask')) :: Reset_loop rounds' (i + 1) mask'
  end.
Definition Reset : State := mkState (Reset_loop 32 0 0) [] false.
Definition TestMode (st : State) : State := mkState (m_netTable st) (m_entries st) true.

Fixpoint MaskToIndex_loop (rounds : nat) (i maskBits : Z) : result Z :=
  match rounds with
  | O => Fault AssertFailed
  | S rounds' =>
      if negb (Z.land maskBits 1 =? 0) then
        let index := N_BITS - i in
        _ ← abort_unless ((0 <? index) && (index <? N_BITS)); Ok index
      else MaskToIndex_loop rounds' (i + 1) (Z.shiftr maskBits 1)
  end.
Definition MaskToIndex (mask : Ipv4Mask) : result Z := MaskToIndex_loop 32 0 mask.

(** [m_netTable[index]]. *)
Definition row (index : Z) (st : State) : result NetworkState := m_netTable st !! Z.to_nat index ?? OutOfRange.
Definition set_row (index : Z) (s : NetworkState) (st : State) : State :=
  set_table (<[Z.to_nat index := s]> (m_netTable st)) st.

Definition network_address (s : NetworkState) : Ipv4Address := u32 (Z.shiftl (network s) (shift s)).

Definition Init (net : Ipv4Address) (mask : Ipv4Mask) (addr : Ipv4Address) (st : State) : result State :=
  _ ← abort_unless (Z.land net (u32 (Z.lnot mask)) =? 0);
  _ ← abort_unless (Z.land addr mask =? 0);
  index ← MaskToIndex mask;
  s ← row index st;
  let s := set_network (Z.shiftr net (shift s)) s in
  _ ← abort_unless (addr <=? addrMax s);
  Ok (set_row index (set_addr addr s) st).

Definition GetNetwork (mask : Ipv4Mask) (st : State) : result Ipv4Address :=
  index ← MaskToIndex mask; s ← row index st; Ok (network_address s).

Definition NextNetwork (mask : Ipv4Mask) (st : State) : result (Ipv4Address * State) :=
  index ← MaskToIndex mask;
  s ← row index st;
  let s := set_network (u32 (network s + 1)) s in
  Ok (network_address s, set_row index s st).

Definition InitAddress (addr : Ipv4Address) (mask : Ipv4Mask) (st : State) : result State :=
  index ← MaskToIndex mask;
  s ← row index st;
  _ ← abort_unless (addr <=? addrMax s);
  Ok (set_row index (set_addr addr s) st).

Definition GetAddress (mask : Ipv4Mask) (st : State) : result Ipv4Address :=
  index ← MaskToIndex mask; s ← row index st; Ok (Z.lor (network_address s) (addr s)).

Definition collision (test : bool) (l : list Entry) : result (bool * list Entry) :=
  if test then Ok (false, l) else Fault FatalError.

(** The loop over the blocks, with what it returns and the blocks it leaves. *)
Fixpoint AddAllocated_loop (test : bool) (addr : Z) (l : list Entry) : result (bool * list Entry) :=
  match l with
  | [] => Ok (true, [mkEntry addr addr])
  | i :: l' =>
      if (addrLow i <=? addr) && (addr <=? addrHigh i) then collision test l
      else if addr <? u32 (addrLow i - 1) then Ok (true, mkEntry addr addr :: l)
      else if addr =? u32 (addrHigh i + 1) then
        match l' with
        | j :: _ => if addr =? addrLow j then collision test l else Ok (true, mkEntry (addrLow i) addr :: l')
        | [] => Ok (true, [mkEntry (addrLow i) addr])
        end
      else if addr =? u32 (addrLow i - 1) then Ok (true, mkEntry addr (addrHigh i) :: l')
      else '(b, l') ← AddAllocated_loop test addr l'; Ok (b, i :: l')
  end.
Definition AddAllocated (address : Ipv4Address) (st : State) : result (bool * State) :=
  _ ← abort_unless (negb (address =? 0));
  '(b, l) ← AddAllocated_loop (m_test st) address (m_entries st);
  Ok (b, set_entries l st).

Definition NextAddress (mask : Ipv4Mask) (st : State) : result (Ipv4Address * State) :=
  index ← MaskToIndex mask;
  s ← row index st;
  _ ← abort_unless (addr s <=? addrMax s);
  let a := Z.lor (network_address s) (addr s) in
  '(_, st) ← AddAllocated a (set_row index (set_addr (u32 (addr s + 1)) s) st);
  Ok (a, st).

End Generator.

(** ** [Ipv4AddressHelper] without [Assign] *)

Module Helper.

Record State := mkHelper { m_network : Z; m_mask : Z; m_address : Z; m_base : Z; m_shift : Z; m_max : Z }.

Definition create : State := mkHelper 0xffffffff 0 0xffffffff 0xffffffff 0xffffffff 0xffffffff.

Fixpoint NumAddressBits_loop (rounds : nat) (i maskbits : Z) : result Z :=
  match rounds with
  | O => Fault AssertFailed
  | S rounds' =>
      if negb (Z.land maskbits 1 =? 0) then Ok i else NumAddressBits_loop rounds' (i + 1) (Z.shiftr maskbits 1)
  end.
Definition NumAddressBits (maskbits : Z) : result Z := NumAddressBits_loop 32 0 maskbits.

(** [1 << m_shift] is an [int]; for a shift of 31 it overflows, here it
    wraps. *)
Definition SetBase (network : Ipv4Address) (mask : Ipv4Mask) (address : Ipv4Address) : result State :=
  _ ← assert (Z.land network (u32 (Z.lnot mask)) =? 0);
  shift ← NumAddressBits mask;
  _ ← assert (shift <=? 32);
  Ok (mkHelper (Z.shiftr network shift) mask address address shift (u32 (u32 (Z.shiftl 1 shift) - 2))).

Definition NewAddress (h : State) (g : Generator.State) : result (Ipv4Address * State * Generator.State) :=
  _ ← assert (m_address h <=? m_max h);
  let addr := Z.lor (u32 (Z.shiftl (m_network h) (m_shift h))) (m_address h) in
  '(_, g) ← Generator.AddAllocated addr g;
  Ok (addr, mkHelper (m_network h) (m_mask h) (u32 (m_address h + 1)) (m_base h) (m_shift h) (m_max h), g).

Definition NewNetwork (h : State) : Ipv4Address * State :=
  let n := u32 (m_network h + 1) in
  (u32 (Z.shiftl n (m_shift h)), mkHelper n (m_mask h) (m_base h) (m_base h) (m_shift h) (m_max h)).

End Helper.

(** ** The set of allocated addresses *)

Import Generator.

(** Ascending blocks above [lo] that do not overlap. *)
Fixpoint blocks (lo : Z) (l : list Entry) : Prop :=
  match l with
  | [] => True
  | e :: l' => lo < addrLow e /\ addrLow e <= addrHigh e /\ addrHigh e < 2 ^ 32 /\ blocks (addrHigh e) l'
  end.

Definition allocated (a : Z) (l : list Entry) : Prop := Exists (fun e => addrLow e <= a <= addrHigh e) l.

Lemma allocated_above lo l a : blocks lo l -> allocated a l -> lo < a.
Proof.
  revert lo; induction l as [|e l IH]; intros lo Hb; [by intros ?%Exists_nil|].
  cbn in Hb. destruct Hb as (H1 & H2 & H3 & Hb). intros [H|H]%Exists_cons; [lia|]. specialize (IH _ Hb H). lia.
Qed.

Lemma allocated_cons a e l : allocated a (e :: l) <-> addrLow e <= a <= addrHigh e \/ allocated a l.
Proof. unfold allocated. by rewrite Exists_cons. Qed.

Lemma allocated_nil a : allocated a [] <-> False.
Proof. unfold allocated. by rewrite Exists_nil. Qed.

Lemma blocks_weaken lo lo' l : lo' <= lo -> blocks lo l -> blocks lo' l.
Proof. destruct l; cbn; [done|]. intros ? (? & ?). split; [lia|done]. Qed.

(** What [AddAllocated] does to the set. *)
Lemma AddAllocated_loop_spec test a l lo :
  0 <= lo -> blocks lo l -> lo < a < 2 ^ 32 ->
  (allocated a l /\ AddAllocated_loop test a l = collision test l) \/
  (~ allocated a l /\ exists l', AddAllocated_loop test a l = Ok (true, l') /\ blocks lo l' /\
    forall b, allocated b l' <-> b = a \/ allocated b l).
Proof.
  intros Hlo. revert lo Hlo; induction l as [|i l IH]; intros lo Hlo Hb Ha; cbn [AddAllocated_loop].
  { right. split; [by intros ?%Exists_nil|]. eexists; split; [done|]. split; [cbn; lia|].
    intros b. rewrite allocated_cons. cbn. split; [|intros [->|?]; [lia|tauto]].
    intros [?|?]; [left; lia|by right]. }
  cbn [blocks] in Hb. destruct Hb as (H1 & H2 & H3 & Hb).
  rewrite (u32_small (addrLow i - 1)) by (unfold is_u32; lia).
  destruct (Z.leb_spec (addrLow i) a) as [Hl|Hl]; cbn [andb].
  - destruct (Z.leb_spec a (addrHigh i)) as [Hh|Hh].
    { left. split; [|done]. rewrite allocated_cons. left; lia. }
    rewrite (proj2 (Z.ltb_ge _ _)) by lia. rewrite (u32_small (addrHigh i + 1)) by (unfold is_u32; lia).
    destruct (Z.eqb_spec a (addrHigh i + 1)) as [E|E].
    + destruct l as [|j l].
      * right. split; [rewrite allocated_cons; intros [?|?%Exists_nil]; [lia|done]|]. eexists; split; [done|].
        split; [cbn; lia|]. intros b. rewrite !allocated_cons, allocated_nil. cbn. lia.
      * destruct (Z.eqb_spec a (addrLow j)) as [Ej|Ej]; cbn [blocks] in Hb.
        { left. split; [|done]. rewrite !allocated_cons. right; left; lia. }
        right. split.
        -- rewrite !allocated_cons. intros [?|[?|H]]; [lia|lia|].
           apply (allocated_above (addrHigh j)) in H; [lia|tauto].
        -- eexists; split; [done|]. split; [cbn; intuition lia|].
           intros b. rewrite !(allocated_cons b _ (j :: l)). cbn [addrLow addrHigh].
           split; [intros [?|?]|intros [?|[?|?]]]; [destruct (decide (b = a)); [by left|right; left; lia]|tauto|left; lia|left; lia|tauto].
    + rewrite (proj2 (Z.eqb_neq a (addrLow i - 1))) by lia.
      destruct (IH (addrHigh i)) as [(Hin & ->)|(Hin & l' & -> & Hb' & Hs)]; [lia|done|lia|..].
      * left. split; [rewrite allocated_cons; by right|]. by destruct test.
      * right. split; [rewrite allocated_cons; intros [?|?]; [lia|done]|]. eexists; split; [done|]. split; [cbn; tauto|].
        intros b. rewrite !allocated_cons, Hs. tauto.
  - assert (~ allocated a (i :: l)) as Hn.
    { rewrite allocated_cons. intros [?|H]; [lia|]. apply (allocated_above (addrHigh i)) in H; [lia|done]. }
    right. split; [done|]. destruct (Z.ltb_spec a (addrLow i - 1)) as [Hlt|Hge].
    + eexists; split; [done|]. split; [cbn; intuition lia|].
      intros b. rewrite (allocated_cons b (mkEntry a a)). cbn [addrLow addrHigh].
      split; (intros [?|?]; [left; lia|by right]).
    + assert (a = addrLow i - 1) as -> by lia. rewrite Z.eqb_refl.
      assert (addrLow i - 1 <> u32 (addrHigh i + 1)) as Hne%Z.eqb_neq.
      { unfold u32. destruct (decide (addrHigh i = 2 ^ 32 - 1)) as [->|]; [|rewrite Z.mod_small; lia].
        change ((2 ^ 32 - 1 + 1) mod 2 ^ 32) with 0. lia. }
      rewrite Hne. eexists; split; [done|]. split; [cbn; intuition lia|].
      intros b. rewrite !allocated_cons. cbn [addrLow addrHigh].
      split; [intros [?|?]|intros [?|[?|?]]]; [destruct (decide (b = addrLow i - 1)); [by left|right; left; lia]|tauto|left; lia|left; lia|tauto].
Qed.
