(* ===== verification/AddressSpec.v ===== *)
(** * AddressSpec: allocation as a set

    The blocks of ipv4-address-generator.cc stand for the set of the addresses
    allocated; and the range of addresses the generator hands out. *)

From stdpp Require Import gmap.
From S2P Require Import Prelude Ipv4Address AddressGenerator.
Import Generator.

(** ** Requests one after the other *)

Fixpoint add_all (addrs : list Ipv4Address) (st : State) : result (list bool * State) :=
  match addrs with
  | [] => Ok ([], st)
  | a :: addrs' =>
      '(b, st) ← AddAllocated a st; '(bs, st) ← add_all addrs' st; Ok (b :: bs, st)
  end.

(** The specification: a set of addresses, and whether a request is for a new
    one. *)
Fixpoint set_answers (seen : gset Z) (addrs : list Ipv4Address) : list bool :=
  match addrs with
  | [] => []
  | a :: addrs' => bool_decide (a ∉ seen) :: set_answers ({[a]} ∪ seen) addrs'
  end.

(** The blocks of [st] stand for the set [seen]. *)
Definition stands_for (st : State) (seen : gset Z) : Prop :=
  blocks 0 (m_entries st) /\ forall b, allocated b (m_entries st) <-> b ∈ seen.

Lemma AddAllocated_set st seen a :
  stands_for st seen -> 0 < a < 2 ^ 32 ->
  if decide (a ∈ seen) then AddAllocated a st = (if m_test st then Ok (false, st) else Fault FatalError)
  else exists st', AddAllocated a st = Ok (true, st') /\ stands_for st' ({[a]} ∪ seen) /\
    m_test st' = m_test st /\ m_netTable st' = m_netTable st.
Proof.
  intros [Hb Hs] Ha. unfold AddAllocated. rewrite (proj2 (Z.eqb_neq a 0)) by lia. cbn [negb abort_unless mbind result_bind].
  destruct (AddAllocated_loop_spec (m_test st) a (m_entries st) 0) as [(Hin & ->)|(Hin & l & -> & Hb' & Hs')]; [lia|done|lia|..].
  - rewrite decide_True by by apply Hs. unfold collision. destruct st as [t l []]; done.
  - rewrite decide_False by by rewrite <- Hs. cbn [mbind result_bind]. eexists; split; [done|]. split; [|done].
    split; [done|]. intros b. cbn. rewrite Hs', Hs. set_solver.
Qed.

Lemma add_all_set addrs st seen :
  stands_for st seen -> Forall (fun a => 0 < a < 2 ^ 32) addrs ->
  if m_test st || bool_decide (NoDup addrs /\ Forall (fun a => a ∉ seen) addrs)
  then exists st', add_all addrs st = Ok (set_answers seen addrs, st') /\ stands_for st' (list_to_set addrs ∪ seen)
  else add_all addrs st = Fault FatalError.
Proof.
  revert st seen; induction addrs as [|a addrs IH]; intros st seen Hs Hall; cbn [add_all set_answers].
  { rewrite bool_decide_true, orb_true_r.
    - exists st. split; [done|]. cbn. by rewrite (left_id_L ∅ (∪)).
    - by split; constructor. }
  apply Forall_cons in Hall as [Ha Hall]. pose proof (AddAllocated_set st seen a Hs Ha) as Hadd.
  case_decide as Hin.
  - rewrite (bool_decide_false (NoDup (a :: addrs) /\ _)), orb_false_r.
    + rewrite (bool_decide_false (a ∉ seen)) by tauto. rewrite Hadd. destruct (m_test st) eqn:Ht; [|done].
      cbn [mbind result_bind]. specialize (IH st seen Hs Hall). rewrite Ht in IH. cbn [orb] in IH.
      replace ({[a]} ∪ seen) with seen by set_solver. destruct IH as (st' & -> & Hs'). exists st'.
      split; [done|]. by replace (list_to_set (a :: addrs) ∪ seen) with (list_to_set (C := gset Z) addrs ∪ seen) by set_solver.
    + by intros [_ [H _]%Forall_cons].
  - destruct Hadd as (st1 & -> & Hs1 & Ht & _). cbn [mbind result_bind]. rewrite (bool_decide_true (a ∉ seen)) by done.
    specialize (IH st1 ({[a]} ∪ seen) Hs1 Hall). rewrite Ht in IH.
    replace (bool_decide (NoDup (a :: addrs) /\ Forall (fun x => x ∉ seen) (a :: addrs)))
      with (bool_decide (NoDup addrs /\ Forall (fun x => x ∉ {[a]} ∪ seen) addrs)).
    + destruct (m_test st || _); [|by rewrite IH]. destruct IH as (st' & -> & Hs'). exists st'. split; [done|].
      by replace (list_to_set (a :: addrs) ∪ seen) with (list_to_set (C := gset Z) addrs ∪ ({[a]} ∪ seen)) by set_solver.
    + apply bool_decide_ext. rewrite NoDup_cons, Forall_cons, !Forall_forall. set_solver.
Qed.

(** (C21) Allocation is membership in a set.  Requests to [AddAllocated] on a
    new generator, for addresses other than 0: in test mode every request is
    answered, with [true] exactly for addresses not allocated before; in normal
    operation the requests succeed exactly when no address occurs twice, and
    otherwise end in the fatal error "Address Collision".  The blocks then
    cover exactly the addresses requested. *)
Theorem allocation_is_a_set addrs (Haddrs : Forall (fun a => 0 < a < 2 ^ 32) addrs) :
  (exists st, add_all addrs (TestMode Reset) = Ok (set_answers ∅ addrs, st) /\
     forall b, allocated b (m_entries st) <-> b ∈ addrs) /\
  (if bool_decide (NoDup addrs)
   then exists st, add_all addrs Reset = Ok (replicate (length addrs) true, st) /\
     forall b, allocated b (m_entries st) <-> b ∈ addrs
   else add_all addrs Reset = Fault FatalError).
Proof.
  assert (forall st, m_entries st = [] -> stands_for st ∅) as Hempty.
  { intros st Hst. split; rewrite Hst; [done|]. intros b. rewrite allocated_nil. set_solver. }
  assert (forall b, b ∈ list_to_set (C := gset Z) addrs ∪ ∅ <-> b ∈ addrs) as Hset by set_solver.
  split.
  - destruct (add_all_set addrs (TestMode Reset) ∅) as (st & -> & Hs); [by apply Hempty|done|].
    exists st. split; [done|]. intros b. rewrite <- Hset. apply Hs.
  - pose proof (add_all_set addrs Reset ∅ (Hempty Reset eq_refl) Haddrs) as H. cbn [m_test Reset orb] in H.
    replace (bool_decide (NoDup addrs)) with (bool_decide (NoDup addrs /\ Forall (fun a => a ∉ (∅ : gset Z)) addrs))
      by (apply bool_decide_ext; rewrite Forall_forall; set_solver).
    revert H. case_bool_decide as Hc; case_bool_decide; [|done|done|done]. intros (st & -> & Hs). destruct Hc as [Hnd _]. exists st. split; [|intros b; rewrite <- Hset; apply Hs]. do 2 f_equal.
    clear -Hnd. assert (Forall (fun a => a ∉ (∅ : gset Z)) addrs) as Hnew by (apply Forall_forall; set_solver).
    revert Hnew; generalize (∅ : gset Z). induction Hnd as [|a addrs Ha Hnd IH]; intros seen Hnew; [done|].
    apply Forall_cons in Hnew as [Hna Hnew]. cbn. rewrite bool_decide_true by done. f_equal. apply IH.
    rewrite Forall_forall in *. set_solver.
Qed.

Lemma allocation_is_a_set_witness :
  (exists st, add_all [5; 10; 4; 6; 10; 7] (TestMode Reset) = Ok ([true; true; true; true; false; true], st)) /\
  add_all [5; 10; 4; 5] Reset = Fault FatalError.
Proof.
  split.
  - destruct (allocation_is_a_set [5; 10; 4; 6; 10; 7]) as [(st & H & _) _].
    + repeat (apply Forall_cons; split; [lia|]). apply Forall_nil. exact I.
    + exists st. exact H.
  - refine (proj2 (allocation_is_a_set [5; 10; 4; 5] _)).
    repeat (apply Forall_cons; split; [lia|]). apply Forall_nil. exact I.
Defined.

(** ** Ranges of addresses *)

(** The mask of [n] ones. *)
Definition prefix_mask (n : Z) : Ipv4Mask := 2 ^ 32 - 2 ^ (32 - n).

Lemma mask_rows n : 1 <= n <= 31 ->
  MaskToIndex (prefix_mask n) = Ok n /\ Helper.NumAddressBits (prefix_mask n) = Ok (32 - n) /\
  u32 (Z.lnot (prefix_mask n)) = 2 ^ (32 - n) - 1 /\
  row n Reset = Ok (mkNetworkState (prefix_mask n) (32 - n) 1 1 (2 ^ (31 - n) - 1)).
Proof.
  intros Hn. cut (Forall (fun n => MaskToIndex (prefix_mask n) = Ok n /\ Helper.NumAddressBits (prefix_mask n) = Ok (32 - n) /\
    u32 (Z.lnot (prefix_mask n)) = 2 ^ (32 - n) - 1 /\
    row n Reset = Ok (mkNetworkState (prefix_mask n) (32 - n) 1 1 (2 ^ (31 - n) - 1))) (seqZ 1 31)).
  - rewrite Forall_forall. intros H. apply H, elem_of_seqZ. lia.
  - repeat (apply Forall_cons; split; [by vm_compute|]). by apply Forall_nil.
Qed.

(** A network number in its place, and a host number below it. *)
Lemma land_low x a n : 0 <= n -> 0 <= a < 2 ^ n -> Z.land (x * 2 ^ n + a) (2 ^ n - 1) = a.
Proof.
  intros Hn Ha. replace (2 ^ n - 1) with (Z.ones n) by (rewrite Z.ones_equiv; lia).
  rewrite Z.land_ones by lia. rewrite Z.add_comm, Z.mod_add by lia. apply Z.mod_small; lia.
Qed.

Section range.
Context (n k : Z) (Hn : 1 <= n <= 31) (Hk : 0 <= k < 2 ^ n).
Notation base := (k * 2 ^ (32 - n)).

Lemma base_range : 0 <= base /\ base + 2 ^ (32 - n) <= 2 ^ 32.
Proof using Hn Hk.
  replace (2 ^ 32) with (2 ^ n * 2 ^ (32 - n)) by (rewrite <- Z.pow_add_r by lia; f_equal; lia).
  pose proof (Z.pow_pos_nonneg 2 (32 - n) ltac:(lia) ltac:(lia)). nia.
Qed.

Lemma base_net : u32 (Z.shiftl k (32 - n)) = base.
Proof using Hn Hk.
  rewrite Z.shiftl_mul_pow2 by lia. apply u32_small. pose proof base_range.
  pose proof (Z.pow_pos_nonneg 2 (32 - n) ltac:(lia) ltac:(lia)). unfold is_u32; lia.
Qed.

Lemma base_host a : 0 <= a < 2 ^ (32 - n) -> Z.lor (u32 (Z.shiftl k (32 - n))) a = base + a.
Proof using Hn Hk.
  intros Ha. rewrite base_net. rewrite <- (lor_shiftl_add k a (32 - n)) by lia.
  by rewrite Z.shiftl_mul_pow2 by lia.
Qed.

(** The generator at network [k], host [a], with nothing allocated from there
    on in the network. *)
Definition at_host (a : Z) (st : State) : Prop :=
  (exists m, row n st = Ok (mkNetworkState m (32 - n) k a (2 ^ (31 - n) - 1))) /\
  (exists seen, stands_for st seen /\ forall b, base + a <= b < base + 2 ^ (32 - n) -> b ∉ seen).

Lemma row_set_row i s st : is_ok (row i st) = true -> row i (set_row i s st) = Ok s.
Proof.
  unfold row, set_row. cbn. destruct (m_netTable st !! Z.to_nat i) as [s0|] eqn:E; [|done]. intros _.
  by rewrite list_lookup_insert_eq by by eapply lookup_lt_Some.
Qed.

Fixpoint next_addresses (m : nat) (st : State) : result (list Ipv4Address * State) :=
  match m with
  | O => Ok ([], st)
  | Datatypes.S m' =>
      '(a, st) ← NextAddress (prefix_mask n) st; '(l, st) ← next_addresses m' st; Ok (a :: l, st)
  end.

Lemma half_range : 2 * 2 ^ (31 - n) = 2 ^ (32 - n).
Proof using Hn. replace (32 - n) with (Z.succ (31 - n)) by lia. rewrite Z.pow_succ_r; lia. Qed.

Lemma next_addresses_spec m a st :
  at_host a st -> 0 <= a <= 2 ^ (31 - n) -> 0 < base + a ->
  if a + Z.of_nat m <=? 2 ^ (31 - n) then
    exists st', next_addresses m st = Ok (map (fun i => base + a + Z.of_nat i) (seq 0 m), st') /\ at_host (a + Z.of_nat m) st'
  else next_addresses m st = Fault FatalError.
Proof using Hn Hk.
  revert a st; induction m as [|m IH]; intros a st Hat Ha Hpos; cbn [next_addresses].
  { rewrite (proj2 (Z.leb_le _ _)) by lia. exists st. by rewrite Z.add_0_r. }
  pose proof half_range. pose proof base_range.
  destruct Hat as [[mask0 Hrow] (seen & Hs & Hfree)]. unfold NextAddress.
  destruct (mask_rows n Hn) as (-> & _). cbn [mbind result_bind]. rewrite Hrow. cbn [mbind result_bind addr addrMax].
  destruct (Z.leb_spec a (2 ^ (31 - n) - 1)) as [Hle|Hgt]; cbn [abort_unless mbind result_bind].
  2: { by rewrite (proj2 (Z.leb_gt _ _)) by lia. }
  unfold network_address. cbn [network shift]. rewrite base_host by lia.
  rewrite (u32_small (a + 1)) by (unfold is_u32; pose proof (Z.pow_le_mono_r 2 (31 - n) 30 ltac:(lia) ltac:(lia)); lia).
  set (s1 := set_addr (a + 1) _). pose proof (AddAllocated_set (set_row n s1 st) seen (base + a)) as Hadd.
  rewrite decide_False in Hadd by (apply Hfree; lia).
  destruct Hadd as (st1 & Hst1 & Hs1 & _ & Htab); [destruct Hs; by split|lia|].
  rewrite Hst1. cbn [mbind result_bind].
  assert (at_host (a + 1) st1) as Hat1.
  { split.
    - exists mask0. unfold row. rewrite Htab. apply (row_set_row n s1 st). by rewrite Hrow.
    - exists ({[base + a]} ∪ seen). split; [done|]. intros b Hb.
      specialize (Hfree b ltac:(lia)). apply not_elem_of_union. split; [|done].
      apply not_elem_of_singleton. lia. }
  specialize (IH (a + 1) st1 Hat1 ltac:(lia) ltac:(lia)).
  replace (a + 1 + Z.of_nat m) with (a + Z.of_nat (S m)) in IH by lia.
  destruct (a + Z.of_nat (S m) <=? 2 ^ (31 - n)); [|by rewrite IH].
  destruct IH as (st' & -> & Hat'). exists st'. split; [|done]. cbn [mbind result_bind seq map]. do 3 f_equal; [lia|].
  rewrite <- seq_shift, map_map. apply map_ext. intros i. lia.
Qed.
End range.

(** (C40) The range of a network.  On a new generator, [Init] with network
    number [k] under an [n]-bit mask and host number [a] is accepted exactly
    when [a] is below [2 ^ (31 - n)], and [NextAddress] then hands out the
    addresses from there on, each once, up to host number
    [2 ^ (31 - n) - 1]; the next request is the fatal error "Address overflow".
    So only half of the [2 ^ (32 - n)] addresses that the mask leaves can be
    had, although the limit is meant to be the inverse of the mask. *)
Theorem generator_range n k a m
  (Hn : 1 <= n <= 31) (Hk : 0 <= k < 2 ^ n) (Ha : 0 <= a < 2 ^ (32 - n)) (Hpos : 0 < k * 2 ^ (32 - n) + a) :
  let addresses := st ← Init (k * 2 ^ (32 - n)) (prefix_mask n) a Reset; next_addresses n m st in
  if (a <? 2 ^ (31 - n)) && (a + Z.of_nat m <=? 2 ^ (31 - n)) then
    exists st', addresses = Ok (map (fun i => k * 2 ^ (32 - n) + a + Z.of_nat i) (seq 0 m), st')
  else addresses = Fault FatalError.
Proof.
  cbn zeta. destruct (mask_rows n Hn) as (Hi & _ & Hnot & Hrow). pose proof (half_range n Hn).
  assert (Z.land (k * 2 ^ (32 - n)) (u32 (Z.lnot (prefix_mask n))) = 0) as H1.
  { rewrite Hnot. rewrite <- (Z.add_0_r (k * _)). apply land_low; lia. }
  assert (Z.land a (prefix_mask n) = 0) as H2.
  { unfold prefix_mask. replace (2 ^ 32 - 2 ^ (32 - n)) with (Z.shiftl (2 ^ n - 1) (32 - n)).
    - apply Z.bits_inj'. intros i Hi0. rewrite Z.land_spec, Z.bits_0, Z.shiftl_spec by done.
      destruct (Z.ltb_spec i (32 - n)) as [Hlt|Hge]; [by rewrite (Z.testbit_neg_r _ (i - (32 - n))), andb_false_r by lia|].
      replace (Z.testbit a i) with false; [done|]. symmetry. apply Z.testbit_false; [done|]. rewrite Z.div_small; [done|].
      pose proof (Z.pow_le_mono_r 2 (32 - n) i ltac:(lia) ltac:(lia)). lia.
    - rewrite Z.shiftl_mul_pow2 by lia. rewrite Z.mul_sub_distr_r, <- Z.pow_add_r by lia. f_equal; [f_equal; lia|lia]. }
  unfold Init. rewrite H1, H2, Hi. cbn [Z.eqb abort_unless mbind result_bind]. rewrite Hrow.
  cbn [mbind result_bind set_network addrMax shift]. rewrite Z.shiftr_div_pow2, Z.div_mul by lia.
  destruct (Z.leb_spec a (2 ^ (31 - n) - 1)) as [Hle|Hgt]; cbn [abort_unless mbind result_bind].
  2: { by rewrite (proj2 (Z.ltb_ge _ _)) by lia. }
  rewrite (proj2 (Z.ltb_lt _ _)) by lia. cbn [andb].
  pose proof (next_addresses_spec n k Hn Hk m a (set_row n (mkNetworkState (prefix_mask n) (32 - n) k a (2 ^ (31 - n) - 1)) Reset)) as H'.
  unfold set_addr. cbn. destruct (a + Z.of_nat m <=? 2 ^ (31 - n)).
  - destruct H' as (st' & -> & _); [|lia|lia|by exists st'].
    split; [eexists; apply row_set_row; by rewrite Hrow|]. exists ∅. split; [|set_solver].
    split; [done|]. intros b. cbn. rewrite allocated_nil. set_solver.
  - apply H'; [|lia|lia]. split; [eexists; apply row_set_row; by rewrite Hrow|]. exists ∅. split; [|set_solver].
    split; [done|]. intros b. cbn. rewrite allocated_nil. set_solver.
Qed.

(** 192.168.0.0/24: the last address is 192.168.0.127. *)
Lemma generator_range_witness :
  (exists st, (st ← Init (0xc0a800 * 256) (prefix_mask 24) 126 Reset; next_addresses 24 2 st) =
    Ok ([0xc0a8007e; 0xc0a8007f], st)) /\
  (st ← Init (0xc0a800 * 256) (prefix_mask 24) 126 Reset; next_addresses 24 3 st) = Fault FatalError.
Proof.
  split.
  - destruct (generator_range 24 0xc0a800 126 2 ltac:(lia) ltac:(lia) ltac:(lia) ltac:(lia)) as [st H].
    exists st. exact H.
  - exact (generator_range 24 0xc0a800 126 3 ltac:(lia) ltac:(lia) ltac:(lia) ltac:(lia)).
Defined.
