(* ===== verification/Configure.v ===== *)
(** * Configure: what the start of a simulation asks of the protocols

    The functions of simulator-main.cc and of the helpers call a protocol only
    through a few functions.  [AttachedProtocol] states what they may rely on;
    static routing, the two protocols of cs433 and lists of them provide it. *)

From S2P Require Import Prelude StdMap StdString Ipv4Address Node LSRouting DVRouting StaticRouting ListRouting.

(** Interface [i] and its addresses can be asked for. *)
Definition answers (ip : Ipv4) (i : Z) : Prop :=
  is_ok (IsUp ip i) = true /\
  exists n, GetNAddresses ip i = Ok n /\ forall j, 0 <= j < n -> is_ok (GetAddress ip i j) = true.

Lemma is_ok_exists {A} (m : result A) : is_ok m = true <-> exists a, m = Ok a.
Proof. destruct m; cbn; split; [by eexists|done|done|by intros [? ?]]. Qed.

(** What [main] sets on the protocols that are of cs433: their main interface
    and the two maps of names. *)
Class Cs433Protocol (S : Type) := {
  SetMainInterface_ : Z -> S -> result S;
  SetMaps_ : stdmap Z Ipv4Address -> stdmap Ipv4Address Z -> S -> result S;
  (* these protocols have main address [a] *)
  has_main : Ipv4Address -> S -> Prop;
  has_maps : stdmap Z Ipv4Address -> stdmap Ipv4Address Z -> S -> Prop
}.

(** [attached ip s]: the protocol holds the stack [ip]. *)
Class AttachedProtocol (S : Type) `{!Ipv4RoutingProtocol S} `{!Cs433Protocol S} := {
  attached : Ipv4 -> S -> Prop;
  fresh : S -> Prop;
  attached_set ip s : fresh s ->
    (forall i, 0 <= i < GetNInterfaces ip -> answers ip i /\ IsUp ip i = Ok true) ->
    exists s', SetIpv4_ ip s = Ok s' /\ attached ip s';
  attached_changed ip ip' s : attached ip s -> attached ip' (StackChanged_ ip' s);
  attached_up ip s i : attached ip s -> answers ip i ->
    exists s', NotifyInterfaceUp_ i s = Ok s' /\ attached ip s';
  attached_down ip s i : attached ip s ->
    exists s', NotifyInterfaceDown_ i s = Ok s' /\ attached ip s';
  attached_add ip s i a : attached ip s -> answers ip i ->
    exists s', NotifyAddAddress_ i a s = Ok s' /\ attached ip s';
  attached_main ip s j a : attached ip s -> GetAddress ip j 0 = Ok a ->
    exists s', SetMainInterface_ j s = Ok s' /\ attached ip s' /\ has_main (m_local a) s';
  attached_maps ip s m1 m2 a : attached ip s -> has_main a s ->
    exists s', SetMaps_ m1 m2 s = Ok s' /\ attached ip s' /\ has_main a s' /\ has_maps m1 m2 s'
}.
#[export] Hint Mode AttachedProtocol ! - - : typeclass_instances.

(** ** Static routing: nothing of it is configured *)

#[export] Instance static_cs433 : Cs433Protocol StaticState := {|
  SetMainInterface_ _ s := Ok s; SetMaps_ _ _ s := Ok s; has_main _ _ := True; has_maps _ _ _ := True |}.

Lemma static_up ip (s : StaticState) i : StaticRouting.m_ipv4 s = Some ip -> answers ip i ->
  exists s', StaticRouting.NotifyInterfaceUp i s = Ok s' /\ StaticRouting.m_ipv4 s' = Some ip.
Proof.
  intros Hip (_ & n & Hn & Ha). unfold StaticRouting.NotifyInterfaceUp, stack. rewrite Hip. cbn [or_fault mbind result_bind].
  rewrite Hn. cbn [mbind result_bind]. apply foldM_total; [|done].
  intros s1 j Hj%elem_of_seqZ Hs1. destruct (proj1 (is_ok_exists _) (Ha j ltac:(lia))) as [a ->]. cbn [mbind result_bind].
  destruct (_ && _); by eexists.
Qed.

(** Every index below the number of routes is one of a route. *)
Lemma static_down_loop ip rounds (s : StaticState) i j : StaticRouting.m_ipv4 s = Some ip -> 0 <= j ->
  exists s', StaticRouting.NotifyInterfaceDown_loop rounds i j s = Ok s' /\ StaticRouting.m_ipv4 s' = Some ip.
Proof.
  revert s j; induction rounds as [|rounds IH]; intros s j Hip Hj; cbn [StaticRouting.NotifyInterfaceDown_loop];
    (destruct (Z.ltb_spec j (GetNRoutes s)) as [Hlt|]; [|by exists s]); [by exists s|].
  assert (j < Z.of_nat (length (m_networkRoutes s))) as Hlen.
  { unfold GetNRoutes, u32 in Hlt. pose proof (Z.mod_le (Z.of_nat (length (m_networkRoutes s))) (2 ^ 32)). lia. }
  unfold GetRoute, RemoveRoute. destruct (lookup_lt_is_Some_2 (m_networkRoutes s) (Z.to_nat j)) as [r ->]; [lia|].
  cbn [or_fault mbind result_bind]. destruct (_ =? i); [by apply IH|]. apply IH; [done|].
  pose proof (u32_range (j + 1)) as Hr. unfold is_u32 in Hr. lia.
Qed.

#[export] Instance static_attached : AttachedProtocol StaticState.
Proof.
  refine {| attached ip s := StaticRouting.m_ipv4 s = Some ip; fresh s := StaticRouting.m_ipv4 s = None |}; cbn.
  - intros ip s Hs Hall. unfold StaticRouting.SetIpv4. rewrite Hs. cbn [assert mbind result_bind].
    apply foldM_total; [|done]. intros s1 i Hi%elem_of_seqZ Hs1. destruct (Hall i ltac:(lia)) as [Ha ->].
    cbn [mbind result_bind]. by apply static_up.
  - by intros ip ip' s ->.
  - intros ip s i. apply static_up.
  - intros ip s i Hip. by apply static_down_loop.
  - intros ip s i a Hip [[up Hup]%is_ok_exists _]. unfold StaticRouting.NotifyAddAddress, stack. rewrite Hip.
    cbn [or_fault mbind result_bind]. rewrite Hup. cbn [mbind result_bind]. destruct up; cbn [negb]; [|by eexists].
    destruct (_ && _); by eexists.
  - intros ip s j a Hip _. by exists s.
  - intros ip s m1 m2 a Hip _. by exists s.
Defined.

(** ** The protocols of cs433 *)

Section cs433.
Context {SR : Type} `{!Ipv4RoutingProtocol SR} `{!Cs433Protocol SR} `{!AttachedProtocol SR} (seq : Z).

#[local] Existing Instance ls_protocol.
#[local] Existing Instance dv_protocol.

Definition ls_cs433 : Cs433Protocol (LSState SR) := {|
  SetMainInterface_ j := run_state (LSRouting.SetMainInterface j);
  SetMaps_ m1 m2 := run_state (O := action LSMessage.LSMessage) (_ ← LSRouting.SetNodeAddressMap m1; LSRouting.SetAddressNodeMap m2);
  has_main a s := LSRouting.m_mainAddress s = a;
  has_maps m1 m2 s := LSRouting.m_nodeAddressMap s = m1 /\ LSRouting.m_addressNodeMap s = m2 |}.
Definition dv_cs433 : Cs433Protocol (DVState SR) := {|
  SetMainInterface_ j := run_state (DVRouting.SetMainInterface j);
  SetMaps_ m1 m2 := run_state (O := action DVMessage.DVMessage) (_ ← DVRouting.SetNodeAddressMap m1; DVRouting.SetAddressNodeMap m2);
  has_main a s := DVRouting.m_mainAddress s = a;
  has_maps m1 m2 s := DVRouting.m_nodeAddressMap s = m1 /\ DVRouting.m_addressNodeMap s = m2 |}.

(** A cs433 protocol is attached when it and its fallback are. *)
Definition ls_attached_to (ip : Ipv4) (s : LSState SR) : Prop :=
  LSRouting.m_ipv4 s = Some ip /\ exists sr, LSRouting.m_staticRouting s = Some sr /\ attached ip sr.
Definition ls_fresh (s : LSState SR) : Prop :=
  LSRouting.m_ipv4 s = None /\ exists sr, LSRouting.m_staticRouting s = Some sr /\ fresh sr.
Definition dv_attached_to (ip : Ipv4) (s : DVState SR) : Prop :=
  DVRouting.m_ipv4 s = Some ip /\ exists sr, DVRouting.m_staticRouting s = Some sr /\ attached ip sr.
Definition dv_fresh (s : DVState SR) : Prop :=
  DVRouting.m_ipv4 s = None /\ exists sr, DVRouting.m_staticRouting s = Some sr /\ fresh sr.

Ltac on_fallback H :=
  cbn; unfold run_state, LSRouting.SetIpv4, LSRouting.NotifyInterfaceUp, LSRouting.NotifyInterfaceDown, LSRouting.NotifyAddAddress, LSRouting.on_static,
    LSRouting.SetMainInterface, LSRouting.SetNodeAddressMap, LSRouting.SetAddressNodeMap,
    DVRouting.SetIpv4, DVRouting.NotifyInterfaceUp, DVRouting.NotifyInterfaceDown, DVRouting.NotifyAddAddress, DVRouting.on_static,
    DVRouting.SetMainInterface, DVRouting.SetNodeAddressMap, DVRouting.SetAddressNodeMap, modifyM, modify;
  rewrite ?H; cbn.

Definition ls_attached : @AttachedProtocol (LSState SR) (ls_protocol seq) ls_cs433.
Proof using All.
  refine (@Build_AttachedProtocol _ (ls_protocol seq) ls_cs433 ls_attached_to ls_fresh _ _ _ _ _ _ _).
  - intros ip s (Hip & sr & Hsr & Hf) Hall. destruct (attached_set ip sr Hf Hall) as (sr' & Heq & Ha).
    on_fallback Hsr. rewrite Heq. cbn. eexists; split; [done|]. by split; [|exists sr'].
  - intros ip ip' s (Hip & sr & Hsr & Ha). cbn. unfold ls_stack_changed. rewrite Hip, Hsr. split; [done|].
    eexists; split; [done|]. by eapply attached_changed.
  - intros ip s i (Hip & sr & Hsr & Ha) Hi. destruct (attached_up ip sr i Ha Hi) as (sr' & Heq & Ha').
    on_fallback Hsr. rewrite Heq. cbn. eexists; split; [done|]. by split; [|exists sr'].
  - intros ip s i (Hip & sr & Hsr & Ha). destruct (attached_down ip sr i Ha) as (sr' & Heq & Ha').
    on_fallback Hsr. rewrite Heq. cbn. eexists; split; [done|]. by split; [|exists sr'].
  - intros ip s i a (Hip & sr & Hsr & Ha) Hi. destruct (attached_add ip sr i a Ha Hi) as (sr' & Heq & Ha').
    on_fallback Hsr. rewrite Heq. cbn. eexists; split; [done|]. by split; [|exists sr'].
  - intros ip s j a (Hip & sr & Hsr & Ha) Hj. on_fallback Hip. rewrite Hj. cbn. eexists; split; [done|].
    split; [|done]. by split; [|exists sr].
  - intros ip s m1 m2 a (Hip & sr & Hsr & Ha) Hm. eexists; split; [done|]. split; [by split; [|exists sr]|]. by split.
Defined.

Definition dv_attached : @AttachedProtocol (DVState SR) (dv_protocol seq) dv_cs433.
Proof using All.
  refine (@Build_AttachedProtocol _ (dv_protocol seq) dv_cs433 dv_attached_to dv_fresh _ _ _ _ _ _ _).
  - intros ip s (Hip & sr & Hsr & Hf) Hall. destruct (attached_set ip sr Hf Hall) as (sr' & Heq & Ha).
    on_fallback Hsr. rewrite Heq. cbn. eexists; split; [done|]. by split; [|exists sr'].
  - intros ip ip' s (Hip & sr & Hsr & Ha). cbn. unfold dv_stack_changed. rewrite Hip, Hsr. split; [done|].
    eexists; split; [done|]. by eapply attached_changed.
  - intros ip s i (Hip & sr & Hsr & Ha) Hi. destruct (attached_up ip sr i Ha Hi) as (sr' & Heq & Ha').
    on_fallback Hsr. rewrite Heq. cbn. eexists; split; [done|]. by split; [|exists sr'].
  - intros ip s i (Hip & sr & Hsr & Ha). destruct (attached_down ip sr i Ha) as (sr' & Heq & Ha').
    on_fallback Hsr. rewrite Heq. cbn. eexists; split; [done|]. by split; [|exists sr'].
  - intros ip s i a (Hip & sr & Hsr & Ha) Hi. destruct (attached_add ip sr i a Ha Hi) as (sr' & Heq & Ha').
    on_fallback Hsr. rewrite Heq. cbn. eexists; split; [done|]. by split; [|exists sr'].
  - intros ip s j a (Hip & sr & Hsr & Ha) Hj. on_fallback Hip. rewrite Hj. cbn. eexists; split; [done|].
    split; [|done]. by split; [|exists sr].
  - intros ip s m1 m2 a (Hip & sr & Hsr & Ha) Hm. eexists; split; [done|]. split; [by split; [|exists sr]|]. by split.
Defined.
End cs433.

(** ** Lists of protocols *)

Section list_attached.
Context {P : Type} `{!Ipv4RoutingProtocol P} `{!Cs433Protocol P} `{!AttachedProtocol P}.

#[export] Instance list_cs433 : Cs433Protocol (ListState P) := {|
  SetMainInterface_ j := on_all (SetMainInterface_ j);
  SetMaps_ m1 m2 := on_all (SetMaps_ m1 m2);
  has_main a s := Forall (fun e => has_main a e.2) (m_routingProtocols s);
  has_maps m1 m2 s := Forall (fun e => has_maps m1 m2 e.2) (m_routingProtocols s) |}.

Lemma each_spec (Q R : P -> Prop) f (l : list (Z * P)) :
  (forall p, Q p -> exists p', f p = Ok p' /\ R p') -> Forall (fun e => Q e.2) l ->
  exists l', each f l = Ok l' /\ Forall (fun e => R e.2) l'.
Proof.
  intros Hf Hl. unfold each. rewrite Forall_forall in Hl.
  apply (foldM_total (Forall (fun e => R e.2))); [|constructor].
  intros acc [pr p] Hin Hacc. destruct (Hf p (Hl _ Hin)) as (p' & Hfp & Hp'). cbn [snd fst]. rewrite Hfp. cbn [mbind result_bind].
  eexists; split; [done|]. apply Forall_app. split; [done|]. by repeat constructor.
Qed.

Lemma on_all_spec (Q R : P -> Prop) f (s : ListState P) :
  (forall p, Q p -> exists p', f p = Ok p' /\ R p') -> Forall (fun e => Q e.2) (m_routingProtocols s) ->
  exists s', on_all f s = Ok s' /\ Forall (fun e => R e.2) (m_routingProtocols s') /\ m_ipv4 s' = m_ipv4 s.
Proof.
  intros Hf Hl. destruct (each_spec Q R f _ Hf Hl) as (l & Heq & Hr). unfold on_all. rewrite Heq.
  eexists; split; [done|]. by split.
Qed.

Definition list_attached_to (ip : Ipv4) (s : ListState P) : Prop :=
  m_ipv4 s = Some ip /\ Forall (fun e => attached ip e.2) (m_routingProtocols s).

#[export] Instance list_attached : AttachedProtocol (ListState P).
Proof using All.
  refine {| attached := list_attached_to;
    fresh s := m_ipv4 s = None /\ Forall (fun e => fresh e.2) (m_routingProtocols s) |}.
  - intros ip s [Hip Hl] Hall. cbn. unfold SetIpv4. rewrite Hip. cbn [assert mbind result_bind].
    destruct (on_all_spec fresh (attached ip) (SetIpv4_ ip) s) as (s' & -> & Hs' & _); [|done|].
    { intros p Hp. by apply attached_set. }
    eexists; split; [done|]. by split.
  - intros ip ip' s [Hip Hl]. split; cbn; rewrite ?Hip; [done|]. apply Forall_map.
    eapply Forall_impl; [exact Hl|]. intros e He. cbn in *. exact (attached_changed ip ip' e.2 He).
  - intros ip s i [Hip Hl] Hi. destruct (on_all_spec (attached ip) (attached ip) (NotifyInterfaceUp_ i) s) as (s' & Heq & Hs' & Hip');
      [intros p Hp; by apply attached_up|done|]. exists s'. split; [exact Heq|]. split; [congruence|done].
  - intros ip s i [Hip Hl]. destruct (on_all_spec (attached ip) (attached ip) (NotifyInterfaceDown_ i) s) as (s' & Heq & Hs' & Hip');
      [intros p Hp; by apply attached_down|done|]. exists s'. split; [exact Heq|]. split; [congruence|done].
  - intros ip s i a [Hip Hl] Hi. destruct (on_all_spec (attached ip) (attached ip) (NotifyAddAddress_ i a) s) as (s' & Heq & Hs' & Hip');
      [intros p Hp; by apply attached_add|done|]. exists s'. split; [exact Heq|]. split; [congruence|done].
  - intros ip s j a [Hip Hl] Hj.
    destruct (on_all_spec (attached ip) (fun p => attached ip p /\ has_main (m_local a) p) (SetMainInterface_ j) s) as (s' & Heq & Hs' & Hip');
      [intros p Hp; by apply attached_main|done|].
    apply Forall_and in Hs' as [H1 H2]. exists s'. split; [exact Heq|]. split; [split; [congruence|done]|done].
  - intros ip s m1 m2 a [Hip Hl] Hm.
    destruct (on_all_spec (fun p => attached ip p /\ has_main a p) (fun p => attached ip p /\ has_main a p /\ has_maps m1 m2 p)
      (SetMaps_ m1 m2) s) as (s' & Heq & Hs' & Hip').
    + intros p [Hp Hm']. by apply attached_maps.
    + by apply Forall_and.
    + apply Forall_and in Hs' as [H1 [H2 H3]%Forall_and]. exists s'. split; [exact Heq|]. split; [split; [congruence|done]|done].
Defined.
End list_attached.
