(* ===== verification/AddressPlan.v ===== *)
(** * AddressPlan: the start of a simulation

    Ipv4AddressHelper::Assign (src/ns-3/src/helper/ipv4-address-helper.cc),
    InternetStackHelper::Install (internet-stack-helper.cc, the IPv4 part),
    Ipv4ListRoutingHelper::Create (ipv4-list-routing-helper.cc), and the part
    of [main] (src/ns-3/cs433/simulator-main.cc) that gives the nodes of a
    topology their addresses and the routing protocols their names. *)

From S2P Require Import Prelude StdMap StdString Ipv4Address AddressGenerator Node Ipv4Stack ListRouting Configure.

Section plan.
Context {S : Type} `{!Ipv4RoutingProtocol S} `{!Cs433Protocol S} (env : NodeEnv).

(** The stack of a node whose loopback device is [loopback]. *)
Definition InstallStack (loopback : NetDevice) (routing : S) : result (L3 S) :=
  st ← SetupLoopback env loopback MakeIpv4L3Protocol;
  SetRoutingProtocol env routing st.

(** The addresses given out so far and the stacks of all nodes. *)
Record Simulation := mkSimulation {
  s_helper : Helper.State;
  s_generator : Generator.State;
  s_stacks : list (L3 S)
}.

(** One round of [Assign]: a device of node [node]; the result is the interface
    that goes into the container returned.  [int32_t interface] takes the
    number of a new interface, which must stay below [2 ^ 31]. *)
Definition Assign_device (sim : Simulation) (node : Z) (device : NetDevice) : result (Z * Simulation) :=
  ipv4 ← s_stacks sim !! Z.to_nat node ?? AssertFailed;
  let found := GetInterfaceForDevice ipv4 device in
  let '(interface, ipv4) := if found =? -1 then AddInterface env device ipv4 else (found, ipv4) in
  _ ← assert ((0 <=? interface) && (interface <? 2 ^ 31));
  '(addr, helper, generator) ← Helper.NewAddress (s_helper sim) (s_generator sim);
  ipv4 ← AddAddress env interface (MakeInterfaceAddress addr (Helper.m_mask helper)) ipv4;
  ipv4 ← SetMetric env interface 1 ipv4;
  ipv4 ← SetUp env interface ipv4;
  Ok (interface, mkSimulation helper generator (<[Z.to_nat node := ipv4]> (s_stacks sim))).

(** The container returned holds nodes and interfaces. *)
Definition Assign (c : list (Z * NetDevice)) (sim : Simulation) : result (list (Z * Z) * Simulation) :=
  foldM (fun '(retval, sim) d =>
    '(interface, sim) ← Assign_device sim d.1 d.2; Ok (retval ++ [(d.1, interface)], sim)) ([], sim) c.

(** A link of the topology: its nodes and the devices [PointToPointHelper]
    installed for it. *)
Record Link := mkLink { from : Z; to : Z; devA : NetDevice; devB : NetDevice }.
Definition ndc (l : Link) : list (Z * NetDevice) := [(from l, devA l); (to l, devB l)].

(** "Create subnets for each couple of nodes". *)
Definition assign_links (links : list Link) (sim : Simulation) : result Simulation :=
  foldM (fun sim l =>
    '(_, sim) ← Assign (ndc l) sim;
    Ok (mkSimulation (Helper.NewNetwork (s_helper sim)).2 (s_generator sim) (s_stacks sim))) sim links.

(** "Assigning Main IP addresses": interface [j] of node [i]. *)
Record Names := mkNames {
  g_nodeAddressMap : stdmap Z Ipv4Address;
  g_addressNodeMap : stdmap Ipv4Address Z
}.

Definition on_routing (f : S -> result S) (ipv4 : L3 S) : result (L3 S) :=
  match m_routingProtocol ipv4 with
  | Some r => r ← f r; Ok (set_routingProtocol (Some r) ipv4)
  | None => Fault NullDeref
  end.

Definition name_interface (i : Z) (acc : Names * L3 S * bool) (j : Z) : result (Names * L3 S * bool) :=
  let '(names, ipv4, mainSet) := acc in
  address ← GetAddress ipv4 j 0;
  let addr := m_local address in
  if addr =? GetLoopback then Ok acc
  else
    let names := mkNames (g_nodeAddressMap names) (map_insert addr i (g_addressNodeMap names)) in
    if mainSet : bool then Ok (names, ipv4, true)
    else
      let names := mkNames (map_insert i addr (g_nodeAddressMap names)) (g_addressNodeMap names) in
      ipv4 ← on_routing (SetMainInterface_ j) ipv4; Ok (names, ipv4, true).

Definition name_node (acc : Names * list (L3 S)) (i : Z) : result (Names * list (L3 S)) :=
  let '(names, stacks) := acc in
  ipv4 ← stacks !! Z.to_nat i ?? NullDeref;
  '(names, ipv4, _) ← foldM (name_interface i) (names, ipv4, false) (seqZ 0 (GetNInterfaces ipv4));
  Ok (names, <[Z.to_nat i := ipv4]> stacks).

Definition name_nodes (stacks : list (L3 S)) : result (Names * list (L3 S)) :=
  foldM name_node (mkNames [] [], stacks) (seqZ 0 (Z.of_nat (length stacks))).

(** "Assign node-address map". *)
Definition set_maps (names : Names) (stacks : list (L3 S)) : result (list (L3 S)) :=
  foldM (fun stacks i =>
    ipv4 ← stacks !! Z.to_nat i ?? NullDeref;
    ipv4 ← on_routing (SetMaps_ (g_nodeAddressMap names) (g_addressNodeMap names)) ipv4;
    Ok (<[Z.to_nat i := ipv4]> stacks)) stacks (seqZ 0 (Z.of_nat (length stacks))).

(** "Create real node container": node numbers are looked up in a map filled
    from the links. *)
Definition check_nodes (totalNodes : Z) (links : list Link) : result unit :=
  foldM (fun _ i => if existsb (fun l => (from l =? i) || (to l =? i)) links then Ok tt else Fault FatalError) tt
    (seqZ 0 totalNodes).

(** The stacks of all nodes, their loopback devices and new routing protocols
    given; then addresses, names and maps. *)
Definition start (nodes : list (NetDevice * S)) (links : list Link) : result (Names * Simulation) :=
  _ ← (if Z.of_nat (length links) =? 0 then Fault FatalError else Ok tt);
  stacks ← foldM (fun stacks n => st ← InstallStack n.1 n.2; Ok (stacks ++ [st])) [] nodes;
  helper ← Helper.SetBase (AsciiToIpv4Host "10.0.0.0") (AsciiToIpv4Host "255.255.255.0") (AsciiToIpv4Host "0.0.0.1");
  _ ← check_nodes (Z.of_nat (length nodes)) links;
  sim ← assign_links links (mkSimulation helper Generator.Reset stacks);
  '(names, stacks) ← name_nodes (s_stacks sim);
  stacks ← set_maps names stacks;
  Ok (names, mkSimulation (s_helper sim) (s_generator sim) stacks).
End plan.
Arguments Simulation S : clear implicits.
