(* ===== verification/PlanSpec.v ===== *)
(** * PlanSpec: the start of a simulation gives every node its names

    Every link gets a network of its own, every node an interface for each of
    its links, and the maps of names that the protocols are told are those the
    network theorems of the protocols assume. *)

From stdpp Require Import gmap.
From S2P Require Import Prelude StdMap StdString Ipv4Address AddressGenerator AddressSpec Node LSRouting StaticRouting StaticSpec Ipv4Stack StackSpec ListRouting Configure AddressPlan DVNetwork.

Lemma insert_snoc {A} (l : list A) x y : <[length l := y]> (l ++ [x]) = l ++ [y].
Proof. induction l as [|z l IH]; [done|]. cbn. f_equal. exact IH. Qed.

(** The mask of the links' networks. *)
Notation net_mask := (AsciiToIpv4Host "255.255.255.0").

(** ** Stacks and the protocols attached to them *)

Section stacks.
Context {S : Type} `{!Ipv4RoutingProtocol S} `{!Cs433Protocol S} `{!AttachedProtocol S} (env : NodeEnv).
Implicit Types st : L3 S.

Definition holds st : Prop := exists r, m_routingProtocol st = Some r /\ attached (view env st) r.
(** The protocol's view may be an old one. *)
Definition held st : Prop := exists r ip, m_routingProtocol st = Some r /\ attached ip r.

Lemma holds_held st : holds st -> held st.
Proof. intros (r & Hr & Ha). by exists r, (view env st). Qed.

(** Two stacks with the same interfaces and settings. *)
Definition same_stack st st' : Prop :=
  m_interfaces st' = m_interfaces st /\ m_ipForward st' = m_ipForward st /\
  m_weakEsModel st' = m_weakEsModel st /\ m_defaultTtl st' = m_defaultTtl st.

Lemma refresh_holds st : held st -> holds (refresh env st) /\ same_stack st (refresh env st).
Proof.
  intros (r & ip & Hr & Ha). split; [|by split_and!]. unfold refresh, holds. rewrite Hr. cbn.
  eexists; split; [done|]. exact (attached_changed ip (view env st) r Ha).
Qed.

Lemma notify_holds f st :
  held st -> (forall r, attached (view env st) r -> exists r', f r = Ok r' /\ attached (view env st) r') ->
  exists st', notify env f st = Ok st' /\ holds st' /\ same_stack st st'.
Proof.
  intros H Hf. destruct (refresh_holds st H) as [(r & Hr & Ha) _]. unfold notify. rewrite Hr.
  destruct (Hf r Ha) as (r' & -> & Ha'). cbn [mbind result_bind]. eexists; split; [done|].
  split; [|by split_and!]. exists r'. by split.
Qed.

Lemma answers_view st k i : m_interfaces st !! Z.to_nat k = Some i -> Z.of_nat (length (m_ifaddrs i)) < 2 ^ 32 ->
  answers (view env st) k.
Proof.
  intros Hk Hn. unfold answers. cbn. unfold IsUp, GetNAddresses, GetAddress, interface_at, GetInterface. rewrite Hk. cbn.
  split; [done|]. unfold Interface.GetNAddresses. eexists; split; [done|]. intros j Hj.
  rewrite u32_small in Hj by (unfold is_u32; lia). unfold Interface.GetAddress.
  destruct (lookup_lt_is_Some_2 (m_ifaddrs i) (Z.to_nat j)) as [a ->]; [lia|done].
Qed.

(** The interface added last. *)
Lemma change_last st l x f k : m_interfaces st = l ++ [x] -> k = Z.of_nat (length l) ->
  change_interface k f st = Ok (set_interfaces (l ++ [f x]) st).
Proof.
  intros Hl ->. unfold change_interface, interface_at, GetInterface. rewrite Nat2Z.id, Hl.
  rewrite lookup_app_r, Nat.sub_diag by done. cbn. by rewrite insert_snoc.
Qed.

Lemma last_answers st l x k : m_interfaces st = l ++ [x] -> k = Z.of_nat (length l) ->
  Z.of_nat (length (m_ifaddrs x)) < 2 ^ 32 -> answers (view env st) k.
Proof.
  intros Hl -> Hx. apply (answers_view st _ x); [|done]. rewrite Nat2Z.id, Hl. by rewrite lookup_app_r, Nat.sub_diag.
Qed.

(** An address added to the last interface, its metric set, and set up. *)
Lemma configure_last st l x a k :
  m_interfaces st = l ++ [x] -> k = Z.of_nat (length l) -> m_ifaddrs x = [] -> held st ->
  exists st', (st ← AddAddress env k a st; st ← SetMetric env k 1 st; SetUp env k st) = Ok st' /\ holds st' /\
    m_interfaces st' = l ++ [mkInterface (m_device x) [a] true (m_forwarding x) 1] /\
    m_ipForward st' = m_ipForward st /\ m_defaultTtl st' = m_defaultTtl st.
Proof.
  intros Hl Hk Hx Hh. unfold AddAddress. rewrite (change_last st l x _ k) by done. cbn [mbind result_bind].
  set (st1 := set_interfaces _ st). assert (held st1) as Hh1 by done.
  assert (answers (view env st1) k) as Han.
  { apply (last_answers st1 l (Interface.AddAddress a x)); [done..|]. cbn. rewrite Hx. cbn. lia. }
  destruct (notify_holds (NotifyAddAddress_ k a) st1 Hh1) as (st2 & -> & Hh2 & Hi2 & Hf2 & _ & Ht2).
  { intros r Hr. by apply attached_add. }
  cbn [mbind result_bind]. unfold SetMetric. rewrite (change_last st2 l (Interface.AddAddress a x) _ k) by done.
  cbn [mbind result_bind]. set (st3 := set_interfaces _ st2).
  destruct (refresh_holds st3) as [Hh4 (Hi4 & Hf4 & _ & Ht4)]; [by apply holds_held in Hh2|].
  unfold SetUp. rewrite (change_last (refresh env st3) l (Interface.SetMetric 1 (Interface.AddAddress a x)) _ k) by done.
  cbn [mbind result_bind]. set (st5 := set_interfaces _ (refresh env st3)).
  assert (answers (view env st5) k) as Han5.
  { eapply (last_answers st5 l); [done..|]. cbn. rewrite Hx. cbn. lia. }
  destruct (notify_holds (NotifyInterfaceUp_ k) st5) as (st6 & -> & Hh6 & Hi6 & Hf6 & _ & Ht6).
  { by apply holds_held in Hh4. }
  { intros r Hr. by apply attached_up. }
  exists st6. split; [done|]. split; [done|]. split; [|split].
  - rewrite Hi6. unfold st5, Interface.SetUp. cbn. by rewrite Hx.
  - rewrite Hf6. cbn. by rewrite Hf2.
  - rewrite Ht6. cbn. by rewrite Ht2.
Qed.

(** ** The interfaces of a node *)

Definition lo_iface (loopback : NetDevice) : Ipv4Interface :=
  mkInterface loopback [MakeInterfaceAddress GetLoopback Mask_GetLoopback] true true 1.
(** The end of a link: its device and address. *)
Definition end_iface (e : NetDevice * Ipv4Address) : Ipv4Interface :=
  mkInterface e.1 [MakeInterfaceAddress e.2 net_mask] true true 1.

(** A node with the loopback interface and an interface for every end. *)
Definition has_ends (lo : NetDevice) (ends : list (NetDevice * Ipv4Address)) st : Prop :=
  m_interfaces st = lo_iface lo :: map end_iface ends /\ m_ipForward st = true /\ m_defaultTtl st = 64 /\ holds st.

Lemma InstallStack_spec lo r : fresh r -> exists st, InstallStack env lo r = Ok st /\ has_ends lo [] st.
Proof.
  intros Hr. unfold InstallStack. set (st1 := mkL3 [lo_iface lo] None true true 64 0 : L3 S).
  change (SetupLoopback env lo MakeIpv4L3Protocol) with (Ok st1). cbn [mbind result_bind]. unfold SetRoutingProtocol.
  destruct (attached_set (view env st1) r Hr) as (r' & -> & Ha).
  - intros i Hi. change (Node.GetNInterfaces (view env st1)) with 1 in Hi. assert (i = 0) as -> by lia. split; [|done].
    apply (answers_view st1 0 (lo_iface lo)); [done|cbn; lia].
  - eexists; split; [done|]. split_and!; [done..|]. exists r'. by split.
Qed.

Lemma find_interface_none f n (l : list Ipv4Interface) : (forall i, i ∈ l -> f i = false) -> find_interface f n l = -1.
Proof.
  revert n; induction l as [|x l IH]; intros n Hf; [done|]. cbn. rewrite (Hf x) by left. apply IH. intros i Hi. apply Hf. by right.
Qed.

Notation bound := (2 ^ 31 - 2).

(** The helper at host number [a] of network [k], with everything allocated
    below. *)
Definition helper_at (k a : Z) (h : Helper.State) (g : Generator.State) : Prop :=
  h = Helper.mkHelper k net_mask a 1 8 254 /\ Generator.m_test g = false /\
  exists seen, stands_for g seen /\ forall b, b ∈ seen -> b < k * 256 + a.

Lemma NewAddress_spec k a h g : helper_at k a h g -> 0 <= k < 2 ^ 24 -> 1 <= a <= 254 ->
  exists g', Helper.NewAddress h g = Ok (k * 256 + a, Helper.mkHelper k net_mask (a + 1) 1 8 254, g') /\
    helper_at k (a + 1) (Helper.mkHelper k net_mask (a + 1) 1 8 254) g'.
Proof.
  intros (-> & Ht & seen & Hs & Hb) Hk Ha. unfold Helper.NewAddress. cbn [Helper.m_address Helper.m_max Helper.m_network Helper.m_shift].
  rewrite (proj2 (Z.leb_le a 254)) by lia. cbn [assert mbind result_bind].
  pose proof (base_host 24 k ltac:(lia) ltac:(lia) a ltac:(cbn; lia)) as Hlor. change (32 - 24) with 8 in Hlor. rewrite Hlor.
  change (2 ^ 8) with 256. pose proof (AddAllocated_set g seen (k * 256 + a) Hs ltac:(lia)) as Hadd.
  rewrite decide_False in Hadd by (intros H; specialize (Hb _ H); lia).
  destruct Hadd as (g' & -> & Hs' & Ht' & _). cbn [mbind result_bind]. exists g'. split.
  - cbn [Helper.m_mask Helper.m_base Helper.m_address]. rewrite u32_small by (unfold is_u32; lia). done.
  - split; [done|]. split; [congruence|]. eexists; split; [exact Hs'|].
    intros b [->%elem_of_singleton|Hin]%elem_of_union; [lia|]. specialize (Hb b Hin). lia.
Qed.

Lemma Assign_device_spec stacks h g k a v device lo ends st :
  helper_at k a h g -> 0 <= k < 2 ^ 24 -> 1 <= a <= 254 ->
  stacks !! Z.to_nat v = Some st -> has_ends lo ends st ->
  device <> lo -> device ∉ map fst ends -> Z.of_nat (length ends) < bound ->
  exists st' g', Assign_device env (mkSimulation h g stacks) v device =
      Ok (Z.of_nat (length ends) + 1, mkSimulation (Helper.mkHelper k net_mask (a + 1) 1 8 254) g' (<[Z.to_nat v := st']> stacks)) /\
    has_ends lo (ends ++ [(device, k * 256 + a)]) st' /\
    helper_at k (a + 1) (Helper.mkHelper k net_mask (a + 1) 1 8 254) g'.
Proof.
  intros Hh Hk Ha Hst (Hi & Hf & Ht & Hholds) Hlo Hdev Hlen. unfold Assign_device. cbn [s_stacks s_helper s_generator]. rewrite Hst.
  cbn [or_fault mbind result_bind]. unfold GetInterfaceForDevice. rewrite find_interface_none.
  2: { rewrite Hi. intros i [->|[e [-> He]]%list_elem_of_fmap]%elem_of_cons; apply Z.eqb_neq; cbn; [congruence|].
       intros E. apply Hdev. apply list_elem_of_fmap. exists e. by rewrite E. }
  rewrite Z.eqb_refl. unfold AddInterface, AddIpv4Interface.
  assert (Z.of_nat (length (m_interfaces st)) = Z.of_nat (length ends) + 1) as Hn by (rewrite Hi; cbn; rewrite length_map; lia).
  rewrite Hn, u32_small by (unfold is_u32; lia). set (n := Z.of_nat (length ends) + 1) in *.
  set (st1 := set_interfaces _ st). rewrite (proj2 (Z.leb_le 0 n)) by lia. rewrite (proj2 (Z.ltb_lt n (2 ^ 31))) by lia.
  cbn [andb assert mbind result_bind].
  destruct (NewAddress_spec k a h g Hh Hk Ha) as (g' & -> & Hh'). cbn [mbind result_bind Helper.m_mask].
  destruct (refresh_holds st1) as [Hh1 (Hi1 & Hf1 & _ & Ht1)]; [by apply holds_held in Hholds|].
  destruct (configure_last (refresh env st1) (m_interfaces st) (Interface.SetForwarding (m_ipForward st) (Interface.create device))
    (MakeInterfaceAddress (k * 256 + a) net_mask) n) as (st' & Heq & Hst' & Hi' & Hf' & Ht'); [done|by rewrite Hn|done|by apply holds_held|].
  change (m_interfaces (refresh env st1)) with (m_interfaces st1) in *.
  apply bind_Ok in Heq as (s1 & -> & Heq). cbn [mbind result_bind].
  apply bind_Ok in Heq as (s2 & -> & Heq). cbn [mbind result_bind]. rewrite Heq. cbn [mbind result_bind].
  exists st', g'. split; [done|]. split; [|done]. split_and!; [|rewrite Hf'; exact Hf|rewrite Ht'; exact Ht|done].
  rewrite Hi', Hi, map_app. cbn [map]. unfold end_iface at 2. cbn [fst snd]. by rewrite Hf.
Qed.
End stacks.

(** ** The links *)

(** The ends of the links: node, device and address; the first link has
    network [k]. *)
Fixpoint link_ends (k : Z) (links : list Link) : list (Z * (NetDevice * Ipv4Address)) :=
  match links with
  | [] => []
  | l :: links' => (from l, (devA l, k * 256 + 1)) :: (to l, (devB l, k * 256 + 2)) :: link_ends (k + 1) links'
  end.
Definition node_ends (v : Z) (E : list (Z * (NetDevice * Ipv4Address))) : list (NetDevice * Ipv4Address) :=
  map snd (filter (fun e => e.1 = v) E).
Definition devices (E : list (Z * (NetDevice * Ipv4Address))) : list NetDevice := map (fun e => e.2.1) E.

Lemma link_ends_app k l1 l2 : link_ends k (l1 ++ l2) = link_ends k l1 ++ link_ends (k + Z.of_nat (length l1)) l2.
Proof.
  revert k; induction l1 as [|l l1 IH]; intros k; cbn [link_ends app length]; [by rewrite Z.add_0_r|].
  rewrite IH. do 2 f_equal. by replace (k + 1 + Z.of_nat (length l1)) with (k + Z.of_nat (S (length l1))) by lia.
Qed.

Lemma link_ends_length k links : length (link_ends k links) = (2 * length links)%nat.
Proof. revert k; induction links as [|l links IH]; intros k; cbn; [done|]. rewrite IH. lia. Qed.

Lemma link_ends_devices k links : devices (link_ends k links) = concat (map (fun l => [devA l; devB l]) links).
Proof. revert k; induction links as [|l links IH]; intros k; cbn; [done|]. unfold devices in IH. by rewrite IH. Qed.

Lemma link_ends_range k links e : e ∈ link_ends k links ->
  k * 256 + 1 <= e.2.2 <= (k + Z.of_nat (length links) - 1) * 256 + 2 /\ exists l, l ∈ links /\ (e.1 = from l \/ e.1 = to l).
Proof.
  revert k; induction links as [|l links IH]; intros k; [by intros ?%not_elem_of_nil|]. cbn [link_ends length].
  intros [->|[->|H]%elem_of_cons]%elem_of_cons; cbn.
  - split; [lia|]. exists l. split; [left|by left].
  - split; [lia|]. exists l. split; [left|by right].
  - destruct (IH _ H) as [? (l' & ? & ?)]. split; [lia|]. exists l'. split; [by right|done].
Qed.

Lemma link_ends_NoDup k links : NoDup (map (fun e => e.2.2) (link_ends k links)).
Proof.
  revert k; induction links as [|l links IH]; intros k; cbn; [constructor|].
  assert (forall a, a <= k * 256 + 2 -> a ∉ map (fun e => e.2.2) (link_ends (k + 1) links)) as Hn.
  { intros a Ha [e [-> He]]%list_elem_of_fmap. apply link_ends_range in He as [? _]. lia. }
  repeat constructor; [|apply Hn; lia|apply IH]. intros [?|Hin]%elem_of_cons; [lia|]. revert Hin. apply Hn; lia.
Qed.

Lemma node_ends_snoc v E w e : node_ends v (E ++ [(w, e)]) = node_ends v E ++ if decide (w = v) then [e] else [].
Proof.
  unfold node_ends. rewrite filter_app, map_app, filter_cons, filter_nil. cbn. by destruct (decide (w = v)).
Qed.

Lemma elem_of_node_ends v E e : e ∈ node_ends v E <-> (v, e) ∈ E.
Proof.
  unfold node_ends. rewrite list_elem_of_fmap. split.
  - intros ([w e'] & -> & [Hw He]%list_elem_of_filter). cbn in *. by subst.
  - intros He. exists (v, e). split; [done|]. by apply list_elem_of_filter.
Qed.

Lemma node_ends_length v E : (length (node_ends v E) <= length E)%nat.
Proof. unfold node_ends. rewrite length_map. apply length_filter. Qed.

Lemma node_ends_devices v E d : d ∈ map fst (node_ends v E) -> d ∈ devices E.
Proof.
  intros ([d' a] & -> & He%elem_of_node_ends)%list_elem_of_fmap. unfold devices. apply list_elem_of_fmap.
  by exists (v, (d', a)).
Qed.

Section links.
Context {S : Type} `{!Ipv4RoutingProtocol S} `{!Cs433Protocol S} `{!AttachedProtocol S} (env : NodeEnv).
Context (los : list NetDevice).

(** After the ends [E], with host [a] of network [k] next. *)
Definition assigned (k a : Z) (E : list (Z * (NetDevice * Ipv4Address))) (sim : Simulation S) : Prop :=
  helper_at k a (s_helper sim) (s_generator sim) /\ length (s_stacks sim) = length los /\
  forall v lo, los !! v = Some lo ->
    exists st, s_stacks sim !! v = Some st /\ has_ends env lo (node_ends (Z.of_nat v) E) st.

Lemma assigned_device k a E sim v d :
  assigned k a E sim -> 0 <= k < 2 ^ 24 -> 1 <= a <= 254 -> 0 <= v < Z.of_nat (length los) ->
  d ∉ los -> d ∉ devices E -> Z.of_nat (length E) < 2 ^ 31 - 2 ->
  exists i sim', Assign_device env sim v d = Ok (i, sim') /\ assigned k (a + 1) (E ++ [(v, (d, k * 256 + a))]) sim'.
Proof using All.
  intros (Hh & Hlen & Hst) Hk Ha Hv Hlo Hd HE. destruct sim as [h g stacks]. cbn in *.
  destruct (lookup_lt_is_Some_2 los (Z.to_nat v)) as [lo Hlov]; [lia|].
  destruct (Hst _ _ Hlov) as (st & Hstv & Hends). rewrite Z2Nat.id in Hends by lia.
  destruct (Assign_device_spec env stacks h g k a v d lo (node_ends v E) st) as (st' & g' & Heq & Hends' & Hh'); [done..| | | |].
  - intros ->. apply Hlo. by eapply list_elem_of_lookup_2.
  - intros Hin. by apply Hd, (node_ends_devices v).
  - pose proof (node_ends_length v E). lia.
  - eexists _, _. split; [exact Heq|]. split_and!; cbn; [done|by rewrite length_insert|].
    intros w low Hw. rewrite node_ends_snoc. destruct (decide (w = Z.to_nat v)) as [->|Hne].
    + rewrite list_lookup_insert_eq by lia. exists st'. split; [done|].
      rewrite decide_True by lia. rewrite Z2Nat.id by lia. congruence.
    + rewrite list_lookup_insert_ne by done. rewrite decide_False by lia. rewrite app_nil_r. by apply Hst.
Qed.

(** The ends are two nodes of the simulation, and the devices are new. *)
Definition links_ok (links : list Link) : Prop :=
  (forall l, l ∈ links -> 0 <= from l < Z.of_nat (length los) /\ 0 <= to l < Z.of_nat (length los)) /\
  NoDup (concat (map (fun l => [devA l; devB l]) links)) /\
  (forall l, l ∈ links -> devA l ∉ los /\ devB l ∉ los).

Lemma assign_links_spec k links sim :
  assigned k 1 [] sim -> links_ok links -> 0 <= k -> k + Z.of_nat (length links) <= 2 ^ 24 ->
  exists sim', assign_links env links sim = Ok sim' /\ length (s_stacks sim') = length los /\
    forall v lo, los !! v = Some lo ->
      exists st, s_stacks sim' !! v = Some st /\ has_ends env lo (node_ends (Z.of_nat v) (link_ends k links)) st.
Proof using All.
  intros H0 (Hnodes & Hnd & Hlos) Hk Hbound. unfold assign_links.
  destruct (foldM_prefix (fun pre sim => (pre = [] \/ k + Z.of_nat (length pre) <= 2 ^ 24) /\
    length (s_stacks sim) = length los /\
    (length pre < length links -> assigned (k + Z.of_nat (length pre)) 1 (link_ends k pre) sim)%nat /\
    forall v lo, los !! v = Some lo ->
      exists st, s_stacks sim !! v = Some st /\ has_ends env lo (node_ends (Z.of_nat v) (link_ends k pre)) st)
    (fun sim l => '(_, sim) ← Assign env (ndc l) sim;
       Ok (mkSimulation (Helper.NewNetwork (s_helper sim)).2 (s_generator sim) (s_stacks sim))) links sim) as (sim' & -> & _ & Hlen & _ & Hst).
  - destruct H0 as (Hh & Hlen & Hst). split_and!; [by left|done| |done]. intros _. rewrite Z.add_0_r. by split_and!.
  - intros pre l post s -> (_ & Hlen & Has & Hst). rewrite length_app in *. cbn [length] in *.
    specialize (Has ltac:(lia)). set (n := k + Z.of_nat (length pre)) in *.
    rewrite map_app, concat_app in Hnd. cbn [map concat] in Hnd. apply NoDup_app in Hnd as (_ & Hdis & Hnd).
    assert (forall d, d = devA l \/ d = devB l -> d ∉ devices (link_ends k pre)) as Hnew.
    { intros d Hd. rewrite link_ends_devices. intros Hin. apply (Hdis d Hin). destruct Hd as [->| ->]; [left|right; left]. }
    assert (devB l <> devA l) as Hab.
    { cbn in Hnd. apply NoDup_cons in Hnd as [Hnd _]. intros E. apply Hnd. rewrite E. left. }
    assert (l ∈ pre ++ l :: post) as Hl by (apply elem_of_app; right; left).
    destruct (Hnodes l Hl) as [Hfrom Hto]. destruct (Hlos l Hl) as [HA HB].
    pose proof (link_ends_length k pre).
    destruct (assigned_device n 1 _ s (from l) (devA l) Has ltac:(lia) ltac:(lia) Hfrom HA (Hnew _ (or_introl eq_refl)) ltac:(lia))
      as (i1 & s1 & E1 & Has1).
    destruct (assigned_device n 2 _ s1 (to l) (devB l) Has1 ltac:(lia) ltac:(lia) Hto HB) as (i2 & s2 & E2 & Has2).
    { unfold devices. rewrite map_app. intros [Hin|Hin]%elem_of_app; [by apply (Hnew (devB l)); [right|]|].
      apply list_elem_of_singleton in Hin. by apply Hab. }
    { rewrite length_app. cbn. lia. }
    unfold Assign, ndc. cbn [foldM fst snd mbind result_bind]. rewrite E1. cbn [mbind result_bind fst snd].
    rewrite E2. cbn [mbind result_bind]. eexists; split; [done|]. cbn [s_stacks s_helper s_generator].
    destruct Has2 as (Hh2 & Hlen2 & Hst2). rewrite link_ends_app. fold n. cbn [link_ends].
    rewrite <- app_assoc in Hst2. cbn in Hst2. split_and!; [right; lia|done| |done].
    intros _. destruct Hh2 as (-> & Ht & seen & Hs & Hb).
    split_and!; [|done|done]. split; [|split; [done|]].
    + unfold Helper.NewNetwork. cbn [Helper.m_network Helper.m_mask Helper.m_base Helper.m_shift Helper.m_max snd s_helper].
      rewrite u32_small by (unfold is_u32; lia). f_equal; lia.
    + exists seen. split; [done|]. intros b Hin. specialize (Hb b Hin). lia.
  - by exists sim'.
Qed.
End links.

(** ** Names *)

Section names.
Context {S : Type} `{!Ipv4RoutingProtocol S} `{!Cs433Protocol S} `{!AttachedProtocol S} (env : NodeEnv).
Implicit Types st : L3 S.

(** The protocol of the stack has main address [a]. *)
Definition main_is (a : Ipv4Address) st : Prop := exists r, m_routingProtocol st = Some r /\ has_main a r.

Definition named_first (v : Z) (ends : list (NetDevice * Ipv4Address)) (m : stdmap Z Ipv4Address) : stdmap Z Ipv4Address :=
  match ends with [] => m | e :: _ => map_insert v e.2 m end.
Definition named_all (v : Z) (ends : list (NetDevice * Ipv4Address)) (m : stdmap Ipv4Address Z) : stdmap Ipv4Address Z :=
  foldl (fun m e => map_insert e.2 v m) m ends.

Lemma GetAddress_end st lo ends k e : has_ends env lo ends st -> ends !! k = Some e ->
  GetAddress st (Z.of_nat (Datatypes.S k)) 0 = Ok (MakeInterfaceAddress e.2 net_mask).
Proof.
  intros (Hi & _) Hk. unfold GetAddress, interface_at, GetInterface. rewrite Nat2Z.id, Hi.
  change ((lo_iface lo :: map end_iface ends) !! Datatypes.S k) with (map end_iface ends !! k).
  rewrite list_lookup_fmap, Hk. done.
Qed.

Lemma name_interfaces v names st lo ends :
  has_ends env lo ends st -> Z.of_nat (length ends) < 2 ^ 31 -> (forall e, e ∈ ends -> e.2 <> GetLoopback) ->
  exists st', foldM (name_interface v) (names, st, false) (seqZ 0 (GetNInterfaces st)) =
      Ok (mkNames (named_first v ends (g_nodeAddressMap names)) (named_all v ends (g_addressNodeMap names)), st',
          bool_decide (ends <> [])) /\
    has_ends env lo ends st' /\ forall e, head ends = Some e -> main_is e.2 st'.
Proof using All.
  intros He Hlen Hlo.
  assert (GetNInterfaces st = Z.of_nat (Datatypes.S (length ends))) as ->.
  { destruct He as (Hi & _). unfold GetNInterfaces. rewrite Hi. cbn [length]. rewrite length_map. apply u32_small. unfold is_u32. lia. }
  destruct (foldM_seqZ (fun k acc => exists st', acc = (mkNames (named_first v (take (pred k) ends) (g_nodeAddressMap names))
      (named_all v (take (pred k) ends) (g_addressNodeMap names)), st', bool_decide (take (pred k) ends <> [])) /\
    has_ends env lo ends st' /\ forall e, head (take (pred k) ends) = Some e -> main_is e.2 st')
    (name_interface v) (Datatypes.S (length ends)) (names, st, false)) as (acc & -> & st' & -> & He' & Hm).
  - exists st. destruct names. by split_and!.
  - intros [|k] acc Hk (st' & -> & He' & Hm).
    + exists (names, st', false). split; [|exists st'; destruct names; by split_and!]. unfold name_interface.
      destruct He' as (Hi & _). unfold GetAddress, interface_at, GetInterface. rewrite Hi. cbn. by destruct names.
    + cbn [pred] in *. destruct (lookup_lt_is_Some_2 ends k) as [e Hek]; [lia|].
      rewrite (take_S_r ends k e Hek). unfold name_interface. rewrite (GetAddress_end st' lo ends k e) by done.
      cbn [mbind result_bind MakeInterfaceAddress m_local]. 
      rewrite (proj2 (Z.eqb_neq _ _)) by (apply Hlo; by eapply list_elem_of_lookup_2).
      cbn [g_nodeAddressMap g_addressNodeMap]. destruct (take k ends) as [|e0 l] eqn:Htk.
      * assert (k = 0%nat) as -> by (destruct k; [done|]; by destruct ends).
        rewrite bool_decide_false by (intros H; by apply H). destruct He' as (Hi & Hf & Ht & r & Hr & Ha).
        destruct (attached_main (view env st') r 1 (MakeInterfaceAddress e.2 net_mask) Ha) as (r' & Heq & Ha' & Hm').
        { apply (GetAddress_end st' lo ends 0 e); [|done]. split_and!; [done..|]. by exists r. }
        unfold on_routing. rewrite Hr. change (Z.of_nat 1) with 1. rewrite Heq. cbn [mbind result_bind].
        eexists; split; [done|]. exists (set_routingProtocol (Some r') st'). split_and!.
        -- rewrite bool_decide_true by done. done.
        -- split_and!; [done..|]. exists r'. by split.
        -- cbn. intros ? [= <-]. by exists r'.
      * rewrite bool_decide_true by done. eexists; split; [done|]. exists st'. split_and!.
        -- rewrite bool_decide_true by done. cbn [app named_first]. unfold named_all. 
           change (e0 :: (l ++ [e])) with ((e0 :: l) ++ [e]). by rewrite foldl_app.
        -- done.
        -- cbn. intros ? [= <-]. by apply Hm.
  - cbn [pred] in *. rewrite firstn_all in *. by exists st'.
Qed.

Lemma find_named_all v ends m a :
  map_find a (named_all v ends m) =
    match map_find a m with Some w => Some w | None => if bool_decide (a ∈ map snd ends) then Some v else None end.
Proof.
  unfold named_all. revert m; induction ends as [|e ends IH]; intros m; cbn [foldl map].
  - rewrite bool_decide_false by (by intros ?%not_elem_of_nil). by destruct (map_find a m).
  - rewrite IH, map_find_insert. destruct (decide (e.2 = a)) as [->|Hne].
    + rewrite (bool_decide_true (a ∈ a :: _)) by left. by destruct (map_find a m).
    + destruct (map_find a m); [done|].
      rewrite (bool_decide_ext (a ∈ map snd ends) (a ∈ e.2 :: map snd ends)); [done|]. rewrite elem_of_cons. naive_solver.
Qed.

Context (los : list NetDevice) (E : list (Z * (NetDevice * Ipv4Address))).
Context (HE : NoDup (map (fun e => e.2.2) E)) (Hlo : forall e, e ∈ E -> e.2.2 <> GetLoopback)
  (Hlen : Z.of_nat (length E) < 2 ^ 31).

Lemma same_node v w d d' a : (v, (d, a)) ∈ E -> (w, (d', a)) ∈ E -> v = w.
Proof using HE.
  intros [i Hi]%list_elem_of_lookup [j Hj]%list_elem_of_lookup.
  assert (i = j) as ->; [|congruence]. eapply (NoDup_lookup _ _ _ a HE); rewrite list_lookup_fmap; by rewrite ?Hi, ?Hj.
Qed.

(** The names after the first [n] nodes. *)
Definition names_of (n : Z) (names : Names) : Prop :=
  (forall a w, map_find a (g_addressNodeMap names) = Some w <-> 0 <= w < n /\ exists d, (w, (d, a)) ∈ E) /\
  (forall w a, map_find w (g_nodeAddressMap names) = Some a <-> 0 <= w < n /\ head (map snd (node_ends w E)) = Some a).

Definition nodes_have (stacks : list (L3 S)) : Prop := length stacks = length los /\
  forall v lo, los !! v = Some lo -> exists st, stacks !! v = Some st /\ has_ends env lo (node_ends (Z.of_nat v) E) st.
(** Node [v] knows its main address. *)
Definition main_known (v : nat) (stacks : list (L3 S)) : Prop :=
  forall st a, stacks !! v = Some st -> head (map snd (node_ends (Z.of_nat v) E)) = Some a -> main_is a st.

Lemma names_of_next n names : 0 <= n -> names_of n names ->
  names_of (n + 1) (mkNames (named_first n (node_ends n E) (g_nodeAddressMap names))
    (named_all n (node_ends n E) (g_addressNodeMap names))).
Proof using HE.
  intros Hn [Ha Hm]. split; cbn [g_nodeAddressMap g_addressNodeMap].
  - intros a w. rewrite find_named_all. destruct (map_find a (g_addressNodeMap names)) as [w'|] eqn:Ew.
    + apply Ha in Ew as [Hw' [d' Hd']]. split.
      * intros [= <-]. split; [lia|by exists d'].
      * intros [_ [d Hd]]. f_equal. by eapply same_node.
    + assert (forall w d, 0 <= w < n -> (w, (d, a)) ∉ E) as Hno.
      { intros w' d Hw' Hd. assert (map_find a (g_addressNodeMap names) = Some w') as Hc; [|congruence]. apply Ha.
        split; [done|by exists d]. }
      case_bool_decide as Hin.
      * apply list_elem_of_fmap in Hin as ([d a'] & -> & Hd%elem_of_node_ends). split.
        -- intros [= <-]. split; [lia|by exists d].
        -- intros [_ [d' Hd']]. f_equal. by eapply same_node.
      * split; [done|]. intros [Hw [d Hd]]. destruct (decide (w = n)) as [->|].
        -- destruct Hin. apply list_elem_of_fmap. exists (d, a). split; [done|]. by apply elem_of_node_ends.
        -- destruct (Hno w d); [lia|done].
  - intros w a. assert (map_find n (g_nodeAddressMap names) = None) as Hnone.
    { destruct (map_find n (g_nodeAddressMap names)) as [a'|] eqn:Ea; [|done]. apply Hm in Ea as [? _]. lia. }
    unfold named_first. destruct (node_ends n E) as [|e l] eqn:Hends.
    + rewrite Hm. split; [intros [? ?]; split; [lia|done]|]. intros [Hw Hh].
      destruct (decide (w = n)) as [->|]; [by rewrite Hends in Hh|]. split; [lia|done].
    + rewrite map_find_insert. destruct (decide (n = w)) as [<-|Hne].
      * rewrite Hnone, Hends. cbn. split; [intros [= <-]; split; [lia|done]|]. by intros [_ [= <-]].
      * rewrite Hm. split; (intros [? ?]; split; [lia|done]).
Qed.

Lemma name_nodes_spec stacks : nodes_have stacks ->
  exists names stacks', name_nodes stacks = Ok (names, stacks') /\ names_of (Z.of_nat (length los)) names /\
    nodes_have stacks' /\ forall v, (v < length los)%nat -> main_known v stacks'.
Proof using All.
  intros Hst. unfold name_nodes. destruct Hst as [Hl Hst]. rewrite Hl.
  destruct (foldM_seqZ (fun k acc => names_of (Z.of_nat k) acc.1 /\ nodes_have acc.2 /\
    forall v, (v < k)%nat -> main_known v acc.2) name_node (length los) (mkNames [] [], stacks)) as ([names stacks'] & -> & Hn & Hs & Hm).
  - split; [|by split; [split|lia]]. split; intros; cbn; (split; [done|lia]).
  - intros k [names stacks1] Hk (Hn & [Hl1 Hs] & Hm). cbn [fst snd] in *. unfold name_node.
    destruct (lookup_lt_is_Some_2 los k Hk) as [lo Hlok]. destruct (Hs k lo Hlok) as (st & Hstk & Hends).
    rewrite Nat2Z.id, Hstk. cbn [or_fault mbind result_bind].
    destruct (name_interfaces (Z.of_nat k) names st lo _ Hends) as (st' & -> & Hends' & Hmain).
    { pose proof (node_ends_length (Z.of_nat k) E). lia. }
    { intros e He%elem_of_node_ends. exact (Hlo _ He). }
    cbn [mbind result_bind]. eexists; split; [done|]. cbn [fst snd]. split_and!.
    + replace (Z.of_nat (Datatypes.S k)) with (Z.of_nat k + 1) by lia. apply names_of_next; [lia|done].
    + split; [by rewrite length_insert|]. intros v lo' Hv. destruct (decide (v = k)) as [->|Hne].
      * rewrite list_lookup_insert_eq by lia. exists st'. split; [done|]. congruence.
      * rewrite list_lookup_insert_ne by done. by apply Hs.
    + intros v Hv st1 a. destruct (decide (v = k)) as [->|Hne].
      * rewrite list_lookup_insert_eq by lia. intros [= <-] Ha.
        destruct (node_ends (Z.of_nat k) E) as [|e l] eqn:He; [done|]. injection Ha as <-. by apply Hmain.
      * rewrite list_lookup_insert_ne by done. apply Hm. lia.
  - by exists names, stacks'.
Qed.

Lemma set_maps_spec names stacks :
  nodes_have stacks -> (forall v, (v < length los)%nat -> main_known v stacks) ->
  (forall v, (v < length los)%nat -> node_ends (Z.of_nat v) E <> []) ->
  exists stacks', set_maps names stacks = Ok stacks' /\ nodes_have stacks' /\
    forall v lo, los !! v = Some lo -> exists st r a, stacks' !! v = Some st /\ m_routingProtocol st = Some r /\
      head (map snd (node_ends (Z.of_nat v) E)) = Some a /\ has_main a r /\
      has_maps (g_nodeAddressMap names) (g_addressNodeMap names) r.
Proof using All.
  intros [Hl Hst] Hmain Hne. unfold set_maps. rewrite Hl.
  destruct (foldM_seqZ (fun k stacks => nodes_have stacks /\ (forall v, (v < length los)%nat -> main_known v stacks) /\
    forall v lo, (v < k)%nat -> los !! v = Some lo -> exists st r a, stacks !! v = Some st /\ m_routingProtocol st = Some r /\
      head (map snd (node_ends (Z.of_nat v) E)) = Some a /\ has_main a r /\
      has_maps (g_nodeAddressMap names) (g_addressNodeMap names) r)
    (fun stacks i =>
    ipv4 ← stacks !! Z.to_nat i ?? NullDeref;
    ipv4 ← on_routing (SetMaps_ (g_nodeAddressMap names) (g_addressNodeMap names)) ipv4;
    Ok (<[Z.to_nat i := ipv4]> stacks)) (length los) stacks) as (stacks' & -> & Hs & _ & Hm).
  - split_and!; [done|done|lia].
  - intros k stacks1 Hk ([Hl1 Hs] & Hmn & Hdone).
    destruct (lookup_lt_is_Some_2 los k Hk) as [lo Hlok]. destruct (Hs k lo Hlok) as (st & Hstk & Hi & Hf & Ht & r & Hr & Hat).
    rewrite Nat2Z.id, Hstk. cbn [or_fault mbind result_bind]. unfold on_routing. rewrite Hr.
    destruct (node_ends (Z.of_nat k) E) as [|e l] eqn:Hends; [by destruct (Hne k Hk)|].
    destruct (Hmn k Hk st e.2 Hstk) as (r0 & Hr0 & Hmain0); [by rewrite Hends|]. assert (r0 = r) as -> by congruence.
    destruct (attached_maps (view env st) r (g_nodeAddressMap names) (g_addressNodeMap names) e.2 Hat Hmain0) as (r' & -> & Hat' & Hm' & Hmaps).
    cbn [mbind result_bind]. eexists; split; [done|]. split_and!.
    + split; [by rewrite length_insert|]. intros v lo' Hv. destruct (decide (v = k)) as [->|Hnv].
      * rewrite list_lookup_insert_eq by lia. eexists; split; [done|]. rewrite Hends.
        assert (lo' = lo) as -> by congruence. split_and!; [done..|]. exists r'. by split.
      * rewrite list_lookup_insert_ne by done. by apply Hs.
    + intros v Hv st1 a. destruct (decide (v = k)) as [->|Hnv].
      * rewrite list_lookup_insert_eq by lia. intros [= <-]. rewrite Hends. intros [= <-]. by exists r'.
      * rewrite list_lookup_insert_ne by done. by apply Hmn.
    + intros v lo' Hv Hlov. destruct (decide (v = k)) as [->|Hnv].
      * rewrite list_lookup_insert_eq by lia. eexists _, r', e.2. rewrite Hends. by split_and!.
      * rewrite list_lookup_insert_ne by done. apply (Hdone v lo'); [lia|done].
  - exists stacks'. split_and!; [done..|]. intros v lo Hv. apply (Hm v lo); [|done]. by eapply lookup_lt_Some.
Qed.
End names.

(** ** The start of a simulation *)

Section start.
Context {S : Type} `{!Ipv4RoutingProtocol S} `{!Cs433Protocol S} `{!AttachedProtocol S} (env : NodeEnv).

Lemma install_all (nodes : list (NetDevice * S)) : Forall (fun n => fresh n.2) nodes ->
  exists stacks, foldM (fun stacks n => st ← InstallStack env n.1 n.2; Ok (stacks ++ [st])) [] nodes = Ok stacks /\
    length stacks = length nodes /\
    forall v lo, map fst nodes !! v = Some lo -> exists st, stacks !! v = Some st /\ has_ends env lo [] st.
Proof using All.
  intros Hf. rewrite Forall_forall in Hf.
  apply (foldM_prefix (fun pre stacks => length stacks = length pre /\
    forall v lo, map fst pre !! v = Some lo -> exists st, stacks !! v = Some st /\ has_ends env lo [] st)); [done|].
  intros pre [lo r] post stacks -> [Hl Hs]. cbn [fst snd].
  destruct (InstallStack_spec env lo r) as (st & -> & Hst); [apply (Hf (lo, r)), elem_of_app; right; left|].
  cbn [mbind result_bind]. eexists; split; [done|]. split; [rewrite !length_app; cbn; lia|].
  intros v lo' Hv. rewrite map_app in Hv. apply lookup_app_Some in Hv as [Hv|[Hge Hv]].
  - destruct (Hs v lo' Hv) as (st' & ? & ?). exists st'. split; [|done]. by apply lookup_app_l_Some.
  - rewrite length_map in *. apply list_lookup_singleton_Some in Hv as [Hv <-]. exists st. split; [|done].
    rewrite lookup_app_r by lia. by rewrite Hl, Hv.
Qed.

Lemma check_nodes_spec n links :
  (forall v, 0 <= v < n -> exists l, l ∈ links /\ (from l = v \/ to l = v)) -> check_nodes n links = Ok tt.
Proof.
  intros Hall. unfold check_nodes.
  match goal with |- foldM ?g _ _ = _ => set (f := g) end.
  destruct (foldM_total (fun _ : unit => True) f (seqZ 0 n) tt) as ([] & -> & _); [|done|done].
  intros u v Hv%elem_of_seqZ _. exists tt. split; [|done]. unfold f.
  replace (existsb _ links) with true; [done|]. symmetry. apply existsb_exists.
  destruct (Hall v ltac:(lia)) as (l & Hl & Hv'). exists l. split; [by apply list_elem_of_In|].
  destruct Hv' as [->| ->]; rewrite Z.eqb_refl; [done|by rewrite orb_true_r].
Qed.

Lemma check_nodes_fault n links v :
  0 <= v < n -> (forall l, l ∈ links -> from l <> v /\ to l <> v) -> check_nodes n links = Fault FatalError.
Proof.
  intros Hv Hno. unfold check_nodes. apply (foldM_fault _ _ _ _ v).
  - intros a b f'. by destruct (existsb _ links); [|intros [= <-]].
  - apply elem_of_seqZ. lia.
  - intros a. replace (existsb _ links) with false; [done|]. symmetry. apply not_true_is_false.
    rewrite existsb_exists. intros (l & Hl%list_elem_of_In & Hb). destruct (Hno l Hl).
    by apply orb_true_iff in Hb as [?%Z.eqb_eq|?%Z.eqb_eq].
Qed.

(** 10.0.0.0 has network number [0x0a0000] under a mask of 24 bits. *)
Notation first_network := 0x0a0000.

(** (C20) The start of a simulation.  Given new protocols, links between
    existing nodes with devices of their own, and at most as many links as
    there are networks from 10.0.0.0/24 up to the loopback network: if every
    node is the end of a link, [main]'s set-up succeeds.  Every node then has,
    besides loopback, one interface per link, that is up, with host address 1
    or 2 in the link's network; the address map names the owner of every
    address and nothing else, the node map has the address of every node's
    first interface, every protocol has this address as its main address and
    holds both maps; and the name of a node survives the translation to an
    address and back, as the network theorems of the protocols assume.  If a
    node has no link, the set-up ends in "Corrupt node container!". *)
Theorem start_names (nodes : list (NetDevice * S)) links
  (Hfresh : Forall (fun n => fresh n.2) nodes) (Hlinks : links_ok (map fst nodes) links) (Hsome : links <> [])
  (Hsize : Z.of_nat (length links) <= 0x750000) (Hnodes : Z.of_nat (length nodes) < 2 ^ 32) :
  ((forall v, 0 <= v < Z.of_nat (length nodes) -> exists l, l ∈ links /\ (from l = v \/ to l = v)) ->
   let E := link_ends first_network links in
   exists names sim, start env nodes links = Ok (names, sim) /\
     (forall a w, map_find a (g_addressNodeMap names) = Some w <-> exists d, (w, (d, a)) ∈ E) /\
     (forall v lo, map fst nodes !! v = Some lo -> exists st r a,
        s_stacks sim !! v = Some st /\
        m_interfaces st = lo_iface lo :: map end_iface (node_ends (Z.of_nat v) E) /\
        head (map snd (node_ends (Z.of_nat v) E)) = Some a /\
        map_find (Z.of_nat v) (g_nodeAddressMap names) = Some a /\
        m_routingProtocol st = Some r /\ attached (view env st) r /\ has_main a r /\
        has_maps (g_nodeAddressMap names) (g_addressNodeMap names) r /\
        let name := show_uint (Z.of_nat v) in
        addr_of (g_nodeAddressMap names) name = a /\ name_of (g_addressNodeMap names) a = name)) /\
  (forall v, 0 <= v < Z.of_nat (length nodes) -> (forall l, l ∈ links -> from l <> v /\ to l <> v) ->
   start env nodes links = Fault FatalError).
Proof using All.
  unfold start. rewrite (proj2 (Z.eqb_neq _ 0)) by (destruct links; cbn; [done|lia]).
  cbn [mbind result_bind]. destruct (install_all nodes Hfresh) as (stacks & -> & Hl & Hst). cbn [mbind result_bind].
  change (Helper.SetBase _ _ _) with (Ok (Helper.mkHelper first_network net_mask 1 1 8 254)). cbn [mbind result_bind]. split.
  2: { intros v Hv Hno. by rewrite (check_nodes_fault _ _ v Hv Hno). }
  intros Hall. cbn zeta. rewrite check_nodes_spec by done. cbn [mbind result_bind].
  set (los := map fst nodes) in *. set (E := link_ends first_network links).
  assert (length los = length nodes) as Hlos by apply length_map.
  destruct (assign_links_spec env los first_network links
    (mkSimulation (Helper.mkHelper first_network net_mask 1 1 8 254) Generator.Reset stacks)) as (sim & -> & Hl1 & Hst1); [|done|lia|lia|].
  { split_and!; cbn; [|by rewrite Hlos|done]. split; [done|]. split; [done|]. exists ∅. split; [|set_solver].
    split; [done|]. intros b. cbn. rewrite allocated_nil. set_solver. }
  cbn [mbind result_bind]. fold E in Hst1.
  assert (forall e, e ∈ E -> e.2.2 <> GetLoopback) as Hnl.
  { intros e [He _]%link_ends_range. change GetLoopback with 0x7f000001. lia. }
  assert (Z.of_nat (length E) < 2 ^ 31) as HlenE by (unfold E; rewrite link_ends_length; lia).
  pose proof (link_ends_NoDup first_network links : NoDup (map (fun e => e.2.2) E)) as HndE.
  destruct (name_nodes_spec env los E HndE Hnl HlenE (s_stacks sim)) as (names & stacks2 & -> & [Hna Hnm] & Hst2 & Hmain); [by split|].
  cbn [mbind result_bind].
  assert (forall v, (v < length los)%nat -> node_ends (Z.of_nat v) E <> []) as Hne.
  { intros v Hv. destruct (Hall (Z.of_nat v) ltac:(lia)) as (l & [i Hi]%list_elem_of_lookup & Hlv).
    assert (exists e, e ∈ node_ends (Z.of_nat v) E) as [e He].
    { apply list_elem_of_split_length in Hi as (l1 & l2 & -> & _). unfold E. rewrite link_ends_app. cbn [link_ends].
      destruct Hlv as [<-|<-]; eexists; apply elem_of_node_ends, elem_of_app; right; [left|right; left]. }
    intros H. rewrite H in He. by apply not_elem_of_nil in He. }
  destruct (set_maps_spec env los E HndE Hnl HlenE names stacks2 Hst2 Hmain Hne) as (stacks3 & -> & [Hl3 Hst3] & Hfinal).
  cbn [mbind result_bind]. eexists names, _. split; [done|]. split.
  - intros a w. rewrite Hna. split; [by intros [_ ?]|]. intros [d Hd]. split; [|by exists d].
    apply link_ends_range in Hd as [_ (l & Hl' & Hw)]. destruct Hlinks as (Hn & _). destruct (Hn l Hl'). cbn in Hw. lia.
  - intros v lo Hv. destruct (Hst3 v lo Hv) as (st & Hstv & Hi & _ & _ & r & Hr & Hat).
    destruct (Hfinal v lo Hv) as (st' & r' & a & Hst' & Hr' & Ha & Hm & Hmaps).
    assert (st' = st) as -> by congruence. assert (r' = r) as -> by congruence.
    assert (v < length los)%nat as Hvl by by eapply lookup_lt_Some.
    assert (map_find (Z.of_nat v) (g_nodeAddressMap names) = Some a) as Hva by (apply Hnm; split; [lia|done]).
    exists st, r, a. split_and!; [done..| |].
    + unfold addr_of. rewrite atoi_show by (unfold is_u32; lia). by rewrite u32_small, Hva by (unfold is_u32; lia).
    + unfold name_of. assert (map_find a (g_addressNodeMap names) = Some (Z.of_nat v)) as ->; [|done]. apply Hna. split; [lia|].
      destruct (node_ends (Z.of_nat v) E) as [|[d a'] l] eqn:He; [done|]. injection Ha as <-. exists d.
      apply elem_of_node_ends. rewrite He. left.
Qed.
End start.

(** Three nodes in a row, each with the link-state protocol over static
    routing. *)
Section example.
#[local] Instance example_ls : Ipv4RoutingProtocol (LSState StaticState) := ls_protocol 0.
#[local] Instance example_cs433 : Cs433Protocol (LSState StaticState) := ls_cs433.
#[local] Instance example_attached : AttachedProtocol (LSState StaticState) := ls_attached 0.

Definition example_node : NetDevice * ListState (LSState StaticState) :=
  (0, mkList [(0, MakeLSRoutingProtocol 0)] None).
Definition example_row : list Link := [mkLink 0 1 1 2; mkLink 1 2 3 4].

Lemma start_names_witness :
  (exists names sim, start p2p_env [example_node; example_node; example_node] example_row = Ok (names, sim) /\
     map_find 0x0a000102 (g_addressNodeMap names) = Some 2 /\ name_of (g_addressNodeMap names) 0x0a000101 = "1"%string) /\
  start p2p_env [example_node; example_node; example_node] [mkLink 0 1 1 2] = Fault FatalError.
Proof.
  assert (Forall (fun n : NetDevice * ListState (LSState StaticState) => fresh n.2) [example_node; example_node; example_node]) as Hfresh.
  { repeat (apply Forall_cons; split; [split; [reflexivity|apply Forall_cons; split; [|apply Forall_nil; exact I]]|]);
      [..|apply Forall_nil; exact I]; (split; [reflexivity|eexists; split; reflexivity]). }
  assert (links_ok [0; 0; 0] example_row) as Hrow.
  { split; [|split].
    - intros l Hl. apply elem_of_cons in Hl as [->|Hl]; [cbn; lia|]. apply list_elem_of_singleton in Hl as ->. cbn; lia.
    - by apply (bool_decide_unpack _).
    - intros l Hl. apply elem_of_cons in Hl as [->|Hl]; [|apply list_elem_of_singleton in Hl as ->];
        (split; by apply (bool_decide_unpack _)). }
  assert (links_ok [0; 0; 0] [mkLink 0 1 1 2]) as Hone.
  { split; [|split].
    - intros l ->%list_elem_of_singleton. cbn; lia.
    - by apply (bool_decide_unpack _).
    - intros l ->%list_elem_of_singleton. split; by apply (bool_decide_unpack _). }
  split.
  - destruct (start_names p2p_env [example_node; example_node; example_node] example_row Hfresh Hrow) as [H _];
      [discriminate|cbn; lia|cbn; lia|].
    destruct H as (names & sim & Heq & Ha & _).
    + intros v Hv. cbn in Hv. destruct (decide (v = 2)) as [->|].
      * exists (mkLink 1 2 3 4). split; [right; left|by right].
      * exists (mkLink 0 1 1 2). split; [left|cbn; lia].
    + exists names, sim. split; [exact Heq|]. split.
      * apply Ha. exists 4. right; right; right; left.
      * unfold name_of. assert (map_find 0x0a000101 (g_addressNodeMap names) = Some 1) as Hf.
        { apply Ha. exists 3. right; right; left. }
        by rewrite Hf.
  - refine (proj2 (start_names p2p_env [example_node; example_node; example_node] [mkLink 0 1 1 2] Hfresh Hone _ _ _) 2 _ _).
    + discriminate.
    + cbn; lia.
    + cbn; lia.
    + cbn; lia.
    + intros l ->%list_elem_of_singleton. cbn; lia.
Defined.
End example.
