(* ===== verification/SimulatorMain.v ===== *)
(** * SimulatorMain: the commands of a scenario

    src/ns-3/cs433/simulator-main.cc without [main] (its set-up is
    AddressPlan): tokens, the script file, the command thread, the dispatch of
    commands and the operations on links.  What is given to the scheduler is an
    [event]; times are in milliseconds. *)

From S2P Require Import Prelude StdString Ipv4Address Node Ipv4Stack.

Definition MAX_SCAN_DELAY : Z := 256.
Definition MIN_SCAN_DELAY : Z := 1.
Definition MAX_NOT_READY : Z := 3.
Definition LS_MODULE_NAME : string := "LS".
Definition DV_MODULE_NAME : string := "DV".
Definition APP_MODULE_NAME : string := "TESTAPP".
Definition SIM_MODULE_NAME : string := "SIM".

(** ** Text *)

(** [std::toupper] in the C locale. *)
Definition toupper (c : ascii) : ascii := if (97 <=? code c) && (code c <=? 122) then char_of (code c - 32) else c.
Fixpoint UpperCase (str : string) : string :=
  match str with String c str' => String (toupper c) (UpperCase str') | EmptyString => EmptyString end.

(** Positions in a string; [None] is [npos]. *)
Definition size_type : Type := option nat.

Fixpoint contains (delimiters : string) (c : ascii) : bool :=
  match delimiters with String d ds => Ascii.eqb d c || contains ds c | EmptyString => false end.
Fixpoint position (f : ascii -> bool) (str : string) : size_type :=
  match str with
  | EmptyString => None
  | String c str' => if f c then Some 0%nat else Datatypes.S <$> position f str'
  end.
Fixpoint suffix (n : nat) (str : string) : string :=
  match n, str with
  | O, _ => str
  | Datatypes.S n', String _ str' => suffix n' str'
  | Datatypes.S _, EmptyString => EmptyString
  end.
Definition find_from (f : ascii -> bool) (str : string) (pos : size_type) : size_type :=
  match pos with Some p => (fun k => (p + k)%nat) <$> position f (suffix p str) | None => None end.
Definition find_first_of (str delimiters : string) : size_type -> size_type := find_from (contains delimiters) str.
Definition find_first_not_of (str delimiters : string) : size_type -> size_type :=
  find_from (fun c => negb (contains delimiters c)) str.

(** [str.substr (lastPos, pos - lastPos)]. *)
Definition substr (str : string) (lastPos pos : size_type) : result string :=
  match lastPos with
  | None => Fault OutOfRange
  | Some l => Ok (substring l (match pos with Some p => p - l | None => String.length str end) str)
  end.

(** Every round takes a token; [TokenizeSpec] shows that the length of the
    string is enough rounds. *)
Fixpoint Tokenize_loop (rounds : nat) (str delimiters : string) (lastPos pos : size_type) (tokens : list string)
    : result (list string) :=
  match lastPos, pos, rounds with
  | None, None, _ | _, _, O => Ok tokens
  | _, _, Datatypes.S rounds' =>
      token ← substr str lastPos pos;
      let lastPos := find_first_not_of str delimiters pos in
      let pos := find_first_of str delimiters lastPos in
      Tokenize_loop rounds' str delimiters lastPos pos (tokens ++ [token])
  end.
Definition Tokenize (str : string) (tokens : list string) (delimiters : string) : result (list string) :=
  let lastPos := find_first_not_of str delimiters (Some 0%nat) in
  let pos := find_first_of str delimiters lastPos in
  Tokenize_loop (String.length str) str delimiters lastPos pos tokens.

(** ** Events *)

(** A protocol is named by its node and its place in the node's list. *)
Inductive event : Type :=
| StopSimulator
| LinkOperation_ (linkNumber : Z) (isUp : bool)
| P2POperation_ (nodeANum nodeBNum : Z) (isUp : bool)
| AllInterfacesOperation_ (nodeNumber : Z) (isUp : bool)
| SetApplicationVerbose_ (node : Z) (tokens : list string)
| SetRoutingVerbose_ (node protocol : Z) (tokens : list string)
| ApplicationCommand (node : Z) (tokens : list string)
| RoutingCommand (node protocol : Z) (tokens : list string)
| StartDumpTrafficTrace | EndDumpTrafficTrace | StartDumpNeighbor | EndDumpNeighbor | StartDumpRoute | EndDumpRoute.

Definition schedule : Type := list (Z * event).

(** What [main] knows of the nodes: the kinds of the routing protocols in the
    list of a node ([None]: the node has no list). *)
Inductive protocol_kind := KindLS | KindDV | KindOther.
#[export] Instance protocol_kind_eq_dec : EqDecision protocol_kind.
Proof. solve_decision. Defined.

Section commands.
Context (m_totalNodes : Z) (protocols : Z -> option (list protocol_kind)).

(** The number of the first protocol of the kind that the module names. *)
Fixpoint find_protocol (k : protocol_kind) (i : Z) (l : list protocol_kind) : option Z :=
  match l with
  | [] => None
  | k' :: l' => if bool_decide (k' = k) then Some i else find_protocol k (i + 1) l'
  end.

Definition is_verbosity (command : string) : bool := (command =? "VERBOSITY")%string || (command =? "VERBOSE")%string.

(** The events for a protocol found in the list; [tokens] is what is left of
    the command. *)
Definition routing_command (nodeNumber i : Z) (tokens : list string) (time : Z) : schedule :=
  match tokens with
  | [] => []
  | token :: rest =>
      if is_verbosity (UpperCase token) then
        match rest with [] => [] | _ => [(time, SetRoutingVerbose_ nodeNumber i rest)] end
      else
        let command := (time, RoutingCommand nodeNumber i tokens) in
        match tokens with
        | [a; b] =>
            if ((a =? "DUMP")%string && (b =? "NEIGHBORS")%string) then [(time, StartDumpNeighbor); command; (time, EndDumpNeighbor)]
            else if ((a =? "DUMP")%string && (b =? "ROUTES")%string) then [(time, StartDumpRoute); command; (time, EndDumpRoute)]
            else [command]
        | _ => [command]
        end
  end.

Definition ProcessNodeCommandTokens (nodeNumber : Z) (tokens : list string) (time : Z) : schedule :=
  if m_totalNodes <=? nodeNumber then []
  else match tokens with
  | [] => []
  | first :: tokens =>
      let module := UpperCase first in
      match tokens with
      | [] => []
      | token :: rest =>
          if (module =? APP_MODULE_NAME)%string || (module =? "APP")%string then
            if is_verbosity (UpperCase token) then
              match rest with [] => [] | _ => [(time, SetApplicationVerbose_ nodeNumber rest)] end
            else
              let command := (time, ApplicationCommand nodeNumber tokens) in
              if (length tokens =? 3)%nat && (token =? "PING")%string then
                [(time, StartDumpTrafficTrace); command; (time + 1000, EndDumpTrafficTrace)]
              else [command]
          else if (module =? LS_MODULE_NAME)%string || (module =? DV_MODULE_NAME)%string then
            match protocols nodeNumber with
            | None => []
            | Some l =>
                match find_protocol (if (module =? LS_MODULE_NAME)%string then KindLS else KindDV) 0 l with
                | Some i => routing_command nodeNumber i tokens time
                | None => []
                end
            end
          else []
      end
  end.

(** [LINK], with the command itself taken off. *)
Definition link_command (tokens : list string) (time : Z) : result schedule :=
  match tokens with
  | [op; link] =>
      let operation := UpperCase op in
      if (operation =? "DOWN")%string then n ← read_uint32 link ?? UninitRead; Ok [(time, LinkOperation_ n false)]
      else if (operation =? "UP")%string then n ← read_uint32 link ?? UninitRead; Ok [(time, LinkOperation_ n true)]
      else Ok []
  | [op; nodeA; nodeB] =>
      let operation := UpperCase op in
      let schedule_it isUp :=
        a ← read_uint32 nodeA ?? UninitRead; b ← read_uint32 nodeB ?? UninitRead; Ok [(time, P2POperation_ a b isUp)] in
      if (operation =? "DOWN")%string then schedule_it false
      else if (operation =? "UP")%string then schedule_it true
      else Ok []
  | _ => Ok []
  end.

Definition nodelinks_command (tokens : list string) (time : Z) : result schedule :=
  match tokens with
  | [op; node] =>
      let operation := UpperCase op in
      if (operation =? "DOWN")%string then n ← read_uint32 node ?? UninitRead; Ok [(time, AllInterfacesOperation_ n false)]
      else if (operation =? "UP")%string then n ← read_uint32 node ?? UninitRead; Ok [(time, AllInterfacesOperation_ n true)]
      else Ok []
  | _ => Ok []
  end.

(** The TIME command only prints the simulation's time. *)
Definition ProcessCommandTokens (tokens : list string) (time : Z) : result schedule :=
  match tokens with
  | [] => Fault DerefEnd
  | EmptyString :: _ => Fault OutOfRange
  | (String c _ as first) :: tokens =>
      if Ascii.eqb c "#" then Ok []
      else
        let command := UpperCase first in
        if (command =? "QUIT")%string then Ok [(time, StopSimulator)]
        else if (command =? "TIME")%string then Ok []
        else match tokens with
        | [] => Ok []
        | _ =>
            if (command =? "LINK")%string then link_command tokens time
            else if (command =? "NODELINKS")%string then nodelinks_command tokens time
            else if (command =? "*")%string then
              Ok (concat (map (fun i => ProcessNodeCommandTokens i tokens time) (seqZ 0 m_totalNodes)))
            else
              nodeNumber ← read_uint32 command ?? UninitRead;
              if m_totalNodes <=? nodeNumber then Ok [] else Ok (ProcessNodeCommandTokens nodeNumber tokens time)
        end
  end.

(** ** The script *)

Record Script := mkScript { m_tokens : list string; time : Z; events : schedule }.

(** One line of the script file; [m_tokens] survives [continue]. *)
Definition script_line (s : Script) (commandLine : string) : result Script :=
  if (commandLine =? "")%string then Ok s
  else
    tokens ← Tokenize commandLine (m_tokens s) " ";
    match tokens with
    | [] => Ok (mkScript [] (time s) (events s))
    | first :: rest =>
        let tokens := UpperCase first :: rest in
        if (UpperCase first =? "TIME")%string then
          match rest with
          | [delta] =>
              d ← read_uint64 delta ?? UninitRead;
              Ok (mkScript [] ((time s + d) mod 2 ^ 64) (events s))
          | _ => Ok (mkScript tokens (time s) (events s))
          end
        else
          evs ← ProcessCommandTokens tokens (time s);
          Ok (mkScript [] (time s) (events s ++ evs))
    end.

(** [std::getline] up to the end of the file: the pieces between newlines, the
    last one included. *)
Fixpoint getlines (text : string) (line : string) : list string :=
  match text with
  | EmptyString => [line]
  | String c text' =>
      if Ascii.eqb c (char_of 10) then line :: getlines text' "" else getlines text' (line ++ String c "")
  end.
Definition run_script (lines : list string) : result Script := foldM script_line (mkScript [] 0 []) lines.

(** ** The command thread and the scan for its commands *)

Record Console := mkConsole {
  c_tokens : list string;
  m_readyToRead : bool;
  m_scanDelay : Z;
  m_notReadyCount : Z
}.

(** [tokens] is what [Start]'s reading of the script left. *)
Definition start_console (tokens : list string) : Console := mkConsole tokens false MIN_SCAN_DELAY 0.

(** One round of [CommandHandler]. *)
Definition CommandHandler_line (commandLine : string) (c : Console) : result Console :=
  if (commandLine =? "")%string then Ok c
  else if m_readyToRead c then Ok c
  else
    tokens ← Tokenize commandLine (c_tokens c) " ";
    match tokens with
    | [] => Ok (mkConsole [] false (m_scanDelay c) (m_notReadyCount c))
    | _ => Ok (mkConsole tokens true (m_scanDelay c) (m_notReadyCount c))
    end.

(** [ReadCommandTokens] runs again after the new [m_scanDelay]. *)
Definition ReadCommandTokens (c : Console) : result (Console * schedule) :=
  if m_readyToRead c then
    evs ← match c_tokens c with [] => Ok [] | _ => ProcessCommandTokens (c_tokens c) 0 end;
    Ok (mkConsole [] false MIN_SCAN_DELAY (m_notReadyCount c), evs)
  else
    let n := u32 (m_notReadyCount c + 1) in
    if n =? MAX_NOT_READY then
      let d := u32 (m_scanDelay c * 2) in
      Ok (mkConsole (c_tokens c) false (if MAX_SCAN_DELAY <? d then MAX_SCAN_DELAY else d) 0, [])
    else Ok (mkConsole (c_tokens c) false (m_scanDelay c) n, []).
End commands.

(** ** Verbosity *)

Record Verbosity := mkVerbosity { traffic : bool; error : bool; debug : bool; status : bool }.

(** [SetRoutingVerbose] and [SetApplicationVerbose]. *)
Definition SetVerbose (tokens : list string) (v : Verbosity) : Verbosity :=
  match tokens with
  | [type; state] =>
      let type := UpperCase type in
      let state := UpperCase state in
      let set (on : bool) :=
        if (type =? "TRAFFIC")%string then mkVerbosity on (error v) (debug v) (status v)
        else if (type =? "ERROR")%string then mkVerbosity (traffic v) on (debug v) (status v)
        else if (type =? "DEBUG")%string then mkVerbosity (traffic v) (error v) on (status v)
        else if (type =? "STATUS")%string then mkVerbosity (traffic v) (error v) (debug v) on
        else if (type =? "ALL")%string then mkVerbosity on on on on
        else v in
      if (state =? "ON")%string then set true else if (state =? "OFF")%string then set false else v
  | _ => v
  end.

(** ** Links *)

Section links.
Context {S : Type} `{!Ipv4RoutingProtocol S} (env : NodeEnv).

(** A device by its node and its [GetIfIndex ()]. *)
Definition Port : Type := Z * Z.

Definition set_interface (isUp : bool) (p : Port) (stacks : list (L3 S)) : result (list (L3 S)) :=
  ipv4 ← stacks !! Z.to_nat p.1 ?? NullDeref;
  ipv4 ← (if isUp then SetUp env p.2 ipv4 else SetDown env p.2 ipv4);
  Ok (<[Z.to_nat p.1 := ipv4]> stacks).

(** [m_ndc]: null, or the two devices of every link.  A link has two devices
    here, and every node a stack, so the guards against null pointers
    ([!netDeviceB] in LinkOperation, [!ipv4] in P2POperation and
    AllInterfacesOperation) have no counterpart. *)
Definition LinkOperation (m_totalLinks : Z) (m_ndc : option (list (Port * Port))) (linkNumber : Z) (isUp : bool)
    (stacks : list (L3 S)) : result (list (L3 S)) :=
  if (m_totalLinks <? linkNumber) && match m_ndc with None => true | Some _ => false end then Ok stacks
  else
    ndc ← m_ndc ?? NullDeref;
    '(a, b) ← ndc !! Z.to_nat linkNumber ?? OutOfRange;
    stacks ← set_interface isUp a stacks; set_interface isUp b stacks.

(** The devices of a node, each with its number and the ports of its channel,
    if it has one. *)
Definition P2POperation (m_totalNodes : Z) (devices : Z -> list (Z * option (list Port))) (nodeANum nodeBNum : Z)
    (isUp : bool) (stacks : list (L3 S)) : result (list (L3 S)) :=
  if (m_totalNodes <=? nodeANum) || (m_totalNodes <=? nodeBNum) then Ok stacks
  else foldM (fun stacks device =>
    match device.2 with
    | None => Ok stacks
    | Some channel =>
        foldM (fun stacks port =>
          if fst port =? nodeBNum then
            stacks ← set_interface isUp (nodeANum, device.1) stacks;
            set_interface isUp (nodeBNum, snd port) stacks
          else Ok stacks) stacks channel
    end) stacks (devices nodeANum).

Definition AllInterfacesOperation (m_totalNodes : Z) (nDevices : Z -> Z) (nodeNumber : Z) (isUp : bool)
    (stacks : list (L3 S)) : result (list (L3 S)) :=
  if m_totalNodes <=? nodeNumber then Ok stacks
  else foldM (fun stacks i => set_interface isUp (nodeNumber, i) stacks) stacks (seqZ 0 (nDevices nodeNumber)).
End links.
