(* ===== verification/SimulatorSpec.v ===== *)
(** * SimulatorSpec: tokens, scripts and the scan delay

    What the text handling and the command loops of simulator-main.cc do. *)

From S2P Require Import Prelude StdMap StdString Ipv4Address Node Ipv4Stack StackSpec StaticRouting Configure AddressPlan PlanSpec SimulatorMain.

(** ** Tokens *)

(** The words of a text: the maximal runs of characters that are not
    delimiters; [cur] is the run read so far. *)
Fixpoint words_go (d : ascii -> bool) (str cur : string) : list string :=
  match str with
  | EmptyString => match cur with EmptyString => [] | _ => [cur] end
  | String c str' =>
      if d c then match cur with EmptyString => words_go d str' "" | _ => cur :: words_go d str' "" end
      else words_go d str' (cur +:+ String c "")
  end.
Definition words (delimiters str : string) : list string := words_go (contains delimiters) str "".

Section tokens.
Context (d : ascii -> bool).
Notation W := (words_go d).

(** Leading delimiters do not matter. *)
Lemma words_skip str :
  match position (fun c => negb (d c)) str with
  | None => W str "" = []
  | Some k => W str "" = W (suffix k str) "" /\ exists c r, suffix k str = String c r /\ d c = false
  end.
Proof.
  induction str as [|c str IH]; cbn [position]; [done|]. destruct (d c) eqn:E; cbn [negb].
  - destruct (position _ str) as [k|]; cbn [fmap option_fmap option_map suffix]; cbn [words_go]; rewrite E; [done|exact IH].
  - cbn [suffix]. split; [done|]. by exists c, str.
Qed.

(** A run of other characters. *)
Lemma words_take str cur : cur <> EmptyString ->
  W str cur = match position d str with
    | None => [cur +:+ str]
    | Some k => (cur +:+ substring 0 k str) :: W (suffix k str) ""
    end.
Proof.
  revert cur; induction str as [|c str IH]; intros cur Hc; cbn [words_go position].
  - rewrite string_app_nil_r. by destruct cur.
  - destruct (d c) eqn:E.
    + cbn [substring suffix]. rewrite string_app_nil_r. cbn [words_go]. rewrite E. by destruct cur.
    + rewrite IH by by destruct cur. destruct (position d str) as [k|]; cbn [fmap option_fmap option_map substring suffix];
        by rewrite string_app_assoc.
Qed.

Lemma words_token str : (exists c r, str = String c r /\ d c = false) ->
  W str "" = match position d str with
    | None => [str]
    | Some k => substring 0 k str :: W (suffix k str) ""
    end.
Proof.
  intros (c & r & -> & E). cbn [words_go position]. rewrite E.
  change ("" +:+ String c "") with (String c "").
  rewrite (words_take r (String c "")) by done.
  by destruct (position d r) as [k|].
Qed.
End tokens.

Lemma suffix_plus n k str : suffix k (suffix n str) = suffix (n + k) str.
Proof.
  revert n; induction str as [|c str IH]; intros [|n]; cbn [suffix Nat.add]; [done|by destruct k|done|apply IH].
Qed.
Lemma substring_suffix n k str : substring n k str = substring 0 k (suffix n str).
Proof. revert n; induction str as [|c str IH]; intros [|n]; cbn; [done|by destruct k|done|apply IH]. Qed.
Lemma substring_all k str : (String.length str <= k)%nat -> substring 0 k str = str.
Proof. revert str; induction k as [|k IH]; intros [|c str]; cbn; [done|lia|done|]. intros. f_equal. apply IH. lia. Qed.
Lemma suffix_length n str : String.length (suffix n str) = (String.length str - n)%nat.
Proof. revert n; induction str as [|c str IH]; intros [|n]; cbn; [done|done|done|apply IH]. Qed.

Lemma position_first f str k : position f str = Some k -> (k < String.length str)%nat /\ (forall c r, str = String c r -> f c = false -> (0 < k)%nat).
Proof.
  revert k; induction str as [|c str IH]; intros k; cbn; [done|]. destruct (f c) eqn:E.
  - intros [= <-]. split; [lia|]. intros ? ? [= <- <-]. by rewrite E.
  - destruct (position f str) as [k'|]; [|done]. intros [= <-]. destruct (IH k' eq_refl). split; [lia|]. lia.
Qed.

Lemma Tokenize_loop_spec delims rounds str p tokens :
  (exists c r, suffix p str = String c r /\ contains delims c = false) ->
  (String.length str <= rounds + p)%nat ->
  Tokenize_loop rounds str delims (Some p) (find_first_of str delims (Some p)) tokens =
    Ok (tokens ++ words delims (suffix p str)).
Proof.
  revert p tokens; induction rounds as [|rounds IH]; intros p tokens Hc Hr.
  { destruct Hc as (c & r & Hc & _). assert (String.length (suffix p str) = 0%nat) as Hl by (rewrite suffix_length; lia).
    by rewrite Hc in Hl. }
  change (find_first_of str delims (Some p)) with ((fun k => p + k)%nat <$> position (contains delims) (suffix p str)).
  cbn [Tokenize_loop]. unfold words. rewrite words_token by done. unfold substr. rewrite substring_suffix.
  destruct (position (contains delims) (suffix p str)) as [k|] eqn:Ek; cbn [fmap option_fmap option_map mbind result_bind].
  - replace (p + k - p)%nat with k by lia.
    change (find_first_not_of str delims (Some (p + k)%nat))
      with ((fun j => p + k + j)%nat <$> position (fun c => negb (contains delims c)) (suffix (p + k) str)).
    pose proof (words_skip (contains delims) (suffix (p + k) str)) as Hskip. rewrite suffix_plus.
    destruct Hc as (c & r & Hc & Hd). destruct (position_first _ _ _ Ek) as [Hk1 Hk2]. specialize (Hk2 c r Hc Hd).
    rewrite suffix_length in Hk1.
    destruct (position (fun c => negb (contains delims c)) (suffix (p + k) str)) as [j|] eqn:Ej; cbn [fmap option_fmap option_map].
    + destruct Hskip as [-> Hc']. rewrite suffix_plus in *. rewrite IH; [|done|lia]. by rewrite <- app_assoc.
    + rewrite Hskip. by destruct rounds.
  - rewrite substring_all by (rewrite suffix_length; lia). by destruct rounds.
Qed.

Lemma Tokenize_spec str tokens delims : Tokenize str tokens delims = Ok (tokens ++ words delims str).
Proof.
  unfold Tokenize. pose proof (words_skip (contains delims) str) as Hskip.
  change (find_first_not_of str delims (Some 0%nat))
    with ((fun j => j) <$> position (fun c => negb (contains delims c)) str).
  destruct (position (fun c => negb (contains delims c)) str) as [k|]; cbn [fmap option_fmap option_map].
  - destruct Hskip as [Hw Hc]. rewrite Tokenize_loop_spec by (done || lia). unfold words. by rewrite Hw.
  - unfold words. rewrite Hskip. cbn. rewrite app_nil_r. by destruct (String.length str).
Qed.

(** [Tokenize] terminates and appends to [tokens] the words of the text, in
    order: the maximal runs of characters that are not delimiters.  No word is
    empty, and none has a delimiter in it. *)
Theorem tokenize_words str tokens delims :
  Tokenize str tokens delims = Ok (tokens ++ words delims str) /\
  Forall (fun w => w <> EmptyString /\ position (contains delims) w = None) (words delims str).
Proof.
  split.
  - apply Tokenize_spec.
  - unfold words. cut (forall cur, position (contains delims) cur = None -> Forall (fun w => w <> EmptyString /\
      position (contains delims) w = None) (words_go (contains delims) str cur)); [intros H; by apply H|].
    assert (forall a c, position (contains delims) a = None -> contains delims c = false ->
      position (contains delims) (a +:+ String c "") = None) as Happ.
    { intros a c Ha Hc. induction a as [|x a IH]; unfold String.append in *; cbn in *; [by rewrite Hc|].
      destruct (contains delims x); [done|]. destruct (position (contains delims) a); [done|]. by rewrite IH. }
    induction str as [|c str IH]; intros cur Hcur; cbn [words_go].
    + destruct cur; [constructor|]. by repeat constructor.
    + destruct (contains delims c) eqn:E; [|apply IH, Happ; done].
      destruct cur; [by apply IH|]. constructor; [done|by apply IH].
Qed.

(** ** Scripts *)

Section script.
Context (m_totalNodes : Z) (protocols : Z -> option (list protocol_kind)).
Notation script_line := (script_line m_totalNodes protocols).

(** A TIME line with a wrong number of arguments is kept, and so is everything
    after it. *)
Definition stuck (s : Script) : Prop :=
  exists first a b rest, m_tokens s = first :: a :: b :: rest /\ UpperCase first = "TIME"%string.

Lemma toupper_idem c : toupper (toupper c) = toupper c.
Proof. by destruct c as [[] [] [] [] [] [] [] []]; vm_compute. Qed.
Lemma UpperCase_idem s : UpperCase (UpperCase s) = UpperCase s.
Proof. induction s as [|c s IH]; [done|]. cbn. by rewrite toupper_idem, IH. Qed.

Lemma stuck_line s l : stuck s -> exists s', script_line s l = Ok s' /\ stuck s' /\ events s' = events s.
Proof.
  intros (first & a & b & rest & Ht & Hf). unfold SimulatorMain.script_line.
  destruct (l =? "")%string; [exists s; split_and!; [done|by exists first, a, b, rest|done]|].
  rewrite Tokenize_spec, Ht. cbn [mbind result_bind app]. rewrite Hf. cbn [String.eqb]. 
  eexists; split; [done|]. split; [|done]. exists "TIME"%string, a, b. eexists; by split.
Qed.

(** A malformed TIME line ends the script.  [Start] leaves the tokens of a
    TIME line with two or more arguments in [m_tokens], to which the tokens of
    the next line are appended: the rest of the script, whatever it says,
    schedules nothing. *)
Theorem malformed_time s first a b rest l lines
  (Hempty : m_tokens s = []) (Hl : words " " l = first :: a :: b :: rest) (Hf : UpperCase first = "TIME"%string) :
  exists s', foldM script_line s (l :: lines) = Ok s' /\ events s' = events s.
Proof.
  assert (exists s1, script_line s l = Ok s1 /\ stuck s1 /\ events s1 = events s) as (s1 & H1 & Hs1 & He1).
  { unfold SimulatorMain.script_line. assert (l <> ""%string) as Hne by by intros ->.
    rewrite (proj2 (String.eqb_neq _ _) Hne), Tokenize_spec, Hempty, Hl. cbn [mbind result_bind app]. rewrite Hf.
    eexists; split; [done|]. split; [|done]. exists "TIME"%string, a, b, rest. by split. }
  cbn [foldM]. rewrite H1. cbn [mbind result_bind].
  destruct (foldM_total (fun s' => stuck s' /\ events s' = events s) script_line lines s1) as (s' & Hs' & _ & He').
  - intros x l' _ [Hx Hex]. destruct (stuck_line x l' Hx) as (y & Hy & Hsy & Hey). exists y. split; [done|].
    split; [done|]. congruence.
  - done.
  - by exists s'.
Qed.
End script.

(** The script that ends with QUIT never stops the simulation; without the
    malformed line it does. *)
Lemma malformed_time_witness :
  (exists s, run_script 2 (fun _ => None) ["TIME 5 ms"; "LINK DOWN 1"; "QUIT"] = Ok s /\ events s = []) /\
  (exists s, run_script 2 (fun _ => None) ["time 5"; "link down 1"; "quit"] = Ok s /\
     events s = [(5, LinkOperation_ 1 false); (5, StopSimulator)]).
Proof.
  split; [|eexists; split; reflexivity].
  exact (malformed_time 2 (fun _ => None) (mkScript [] 0 []) "TIME" "5" "ms" [] "TIME 5 ms" ["LINK DOWN 1"; "QUIT"]
    eq_refl eq_refl eq_refl).
Defined.

(** ** The scan delay *)

Section console.
Context (m_totalNodes : Z) (protocols : Z -> option (list protocol_kind)).
Notation ReadCommandTokens := (ReadCommandTokens m_totalNodes protocols).

(** [n] scans without a command. *)
Fixpoint idle (n : nat) (c : Console) : result Console :=
  match n with
  | O => Ok c
  | S n' => c ← idle n' c; r ← ReadCommandTokens c; Ok r.1
  end.

(** Lines typed and scans, in any order. *)
Inductive console_run (c : Console) : Console -> Prop :=
| console_start : console_run c c
| console_line c' l c'' : console_run c c' -> CommandHandler_line l c' = Ok c'' -> console_run c c''
| console_scan c' c'' evs : console_run c c' -> ReadCommandTokens c' = Ok (c'', evs) -> console_run c c''.

Definition delay_ok (c : Console) : Prop :=
  MIN_SCAN_DELAY <= m_scanDelay c <= MAX_SCAN_DELAY /\ 0 <= m_notReadyCount c < MAX_NOT_READY /\
  (m_readyToRead c = true -> c_tokens c <> []).

Lemma scan_step c : m_readyToRead c = false -> delay_ok c ->
  exists c', ReadCommandTokens c = Ok (c', []) /\ delay_ok c' /\ c_tokens c' = c_tokens c /\ m_readyToRead c' = false /\
    m_scanDelay c' = (if m_notReadyCount c =? 2 then Z.min 256 (2 * m_scanDelay c) else m_scanDelay c) /\
    m_notReadyCount c' = (if m_notReadyCount c =? 2 then 0 else m_notReadyCount c + 1).
Proof.
  intros Hr (Hd & Hn & _). unfold SimulatorMain.ReadCommandTokens. rewrite Hr.
  unfold MIN_SCAN_DELAY, MAX_SCAN_DELAY, MAX_NOT_READY in *. rewrite u32_small by (unfold is_u32; lia).
  destruct (Z.eqb_spec (m_notReadyCount c) 2) as [E|E].
  - rewrite (proj2 (Z.eqb_eq _ 3)) by lia. rewrite u32_small by (unfold is_u32; lia). eexists; split; [done|].
    destruct (Z.ltb_spec 256 (m_scanDelay c * 2)); (split_and!; [split_and!; cbn; unfold MIN_SCAN_DELAY, MAX_SCAN_DELAY, MAX_NOT_READY; (lia||done)|done|done|cbn; lia|done]).
  - rewrite (proj2 (Z.eqb_neq _ 3)) by lia. eexists; split; [done|].
    split_and!; [split_and!; cbn; unfold MIN_SCAN_DELAY, MAX_SCAN_DELAY, MAX_NOT_READY; (lia||done)|done..].
Qed.

(** The scan delay.  Without a command the delay between two scans doubles
    with every third scan, from 1 ms up to 256 ms, where it stays; and whatever
    is typed in between, it is never outside these bounds, a scan after a
    command returns it to 1 ms, and a command waiting for a scan is never
    empty. *)
Theorem scan_delay tokens n :
  idle n (start_console tokens) =
    Ok (mkConsole tokens false (Z.min 256 (2 ^ (Z.of_nat n / 3))) (Z.of_nat n mod 3)) /\
  (forall c, console_run (start_console tokens) c -> delay_ok c /\
     forall c' evs, ReadCommandTokens c = Ok (c', evs) -> m_readyToRead c = true -> m_scanDelay c' = 1).
Proof.
  split.
  - induction n as [|n IH]; [done|]. cbn [idle]. rewrite IH. cbn [mbind result_bind].
    set (c := mkConsole _ _ _ _). destruct (scan_step c) as ([t r d k] & -> & _ & Ht & Hr & Hd & Hk); [done| |].
    { split_and!; cbn; unfold MIN_SCAN_DELAY, MAX_SCAN_DELAY, MAX_NOT_READY; [|lia|dlia|dlia|done].
      pose proof (Z.pow_pos_nonneg 2 (Z.of_nat n / 3) ltac:(lia) ltac:(dlia)). lia. }
    cbn in *. subst t r d k. rewrite Nat2Z.inj_succ. unfold Z.succ.
    destruct (Z.eqb_spec (Z.of_nat n mod 3) 2) as [E|E].
    + replace ((Z.of_nat n + 1) / 3) with (Z.of_nat n / 3 + 1) by dlia.
      replace ((Z.of_nat n + 1) mod 3) with 0 by dlia. rewrite Z.pow_add_r by dlia.
      do 2 f_equal; lia.
    + replace ((Z.of_nat n + 1) / 3) with (Z.of_nat n / 3) by dlia.
      replace ((Z.of_nat n + 1) mod 3) with (Z.of_nat n mod 3 + 1) by dlia. done.
  - intros c Hc. split; [|].
    + induction Hc as [|c' l c'' _ IH Hl|c' c'' evs _ IH Hs].
      * split_and!; cbn; unfold MIN_SCAN_DELAY, MAX_SCAN_DELAY, MAX_NOT_READY; (lia||done).
      * unfold CommandHandler_line in Hl. destruct (l =? "")%string; [by injection Hl as <-|].
        destruct (m_readyToRead c'); [by injection Hl as <-|]. rewrite Tokenize_spec in Hl. cbn [mbind result_bind] in Hl.
        destruct IH as (Hd & Hn & _). destruct (c_tokens c' ++ words " " l); injection Hl as <-; (split; [exact Hd|]; split; [exact Hn|done]).
      * destruct (m_readyToRead c') eqn:Hr.
        -- unfold SimulatorMain.ReadCommandTokens in Hs. rewrite Hr in Hs. apply bind_Ok in Hs as (? & _ & [= <- _]).
           destruct IH as (Hd & Hn & _). split; [cbn; unfold MIN_SCAN_DELAY, MAX_SCAN_DELAY; lia|]. by split; [exact Hn|].
        -- destruct (scan_step c' Hr IH) as (c1 & H1 & Hok & _). rewrite H1 in Hs. by injection Hs as <- <-.
    + intros c' evs Hs Hr. unfold SimulatorMain.ReadCommandTokens in Hs. rewrite Hr in Hs.
      by apply bind_Ok in Hs as (? & _ & [= <- _]).
Qed.
End console.

(** Seven idle scans, a command, and the scan that reads it. *)
Lemma scan_delay_witness : exists c c',
  idle 2 (fun _ => None) 7 (start_console []) = Ok c /\ m_scanDelay c = 4 /\
  (c1 ← CommandHandler_line "quit" c; ReadCommandTokens 2 (fun _ => None) c1) = Ok (c', [(0, StopSimulator)]) /\
  m_scanDelay c' = 1.
Proof.
  destruct (scan_delay 2 (fun _ => None) [] 7) as [H1 H2]. eexists _, _. split; [exact H1|].
  split; [reflexivity|]. split; [reflexivity|].
  refine (proj2 (H2 (mkConsole ["quit"%string] true 4 1) _) _ [(0, StopSimulator)] _ _); [|reflexivity|reflexivity].
  eapply (console_line _ _ _ (mkConsole [] false 4 1) "quit"); [|reflexivity].
  apply (console_scan _ _ _ (mkConsole [] false 4 0) _ []); [|reflexivity].
  apply (console_scan _ _ _ (mkConsole [] false 2 2) _ []); [|reflexivity].
  apply (console_scan _ _ _ (mkConsole [] false 2 1) _ []); [|reflexivity].
  apply (console_scan _ _ _ (mkConsole [] false 2 0) _ []); [|reflexivity].
  apply (console_scan _ _ _ (mkConsole [] false 1 2) _ []); [|reflexivity].
  apply (console_scan _ _ _ (mkConsole [] false 1 1) _ []); [|reflexivity].
  apply (console_scan _ _ _ (mkConsole [] false 1 0) _ []); [|reflexivity].
  apply console_start.
Defined.

(** ** Operations on links *)

Section links.
Context {S : Type} `{!Ipv4RoutingProtocol S} `{!Cs433Protocol S} `{!AttachedProtocol S} (env : NodeEnv).
Implicit Types (st : L3 S) (stacks : list (L3 S)).

(** The interfaces of all nodes, and one of them set up or down. *)
Definition interfaces_of stacks : list (list Ipv4Interface) := map m_interfaces stacks.
Definition flip (isUp : bool) : Ipv4Interface -> Ipv4Interface := if isUp then Interface.SetUp else Interface.SetDown.
Definition port_set (isUp : bool) (p : Port) (l : list (list Ipv4Interface)) : list (list Ipv4Interface) :=
  alter (alter (flip isUp) (Z.to_nat p.2)) (Z.to_nat p.1) l.

(** The port is an interface, and it can say how many addresses it has. *)
Definition port_ok (l : list (list Ipv4Interface)) (p : Port) : Prop :=
  exists ifs i, l !! Z.to_nat p.1 = Some ifs /\ ifs !! Z.to_nat p.2 = Some i /\ Z.of_nat (length (m_ifaddrs i)) < 2 ^ 32.

Lemma flip_ifaddrs isUp i : m_ifaddrs (flip isUp i) = m_ifaddrs i.
Proof. by destruct isUp. Qed.

Lemma port_set_ok isUp p l q : port_ok l q -> port_ok (port_set isUp p l) q.
Proof.
  intros (ifs & i & Hifs & Hi & Ha). unfold port_ok, port_set.
  destruct (decide (Z.to_nat p.1 = Z.to_nat q.1)) as [E|E].
  - rewrite E, list_lookup_alter_eq, Hifs. eexists; cbn. destruct (decide (Z.to_nat p.2 = Z.to_nat q.2)) as [E2|E2].
    + exists (flip isUp i). split; [done|]. rewrite E2, list_lookup_alter_eq, Hi. split; [done|]. by rewrite flip_ifaddrs.
    + exists i. split; [done|]. by rewrite list_lookup_alter_ne.
  - exists ifs, i. by rewrite list_lookup_alter_ne.
Qed.

Lemma alter_insert {A} f k (l : list A) x : l !! k = Some x -> alter f k l = <[k := f x]> l.
Proof.
  intros Hx. apply list_eq. intros j. destruct (decide (k = j)) as [<-|Hne].
  - rewrite list_lookup_alter_eq, Hx, list_lookup_insert_eq; [done|by eapply lookup_lt_Some].
  - by rewrite list_lookup_alter_ne, list_lookup_insert_ne.
Qed.

Lemma set_interface_spec isUp p stacks :
  Forall (holds env) stacks -> port_ok (interfaces_of stacks) p ->
  exists stacks', set_interface env isUp p stacks = Ok stacks' /\ Forall (holds env) stacks' /\
    interfaces_of stacks' = port_set isUp p (interfaces_of stacks).
Proof using All.
  intros Hall (ifs & i & Hifs & Hi & Ha). unfold interfaces_of in Hifs. rewrite list_lookup_fmap in Hifs.
  destruct (stacks !! Z.to_nat p.1) as [st|] eqn:Est; [|done]. injection Hifs as <-.
  pose proof (Forall_lookup_1 _ _ _ _ Hall Est) as Hst. unfold set_interface. rewrite Est. cbn [or_fault mbind result_bind].
  assert (exists st', (if isUp then SetUp env p.2 st else SetDown env p.2 st) = Ok st' /\ holds env st' /\
    m_interfaces st' = <[Z.to_nat p.2 := flip isUp i]> (m_interfaces st)) as (st' & -> & Hh & Hif).
  { unfold SetUp, SetDown, change_interface, interface_at, Ipv4Stack.GetInterface. rewrite Hi. cbn [or_fault mbind result_bind].
    destruct isUp.
    - set (st1 := set_interfaces _ st).
      destruct (notify_holds env (NotifyInterfaceUp_ p.2) st1) as (st' & -> & Hh & Hs & _).
      + by apply (holds_held env) in Hst.
      + intros r Hr. apply attached_up; [done|]. apply (answers_view env st1 p.2 (Interface.SetUp i)); [|done].
        unfold st1. cbn. by rewrite list_lookup_insert_eq by by eapply lookup_lt_Some.
      + by exists st'.
    - set (st1 := set_interfaces _ st).
      destruct (notify_holds env (NotifyInterfaceDown_ p.2) st1) as (st' & -> & Hh & Hs & _).
      + by apply (holds_held env) in Hst.
      + intros r Hr. by apply attached_down.
      + by exists st'. }
  cbn [mbind result_bind]. eexists; split; [done|]. split; [by apply Forall_insert|].
  unfold interfaces_of, port_set. rewrite list_fmap_insert, Hif.
  assert (map m_interfaces stacks !! Z.to_nat p.1 = Some (m_interfaces st)) as Hl by (rewrite list_lookup_fmap; by rewrite Est).
  rewrite (alter_insert _ _ _ _ Hl). f_equal. by rewrite (alter_insert _ _ _ _ Hi).
Qed.

Lemma set_ports isUp ps stacks :
  Forall (holds env) stacks -> Forall (port_ok (interfaces_of stacks)) ps ->
  exists stacks', foldM (fun stacks p => set_interface env isUp p stacks) stacks ps = Ok stacks' /\ Forall (holds env) stacks' /\
    interfaces_of stacks' = foldl (fun l p => port_set isUp p l) (interfaces_of stacks) ps.
Proof using All.
  revert stacks; induction ps as [|p ps IH]; intros stacks Hall Hps; [by exists stacks|].
  apply Forall_cons in Hps as [Hp Hps]. destruct (set_interface_spec isUp p stacks Hall Hp) as (s1 & H1 & Hall1 & Hi1).
  cbn [foldM foldl]. rewrite H1. cbn [mbind result_bind]. rewrite <- Hi1. apply IH; [done|].
  eapply Forall_impl; [exact Hps|]. intros q Hq. rewrite Hi1. by apply port_set_ok.
Qed.

Lemma port_set_up_down p l ifs i :
  l !! Z.to_nat p.1 = Some ifs -> ifs !! Z.to_nat p.2 = Some i -> m_ifup i = true ->
  port_set true p (port_set false p l) = l.
Proof.
  intros Hl Hi Hup. unfold port_set. rewrite (alter_insert _ _ l ifs) by done.
  rewrite (alter_insert _ _ ifs i) by done. erewrite (alter_insert _ _ (<[_ := _]> l)).
  2: { apply list_lookup_insert_eq. by eapply lookup_lt_Some. }
  rewrite list_insert_insert_eq. erewrite (alter_insert _ _ (<[_ := _]> ifs)).
  2: { apply list_lookup_insert_eq. by eapply lookup_lt_Some. }
  rewrite list_insert_insert_eq. apply list_insert_id. rewrite Hl. f_equal. symmetry. apply list_insert_id.
  rewrite Hi. f_equal. destruct i; cbn in *. by rewrite Hup.
Qed.

Lemma port_set_comm u1 u2 p q l : p <> q -> 0 <= p.1 -> 0 <= p.2 -> 0 <= q.1 -> 0 <= q.2 ->
  port_set u1 p (port_set u2 q l) = port_set u2 q (port_set u1 p l).
Proof.
  intros Hne ? ? ? ?. unfold port_set. apply list_eq. intros v.
  destruct (decide (Z.to_nat p.1 = v)) as [Ep|Ep], (decide (Z.to_nat q.1 = v)) as [Eq|Eq].
  - rewrite Ep, Eq, !list_lookup_alter_eq. destruct (l !! v) as [ifs|]; [|done]. cbn. f_equal.
    apply list_eq. intros j. assert (Z.to_nat p.2 <> Z.to_nat q.2) as Hj.
    { intros E. apply Hne. destruct p, q. cbn in *. f_equal; lia. }
    destruct (decide (Z.to_nat p.2 = j)) as [E1|E1], (decide (Z.to_nat q.2 = j)) as [E2|E2]; [congruence|..].
    + by rewrite E1, list_lookup_alter_eq, !(list_lookup_alter_ne _ _ (Z.to_nat q.2)), list_lookup_alter_eq.
    + by rewrite E2, list_lookup_alter_eq, !(list_lookup_alter_ne _ _ (Z.to_nat p.2)), list_lookup_alter_eq.
    + by rewrite !list_lookup_alter_ne.
  - by rewrite Ep, list_lookup_alter_eq, !(list_lookup_alter_ne _ _ (Z.to_nat q.1)), list_lookup_alter_eq.
  - by rewrite Eq, list_lookup_alter_eq, !(list_lookup_alter_ne _ _ (Z.to_nat p.1)), list_lookup_alter_eq.
  - by rewrite !list_lookup_alter_ne.
Qed.

Lemma foldM_concat {A B C} (f : A -> C -> result A) (g : B -> list C) (h : A -> B -> result A) a l :
  (forall a b, h a b = foldM f a (g b)) -> foldM h a l = foldM f a (concat (map g l)).
Proof.
  intros Hh. revert a; induction l as [|b l IH]; intros a; [done|]. cbn. rewrite foldM_app, Hh.
  destruct (foldM f a (g b)); cbn; [apply IH|done].
Qed.

(** The ports of the devices of node [A] that share a channel with node [B]. *)
Definition p2p_ports (devices : list (Z * option (list Port))) (A B : Z) : list Port :=
  concat (map (fun device => match device.2 with
    | None => []
    | Some channel => concat (map (fun port : Port => if port.1 =? B then [(A, device.1); (B, port.2)] else []) channel)
    end) devices).

Lemma P2POperation_ports n devices A B isUp stacks : A < n -> B < n ->
  P2POperation env n devices A B isUp stacks =
    foldM (fun stacks p => set_interface env isUp p stacks) stacks (p2p_ports (devices A) A B).
Proof.
  intros HA HB. unfold P2POperation. rewrite !(proj2 (Z.leb_gt _ _)) by done. cbn [orb].
  apply foldM_concat. intros s [i [channel|]]; [|done]. cbn [fst snd]. apply foldM_concat. intros s1 [w j]. cbn [fst snd].
  destruct (w =? B); [|done]. cbn [foldM]. destruct (set_interface env isUp (A, i) s1); cbn; [|done].
  by destruct (set_interface env isUp (B, j) a).
Qed.

(** The operation succeeds and sets exactly these ports. *)
Definition sets (r : result (list (L3 S))) isUp (ports : list Port) stacks : Prop :=
  exists stacks', r = Ok stacks' /\ Forall (holds env) stacks' /\
    interfaces_of stacks' = foldl (fun l p => port_set isUp p l) (interfaces_of stacks) ports.

(** (C37) The operations on links.  On interfaces that exist, LINK sets the two
    ends of its link, the form with two nodes all ends of the channels between
    the nodes, and NODELINKS all interfaces of a node, the loopback interface
    included; no other interface changes, nothing faults, and the routing
    protocols are told.  Setting a link down and up again restores its
    interfaces.  A link number beyond the array of links is not caught, whatever
    the number of links: the guard of LinkOperation also asks for the array to
    be null. *)
Theorem link_operations stacks (Hall : Forall (holds env) stacks) :
  (forall total m_ndc n a b isUp, m_ndc !! Z.to_nat n = Some (a, b) -> Forall (port_ok (interfaces_of stacks)) [a; b] ->
     sets (LinkOperation env total (Some m_ndc) n isUp stacks) isUp [a; b] stacks) /\
  (forall total m_ndc n isUp, Z.of_nat (length m_ndc) <= n ->
     LinkOperation env total (Some m_ndc) n isUp stacks = Fault OutOfRange) /\
  (forall total devices A B isUp, A < total -> B < total -> Forall (port_ok (interfaces_of stacks)) (p2p_ports (devices A) A B) ->
     sets (P2POperation env total devices A B isUp stacks) isUp (p2p_ports (devices A) A B) stacks) /\
  (forall total nDevices v isUp, v < total ->
     Forall (port_ok (interfaces_of stacks)) (map (fun i => (v, i)) (seqZ 0 (nDevices v))) ->
     sets (AllInterfacesOperation env total nDevices v isUp stacks) isUp (map (fun i => (v, i)) (seqZ 0 (nDevices v))) stacks) /\
  (forall total m_ndc n a b, m_ndc !! Z.to_nat n = Some (a, b) -> a <> b ->
     (forall p, p ∈ [a; b] -> 0 <= p.1 /\ 0 <= p.2 /\ port_ok (interfaces_of stacks) p /\
        forall ifs i, interfaces_of stacks !! Z.to_nat p.1 = Some ifs -> ifs !! Z.to_nat p.2 = Some i -> m_ifup i = true) ->
     exists stacks', (stacks ← LinkOperation env total (Some m_ndc) n false stacks;
                      LinkOperation env total (Some m_ndc) n true stacks) = Ok stacks' /\
       interfaces_of stacks' = interfaces_of stacks).
Proof using All.
  assert (forall total m_ndc n a b isUp stacks, Forall (holds env) stacks -> m_ndc !! Z.to_nat n = Some (a, b) ->
    Forall (port_ok (interfaces_of stacks)) [a; b] ->
    sets (LinkOperation env total (Some m_ndc) n isUp stacks) isUp [a; b] stacks) as Hlink.
  { intros total m_ndc n a b isUp s Hs Hn Hps. unfold LinkOperation, sets. rewrite andb_false_r. cbn [or_fault mbind result_bind].
    rewrite Hn. cbn [or_fault mbind result_bind]. destruct (set_ports isUp [a; b] s Hs Hps) as (s' & H' & ?).
    cbn [foldM] in H'. exists s'. split; [|done]. destruct (set_interface env isUp a s); [|done]. cbn in *.
    by destruct (set_interface env isUp b a0). }
  split_and!.
  - intros. by apply Hlink.
  - intros total m_ndc n isUp Hn. unfold LinkOperation. rewrite andb_false_r. cbn [or_fault mbind result_bind].
    by rewrite lookup_ge_None_2 by lia.
  - intros total devices A B isUp HA HB Hps. unfold sets. rewrite P2POperation_ports by done. by apply set_ports.
  - intros total nDevices v isUp Hv Hps. unfold sets, AllInterfacesOperation. rewrite (proj2 (Z.leb_gt _ _)) by done.
    destruct (set_ports isUp _ stacks Hall Hps) as (s' & Heq & ?). exists s'. split; [|done].
    rewrite <- Heq. generalize (seqZ 0 (nDevices v)). intros l. clear. revert stacks.
    induction l as [|i l IH]; intros stacks; [done|]. cbn. destruct (set_interface env isUp (v, i) stacks); cbn; [apply IH|done].
  - intros total m_ndc n a b Hn Hne Hp.
    assert (Forall (port_ok (interfaces_of stacks)) [a; b]) as Hps by (apply Forall_forall; intros p Hin; by apply Hp).
    destruct (Hlink total m_ndc n a b false stacks Hall Hn Hps) as (s1 & -> & H1 & Hi1). cbn [mbind result_bind].
    destruct (Hlink total m_ndc n a b true s1 H1 Hn) as (s2 & -> & _ & Hi2).
    { rewrite Hi1. cbn. eapply Forall_impl; [exact Hps|]. intros q Hq. by do 2 apply port_set_ok. }
    exists s2. split; [done|]. rewrite Hi2, Hi1. cbn [foldl].
    destruct (Hp a) as (? & ? & (ifs & i & Hl & Hi & _) & Hup); [left|].
    destruct (Hp b) as (? & ? & (ifs' & i' & Hl' & Hi' & _) & Hup'); [right; left|].
    rewrite (port_set_comm true false a b) by done.
    rewrite (port_set_up_down a _ ifs i) by (done || by eapply Hup).
    rewrite (port_set_up_down b _ ifs' i') by (done || by eapply Hup'). done.
Qed.
End links.

(** Two nodes and one link between them. *)
Definition node_base (address : Ipv4Address) : L3 StaticState :=
  mkL3 [lo_iface 0; end_iface (1, address)] None true true 64 0.
Definition node_stack (address : Ipv4Address) : L3 StaticState :=
  set_routingProtocol (Some (mkStatic [] [] (Some (view p2p_env (node_base address))))) (node_base address).
Definition two_nodes : list (L3 StaticState) := [node_stack 0x0a000001; node_stack 0x0a000002].

Lemma link_operations_witness :
  (exists s1 s2, LinkOperation p2p_env 1 (Some [((0, 1), (1, 1))]) 0 false two_nodes = Ok s1 /\
     map (map m_ifup) (interfaces_of s1) = [[true; false]; [true; false]] /\
     LinkOperation p2p_env 1 (Some [((0, 1), (1, 1))]) 0 true s1 = Ok s2 /\ interfaces_of s2 = interfaces_of two_nodes) /\
  LinkOperation p2p_env 1 (Some [((0, 1), (1, 1))]) 7 false two_nodes = Fault OutOfRange.
Proof.
  assert (Forall (holds p2p_env) two_nodes) as Hall.
  { repeat (apply Forall_cons; split; [eexists; split; reflexivity|]). apply Forall_nil. exact I. }
  assert (forall p, p ∈ [(0, 1); (1, 1)] -> port_ok (interfaces_of two_nodes) p /\ 0 <= p.1 /\ 0 <= p.2 /\
    forall ifs i, interfaces_of two_nodes !! Z.to_nat p.1 = Some ifs -> ifs !! Z.to_nat p.2 = Some i -> m_ifup i = true) as Hp.
  { intros p Hin. apply elem_of_cons in Hin as [->|Hin]; [|apply list_elem_of_singleton in Hin as ->]; cbn;
      (split; [eexists _, _; split; [reflexivity|]; split; [reflexivity|cbn; lia]|];
       split; [lia|]; split; [lia|]; by intros ifs i [= <-] [= <-]). }
  destruct (link_operations p2p_env two_nodes Hall) as (H1 & H2 & _ & _ & H5). split.
  - destruct (H1 1 [((0, 1), (1, 1))] 0 (0, 1) (1, 1) false) as (s1 & Hs1 & _ & Hi1); [reflexivity|..].
    { apply Forall_forall. intros p Hin. by apply Hp. }
    destruct (H5 1 [((0, 1), (1, 1))] 0 (0, 1) (1, 1)) as (s2 & Hs2 & Hi2); [reflexivity|discriminate|..].
    { intros p Hin. destruct (Hp p Hin) as (? & ? & ? & ?). by split_and!. }
    exists s1, s2. split; [exact Hs1|]. split; [by rewrite Hi1|]. rewrite Hs1 in Hs2. cbn [mbind result_bind] in Hs2.
    split; [exact Hs2|exact Hi2].
  - apply H2. cbn; lia.
Defined.
