(* ===== verification/TestResult.v ===== *)
(** * TestResult: the checker of expected tables

    src/ns-3/cs433/common/test-result.cc.  A results file holds, for every
    DUMP and traced PING of a script, a title, a number of rows and the rows
    that are expected; the protocols report their rows to the checker, which
    prints whether they are correct.  The global variables are a record, the
    file is an [istream], and what is printed is a list of [output]s.  A
    [getline] loop that never ends is the outcome [None]. *)

From S2P Require Import Prelude StdMap StdString Ipv4Address Node.

(** ** Input streams (of C++98: an extraction that fails leaves its variable
    as it was) *)

(** [rest]: what has not been read; [good]: neither eofbit nor failbit is
    set. *)
Record istream := mkStream { rest : string; good : bool }.

(** A string up to a character that satisfies [f], and from there on. *)
Fixpoint take_until (f : ascii -> bool) (s : string) : string * string :=
  match s with
  | String c s' => if f c then (EmptyString, s) else let '(a, b) := take_until f s' in (String c a, b)
  | EmptyString => (EmptyString, EmptyString)
  end.

Definition newline : ascii := "010"%char.
Definition nonempty (s : string) : bool := negb (s =? "")%string.

(** [std::getline (ifs, str)] *)
Definition getline (str : string) (s : istream) : string * istream :=
  if good s then
    let '(line, s') := take_until (Ascii.eqb newline) (rest s) in
    match s' with
    | String _ s'' => (line, mkStream s'' true)
    | EmptyString => (line, mkStream EmptyString false)
    end
  else (str, s).

(** [while (str.length () == 0) std::getline (ifs, str);] with [None] when
    the rounds are used up.  Every round takes a character off the stream,
    or leaves a stream that is not good, on which nothing happens any more. *)
Fixpoint getlines (rounds : nat) (str : string) (s : istream) : option (string * istream) :=
  if nonempty str then Some (str, s) else
  match rounds with
  | O => None
  | S rounds' => let '(str, s) := getline str s in getlines rounds' str s
  end.
Definition next_line (s : istream) : option (string * istream) := getlines (S (String.length (rest s))) "" s.

(** What is left behind a number. *)
Definition behind_number (s : string) : string :=
  (take_until (fun c => negb (is_digit c)) (read_sign (skip_spaces s)).2).2.

(** [ifs >> x] where [read] recognises the number. *)
Definition extract (read : string -> option Z) (s : istream) : option Z * istream :=
  if good s then
    let s' := behind_number (rest s) in
    match read (rest s) with
    | Some n => (Some n, mkStream s' (nonempty s'))
    | None => (None, mkStream s' false)
    end
  else (None, s).

(** [istringstream >> int]. *)
Definition read_int (s : string) : option Z :=
  let s' := (read_sign (skip_spaces s)).2 in
  let v := atoi s in
  if starts_with_digit s' && (- 2 ^ 31 <=? v) && (v <? 2 ^ 31) then Some v else None.

Definition extract_int : istream -> option Z * istream := extract read_int.
Definition extract_uint32 : istream -> option Z * istream := extract read_uint32.

(** [ifs >> str] for a string that was empty. *)
Definition extract_word (s : istream) : string * istream :=
  if good s then
    let '(w, s') := take_until is_space (skip_spaces (rest s)) in
    (w, mkStream s' (nonempty w && nonempty s'))
  else (EmptyString, s).

(** ** The state *)

Record RoutingTableEntry := mkRoutingTableEntry {
  rt_destAddr : Ipv4Address;
  rt_nextHopNum : Z;
  rt_nextHopAddr : Ipv4Address;
  rt_interfaceAddr : Ipv4Address;
  rt_cost : Z
}.

Record NeighborTableEntry := mkNeighborTableEntry {
  nt_neighborAddr : Ipv4Address;
  nt_interfaceAddr : Ipv4Address
}.

#[export] Instance RoutingTableEntry_eq_dec : EqDecision RoutingTableEntry.
Proof. solve_decision. Defined.
#[export] Instance NeighborTableEntry_eq_dec : EqDecision NeighborTableEntry.
Proof. solve_decision. Defined.

(** [error] holds the first [error_count] rows of the array. *)
Record Checker := mkChecker {
  m_neighborTable : stdmap Z NeighborTableEntry;
  m_routingTable : stdmap Z RoutingTableEntry;
  ifs : istream;
  entry_total : Z;
  entry_count : Z;
  is_enabled : bool;
  test_name : string;
  error : list string
}.

(** The variables before main. *)
Definition init : Checker := mkChecker [] [] (mkStream "" false) 0 0 false "" [].

Definition set_neighborTable t c :=
  mkChecker t (m_routingTable c) (ifs c) (entry_total c) (entry_count c) (is_enabled c) (test_name c) (error c).
Definition set_routingTable t c :=
  mkChecker (m_neighborTable c) t (ifs c) (entry_total c) (entry_count c) (is_enabled c) (test_name c) (error c).
Definition set_ifs s c :=
  mkChecker (m_neighborTable c) (m_routingTable c) s (entry_total c) (entry_count c) (is_enabled c) (test_name c) (error c).
Definition set_count n c :=
  mkChecker (m_neighborTable c) (m_routingTable c) (ifs c) (entry_total c) n (is_enabled c) (test_name c) (error c).
Definition set_enabled b c :=
  mkChecker (m_neighborTable c) (m_routingTable c) (ifs c) (entry_total c) (entry_count c) b (test_name c) (error c).
Definition set_error e c :=
  mkChecker (m_neighborTable c) (m_routingTable c) (ifs c) (entry_total c) (entry_count c) (is_enabled c) (test_name c) e.

(** The state a dump starts with. *)
Definition set_title name total s c :=
  mkChecker (m_neighborTable c) (m_routingTable c) s total 0 (is_enabled c) name (error c).

Inductive output : Type :=
| Verdict (name : string) (correct : bool) (errors : list string)
| IncorrectTrace (answer : string).

(** ** Messages *)

(** [%i] of an [int], or of a [uint32_t], which it takes for an [int]. *)
Definition format_i (n : Z) : string :=
  let n := u32 n in
  if n <? 2 ^ 31 then show_uint n else ("-" ++ show_uint (2 ^ 32 - n))%string.

Definition line_end : string := String newline EmptyString.

(** [sprintf (error[error_count++], ...)]: the array is 100 rows of 100 [char]s. *)
Definition add_error (msg : string) (c : Checker) : result Checker :=
  if (length (error c) <? 100)%nat && (String.length msg <? 100)%nat then Ok (set_error (error c ++ [msg]) c)
  else Fault OutOfRange.

(** [error_count = 1; sprintf (error[0], ...)]. *)
Definition only_error (msg : string) (c : Checker) : result Checker :=
  if (String.length msg <? 100)%nat then Ok (set_error [msg] c) else Fault OutOfRange.

(** ** Files *)

(** [file]: what the file of that name holds, if it can be opened. *)
Definition openResultFile (file : option string) (fileName : string) (c : Checker) : Checker :=
  let c := set_enabled (nonempty fileName) c in
  if negb (is_enabled c) then c
  else set_ifs (match file with Some text => mkStream text true | None => mkStream "" false end) c.

(** A closed stream has nothing to read; its flags stay. *)
Definition closeResultFile (c : Checker) : Checker :=
  if negb (is_enabled c) then c else set_ifs (mkStream "" (good (ifs c))) c.

(** ** Beginnings *)

(** The title and the number of rows; a number that cannot be read leaves
    [entry_total] as it was. *)
Definition read_title (c : Checker) : option Checker :=
  '(name, s) ← next_line (ifs c);
  let '(total, s) := extract_int s in
  Some (set_title name (default (entry_total c) total) s c).

Definition read_neighbor (s : istream) : result (Z * NeighborTableEntry * istream) :=
  let '(num, s) := extract_uint32 s in
  let '(addr1, s) := extract_word s in
  let '(addr2, s) := extract_word s in
  num ← num ?? UninitRead;
  Ok (num, mkNeighborTableEntry (AsciiToIpv4Host addr1) (AsciiToIpv4Host addr2), s).

(** The loops over [entry_total] rows. *)
Definition read_neighbors (c : Checker) : result Checker :=
  foldM (fun c _ =>
    '(num, entry, s) ← read_neighbor (ifs c);
    Ok (set_neighborTable (map_set num entry (m_neighborTable c)) (set_ifs s c))) c (seqZ 0 (entry_total c)).

Definition startDumpNeighbor (c : Checker) : option (result Checker) :=
  if negb (is_enabled c) then Some (Ok c)
  else (fun c => set_error [] <$> read_neighbors (set_neighborTable [] c)) <$> read_title c.

Definition startDumpTrafficTrace (c : Checker) : option (result Checker) :=
  if negb (is_enabled c) then Some (Ok c) else (fun c => Ok (set_error [] c)) <$> read_title c.

Definition read_route (s : istream) : result (Z * RoutingTableEntry * istream) :=
  let '(num1, s) := extract_uint32 s in
  let '(addr1, s) := extract_word s in
  let '(num2, s) := extract_uint32 s in
  let '(addr2, s) := extract_word s in
  let '(addr3, s) := extract_word s in
  let '(cost1, s) := extract_uint32 s in
  num1 ← num1 ?? UninitRead; num2 ← num2 ?? UninitRead; cost1 ← cost1 ?? UninitRead;
  Ok (num1, mkRoutingTableEntry (AsciiToIpv4Host addr1) num2 (AsciiToIpv4Host addr2) (AsciiToIpv4Host addr3) cost1, s).

Definition read_routes (c : Checker) : result Checker :=
  foldM (fun c _ =>
    '(num, entry, s) ← read_route (ifs c);
    Ok (set_routingTable (map_set num entry (m_routingTable c)) (set_ifs s c))) c (seqZ 0 (entry_total c)).

(** The table of routes is not cleared. *)
Definition startDumpRoute (c : Checker) : option (result Checker) :=
  if negb (is_enabled c) then Some (Ok c) else (fun c => set_error [] <$> read_routes c) <$> read_title c.

(** ** Endings *)

Definition verdict (c : Checker) : output := Verdict (test_name c) (bool_decide (error c = [])) (error c).

Definition endDump (c : Checker) : result (Checker * list output) :=
  if negb (is_enabled c) then Ok (c, [])
  else
    c ← (if entry_count c <? entry_total c
         then add_error ("entry_count " ++ format_i (entry_count c) ++ " is less than entry_total " ++
                         format_i (entry_total c) ++ line_end)%string c
         else Ok c);
    Ok (c, [verdict c]).

Definition endDumpNeighbor : Checker -> result (Checker * list output) := endDump.
Definition endDumpRoute : Checker -> result (Checker * list output) := endDump.

(** [while (entry_count < entry_total)], with as many rounds as there are
    lines left to read. *)
Fixpoint skip_lines (rounds : nat) (c : Checker) : option Checker :=
  match rounds with
  | O => Some c
  | S rounds' => '(_, s) ← next_line (ifs c); skip_lines rounds' (set_count (entry_count c + 1) (set_ifs s c))
  end.

Definition endDumpTrafficTrace (c : Checker) : option (result (Checker * list output)) :=
  if negb (is_enabled c) then Some (Ok (c, []))
  else
    match (if entry_count c <? entry_total c
           then only_error ("there is less traffic trace than expected in standard answer (" ++
                            format_i (entry_total c) ++ ")" ++ line_end)%string c
           else Ok c) with
    | Fault f => Some (Fault f)
    | Ok c => (fun c => Ok (c, [verdict c])) <$> skip_lines (Z.to_nat (entry_total c - entry_count c)) c
    end.

(** ** Rows *)

(** [Ipv4Address::IsEqual]. *)
Definition Addr_IsEqual (a other : Ipv4Address) : bool := a =? other.

(** [char answer[50]]; [strncmp (line, answer, strlen (answer))]. *)
Definition checkTrafficTrace (g_nodeId g_moduleName : string) (c : Checker) : option (result (Checker * list output)) :=
  if negb (is_enabled c) then Some (Ok (c, []))
  else if entry_total c <=? entry_count c then
    Some (c ← only_error ("there is more traffic trace than expected in standard answer (" ++
                          format_i (entry_total c) ++ ")" ++ line_end)%string c; Ok (c, []))
  else
    (fun '(line, s) =>
      let c := set_count (entry_count c + 1) (set_ifs s c) in
      let answer := ("*TRAFFIC* Node: " ++ g_nodeId ++ ", Module: " ++ g_moduleName)%string in
      if negb (String.length answer <? 50)%nat then Fault OutOfRange
      else if String.prefix answer line then Ok (c, [])
      else c ← only_error ("some trace doesn't match with standard answer." ++ line_end)%string c;
           Ok (c, [IncorrectTrace line])) <$> next_line (ifs c).

Definition checkNeighborTableEntry (neighborNum : Z) (neighborAddr ifAddr : Ipv4Address) (c : Checker) : result Checker :=
  if negb (is_enabled c) then Ok c
  else
    let c := set_count (entry_count c + 1) c in
    match map_find neighborNum (m_neighborTable c) with
    | None => add_error ("neighbor " ++ format_i neighborNum ++ " is nout found in standard answer")%string c
    | Some entry =>
        let wrong what := add_error ("for neighbor " ++ format_i neighborNum ++ what ++ line_end)%string c in
        if negb (Addr_IsEqual neighborAddr (nt_neighborAddr entry)) then wrong ", neighbor address doesn't match"%string
        else if negb (Addr_IsEqual ifAddr (nt_interfaceAddr entry)) then wrong ", interface address doesn't match"%string
        else Ok (set_neighborTable (map_erase neighborNum (m_neighborTable c)) c)
    end.

(** The overloads that take the number of the node as text: [num] is not
    initialised when the text is not a number. *)
Definition checkNeighborTableEntry_text (neighborNum : string) (neighborAddr ifAddr : Ipv4Address) (c : Checker)
    : result Checker :=
  num ← read_uint32 neighborNum ?? UninitRead;
  checkNeighborTableEntry num neighborAddr ifAddr c.

Definition checkRouteTableEntry (dstNum : Z) (dstAddr : Ipv4Address) (nextHopNum : Z)
    (nextHopAddr ifAddr : Ipv4Address) (cost : Z) (c : Checker) : result Checker :=
  if negb (is_enabled c) then Ok c
  else
    let c := set_count (entry_count c + 1) c in
    match map_find dstNum (m_routingTable c) with
    | None => add_error ("route to " ++ format_i dstNum ++ " is nout found in standard answer")%string c
    | Some entry =>
        let wrong n what := add_error ("for route to " ++ format_i n ++ what ++ line_end)%string c in
        if negb (Addr_IsEqual dstAddr (rt_destAddr entry)) then wrong dstNum ", destination address doesn't match"%string
        else if negb (cost =? rt_cost entry) then wrong (entry_count c) ", cost doesn't match"%string
        else if negb (nextHopNum =? rt_nextHopNum entry) then
          wrong dstNum ", next hop number doesn't match. But it gives the same minimum cost"%string
        else if negb (Addr_IsEqual nextHopAddr (rt_nextHopAddr entry)) then
          wrong dstNum ", next hop address doesn't match"%string
        else if negb (Addr_IsEqual ifAddr (rt_interfaceAddr entry)) then
          wrong dstNum ", interface address doesn't match"%string
        else Ok (set_routingTable (map_erase dstNum (m_routingTable c)) c)
    end.

Definition checkRouteTableEntry_text (dstNum : string) (dstAddr : Ipv4Address) (nextHopNum : Z)
    (nextHopAddr ifAddr : Ipv4Address) (cost : Z) (c : Checker) : result Checker :=
  num ← read_uint32 dstNum ?? UninitRead;
  checkRouteTableEntry num dstAddr nextHopNum nextHopAddr ifAddr cost c.

(** The rows a DUMP command prints are reported as they are printed. *)
Definition report {M} (c : Checker) (a : action M) : result Checker :=
  match a with
  | NeighborRow node addr interfaceAddr => checkNeighborTableEntry_text node addr interfaceAddr c
  | RouteRow node destAddr nextHopNum nextHopAddr interfaceAddr cost =>
      checkRouteTableEntry_text node destAddr nextHopNum nextHopAddr interfaceAddr cost c
  | _ => Ok c
  end.
