(* ===== verification/TestResultSpec.v ===== *)
(** * TestResultSpec: when the checker says "correct"

    A section of a results file that is printed from expected rows is read
    back exactly, and the verdict on the reported rows is "correct" exactly
    when they are the expected ones in some order. *)

From S2P Require Import Prelude StdMap StdString Ipv4Address Node TestResult.
From S2P Require LSMessage DVMessage LSRouting LSDijkstra LSForwarding DVRouting DVNetwork DVConverge.

(** ** Text *)

Lemma take_until_app f (a : string) c r :
  every (fun x => negb (f x)) a = true -> f c = true -> take_until f (a +:+ String c r) = (a, String c r).
Proof.
  intros Ha Hc. induction a as [|x a IH]; [rewrite string_app_nil_l; cbn [take_until]; by rewrite Hc|].
  cbn [every] in Ha. apply andb_true_iff in Ha as [Hx Ha]. apply negb_true_iff in Hx.
  rewrite string_app_cons. cbn [take_until]. by rewrite Hx, IH.
Qed.

Lemma format_i_length n : (String.length (format_i n) <= 11)%nat.
Proof.
  assert (forall m, String.length (show_uint m) <= 10)%nat as Hs.
  { intros m. unfold show_uint. etransitivity; [apply show_go_length|]. cbn. lia. }
  unfold format_i. destruct (_ <? _); [|rewrite length_string_app; cbn [String.length]].
  - etransitivity; [apply Hs|lia].
  - pose proof (Hs (2 ^ 32 - u32 n)). lia.
Qed.

Lemma digit_not_space c : is_digit c = true -> is_space c = false.
Proof. unfold is_digit, is_space. lia. Qed.

Lemma space_not_digit c : is_space c = true -> is_digit c = false.
Proof. unfold is_digit, is_space. lia. Qed.

(** ** Reading back what was printed *)

Lemma read_digits_behind n c r :
  is_u32 n -> is_digit c = false -> read_digits (show_uint n +:+ String c r) 0 = n.
Proof.
  intros Hn Hc. unfold show_uint.
  rewrite (absorb_show_go (fun s a => read_digits (s +:+ String c r) a) (2 ^ 32)).
  - rewrite string_app_nil_l. cbn [read_digits]. by rewrite Hc.
  - intros d acc m Hd _ _. rewrite string_app_cons. by apply read_digits_digit.
  - cbn. uint.
  - uint.
  - lia.
Qed.

Lemma starts_behind n r : is_u32 n -> starts_with_digit (show_uint n +:+ r) = true.
Proof. intros Hn. pose proof (show_first n Hn) as Hf. destruct (show_uint n); [done|by rewrite string_app_cons]. Qed.

Lemma skip_white w s : every is_space w = true -> skip_spaces (w +:+ s) = skip_spaces s.
Proof.
  induction w as [|c w IH]; [done|]. cbn [every]. rewrite andb_true_iff, string_app_cons. intros [Hc Hw].
  cbn [skip_spaces]. rewrite Hc. by apply IH.
Qed.

Section number.
Context (w : string) (n : Z) (c : ascii) (r : string).
Context (Hw : every is_space w = true) (Hc : is_space c = true).

Lemma sign_behind : is_u32 n ->
  read_sign (skip_spaces (w +:+ show_uint n +:+ String c r)) = (false, show_uint n +:+ String c r)%string.
Proof using Hw. intros Hn. rewrite skip_white by done. by apply digit_start_plain, starts_behind. Qed.

Lemma behind_number_show : is_u32 n -> behind_number (w +:+ show_uint n +:+ String c r) = String c r.
Proof using Hw Hc.
  intros Hn. unfold behind_number. rewrite sign_behind by done. cbn [snd]. rewrite take_until_app; [done| |].
  - apply (every_impl is_digit); [by intros x ->|]. apply show_digits. uint.
  - by rewrite space_not_digit.
Qed.

Lemma extract_uint32_show : is_u32 n ->
  extract_uint32 (mkStream (w +:+ show_uint n +:+ String c r) true) = (Some n, mkStream (String c r) true).
Proof using Hw Hc.
  intros Hn. unfold extract_uint32, extract. cbn [good TestResult.rest]. rewrite behind_number_show by done.
  unfold read_uint32. rewrite sign_behind, starts_behind, read_digits_behind by (done || by apply space_not_digit).
  rewrite u32_small by done. by replace (n <=? UINT32_MAX) with true by uint.
Qed.

Lemma extract_int_show : 0 <= n < 2 ^ 31 ->
  extract_int (mkStream (w +:+ show_uint n +:+ String c r) true) = (Some n, mkStream (String c r) true).
Proof using Hw Hc.
  intros Hn. assert (is_u32 n) as Hu by (unfold is_u32; lia).
  unfold extract_int, extract. cbn [good TestResult.rest]. rewrite behind_number_show by done.
  unfold read_int, atoi. rewrite sign_behind by done. cbn [snd].
  rewrite starts_behind, read_digits_behind by (done || by apply space_not_digit).
  rewrite andb_true_l. by replace ((- 2 ^ 31 <=? n) && (n <? 2 ^ 31)) with true by lia.
Qed.

Lemma extract_word_show word : nonempty word = true -> every (fun x => negb (is_space x)) word = true ->
  extract_word (mkStream (w +:+ word +:+ String c r) true) = (word, mkStream (String c r) true).
Proof using Hw Hc.
  intros Hne Hs. unfold extract_word. cbn [good TestResult.rest]. rewrite skip_white by done.
  replace (skip_spaces (word +:+ String c r)) with (word +:+ String c r)%string.
  - rewrite take_until_app by done. by rewrite Hne.
  - destruct word as [|x word]; [done|]. cbn [every] in Hs. apply andb_true_iff in Hs as [Hx _].
    apply negb_true_iff in Hx. rewrite string_app_cons. cbn [skip_spaces]. by rewrite Hx.
Qed.
End number.

(** ** Titles *)

Fixpoint newlines (k : nat) : string :=
  match k with O => EmptyString | S k' => String newline (newlines k') end.

Definition title (name : string) : Prop :=
  nonempty name = true /\ every (fun c => negb (Ascii.eqb newline c)) name = true.

Lemma getlines_title rounds k name r :
  title name -> (k < rounds)%nat ->
  getlines rounds "" (mkStream (newlines k +:+ name +:+ String newline r) true) = Some (name, mkStream r true).
Proof.
  intros [Hne Hnl]. revert rounds. induction k as [|k IH]; intros [|rounds] Hk; try lia; cbn [getlines].
  - cbn [newlines]. rewrite string_app_nil_l. unfold getline. cbn [good TestResult.rest].
    rewrite take_until_app by done. destruct rounds; cbn [getlines]; by rewrite Hne.
  - cbn [newlines]. rewrite string_app_cons. apply IH. lia.
Qed.

Lemma next_line_title k name r : title name ->
  next_line (mkStream (newlines k +:+ name +:+ String newline r) true) = Some (name, mkStream r true).
Proof.
  intros Ht. apply getlines_title; [done|]. cbn [TestResult.rest]. rewrite length_string_app.
  replace (String.length (newlines k)) with k; [lia|]. induction k; cbn; by f_equal.
Qed.

(** Streams on which the loop that looks for a line never ends. *)
Definition exhausted (s : istream) : Prop := good s = false \/ every (Ascii.eqb newline) (rest s) = true.

Lemma getlines_exhausted rounds s : exhausted s -> getlines rounds "" s = None.
Proof.
  revert s; induction rounds as [|rounds IH]; intros [t g] Hs; [done|]. cbn [getlines nonempty].
  unfold getline. cbn [good TestResult.rest]. destruct g; [|by apply IH; left].
  destruct Hs as [|Hs]; [done|]. cbn [TestResult.rest] in Hs. destruct t as [|c t]; cbn [take_until]; [by apply IH; left|].
  cbn [every] in Hs. apply andb_true_iff in Hs as [-> Ht]. cbn. apply IH. by right.
Qed.

Lemma getlines_none rounds s :
  (String.length (rest s) < rounds)%nat -> getlines rounds "" s = None -> exhausted s.
Proof.
  revert s; induction rounds as [|rounds IH]; intros [t g] Hlen; cbn [TestResult.rest] in Hlen; [lia|].
  cbn [getlines nonempty]. unfold getline. cbn [good TestResult.rest]. destruct g; [|by left].
  destruct t as [|c t]; cbn [take_until]; [by right|]. destruct (Ascii.eqb newline c) eqn:Hc.
  - cbn. intros Hn. cbn in Hlen. destruct (IH (mkStream t true)) as [?|Ht]; [cbn; lia|done|done|].
    right. cbn [every TestResult.rest]. by rewrite Hc.
  - destruct (take_until (Ascii.eqb newline) t) as [a [|b s']]; destruct rounds; done.
Qed.

(** ** A section of the file *)

Lemma seqZ_length n : 0 <= n -> Z.of_nat (length (seqZ 0 n)) = n.
Proof. intros. rewrite length_seqZ. lia. Qed.

(** Tables as the loops fill them. *)
Definition table_of {V} (t : stdmap Z V) (rows : list (Z * V)) : stdmap Z V :=
  foldl (fun t r => map_set r.1 r.2 t) t rows.

(** Rows taken off a table one by one. *)
Fixpoint taken {V} `{EqDecision V} (t : stdmap Z V) (rows : list (Z * V)) : option (stdmap Z V) :=
  match rows with
  | [] => Some t
  | r :: rows' => if decide (map_find r.1 t = Some r.2) then taken (map_erase r.1 t) rows' else None
  end.

Section taken.
Context {V : Type} `{EqDecision V}.
Implicit Types (t : stdmap Z V) (l : list (Z * V)).

Lemma taken_spec t l :
  is_Some (taken t l) <-> NoDup l.*1 /\ forall k v, (k, v) ∈ l -> map_find k t = Some v.
Proof.
  revert t; induction l as [|[k v] l IH]; intros t; cbn [taken fst snd].
  - split; [|by eexists]. intros _. split; [constructor|]. by intros k v ?%not_elem_of_nil.
  - rewrite fmap_cons, NoDup_cons. cbn [fst]. case_decide as Hk.
    + rewrite IH. split.
      * intros [Hnd Hl]. split; [split; [|done]|].
        { intros ([k' v'] & Hkk & Hin)%list_elem_of_fmap. cbn in Hkk. subst k'. specialize (Hl _ _ Hin).
          rewrite map_find_erase in Hl. by case_decide. }
        intros k' v' [[= -> ->]|Hin]%elem_of_cons; [done|]. specialize (Hl _ _ Hin).
        rewrite map_find_erase in Hl. by case_decide.
      * intros [[Hni Hnd] Hl]. split; [done|]. intros k' v' Hin. rewrite map_find_erase. case_decide as Hkk.
        { subst k'. destruct Hni. apply list_elem_of_fmap. by exists (k, v'). }
        apply Hl. by right.
    + split; [by intros [? ?]|]. intros [_ Hl]. destruct Hk. apply Hl. left.
Qed.

Lemma taken_find t l t' k :
  taken t l = Some t' -> map_find k t' = if decide (k ∈ l.*1) then None else map_find k t.
Proof.
  revert t; induction l as [|[k1 v1] l IH]; intros t; cbn [taken fst snd].
  - intros [= ->]. rewrite decide_False; [done|apply not_elem_of_nil].
  - destruct (decide (map_find k1 t = Some v1)); [|done]. intros ->%IH. rewrite fmap_cons, map_find_erase. cbn [fst].
    destruct (decide (k ∈ l.*1)); [by rewrite decide_True by (by right)|].
    destruct (decide (k1 = k)) as [->|]; [by rewrite decide_True by left|].
    rewrite decide_False; [done|]. by rewrite not_elem_of_cons.
Qed.

Lemma table_of_wf t l : map_wf t -> map_wf (table_of t l).
Proof. revert t; induction l as [|r l IH]; intros t Ht; [done|]. apply IH. by apply map_wf_set. Qed.

Lemma table_of_keys t l k : map_find k (table_of t l) <> None -> k ∈ l.*1 \/ map_find k t <> None.
Proof.
  revert t; induction l as [|r l IH]; intros t; [by right|]. cbn [table_of foldl]. intros [?|H]%IH.
  - left. rewrite fmap_cons. by right.
  - rewrite map_find_set in H. case_decide; [left; subst; rewrite fmap_cons; left|by right].
Qed.

Lemma table_of_find l t k v : NoDup l.*1 -> (k, v) ∈ l -> map_find k (table_of t l) = Some v.
Proof.
  revert t; induction l as [|r l IH]; intros t; [by intros _ ?%not_elem_of_nil|].
  rewrite fmap_cons, NoDup_cons. intros [Hni Hnd] [<-|Hin]%elem_of_cons; [|by apply IH].
  cbn [table_of foldl fst snd]. clear IH Hnd. revert Hni. cbn [fst].
  assert (map_find k (map_set k v t) = Some v) as Hk by apply map_find_set_eq.
  revert Hk. generalize (map_set k v t). induction l as [|r' l IH]; intros t' Hk Hni; [done|].
  cbn [table_of foldl]. rewrite fmap_cons, not_elem_of_cons in Hni. destruct Hni. apply IH; [|done].
  by rewrite map_find_set_ne.
Qed.

Lemma table_of_only l k v : map_find k (table_of [] l) = Some v -> (k, v) ∈ l.
Proof.
  cut (forall t, map_find k (table_of t l) = Some v -> (k, v) ∈ l \/ map_find k t = Some v).
  { intros Hc H. by destruct (Hc _ H). }
  induction l as [|r l IH]; intros t; [by right|]. cbn [table_of foldl]. intros [?|Hf]%IH; [left; by right|].
  rewrite map_find_set in Hf. case_decide; [|by right]. left. destruct r; cbn in *. simplify_eq. left.
Qed.

(** Taking as many rows off a table as were put into it, one cannot miss any. *)
Lemma taken_all l got :
  is_Some (taken (table_of [] l) got) /\ (length l <= length got)%nat <-> NoDup l.*1 /\ got ≡ₚ l.
Proof.
  rewrite taken_spec. split.
  - intros [[Hnd Hin] Hlen].
    assert (incl got l) as Hincl.
    { intros [k v] Hkv%list_elem_of_In. apply list_elem_of_In, table_of_only. by apply Hin. }
    assert (NoDup got) as Hgot by by eapply NoDup_fmap_1.
    assert (got ≡ₚ l) as Hp.
    { apply NoDup_Permutation_bis; [by apply NoDup_ListNoDup|done|done]. }
    split; [by rewrite <- Hp|done].
  - intros [Hnd Hp]. split; [|by rewrite Hp]. split; [by rewrite Hp|].
    intros k v Hkv. apply table_of_find; [done|]. by rewrite <- Hp.
Qed.

Lemma taken_nothing_left l got t' :
  taken (table_of [] l) got = Some t' -> got ≡ₚ l -> t' = [].
Proof.
  intros Ht Hp. destruct t' as [|[k v] t']; [done|]. exfalso.
  pose proof (taken_find _ _ _ k Ht) as Hf. cbn [map_find] in Hf. rewrite decide_True in Hf by done.
  case_decide as Hk; [done|]. destruct Hk. rewrite Hp. apply list_elem_of_fmap. exists (k, v). split; [done|].
  by apply table_of_only.
Qed.
End taken.

(** ** A dump, for either table *)

(** A DUMP command as the script schedules it: the rows of [acts] are
    reported between the beginning and the end. *)
Definition dump {M} (start : Checker -> option (result Checker)) (acts : list (action M)) (c : Checker)
    : option (result (Checker * list output)) :=
  (fun r => c ← r; c ← foldM report c acts; endDump c) <$> start c.

Definition same_head (c c' : Checker) : Prop :=
  entry_total c' = entry_total c /\ entry_count c' = entry_count c /\ is_enabled c' = is_enabled c /\
  test_name c' = test_name c.

Definition lines {R} (body : R -> string) (rows : list R) : string :=
  foldr (fun r s => String newline (body r) +:+ s) "" rows.

(** A section of a results file. *)
Definition section_text {R} (body : R -> string) (name : string) (rows : list R) : string :=
  name +:+ String newline (show_uint (Z.of_nat (length rows)) +:+ lines body rows).

Lemma lines_behind {R} (body : R -> string) rows more :
  exists s, lines body rows +:+ String newline more = String newline s.
Proof.
  destruct rows as [|r rows]; [by exists more|]. cbn [lines foldr]. rewrite string_app_cons, string_app_cons. by eexists.
Qed.

Section dump.
Context {M V : Type} `{EqDecision V}.
Context (table : Checker -> stdmap Z V) (put : stdmap Z V -> Checker -> Checker) (clear : Checker -> Checker).
Context (read : istream -> result (Z * V * istream)) (body : Z * V -> string) (row_ok : Z * V -> Prop).
Context (row : Z * V -> action M) (start : Checker -> option (result Checker)).

Definition read_row (c : Checker) (_ : Z) : result Checker :=
  '(num, entry, s) ← read (ifs c); Ok (put (map_set num entry (table c)) (set_ifs s c)).

(** What the two tables have in common. *)
Record dump_laws : Prop := {
  read_body r c s : row_ok r -> is_space c = true ->
    read (mkStream (String newline (body r) +:+ String c s) true) = Ok (r.1, r.2, mkStream (String c s) true);
  table_put t s c : table (put t (set_ifs s c)) = t;
  ifs_put t s c : ifs (put t (set_ifs s c)) = s;
  head_put t s c : same_head c (put t (set_ifs s c));
  table_error e c : table (set_error e c) = table c;
  ifs_clear c : ifs (clear c) = ifs c;
  head_clear c : same_head c (clear c);
  start_eq c : is_enabled c = true ->
    start c = (fun c => set_error [] <$> foldM read_row (clear c) (seqZ 0 (entry_total (clear c)))) <$> read_title c;
  report_row c r : is_enabled c = true -> is_u32 r.1 -> (length (error c) < 100)%nat ->
    exists c', report c (row r) = Ok c' /\ is_enabled c' = true /\ entry_total c' = entry_total c /\
      entry_count c' = entry_count c + 1 /\ test_name c' = test_name c /\ ifs c' = ifs c /\
      if decide (map_find r.1 (table c) = Some r.2)
      then table c' = map_erase r.1 (table c) /\ error c' = error c
      else table c' = table c /\ exists msg, error c' = error c ++ [msg]
}.
Hypothesis L : dump_laws.

Lemma read_rows rows more c l :
  Forall row_ok rows -> length l = length rows -> ifs c = mkStream (lines body rows +:+ String newline more) true ->
  exists c', foldM read_row c l = Ok c' /\ table c' = table_of (table c) rows /\ same_head c c' /\
    ifs c' = mkStream (String newline more) true.
Proof using L.
  revert c l; induction rows as [|r rows IH]; intros c [|x l] Hok Hlen Hs; try done.
  { exists c. by split_and!. }
  apply Forall_cons in Hok as [Hr Hok]. injection Hlen as Hlen. cbn [lines foldr] in Hs.
  fold (lines body rows) in Hs. rewrite string_app_assoc in Hs. destruct (lines_behind body rows more) as [s Hb]. rewrite Hb in Hs.
  set (c1 := put (map_set r.1 r.2 (table c)) (set_ifs (mkStream (String newline s) true) c)).
  assert (read_row c x = Ok c1) as Hrow by (unfold read_row; by rewrite Hs, (read_body L)).
  rewrite foldM_cons, Hrow. cbn [mbind result_bind]. destruct (IH c1 l Hok Hlen) as (c' & Heq & Ht & Hh & Hi).
  { unfold c1. by rewrite (ifs_put L), Hb. }
  exists c'. split; [done|]. split.
  - rewrite Ht. unfold c1. by rewrite (table_put L).
  - split; [|done]. pose proof (head_put L (map_set r.1 r.2 (table c)) (mkStream (String newline s) true) c) as Hp.
    fold c1 in Hp. unfold same_head in *. intuition congruence.
Qed.

Lemma report_rows got c :
  is_enabled c = true -> Forall (fun r => is_u32 r.1) got -> (length (error c) + length got <= 100)%nat ->
  exists c', foldM report c (map row got) = Ok c' /\ is_enabled c' = true /\ entry_total c' = entry_total c /\
    entry_count c' = entry_count c + Z.of_nat (length got) /\ test_name c' = test_name c /\ ifs c' = ifs c /\
    (length (error c') <= length (error c) + length got)%nat /\
    (error c' = [] <-> error c = [] /\ is_Some (taken (table c) got)) /\
    (forall t, taken (table c) got = Some t -> table c' = t).
Proof using L.
  revert c; induction got as [|r got IH]; intros c He Hu Hlen.
  { exists c. cbn. split_and!; try done; [lia|lia|naive_solver|by intros t [= ->]]. }
  apply Forall_cons in Hu as [Hr Hu]. cbn [length] in Hlen |- *. cbn [map]. rewrite foldM_cons.
  destruct (report_row L c r He Hr ltac:(lia)) as (c1 & -> & He1 & Ht1 & Hc1 & Hn1 & Hi1 & Hcase).
  cbn [mbind result_bind taken].
  destruct (IH c1 He1 Hu) as (c' & -> & He' & Ht' & Hc' & Hn' & Hi' & Hl' & Herr & Htab).
  { destruct (decide _); [destruct Hcase as [_ ->]; lia|destruct Hcase as [_ [m ->]]]. rewrite length_app. cbn. lia. }
  exists c'. split; [done|]. split_and!; try congruence; [lia|..].
  - destruct (decide _); [destruct Hcase as [_ E]; rewrite E in Hl'; lia|destruct Hcase as [_ [m E]]].
    rewrite E, length_app in Hl'. cbn in Hl'. lia.
  - rewrite Herr. destruct (decide _); [destruct Hcase as [-> ->]; done|destruct Hcase as [_ [m ->]]].
    split; [intros [H _]; by destruct (error c)|by intros [_ [? ?]]].
  - destruct (decide _); [destruct Hcase as [E _]|done]. by rewrite <- E.
Qed.

Lemma endDump_spec c : is_enabled c = true -> (length (error c) < 100)%nat ->
  exists c' b, endDump c = Ok (c', [Verdict (test_name c) b (error c')]) /\ is_enabled c' = true /\ ifs c' = ifs c /\
    table c' = table c /\ (b = true <-> error c = [] /\ entry_total c <= entry_count c).
Proof using L.
  intros He Hl. unfold endDump. rewrite He. cbn [negb].
  destruct (Z.ltb_spec (entry_count c) (entry_total c)) as [Hlt|Hge].
  - unfold add_error. rewrite (proj2 (Nat.ltb_lt _ _) Hl).
    rewrite (proj2 (Nat.ltb_lt _ 100)).
    + cbn [andb mbind result_bind]. eexists _, _. split; [done|]. split_and!; try done; [apply (table_error L)|].
      cbn. rewrite bool_decide_eq_true. split; [intros H; by apply app_eq_nil in H as [_ ?]|lia].
    + rewrite !length_string_app. pose proof (format_i_length (entry_count c)). pose proof (format_i_length (entry_total c)).
      cbn [String.length line_end]. lia.
  - cbn [mbind result_bind]. eexists _, _. split; [done|]. split_and!; try done.
    rewrite bool_decide_eq_true. naive_solver.
Qed.

(** The verdict is "correct" exactly when the reported rows are the expected
    ones, in any order, and no number is expected twice. *)
Lemma dump_verdict c k name expected got more :
  is_enabled c = true -> title name -> Forall row_ok expected -> Forall (fun r => is_u32 r.1) got ->
  Z.of_nat (length expected) < 2 ^ 31 -> (length got < 100)%nat ->
  (forall total s, table (clear (set_title name total s c)) = []) ->
  ifs c = mkStream (newlines k +:+ section_text body name expected +:+ String newline more) true ->
  exists c' correct errors,
    dump start (map row got) c = Some (Ok (c', [Verdict name correct errors])) /\
    (correct = true <-> NoDup expected.*1 /\ got ≡ₚ expected) /\
    is_enabled c' = true /\ ifs c' = mkStream (String newline more) true /\ (correct = true -> table c' = []).
Proof using L.
  intros He Hname Hok Hgot Hexp Hlen Hclear Hs. unfold dump. rewrite (start_eq L) by done.
  unfold read_title. rewrite Hs. unfold section_text. rewrite string_app_assoc, string_app_cons, string_app_assoc.
  rewrite next_line_title by done. cbn [mbind option_bind].
  destruct (lines_behind body expected more) as [s Hb]. rewrite Hb.
  rewrite <- (string_app_nil_l (show_uint _ +:+ _)), (extract_int_show "") by (done || lia).
  cbn [fmap option_fmap option_map default]. rewrite <- Hb. set (c1 := set_title _ _ _ c).
  destruct (head_clear L c1) as (Ht1 & Hc1 & He1 & Hn1).
  assert (entry_total (clear c1) = Z.of_nat (length expected)) as Htot by by rewrite Ht1. rewrite Htot.
  destruct (read_rows expected more (clear c1) (seqZ 0 (Z.of_nat (length expected))) Hok) as (c2 & -> & Ht2 & Hh2 & Hi2).
  { rewrite length_seqZ. lia. }
  { by rewrite (ifs_clear L). }
  cbn [fmap result_fmap mbind result_bind]. unfold c1 in Ht2 at 1. rewrite Hclear in Ht2.
  destruct Hh2 as (Htot2 & Hc2 & He2 & Hn2).
  assert (is_enabled (set_error [] c2) = true) as He3 by (cbn; by rewrite He2, He1).
  destruct (report_rows got (set_error [] c2) He3 Hgot) as (c4 & -> & He4 & Ht4 & Hc4 & Hn4 & Hi4 & Hl4 & Herr4 & Htab4);
    [cbn [length error set_error]; lia|].
  cbn [mbind result_bind]. cbn [length error set_error] in Hl4.
  destruct (endDump_spec c4 He4) as (c5 & b & -> & He5 & Hi5 & Ht5 & Hb5); [lia|].
  rewrite (table_error L), Ht2 in Herr4, Htab4.
  assert (test_name c4 = name) as -> by (rewrite Hn4; cbn; by rewrite Hn2, Hn1).
  exists c5, b, (error c5). split; [done|].
  assert (b = true <-> NoDup expected.*1 /\ got ≡ₚ expected) as Hiff.
  { rewrite Hb5, Herr4, <- taken_all. cbn in Hc4, Ht4.
    assert (entry_count c2 = 0) as E by (rewrite Hc2, Hc1; done). rewrite E, Htot2, Htot in *.
    split; [intros [[_ ?] ?]; split; [done|lia]|intros [? ?]; split_and!; [done|done|lia]]. }
  split; [done|]. split; [done|]. split; [rewrite Hi5, Hi4; done|].
  intros Hbt. rewrite Ht5. apply Hb5 in Hbt as Hbt'. destruct Hbt' as [[_ [t Ht]]%Herr4 _].
  rewrite (Htab4 _ Ht). apply Hiff in Hbt as [_ Hp]. by eapply taken_nothing_left.
Qed.
End dump.

(** ** The rows of the two tables *)

Lemma print_word a : nonempty (Addr_Print a) = true /\ every (fun c => negb (is_space c)) (Addr_Print a) = true.
Proof.
  assert (forall k, 0 <= k -> every (fun c => negb (is_space c)) (show_uint (addr_byte a k)) = true) as Hd.
  { intros k Hk. apply (every_impl is_digit); [intros c Hc; by rewrite digit_not_space|].
    apply show_digits. pose proof (addr_byte_range a k Hk). lia. }
  unfold Addr_Print. split.
  - unfold show_uint. destruct (show_go_nonempty 9 (addr_byte a 24) "") as (c & s & ->). by rewrite string_app_cons.
  - by rewrite !every_app, !Hd by lia.
Qed.

Lemma extract_address w a c r : every is_space w = true -> is_space c = true ->
  extract_word (mkStream (w +:+ Addr_Print a +:+ String c r) true) = (Addr_Print a, mkStream (String c r) true).
Proof. intros Hw Hc. destruct (print_word a). by apply extract_word_show. Qed.

Definition space : string := " ".

Definition neighbor_body (r : Z * NeighborTableEntry) : string :=
  show_uint r.1 +:+ space +:+ Addr_Print (nt_neighborAddr r.2) +:+ space +:+ Addr_Print (nt_interfaceAddr r.2).
Definition neighbor_ok (r : Z * NeighborTableEntry) : Prop :=
  is_u32 r.1 /\ is_u32 (nt_neighborAddr r.2) /\ is_u32 (nt_interfaceAddr r.2).
Definition neighbor_row {M} (r : Z * NeighborTableEntry) : action M :=
  NeighborRow (show_uint r.1) (nt_neighborAddr r.2) (nt_interfaceAddr r.2).

Definition route_body (r : Z * RoutingTableEntry) : string :=
  show_uint r.1 +:+ space +:+ Addr_Print (rt_destAddr r.2) +:+ space +:+ show_uint (rt_nextHopNum r.2) +:+ space +:+
  Addr_Print (rt_nextHopAddr r.2) +:+ space +:+ Addr_Print (rt_interfaceAddr r.2) +:+ space +:+ show_uint (rt_cost r.2).
Definition route_ok (r : Z * RoutingTableEntry) : Prop :=
  is_u32 r.1 /\ is_u32 (rt_destAddr r.2) /\ is_u32 (rt_nextHopNum r.2) /\ is_u32 (rt_nextHopAddr r.2) /\
  is_u32 (rt_interfaceAddr r.2) /\ is_u32 (rt_cost r.2).
Definition route_row {M} (r : Z * RoutingTableEntry) : action M :=
  RouteRow (show_uint r.1) (rt_destAddr r.2) (rt_nextHopNum r.2) (rt_nextHopAddr r.2) (rt_interfaceAddr r.2) (rt_cost r.2).

(** A rest of the stream [s] behind a space, as [extract_*_show] read it. *)
Lemma one_space (s : string) : space +:+ s = String " "%char s.
Proof. by unfold space; rewrite string_app_cons, string_app_nil_l. Qed.

Lemma lead c (s : string) : String c s = String c "" +:+ s.
Proof. by rewrite string_app_cons, string_app_nil_l. Qed.

Lemma read_neighbor_body r c s : neighbor_ok r -> is_space c = true ->
  read_neighbor (mkStream (String newline (neighbor_body r) +:+ String c s) true) = Ok (r.1, r.2, mkStream (String c s) true).
Proof.
  destruct r as [num [a1 a2]]. intros (Hn & H1 & H2) Hc. cbn [fst snd nt_neighborAddr nt_interfaceAddr] in *.
  unfold read_neighbor, neighbor_body. cbn [fst snd nt_neighborAddr nt_interfaceAddr].
  rewrite string_app_cons, !string_app_assoc, (lead newline), !one_space.
  rewrite extract_uint32_show, (lead " "), extract_address, (lead " "), extract_address by done.
  cbn [or_fault mbind result_bind]. by rewrite !AsciiToIpv4Host_Print.
Qed.

Lemma read_route_body r c s : route_ok r -> is_space c = true ->
  read_route (mkStream (String newline (route_body r) +:+ String c s) true) = Ok (r.1, r.2, mkStream (String c s) true).
Proof.
  destruct r as [num [a1 n2 a2 a3 cost]]. intros (Hn & H1 & H2 & H3 & H4 & H5) Hc.
  cbn [fst snd rt_destAddr rt_nextHopNum rt_nextHopAddr rt_interfaceAddr rt_cost] in *.
  unfold read_route, route_body. cbn [fst snd rt_destAddr rt_nextHopNum rt_nextHopAddr rt_interfaceAddr rt_cost].
  rewrite string_app_cons, !string_app_assoc, (lead newline), !one_space.
  rewrite extract_uint32_show, (lead " "), extract_address, (lead " "), extract_uint32_show by done.
  rewrite (lead " "), extract_address, (lead " "), extract_address, (lead " "), extract_uint32_show by done.
  cbn [or_fault mbind result_bind]. by rewrite !AsciiToIpv4Host_Print.
Qed.

(** An error message is always short enough. *)
Lemma add_error_ok msg c : (length (error c) < 100)%nat -> (String.length msg < 100)%nat ->
  add_error msg c = Ok (set_error (error c ++ [msg]) c).
Proof. intros H1 H2. unfold add_error. by rewrite (proj2 (Nat.ltb_lt _ _) H1), (proj2 (Nat.ltb_lt _ _) H2). Qed.

Ltac short_message :=
  rewrite ?length_string_app; repeat match goal with |- context [format_i ?n] =>
    lazymatch goal with H : (String.length (format_i n) <= 11)%nat |- _ => fail | _ => pose proof (format_i_length n) end end;
  unfold line_end; cbn [String.length] in *; lia.

(** Reports whose row is not the expected one. *)
Ltac wrong_row :=
  cbn [negb]; rewrite add_error_ok by (done || short_message);
  eexists; split; [done|]; rewrite decide_False by congruence; split_and!; try done; by eexists.

Lemma report_neighbor {M} c r : is_enabled c = true -> is_u32 r.1 -> (length (error c) < 100)%nat ->
  exists c', report c (neighbor_row r : action M) = Ok c' /\ is_enabled c' = true /\ entry_total c' = entry_total c /\
    entry_count c' = entry_count c + 1 /\ test_name c' = test_name c /\ ifs c' = ifs c /\
    if decide (map_find r.1 (m_neighborTable c) = Some r.2)
    then m_neighborTable c' = map_erase r.1 (m_neighborTable c) /\ error c' = error c
    else m_neighborTable c' = m_neighborTable c /\ exists msg, error c' = error c ++ [msg].
Proof.
  intros He Hu Hl. cbn [report neighbor_row]. unfold checkNeighborTableEntry_text. rewrite read_show by done.
  cbn [or_fault mbind result_bind]. unfold checkNeighborTableEntry, Addr_IsEqual. rewrite He. cbn [negb m_neighborTable set_count].
  destruct (map_find r.1 (m_neighborTable c)) as [e|]; [|wrong_row].
  destruct r as [k [a1 a2]], e as [b1 b2]. cbn [fst snd nt_neighborAddr nt_interfaceAddr].
  destruct (Z.eqb_spec a1 b1) as [->|]; [|wrong_row].
  destruct (Z.eqb_spec a2 b2) as [->|]; [|wrong_row].
  eexists; split; [done|]. rewrite decide_True by done. by split_and!.
Qed.

Lemma report_route {M} c r : is_enabled c = true -> is_u32 r.1 -> (length (error c) < 100)%nat ->
  exists c', report c (route_row r : action M) = Ok c' /\ is_enabled c' = true /\ entry_total c' = entry_total c /\
    entry_count c' = entry_count c + 1 /\ test_name c' = test_name c /\ ifs c' = ifs c /\
    if decide (map_find r.1 (m_routingTable c) = Some r.2)
    then m_routingTable c' = map_erase r.1 (m_routingTable c) /\ error c' = error c
    else m_routingTable c' = m_routingTable c /\ exists msg, error c' = error c ++ [msg].
Proof.
  intros He Hu Hl. cbn [report route_row]. unfold checkRouteTableEntry_text. rewrite read_show by done.
  cbn [or_fault mbind result_bind]. unfold checkRouteTableEntry, Addr_IsEqual. rewrite He. cbn [negb m_routingTable set_count].
  destruct (map_find r.1 (m_routingTable c)) as [e|]; [|wrong_row].
  destruct r as [k [a1 n2 a2 a3 c1]], e as [b1 m2 b2 b3 d1].
  cbn [fst snd rt_destAddr rt_nextHopNum rt_nextHopAddr rt_interfaceAddr rt_cost].
  destruct (Z.eqb_spec a1 b1) as [->|]; [|wrong_row].
  destruct (Z.eqb_spec c1 d1) as [->|]; [|wrong_row].
  destruct (Z.eqb_spec n2 m2) as [->|]; [|wrong_row].
  destruct (Z.eqb_spec a2 b2) as [->|]; [|wrong_row].
  destruct (Z.eqb_spec a3 b3) as [->|]; [|wrong_row].
  eexists; split; [done|]. rewrite decide_True by done. by split_and!.
Qed.

Lemma neighbor_laws {M} : dump_laws (M := M) m_neighborTable set_neighborTable (set_neighborTable [])
  read_neighbor neighbor_body neighbor_ok neighbor_row startDumpNeighbor.
Proof.
  split; try done.
  - apply read_neighbor_body.
  - intros c He. unfold startDumpNeighbor. by rewrite He.
  - apply report_neighbor.
Qed.

Lemma route_laws {M} : dump_laws (M := M) m_routingTable set_routingTable id
  read_route route_body route_ok route_row startDumpRoute.
Proof.
  split; try done.
  - apply read_route_body.
  - intros c He. unfold startDumpRoute. by rewrite He.
  - apply report_route.
Qed.

(** ** Properties *)

(** Looking for a title.  The loop that reads lines until one is not empty
    ends exactly when a line that is not empty is left to be read; otherwise
    no number of rounds is enough, and the simulation hangs. *)
Theorem next_line_ends s :
  (next_line s = None <-> exhausted s) /\ (exhausted s -> forall rounds, getlines rounds "" s = None).
Proof.
  split; [|intros; by apply getlines_exhausted]. unfold next_line. split.
  - apply getlines_none. lia.
  - apply getlines_exhausted.
Qed.

(** What is left of a table after its protocol reported it: the number of a
    node in the protocol is its printed number. *)
Definition shows_neighbor (i : string * DVRouting.NeighborTableEntry) (r : Z * NeighborTableEntry) : Prop :=
  i.1 = show_uint r.1 /\ DVRouting.nt_neighborAddr i.2 = nt_neighborAddr r.2 /\
  DVRouting.nt_interfaceAddr i.2 = nt_interfaceAddr r.2.

Definition shows_route {SR} (st : LSRouting.LSState SR) (i : string * LSRouting.RoutingTableEntry)
    (r : Z * RoutingTableEntry) : Prop :=
  LSRouting.ReverseLookup st (LSRouting.rt_destAddr i.2) = show_uint r.1 /\
  r.2 = mkRoutingTableEntry (LSRouting.rt_destAddr i.2) (LSRouting.rt_nextHopNum i.2) (LSRouting.rt_nextHopAddr i.2)
          (LSRouting.rt_interfaceAddr i.2) (LSRouting.rt_cost i.2).

Lemma map_Forall2 {A B C} (f : A -> C) (g : B -> C) (R : A -> B -> Prop) l l' :
  (forall a b, R a b -> f a = g b) -> Forall2 R l l' -> map f l = map g l'.
Proof. intros Hf. induction 1 as [|a b l l' Hab Hl IH]; [done|]. cbn. by rewrite (Hf a b), IH. Qed.

Lemma dv_dump_rows {SR} (st : DVRouting.DVState SR) got :
  Forall2 shows_neighbor (DVRouting.m_neighborTable st) got ->
  DVRouting.DumpNeighbors st = Ok (tt, st, map neighbor_row got).
Proof.
  intros Hg. unfold DVRouting.DumpNeighbors, mbind, handler_bind, get.
  rewrite (for_loop_emits _ _ (fun i => NeighborRow i.1 (DVRouting.nt_neighborAddr i.2) (DVRouting.nt_interfaceAddr i.2)))
    by by apply Forall_forall.
  cbn [app]. do 2 f_equal. eapply map_Forall2; [|exact Hg]. intros i r (H1 & H2 & H3). unfold neighbor_row. by rewrite H1, H2, H3.
Qed.

Lemma ls_dump_rows {SR} (st : LSRouting.LSState SR) got :
  Forall2 (shows_route st) (LSRouting.m_routingTable st) got ->
  LSRouting.DumpRoutingTable st = Ok (tt, st, map route_row got).
Proof.
  intros Hg. unfold LSRouting.DumpRoutingTable, mbind, handler_bind, get.
  rewrite (for_loop_emits _ _ (fun i => RouteRow (LSRouting.ReverseLookup st (LSRouting.rt_destAddr i.2))
    (LSRouting.rt_destAddr i.2) (LSRouting.rt_nextHopNum i.2) (LSRouting.rt_nextHopAddr i.2)
    (LSRouting.rt_interfaceAddr i.2) (LSRouting.rt_cost i.2))) by by apply Forall_forall.
  cbn [app]. do 2 f_equal. eapply map_Forall2; [|exact Hg]. intros i r (H1 & H2). unfold route_row. by rewrite H1, H2.
Qed.

(** Neighbours are judged exactly.  A section of the results file, printed
    from expected rows, is read, a distance-vector node reports the rows of its
    neighbour table, and the verdict under the section's title is "correct"
    exactly when they are the expected rows in some order (and no number is
    expected twice).  Nothing faults for less than 100 rows, and the next
    section follows on the stream. *)
Theorem checker_neighbors {SR} (st : DVRouting.DVState SR) got c k name expected more
  (Hst : Forall2 shows_neighbor (DVRouting.m_neighborTable st) got) (Hgot : Forall (fun r => is_u32 r.1) got)
  (Hlen : (length got < 100)%nat) (Hc : is_enabled c = true)
  (Hname : title name) (Hok : Forall neighbor_ok expected) (Hexp : Z.of_nat (length expected) < 2 ^ 31)
  (Hfile : ifs c = mkStream (newlines k +:+ section_text neighbor_body name expected +:+ String newline more) true) :
  exists acts c' correct errors,
    DVRouting.DumpNeighbors st = Ok (tt, st, acts) /\
    dump startDumpNeighbor acts c = Some (Ok (c', [Verdict name correct errors])) /\
    (correct = true <-> NoDup expected.*1 /\ got ≡ₚ expected) /\
    is_enabled c' = true /\ ifs c' = mkStream (String newline more) true.
Proof.
  destruct (dump_verdict (M := DVMessage.DVMessage) _ _ _ _ _ _ _ _ neighbor_laws c k name expected got more)
    as (c' & b & errs & H & Hb & He & Hi & _); try done.
  exists (map neighbor_row got), c', b, errs. split; [by apply dv_dump_rows|done].
Qed.

(** (C38) Routes are judged exactly while the verdicts are good.  With no routes
    left over from earlier sections, the verdict on the routing table of a
    link-state node is "correct" exactly when its rows are the expected ones,
    next hops included; and after a verdict "correct" nothing is left over. *)
Theorem checker_routes {SR} (st : LSRouting.LSState SR) got c k name expected more
  (Hst : Forall2 (shows_route st) (LSRouting.m_routingTable st) got) (Hgot : Forall (fun r => is_u32 r.1) got)
  (Hlen : (length got < 100)%nat) (Hc : is_enabled c = true) (Hempty : m_routingTable c = [])
  (Hname : title name) (Hok : Forall route_ok expected) (Hexp : Z.of_nat (length expected) < 2 ^ 31)
  (Hfile : ifs c = mkStream (newlines k +:+ section_text route_body name expected +:+ String newline more) true) :
  exists acts c' correct errors,
    LSRouting.DumpRoutingTable st = Ok (tt, st, acts) /\
    dump startDumpRoute acts c = Some (Ok (c', [Verdict name correct errors])) /\
    (correct = true <-> NoDup expected.*1 /\ got ≡ₚ expected) /\
    is_enabled c' = true /\ ifs c' = mkStream (String newline more) true /\
    (correct = true -> m_routingTable c' = []).
Proof.
  destruct (dump_verdict (M := LSMessage.LSMessage) _ _ _ _ _ _ _ _ route_laws c k name expected got more)
    as (c' & b & errs & H & Hb & He & Hi & Ht); try done.
  exists (map route_row got), c', b, errs. split; [by apply ls_dump_rows|done].
Qed.

(** ** Examples *)

Definition route_to2 : Z * RoutingTableEntry := (2, mkRoutingTableEntry 0x0a000102 2 0x0a000102 0x0a000101 1).
Definition route_to3 : Z * RoutingTableEntry := (3, mkRoutingTableEntry 0x0a000203 2 0x0a000102 0x0a000101 2).
Definition route_to4 : Z * RoutingTableEntry := (4, mkRoutingTableEntry 0x0a000304 2 0x0a000102 0x0a000101 3).

Definition two_sections : string :=
  section_text route_body "first" [route_to2; route_to3] +:+ line_end +:+
  section_text route_body "second" [route_to2; route_to4] +:+ line_end.

(** What a dump prints, and the state it leaves. *)
Definition printed (r : option (result (Checker * list output))) : list output :=
  match r with Some (Ok (_, o)) => o | _ => [] end.
Definition left_behind (r : option (result (Checker * list output))) : Checker :=
  match r with Some (Ok (c, _)) => c | _ => init end.

Definition first_dump : option (result (Checker * list output)) :=
  dump (M := unit) startDumpRoute (map route_row [route_to2]) (openResultFile (Some two_sections) "results" init).
Definition second_dump : option (result (Checker * list output)) :=
  dump (M := unit) startDumpRoute (map route_row [route_to2; route_to3]) (left_behind first_dump).

(** A route left over passes.  The routes to 2 and 3 are expected first,
    and only the one to 2 is reported: wrong.  Then the routes to 2 and 4 are
    expected, but those to 2 and 3 reported: the table of expected routes was
    not cleared, so the verdict is "correct". *)
Theorem stale_route_accepted :
  printed first_dump = [Verdict "first" false [("entry_count 1 is less than entry_total 2" +:+ line_end)%string]] /\
  printed second_dump = [Verdict "second" true []].
Proof. split; vm_compute; reflexivity. Qed.

(** Node 2 of the line hears of node 1, and node 1 of the triangle has its
    routes; the files expect just that. *)
Definition neighbor_1 : Z * NeighborTableEntry := (1, mkNeighborTableEntry 0x0a000101 0x0a000102).
Definition triangle_routes : list (Z * RoutingTableEntry) :=
  [(1, mkRoutingTableEntry 0x0a000101 0x0a000101 0x0a000101 0x0a000101 0);
   (2, mkRoutingTableEntry 0x0a000102 0x0a000102 0x0a000102 0x0a000101 1);
   (3, mkRoutingTableEntry 0x0a000103 0x0a000102 0x0a000102 0x0a000101 2)].
Definition checker_of (text : string) : Checker := openResultFile (Some text) "results" init.

Lemma next_line_ends_witness :
  next_line (mkStream line_end true) = None /\ getlines 1000 "" (mkStream line_end true) = None.
Proof.
  destruct (next_line_ends (mkStream line_end true)) as [H1 H2]. split; [apply H1|apply H2]; by right.
Defined.

Lemma checker_neighbors_witness : exists acts c' errors,
  DVRouting.DumpNeighbors (DVNetwork.local DVNetwork.line_net2 "2") = Ok (tt, DVNetwork.local DVNetwork.line_net2 "2", acts) /\
  dump startDumpNeighbor acts (checker_of (section_text neighbor_body "Neighbors of 2" [neighbor_1] +:+ line_end)) =
    Some (Ok (c', [Verdict "Neighbors of 2" true errors])).
Proof.
  destruct (checker_neighbors (DVNetwork.local DVNetwork.line_net2 "2") [neighbor_1]
    (checker_of (section_text neighbor_body "Neighbors of 2" [neighbor_1] +:+ line_end)) 0 "Neighbors of 2" [neighbor_1] "")
    as (acts & c' & b & errs & Hd & Hv & Hb & _).
  - apply Forall2_cons. split; [by split_and!|apply Forall2_nil; exact I].
  - by apply (bool_decide_unpack _).
  - cbn; lia.
  - vm_compute; reflexivity.
  - split; vm_compute; reflexivity.
  - by apply (bool_decide_unpack _).
  - cbn; lia.
  - vm_compute; reflexivity.
  - exists acts, c', errs. split; [done|]. rewrite Hv. do 5 f_equal. apply Hb. split; [by apply (bool_decide_unpack _)|done].
Defined.

Lemma checker_routes_witness : exists acts c' errors,
  LSRouting.DumpRoutingTable (LSForwarding.triangle_net (fun _ => None) "1") =
    Ok (tt, LSForwarding.triangle_net (fun _ => None) "1", acts) /\
  dump startDumpRoute acts (checker_of (section_text route_body "Routes of 1" triangle_routes +:+ line_end)) =
    Some (Ok (c', [Verdict "Routes of 1" true errors])).
Proof.
  destruct (checker_routes (LSForwarding.triangle_net (fun _ => None) "1") triangle_routes
    (checker_of (section_text route_body "Routes of 1" triangle_routes +:+ line_end)) 0 "Routes of 1" triangle_routes "")
    as (acts & c' & b & errs & Hd & Hv & Hb & _).
  - unfold shows_route. apply (bool_decide_unpack _). vm_compute. exact I.
  - by apply (bool_decide_unpack _).
  - cbn; lia.
  - vm_compute; reflexivity.
  - reflexivity.
  - split; vm_compute; reflexivity.
  - by apply (bool_decide_unpack _).
  - cbn; lia.
  - vm_compute; reflexivity.
  - exists acts, c', errs. split; [done|]. rewrite Hv. do 5 f_equal. apply Hb. split; [by apply (bool_decide_unpack _)|done].
Defined.
