(* ===== verification/GlobalRouting.v ===== *)
(** * GlobalRouting: the routing tables of global routing

    src/ns-3/src/routing/global-routing/ipv4-global-routing.cc: the tables a
    node has for the routes that GlobalSpf computes, and what is looked up in
    them.  The lists hold the entries themselves in the place of pointers.  The
    notifications recompute the routes of all nodes, so they belong to
    GlobalSpf's side of the program; here they are the test whether they do. *)

From S2P Require Import Prelude StdMap StdString Ipv4Address Node StaticRouting.

Module Global.

Record GlobalState := mkGlobal {
  m_randomEcmpRouting : bool;
  m_respondToInterfaceEvents : bool;
  m_hostRoutes : list Ipv4RoutingTableEntry;
  m_networkRoutes : list Ipv4RoutingTableEntry;
  m_ASexternalRoutes : list Ipv4RoutingTableEntry;
  m_ipv4 : option Ipv4
}.

Definition MakeIpv4GlobalRouting : GlobalState := mkGlobal false false [] [] [] None.

Definition set_hostRoutes l st := mkGlobal (m_randomEcmpRouting st) (m_respondToInterfaceEvents st)
  l (m_networkRoutes st) (m_ASexternalRoutes st) (m_ipv4 st).
Definition set_networkRoutes l st := mkGlobal (m_randomEcmpRouting st) (m_respondToInterfaceEvents st)
  (m_hostRoutes st) l (m_ASexternalRoutes st) (m_ipv4 st).
Definition set_ASexternalRoutes l st := mkGlobal (m_randomEcmpRouting st) (m_respondToInterfaceEvents st)
  (m_hostRoutes st) (m_networkRoutes st) l (m_ipv4 st).
Definition set_ipv4 ip st := mkGlobal (m_randomEcmpRouting st) (m_respondToInterfaceEvents st)
  (m_hostRoutes st) (m_networkRoutes st) (m_ASexternalRoutes st) ip.

(** ** Adding and removing *)

Definition AddHostRouteTo (dest nextHop : Ipv4Address) (interface : Z) (st : GlobalState) : GlobalState :=
  set_hostRoutes (m_hostRoutes st ++ [CreateHostRouteTo dest nextHop interface]) st.
Definition AddHostRouteTo_direct (dest : Ipv4Address) (interface : Z) (st : GlobalState) : GlobalState :=
  set_hostRoutes (m_hostRoutes st ++ [CreateHostRouteTo_direct dest interface]) st.
Definition AddNetworkRouteTo (network : Ipv4Address) (networkMask : Ipv4Mask) (nextHop : Ipv4Address) (interface : Z)
    (st : GlobalState) : GlobalState :=
  set_networkRoutes (m_networkRoutes st ++ [CreateNetworkRouteTo network networkMask nextHop interface]) st.
Definition AddNetworkRouteTo_direct (network : Ipv4Address) (networkMask : Ipv4Mask) (interface : Z)
    (st : GlobalState) : GlobalState :=
  set_networkRoutes (m_networkRoutes st ++ [CreateNetworkRouteTo_direct network networkMask interface]) st.
Definition AddASExternalRouteTo (network : Ipv4Address) (networkMask : Ipv4Mask) (nextHop : Ipv4Address) (interface : Z)
    (st : GlobalState) : GlobalState :=
  set_ASexternalRoutes (m_ASexternalRoutes st ++ [CreateNetworkRouteTo network networkMask nextHop interface]) st.

(** [size ()] of a list, as a [uint32_t]. *)
Definition size32 {A} (l : list A) : Z := u32 (Z.of_nat (length l)).

Definition GetNRoutes (st : GlobalState) : Z :=
  u32 (u32 (size32 (m_hostRoutes st) + size32 (m_networkRoutes st)) + size32 (m_ASexternalRoutes st)).

(** The loops count [tmp] up to [index]. *)
Definition GetRoute (index : Z) (st : GlobalState) : result Ipv4RoutingTableEntry :=
  let hosts := Z.of_nat (length (m_hostRoutes st)) in
  if index <? hosts then m_hostRoutes st !! Z.to_nat index ?? AssertFailed
  else
    let index := u32 (index - hosts) in
    let networks := Z.of_nat (length (m_networkRoutes st)) in
    if index <? networks then m_networkRoutes st !! Z.to_nat index ?? AssertFailed
    else
      let index := u32 (index - networks) in
      m_ASexternalRoutes st !! Z.to_nat index ?? AssertFailed.

Definition remove_nth {A} (n : nat) (l : list A) : list A := take n l ++ drop (S n) l.

Definition RemoveRoute (index : Z) (st : GlobalState) : result GlobalState :=
  let hosts := Z.of_nat (length (m_hostRoutes st)) in
  if index <? hosts then Ok (set_hostRoutes (remove_nth (Z.to_nat index) (m_hostRoutes st)) st)
  else
    let index := u32 (index - hosts) in
    let networks := Z.of_nat (length (m_networkRoutes st)) in
    if index <? networks then Ok (set_networkRoutes (remove_nth (Z.to_nat index) (m_networkRoutes st)) st)
    else
      let index := u32 (index - networks) in
      if index <? Z.of_nat (length (m_ASexternalRoutes st)) then
        Ok (set_ASexternalRoutes (remove_nth (Z.to_nat index) (m_ASexternalRoutes st)) st)
      else Fault AssertFailed.

Definition DoDispose (st : GlobalState) : GlobalState :=
  set_hostRoutes [] (set_networkRoutes [] (set_ASexternalRoutes [] st)).

(** ** Looking up *)

Definition stack (st : GlobalState) : result Ipv4 := m_ipv4 st ?? NullDeref.

(** [oif != 0 && oif != m_ipv4->GetNetDevice (i)]: to be skipped. *)
Definition other_interface (st : GlobalState) (oif : option NetDevice) (r : Ipv4RoutingTableEntry) : result bool :=
  match oif with
  | None => Ok false
  | Some d => ip ← stack st; dev ← GetNetDevice ip (GetInterface r); Ok (negb (d =? dev))
  end.

(** The entries of a list that match and are not to be skipped. *)
Fixpoint matching (st : GlobalState) (oif : option NetDevice) (test : Ipv4RoutingTableEntry -> result bool)
    (l : list Ipv4RoutingTableEntry) : result (list Ipv4RoutingTableEntry) :=
  match l with
  | [] => Ok []
  | r :: l' =>
      b ← test r;
      if b : bool then
        skip ← other_interface st oif r;
        rs ← matching st oif test l';
        Ok (if skip : bool then rs else r :: rs)
      else matching st oif test l'
  end.

Definition host_matches (dest : Ipv4Address) (r : Ipv4RoutingTableEntry) : result bool :=
  _ ← assert (IsHost r); Ok (GetDest r =? dest).
Definition network_matches (dest : Ipv4Address) (r : Ipv4RoutingTableEntry) : result bool :=
  Ok (IsMatch (GetDestNetworkMask r) dest (GetDestNetwork r)).

(** The loop over the external routes, which stops at the first. *)
Fixpoint first_external (st : GlobalState) (dest : Ipv4Address) (oif : option NetDevice)
    (l : list Ipv4RoutingTableEntry) : result (list Ipv4RoutingTableEntry) :=
  match l with
  | [] => Ok []
  | r :: l' =>
      if IsMatch (GetDestNetworkMask r) dest (GetDestNetwork r) then
        skip ← other_interface st oif r;
        if skip : bool then first_external st dest oif l' else Ok [r]
      else first_external st dest oif l'
  end.

Definition allRoutes (st : GlobalState) (dest : Ipv4Address) (oif : option NetDevice)
    : result (list Ipv4RoutingTableEntry) :=
  routes ← matching st oif (host_matches dest) (m_hostRoutes st);
  routes ← (match routes with [] => matching st oif (network_matches dest) (m_networkRoutes st) | _ => Ok routes end);
  match routes with [] => first_external st dest oif (m_ASexternalRoutes st) | _ => Ok routes end.

Definition make_route (st : GlobalState) (route : Ipv4RoutingTableEntry) : result Ipv4Route :=
  ip ← stack st;
  address ← GetAddress ip (GetInterface route) 0;
  dev ← GetNetDevice ip (GetInterface route);
  Ok (mkRoute (GetDest route) (m_local address) (GetGateway route) dev).

(** [m_rand n] is what [m_rand.GetInteger (0, n)] draws. *)
Definition LookupGlobal (m_rand : Z -> Z) (st : GlobalState) (dest : Ipv4Address) (oif : option NetDevice)
    : result (option Ipv4Route) :=
  routes ← allRoutes st dest oif;
  match routes with
  | [] => Ok None
  | _ =>
      let selectIndex := if m_randomEcmpRouting st then m_rand (Z.of_nat (length routes) - 1) else 0 in
      route ← routes !! Z.to_nat selectIndex ?? OutOfRange;
      rtentry ← make_route st route;
      Ok (Some rtentry)
  end.

Definition RouteOutput (m_rand : Z -> Z) (st : GlobalState) (p : Packet) (header : Ipv4Header)
    (oif : option NetDevice) (sockerr : Z) : result (option Ipv4Route * Z) :=
  if IsMulticast (GetDestination header) then Ok (None, sockerr)
  else
    rtentry ← LookupGlobal m_rand st (GetDestination header) oif;
    Ok (rtentry, match rtentry with Some _ => ERROR_NOTERROR | None => ERROR_NOROUTETOHOST end).

(** The loop over the addresses is that of static routing. *)
Definition RouteInput {M} (m_rand : Z -> Z) (st : GlobalState) (p : Packet) (header : Ipv4Header) (idev : NetDevice)
    (lcb : bool) : result (bool * list (action M)) :=
  let dest := GetDestination header in
  ip ← stack st;
  _ ← assert (0 <=? GetInterfaceForDevice ip idev);
  let iif := u32 (GetInterfaceForDevice ip idev) in
  if IsMulticast dest then Ok (false, [])
  else
    local ← for_me ip dest (seqZ 0 (GetNInterfaces ip));
    if local : bool then (if lcb then Ok (true, [LocalDeliver p iif]) else Fault NullDeref)
    else
      forwarding ← IsForwarding ip iif;
      if negb forwarding then Ok (false, [RouteError p ERROR_NOROUTETOHOST])
      else
        rtentry ← LookupGlobal m_rand st dest None;
        match rtentry with
        | Some r => Ok (true, [UnicastForward r p])
        | None => Ok (false, [])
        end.

(** The test of all four notifications: are all routes to be recomputed? *)
Definition recomputes (now : Time) (st : GlobalState) : bool :=
  m_respondToInterfaceEvents st && (0 <? now).

Definition SetIpv4 (ip : Ipv4) (st : GlobalState) : result GlobalState :=
  _ ← assert (match m_ipv4 st with None => true | Some _ => false end);
  Ok (set_ipv4 (Some ip) st).

(** [GlobalRouteManagerImpl::DeleteGlobalRoutes] on one node: [RemoveRoute (0)]
    as many times as there were routes. *)
Fixpoint remove_first (n : nat) (st : GlobalState) : result GlobalState :=
  match n with O => Ok st | S n' => st ← RemoveRoute 0 st; remove_first n' st end.
Definition delete_routes (st : GlobalState) : result GlobalState := remove_first (Z.to_nat (GetNRoutes st)) st.

(** ** What is found, and what is left *)

(** The entry for [dest]: the first of the first table that has one. *)
Definition entry_for (st : GlobalState) (dest : Ipv4Address) : option Ipv4RoutingTableEntry :=
  head (filter (fun r => GetDest r = dest) (m_hostRoutes st) ++
    filter (fun r => IsMatch (GetDestNetworkMask r) dest (GetDestNetwork r) = true) (m_networkRoutes st) ++
    filter (fun r => IsMatch (GetDestNetworkMask r) dest (GetDestNetwork r) = true) (m_ASexternalRoutes st)).

Lemma matching_filter st test (P : Ipv4RoutingTableEntry -> Prop) `{!forall r, Decision (P r)} l :
  Forall (fun r => test r = Ok (bool_decide (P r))) l -> matching st None test l = Ok (filter P l).
Proof.
  induction 1 as [|r l Hr Hl IH]; [done|]. cbn [matching]. rewrite Hr. cbn [mbind result_bind].
  rewrite filter_cons, IH. by case_bool_decide; [rewrite decide_True|rewrite decide_False].
Qed.

Lemma first_external_head st dest l :
  first_external st dest None l =
  Ok (match head (filter (fun r => IsMatch (GetDestNetworkMask r) dest (GetDestNetwork r) = true) l) with
      | Some r => [r] | None => [] end).
Proof.
  induction l as [|r l IH]; [done|]. cbn [first_external]. rewrite filter_cons.
  destruct (IsMatch _ _ _) eqn:E; [by rewrite decide_True|]. by rewrite decide_False by done.
Qed.

(** A lookup without a device finds the first host route to the destination,
    without one the first network route whose network contains it, and without
    one the first such external route: between network routes the order of
    their creation decides, not the length of their masks. *)
Lemma lookup_first m_rand st dest
  (Hhosts : Forall (fun r => IsHost r = true) (m_hostRoutes st)) (Hrandom : m_randomEcmpRouting st = false) :
  LookupGlobal m_rand st dest None =
  match entry_for st dest with
  | Some r => route ← make_route st r; Ok (Some route)
  | None => Ok None
  end.
Proof.
  unfold LookupGlobal, allRoutes, entry_for. rewrite Hrandom.
  rewrite (matching_filter st (host_matches dest) (fun r => GetDest r = dest)).
  2: { eapply Forall_impl; [exact Hhosts|]. intros r Hr. unfold host_matches. rewrite Hr. cbn.
       by destruct (Z.eqb_spec (GetDest r) dest); case_bool_decide. }
  cbn [mbind result_bind]. destruct (filter _ (m_hostRoutes st)) as [|r l]; [|done].
  rewrite (matching_filter st (network_matches dest)
    (fun r => IsMatch (GetDestNetworkMask r) dest (GetDestNetwork r) = true)).
  2: { apply Forall_forall. intros r _. unfold network_matches. by destruct (IsMatch _ _ _). }
  cbn [mbind result_bind]. destruct (filter _ (m_networkRoutes st)) as [|r l]; [|done].
  rewrite first_external_head. cbn [mbind result_bind app]. by destruct (head _).
Qed.

Lemma RemoveRoute_0 st : RemoveRoute 0 st =
  match m_hostRoutes st, m_networkRoutes st, m_ASexternalRoutes st with
  | _ :: hosts, _, _ => Ok (set_hostRoutes hosts st)
  | [], _ :: networks, _ => Ok (set_networkRoutes networks st)
  | [], [], _ :: externals => Ok (set_ASexternalRoutes externals st)
  | [], [], [] => Fault AssertFailed
  end.
Proof.
  unfold RemoveRoute. destruct (m_hostRoutes st) as [|h hs]; [|done].
  destruct (m_networkRoutes st) as [|w ws]; [|done]. by destruct (m_ASexternalRoutes st).
Qed.

Lemma remove_first_all st n : (n = length (m_hostRoutes st) + length (m_networkRoutes st) + length (m_ASexternalRoutes st))%nat ->
  remove_first n st = Ok (DoDispose st).
Proof.
  revert st. induction n as [|n IH]; intros st Hn.
  - destruct st as [? ? [|] [|] [|] ?]; cbn in Hn; [done|lia..].
  - cbn [remove_first]. rewrite RemoveRoute_0.
    destruct st as [a b [|h hs] [|w ws] [|x xs] ip]; cbn in *; try lia; (rewrite IH; [done|cbn; lia]).
Qed.

Definition few_routes (st : GlobalState) : Prop :=
  Z.of_nat (length (m_hostRoutes st) + length (m_networkRoutes st) + length (m_ASexternalRoutes st)) < 2 ^ 32.

Lemma delete_routes_all st : few_routes st -> delete_routes st = Ok (DoDispose st).
Proof.
  unfold few_routes. intros Hlt. unfold delete_routes, GetNRoutes, size32.
  rewrite !(u32_small (Z.of_nat _)) by (unfold is_u32; lia). rewrite (u32_small (Z.of_nat (length (m_hostRoutes st)) + Z.of_nat _)) by (unfold is_u32; lia).
  rewrite u32_small by (unfold is_u32; lia). apply remove_first_all; lia.
Qed.

(** Deleting the routes of a node leaves none, and no index is wrong. *)
Lemma delete_routes_ok st (Hlt : few_routes st) :
  exists st', delete_routes st = Ok st' /\ GetNRoutes st' = 0 /\ m_ipv4 st' = m_ipv4 st.
Proof. exists (DoDispose st). split; [by apply delete_routes_all|done]. Qed.
End Global.
