(* ===== verification/GlobalLsdb.v ===== *)
(** * GlobalLsdb: advertisements, vertices and the candidate queue

    The data of global routing, src/ns-3/src/routing/global-routing/:
    global-router-interface.cc (link records and advertisements) and
    candidate-queue.cc, and the classes SPFVertex and GlobalRouteManagerLSDB of
    global-route-manager-impl.cc.  An advertisement of the database is referred
    to by its key, as nothing is ever removed while it is used; vertices are
    created, shared and deleted, so they live in a store ([gmap]) and are
    referred to by pointers, which are numbers here. *)

From stdpp Require Import gmap.
From S2P Require Import Prelude StdMap Ipv4Address.

(** ** Link records and advertisements *)

Inductive LinkType := LinkUnknown | PointToPoint | TransitNetwork | StubNetwork | VirtualLink.
#[export] Instance LinkType_eq_dec : EqDecision LinkType.
Proof. solve_decision. Defined.

Record GlobalRoutingLinkRecord := mkLinkRecord {
  m_linkId : Ipv4Address;
  m_linkData : Ipv4Address;
  m_linkType : LinkType;
  m_metric : Z
}.

Inductive LSType := LSUnknown | RouterLSA | NetworkLSA | SummaryLSA | SummaryLSA_ASBR | ASExternalLSAs.
#[export] Instance LSType_eq_dec : EqDecision LSType.
Proof. solve_decision. Defined.

Inductive SPFStatus := LSA_SPF_NOT_EXPLORED | LSA_SPF_CANDIDATE | LSA_SPF_IN_SPFTREE.
#[export] Instance SPFStatus_eq_dec : EqDecision SPFStatus.
Proof. solve_decision. Defined.

Record GlobalRoutingLSA := mkLSA {
  m_lsType : LSType;
  m_linkStateId : Ipv4Address;
  m_advertisingRtr : Ipv4Address;
  m_linkRecords : list GlobalRoutingLinkRecord;
  m_networkLSANetworkMask : Ipv4Mask;
  m_attachedRouters : list Ipv4Address;
  m_status : SPFStatus;
  m_node_id : Z
}.

Definition SetStatus (status : SPFStatus) (lsa : GlobalRoutingLSA) : GlobalRoutingLSA :=
  mkLSA (m_lsType lsa) (m_linkStateId lsa) (m_advertisingRtr lsa) (m_linkRecords lsa) (m_networkLSANetworkMask lsa)
    (m_attachedRouters lsa) status (m_node_id lsa).

(** ** The database *)

Record LSDB := mkLSDB {
  m_database : stdmap Ipv4Address GlobalRoutingLSA;
  m_extdatabase : list GlobalRoutingLSA
}.

Definition new_LSDB : LSDB := mkLSDB [] [].

Definition LSDB_Initialize (db : LSDB) : LSDB :=
  mkLSDB (map (fun i => (i.1, SetStatus LSA_SPF_NOT_EXPLORED i.2)) (m_database db)) (m_extdatabase db).

Definition Insert (addr : Ipv4Address) (lsa : GlobalRoutingLSA) (db : LSDB) : LSDB :=
  if decide (m_lsType lsa = ASExternalLSAs) then mkLSDB (m_database db) (m_extdatabase db ++ [lsa])
  else mkLSDB (map_insert addr lsa (m_database db)) (m_extdatabase db).

Definition GetExtLSA (index : Z) (db : LSDB) : result GlobalRoutingLSA :=
  m_extdatabase db !! Z.to_nat index ?? OutOfRange.

(** [GetLSA (addr)]: the advertisement, and not just its key. *)
Definition GetLSA (addr : Ipv4Address) (db : LSDB) : option GlobalRoutingLSA := map_find addr (m_database db).

(** [GetLSAByLinkData]: the key of the first one with such a record. *)
Definition has_transit (addr : Ipv4Address) (lsa : GlobalRoutingLSA) : bool :=
  existsb (fun lr => bool_decide (m_linkType lr = TransitNetwork) && (m_linkData lr =? addr)) (m_linkRecords lsa).
Fixpoint find_transit (addr : Ipv4Address) (l : stdmap Ipv4Address GlobalRoutingLSA) : option Ipv4Address :=
  match l with
  | [] => None
  | (k, lsa) :: l' => if has_transit addr lsa then Some k else find_transit addr l'
  end.
Definition GetLSAByLinkData (addr : Ipv4Address) (db : LSDB) : option Ipv4Address := find_transit addr (m_database db).

Definition set_lsa_status (key : Ipv4Address) (status : SPFStatus) (db : LSDB) : LSDB :=
  mkLSDB (map_update key (SetStatus status) (m_database db)) (m_extdatabase db).

(** ** [std::list]: stable [sort], and [unique] *)

Section list_sort.
Context {A : Type} (less : A -> A -> bool).

Fixpoint sort_insert (x : A) (l : list A) : list A :=
  match l with
  | [] => [x]
  | y :: l' => if less y x then y :: sort_insert x l' else x :: l
  end.
Definition list_sort (l : list A) : list A := foldr sort_insert [] l.

(** [std::upper_bound] on a sorted list, and [insert] there. *)
Fixpoint upper_bound_insert (x : A) (l : list A) : list A :=
  match l with
  | [] => [x]
  | y :: l' => if less x y then x :: l else y :: upper_bound_insert x l'
  end.

Lemma sort_insert_Permutation x l : sort_insert x l ≡ₚ x :: l.
Proof. induction l as [|y l IH]; [done|]. cbn. destruct (less y x); [|done]. rewrite IH. apply Permutation_swap. Qed.

Lemma list_sort_Permutation l : list_sort l ≡ₚ l.
Proof. induction l as [|x l IH]; [done|]. cbn. rewrite sort_insert_Permutation. by constructor. Qed.

Lemma upper_bound_insert_Permutation x l : upper_bound_insert x l ≡ₚ x :: l.
Proof. induction l as [|y l IH]; [done|]. cbn. destruct (less x y); [done|]. rewrite IH. apply Permutation_swap. Qed.

(** [less] is a strict weak order, as the standard library demands. *)
Definition ordered (l : list A) : Prop := forall i j x y, (i < j)%nat -> l !! i = Some x -> l !! j = Some y -> less y x = false.

Lemma ordered_nil : ordered [].
Proof. by intros i j x y _ [=]. Qed.

Lemma ordered_cons x l : ordered (x :: l) <-> Forall (fun y => less y x = false) l /\ ordered l.
Proof.
  split.
  - intros H. split.
    + apply Forall_lookup_2. intros i y Hy. by apply (H 0%nat (S i)); [lia|..].
    + intros i j a b Hij Ha Hb. by apply (H (S i) (S j)); [lia|..].
  - intros [Hx Hl] [|i] [|j] a b Hij Ha Hb; [lia| |lia|].
    + injection Ha as <-. by eapply (Forall_lookup_1 _ _ _ _ Hx).
    + by apply (Hl i j); [lia|..].
Qed.

Context (less_asym : forall x y, less x y = true -> less y x = false).
(** Of the elements compared, [P] holds. *)
Context (P : A -> Prop).
Context (less_incomp : forall x y z, P y -> less x y = false -> less y z = false -> less x z = false).

Lemma sort_insert_ordered x l : Forall P l -> ordered l -> ordered (sort_insert x l).
Proof using less_asym less_incomp.
  induction l as [|y l IH]; cbn; intros HP H; [by apply ordered_cons|].
  apply ordered_cons in H as [Hy Hl]. inversion HP; subst.
  destruct (less y x) eqn:E.
  - apply ordered_cons. split; [|by apply IH]. rewrite sort_insert_Permutation. constructor; [by apply less_asym|done].
  - apply ordered_cons. split; [|by apply ordered_cons]. constructor; [done|].
    eapply Forall_impl; [exact Hy|]. intros z Hz. by apply (less_incomp z y x).
Qed.

Lemma list_sort_ordered l : Forall P l -> ordered (list_sort l).
Proof using less_asym less_incomp.
  induction 1; cbn; [apply ordered_nil|]. apply sort_insert_ordered; [by rewrite list_sort_Permutation|done].
Qed.

Lemma upper_bound_insert_ordered x l : Forall P l -> ordered l -> ordered (upper_bound_insert x l).
Proof using less_asym less_incomp.
  induction l as [|y l IH]; cbn; intros HP H; [by apply ordered_cons|]. apply ordered_cons in H as [Hy Hl]. inversion HP; subst.
  destruct (less x y) eqn:E.
  - apply ordered_cons. split; [|by apply ordered_cons]. apply less_asym in E. constructor; [done|].
    eapply Forall_impl; [exact Hy|]. intros z Hz. by apply (less_incomp z y x).
  - apply ordered_cons. split; [|by apply IH]. rewrite upper_bound_insert_Permutation. by constructor.
Qed.
End list_sort.

(** [unique]: of equal neighbours, the first stays. *)
Fixpoint list_unique {A} `{EqDecision A} (l : list A) : list A :=
  match l with
  | [] => []
  | x :: l' => match l' with
    | [] => [x]
    | y :: _ => if decide (x = y) then list_unique l' else x :: list_unique l'
    end
  end.

Lemma elem_list_unique {A} `{EqDecision A} (x : A) l : x ∈ list_unique l <-> x ∈ l.
Proof.
  induction l as [|a [|b l] IH]; [done..|]. cbn [list_unique]. case_decide as E; [subst b|];
    rewrite ?elem_of_cons, IH, ?elem_of_cons; naive_solver.
Qed.

(** ** Vertices *)

Inductive VertexType := VertexUnknown | VertexRouter | VertexNetwork.
#[export] Instance VertexType_eq_dec : EqDecision VertexType.
Proof. solve_decision. Defined.

(** [NodeExit_t]: next hop and outgoing interface. *)
Definition NodeExit : Type := Ipv4Address * Z.

(** [m_vertexType] is [None] while no value has been stored. *)
Record SPFVertex := mkVertex {
  m_vertexType : option VertexType;
  m_vertexId : Ipv4Address;
  m_lsa : Ipv4Address;
  m_distanceFromRoot : Z;
  m_rootOif : Z;
  m_nextHop : Ipv4Address;
  m_ecmpRootExits : list NodeExit;
  m_parents : list nat;
  m_children : list nat;
  m_vertexProcessed : bool
}.

Definition SPF_INFINITY : Z := 0xffffffff.

(** [SPFVertex (lsa)]; [key] is where [lsa] is.  [SPF_INFINITY] as an [int32_t]
    is -1. *)
Definition MakeSPFVertex (key : Ipv4Address) (lsa : GlobalRoutingLSA) : SPFVertex := {|
  m_vertexType :=
    match m_lsType lsa with RouterLSA => Some VertexRouter | NetworkLSA => Some VertexNetwork | _ => None end;
  m_vertexId := m_linkStateId lsa;
  m_lsa := key;
  m_distanceFromRoot := SPF_INFINITY;
  m_rootOif := -1;
  m_nextHop := GetZero;
  m_ecmpRootExits := [];
  m_parents := [];
  m_children := [];
  m_vertexProcessed := false
|}.

Definition SetDistanceFromRoot (distance : Z) (v : SPFVertex) : SPFVertex :=
  mkVertex (m_vertexType v) (m_vertexId v) (m_lsa v) distance (m_rootOif v) (m_nextHop v) (m_ecmpRootExits v)
    (m_parents v) (m_children v) (m_vertexProcessed v).
Definition set_parents (parents : list nat) (v : SPFVertex) : SPFVertex :=
  mkVertex (m_vertexType v) (m_vertexId v) (m_lsa v) (m_distanceFromRoot v) (m_rootOif v) (m_nextHop v)
    (m_ecmpRootExits v) parents (m_children v) (m_vertexProcessed v).
Definition set_children (children : list nat) (v : SPFVertex) : SPFVertex :=
  mkVertex (m_vertexType v) (m_vertexId v) (m_lsa v) (m_distanceFromRoot v) (m_rootOif v) (m_nextHop v)
    (m_ecmpRootExits v) (m_parents v) children (m_vertexProcessed v).
Definition set_exits (oif : Z) (hop : Ipv4Address) (exits : list NodeExit) (v : SPFVertex) : SPFVertex :=
  mkVertex (m_vertexType v) (m_vertexId v) (m_lsa v) (m_distanceFromRoot v) oif hop exits
    (m_parents v) (m_children v) (m_vertexProcessed v).
Definition SetVertexProcessed (value : bool) (v : SPFVertex) : SPFVertex :=
  mkVertex (m_vertexType v) (m_vertexId v) (m_lsa v) (m_distanceFromRoot v) (m_rootOif v) (m_nextHop v)
    (m_ecmpRootExits v) (m_parents v) (m_children v) value.

Definition SetParent (parent : nat) : SPFVertex -> SPFVertex := set_parents [parent].
Definition GetParent (i : nat) (v : SPFVertex) : option nat := m_parents v !! i.
Definition AddChild (child : nat) (v : SPFVertex) : SPFVertex := set_children (m_children v ++ [child]) v.

(** [m_parents.sort ()] orders pointers by their addresses: [below]. *)
Definition MergeParent (below : nat -> nat -> bool) (v other : SPFVertex) : SPFVertex :=
  set_parents (list_unique (list_sort below (m_parents v ++ m_parents other))) v.

Definition SetRootExitDirection (exit : NodeExit) (v : SPFVertex) : SPFVertex := set_exits exit.2 exit.1 [exit] v.
Definition GetRootExitDirection_index (i : nat) (v : SPFVertex) : result NodeExit := m_ecmpRootExits v !! i ?? AssertFailed.
Definition GetRootExitDirection (v : SPFVertex) : result NodeExit :=
  _ ← assert (Z.of_nat (length (m_ecmpRootExits v)) <=? 1); GetRootExitDirection_index 0 v.

(** [operator<] of [std::pair]. *)
Definition exit_less (a b : NodeExit) : bool := (a.1 <? b.1) || ((a.1 =? b.1) && (a.2 <? b.2)).
Definition MergeRootExitDirections (v vertex : SPFVertex) : SPFVertex :=
  set_exits (m_rootOif v) (m_nextHop v)
    (list_unique (list_sort exit_less (m_ecmpRootExits v ++ m_ecmpRootExits vertex))) v.
Definition InheritAllRootExitDirections (v vertex : SPFVertex) : SPFVertex :=
  set_exits (m_rootOif v) (m_nextHop v) (m_ecmpRootExits vertex) v.

(** ** The order of candidates: nearer ones first, then networks *)
Definition CompareSPFVertex (v1 v2 : SPFVertex) : bool :=
  if m_distanceFromRoot v1 <? m_distanceFromRoot v2 then true
  else if m_distanceFromRoot v1 =? m_distanceFromRoot v2 then
    bool_decide (m_vertexType v1 = Some VertexNetwork) && bool_decide (m_vertexType v2 = Some VertexRouter)
  else false.

Lemma CompareSPFVertex_asym v1 v2 : CompareSPFVertex v1 v2 = true -> CompareSPFVertex v2 v1 = false.
Proof.
  unfold CompareSPFVertex. repeat case_match; try lia; try done. intros [E1 E2]%andb_true_iff.
  apply bool_decide_eq_true_1 in E1, E2. by rewrite E1, E2.
Qed.

(** Between routers and networks, no comparison is left open by a chain of
    others. *)
Lemma CompareSPFVertex_incomp v1 v2 v3 :
  m_vertexType v2 = Some VertexRouter \/ m_vertexType v2 = Some VertexNetwork ->
  CompareSPFVertex v1 v2 = false -> CompareSPFVertex v2 v3 = false -> CompareSPFVertex v1 v3 = false.
Proof.
  unfold CompareSPFVertex. intros Ht. repeat case_match; try lia; try done. intros E1 E2.
  destruct Ht as [E|E]; rewrite E in E1, E2.
  - rewrite (bool_decide_true (Some VertexRouter = _)), andb_true_r in E1 by done. by rewrite E1.
  - rewrite (bool_decide_true (Some VertexNetwork = _)) in E2 by done. cbn in E2. by rewrite E2, andb_false_r.
Qed.
