(* ===== verification/GlobalSpf.v ===== *)
(** * GlobalSpf: the routes of global routing

    GlobalRouteManagerImpl of
    src/ns-3/src/routing/global-routing/global-route-manager-impl.cc and the
    candidate queue it works with: one shortest-path tree per router, computed
    from the advertisements of all routers, and the routes that follow from
    it.  The candidate queue, a local variable of [SPFCalculate] that is passed
    by reference, is a field of the state here.  A node comes with what
    [DiscoverLSAs] finds on it, which is modelled in GlobalDiscovery. *)

From stdpp Require Import gmap.
From S2P Require Import Prelude StdMap Ipv4Address Node GlobalRouting GlobalLsdb.

(** A node, as far as global routing looks at it: the router id, the
    advertisements and the routing tables of its GlobalRouter, if it has one,
    [GetInterfaceForPrefix] of its stack, and whether it belongs to this
    process of a distributed simulation. *)
Record GNode := mkGNode {
  gn_router : option Ipv4Address;
  gn_lsas : list GlobalRoutingLSA;
  gn_routing : option Global.GlobalState;
  gn_prefix : option (Ipv4Address -> Ipv4Mask -> Z);
  gn_here : bool
}.

Definition set_routing (gr : Global.GlobalState) (n : GNode) : GNode :=
  mkGNode (gn_router n) (gn_lsas n) (Some gr) (gn_prefix n) (gn_here n).

Record Spf := mkSpf {
  m_lsdb : LSDB;
  vertices : gmap nat SPFVertex;
  next_vertex : nat;
  m_spfroot : option nat;
  candidate : list nat;
  NodeList : list GNode
}.

Definition set_lsdb db st := mkSpf db (vertices st) (next_vertex st) (m_spfroot st) (candidate st) (NodeList st).
Definition set_vertices vs st := mkSpf (m_lsdb st) vs (next_vertex st) (m_spfroot st) (candidate st) (NodeList st).
Definition set_spfroot root st := mkSpf (m_lsdb st) (vertices st) (next_vertex st) root (candidate st) (NodeList st).
Definition set_candidate q st := mkSpf (m_lsdb st) (vertices st) (next_vertex st) (m_spfroot st) q (NodeList st).
Definition set_NodeList l st := mkSpf (m_lsdb st) (vertices st) (next_vertex st) (m_spfroot st) (candidate st) l.

Notation M := (handler Spf Empty_set).

Section spf.
(** The order of the addresses of vertices in memory. *)
Context (below : nat -> nat -> bool).

(** [*p]. *)
Definition vertex (p : nat) : M SPFVertex := st ← get; lift (vertices st !! p ?? NullDeref).
Definition put_vertex (p : nat) (v : SPFVertex) : M unit := modify (fun st => set_vertices (<[p := v]> (vertices st)) st).
Definition update_vertex (p : nat) (f : SPFVertex -> SPFVertex) : M unit := v ← vertex p; put_vertex p (f v).
Definition vertex_type (p : nat) : M VertexType := v ← vertex p; lift (m_vertexType v ?? UninitRead).

(** [new SPFVertex (m_lsdb->GetLSA (key))] *)
Definition new_vertex (key : Ipv4Address) : M nat :=
  st ← get;
  lsa ← lift (GetLSA key (m_lsdb st) ?? NullDeref);
  let p := next_vertex st in
  _ ← modify (fun st => mkSpf (m_lsdb st) (<[p := MakeSPFVertex key lsa]> (vertices st)) (S p) (m_spfroot st)
                          (candidate st) (NodeList st));
  mret p.

Definition lsa_at (key : Ipv4Address) (f : fault) : M GlobalRoutingLSA := st ← get; lift (GetLSA key (m_lsdb st) ?? f).
(** [v->GetLSA ()->...] *)
Definition lsa_of (p : nat) : M GlobalRoutingLSA := v ← vertex p; lsa_at (m_lsa v) NullDeref.
Definition set_status (key : Ipv4Address) (status : SPFStatus) : M unit :=
  modify (fun st => set_lsdb (set_lsa_status key status (m_lsdb st)) st).
Definition is_root (p : option nat) : M bool := st ← get; mret (bool_decide (p = m_spfroot st)).

(** ~SPFVertex: gone from the lists of its parents, and its children with it.
    Every round of the inner loop deletes a child. *)
Definition remove_child (child : nat) (v : SPFVertex) : SPFVertex := set_children (filter (fun c => c <> child) (m_children v)) v.

Fixpoint delete_children (delete : nat -> M unit) (rounds : nat) (p : nat) : M unit :=
  v ← vertex p;
  match m_children v, rounds with
  | [], _ => mret tt
  | _, O => lift (Fault Diverges)
  | child :: _, S rounds' => _ ← delete child; delete_children delete rounds' p
  end.

Fixpoint delete_vertex (depth : nat) (p : nat) : M unit :=
  match depth with
  | O => lift (Fault Diverges)
  | S depth' =>
      v ← vertex p;
      _ ← for_loop (m_parents v) (fun parent => update_vertex parent (remove_child p));
      _ ← delete_children (delete_vertex depth') (length (m_children v)) p;
      modify (fun st => set_vertices (delete p (vertices st)) st)
  end.

(** ** The candidate queue *)

Fixpoint deref_all (heap : gmap nat SPFVertex) (l : list nat) : result (list (nat * SPFVertex)) :=
  match l with
  | [] => Ok []
  | p :: l' => v ← heap !! p ?? NullDeref; vs ← deref_all heap l'; Ok ((p, v) :: vs)
  end.
Definition compare_candidates (a b : nat * SPFVertex) : bool := CompareSPFVertex a.2 b.2.

Definition Push (vNew : nat) : M unit :=
  v ← vertex vNew;
  st ← get;
  q ← lift (deref_all (vertices st) (candidate st));
  modify (set_candidate (upper_bound_insert compare_candidates (vNew, v) q).*1).

Definition Pop : M (option nat) :=
  st ← get;
  match candidate st with
  | [] => mret None
  | v :: q => _ ← modify (set_candidate q); mret (Some v)
  end.
Definition Top : M (option nat) := st ← get; mret (head (candidate st)).
Definition Empty : M bool := st ← get; mret (bool_decide (candidate st = [])).
Definition Size : M Z := st ← get; mret (u32 (Z.of_nat (length (candidate st)))).

Fixpoint find_vertex (addr : Ipv4Address) (q : list (nat * SPFVertex)) : option nat :=
  match q with
  | [] => None
  | (p, v) :: q' => if m_vertexId v =? addr then Some p else find_vertex addr q'
  end.
Definition Find (addr : Ipv4Address) : M (option nat) :=
  st ← get;
  q ← lift (deref_all (vertices st) (candidate st));
  mret (find_vertex addr q).

Definition Reorder : M unit :=
  st ← get;
  q ← lift (deref_all (vertices st) (candidate st));
  modify (set_candidate (list_sort compare_candidates q).*1).

(** ** Next hops *)

(** The mask is 255.255.255.255 unless given. *)
Fixpoint find_outgoing (routerId a : Ipv4Address) (amask : Ipv4Mask) (l : list GNode) : result Z :=
  match l with
  | [] => Ok (-1)
  | node :: l' =>
      if decide (gn_router node = Some routerId) then
        prefix ← gn_prefix node ?? AssertFailed; Ok (prefix a amask)
      else find_outgoing routerId a amask l'
  end.
Definition FindOutgoingInterfaceId (a : Ipv4Address) (amask : Ipv4Mask) : M Z :=
  st ← get;
  root ← lift (m_spfroot st ?? NullDeref);
  r ← vertex root;
  lift (find_outgoing (m_vertexId r) a amask (NodeList st)).

(** The loop of [SPFGetNextLink]; [prev_link] only sets the two flags. *)
Fixpoint next_link (id : Ipv4Address) (found_prev_link skip : bool) (l : list GlobalRoutingLinkRecord)
    : option GlobalRoutingLinkRecord :=
  match l with
  | [] => None
  | lr :: l' =>
      if m_linkId lr =? id then
        if negb found_prev_link then next_link id true skip l'
        else if negb skip then Some lr
        else next_link id found_prev_link false l'
      else next_link id found_prev_link skip l'
  end.
Definition SPFGetNextLink (v w : nat) (prev_link : bool) : M (option GlobalRoutingLinkRecord) :=
  lsa ← lsa_of v;
  wv ← vertex w;
  mret (if prev_link then next_link (m_vertexId wv) false true (m_linkRecords lsa)
        else next_link (m_vertexId wv) true false (m_linkRecords lsa)).

(** [while ((linkRemote = SPFGetNextLink (w, v, linkRemote)))]: from the second
    round on, every round is given and gives the same, so that a third round
    means a loop that never ends. *)
Fixpoint next_hops (rounds : nat) (v w : nat) (linkRemote : bool) : M unit :=
  match rounds with
  | O => lift (Fault Diverges)
  | S rounds' =>
      l ← SPFGetNextLink w v linkRemote;
      match l with
      | None => mret tt
      | Some linkRemote =>
          vv ← vertex v;
          exit ← lift (GetRootExitDirection vv);
          _ ← update_vertex w (SetRootExitDirection (m_linkData linkRemote, exit.2));
          next_hops rounds' v w true
      end
  end.

(** The value returned is always 1. *)
Definition SPFNexthopCalculation (v w : nat) (l : option GlobalRoutingLinkRecord) (distance : Z) : M unit :=
  let finish := _ ← update_vertex w (SetDistanceFromRoot distance); update_vertex w (SetParent v) in
  root ← is_root (Some v);
  if root : bool then
    type ← vertex_type w;
    if decide (type = VertexRouter) then
      l ← lift (l ?? AssertFailed);
      linkRemote ← SPFGetNextLink w v false;
      linkRemote ← lift (linkRemote ?? NullDeref);
      outIf ← FindOutgoingInterfaceId (m_linkData l) Mask_GetOnes;
      _ ← update_vertex w (SetRootExitDirection (m_linkData linkRemote, outIf));
      _ ← update_vertex w (SetDistanceFromRoot distance);
      _ ← update_vertex w (SetParent v);
      finish
    else
      _ ← lift (assert (bool_decide (type = VertexNetwork)));
      w_lsa ← lsa_of w;
      _ ← lift (assert (bool_decide (m_lsType w_lsa = NetworkLSA)));
      outIf ← FindOutgoingInterfaceId (m_linkStateId w_lsa) (m_networkLSANetworkMask w_lsa);
      _ ← update_vertex w (SetRootExitDirection (GetZero, outIf));
      finish
  else
    type ← vertex_type v;
    if decide (type = VertexNetwork) then
      vv ← vertex v;
      below_root ← is_root (GetParent 0 vv);
      if below_root : bool then
        wtype ← vertex_type w;
        _ ← lift (assert (bool_decide (wtype = VertexRouter)));
        _ ← next_hops 2 v w false;
        finish
      else
        exit ← lift (GetRootExitDirection vv);
        _ ← update_vertex w (SetRootExitDirection exit);
        finish
    else
      vv ← vertex v;
      _ ← update_vertex w (fun wv => InheritAllRootExitDirections wv vv);
      finish.

(** ** The tree *)

(** [AddChild] on every parent. *)
Definition SPFVertexAddParent (v : nat) : M unit :=
  vv ← vertex v; for_loop (m_parents vv) (fun parent => update_vertex parent (AddChild v)).

(** A vertex that is not on the queue yet. *)
Definition discover (v : nat) (l : option GlobalRoutingLinkRecord) (w_key : Ipv4Address) (distance : Z) : M unit :=
  w ← new_vertex w_key;
  _ ← SPFNexthopCalculation v w l distance;
  _ ← set_status w_key LSA_SPF_CANDIDATE;
  Push w.

(** Another shortest path to the candidate [cw]: its exits and parents are
    collected in a vertex that is deleted again. *)
Definition merge_path (v : nat) (l : option GlobalRoutingLinkRecord) (w_key : Ipv4Address) (distance : Z) (cw : nat) : M unit :=
  w ← new_vertex w_key;
  _ ← SPFNexthopCalculation v w l distance;
  wv ← vertex w;
  _ ← update_vertex cw (fun cv => MergeRootExitDirections cv wv);
  _ ← update_vertex cw (fun cv => MergeParent below cv wv);
  _ ← SPFVertexAddParent w;
  delete_vertex 1 w.

(** The body of the loop of [SPFNext] once [w_lsa], here its key, is known. *)
Definition consider (v : nat) (l : option GlobalRoutingLinkRecord) (w_key : Ipv4Address) : M unit :=
  w_lsa ← lsa_at w_key NullDeref;
  if decide (m_status w_lsa = LSA_SPF_IN_SPFTREE) then mret tt
  else
    v_lsa ← lsa_of v;
    vv ← vertex v;
    distance ← lift (if decide (m_lsType v_lsa = RouterLSA) then
                       l ← l ?? NullDeref; Ok (u32 (m_distanceFromRoot vv + m_metric l))
                     else Ok (m_distanceFromRoot vv));
    if decide (m_status w_lsa = LSA_SPF_NOT_EXPLORED) then discover v l w_key distance
    else
      cw ← Find (m_linkStateId w_lsa);
      cw ← lift (cw ?? NullDeref);
      cv ← vertex cw;
      if m_distanceFromRoot cv <? distance then mret tt
      else if m_distanceFromRoot cv =? distance then merge_path v l w_key distance cw
      else
        _ ← SPFNexthopCalculation v cw l distance;
        Reorder.

(** A link record of a router, and an attached router of a network. *)
Definition SPFNext_link (v : nat) (l : GlobalRoutingLinkRecord) : M unit :=
  match m_linkType l with
  | StubNetwork => mret tt
  | PointToPoint | TransitNetwork =>
      _ ← lsa_at (m_linkId l) AssertFailed;
      consider v (Some l) (m_linkId l)
  | _ => lift (Fault AssertFailed)
  end.
Definition SPFNext_attached (v : nat) (router : Ipv4Address) : M unit :=
  st ← get;
  match GetLSAByLinkData router (m_lsdb st) with
  | None => mret tt
  | Some w_key => consider v None w_key
  end.

Definition SPFNext (v : nat) : M unit :=
  type ← vertex_type v;
  v_lsa ← lsa_of v;
  match type with
  | VertexRouter => for_loop (m_linkRecords v_lsa) (SPFNext_link v)
  | VertexNetwork => for_loop (m_attachedRouters v_lsa) (SPFNext_attached v)
  | VertexUnknown => mret tt
  end.

(** ** Routes *)

(** The loops over the nodes that look for the router of the root: [all] if the
    loop goes on behind the first. *)
Fixpoint at_router (all : bool) (routerId : Ipv4Address) (f : GNode -> result GNode) (l : list GNode) : result (list GNode) :=
  match l with
  | [] => Ok []
  | node :: l' =>
      if decide (gn_router node = Some routerId) then
        _ ← gn_prefix node ?? AssertFailed;
        node ← f node;
        if all then l' ← at_router all routerId f l'; Ok (node :: l') else Ok (node :: l')
      else l' ← at_router all routerId f l'; Ok (node :: l')
  end.
Definition at_root (all : bool) (f : GNode -> result GNode) : M unit :=
  st ← get;
  root ← lift (m_spfroot st ?? AssertFailed);
  r ← vertex root;
  l ← lift (at_router all (m_vertexId r) f (NodeList st));
  modify (set_NodeList l).

(** One route for every exit with an interface. *)
Definition add_exits (add : NodeExit -> Global.GlobalState -> Global.GlobalState) (exits : list NodeExit)
    (gr : Global.GlobalState) : Global.GlobalState :=
  foldl (fun gr exit => if 0 <=? exit.2 then add exit gr else gr) gr exits.
Definition add_routes (add : NodeExit -> Global.GlobalState -> Global.GlobalState) (v : SPFVertex) (node : GNode)
    : result GNode :=
  gr ← gn_routing node ?? AssertFailed; Ok (set_routing (add_exits add (m_ecmpRootExits v) gr) node).

(** A host route to the address of every point-to-point record. *)
Definition add_host (v : SPFVertex) (node : GNode) (lr : GlobalRoutingLinkRecord) : result GNode :=
  if decide (m_linkType lr = PointToPoint) then
    add_routes (fun exit => Global.AddHostRouteTo (m_linkData lr) exit.1 exit.2) v node
  else Ok node.
Definition SPFIntraAddRouter (v : nat) : M unit :=
  vv ← vertex v;
  lsa ← lsa_of v;
  at_root false (fun node => foldM (add_host vv) node (m_linkRecords lsa)).

(** A route to the network of [lsa]. *)
Definition add_network (external : bool) (network : Ipv4Address) (mask : Ipv4Mask) (v : SPFVertex) : GNode -> result GNode :=
  let tempip := CombineMask network mask in
  add_routes (fun exit =>
    if external then Global.AddASExternalRouteTo tempip mask exit.1 exit.2
    else Global.AddNetworkRouteTo tempip mask exit.1 exit.2) v.
Definition SPFIntraAddTransit (v : nat) : M unit :=
  vv ← vertex v;
  lsa ← lsa_of v;
  at_root true (add_network false (m_linkStateId lsa) (m_networkLSANetworkMask lsa) vv).

(** [v->GetVertexId () == m_spfroot->GetVertexId ()]; [m_spfroot] is asserted. *)
Definition at_local_host (v : SPFVertex) : M bool :=
  st ← get; root ← lift (m_spfroot st ?? AssertFailed); r ← vertex root; mret (m_vertexId v =? m_vertexId r).

Definition SPFIntraAddStub (l : GlobalRoutingLinkRecord) (v : nat) : M unit :=
  vv ← vertex v;
  local ← at_local_host vv;
  if local : bool then mret tt
  else at_root false (add_network false (m_linkId l) (m_linkData l) vv).

Definition SPFAddASExternal (extlsa : GlobalRoutingLSA) (v : nat) : M unit :=
  vv ← vertex v;
  local ← at_local_host vv;
  if local : bool then mret tt
  else at_root false (add_network true (m_linkStateId extlsa) (m_networkLSANetworkMask extlsa) vv).

(** The walks over the tree: [visit] at every router, then the children that
    are not marked yet.  [depth] bounds the depth of the tree. *)
Fixpoint walk_tree (visit : nat -> M unit) (depth : nat) (v : nat) : M unit :=
  match depth with
  | O => lift (Fault Diverges)
  | S depth' =>
      type ← vertex_type v;
      _ ← (if decide (type = VertexRouter) then visit v else mret tt);
      vv ← vertex v;
      for_loop (m_children vv) (fun child =>
        c ← vertex child;
        if m_vertexProcessed c then mret tt
        else _ ← walk_tree visit depth' child; update_vertex child (SetVertexProcessed true))
  end.

Definition visit_stubs (v : nat) : M unit :=
  rlsa ← lsa_of v;
  for_loop (m_linkRecords rlsa) (fun l =>
    if decide (m_linkType l = StubNetwork) then SPFIntraAddStub l v else mret tt).
Definition SPFProcessStubs : nat -> nat -> M unit := walk_tree visit_stubs.

Definition visit_external (extlsa : GlobalRoutingLSA) (v : nat) : M unit :=
  rlsa ← lsa_of v;
  if m_linkStateId rlsa =? m_advertisingRtr extlsa then SPFAddASExternal extlsa v else mret tt.
Definition ProcessASExternals (extlsa : GlobalRoutingLSA) : nat -> nat -> M unit := walk_tree (visit_external extlsa).

Fixpoint ClearVertexProcessed (depth : nat) (v : nat) : M unit :=
  match depth with
  | O => lift (Fault Diverges)
  | S depth' =>
      vv ← vertex v;
      _ ← for_loop (m_children vv) (ClearVertexProcessed depth');
      update_vertex v (SetVertexProcessed false)
  end.

(** ** Stub nodes *)

Definition is_transit (l : GlobalRoutingLinkRecord) : bool :=
  bool_decide (m_linkType l = TransitNetwork) || bool_decide (m_linkType l = PointToPoint).

(** The first point-to-point record back to the router [id]. *)
Fixpoint record_back (id : Ipv4Address) (l : list GlobalRoutingLinkRecord) : option GlobalRoutingLinkRecord :=
  match l with
  | [] => None
  | lr :: l' =>
      if bool_decide (m_linkType lr = PointToPoint) && (m_linkId lr =? id) then Some lr else record_back id l'
  end.

(** [NodeList::GetNode (m_node_id)] of the root's advertisement gets the default
    route. *)
Definition CheckForStubNode (root : Ipv4Address) : M bool :=
  rlsa ← lsa_at root NullDeref;
  let myRouterId := m_linkStateId rlsa in
  match filter (fun l => is_transit l = true) (m_linkRecords rlsa) with
  | [] => mret true
  | [transitLink] =>
      if decide (m_linkType transitLink = PointToPoint) then
        w_lsa ← lsa_at (m_linkId transitLink) NullDeref;
        match record_back myRouterId (m_linkRecords w_lsa) with
        | None => mret false
        | Some lr =>
            st ← get;
            node ← lift (NodeList st !! Z.to_nat (m_node_id rlsa) ?? AssertFailed);
            _ ← lift (gn_router node ?? AssertFailed);
            gr ← lift (gn_routing node ?? AssertFailed);
            outIf ← FindOutgoingInterfaceId (m_linkData transitLink) Mask_GetOnes;
            let node := set_routing (Global.AddNetworkRouteTo GetZero Mask_GetZero (m_linkData lr) (u32 outIf) gr) node in
            _ ← modify (fun st => set_NodeList (<[Z.to_nat (m_node_id rlsa) := node]> (NodeList st)) st);
            mret true
        end
      else mret false
  | _ => mret false
  end.

(** ** The calculation *)

(** What is done with a vertex that comes off the queue. *)
Definition settle (v : nat) : M unit :=
  vv ← vertex v;
  lsa ← lsa_of v;
  _ ← set_status (m_lsa vv) LSA_SPF_IN_SPFTREE;
  _ ← SPFVertexAddParent v;
  type ← vertex_type v;
  match type with
  | VertexRouter => SPFIntraAddRouter v
  | VertexNetwork => SPFIntraAddTransit v
  | VertexUnknown => lift (Fault AssertFailed)
  end.

(** [for (;;)]: every round but the last takes an advertisement into the
    tree. *)
Fixpoint spf_loop (rounds : nat) (v : nat) : M unit :=
  match rounds with
  | O => lift (Fault Diverges)
  | S rounds' =>
      _ ← SPFNext v;
      size ← Size;
      if size =? 0 then mret tt
      else
        v ← Pop;
        v ← lift (v ?? NullDeref);
        _ ← settle v;
        spf_loop rounds' v
  end.

(** The root, alone in the tree. *)
Definition plant (root : Ipv4Address) : M nat :=
  _ ← modify (fun st => set_candidate [] (set_lsdb (LSDB_Initialize (m_lsdb st)) st));
  v ← new_vertex root;
  _ ← modify (set_spfroot (Some v));
  _ ← update_vertex v (SetDistanceFromRoot 0);
  _ ← set_status root LSA_SPF_IN_SPFTREE;
  mret v.

Definition SPFCalculate (root : Ipv4Address) : M unit :=
  v ← plant root;
  st ← get;
  stub ← (match NodeList st with [] => mret false | _ => CheckForStubNode root end);
  if stub : bool then delete_vertex 1 v
  else
    _ ← spf_loop (length (m_database (m_lsdb st))) v;
    st ← get;
    spfroot ← lift (m_spfroot st ?? NullDeref);
    let depth := size (vertices st) in
    _ ← SPFProcessStubs depth spfroot;
    _ ← for_loop (m_extdatabase (m_lsdb st)) (fun extlsa =>
          _ ← ClearVertexProcessed depth spfroot; ProcessASExternals extlsa depth spfroot);
    _ ← delete_vertex depth spfroot;
    modify (set_spfroot None).

(** ** All routers *)

Definition DeleteGlobalRoutes : M unit :=
  st ← get;
  l ← lift (mapM (fun node => match gn_router node with
              | None => Ok node
              | Some _ => gr ← gn_routing node ?? NullDeref; gr ← Global.delete_routes gr; Ok (set_routing gr node)
              end) (NodeList st));
  modify (fun st => set_NodeList l (set_lsdb new_LSDB st)).

Definition BuildGlobalRoutingDatabase : M unit :=
  st ← get;
  for_loop (NodeList st) (fun node =>
    match gn_router node with
    | None => mret tt
    | Some _ => modify (fun st => set_lsdb (foldl (fun db lsa => Insert (m_linkStateId lsa) lsa db) (m_lsdb st) (gn_lsas node)) st)
    end).

Definition InitializeRoutes : M unit :=
  st ← get;
  for_loop (NodeList st) (fun node =>
    match gn_router node with
    | Some routerId =>
        if gn_here node && negb (bool_decide (gn_lsas node = [])) then SPFCalculate routerId else mret tt
    | None => mret tt
    end).
End spf.
