(* ===== verification/GlobalPaths.v ===== *)
(** * GlobalPaths: shortest paths, and the invariant of their calculation

    For databases of router advertisements whose links are point-to-point (and
    stubs): shortest paths and their first hops in the graph of the
    advertisements, and what is true of the tree of GlobalSpf and of its
    candidates while it is computed.  GlobalSpfSpec proves that it stays so. *)
From stdpp Require Import gmap.
From S2P Require Import Prelude StdMap Ipv4Address Node StaticRouting GlobalRouting GlobalLsdb GlobalSpf.

(** ** Running handlers that emit nothing *)

Lemma run_bind {S A B} (h : handler S Empty_set A) (k : A -> handler S Empty_set B) st a st1 :
  h st = Ok (a, st1, []) -> (h ≫= k) st = k a st1.
Proof. intros H. unfold mbind, handler_bind. rewrite H. by destruct (k a st1) as [[[? ?] ?]|]. Qed.

Lemma run_get {S B} (k : S -> handler S Empty_set B) st : (get ≫= k) st = k st st.
Proof. by apply run_bind. Qed.

Lemma run_modify {S B} f (k : unit -> handler S Empty_set B) st : (modify f ≫= k) st = k tt (f st).
Proof. by apply run_bind. Qed.

Lemma run_lift {S A B} (c : result A) (k : A -> handler S Empty_set B) st a : c = Ok a -> (lift c ≫= k) st = k a st.
Proof. intros ->. by apply run_bind. Qed.

Lemma run_loop {S A} (I : list A -> S -> Prop) (f : A -> handler S Empty_set unit) l st :
  (forall pre a post st, l = pre ++ a :: post -> I pre st -> exists st', f a st = Ok (tt, st', []) /\ I (pre ++ [a]) st') ->
  I [] st -> exists st', for_loop l f st = Ok (tt, st', []) /\ I l st'.
Proof.
  intros Hf. assert (forall post pre st, l = pre ++ post -> I pre st ->
    exists st', for_loop post f st = Ok (tt, st', []) /\ I l st') as H; [|by intros; eapply (H l [])].
  induction post as [|a post IH]; intros pre s Hl Hs; cbn [for_loop].
  - exists s. split; [done|]. by rewrite Hl, app_nil_r.
  - destruct (Hf pre a post s Hl Hs) as (s1 & H1 & Hs1). rewrite (run_bind _ _ _ _ _ H1).
    apply (IH (pre ++ [a])); [|done]. by rewrite <- app_assoc.
Qed.

Section vertices.
Implicit Types st : Spf.

Lemma vertex_ok p st v : vertices st !! p = Some v -> vertex p st = Ok (v, st, []).
Proof. intros H. unfold vertex. rewrite run_get. unfold lift. by rewrite H. Qed.

Lemma update_vertex_ok p f st v : vertices st !! p = Some v ->
  update_vertex p f st = Ok (tt, set_vertices (<[p := f v]> (vertices st)) st, []).
Proof. intros H. unfold update_vertex. by rewrite (run_bind _ _ _ _ _ (vertex_ok _ _ _ H)). Qed.

Lemma vertex_type_ok p st v t : vertices st !! p = Some v -> m_vertexType v = Some t -> vertex_type p st = Ok (t, st, []).
Proof.
  intros H Ht. unfold vertex_type. rewrite (run_bind _ _ _ _ _ (vertex_ok _ _ _ H)). unfold lift. by rewrite Ht.
Qed.

Lemma lsa_of_ok p st v lsa : vertices st !! p = Some v -> GetLSA (m_lsa v) (m_lsdb st) = Some lsa ->
  lsa_of p st = Ok (lsa, st, []).
Proof.
  intros H Hl. unfold lsa_of, lsa_at. rewrite (run_bind _ _ _ _ _ (vertex_ok _ _ _ H)), run_get. unfold lift. by rewrite Hl.
Qed.

Lemma set_vertices_vertices vs st : vertices (set_vertices vs st) = vs.
Proof. done. Qed.

Lemma set_vertices_twice vs ws st : set_vertices vs (set_vertices ws st) = set_vertices vs st.
Proof. done. Qed.

(** ** The queue *)

Lemma deref_all_spec (heap : gmap nat SPFVertex) ps :
  Forall (fun pv => heap !! pv.1 = Some pv.2) ps -> deref_all heap ps.*1 = Ok ps.
Proof. induction 1 as [|[p v] ps Hp Hps IH]; [done|]. cbn in *. by rewrite Hp, IH. Qed.

Lemma deref_all_ok (heap : gmap nat SPFVertex) q : (forall p, p ∈ q -> is_Some (heap !! p)) ->
  exists ps, deref_all heap q = Ok ps /\ ps.*1 = q /\ Forall (fun pv => heap !! pv.1 = Some pv.2) ps.
Proof.
  intros H. assert (exists ps, ps.*1 = q /\ Forall (fun pv => heap !! pv.1 = Some pv.2) ps) as (ps & Hq & Hps).
  { induction q as [|p q IH]; [by exists []|]. destruct (H p) as [v Hv]; [left|].
    destruct IH as (ps & Hq & Hps); [intros; apply H; by right|]. exists ((p, v) :: ps). split; [by cbn; f_equal|by constructor]. }
  exists ps. split; [|done]. rewrite <- Hq. by apply deref_all_spec.
Qed.

(** The distances along the queue do not decrease. *)
Definition qsorted (heap : gmap nat SPFVertex) (q : list nat) : Prop := forall i j p p' v w, (i < j)%nat ->
  q !! i = Some p -> q !! j = Some p' -> heap !! p = Some v -> heap !! p' = Some w ->
  m_distanceFromRoot v <= m_distanceFromRoot w.

Definition is_router (pv : nat * SPFVertex) : Prop := m_vertexType pv.2 = Some VertexRouter.

Lemma compare_routers a b : is_router a -> is_router b ->
  compare_candidates a b = (m_distanceFromRoot a.2 <? m_distanceFromRoot b.2).
Proof.
  unfold is_router, compare_candidates, CompareSPFVertex. intros -> ->. case_match; [done|].
  by destruct (_ =? _).
Qed.

Lemma qsorted_ordered (heap : gmap nat SPFVertex) ps : Forall (fun pv => heap !! pv.1 = Some pv.2) ps -> Forall is_router ps ->
  qsorted heap ps.*1 <-> ordered compare_candidates ps.
Proof.
  intros Hps Hr. rewrite Forall_lookup in Hps, Hr. split.
  - intros H i j x y Hij Hi Hj. rewrite compare_routers by eauto. apply Z.ltb_ge.
    apply (H i j x.1 y.1 x.2 y.2); [done| | |by eapply Hps..]; rewrite list_lookup_fmap; by rewrite ?Hi, ?Hj.
  - intros H i j p p' v w Hij Hi Hj Hv Hw. rewrite list_lookup_fmap in Hi, Hj.
    apply fmap_Some in Hi as (x & Hi & ->), Hj as (y & Hj & ->).
    pose proof (H i j x y Hij Hi Hj) as Hc. rewrite compare_routers in Hc by eauto. apply Z.ltb_ge in Hc.
    rewrite (Hps _ _ Hi) in Hv. rewrite (Hps _ _ Hj) in Hw. congruence.
Qed.

Lemma find_vertex_spec addr ps p v : (p, v) ∈ ps -> m_vertexId v = addr ->
  (forall p' v', (p', v') ∈ ps -> m_vertexId v' = addr -> p' = p) -> find_vertex addr ps = Some p.
Proof.
  induction ps as [|[p0 v0] ps IH]; [by intros ?%elem_of_nil|]. intros Hin Hid Hu. cbn [find_vertex].
  destruct (Z.eqb_spec (m_vertexId v0) addr) as [E|E].
  - f_equal. apply (Hu p0 v0); [by left|done].
  - apply elem_of_cons in Hin as [[= <- <-]|Hin]; [done|]. apply IH; [done..|]. intros. eapply Hu; [by right|done].
Qed.
End vertices.

(** ** Shortest paths from a router *)

Section p2p.
Context (L : stdmap Ipv4Address GlobalRoutingLSA) (r : Ipv4Address) (ifc : Ipv4Address -> Z).

(** [l] is a record of [u]; it is a link to [w]. *)
Definition recs (u : Ipv4Address) (l : GlobalRoutingLinkRecord) : Prop :=
  exists lsa, map_find u L = Some lsa /\ l ∈ m_linkRecords lsa.
Definition link (u : Ipv4Address) (l : GlobalRoutingLinkRecord) (w : Ipv4Address) : Prop :=
  recs u l /\ m_linkType l = PointToPoint /\ m_linkId l = w.

(** Walks from the root, with their costs. *)
Inductive way : Ipv4Address -> Z -> Prop :=
| way_root : way r 0
| way_link u l w c : way u c -> link u l w -> way w (c + m_metric l).

Definition shortest (w : Ipv4Address) (c : Z) : Prop := way w c /\ forall c', way w c' -> c <= c'.

(** The first record of [w] that names the root. *)
Definition back (w : Ipv4Address) : option GlobalRoutingLinkRecord :=
  lsa ← map_find w L; next_link r true false (m_linkRecords lsa).

(** The exits of the root on shortest paths to [w]: the address of the router at
    the other end of the first link, and the interface of that link. *)
Inductive first_hop : Ipv4Address -> NodeExit -> Prop :=
| first_direct l w lr : link r l w -> shortest w (m_metric l) -> back w = Some lr ->
    first_hop w (m_linkData lr, ifc (m_linkData l))
| first_inherited u l w c e : u <> r -> link u l w -> shortest u c -> shortest w (c + m_metric l) ->
    first_hop u e -> first_hop w e.

(** Router advertisements only, with links of positive cost between routers
    that know each other, and stubs. *)
Record p2p_lsdb : Prop := {
  pl_wf : map_wf L;
  pl_root : is_Some (map_find r L);
  pl_small : Z.of_nat (length L) * 65535 < 2 ^ 32;
  pl_router u lsa : map_find u L = Some lsa -> m_lsType lsa = RouterLSA /\ m_linkStateId lsa = u;
  pl_record u l : recs u l -> m_linkType l = StubNetwork \/ m_linkType l = PointToPoint;
  pl_link u l w : link u l w -> 1 <= m_metric l <= 65535 /\ is_Some (map_find w L);
  pl_back l w : link r l w -> is_Some (back w)
}.
Context (HL : p2p_lsdb).

Lemma way_nonneg w c : way w c -> 0 <= c.
Proof using HL. induction 1 as [|u l w c _ IH Hl]; [done|]. pose proof (pl_link HL _ _ _ Hl). lia. Qed.

Lemma shortest_unique w c c' : shortest w c -> shortest w c' -> c = c'.
Proof. intros [H1 H2] [H3 H4]. specialize (H2 _ H3). specialize (H4 _ H1). lia. Qed.

Lemma shortest_root c : shortest r c <-> c = 0.
Proof using HL.
  assert (shortest r 0) as H0 by (split; [apply way_root|apply way_nonneg]).
  split; [intros H; by apply (shortest_unique r)|by intros ->].
Qed.

(** ** What the examined records [R] offer a vertex *)

Definition offer (R : Ipv4Address -> GlobalRoutingLinkRecord -> Prop) (w : Ipv4Address) (c : Z) : Prop :=
  exists u l b, R u l /\ link u l w /\ shortest u b /\ c = b + m_metric l.
Definition via (u : Ipv4Address) (l : GlobalRoutingLinkRecord) (w : Ipv4Address) (e : NodeExit) : Prop :=
  (u = r /\ exists lr, back w = Some lr /\ e = (m_linkData lr, ifc (m_linkData l))) \/ (u <> r /\ first_hop u e).
Definition offer_exit R (w : Ipv4Address) (c : Z) (e : NodeExit) : Prop :=
  exists u l b, R u l /\ link u l w /\ shortest u b /\ c = b + m_metric l /\ via u l w e.

(** A candidate has the best offer, and the exits of all best offers. *)
Definition good R (v : SPFVertex) : Prop :=
  offer R (m_vertexId v) (m_distanceFromRoot v) /\
  (forall c, offer R (m_vertexId v) c -> m_distanceFromRoot v <= c) /\
  (forall e, e ∈ m_ecmpRootExits v <-> offer_exit R (m_vertexId v) (m_distanceFromRoot v) e).

Definition plus (R : Ipv4Address -> GlobalRoutingLinkRecord -> Prop) (u : Ipv4Address) (l : GlobalRoutingLinkRecord) a b : Prop :=
  R a b \/ (a = u /\ b = l).

Section one_record.
Context (R : Ipv4Address -> GlobalRoutingLinkRecord -> Prop) (u w : Ipv4Address) (l : GlobalRoutingLinkRecord) (b : Z).
Context (Hl : link u l w) (Hb : shortest u b).

Lemma offer_plus x c : offer (plus R u l) x c <-> offer R x c \/ (x = w /\ c = b + m_metric l).
Proof using Hb Hl.
  split.
  - intros (u' & l' & b' & [H|[-> ->]] & H2 & H3 & ->); [left; by exists u', l', b'|]. right.
    destruct Hl as (_ & _ & <-), H2 as (_ & _ & <-). split; [done|]. by rewrite (shortest_unique _ _ _ Hb H3).
  - intros [(u' & l' & b' & H1 & H2 & H3 & ->)|[-> ->]]; [exists u', l', b'; split; [by left|done]|].
    exists u, l, b. split; [by right|done].
Qed.

Lemma offer_exit_plus x c e :
  offer_exit (plus R u l) x c e <-> offer_exit R x c e \/ (x = w /\ c = b + m_metric l /\ via u l w e).
Proof using Hb Hl.
  split.
  - intros (u' & l' & b' & [H|[-> ->]] & H2 & H3 & -> & H5); [left; by exists u', l', b'|]. right.
    assert (x = w) as -> by (destruct Hl as (_ & _ & <-), H2 as (_ & _ & <-); done).
    split; [done|]. split; [by rewrite (shortest_unique _ _ _ Hb H3)|done].
  - intros [(u' & l' & b' & H1 & H2 & H3 & -> & H5)|(-> & -> & H5)]; [exists u', l', b'; split; [by left|done]|].
    exists u, l, b. split; [by right|done].
Qed.

Lemma offer_exit_offer x c e : offer_exit R x c e -> offer R x c.
Proof. intros (u' & l' & b' & H1 & H2 & H3 & H4 & _). by exists u', l', b'. Qed.

Lemma good_other v : m_vertexId v <> w -> good R v -> good (plus R u l) v.
Proof using Hb Hl.
  intros Hn (H1 & H2 & H3). split_and!.
  - apply offer_plus. by left.
  - intros c [Hc|[? _]]%offer_plus; [by apply H2|done].
  - intros e. rewrite offer_exit_plus, H3. naive_solver.
Qed.

Lemma good_worse v : m_vertexId v = w -> m_distanceFromRoot v < b + m_metric l -> good R v -> good (plus R u l) v.
Proof using Hb Hl.
  intros Hw Hlt (H1 & H2 & H3). split_and!.
  - apply offer_plus. by left.
  - intros c [Hc|[_ ->]]%offer_plus; [by apply H2|lia].
  - intros e. rewrite offer_exit_plus, H3. split; [by left|]. intros [H|(_ & E & _)]; [done|lia].
Qed.

Lemma good_equal v v' : m_vertexId v = w -> m_distanceFromRoot v = b + m_metric l -> good R v ->
  m_vertexId v' = w -> m_distanceFromRoot v' = b + m_metric l ->
  (forall e, e ∈ m_ecmpRootExits v' <-> e ∈ m_ecmpRootExits v \/ via u l w e) -> good (plus R u l) v'.
Proof using Hb Hl.
  intros Hw Hd (H1 & H2 & H3) Hw' Hd' He. rewrite <- Hd in Hd'. split_and!.
  - apply offer_plus. left. by rewrite Hw', Hd', <- Hw.
  - intros c [Hc|[_ ->]]%offer_plus; [|lia]. rewrite Hd'. apply H2. by rewrite Hw, <- Hw'.
  - intros e. rewrite offer_exit_plus, He, H3, Hw, Hw', Hd'. naive_solver.
Qed.

(** The first offer, or a better one than all before. *)
Lemma good_better v' : (forall c, offer R w c -> b + m_metric l < c) ->
  m_vertexId v' = w -> m_distanceFromRoot v' = b + m_metric l ->
  (forall e, e ∈ m_ecmpRootExits v' <-> via u l w e) -> good (plus R u l) v'.
Proof using Hb Hl.
  intros Hlt Hw' Hd' He. split_and!.
  - apply offer_plus. by right.
  - intros c [Hc|[_ ->]]%offer_plus; [|lia]. rewrite Hw' in Hc. specialize (Hlt _ Hc). lia.
  - intros e. rewrite offer_exit_plus, He, Hw', Hd'. split; [by right|]. intros [H|(_ & _ & H)]; [|done].
    apply offer_exit_offer in H. specialize (Hlt _ H). lia.
Qed.
End one_record.

(** ** The invariant of the calculation

    [done] are the routers of the tree, [R] the records examined so far, [D]
    the distance of the router taken into the tree last. *)

Definition status (st : Spf) (k : Ipv4Address) : option SPFStatus := m_status <$> GetLSA k (m_lsdb st).

Record tree_inv (done : list Ipv4Address) R (D : Z) (st : Spf) : Prop := {
  ti_db k : SetStatus LSA_SPF_NOT_EXPLORED <$> GetLSA k (m_lsdb st) = SetStatus LSA_SPF_NOT_EXPLORED <$> map_find k L;
  ti_done : NoDup done;
  ti_status k : k ∈ done <-> status st k = Some LSA_SPF_IN_SPFTREE;
  ti_root : exists p v, m_spfroot st = Some p /\ vertices st !! p = Some v /\ m_vertexId v = r;
  ti_root_done : r ∈ done;
  ti_next p v : vertices st !! p = Some v -> (p < next_vertex st)%nat;
  ti_vertex p v : vertices st !! p = Some v -> m_vertexType v = Some VertexRouter /\ m_lsa v = m_vertexId v /\
    status st (m_vertexId v) = Some (if decide (p ∈ candidate st) then LSA_SPF_CANDIDATE else LSA_SPF_IN_SPFTREE) /\
    (forall q, q ∈ m_parents v -> exists w, vertices st !! q = Some w /\ q ∉ candidate st /\
       m_distanceFromRoot w < m_distanceFromRoot v) /\
    (m_parents v = [] -> m_vertexId v = r);
  ti_unique p q v w : vertices st !! p = Some v -> vertices st !! q = Some w -> m_vertexId v = m_vertexId w -> p = q;
  ti_has k s : status st k = Some s -> s <> LSA_SPF_NOT_EXPLORED ->
    exists p v, vertices st !! p = Some v /\ m_vertexId v = k;
  ti_queue : NoDup (candidate st) /\ qsorted (vertices st) (candidate st);
  ti_queued p : p ∈ candidate st -> is_Some (vertices st !! p);
  ti_tree p v : vertices st !! p = Some v -> p ∉ candidate st -> shortest (m_vertexId v) (m_distanceFromRoot v) /\
    m_distanceFromRoot v <= D /\ forall e, e ∈ m_ecmpRootExits v <-> first_hop (m_vertexId v) e;
  ti_cand p v : vertices st !! p = Some v -> p ∈ candidate st -> good R v /\ D <= m_distanceFromRoot v;
  ti_R u l : R u l -> recs u l /\ u ∈ done;
  ti_closed u l w : R u l -> link u l w -> exists s, status st w = Some s /\ s <> LSA_SPF_NOT_EXPLORED;
  ti_D : 0 <= D <= (Z.of_nat (length done) - 1) * 65535;
  ti_ifc a : find_outgoing r a Mask_GetOnes (NodeList st) = Ok (ifc a)
}.

Lemma good_ext R R' v : (forall a b, R a b <-> R' a b) -> good R v -> good R' v.
Proof.
  intros HR (H1 & H2 & H3). split_and!.
  - destruct H1 as (u & l & b & H & ?). exists u, l, b. by rewrite <- HR.
  - intros c (u & l & b & H & ?). apply H2. exists u, l, b. by rewrite HR.
  - intros e. rewrite H3. split; intros (u & l & b & H & ?); exists u, l, b; (by rewrite <- HR) || (by rewrite HR).
Qed.

Lemma tree_inv_ext done R R' D st : (forall a b, R a b <-> R' a b) -> tree_inv done R D st -> tree_inv done R' D st.
Proof.
  intros HR []. split; try done.
  - intros p v Hv Hp. destruct (ti_cand0 p v Hv Hp). split; [|done]. by eapply good_ext.
  - intros u l H. apply ti_R0. by rewrite HR.
  - intros u l w H. apply ti_closed0. by rewrite HR.
Qed.

(** A vertex is a child of its parents when it is in the tree, and only then;
    no vertex is marked. *)
Definition family (h : gmap nat SPFVertex) (q : list nat) : Prop := forall p v, h !! p = Some v ->
  m_vertexProcessed v = false /\ forall c, c ∈ m_children v <-> exists w, h !! c = Some w /\ p ∈ m_parents w /\ c ∉ q.

(** What no step before [settle] changes. *)
Definition quiet (st st' : Spf) : Prop :=
  (NodeList st', m_extdatabase (m_lsdb st')) = (NodeList st, m_extdatabase (m_lsdb st)) /\
  (family (vertices st) (candidate st) -> family (vertices st') (candidate st')).

Lemma quiet_refl st : quiet st st.
Proof. done. Qed.

Lemma quiet_trans st1 st2 st3 : quiet st1 st2 -> quiet st2 st3 -> quiet st1 st3.
Proof. intros [E1 F1] [E2 F2]. split; [congruence|auto]. Qed.

Lemma family_update h q q' p v v' : family h q -> h !! p = Some v -> p ∈ q -> q' ≡ₚ q ->
  m_children v' = m_children v -> m_vertexProcessed v' = m_vertexProcessed v -> family (<[p := v']> h) q'.
Proof.
  intros Hf Hp Hpq Hq Ec Em x y Hxy.
  assert (exists y0, h !! x = Some y0 /\ m_children y = m_children y0 /\ m_vertexProcessed y = m_vertexProcessed y0) as (y0 & Hy0 & E1 & E2).
  { apply lookup_insert_Some in Hxy as [[<- <-]|[Hn Hxy]]; [by exists v|by exists y]. }
  destruct (Hf x y0 Hy0) as [F1 F2]. rewrite E1, E2. split; [done|]. intros c. rewrite F2.
  assert (c ∈ q' <-> c ∈ q) as Hin by by rewrite Hq. destruct (decide (c = p)) as [->|Hc].
  - split; intros (w & _ & _ & Hn); [done|]. by destruct Hn; apply Hin.
  - rewrite lookup_insert_ne by done. split; intros (w & Hw & Hpw & Hn); exists w; (split; [done|split; [done|]]); by rewrite Hin in * || by rewrite <- Hin in *.
Qed.

Lemma family_new h q q' p v : family h q -> h !! p = None -> q' ≡ₚ p :: q -> m_children v = [] -> m_vertexProcessed v = false ->
  (forall x y, h !! x = Some y -> p ∉ m_parents y) -> family (<[p := v]> h) q'.
Proof.
  intros Hf Hp Hq Ec Em Hpar x y Hxy. assert (forall c, c ∈ q' <-> c = p \/ c ∈ q) as Hin by (intros; by rewrite Hq, elem_of_cons).
  apply lookup_insert_Some in Hxy as [[<- <-]|[Hn Hxy]].
  - split; [done|]. intros c. rewrite Ec, elem_of_nil. split; [done|]. intros (w & Hw & Hpw & Hc).
    apply lookup_insert_Some in Hw as [[<- <-]|[Hn Hw]]; [apply Hc, Hin; by left|by apply (Hpar c w)].
  - destruct (Hf x y Hxy) as [F1 F2]. split; [done|]. intros c. rewrite F2.
    destruct (decide (c = p)) as [->|Hc].
    + split; intros (w & Hw & _ & Hn'); [congruence|]. destruct Hn'. apply Hin. by left.
    + rewrite lookup_insert_ne by done. split; intros (w & Hw & Hpw & Hn'); exists w; (split; [done|split; [done|]]).
      * by intros [->|?]%Hin.
      * intros Hcq. apply Hn', Hin. by right.
Qed.

(** What the children lists and the marks of the walks do not touch. *)
Definition core (v : SPFVertex) : SPFVertex := SetVertexProcessed false (set_children [] v).
Definition same_core (h1 h2 : gmap nat SPFVertex) : Prop := forall p, core <$> h1 !! p = core <$> h2 !! p.

Lemma core_fields v w : core v = core w -> m_vertexType v = m_vertexType w /\ m_vertexId v = m_vertexId w /\ m_lsa v = m_lsa w /\
  m_distanceFromRoot v = m_distanceFromRoot w /\ m_ecmpRootExits v = m_ecmpRootExits w /\ m_parents v = m_parents w.
Proof. destruct v, w. unfold core. cbn. by intros [= -> -> -> -> _ _ -> ->]. Qed.

Lemma same_core_lookup h1 h2 p w : same_core h1 h2 -> h2 !! p = Some w -> exists v, h1 !! p = Some v /\ core v = core w.
Proof. intros H Hw. specialize (H p). rewrite Hw in H. destruct (h1 !! p) as [v|]; [|done]. exists v. split; [done|]. by apply (inj Some) in H. Qed.

Lemma same_core_sym h1 h2 : same_core h1 h2 -> same_core h2 h1.
Proof. intros H p. by rewrite H. Qed.

Lemma same_core_trans h1 h2 h3 : same_core h1 h2 -> same_core h2 h3 -> same_core h1 h3.
Proof. intros H1 H2 p. by rewrite H1. Qed.

Lemma same_core_insert (h : gmap nat SPFVertex) p v w : h !! p = Some v -> core w = core v -> same_core h (<[p := w]> h).
Proof. intros Hv Hc q. destruct (decide (q = p)) as [->|Hn]; [rewrite lookup_insert_eq, Hv; cbn; by rewrite Hc|by rewrite lookup_insert_ne by congruence]. Qed.

Lemma good_core R v w : core v = core w -> good R v -> good R w.
Proof. intros (_ & E1 & _ & E2 & E3 & _)%core_fields. unfold good. by rewrite E1, E2, E3. Qed.

Lemma qsorted_core h1 h2 q : same_core h1 h2 -> qsorted h1 q -> qsorted h2 q.
Proof.
  intros H Hq i j p p' v w Hij Hi Hj Hv Hw.
  destruct (same_core_lookup _ _ _ _ H Hv) as (v1 & Hv1 & (_ & _ & _ & <- & _)%core_fields).
  destruct (same_core_lookup _ _ _ _ H Hw) as (w1 & Hw1 & (_ & _ & _ & <- & _)%core_fields). by apply (Hq i j p p').
Qed.

Lemma tree_inv_core done R D st st' :
  m_lsdb st' = m_lsdb st -> m_spfroot st' = m_spfroot st -> candidate st' = candidate st -> NodeList st' = NodeList st ->
  (next_vertex st <= next_vertex st')%nat -> same_core (vertices st) (vertices st') ->
  tree_inv done R D st -> tree_inv done R D st'.
Proof.
  intros E1 E2 E3 E4 E5 Hc [].
  assert (forall k, status st' k = status st k) as Es by (intros; unfold status; by rewrite E1).
  assert (forall p, is_Some (vertices st !! p) -> is_Some (vertices st' !! p)) as Hsome.
  { intros p [v Hv]. destruct (same_core_lookup _ _ _ _ (same_core_sym _ _ Hc) Hv) as (w & Hw & _). by exists w. }
  split; try done.
  - intros k. by rewrite E1.
  - intros k. by rewrite Es.
  - destruct ti_root0 as (p & v & H1 & H2 & H3). rewrite E2.
    destruct (same_core_lookup _ _ _ _ (same_core_sym _ _ Hc) H2) as (w & Hw & (_ & E & _)%core_fields). exists p, w. by rewrite E.
  - intros p w Hw. destruct (same_core_lookup _ _ _ _ Hc Hw) as (v & Hv & _). specialize (ti_next0 _ _ Hv). lia.
  - intros p w Hw. destruct (same_core_lookup _ _ _ _ Hc Hw) as (v & Hv & (F1 & F2 & F3 & F4 & F5 & F6)%core_fields).
    destruct (ti_vertex0 p v Hv) as (H1 & H2 & H3 & H4 & H5). rewrite <- F1, <- F2, <- F3, <- F4, <- F6, Es, E3. split_and!; auto.
    intros q Hq. destruct (H4 q Hq) as (y & Hy & G1 & G2).
    destruct (same_core_lookup _ _ _ _ (same_core_sym _ _ Hc) Hy) as (y' & Hy' & (_ & _ & _ & E & _)%core_fields).
    exists y'. by rewrite E.
  - intros p q v' w' Hv' Hw' Hid. destruct (same_core_lookup _ _ _ _ Hc Hv') as (v & Hv & (_ & F & _)%core_fields).
    destruct (same_core_lookup _ _ _ _ Hc Hw') as (w & Hw & (_ & F' & _)%core_fields).
    apply (ti_unique0 p q v w); [done|done|]. by rewrite F, F'.
  - intros k s Hs Hn. rewrite Es in Hs. destruct (ti_has0 k s Hs Hn) as (p & v & Hv & Hid).
    destruct (same_core_lookup _ _ _ _ (same_core_sym _ _ Hc) Hv) as (w & Hw & (_ & E & _)%core_fields). exists p, w. by rewrite E.
  - rewrite E3. destruct ti_queue0. split; [done|]. by eapply qsorted_core.
  - intros p. rewrite E3. auto.
  - intros p w Hw. rewrite E3. destruct (same_core_lookup _ _ _ _ Hc Hw) as (v & Hv & (F1 & F2 & F3 & F4 & F5 & F6)%core_fields).
    rewrite <- F2, <- F4, <- F5. by apply ti_tree0.
  - intros p w Hw. rewrite E3. intros Hp. destruct (same_core_lookup _ _ _ _ Hc Hw) as (v & Hv & Hvw).
    destruct (ti_cand0 p v Hv Hp) as [H1 H2]. split; [by eapply good_core|].
    by destruct (core_fields _ _ Hvw) as (_ & _ & _ & <- & _).
  - intros u l w. rewrite Es. apply ti_closed0.
  - intros a. by rewrite E4.
Qed.
End p2p.
