(* ===== verification/GlobalTree.v ===== *)
(** * GlobalTree: walks over the shortest-path tree

    The recursions of GlobalSpf over the vertices and their children: the walks
    that visit every router once, the one that clears the marks, and the
    destructor that takes the whole tree down.  The tree is a directed acyclic
    graph, because a vertex has a parent for each of its shortest paths. *)

From stdpp Require Import gmap.
From S2P Require Import Prelude StdMap Ipv4Address Node GlobalRouting GlobalLsdb GlobalSpf GlobalPaths.

(** ** The tree, and its marks *)

(** [rank] orders the vertices: children are below their parents. *)
Record rooted (h : gmap nat SPFVertex) (root : nat) (rank : nat -> nat) : Prop := {
  rt_root : is_Some (h !! root);
  rt_type p v : h !! p = Some v -> m_vertexType v = Some VertexRouter;
  rt_kid p v c : h !! p = Some v -> c ∈ m_children v <-> exists w, h !! c = Some w /\ p ∈ m_parents w;
  rt_parent c w p : h !! c = Some w -> p ∈ m_parents w -> is_Some (h !! p) /\ (rank c < rank p)%nat;
  rt_orphan c w : h !! c = Some w -> m_parents w = [] -> c = root;
  rt_rank c : is_Some (h !! c) -> (rank c < size h)%nat
}.

Definition unmark (v : SPFVertex) : SPFVertex := SetVertexProcessed false v.
Definition same_tree (h1 h2 : gmap nat SPFVertex) : Prop := forall p, unmark <$> h1 !! p = unmark <$> h2 !! p.
Definition marked (h : gmap nat SPFVertex) (p : nat) : Prop := exists v, h !! p = Some v /\ m_vertexProcessed v = true.

Lemma unmark_fields v w : unmark v = unmark w -> m_vertexType v = m_vertexType w /\ m_children v = m_children w /\
  m_parents v = m_parents w /\ core v = core w.
Proof. destruct v, w. unfold unmark, core, SetVertexProcessed, set_children. cbn. by intros [= -> -> -> -> -> -> -> -> ->]. Qed.

Lemma same_tree_sym h1 h2 : same_tree h1 h2 -> same_tree h2 h1.
Proof. intros H p. by rewrite H. Qed.

Lemma same_tree_lookup h1 h2 p v : same_tree h1 h2 -> h1 !! p = Some v -> exists w, h2 !! p = Some w /\ unmark w = unmark v.
Proof. intros H Hv. specialize (H p). rewrite Hv in H. destruct (h2 !! p) as [w|]; [|done]. exists w. split; [done|]. by apply (inj Some) in H. Qed.

Lemma same_tree_set h h' p w b : same_tree h h' -> h' !! p = Some w -> same_tree h (<[p := SetVertexProcessed b w]> h').
Proof.
  intros H Hw x. rewrite H. destruct (decide (x = p)) as [->|Hx]; [by rewrite Hw, lookup_insert_eq|by rewrite lookup_insert_ne].
Qed.

Lemma marked_set h p w b x : h !! p = Some w ->
  marked (<[p := SetVertexProcessed b w]> h) x <-> (x = p /\ b = true) \/ (x <> p /\ marked h x).
Proof.
  intros Hw. unfold marked. split.
  - intros (v & Hv & Hm). apply lookup_insert_Some in Hv as [[<- <-]|[Hn Hv]]; [by left|right]. split; [done|]. by exists v.
  - intros [[-> ->]|(Hn & v & Hv & Hm)].
    + eexists. by rewrite lookup_insert_eq.
    + exists v. by rewrite lookup_insert_ne.
Qed.

Section tree.
Context (h0 : gmap nat SPFVertex) (root : nat) (rank : nat -> nat) (HT : rooted h0 root rank).

Definition kid (p c : nat) : Prop := exists v, h0 !! p = Some v /\ c ∈ m_children v.

Lemma kid_facts p c : kid p c -> is_Some (h0 !! c) /\ (rank c < rank p)%nat.
Proof using HT.
  intros (v & Hv & Hc). apply (rt_kid _ _ _ HT p v c Hv) in Hc as (w & Hw & Hp). split; [by exists w|].
  by eapply (rt_parent _ _ _ HT).
Qed.

Lemma not_root_kid c : is_Some (h0 !! c) -> c <> root -> exists p, kid p c.
Proof using HT.
  intros [w Hw] Hn. destruct (m_parents w) as [|p l] eqn:E; [by destruct Hn; eapply rt_orphan|].
  destruct (rt_parent _ _ _ HT c w p Hw) as [[v Hv] _]; [rewrite E; by left|].
  exists p, v. split; [done|]. apply (rt_kid _ _ _ HT p v c Hv). exists w. rewrite E. split; [done|by left].
Qed.

(** What holds of the root and passes to children holds everywhere. *)
Lemma tree_ind (P : nat -> Prop) : P root -> (forall p c, kid p c -> P p -> P c) -> forall x, is_Some (h0 !! x) -> P x.
Proof using HT.
  intros Hr Hk x Hx. remember (size h0 - rank x)%nat as n eqn:En. revert x Hx En.
  induction n as [n IH] using lt_wf_ind. intros x Hx ->. destruct (decide (x = root)) as [->|Hn]; [done|].
  destruct (not_root_kid x Hx Hn) as [p Hp]. apply (Hk p x Hp). destruct (kid_facts p x Hp) as [_ Hlt].
  assert (is_Some (h0 !! p)) as Hps by (destruct Hp as (v & Hv & _); by exists v).
  pose proof (rt_rank _ _ _ HT p Hps). eapply IH; [|done|reflexivity]. lia.
Qed.

(** ** Visiting every vertex *)

Section walk.
(** [J o st]: what holds when the vertices of [o] have been visited. *)
Context (visit : nat -> M unit) (J : list nat -> Spf -> Prop).
Hypothesis J_marks : forall o st h, J o st -> same_tree h0 (vertices st) -> same_tree h0 h -> J o (set_vertices h st).
Hypothesis J_visit : forall o v st, J o st -> same_tree h0 (vertices st) -> is_Some (h0 !! v) -> v ∉ o ->
  exists st', visit v st = Ok (tt, st', []) /\ J (v :: o) st' /\ vertices st' = vertices st.

Definition closed (o : list nat) (h : gmap nat SPFVertex) : Prop :=
  forall x, marked h x -> x ∈ o /\ forall c, kid x c -> marked h c.

Record walked (v : nat) (o : list nat) (st : Spf) (o' : list nat) (st' : Spf) : Prop := {
  wk_J : J o' st';
  wk_tree : same_tree h0 (vertices st');
  wk_more x : x ∈ v :: o -> x ∈ o';
  wk_marks x : marked (vertices st) x -> marked (vertices st') x;
  wk_closed : closed o' (vertices st');
  wk_open x : x ∈ o' -> x = v \/ marked (vertices st') x \/ x ∈ o
}.

Lemma walk_ok depth v o st : is_Some (h0 !! v) -> (rank v < depth)%nat -> v ∉ o -> J o st ->
  same_tree h0 (vertices st) -> closed o (vertices st) -> (forall x, x ∈ o -> marked (vertices st) x \/ (rank v < rank x)%nat) ->
  exists st' o', walk_tree visit depth v st = Ok (tt, st', []) /\ walked v o st o' st' /\
    forall c, kid v c -> marked (vertices st') c.
Proof using HT J_marks J_visit.
  revert v o st. induction depth as [|depth IH]; intros v o st Hv Hd Ho HJ Hs Hc Hopen; [lia|].
  destruct (J_visit o v st HJ Hs Hv Ho) as (st1 & V1 & V2 & V3). destruct Hv as [v0 Hv0].
  destruct (same_tree_lookup _ _ _ _ Hs Hv0) as (v1 & Hv1 & (U1 & U2 & _)%unmark_fields).
  cbn [walk_tree]. erewrite run_bind by (apply (vertex_type_ok v st v1); [done|rewrite U1; by eapply rt_type]).
  rewrite decide_True by done. rewrite (run_bind _ _ _ _ _ V1). rewrite <- V3 in Hs, Hc, Hopen.
  erewrite run_bind by (apply vertex_ok; rewrite V3; exact Hv1). rewrite U2.
  destruct (run_loop (fun pre s => exists o', walked v o st1 o' s /\ forall c, c ∈ pre -> marked (vertices s) c)
    (fun child => c ← vertex child; if m_vertexProcessed c then mret tt
       else _ ← walk_tree visit depth child; update_vertex child (SetVertexProcessed true)) (m_children v0) st1)
    as (st' & L1 & o' & L2 & L3).
  - intros pre c post s Hl (o' & W & Hpre). assert (kid v c) as Hk by (exists v0; rewrite Hl, elem_of_app; split; [done|right; by left]).
    destruct (kid_facts v c Hk) as [[c0 Hc0] Hrank]. destruct (same_tree_lookup _ _ _ _ (wk_tree _ _ _ _ _ W) Hc0) as (c1 & Hc1 & _).
    rewrite (run_bind _ _ _ _ _ (vertex_ok _ _ _ Hc1)). destruct (m_vertexProcessed c1) eqn:Em.
    { exists s. split; [done|]. exists o'. split; [done|]. intros x [Hx| ->%list_elem_of_singleton]%elem_of_app; [by apply Hpre|by exists c1]. }
    assert (forall x, x ∈ o' -> marked (vertices s) x \/ (rank c < rank x)%nat) as Hopen'.
    { intros x [->|[?|Hx]]%(wk_open _ _ _ _ _ W); [by right|by left|].
      destruct (Hopen x Hx) as [Hm|Hm]; [left; by apply (wk_marks _ _ _ _ _ W)|right; lia]. }
    destruct (IH c o' s) as (s2 & o2 & R1 & R2 & R3); [by exists c0|lia| |apply W..|done|].
    { intros [(c2 & Hc2 & Em2)|?]%Hopen'; [congruence|lia]. }
    rewrite (run_bind _ _ _ _ _ R1). destruct (same_tree_lookup _ _ _ _ (wk_tree _ _ _ _ _ R2) Hc0) as (c2 & Hc2 & _).
    assert (forall x, marked (vertices s2) x -> marked (<[c := SetVertexProcessed true c2]> (vertices s2)) x) as Hup.
    { intros x Hx. apply marked_set; [done|]. destruct (decide (x = c)); [by left|by right]. }
    assert (marked (<[c := SetVertexProcessed true c2]> (vertices s2)) c) as Hcm by (apply marked_set; [done|by left]).
    eexists. split; [by apply update_vertex_ok|]. exists o2. split.
    + split; cbn [set_vertices vertices].
      * apply J_marks; [apply R2..|]. apply same_tree_set; [apply R2|done].
      * apply same_tree_set; [apply R2|done].
      * intros x Hx. apply (wk_more _ _ _ _ _ R2). right. by apply (wk_more _ _ _ _ _ W).
      * intros x Hx. apply Hup, (wk_marks _ _ _ _ _ R2), (wk_marks _ _ _ _ _ W), Hx.
      * intros x Hx. apply marked_set in Hx as [[-> _]|[_ Hx]]; [|destruct (wk_closed _ _ _ _ _ R2 x Hx); auto|done].
        split; [apply (wk_more _ _ _ _ _ R2); by left|auto].
      * intros x [->|[?|Hx]]%(wk_open _ _ _ _ _ R2); [by right; left|right; left; auto|].
        apply (wk_open _ _ _ _ _ W) in Hx as [?|[Hx|?]]; [by left|right; left|by right; right].
        apply Hup, (wk_marks _ _ _ _ _ R2), Hx.
    + intros x [Hx| ->%list_elem_of_singleton]%elem_of_app; [|done]. apply Hup, (wk_marks _ _ _ _ _ R2), Hpre, Hx.
  - exists (v :: o). split; [|by intros c ?%elem_of_nil]. split; try done.
    + intros x Hx. destruct (Hc x Hx) as [? ?]. split; [by right|done].
    + intros x [->|?]%elem_of_cons; [by left|by right; right].
  - exists st', o'. split; [done|]. split; [|intros c (v2 & Hv2 & Hk); apply L3; congruence].
    destruct L2. split; try done. intros x Hx. apply wk_marks0. by rewrite V3.
Qed.

Lemma walk_all st : J [] st -> same_tree h0 (vertices st) -> (forall x, ~ marked (vertices st) x) ->
  exists st' o, walk_tree visit (size h0) root st = Ok (tt, st', []) /\ J o st' /\ same_tree h0 (vertices st') /\
    forall x, is_Some (h0 !! x) -> x ∈ o.
Proof using HT J_marks J_visit.
  intros HJ Hs Hm. pose proof (rt_root _ _ _ HT) as Hr.
  destruct (walk_ok (size h0) root [] st) as (st' & o & W1 & W2 & W3); [done|by apply (rt_rank _ _ _ HT)|apply not_elem_of_nil|done|done|..].
  - intros x Hx. by destruct (Hm x).
  - by intros x ?%elem_of_nil.
  - exists st', o. split; [done|]. split; [apply W2|]. split; [apply W2|].
    assert (forall x, is_Some (h0 !! x) -> x ∈ o /\ forall c, kid x c -> marked (vertices st') c) as Hall; [|intros x Hx; by apply Hall].
    apply tree_ind.
    + split; [apply (wk_more _ _ _ _ _ W2); by left|done].
    + intros p c Hk [_ Hp]. by apply (wk_closed _ _ _ _ _ W2), Hp.
Qed.
End walk.

(** ** Clearing the marks *)

Inductive below_or_at (v : nat) : nat -> Prop :=
| at_v : below_or_at v v
| below_v c x : kid v c -> below_or_at c x -> below_or_at v x.

Lemma below_kid v p c : below_or_at v p -> kid p c -> below_or_at v c.
Proof. induction 1 as [|v' c' x Hk Hx IH]; intros Hc; [eapply below_v; [exact Hc|constructor]|]. eapply below_v; [exact Hk|auto]. Qed.

Lemma clear_ok depth v st : is_Some (h0 !! v) -> (rank v < depth)%nat -> same_tree h0 (vertices st) ->
  exists h, ClearVertexProcessed depth v st = Ok (tt, set_vertices h st, []) /\ same_tree h0 h /\
    (forall x, marked h x -> marked (vertices st) x) /\ forall x, below_or_at v x -> ~ marked h x.
Proof using HT.
  revert v st. induction depth as [|depth IH]; intros v st Hv Hd Hs; [lia|]. destruct Hv as [v0 Hv0].
  destruct (same_tree_lookup _ _ _ _ Hs Hv0) as (v1 & Hv1 & (U1 & U2 & _)%unmark_fields).
  cbn [ClearVertexProcessed]. rewrite (run_bind _ _ _ _ _ (vertex_ok _ _ _ Hv1)), U2.
  destruct (run_loop (fun pre s => exists h, s = set_vertices h st /\ same_tree h0 h /\
      (forall x, marked h x -> marked (vertices st) x) /\ forall c x, c ∈ pre -> below_or_at c x -> ~ marked h x)
    (ClearVertexProcessed depth) (m_children v0) st) as (st' & L1 & h & -> & L2 & L3 & L4).
  - intros pre c post s Hl (h & -> & H1 & H2 & H3).
    assert (kid v c) as Hk by (exists v0; rewrite Hl, elem_of_app; split; [done|right; by left]).
    destruct (kid_facts v c Hk) as [Hc Hrank].
    destruct (IH c (set_vertices h st)) as (h' & R1 & R2 & R3 & R4); [done|lia|done|]. exists (set_vertices h' st).
    split; [done|]. exists h'. split; [done|]. split; [done|]. split; [auto|].
    intros d x [Hd'| ->%list_elem_of_singleton]%elem_of_app Hx; [|by apply R4].
    intros Hm. by eapply H3; [exact Hd'|exact Hx|apply R3].
  - exists (vertices st). split; [by destruct st|]. split; [done|]. split; [done|]. by intros c x ?%elem_of_nil.
  - rewrite (run_bind _ _ _ _ _ L1). destruct (same_tree_lookup _ _ _ _ L2 Hv0) as (v2 & Hv2 & _).
    exists (<[v := SetVertexProcessed false v2]> h). split; [exact (update_vertex_ok v _ (set_vertices h st) v2 Hv2)|].
    split; [by apply same_tree_set|]. split.
    + intros x Hx. apply marked_set in Hx as [[_ ?]|[_ Hx]]; [done|auto|done].
    + intros x Hx Hm. apply marked_set in Hm as [[_ ?]|[Hn Hm]]; [done| |done].
      inversion Hx as [|c y (v3 & Hv3 & Hc) Hy]; subst; [done|]. eapply L4; [|exact Hy|exact Hm]. congruence.
Qed.

Lemma clear_all st : same_tree h0 (vertices st) ->
  exists h, ClearVertexProcessed (size h0) root st = Ok (tt, set_vertices h st, []) /\ same_tree h0 h /\ forall x, ~ marked h x.
Proof using HT.
  intros Hs. pose proof (rt_root _ _ _ HT) as Hr.
  destruct (clear_ok (size h0) root st) as (h & C1 & C2 & C3 & C4); [done|by apply (rt_rank _ _ _ HT)|done|].
  exists h. split; [done|]. split; [done|]. intros x Hm.
  assert (is_Some (h0 !! x)) as Hx.
  { destruct Hm as (v & Hv & _). destruct (same_tree_lookup _ _ _ _ (same_tree_sym _ _ C2) Hv) as (w & Hw & _). by exists w. }
  eapply C4; [|exact Hm]. clear Hm. revert x Hx. apply tree_ind; [constructor|]. intros p c Hk Hp. by eapply below_kid.
Qed.

(** ** Taking the tree down

    [X]: the vertices whose destructors are running. *)

Record dying (X : list nat) (h : gmap nat SPFVertex) : Prop := {
  dy_sub p v : h !! p = Some v -> exists v0, h0 !! p = Some v0 /\ m_parents v = m_parents v0;
  dy_kid p v c : h !! p = Some v -> c ∈ m_children v -> c ∉ X /\ exists w, h !! c = Some w /\ p ∈ m_parents w;
  dy_parent c w p : h !! c = Some w -> p ∈ m_parents w -> exists v, h !! p = Some v /\ (c ∈ X \/ c ∈ m_children v)
}.

Lemma dying_rank X h p v c : dying X h -> h !! p = Some v -> c ∈ m_children v -> (rank c < rank p)%nat.
Proof using HT.
  intros H Hv Hc. destruct (dy_kid _ _ H p v c Hv Hc) as (_ & w & Hw & Hp). destruct (dy_sub _ _ H c w Hw) as (w0 & Hw0 & E).
  rewrite E in Hp. by eapply (rt_parent _ _ _ HT).
Qed.

(** [v] is off the lists of the parents in [pre]. *)
Definition stripped (v : nat) (pre : list nat) (h h' : gmap nat SPFVertex) : Prop :=
  forall p, h' !! p = (if decide (p ∈ pre) then remove_child v else id) <$> h !! p.

Lemma remove_child_twice v y : remove_child v (remove_child v y) = remove_child v y.
Proof using. destruct y. unfold remove_child, set_children. cbn. by rewrite list_filter_filter_l. Qed.

Lemma strip_ok st v parents : (forall q, q ∈ parents -> is_Some (vertices st !! q)) ->
  exists h, for_loop parents (fun parent => update_vertex parent (remove_child v)) st = Ok (tt, set_vertices h st, []) /\
    stripped v parents (vertices st) h.
Proof using.
  intros Hp. destruct (run_loop (fun pre s => exists h, s = set_vertices h st /\ stripped v pre (vertices st) h)
    (fun parent => update_vertex parent (remove_child v)) parents st) as (s & L1 & h & -> & L2); [| |by exists h].
  - intros pre q post s Hl (h & -> & Hs). destruct (Hp q) as [y Hy]; [rewrite Hl, elem_of_app; right; by left|].
    pose proof (Hs q) as Hq. rewrite Hy in Hq. cbn in Hq. eexists. split; [exact (update_vertex_ok q _ (set_vertices h st) _ Hq)|].
    eexists. split; [done|]. intros x. destruct (decide (x = q)) as [->|Hn].
    + rewrite lookup_insert_eq, Hy. destruct (decide (q ∈ pre ++ [q])) as [_|Hn]; [|destruct Hn; apply elem_of_app; right; by left].
      cbn. f_equal. case_decide; [apply remove_child_twice|done].
    + rewrite lookup_insert_ne, Hs by done. f_equal. assert (x ∈ pre ++ [q] <-> x ∈ pre) as E by (rewrite elem_of_app, list_elem_of_singleton; naive_solver).
      by repeat case_decide; naive_solver.
  - exists (vertices st). split; [by destruct st|]. intros x. rewrite decide_False by apply not_elem_of_nil. by destruct (_ !! x).
Qed.

Lemma stripped_dying X v vv h h' : dying X h -> h !! v = Some vv -> stripped v (m_parents vv) h h' -> dying (v :: X) h'.
Proof using.
  intros H Hv Hs.
  assert (forall p y', h' !! p = Some y' -> exists y, h !! p = Some y /\ m_parents y' = m_parents y /\
    forall c, c ∈ m_children y' <-> c ∈ m_children y /\ c <> v) as Hold.
  { intros p y' Hy'. rewrite Hs in Hy'. destruct (h !! p) as [y|] eqn:Hy; [|by case_decide]. injection Hy' as <-. exists y. split; [done|].
    case_decide as Hp; (split; [done|]); intros c.
    - unfold remove_child. cbn. rewrite list_elem_of_filter. naive_solver.
    - split; [|by intros [? _]]. intros Hc. split; [done|]. intros ->.
      destruct (dy_kid _ _ H p y v Hy Hc) as (_ & w & Hw & Hpw). congruence. }
  assert (forall p, is_Some (h !! p) -> is_Some (h' !! p)) as Hdom by (intros p Hp; rewrite Hs; by apply fmap_is_Some).
  split.
  - intros p y' Hy'. destruct (Hold p y' Hy') as (y & Hy & -> & _). by apply (dy_sub _ _ H).
  - intros p y' c Hy' Hc. destruct (Hold p y' Hy') as (y & Hy & _ & E). destruct (proj1 (E c) Hc) as [Hc' Hn].
    destruct (dy_kid _ _ H p y c Hy Hc') as (HX & w & Hw & Hpw). split; [by apply not_elem_of_cons|].
    destruct (Hdom c) as [w' Hw']; [by exists w|]. exists w'. split; [done|]. destruct (Hold c w' Hw') as (w2 & Hw2 & -> & _). congruence.
  - intros c w' p Hw' Hp. destruct (Hold c w' Hw') as (w & Hw & E & _). rewrite E in Hp.
    destruct (dy_parent _ _ H c w p Hw Hp) as (y & Hy & Hc). destruct (Hdom p) as [y' Hy']; [by exists y|]. exists y'. split; [done|].
    destruct (Hold p y' Hy') as (y2 & Hy2 & _ & F). assert (y2 = y) as -> by congruence. rewrite elem_of_cons, F.
    destruct (decide (c = v)); naive_solver.
Qed.

(** What the destructor of [v] leaves. *)
Record gone (X : list nat) (v : nat) (h h' : gmap nat SPFVertex) : Prop := {
  gn_dying : dying X h';
  gn_sub p y' : h' !! p = Some y' -> exists y, h !! p = Some y /\ m_children y' `sublist_of` m_children y;
  gn_above p : (rank v <= rank p)%nat -> p <> v -> is_Some (h !! p) -> is_Some (h' !! p);
  gn_self : h' !! v = None
}.

Lemma delete_children_ok del X v : v ∈ X -> (forall x, x ∈ X -> (rank v <= rank x)%nat) ->
  (forall c y st, dying X (vertices st) -> vertices st !! c = Some y -> c ∉ X -> (rank c < rank v)%nat ->
     exists h, del c st = Ok (tt, set_vertices h st, []) /\ gone X c (vertices st) h) ->
  forall rounds y st, dying X (vertices st) -> vertices st !! v = Some y -> (length (m_children y) <= rounds)%nat ->
  exists h y', delete_children del rounds v st = Ok (tt, set_vertices h st, []) /\ dying X h /\ h !! v = Some y' /\
    m_children y' = [] /\
    (forall p w', h !! p = Some w' -> exists w, vertices st !! p = Some w /\ m_children w' `sublist_of` m_children w) /\
    forall p, (rank v <= rank p)%nat -> is_Some (vertices st !! p) -> is_Some (h !! p).
Proof using HT.
  intros HvX HX Hdel. induction rounds as [|rounds IH]; intros y st H Hv Hlen; cbn [delete_children];
    rewrite (run_bind _ _ _ _ _ (vertex_ok _ _ _ Hv)); destruct (m_children y) as [|c l] eqn:Ec; cbn [length] in Hlen; try lia.
  1, 2: exists (vertices st), y; split; [by destruct st|]; split_and!; try done; intros p w Hw; by exists w.
  destruct (dy_kid _ _ H v y c Hv) as (HcX & w & Hw & _); [rewrite Ec; by left|].
  assert (rank c < rank v)%nat as Hrank by (eapply dying_rank; [exact H|exact Hv|rewrite Ec; by left]).
  destruct (Hdel c w st H Hw HcX Hrank) as (h1 & D1 & D2). rewrite (run_bind _ _ _ _ _ D1).
  destruct (gn_above _ _ _ _ D2 v) as [y1 Hy1]; [lia|intros ->; lia|by exists y|].
  destruct (gn_sub _ _ _ _ D2 v y1 Hy1) as (y2 & Hy2 & Hsub). assert (y2 = y) as -> by congruence. rewrite Ec in Hsub.
  assert (length (m_children y1) <= rounds)%nat as Hlen1.
  { apply sublist_cons_r in Hsub as [Hsub|(l' & E & _)]; [apply sublist_length in Hsub; lia|].
    destruct (dy_kid _ _ (gn_dying _ _ _ _ D2) v y1 c Hy1) as (_ & w' & Hw' & _); [rewrite E; by left|].
    rewrite (gn_self _ _ _ _ D2) in Hw'. done. }
  destruct (IH y1 (set_vertices h1 st) (gn_dying _ _ _ _ D2) Hy1 Hlen1) as (h & y' & R1 & R2 & R3 & R4 & R5 & R6).
  exists h, y'. split; [done|]. split_and!; try done.
  - intros p w' Hw'. destruct (R5 p w' Hw') as (w1 & Hw1 & S1). destruct (gn_sub _ _ _ _ D2 p w1 Hw1) as (w0 & Hw0 & S2).
    exists w0. split; [done|]. by etrans.
  - intros p Hp Hps. apply R6; [done|]. apply (gn_above _ _ _ _ D2); [lia|intros ->; lia|done].
Qed.

Lemma delete_ok depth X v y st : dying X (vertices st) -> vertices st !! v = Some y -> v ∉ X -> (rank v < depth)%nat ->
  (forall x, x ∈ X -> (rank v < rank x)%nat) ->
  exists h, delete_vertex depth v st = Ok (tt, set_vertices h st, []) /\ gone X v (vertices st) h.
Proof using HT.
  revert X v y st. induction depth as [|depth IH]; intros X v y st H Hv HvX Hd HX; [lia|].
  cbn [delete_vertex]. rewrite (run_bind _ _ _ _ _ (vertex_ok _ _ _ Hv)).
  destruct (strip_ok st v (m_parents y)) as (h1 & S1 & S2).
  { intros q Hq. destruct (dy_parent _ _ H v y q Hv Hq) as (w & Hw & _). by exists w. }
  rewrite (run_bind _ _ _ _ _ S1). pose proof (stripped_dying X v y _ _ H Hv S2) as H1.
  pose proof (S2 v) as Hv1. rewrite Hv in Hv1. cbn in Hv1. set (y1 := (if decide _ then _ else _) y) in Hv1.
  assert (m_children y1 `sublist_of` m_children y) as Hy1.
  { unfold y1. case_decide; [|done]. unfold remove_child. cbn. apply sublist_filter. }
  destruct (delete_children_ok (delete_vertex depth) (v :: X) v) with (rounds := length (m_children y)) (y := y1)
    (st := set_vertices h1 st) as (h2 & y2 & D1 & D2 & D3 & D4 & D5 & D6); try done.
  - by left.
  - intros x [->|Hx]%elem_of_cons; [done|]. by apply Nat.lt_le_incl, HX.
  - intros c w st' Hst' Hw Hc Hrank. eapply IH; [done|done|done|lia|].
    intros x [->|Hx]%elem_of_cons; [done|]. specialize (HX x Hx). lia.
  - by apply sublist_length.
  - rewrite (run_bind _ _ _ _ _ D1). exists (delete v h2). split; [done|]. cbn [set_vertices vertices] in D5, D6.
    assert (forall p, is_Some (vertices st !! p) -> is_Some (h1 !! p)) as Hdom by (intros p Hp; rewrite S2; by apply fmap_is_Some).
    split; [split| | |by apply lookup_delete_eq].
    + intros p w Hw. apply lookup_delete_Some in Hw as [_ Hw]. by apply (dy_sub _ _ D2).
    + intros p w c Hw Hc. apply lookup_delete_Some in Hw as [Hn Hw]. destruct (dy_kid _ _ D2 p w c Hw Hc) as (Hc' & w' & Hw' & Hp).
      apply not_elem_of_cons in Hc' as [Hcv HcX]. split; [done|]. exists w'. by rewrite lookup_delete_ne by congruence.
    + intros c w p Hw Hp. apply lookup_delete_Some in Hw as [Hn Hw]. destruct (dy_parent _ _ D2 c w p Hw Hp) as (w' & Hw' & Hc).
      rewrite elem_of_cons in Hc. destruct (decide (p = v)) as [->|Hpv].
      * exfalso. assert (w' = y2) as -> by congruence. rewrite D4, elem_of_nil in Hc. destruct Hc as [[?|Hc]|?]; [done| |done].
        specialize (HX c Hc). destruct (dy_sub _ _ D2 c w Hw) as (w0 & Hw0 & E). rewrite E in Hp.
        destruct (rt_parent _ _ _ HT c w0 v Hw0 Hp). lia.
      * exists w'. rewrite lookup_delete_ne by congruence. split; [done|]. naive_solver.
    + intros p w' Hw. apply lookup_delete_Some in Hw as [Hn Hw]. destruct (D5 p w' Hw) as (w1 & Hw1 & Hs1). rewrite S2 in Hw1.
      destruct (vertices st !! p) as [w|] eqn:Ew; [|by case_decide]. exists w. split; [done|]. injection Hw1 as <-. etrans; [done|].
      case_decide; [|done]. unfold remove_child. cbn. apply sublist_filter.
    + intros p Hp Hn Hps. rewrite lookup_delete_ne by congruence. apply D6; [done|by apply Hdom].
Qed.

(** The destructor of the root frees every vertex. *)
Lemma delete_all st : same_tree h0 (vertices st) ->
  delete_vertex (size h0) root st = Ok (tt, set_vertices ∅ st, []).
Proof using HT.
  intros Hs. assert (dying [] (vertices st)) as Hd.
  { split.
    - intros p v Hv. destruct (same_tree_lookup _ _ _ _ (same_tree_sym _ _ Hs) Hv) as (v0 & Hv0 & (_ & _ & E & _)%unmark_fields). by exists v0.
    - intros p v c Hv Hc. split; [apply not_elem_of_nil|].
      destruct (same_tree_lookup _ _ _ _ (same_tree_sym _ _ Hs) Hv) as (v0 & Hv0 & (_ & E & _ & _)%unmark_fields). rewrite <- E in Hc.
      apply (rt_kid _ _ _ HT p v0 c Hv0) in Hc as (w0 & Hw0 & Hp).
      destruct (same_tree_lookup _ _ _ _ Hs Hw0) as (w & Hw & (_ & _ & Ew & _)%unmark_fields). exists w. by rewrite Ew.
    - intros c w p Hw Hp. destruct (same_tree_lookup _ _ _ _ (same_tree_sym _ _ Hs) Hw) as (w0 & Hw0 & (_ & _ & E & _)%unmark_fields).
      rewrite <- E in Hp. destruct (rt_parent _ _ _ HT c w0 p Hw0 Hp) as [[v0 Hv0] _].
      destruct (same_tree_lookup _ _ _ _ Hs Hv0) as (v & Hv & (_ & Ev & _)%unmark_fields). exists v. split; [done|]. right.
      rewrite Ev. apply (rt_kid _ _ _ HT p v0 c Hv0). by exists w0. }
  destruct (rt_root _ _ _ HT) as [v0 Hv0]. destruct (same_tree_lookup _ _ _ _ Hs Hv0) as (v & Hv & _).
  destruct (delete_ok (size h0) [] root v st) as (h & D1 & D2); [done|done|apply not_elem_of_nil| |by intros x ?%elem_of_nil|].
  { apply (rt_rank _ _ _ HT). by exists v0. }
  rewrite D1. do 4 f_equal. apply map_eq. intros x. rewrite lookup_empty.
  assert (forall n x, (size h0 - rank x < n)%nat -> h !! x = None) as Hall; [|eapply Hall, Nat.lt_succ_diag_r].
  clear x. induction n as [|n IH]; intros x Hx; [lia|]. destruct (h !! x) as [w|] eqn:Hw; [|done]. exfalso.
  pose proof (gn_dying _ _ _ _ D2) as Hdy. destruct (dy_sub _ _ Hdy x w Hw) as (w0 & Hw0 & E).
  destruct (m_parents w) as [|p l] eqn:Ep.
  - pose proof (rt_orphan _ _ _ HT x w0 Hw0 (eq_sym E)) as ->. rewrite (gn_self _ _ _ _ D2) in Hw. done.
  - destruct (dy_parent _ _ Hdy x w p Hw) as (y & Hy & _); [rewrite Ep; by left|].
    destruct (rt_parent _ _ _ HT x w0 p Hw0) as [Hps Hlt]; [rewrite <- E; by left|].
    pose proof (rt_rank _ _ _ HT p Hps). rewrite IH in Hy; [done|lia].
Qed.
End tree.
