(* ===== verification/GlobalSpfSpec.v ===== *)
(** * GlobalSpfSpec: global routing finds all shortest paths

    The steps of GlobalSpf keep the invariant of GlobalPaths, and what it comes
    to when no candidate is left. *)

From stdpp Require Import gmap.
From S2P Require Import Prelude StdMap Ipv4Address Node StaticRouting GlobalRouting GlobalLsdb GlobalSpf GlobalPaths.

Section steps.
Context (L : stdmap Ipv4Address GlobalRoutingLSA) (r : Ipv4Address) (ifc : Ipv4Address -> Z).
Context (HL : p2p_lsdb L r).
Notation inv := (tree_inv L r ifc).
Notation link := (link L).
Notation shortest := (shortest L r).
Notation first_hop := (first_hop L r ifc).
Notation via := (via L r ifc).
Notation good := (good L r ifc).

Lemma SetStatus_fields s lsa lsa0 : SetStatus s lsa = SetStatus s lsa0 ->
  m_lsType lsa = m_lsType lsa0 /\ m_linkStateId lsa = m_linkStateId lsa0 /\ m_linkRecords lsa = m_linkRecords lsa0.
Proof. destruct lsa, lsa0. unfold SetStatus. cbn. by intros [= -> -> _ -> _ _ _]. Qed.

Lemma lsa_found done R D st k lsa0 : inv done R D st -> map_find k L = Some lsa0 ->
  exists lsa, GetLSA k (m_lsdb st) = Some lsa /\ status st k = Some (m_status lsa) /\
    m_lsType lsa = RouterLSA /\ m_linkStateId lsa = k /\ m_linkRecords lsa = m_linkRecords lsa0.
Proof using HL.
  intros H Hk. pose proof (ti_db _ _ _ _ _ _ _ H k) as E. rewrite Hk in E. unfold status.
  destruct (GetLSA k (m_lsdb st)) as [lsa|]; [|done]. apply (inj Some) in E. apply SetStatus_fields in E as (E1 & E2 & E3).
  destruct (pl_router _ _ HL k lsa0 Hk). exists lsa. split_and!; [done|done|congruence..].
Qed.

(** [SPFNexthopCalculation] over a link. *)
Lemma nexthop_ok st v w vv wv l d p0 rv lsa :
  vertices st !! v = Some vv -> m_vertexType vv = Some VertexRouter ->
  vertices st !! w = Some wv -> m_vertexType wv = Some VertexRouter -> v <> w ->
  m_spfroot st = Some p0 -> vertices st !! p0 = Some rv -> m_vertexId rv = r -> (v = p0 <-> m_vertexId vv = r) ->
  link (m_vertexId vv) l (m_vertexId wv) ->
  GetLSA (m_lsa wv) (m_lsdb st) = Some lsa -> back L r (m_vertexId wv) = next_link r true false (m_linkRecords lsa) ->
  (forall a, find_outgoing r a Mask_GetOnes (NodeList st) = Ok (ifc a)) ->
  exists wv', SPFNexthopCalculation v w (Some l) d st = Ok (tt, set_vertices (<[w := wv']> (vertices st)) st, []) /\
    m_vertexType wv' = Some VertexRouter /\ m_vertexId wv' = m_vertexId wv /\ m_lsa wv' = m_lsa wv /\
    m_distanceFromRoot wv' = d /\ m_parents wv' = [v] /\
    (m_children wv' = m_children wv /\ m_vertexProcessed wv' = m_vertexProcessed wv) /\
    (forall e, e ∈ m_ecmpRootExits wv' <->
       (m_vertexId vv = r /\ exists lr, back L r (m_vertexId wv) = Some lr /\ e = (m_linkData lr, ifc (m_linkData l))) \/
       (m_vertexId vv <> r /\ e ∈ m_ecmpRootExits vv)).
Proof using HL.
  intros Hv Hvt Hw Hwt Hvw Hp0 Hrv Hrid Hroot Hl Hlsa Hback Hifc. unfold SPFNexthopCalculation.
  rewrite (run_bind (is_root (Some v)) _ st (bool_decide (Some v = m_spfroot st)) st) by done.
  rewrite Hp0. destruct (decide (v = p0)) as [E|E].
  - rewrite bool_decide_eq_true_2 by congruence. rewrite (run_bind _ _ _ _ _ (vertex_type_ok _ _ _ _ Hw Hwt)).
    assert (m_vertexId vv = r) as Hu by by apply Hroot.
    rewrite decide_True by done. rewrite (run_lift _ _ _ l) by done.
    unfold SPFGetNextLink.
    destruct (pl_back _ _ HL l (m_vertexId wv)) as [lr Hlr]; [by rewrite <- Hu|].
    rewrite (run_bind _ _ _ (Some lr) st).
    2: { rewrite (run_bind _ _ _ _ _ (lsa_of_ok _ _ _ _ Hw Hlsa)), (run_bind _ _ _ _ _ (vertex_ok _ _ _ Hv)).
         unfold mret, handler_ret. by rewrite Hu, <- Hback, Hlr. }
    rewrite (run_lift _ _ _ lr) by done.
    rewrite (run_bind _ _ _ (ifc (m_linkData l)) st).
    2: { unfold FindOutgoingInterfaceId. rewrite run_get, (run_lift _ _ _ p0) by by rewrite Hp0.
         rewrite (run_bind _ _ _ _ _ (vertex_ok _ _ _ Hrv)). unfold lift. by rewrite Hrid, Hifc. }
    do 4 (erewrite (run_bind (update_vertex w _)) by (apply update_vertex_ok; cbn; rewrite ?lookup_insert_eq; done);
      cbn [vertices set_vertices]).
    erewrite update_vertex_ok by (cbn; by rewrite lookup_insert_eq). cbn. rewrite !insert_insert_eq.
    eexists. split; [done|]. cbn. split_and!; try done. intros e. rewrite list_elem_of_singleton. rewrite Hlr. split.
    + intros ->. left. split; [done|]. by exists lr.
    + intros [(_ & lr' & [= <-] & ->)|[Hn _]]; [done|by rewrite Hu in Hn].
  - rewrite bool_decide_eq_false_2 by congruence. rewrite (run_bind _ _ _ _ _ (vertex_type_ok _ _ _ _ Hv Hvt)).
    rewrite decide_False by done. rewrite (run_bind _ _ _ _ _ (vertex_ok _ _ _ Hv)).
    do 2 (erewrite (run_bind (update_vertex w _)) by (apply update_vertex_ok; cbn; rewrite ?lookup_insert_eq; done);
      cbn [vertices set_vertices]).
    erewrite update_vertex_ok by (cbn; by rewrite lookup_insert_eq). cbn. rewrite !insert_insert_eq.
    assert (m_vertexId vv <> r) as Hu by by intros ?%Hroot.
    eexists. split; [done|]. cbn. split_and!; try done. intros e. split; [by right|]. by intros [[? _]|[_ He]].
Qed.

(** ** What a record of the router [u], at distance [D], changes *)

Lemma status_set st k s k' vs n root q l :
  status (mkSpf (set_lsa_status k s (m_lsdb st)) vs n root q l) k' =
  if decide (k = k') then (fun _ => s) <$> status st k else status st k'.
Proof.
  unfold status, GetLSA. cbn. rewrite map_find_update. case_decide as E; [|done]. by destruct (map_find k _).
Qed.

Lemma db_set st k s k' :
  SetStatus LSA_SPF_NOT_EXPLORED <$> GetLSA k' (set_lsa_status k s (m_lsdb st)) =
  SetStatus LSA_SPF_NOT_EXPLORED <$> GetLSA k' (m_lsdb st).
Proof. unfold GetLSA. cbn. rewrite map_find_update. case_decide as E; [subst|done]. by destruct (map_find k' _). Qed.

Section record.
Context (done : list Ipv4Address) (R : Ipv4Address -> GlobalRoutingLinkRecord -> Prop) (D : Z) (st : Spf).
Context (u w : Ipv4Address) (l : GlobalRoutingLinkRecord).
Context (H : inv done R D st) (Hu : u ∈ done) (Hsu : shortest u D) (Hl : link u l w).

(** Nothing to do. *)
Lemma inv_keep s : status st w = Some s -> s <> LSA_SPF_NOT_EXPLORED ->
  (forall p v, vertices st !! p = Some v -> p ∈ candidate st -> m_vertexId v = w ->
     m_distanceFromRoot v < D + m_metric l) ->
  inv done (plus R u l) D st.
Proof using H HL Hl Hsu Hu.
  intros Hs Hne Hw. destruct H. split; try done.
  - intros p v Hv Hp. destruct (ti_cand p v Hv Hp). split; [|done].
    destruct (decide (m_vertexId v = w)) as [E|E].
    + eapply (good_worse L r ifc R u w l D); [done..|by eapply Hw|done].
    + by eapply (good_other L r ifc R u w l D).
  - intros a b [Hab|[-> ->]]; [by apply ti_R|]. split; [apply Hl|done].
  - intros a b x [Hab|[-> ->]] Hx; [by eapply ti_closed|]. destruct Hx as (_ & _ & <-), Hl as (_ & _ & Hlw).
    rewrite Hlw. by exists s.
Qed.

(** The candidate [cw] gets the offer. *)
Lemma inv_update cw cv cv' q : vertices st !! cw = Some cv -> cw ∈ candidate st -> m_vertexId cv = w ->
  m_vertexType cv' = Some VertexRouter -> m_vertexId cv' = w -> m_lsa cv' = w ->
  (forall p, p ∈ m_parents cv' -> exists y, vertices st !! p = Some y /\ p ∉ candidate st /\
     m_distanceFromRoot y < m_distanceFromRoot cv') -> m_parents cv' <> [] ->
  good (plus R u l) cv' -> D <= m_distanceFromRoot cv' ->
  q ≡ₚ candidate st -> qsorted (<[cw := cv']> (vertices st)) q ->
  inv done (plus R u l) D (set_candidate q (set_vertices (<[cw := cv']> (vertices st)) st)).
Proof using H HL Hl Hsu Hu.
  intros Hcw Hc Hid Ht' Hid' Hlsa' Hpar Hne Hgood HD Hq Hsort. destruct H.
  assert (forall p, p ∈ q <-> p ∈ candidate st) as Hin by (intros; by rewrite Hq).
  assert (status st w = Some LSA_SPF_CANDIDATE) as Hsw.
  { destruct (ti_vertex cw cv Hcw) as (_ & _ & E & _). by rewrite Hid, decide_True in E. }
  assert (forall p y d, vertices st !! p = Some y /\ p ∉ candidate st /\ m_distanceFromRoot y < d ->
    exists w, <[cw := cv']> (vertices st) !! p = Some w /\ p ∉ q /\ m_distanceFromRoot w < d) as Hsome.
  { intros p y d (Hp1 & Hp2 & Hp3). exists y. rewrite lookup_insert_ne by (intros ->; done). by rewrite Hin. }
  assert (forall p v, <[cw := cv']> (vertices st) !! p = Some v -> exists v0, vertices st !! p = Some v0 /\ m_vertexId v0 = m_vertexId v) as Hold.
  { intros p v [[<- <-]|[Hn Hv]]%lookup_insert_Some; [exists cv; by rewrite Hid, Hid'|by exists v]. }
  split; try done; cbn.
  - destruct ti_root as (p & v & H1 & H2 & H3). destruct (decide (p = cw)) as [->|Hn].
    + exists cw, cv'. rewrite lookup_insert_eq. split_and!; [done..|congruence].
    + exists p, v. by rewrite lookup_insert_ne by congruence.
  - intros p v Hv. destruct (Hold _ _ Hv) as (v0 & Hv0 & _). by eapply ti_next.
  - intros p v [[<- <-]|[Hn Hv]]%lookup_insert_Some.
    + rewrite decide_True by by rewrite Hin. split_and!; [done|congruence|by rewrite Hid'| |done].
      intros x Hx. destruct (Hpar x Hx) as [y Hy]. by eapply Hsome.
    + destruct (ti_vertex p v Hv) as (H1 & H2 & H3 & H4 & H5). split_and!; [done|done| |intros x Hx; destruct (H4 x Hx) as [y Hy]; by eapply Hsome|done].
      change (status st (m_vertexId v) = Some (if decide (p ∈ q) then LSA_SPF_CANDIDATE else LSA_SPF_IN_SPFTREE)). rewrite H3.
      f_equal. by repeat case_decide; naive_solver.
  - intros p p' v v' Hv Hv' E. destruct (Hold _ _ Hv) as (v0 & Hv0 & E0), (Hold _ _ Hv') as (v0' & Hv0' & E0').
    by eapply (ti_unique p p' v0 v0'); [..|congruence].
  - intros k s Hs Hn. destruct (ti_has k s Hs Hn) as (p & v & Hv & E). destruct (decide (p = cw)) as [->|Hn'].
    + exists cw, cv'. rewrite lookup_insert_eq. split; [done|congruence].
    + exists p, v. by rewrite lookup_insert_ne by congruence.
  - split; [|done]. rewrite Hq. apply ti_queue.
  - intros p Hp%Hin. rewrite lookup_insert_is_Some'. right. auto.
  - intros p v [[<- <-]|[Hn Hv]]%lookup_insert_Some Hp; [exfalso; by apply Hp, Hin|].
    apply (ti_tree p); [done|]. by intros Hp2%Hin.
  - intros p v [[<- <-]|[Hn Hv]]%lookup_insert_Some Hp; [done|]. apply Hin in Hp. destruct (ti_cand p v Hv Hp).
    split; [|done]. eapply (good_other L r ifc R u w l D); [done..| |done].
    intros E. apply Hn. by eapply (ti_unique cw p cv v); [..|congruence].
  - intros a b [Hab|[-> ->]]; [by apply ti_R|]. split; [apply Hl|done].
  - intros a b x [Hab|[-> ->]] Hx; [by eapply ti_closed|]. destruct Hx as (_ & _ & <-), Hl as (_ & _ & Hlw).
    rewrite Hlw. by exists LSA_SPF_CANDIDATE.
Qed.

(** A new candidate [p]. *)
Lemma inv_new wv q : status st w = Some LSA_SPF_NOT_EXPLORED -> let p := next_vertex st in
  m_vertexType wv = Some VertexRouter -> m_vertexId wv = w -> m_lsa wv = w ->
  (forall x, x ∈ m_parents wv -> exists y, vertices st !! x = Some y /\ x ∉ candidate st /\
     m_distanceFromRoot y < m_distanceFromRoot wv) -> m_parents wv <> [] ->
  good (plus R u l) wv -> D <= m_distanceFromRoot wv ->
  q ≡ₚ p :: candidate st -> qsorted (<[p := wv]> (vertices st)) q ->
  inv done (plus R u l) D (mkSpf (set_lsa_status w LSA_SPF_CANDIDATE (m_lsdb st)) (<[p := wv]> (vertices st)) (S p)
    (m_spfroot st) q (NodeList st)).
Proof using H HL Hl Hsu Hu.
  intros Hsw p Ht' Hid' Hlsa' Hpar Hpne Hgood HD Hq Hsort. destruct H.
  assert (vertices st !! p = None) as Hfresh.
  { destruct (vertices st !! p) as [v|] eqn:E; [|done]. specialize (ti_next _ _ E). unfold p in ti_next. lia. }
  assert (forall x v, vertices st !! x = Some v -> x <> p) as Hne by (intros x v Hv ->; congruence).
  assert (forall x, x ∈ q <-> x = p \/ x ∈ candidate st) as Hin by (intros; by rewrite Hq, elem_of_cons).
  assert (forall x v, vertices st !! x = Some v -> m_vertexId v <> w) as Hnw.
  { intros x v Hv E. destruct (ti_vertex x v Hv) as (_ & _ & E' & _). rewrite E, Hsw in E'. by case_decide. }
  assert (forall x v, vertices st !! x = Some v -> <[p := wv]> (vertices st) !! x = Some v) as Hkeep.
  { intros x v Hv. rewrite lookup_insert_ne; [done|]. by specialize (Hne _ _ Hv). }
  assert (forall k, k <> w -> status (mkSpf (set_lsa_status w LSA_SPF_CANDIDATE (m_lsdb st)) (<[p := wv]> (vertices st)) (S p)
    (m_spfroot st) q (NodeList st)) k = status st k) as Hst.
  { intros k Hk. rewrite status_set. by case_decide. }
  assert (forall x y d, vertices st !! x = Some y /\ x ∉ candidate st /\ m_distanceFromRoot y < d ->
    exists w, <[p := wv]> (vertices st) !! x = Some w /\ x ∉ q /\ m_distanceFromRoot w < d) as Hpars.
  { intros x y d (Hx1 & Hx2 & Hx3). exists y. split; [auto|]. split; [|done]. intros [->|]%Hin; [congruence|done]. }
  split; try done; cbn [m_lsdb vertices next_vertex m_spfroot candidate NodeList].
  - intros k. by rewrite db_set.
  - intros k. rewrite status_set, ti_status. case_decide as E; [subst k; by rewrite Hsw|done].
  - destruct ti_root as (x & v & H1 & H2 & H3). exists x, v. split_and!; auto.
  - intros x v [[<- <-]|[Hn Hv]]%lookup_insert_Some; [lia|]. specialize (ti_next _ _ Hv). lia.
  - intros x v [[<- <-]|[Hn Hv]]%lookup_insert_Some.
    + rewrite decide_True by (apply Hin; by left). rewrite Hid', status_set, decide_True, Hsw by done.
      split_and!; [done|congruence|done| |done]. intros y Hy. destruct (Hpar y Hy) as [z Hz]. by eapply Hpars.
    + destruct (ti_vertex x v Hv) as (H1 & H2 & H3 & H4 & H5). rewrite Hst by by eapply Hnw. rewrite H3. split_and!; [done|done| | |done].
      * f_equal. assert (x <> p) by by eapply Hne. by repeat case_decide; naive_solver.
      * intros y Hy. destruct (H4 y Hy) as [z Hz]. by eapply Hpars.
  - intros x y v v' [[<- <-]|[Hn Hv]]%lookup_insert_Some [[<- <-]|[Hn' Hv']]%lookup_insert_Some E; [done| | |by eapply ti_unique].
    + exfalso. eapply (Hnw y v'); [done|congruence].
    + exfalso. eapply (Hnw x v); [done|congruence].
  - intros k s. destruct (decide (k = w)) as [->|Hk].
    + intros _ _. exists p, wv. by rewrite lookup_insert_eq.
    + rewrite Hst by done. intros Hs Hn. destruct (ti_has k s Hs Hn) as (x & v & Hv & E). exists x, v. auto.
  - split; [|done]. rewrite Hq. constructor; [|apply ti_queue]. intros Hp. destruct (ti_queued p Hp) as [z Hz]. congruence.
  - intros x [->|Hx]%Hin; [by rewrite lookup_insert_eq|]. destruct (ti_queued x Hx) as [z Hz]. exists z. auto.
  - intros x v [[<- <-]|[Hn Hv]]%lookup_insert_Some Hx; [exfalso; apply Hx, Hin; by left|].
    apply (ti_tree x); [done|]. intros Hc. apply Hx, Hin. by right.
  - intros x v [[<- <-]|[Hn Hv]]%lookup_insert_Some Hx; [done|]. apply Hin in Hx as [->|Hx]; [done|].
    destruct (ti_cand x v Hv Hx). split; [|done]. eapply (good_other L r ifc R u w l D); [done..|by eapply Hnw|done].
  - intros a b [Hab|[-> ->]]; [by apply ti_R|]. split; [apply Hl|done].
  - assert (forall x s, status st x = Some s -> s <> LSA_SPF_NOT_EXPLORED -> exists s', status (mkSpf
      (set_lsa_status w LSA_SPF_CANDIDATE (m_lsdb st)) (<[p := wv]> (vertices st)) (S p) (m_spfroot st) q (NodeList st)) x = Some s' /\
      s' <> LSA_SPF_NOT_EXPLORED) as Hup.
    { intros x s Hs Hn. exists s. rewrite Hst; [done|]. intros ->. congruence. }
    intros a b x [Hab|[-> ->]] Hx; [destruct (ti_closed a b x Hab Hx) as (s & ? & ?); by eapply Hup|].
    destruct Hx as (_ & _ & <-), Hl as (_ & _ & Hlw). rewrite Hlw. exists LSA_SPF_CANDIDATE. by rewrite status_set, decide_True, Hsw.
Qed.
End record.

(** ** The queue stays sorted *)

Lemma compare_incomp x y z : is_router y -> compare_candidates x y = false -> compare_candidates y z = false ->
  compare_candidates x z = false.
Proof. intros H. apply CompareSPFVertex_incomp. by left. Qed.

Lemma deref_routers (heap : gmap nat SPFVertex) q :
  (forall p, p ∈ q -> exists v, heap !! p = Some v /\ m_vertexType v = Some VertexRouter) ->
  exists ps, deref_all heap q = Ok ps /\ ps.*1 = q /\ Forall (fun pv => heap !! pv.1 = Some pv.2) ps /\ Forall is_router ps.
Proof.
  intros H. destruct (deref_all_ok heap q) as (ps & H1 & H2 & H3); [intros p Hp; destruct (H p Hp) as (v & ? & _); by exists v|].
  exists ps. split_and!; [done..|]. apply Forall_forall. intros [p v] Hin. unfold is_router. cbn.
  rewrite Forall_forall in H3. specialize (H3 _ Hin). cbn in H3.
  destruct (H p) as (v' & Hv' & Ht); [rewrite <- H2; apply list_elem_of_fmap; by exists (p, v)|]. congruence.
Qed.

Lemma Push_ok st p v : vertices st !! p = Some v -> m_vertexType v = Some VertexRouter ->
  (forall x, x ∈ candidate st -> exists y, vertices st !! x = Some y /\ m_vertexType y = Some VertexRouter) ->
  qsorted (vertices st) (candidate st) ->
  exists q, Push p st = Ok (tt, set_candidate q st, []) /\ q ≡ₚ p :: candidate st /\ qsorted (vertices st) q.
Proof.
  intros Hp Ht Hr Hs. destruct (deref_routers _ _ Hr) as (ps & H1 & H2 & H3 & H4).
  exists (upper_bound_insert compare_candidates (p, v) ps).*1. unfold Push.
  rewrite (run_bind _ _ _ _ _ (vertex_ok _ _ _ Hp)), run_get, (run_lift _ _ _ _ H1). split; [done|].
  assert (Forall (fun pv => vertices st !! pv.1 = Some pv.2) (upper_bound_insert compare_candidates (p, v) ps) /\
    Forall is_router (upper_bound_insert compare_candidates (p, v) ps)) as [F1 F2].
  { by rewrite !upper_bound_insert_Permutation, !Forall_cons. }
  split; [by rewrite upper_bound_insert_Permutation; cbn; rewrite H2|]. apply qsorted_ordered; [done..|].
  apply (upper_bound_insert_ordered _ (fun a b => CompareSPFVertex_asym a.2 b.2) is_router compare_incomp); [done|].
  apply (qsorted_ordered (vertices st)); [done..|by rewrite H2].
Qed.

Lemma Reorder_ok st :
  (forall x, x ∈ candidate st -> exists y, vertices st !! x = Some y /\ m_vertexType y = Some VertexRouter) ->
  exists q, Reorder st = Ok (tt, set_candidate q st, []) /\ q ≡ₚ candidate st /\ qsorted (vertices st) q.
Proof.
  intros Hr. destruct (deref_routers _ _ Hr) as (ps & H1 & H2 & H3 & H4).
  exists (list_sort compare_candidates ps).*1. unfold Reorder. rewrite run_get, (run_lift _ _ _ _ H1). split; [done|].
  split; [by rewrite list_sort_Permutation, H2|]. apply qsorted_ordered; [by rewrite list_sort_Permutation..|].
  by apply (list_sort_ordered _ (fun a b => CompareSPFVertex_asym a.2 b.2) is_router compare_incomp).
Qed.

Lemma qsorted_dist h1 h2 q : (forall p, m_distanceFromRoot <$> h1 !! p = m_distanceFromRoot <$> h2 !! p) ->
  qsorted h1 q -> qsorted h2 q.
Proof.
  intros H Hq i j p p' v w Hij Hi Hj Hv Hw. pose proof (H p) as E. pose proof (H p') as E'. rewrite Hv in E. rewrite Hw in E'.
  destruct (h1 !! p) as [v1|] eqn:E1, (h1 !! p') as [w1|] eqn:E2; try done. injection E as <-. injection E' as <-.
  by apply (Hq i j p p').
Qed.

(** ** The size of the tree *)

Lemma status_find done R D st k s : inv done R D st -> status st k = Some s -> is_Some (map_find k L).
Proof using.
  intros H Hs. pose proof (ti_db _ _ _ _ _ _ _ H k) as E. unfold status in Hs.
  destruct (GetLSA k (m_lsdb st)); [|done]. by destruct (map_find k L).
Qed.

Lemma tree_size done R D st : inv done R D st -> (length done <= length L)%nat.
Proof using.
  intros H. rewrite <- (length_fmap fst L). apply submseteq_length, NoDup_submseteq; [apply H|].
  intros k Hk. apply (map_find_is_Some k L). eapply status_find; [exact H|]. by apply (ti_status _ _ _ _ _ _ _ H).
Qed.

Lemma next_distance done R D st l : inv done R D st -> 1 <= m_metric l <= 65535 -> u32 (D + m_metric l) = D + m_metric l.
Proof using HL.
  intros H Hm. pose proof (tree_size _ _ _ _ H). pose proof (ti_D _ _ _ _ _ _ _ H). pose proof (pl_small _ _ HL).
  apply u32_small. unfold is_u32. nia.
Qed.

(** ** One record *)

(** The router whose records are being examined: [v] is its vertex. *)
Definition current (D : Z) (v : nat) (u : Ipv4Address) (st : Spf) : Prop :=
  exists vv, vertices st !! v = Some vv /\ v ∉ candidate st /\ m_vertexId vv = u /\ m_distanceFromRoot vv = D.

Lemma current_facts done R D st v u : inv done R D st -> current D v u st ->
  u ∈ done /\ shortest u D /\ exists vv, vertices st !! v = Some vv /\ v ∉ candidate st /\ m_vertexId vv = u /\
    m_distanceFromRoot vv = D /\ m_vertexType vv = Some VertexRouter /\ m_lsa vv = u /\
    (forall e, e ∈ m_ecmpRootExits vv <-> first_hop u e) /\
    exists lsa_u, GetLSA u (m_lsdb st) = Some lsa_u /\ m_lsType lsa_u = RouterLSA.
Proof using HL.
  intros H (vv & Hv & Hc & <- & <-). destruct (ti_vertex _ _ _ _ _ _ _ H v vv Hv) as (H1 & H2 & H3 & _).
  rewrite decide_False in H3 by done. destruct (ti_tree _ _ _ _ _ _ _ H v vv Hv Hc) as (H4 & _ & H5).
  split; [by apply (ti_status _ _ _ _ _ _ _ H)|]. split; [done|]. exists vv. split_and!; try done.
  destruct (status_find _ _ _ _ _ _ H H3) as [lsa0 H0]. destruct (lsa_found _ _ _ _ _ _ H H0) as (lsa & E1 & _ & E2 & _).
  by exists lsa.
Qed.

Lemma queue_routers done R D st : inv done R D st ->
  forall x, x ∈ candidate st -> exists y, vertices st !! x = Some y /\ m_vertexType y = Some VertexRouter.
Proof using. intros H x Hx. destruct (ti_queued _ _ _ _ _ _ _ H x Hx) as [y Hy]. exists y. split; [done|]. by apply (ti_vertex _ _ _ _ _ _ _ H x y). Qed.

(** The vertex [w] of the other end gets the distance and the exits of the way
    over this link. *)
Lemma link_nexthop done R D st0 st v u w p wv l :
  inv done R D st0 -> current D v u st0 -> link u l w ->
  m_lsdb st = m_lsdb st0 -> m_spfroot st = m_spfroot st0 -> NodeList st = NodeList st0 ->
  (forall x y, x <> p -> vertices st0 !! x = Some y -> vertices st !! x = Some y) ->
  p <> v -> (forall x, m_spfroot st0 = Some x -> p <> x) -> vertices st !! p = Some wv ->
  m_vertexType wv = Some VertexRouter -> m_vertexId wv = w -> m_lsa wv = w ->
  exists wv', SPFNexthopCalculation v p (Some l) (D + m_metric l) st =
      Ok (tt, set_vertices (<[p := wv']> (vertices st)) st, []) /\
    m_vertexType wv' = Some VertexRouter /\ m_vertexId wv' = w /\ m_lsa wv' = w /\
    m_distanceFromRoot wv' = D + m_metric l /\ m_parents wv' = [v] /\
    (m_children wv' = m_children wv /\ m_vertexProcessed wv' = m_vertexProcessed wv) /\
    (forall e, e ∈ m_ecmpRootExits wv' <-> via u l w e).
Proof using HL.
  intros H Hcur Hl E1 E2 E3 Hkeep Hpv Hproot Hp Ht Hid Hlsa.
  destruct (current_facts _ _ _ _ _ _ H Hcur) as (_ & _ & vv & Hv & Hc & Hvid & _ & Hvt & _ & Hex & _).
  destruct (ti_root _ _ _ _ _ _ _ H) as (p0 & rv & R1 & R2 & R3).
  destruct (pl_link _ _ HL _ _ _ Hl) as [_ [lsa0 Hlsa0]].
  destruct (lsa_found _ _ _ _ _ _ H Hlsa0) as (lsa & F1 & _ & _ & _ & F2).
  destruct (nexthop_ok st v p vv wv l (D + m_metric l) p0 rv lsa) as (wv' & N1 & N2 & N3 & N4 & N5 & N6 & N7 & N8); try done.
  - apply Hkeep; [congruence|done].
  - congruence.
  - apply Hkeep; [|done]. intros ->. by eapply Hproot.
  - split; [intros ->; congruence|]. intros E. eapply (ti_unique _ _ _ _ _ _ _ H); [done..|congruence].
  - by rewrite Hvid, Hid.
  - by rewrite Hlsa, E1.
  - rewrite Hid. unfold back. by rewrite Hlsa0, F2.
  - intros a. rewrite E3. apply H.
  - destruct N7. exists wv'. split_and!; try done; [congruence..|]. intros e. rewrite N8, Hex, Hid, Hvid. done.
Qed.

Lemma inv_fresh done R D st : inv done R D st -> vertices st !! next_vertex st = None.
Proof using. intros H. destruct (vertices st !! next_vertex st) as [v|] eqn:E; [|reflexivity]. pose proof (ti_next _ _ _ _ _ _ _ H _ _ E). lia. Qed.

Lemma new_vertex_ok key st lsa : GetLSA key (m_lsdb st) = Some lsa ->
  new_vertex key st = Ok (next_vertex st, mkSpf (m_lsdb st) (<[next_vertex st := MakeSPFVertex key lsa]> (vertices st))
    (S (next_vertex st)) (m_spfroot st) (candidate st) (NodeList st), []).
Proof using. intros H. unfold new_vertex. rewrite run_get, (run_lift _ _ _ lsa) by by rewrite H. done. Qed.

Lemma discover_ok done R D st v u l w lsa : inv done R D st -> current D v u st -> link u l w ->
  GetLSA w (m_lsdb st) = Some lsa -> m_status lsa = LSA_SPF_NOT_EXPLORED ->
  exists st', discover v (Some l) w (D + m_metric l) st = Ok (tt, st', []) /\ inv done (plus R u l) D st' /\
    current D v u st' /\ quiet st st'.
Proof using HL.
  intros H Hcur Hl Hlsa Hs. pose proof (inv_fresh _ _ _ _ H) as Hfresh.
  destruct (current_facts _ _ _ _ _ _ H Hcur) as (Hu & Hsu & vv & Hv & Hc & Hvid & Hvd & _).
  destruct (pl_link _ _ HL _ _ _ Hl) as [Hm [lsa0 Hlsa0]].
  destruct (lsa_found _ _ _ _ _ _ H Hlsa0) as (lsa' & E & Hst & Ht & Hid & _). rewrite Hlsa in E. injection E as <-.
  unfold discover. rewrite (run_bind _ _ _ _ _ (new_vertex_ok _ _ _ Hlsa)). set (p := next_vertex st) in *.
  set (st1 := mkSpf _ _ _ _ _ _).
  assert (forall x y, vertices st !! x = Some y -> x <> p) as Hne by (intros x y Hx ->; congruence).
  destruct (link_nexthop done R D st st1 v u w p (MakeSPFVertex w lsa) l) as (wv & N1 & N2 & N3 & N4 & N5 & N6 & [N7 N9] & N8); try done.
  - intros x y Hx Hy. unfold st1. cbn. by rewrite lookup_insert_ne by congruence.
  - intros E. by destruct (Hne v vv).
  - intros x Hx E. subst x. destruct (ti_root _ _ _ _ _ _ _ H) as (p0 & rv & R1 & R2 & _).
    assert (p = p0) as -> by congruence. by destruct (Hne p0 rv).
  - unfold st1. cbn. by rewrite lookup_insert_eq.
  - unfold MakeSPFVertex. cbn. by rewrite Ht.
  - rewrite (run_bind _ _ _ _ _ N1). unfold set_status. rewrite run_modify.
    match goal with |- context [Push p ?s] => set (st2 := s) end.
    assert (vertices st2 = <[p := wv]> (vertices st)) as Hvs by (unfold st2, st1; cbn; by rewrite insert_insert_eq).
    destruct (Push_ok st2 p wv) as (q & P1 & P2 & P3).
    + by rewrite Hvs, lookup_insert_eq.
    + done.
    + intros x Hx. destruct (queue_routers _ _ _ _ H x Hx) as (y & Hy & Hty). exists y.
      rewrite Hvs, lookup_insert_ne by (symmetry; by eapply Hne). done.
    + rewrite Hvs. intros i j a b y z Hij Hi Hj Ha Hb. destruct (ti_queue _ _ _ _ _ _ _ H) as [_ Hsort].
      rewrite lookup_insert_ne in Ha, Hb.
      * by apply (Hsort i j a b).
      * intros <-. apply list_elem_of_lookup_2, (ti_queued _ _ _ _ _ _ _ H) in Hj as [? ?]. congruence.
      * intros <-. apply list_elem_of_lookup_2, (ti_queued _ _ _ _ _ _ _ H) in Hi as [? ?]. congruence.
    + rewrite P1. eexists. split; [done|]. split; [|split; [|split; [done|]]].
      * rewrite Hvs in P3. assert (set_candidate q st2 = mkSpf (set_lsa_status w LSA_SPF_CANDIDATE (m_lsdb st))
          (<[p := wv]> (vertices st)) (S p) (m_spfroot st) q (NodeList st)) as ->.
        { unfold st2, st1, set_candidate. cbn. by rewrite insert_insert_eq. }
        apply (inv_new done R D st u w l H Hu Hsu Hl wv q); [by rewrite Hst, Hs|done..| | | |lia|done|done].
        -- intros x. rewrite N6, list_elem_of_singleton. intros ->. exists vv. split_and!; [done|done|lia].
        -- by rewrite N6.
        -- eapply (good_better L r ifc R u w l D); [done|done| |done..]. intros c (u' & l' & b & Ho1 & Ho2 & _).
           destruct (ti_closed _ _ _ _ _ _ _ H _ _ _ Ho1 Ho2) as (s & E & En). rewrite Hst, Hs in E. congruence.
      * exists vv. cbn. rewrite insert_insert_eq. rewrite lookup_insert_ne by (symmetry; by eapply Hne).
        split; [done|]. split; [|done]. rewrite P2. intros [->|?]%elem_of_cons; [by destruct (Hne p vv)|done].
      * intros Hf. change (family (vertices st2) q). rewrite Hvs. apply (family_new _ (candidate st)); try done.
        intros x y Hx Hpar. destruct (ti_vertex _ _ _ _ _ _ _ H x y Hx) as (_ & _ & _ & V4 & _).
        destruct (V4 _ Hpar) as (z & Hz & _). congruence.
Qed.

Context (below : nat -> nat -> bool).

Definition merged (cv wv : SPFVertex) : SPFVertex := MergeParent below (MergeRootExitDirections cv wv) wv.

Lemma merged_exits cv wv e : e ∈ m_ecmpRootExits (merged cv wv) <-> e ∈ m_ecmpRootExits cv \/ e ∈ m_ecmpRootExits wv.
Proof using.
  change (m_ecmpRootExits (merged cv wv)) with (list_unique (list_sort exit_less (m_ecmpRootExits cv ++ m_ecmpRootExits wv))).
  by rewrite elem_list_unique, list_sort_Permutation, elem_of_app.
Qed.

Lemma merged_parents cv wv q : q ∈ m_parents (merged cv wv) <-> q ∈ m_parents cv \/ q ∈ m_parents wv.
Proof using.
  change (m_parents (merged cv wv)) with (list_unique (list_sort below (m_parents cv ++ m_parents wv))).
  by rewrite elem_list_unique, list_sort_Permutation, elem_of_app.
Qed.

(** The end of [merge_path]: the children of the parent are as before. *)
Lemma drop_temporary st p v vv wv : p <> v -> vertices st !! p = Some wv -> vertices st !! v = Some vv ->
  m_parents wv = [v] -> m_children wv = [] ->
  (_ ← SPFVertexAddParent p; delete_vertex 1 p) st =
  Ok (tt, set_vertices (delete p (<[v := remove_child p (AddChild p vv)]> (vertices st))) st, []).
Proof using.
  intros Hpv Hp Hv Hpar Hch. unfold SPFVertexAddParent.
  erewrite run_bind by (rewrite (run_bind _ _ _ _ _ (vertex_ok _ _ _ Hp)), Hpar; cbn [for_loop];
    by rewrite (run_bind _ _ _ _ _ (update_vertex_ok _ _ _ _ Hv))).
  cbn [delete_vertex]. erewrite run_bind by (apply vertex_ok; cbn; by rewrite lookup_insert_ne by congruence).
  rewrite Hpar. cbn [for_loop].
  erewrite run_bind by (erewrite run_bind by (apply update_vertex_ok; cbn; by rewrite lookup_insert_eq); done).
  rewrite Hch. cbn [length delete_children].
  erewrite run_bind by (erewrite run_bind by (apply vertex_ok; cbn; by rewrite !lookup_insert_ne by congruence);
    rewrite Hch; done).
  unfold modify. cbn. by rewrite insert_insert_eq.
Qed.

Lemma remove_added p v : p ∉ m_children v -> remove_child p (AddChild p v) = v.
Proof using.
  intros Hp. destruct v. unfold remove_child, AddChild, set_children. cbn in *. f_equal.
  rewrite filter_app, filter_cons, decide_False by (intros Hn; by apply Hn). rewrite app_nil_r.
  induction m_children as [|c l IH]; [done|]. apply not_elem_of_cons in Hp as [Hc Hp]. rewrite filter_cons, decide_True by congruence.
  by rewrite (IH Hp).
Qed.

(** The vertices then: the temporary one, at the fresh place [p], is gone. *)
Lemma dropped_lookup (h0 h : gmap nat SPFVertex) p v cw m vv' x : h0 !! p = None -> (forall y, y <> p -> h !! y = h0 !! y) ->
  p <> v -> p <> cw ->
  delete p (<[v := vv']> (<[cw := m]> h)) !! x = if decide (x = v) then Some vv' else <[cw := m]> h0 !! x.
Proof using.
  intros Hp Hh Hpv Hpc. destruct (decide (x = v)) as [->|Hv].
  - by rewrite lookup_delete_ne, lookup_insert_eq by congruence.
  - destruct (decide (x = p)) as [->|Hx].
    + by rewrite lookup_delete_eq, lookup_insert_ne by congruence.
    + rewrite lookup_delete_ne, (lookup_insert_ne _ v) by congruence. destruct (decide (x = cw)) as [->|Hc].
      * by rewrite !lookup_insert_eq.
      * by rewrite !lookup_insert_ne, Hh by congruence.
Qed.

(** A candidate that a second path of the same length reaches keeps the
    invariant with the exits of both. *)
Lemma merged_inv done R D st v u l w cw cv wv : inv done R D st -> current D v u st -> link u l w ->
  vertices st !! cw = Some cv -> cw ∈ candidate st -> m_vertexId cv = w -> m_distanceFromRoot cv = D + m_metric l ->
  m_parents wv = [v] -> (forall e, e ∈ m_ecmpRootExits wv <-> via u l w e) ->
  inv done (plus R u l) D (set_candidate (candidate st) (set_vertices (<[cw := merged cv wv]> (vertices st)) st)).
Proof using HL.
  intros H Hcur Hl Hcw Hc Hcid Hcd N6 N8. destruct (current_facts _ _ _ _ _ _ H Hcur) as (Hu & Hsu & vv & Hv & Hvc & _ & Hvd & _).
  destruct (pl_link _ _ HL _ _ _ Hl) as [Hm _]. destruct (ti_vertex _ _ _ _ _ _ _ H cw cv Hcw) as (V1 & V2 & _ & V4 & _).
  apply (inv_update done R D st u w l H Hu Hsu Hl cw cv); try done.
  - cbn. congruence.
  - intros x [Hx|Hx]%merged_parents; [by apply V4|]. rewrite N6, list_elem_of_singleton in Hx. subst x.
    exists vv. split_and!; [done|done|cbn; lia].
  - intros E. assert (v ∈ m_parents (merged cv wv)) as Hx by (apply merged_parents; rewrite N6; right; by left).
    rewrite E in Hx. by apply elem_of_nil in Hx.
  - eapply (good_equal L r ifc R u w l D); [done|done|exact Hcid|done| |done|done|].
    + by apply (ti_cand _ _ _ _ _ _ _ H cw cv).
    + intros e. by rewrite merged_exits, N8.
  - cbn. lia.
  - eapply qsorted_dist; [|apply (ti_queue _ _ _ _ _ _ _ H)]. intros x. destruct (decide (x = cw)) as [->|Hx].
    + rewrite lookup_insert_eq, Hcw. done.
    + by rewrite lookup_insert_ne by congruence.
Qed.

Lemma merge_path_ok done R D st v u l w lsa cw cv : inv done R D st -> current D v u st -> link u l w ->
  GetLSA w (m_lsdb st) = Some lsa -> vertices st !! cw = Some cv -> cw ∈ candidate st -> m_vertexId cv = w ->
  m_distanceFromRoot cv = D + m_metric l ->
  exists st', merge_path below v (Some l) w (D + m_metric l) cw st = Ok (tt, st', []) /\ inv done (plus R u l) D st' /\
    current D v u st' /\ quiet st st'.
Proof using HL.
  intros H Hcur Hl Hlsa Hcw Hc Hcid Hcd. pose proof (inv_fresh _ _ _ _ H) as Hfresh.
  destruct (current_facts _ _ _ _ _ _ H Hcur) as (Hu & Hsu & vv & Hv & Hvc & Hvid & Hvd & _).
  destruct (pl_link _ _ HL _ _ _ Hl) as [Hm [lsa0 Hlsa0]].
  destruct (lsa_found _ _ _ _ _ _ H Hlsa0) as (lsa' & E & Hst & Ht & Hid & _). rewrite Hlsa in E. injection E as <-.
  unfold merge_path. rewrite (run_bind _ _ _ _ _ (new_vertex_ok _ _ _ Hlsa)). set (p := next_vertex st) in *.
  set (st1 := mkSpf _ _ _ _ _ _).
  assert (forall x y, vertices st !! x = Some y -> x <> p) as Hne by (intros x y Hx ->; congruence).
  assert (p <> v) as Hpv by (intros E; by destruct (Hne v vv)). assert (p <> cw) as Hpc by (intros E; by destruct (Hne cw cv)).
  assert (v <> cw) as Hvc' by (intros ->; done).
  destruct (link_nexthop done R D st st1 v u w p (MakeSPFVertex w lsa) l) as (wv & N1 & N2 & N3 & N4 & N5 & N6 & [N7 _] & N8); try done.
  - intros x y Hx Hy. unfold st1. cbn. by rewrite lookup_insert_ne by congruence.
  - intros x Hx E. subst x. destruct (ti_root _ _ _ _ _ _ _ H) as (p0 & rv & R1 & R2 & _).
    assert (p = p0) as -> by congruence. by destruct (Hne p0 rv).
  - unfold st1. cbn. by rewrite lookup_insert_eq.
  - unfold MakeSPFVertex. cbn. by rewrite Ht.
  - rewrite (run_bind _ _ _ _ _ N1). set (h := <[p := wv]> (vertices st1)).
    assert (forall x, x <> p -> h !! x = vertices st !! x) as Hh by (intros x Hx; unfold h, st1; cbn; by rewrite !lookup_insert_ne by congruence).
    assert (h !! p = Some wv) as Hhp by apply lookup_insert_eq.
    erewrite run_bind by (apply vertex_ok; exact Hhp).
    erewrite run_bind by (apply update_vertex_ok; cbn; rewrite Hh; [exact Hcw|congruence]).
    erewrite run_bind by (apply update_vertex_ok; cbn; by rewrite lookup_insert_eq).
    set (st2 := set_vertices _ _). change (MergeParent below (MergeRootExitDirections cv wv) wv) with (merged cv wv) in st2.
    assert (vertices st2 = <[cw := merged cv wv]> h) as Hvs by (unfold st2; cbn; by rewrite insert_insert_eq).
    rewrite (drop_temporary st2 p v vv wv); try done.
    2: { by rewrite Hvs, lookup_insert_ne by congruence. }
    2: { by rewrite Hvs, lookup_insert_ne, Hh by congruence. }
    eexists. split; [done|]. split; [|split; [|split; [done|]]].
    + apply (tree_inv_core L r ifc done (plus R u l) D
        (set_candidate (candidate st) (set_vertices (<[cw := merged cv wv]> (vertices st)) st))); try done.
      * cbn. fold p. lia.
      * intros x. cbn -[st2]. rewrite Hvs, (dropped_lookup (vertices st) h) by done. case_decide as E; [subst x|done].
        by rewrite lookup_insert_ne, Hv by congruence.
      * by apply (merged_inv done R D st v u l w cw cv wv).
    + eexists. cbn. rewrite lookup_delete_ne, lookup_insert_eq by congruence. split; [done|]. split; [done|]. by cbn.
    + intros Hf. assert (p ∉ m_children vv) as Hpch by (intros (z & Hz & _)%(Hf v vv Hv); congruence).
      match goal with |- family ?h2 _ => replace h2 with (<[cw := merged cv wv]> (vertices st)) end.
      { by apply (family_update _ (candidate st) _ _ cv). }
      cbn -[st2]. rewrite Hvs. apply map_eq. intros x. rewrite (dropped_lookup (vertices st) h) by done.
      case_decide as E; [subst x|done]. by rewrite remove_added, lookup_insert_ne, Hv by congruence.
Qed.

Lemma candidate_status done R D st p v : inv done R D st -> vertices st !! p = Some v ->
  status st (m_vertexId v) = Some (if decide (p ∈ candidate st) then LSA_SPF_CANDIDATE else LSA_SPF_IN_SPFTREE).
Proof using. intros H Hp. apply (ti_vertex _ _ _ _ _ _ _ H p v Hp). Qed.

Lemma better_path_ok done R D st v u l w cw cv : inv done R D st -> current D v u st -> link u l w ->
  vertices st !! cw = Some cv -> cw ∈ candidate st -> m_vertexId cv = w -> D + m_metric l < m_distanceFromRoot cv ->
  exists st', (_ ← SPFNexthopCalculation v cw (Some l) (D + m_metric l); Reorder) st = Ok (tt, st', []) /\
    inv done (plus R u l) D st' /\ current D v u st' /\ quiet st st'.
Proof using HL.
  intros H Hcur Hl Hcw Hc Hcid Hcd.
  destruct (current_facts _ _ _ _ _ _ H Hcur) as (Hu & Hsu & vv & Hv & Hvc & Hvid & Hvd & _).
  destruct (pl_link _ _ HL _ _ _ Hl) as [Hm _].
  destruct (ti_vertex _ _ _ _ _ _ _ H cw cv Hcw) as (V1 & V2 & V3 & _). rewrite decide_True in V3 by done.
  assert (v <> cw) as Hvc' by (intros ->; done).
  destruct (link_nexthop done R D st st v u w cw cv l) as (wv & N1 & N2 & N3 & N4 & N5 & N6 & [N7 N9] & N8); try done.
  - intros x Hx ->. destruct (ti_root _ _ _ _ _ _ _ H) as (p0 & rv & R1 & R2 & R3). assert (p0 = x) as -> by congruence.
    assert (rv = cv) as -> by congruence. rewrite R3 in V3. pose proof (proj1 (ti_status _ _ _ _ _ _ _ H r) (ti_root_done _ _ _ _ _ _ _ H)). congruence.
  - congruence.
  - rewrite (run_bind _ _ _ _ _ N1).
    destruct (Reorder_ok (set_vertices (<[cw := wv]> (vertices st)) st)) as (q & Q1 & Q2 & Q3).
    { cbn. intros x Hx. destruct (queue_routers _ _ _ _ H x Hx) as (y & Hy & Hty). destruct (decide (x = cw)) as [->|Hn].
      - exists wv. by rewrite lookup_insert_eq.
      - exists y. by rewrite lookup_insert_ne by congruence. }
    rewrite Q1. eexists. split; [done|]. split; [|split; [|split; [done|]]].
    + apply (inv_update done R D st u w l H Hu Hsu Hl cw cv); try done.
      * intros x. rewrite N6, list_elem_of_singleton. intros ->. exists vv. split_and!; [done|done|lia].
      * by rewrite N6.
      * eapply (good_better L r ifc R u w l D); [done|done| |done..].
        intros c Ho. destruct (ti_cand _ _ _ _ _ _ _ H cw cv Hcw Hc) as ((_ & G & _) & _). rewrite Hcid in G. specialize (G c Ho). lia.
      * lia.
    + exists vv. cbn. rewrite lookup_insert_ne by congruence. split; [done|]. split; [|done]. by rewrite Q2.
    + intros Hf. by apply (family_update _ (candidate st) _ _ cv).
Qed.

Lemma consider_ok done R D st v u l w : inv done R D st -> current D v u st -> link u l w ->
  exists st', consider below v (Some l) w st = Ok (tt, st', []) /\ inv done (plus R u l) D st' /\ current D v u st' /\
    quiet st st'.
Proof using HL.
  intros H Hcur Hl. destruct (current_facts _ _ _ _ _ _ H Hcur) as (Hu & Hsu & vv & Hv & Hvc & Hvid & Hvd & _ & Hvl & _ & lsa_u & U1 & U2).
  destruct (pl_link _ _ HL _ _ _ Hl) as [Hm [lsa0 Hlsa0]].
  destruct (lsa_found _ _ _ _ _ _ H Hlsa0) as (lsa & Hlsa & Hst & _ & Hid & _). unfold consider.
  rewrite (run_bind (lsa_at w NullDeref) _ st lsa st) by (unfold lsa_at; rewrite run_get; unfold lift; by rewrite Hlsa).
  destruct (decide (m_status lsa = LSA_SPF_IN_SPFTREE)) as [Es|Es].
  { exists st. split; [done|]. split; [|done]. apply (inv_keep done R D st u w l H Hu Hsu Hl (m_status lsa)); [done|by rewrite Es|].
    intros p y Hy Hp E. pose proof (candidate_status _ _ _ _ _ _ H Hy) as Ey. rewrite decide_True in Ey by done. congruence. }
  erewrite run_bind by (eapply lsa_of_ok; [exact Hv|by rewrite Hvl]). rewrite (run_bind _ _ _ _ _ (vertex_ok _ _ _ Hv)).
  rewrite (run_lift _ _ _ (D + m_metric l)).
  2: { rewrite decide_True by done. cbn. f_equal. rewrite Hvd. by eapply (next_distance done R). }
  destruct (decide (m_status lsa = LSA_SPF_NOT_EXPLORED)) as [En|En]; [by eapply discover_ok|].
  assert (status st w = Some LSA_SPF_CANDIDATE) as Hcs by (rewrite Hst; by destruct (m_status lsa)).
  destruct (ti_has _ _ _ _ _ _ _ H _ _ Hcs ltac:(done)) as (cw & cv & Hcw & Hcid).
  assert (cw ∈ candidate st) as Hcc.
  { pose proof (candidate_status _ _ _ _ _ _ H Hcw) as E. rewrite Hcid, Hcs in E. by case_decide. }
  destruct (deref_routers _ _ (queue_routers _ _ _ _ H)) as (ps & P1 & P2 & P3 & _). rewrite Forall_forall in P3.
  rewrite (run_bind (Find (m_linkStateId lsa)) _ st (Some cw) st).
  2: { unfold Find. rewrite run_get, (run_lift _ _ _ _ P1), Hid. unfold mret, handler_ret. do 3 f_equal.
       rewrite <- P2 in Hcc. apply list_elem_of_fmap in Hcc as ([p y] & E & Hin). cbn in E. subst p.
       pose proof (P3 _ Hin) as Hy. cbn in Hy. apply (find_vertex_spec _ _ cw y); [done|congruence|].
       intros p' y' Hin' Hy'. pose proof (P3 _ Hin') as Hp'. cbn in Hp'. eapply (ti_unique _ _ _ _ _ _ _ H); [done..|congruence]. }
  rewrite (run_lift _ _ _ cw) by done. rewrite (run_bind _ _ _ _ _ (vertex_ok _ _ _ Hcw)).
  destruct (Z.ltb_spec (m_distanceFromRoot cv) (D + m_metric l)) as [Hlt|Hge].
  { exists st. split; [done|]. split; [|done]. apply (inv_keep done R D st u w l H Hu Hsu Hl LSA_SPF_CANDIDATE); [done..|].
    intros p y Hy Hp E. assert (p = cw) as -> by (eapply (ti_unique _ _ _ _ _ _ _ H); [done..|congruence]). congruence. }
  destruct (Z.eqb_spec (m_distanceFromRoot cv) (D + m_metric l)); [by eapply merge_path_ok|].
  eapply better_path_ok; try done. lia.
Qed.

(** ** All records of a router *)

Definition examined (R : Ipv4Address -> GlobalRoutingLinkRecord -> Prop) u (l : list GlobalRoutingLinkRecord) a b : Prop :=
  R a b \/ (a = u /\ b ∈ l).

Lemma SPFNext_link_ok done R D st v u l : inv done R D st -> current D v u st -> recs L u l ->
  exists st', SPFNext_link below v l st = Ok (tt, st', []) /\ inv done (plus R u l) D st' /\ current D v u st' /\
    quiet st st'.
Proof using HL.
  intros H Hcur Hl. unfold SPFNext_link. destruct (pl_record _ _ HL u l Hl) as [E|E]; rewrite E.
  - exists st. split; [done|]. split; [|done]. destruct H.
    assert (forall x, ~ link u l x) as Hno by (intros x (_ & E' & _); congruence).
    assert (forall x c, offer L r (plus R u l) x c <-> offer L r R x c) as Ho.
    { intros x c. split; intros (a & b & d & Hab & Hx & Hr); exists a, b, d; [|by split; [left|split]].
      split; [|by split]. destruct Hab as [|[-> ->]]; [done|]. by destruct (Hno x). }
    assert (forall x c e, offer_exit L r ifc (plus R u l) x c e <-> offer_exit L r ifc R x c e) as Hoe.
    { intros x c e. split; intros (a & b & d & Hab & Hx & Hr); exists a, b, d; [|by split; [left|split]].
      split; [|by split]. destruct Hab as [|[-> ->]]; [done|]. by destruct (Hno x). }
    split; try done.
    + intros p y Hy Hp. destruct (ti_cand p y Hy Hp) as [(G1 & G2 & G3) G4]. split; [|done]. split_and!.
      * by apply Ho.
      * intros c Hc%Ho. auto.
      * intros e. by rewrite G3, Hoe.
    + intros a b [Hab|[-> ->]]; [by apply ti_R|]. split; [done|]. destruct Hcur as (vv & Hv & Hvc & <- & _).
      apply ti_status. destruct (ti_vertex v vv Hv) as (_ & _ & -> & _). by rewrite decide_False.
    + intros a b x [Hab|[-> ->]] Hx; [by eapply ti_closed|]. by destruct (Hno x).
  - assert (link u l (m_linkId l)) as Hl' by done. destruct (pl_link _ _ HL _ _ _ Hl') as [_ [lsa0 Hlsa0]].
    destruct (lsa_found _ _ _ _ _ _ H Hlsa0) as (lsa & Hlsa & _).
    rewrite (run_bind (lsa_at _ _) _ st lsa st) by (unfold lsa_at; rewrite run_get; unfold lift; by rewrite Hlsa).
    by apply (consider_ok done).
Qed.

Lemma SPFNext_ok done R D st v u : inv done R D st -> current D v u st ->
  exists st', SPFNext below v st = Ok (tt, st', []) /\ inv done (fun a b => R a b \/ (a = u /\ recs L u b)) D st' /\
    current D v u st' /\ quiet st st'.
Proof using HL.
  intros H Hcur. destruct (current_facts _ _ _ _ _ _ H Hcur) as (Hu & Hsu & vv & Hv & Hvc & Hvid & Hvd & Hvt & Hvl & _ & _).
  assert (exists lsa0, map_find u L = Some lsa0) as [lsa0 H0].
  { eapply status_find; [exact H|]. by apply (ti_status _ _ _ _ _ _ _ H). }
  destruct (lsa_found _ _ _ _ _ _ H H0) as (lsa & Hlsa & _ & _ & _ & Hrec). unfold SPFNext.
  rewrite (run_bind _ _ _ _ _ (vertex_type_ok _ _ _ _ Hv Hvt)).
  erewrite run_bind by (eapply lsa_of_ok; [exact Hv|by rewrite Hvl]). rewrite Hrec.
  destruct (run_loop (fun l st' => inv done (examined R u l) D st' /\ current D v u st' /\ quiet st st')
    (SPFNext_link below v) (m_linkRecords lsa0) st) as (st' & Hrun & H1 & H2 & H3).
  - intros pre l post s Hl (I1 & I2 & I3). destruct (SPFNext_link_ok done (examined R u pre) D s v u l I1 I2) as (s' & S1 & S2 & S3 & S4).
    { exists lsa0. split; [done|]. rewrite Hl. apply elem_of_app. right. by left. }
    exists s'. split; [done|]. split; [|split; [done|by eapply quiet_trans]]. eapply tree_inv_ext; [|exact S2].
    intros a b. unfold plus, examined. rewrite elem_of_app, list_elem_of_singleton. naive_solver.
  - split; [|done]. eapply tree_inv_ext; [|exact H]. intros a b. unfold examined. rewrite elem_of_nil. naive_solver.
  - exists st'. split; [done|]. split; [|done]. eapply tree_inv_ext; [|exact H1]. intros a b. unfold examined, recs. naive_solver.
Qed.

(** ** The nearest candidate *)

Definition complete (done : list Ipv4Address) (R : Ipv4Address -> GlobalRoutingLinkRecord -> Prop) : Prop :=
  forall u l, u ∈ done -> recs L u l -> R u l.

Lemma done_vertex done R D st u : inv done R D st -> u ∈ done ->
  exists p v, vertices st !! p = Some v /\ m_vertexId v = u /\ p ∉ candidate st.
Proof using.
  intros H Hu. apply (ti_status _ _ _ _ _ _ _ H) in Hu. destruct (ti_has _ _ _ _ _ _ _ H _ _ Hu ltac:(done)) as (p & v & Hv & E).
  exists p, v. split; [done|]. split; [done|]. intros Hp. pose proof (candidate_status _ _ _ _ _ _ H Hv) as Es.
  rewrite decide_True in Es by done. congruence.
Qed.

Lemma done_shortest done R D st u c : inv done R D st -> u ∈ done -> shortest u c -> c <= D.
Proof using.
  intros H Hu Hc. destruct (done_vertex _ _ _ _ _ H Hu) as (p & v & Hv & E & Hp).
  destruct (ti_tree _ _ _ _ _ _ _ H p v Hv Hp) as (Hs & Hd & _). rewrite E in Hs. by rewrite (shortest_unique _ _ _ _ _ Hc Hs).
Qed.

(** A walk either stays in the tree or is no shorter than a candidate. *)
Lemma spf_frontier done R D st x c : inv done R D st -> complete done R -> way L r x c ->
  x ∈ done \/ exists p v, p ∈ candidate st /\ vertices st !! p = Some v /\ m_distanceFromRoot v <= c.
Proof using HL.
  intros H HR. induction 1 as [|u l w c Hw IH Hl]; [left; exact (ti_root_done _ _ _ _ _ _ _ H)|]. destruct (pl_link _ _ HL _ _ _ Hl) as [Hm _].
  destruct IH as [Hu|(p & v & Hp & Hv & Hd)]; [|right; exists p, v; split_and!; [done|done|lia]].
  assert (R u l) as HRul by (apply HR; [done|apply Hl]).
  destruct (ti_closed _ _ _ _ _ _ _ H u l w HRul Hl) as (s & Hs & Hn).
  destruct (ti_has _ _ _ _ _ _ _ H w s Hs Hn) as (p & v & Hv & E). pose proof (candidate_status _ _ _ _ _ _ H Hv) as Es.
  rewrite E in Es. destruct (decide (p ∈ candidate st)) as [Hp|Hp]; [right|left; by apply (ti_status _ _ _ _ _ _ _ H)].
  exists p, v. split_and!; [done|done|]. destruct (ti_cand _ _ _ _ _ _ _ H p v Hv Hp) as ((_ & G & _) & _).
  destruct (done_vertex _ _ _ _ _ H Hu) as (pu & vu & Hvu & Eu & Hpu).
  destruct (ti_tree _ _ _ _ _ _ _ H pu vu Hvu Hpu) as (Hsu & _ & _). rewrite Eu in Hsu.
  assert (m_distanceFromRoot v <= m_distanceFromRoot vu + m_metric l).
  { apply G. exists u, l, (m_distanceFromRoot vu). by rewrite E. }
  pose proof (proj2 Hsu c Hw). lia.
Qed.

Section nearest.
Context (done : list Ipv4Address) (R : Ipv4Address -> GlobalRoutingLinkRecord -> Prop) (D : Z) (st : Spf).
Context (H : inv done R D st) (HR : complete done R) (p : nat) (q : list nat) (v : SPFVertex).
Context (Hq : candidate st = p :: q) (Hp : vertices st !! p = Some v).

Lemma nearest_min p' v' : p' ∈ candidate st -> vertices st !! p' = Some v' -> m_distanceFromRoot v <= m_distanceFromRoot v'.
Proof using H Hp Hq.
  intros Hin Hv'. rewrite Hq in Hin. apply elem_of_cons in Hin as [->|Hin]; [by assert (v = v') as -> by congruence|].
  apply list_elem_of_lookup in Hin as [i Hi]. destruct (ti_queue _ _ _ _ _ _ _ H) as [_ Hs].
  apply (Hs 0%nat (S i) p p'); [lia|by rewrite Hq..|done|done].
Qed.

Lemma nearest_candidate : p ∈ candidate st.
Proof using Hq. rewrite Hq. by left. Qed.

Lemma nearest_new : m_vertexId v ∉ done.
Proof using H Hp Hq.
  intros Hin%(ti_status _ _ _ _ _ _ _ H). rewrite (candidate_status _ _ _ _ _ _ H Hp), decide_True in Hin by apply nearest_candidate. done.
Qed.

Lemma nearest_shortest : shortest (m_vertexId v) (m_distanceFromRoot v).
Proof using H HL HR Hp Hq.
  destruct (ti_cand _ _ _ _ _ _ _ H p v Hp nearest_candidate) as (((u & l & b & G1 & G2 & G3 & G4) & _ & _) & _). split.
  - rewrite G4. eapply way_link; [apply G3|done].
  - intros c Hc. destruct (spf_frontier _ _ _ _ _ _ H HR Hc) as [Hin|(p' & v' & Hp' & Hv' & Hle)].
    + by apply nearest_new in Hin.
    + pose proof (nearest_min _ _ Hp' Hv'). lia.
Qed.

Lemma nearest_hops e : e ∈ m_ecmpRootExits v <-> first_hop (m_vertexId v) e.
Proof using H HL HR Hp Hq.
  destruct (ti_cand _ _ _ _ _ _ _ H p v Hp nearest_candidate) as ((_ & _ & G) & _). rewrite G. pose proof nearest_shortest as Hs. split.
  - intros (u & l & b & _ & Hl & Hb & E & [(-> & lr & Hlr & ->)|(Hn & Hu)]).
    + apply (shortest_root _ _ HL) in Hb. subst b. apply first_direct; [done| |done]. by rewrite <- (Z.add_0_l (m_metric l)), <- E.
    + eapply first_inherited; [done|done|done| |done]. by rewrite <- E.
  - intros Hf. inversion Hf as [l w lr Hl Hw Hlr|u l w c e' Hn Hl Hc Hw Hu]; subst.
    + exists r, l, 0. split_and!; [apply HR; [exact (ti_root_done _ _ _ _ _ _ _ H)|apply Hl]|done|by apply (shortest_root _ _ HL)| |].
      * by rewrite (shortest_unique _ _ _ _ _ Hs Hw).
      * left. split; [done|]. by exists lr.
    + destruct (pl_link _ _ HL _ _ _ Hl) as [Hm _]. pose proof (shortest_unique _ _ _ _ _ Hs Hw) as E. exists u, l, c.
      assert (u ∈ done) as Hud.
      { destruct (spf_frontier _ _ _ _ _ _ H HR (proj1 Hc)) as [|(p' & v' & Hp' & Hv' & Hle)]; [done|].
        pose proof (nearest_min _ _ Hp' Hv'). lia. }
      split_and!; [apply HR; [done|apply Hl]|done|done|done|]. by right.
Qed.

Lemma nearest_bound : m_distanceFromRoot v <= D + 65535.
Proof using H HL Hp Hq.
  destruct (ti_cand _ _ _ _ _ _ _ H p v Hp nearest_candidate) as (((u & l & b & G1 & G2 & G3 & G4) & _ & _) & _).
  destruct (ti_R _ _ _ _ _ _ _ H u l G1) as [_ Hu]. pose proof (done_shortest _ _ _ _ _ _ H Hu G3).
  destruct (pl_link _ _ HL _ _ _ G2) as [Hm _]. lia.
Qed.

(** It joins the tree. *)
Lemma inv_settle : inv (m_vertexId v :: done) R (m_distanceFromRoot v)
  (mkSpf (set_lsa_status (m_vertexId v) LSA_SPF_IN_SPFTREE (m_lsdb st)) (vertices st) (next_vertex st) (m_spfroot st) q (NodeList st)).
Proof using H HL HR Hp Hq.
  clear below. pose proof nearest_new as Hnew. pose proof nearest_shortest as Hsh. pose proof nearest_hops as Hex. pose proof nearest_bound as Hbd.
  pose proof nearest_min as Hmin. pose proof nearest_candidate as Hpc. pose proof (candidate_status _ _ _ _ _ _ H Hp) as Hpst.
  rewrite decide_True in Hpst by done. destruct (ti_cand _ _ _ _ _ _ _ H p v Hp Hpc) as [_ HD]. set (w := m_vertexId v) in *. destruct H.
  assert (p ∉ q /\ NoDup q) as [Hpq Hndq] by (destruct ti_queue as [Hnd _]; rewrite Hq in Hnd; by apply NoDup_cons in Hnd).
  assert (forall x, x ∈ q -> x ∈ candidate st) as Hqc by (intros x Hx; rewrite Hq; by right).
  assert (forall x, x <> p -> x ∈ candidate st -> x ∈ q) as Hcq by (intros x Hx; rewrite Hq; by intros [->|]%elem_of_cons).
  split; try done; cbn [m_lsdb vertices next_vertex m_spfroot candidate NodeList].
  - intros k. by rewrite db_set.
  - by constructor.
  - intros k. rewrite status_set, elem_of_cons, ti_status. case_decide as E; [subst k; rewrite Hpst; naive_solver|].
    split; [by intros [->|]|by right].
  - by right.
  - intros x y Hx. destruct (ti_vertex x y Hx) as (V1 & V2 & V3 & V4 & V5). split_and!; try done.
    2: { intros z Hz. destruct (V4 z Hz) as (v' & G1 & G2 & G3). exists v'. split_and!; [done| |done]. intros Hzq. by apply G2, Hqc. }
    rewrite status_set. destruct (decide (w = m_vertexId y)) as [E|E].
    + assert (x = p) as -> by (apply (ti_unique x p y v Hx Hp); by rewrite <- E). by rewrite Hpst, decide_False.
    + rewrite V3. assert (x <> p) by (intros ->; apply E; unfold w; congruence). f_equal. repeat case_decide; try done; exfalso; auto.
  - intros k s. rewrite status_set. case_decide as E; [intros _ _; subst k; by exists p, v|]. apply ti_has.
  - split; [done|]. intros i j a b y z Hij Hi Hj. destruct ti_queue as [_ Hs]. apply (Hs (S i) (S j)); [lia|by rewrite Hq..].
  - intros x Hx. auto.
  - intros x y Hx Hxq. destruct (decide (x = p)) as [->|Hn].
    + assert (y = v) as -> by congruence. done.
    + destruct (ti_tree x y Hx) as (T1 & T2 & T3); [intros Hc; by apply Hxq, Hcq|]. split_and!; [done|lia|done].
  - intros x y Hx Hxq. split; [apply (ti_cand x); [done|by apply Hqc]|]. apply (Hmin x); [by apply Hqc|done].
  - intros u l Hul. destruct (ti_R u l Hul). split; [done|]. by right.
  - intros u l x Hul Hx. destruct (ti_closed u l x Hul Hx) as (s & Hs & Hn). rewrite status_set. case_decide as E; [|by exists s].
    subst x. rewrite Hpst. by exists LSA_SPF_IN_SPFTREE.
  - cbn [length]. lia.
Qed.
End nearest.
End steps.
