(* ===== verification/GlobalSpfResult.v ===== *)
(** * GlobalSpfResult: the routes of global routing

    The loop of [SPFCalculate] ends, with the tree of all shortest paths of
    GlobalPaths and a host route for every address of every router on it. *)

From stdpp Require Import gmap.
From S2P Require Import Prelude StdMap Ipv4Address Node StaticRouting GlobalRouting GlobalLsdb GlobalSpf GlobalPaths GlobalSpfSpec.

(** ** The tables of the root's node *)

Fixpoint tables_of (id : Ipv4Address) (l : list GNode) : option Global.GlobalState :=
  match l with
  | [] => None
  | n :: l' => if decide (gn_router n = Some id) then gn_routing n else tables_of id l'
  end.

Lemma at_router_first id f l gr gr' a z : tables_of id l = Some gr -> find_outgoing id a Mask_GetOnes l = Ok z ->
  (forall n, gn_routing n = Some gr -> f n = Ok (set_routing gr' n)) ->
  exists l', at_router false id f l = Ok l' /\ tables_of id l' = Some gr' /\
    forall a m, find_outgoing id a m l' = find_outgoing id a m l.
Proof.
  intros Hgr Hz Hf. induction l as [|n l IH]; [done|]. cbn [tables_of find_outgoing at_router] in *. case_decide as E.
  - destruct (gn_prefix n) as [prefix|] eqn:Ep; [|done]. cbn [or_fault mbind result_bind]. rewrite (Hf n Hgr). cbn [mbind result_bind].
    exists (set_routing gr' n :: l). split; [done|]. cbn. rewrite E, decide_True by done. split; [done|].
    intros b m. by rewrite decide_True, Ep by done.
  - destruct (IH Hgr Hz) as (l' & H1 & H2 & H3). rewrite H1. cbn [mbind result_bind]. exists (n :: l').
    split; [done|]. cbn. rewrite !decide_False by done. split; [done|]. intros b m. by rewrite !decide_False, H3 by done.
Qed.

(** The host routes that [SPFIntraAddRouter] adds for the vertex [v]. *)
Definition new_hosts (v : SPFVertex) (records : list GlobalRoutingLinkRecord) : list Ipv4RoutingTableEntry :=
  flat_map (fun lr => if decide (m_linkType lr = PointToPoint)
    then map (fun e => CreateHostRouteTo (m_linkData lr) e.1 e.2) (filter (fun e => 0 <= e.2) (m_ecmpRootExits v)) else []) records.

Lemma add_exits_hosts a exits gr :
  add_exits (fun exit => Global.AddHostRouteTo a exit.1 exit.2) exits gr =
  Global.set_hostRoutes (Global.m_hostRoutes gr ++ map (fun e => CreateHostRouteTo a e.1 e.2) (filter (fun e => 0 <= e.2) exits)) gr.
Proof.
  unfold add_exits. revert gr. induction exits as [|e exits IH]; intros gr; cbn [foldl].
  - cbn. rewrite app_nil_r. by destruct gr.
  - rewrite IH, filter_cons. destruct (Z.leb_spec 0 e.2); [rewrite decide_True by done|by rewrite decide_False by lia].
    unfold Global.AddHostRouteTo, Global.set_hostRoutes. cbn. by rewrite <- app_assoc.
Qed.

Lemma new_hosts_cons v lr records : new_hosts v (lr :: records) = new_hosts v [lr] ++ new_hosts v records.
Proof. unfold new_hosts. cbn. by rewrite app_nil_r. Qed.

Lemma same_hosts gr : Global.set_hostRoutes (Global.m_hostRoutes gr ++ []) gr = gr.
Proof. rewrite app_nil_r. by destruct gr. Qed.

Lemma same_routing gr n : gn_routing n = Some gr -> set_routing gr n = n.
Proof. destruct n. unfold set_routing. cbn. by intros ->. Qed.

Lemma add_host_one v lr gr n : gn_routing n = Some gr ->
  add_host v n lr = Ok (set_routing (Global.set_hostRoutes (Global.m_hostRoutes gr ++ new_hosts v [lr]) gr) n).
Proof.
  intros Hn. unfold add_host, new_hosts. cbn [flat_map]. rewrite app_nil_r. case_decide as E.
  - unfold add_routes. rewrite Hn. cbn [or_fault mbind result_bind]. by rewrite add_exits_hosts.
  - by rewrite same_hosts, same_routing.
Qed.

Lemma add_host_fold v records gr n : gn_routing n = Some gr ->
  foldM (add_host v) n records = Ok (set_routing (Global.set_hostRoutes (Global.m_hostRoutes gr ++ new_hosts v records) gr) n).
Proof.
  revert gr n. induction records as [|lr records IH]; intros gr n Hn; cbn [foldM].
  - cbn [new_hosts flat_map]. by rewrite same_hosts, same_routing.
  - rewrite (add_host_one v lr gr n Hn). cbn [mbind result_bind]. erewrite IH by done. rewrite (new_hosts_cons v lr records).
    unfold Global.set_hostRoutes, set_routing. cbn. by rewrite <- app_assoc.
Qed.

Lemma elem_new_hosts v records entry : entry ∈ new_hosts v records <->
  exists l e, l ∈ records /\ m_linkType l = PointToPoint /\ e ∈ m_ecmpRootExits v /\ 0 <= e.2 /\
    entry = CreateHostRouteTo (m_linkData l) e.1 e.2.
Proof.
  induction records as [|lr records IH]; cbn [new_hosts flat_map].
  - split; [by intros ?%elem_of_nil|by intros (l & e & ?%elem_of_nil & _)].
  - fold (new_hosts v records). rewrite elem_of_app, IH. split.
    + intros [H|(l & e & H1 & H2)]; [|exists l, e; split; [by right|done]]. case_decide; [|by apply elem_of_nil in H].
      apply list_elem_of_In, in_map_iff in H as (e & <- & He%list_elem_of_In). apply list_elem_of_filter in He as [He1 He2].
      exists lr, e. split_and!; try done. by left.
    + intros (l & e & [->|H1]%elem_of_cons & H2 & H3 & H4 & ->); [left|right; by exists l, e].
      rewrite decide_True by done. apply list_elem_of_In, in_map_iff. exists e. split; [done|].
      apply list_elem_of_In, list_elem_of_filter. done.
Qed.

(** ** Children *)

(** [p] is a child of the vertices of [parents] now. *)
Definition adopted (p : nat) (parents : list nat) (h h' : gmap nat SPFVertex) : Prop := same_core h h' /\
  forall x y y', h !! x = Some y -> h' !! x = Some y' -> m_vertexProcessed y' = m_vertexProcessed y /\
    forall c, c ∈ m_children y' <-> c ∈ m_children y \/ (c = p /\ x ∈ parents).

Lemma adopted_nil p h : adopted p [] h h.
Proof.
  split; [done|]. intros x y y' Hy Hy'. assert (y' = y) as -> by congruence. split; [done|]. intros c. rewrite elem_of_nil. naive_solver.
Qed.

Lemma adopted_snoc p parents h h' q y : adopted p parents h h' -> h' !! q = Some y ->
  adopted p (parents ++ [q]) h (<[q := AddChild p y]> h').
Proof.
  intros [A1 A2] Hq. split; [eapply same_core_trans; [exact A1|]; by eapply same_core_insert|].
  intros x z z' Hz Hz'. apply lookup_insert_Some in Hz' as [[<- <-]|[Hn Hz']].
  - destruct (A2 q z y Hz Hq) as [B1 B2]. split; [done|]. intros c. cbn.
    rewrite !elem_of_app, !list_elem_of_singleton, B2. naive_solver.
  - destruct (A2 x z z' Hz Hz') as [B1 B2]. split; [done|]. intros c. rewrite B2, elem_of_app, list_elem_of_singleton. naive_solver.
Qed.

Lemma SPFVertexAddParent_ok st p v : vertices st !! p = Some v -> (forall q, q ∈ m_parents v -> is_Some (vertices st !! q)) ->
  exists h, SPFVertexAddParent p st = Ok (tt, set_vertices h st, []) /\ adopted p (m_parents v) (vertices st) h.
Proof.
  intros Hp Hpar. unfold SPFVertexAddParent. rewrite (run_bind _ _ _ _ _ (vertex_ok _ _ _ Hp)).
  destruct (run_loop (fun pre s => exists h, s = set_vertices h st /\ adopted p pre (vertices st) h)
    (fun parent => update_vertex parent (AddChild p)) (m_parents v) st) as (s & H1 & h & -> & H2); [| |by exists h].
  - intros pre q post s Hl (h & -> & Hc). destruct (Hpar q) as [y Hy]; [rewrite Hl; apply elem_of_app; right; by left|].
    destruct (same_core_lookup _ _ _ _ (same_core_sym _ _ (proj1 Hc)) Hy) as (y' & Hy' & _).
    eexists. split; [by apply (update_vertex_ok _ _ _ y')|]. eexists. split; [done|]. by apply adopted_snoc.
  - exists (vertices st). split; [by destruct st|]. apply adopted_nil.
Qed.

(** The head of the queue joins the family. *)
Lemma family_adopted p q v h h' : family h (p :: q) -> p ∉ q -> h !! p = Some v -> adopted p (m_parents v) h h' -> family h' q.
Proof.
  intros Hf Hpq Hp [A1 A2] x y' Hy'. destruct (same_core_lookup _ _ _ _ A1 Hy') as (y & Hy & _).
  destruct (A2 x y y' Hy Hy') as [B1 B2]. destruct (Hf x y Hy) as [F1 F2]. split; [congruence|]. intros c. rewrite B2, F2. split.
  - intros [(w & Hw & Hx & Hn)|[-> Hx]].
    + apply not_elem_of_cons in Hn as [Hn1 Hn2].
      destruct (same_core_lookup _ _ _ _ (same_core_sym _ _ A1) Hw) as (w' & Hw' & (_ & _ & _ & _ & _ & E)%core_fields).
      exists w'. by rewrite E.
    + destruct (same_core_lookup _ _ _ _ (same_core_sym _ _ A1) Hp) as (w' & Hw' & (_ & _ & _ & _ & _ & E)%core_fields).
      exists w'. by rewrite E.
  - intros (w' & Hw' & Hx & Hn). destruct (same_core_lookup _ _ _ _ A1 Hw') as (w & Hw & (_ & _ & _ & _ & _ & E)%core_fields).
    rewrite <- E in Hx. destruct (decide (c = p)) as [->|Hc]; [right; split; [done|congruence]|].
    left. exists w. split_and!; [done|done|]. by rewrite not_elem_of_cons.
Qed.

Section result.
Context (L : stdmap Ipv4Address GlobalRoutingLSA) (r : Ipv4Address) (ifc : Ipv4Address -> Z) (below : nat -> nat -> bool).
Context (HL : p2p_lsdb L r) (gr0 : Global.GlobalState) (exts : list GlobalRoutingLSA).
Notation inv := (tree_inv L r ifc).

(** The host routes of the routers in [done]: for every address at one of their
    links, one over every first hop that has an interface. *)
Definition host_route (done : list Ipv4Address) (entry : Ipv4RoutingTableEntry) : Prop :=
  exists w l e, w ∈ done /\ recs L w l /\ m_linkType l = PointToPoint /\ first_hop L r ifc w e /\ 0 <= e.2 /\
    entry = CreateHostRouteTo (m_linkData l) e.1 e.2.

Definition routes_inv (done : list Ipv4Address) (st : Spf) : Prop := m_extdatabase (m_lsdb st) = exts /\
  exists gr, tables_of r (NodeList st) = Some gr /\
    (forall entry, entry ∈ Global.m_hostRoutes gr <-> entry ∈ Global.m_hostRoutes gr0 \/ host_route done entry) /\
    gr = Global.set_hostRoutes (Global.m_hostRoutes gr) gr0.

Lemma tree_inv_nodes done R D st l : inv done R D st ->
  (forall a, find_outgoing r a Mask_GetOnes l = Ok (ifc a)) -> inv done R D (set_NodeList l st).
Proof using. intros [] Hl. by split. Qed.

Lemma settle_ok done R D st p q v : inv done R D st -> complete L done R -> candidate st = p :: q ->
  vertices st !! p = Some v -> routes_inv done st -> family (vertices st) (candidate st) ->
  exists st', settle p (set_candidate q st) = Ok (tt, st', []) /\ inv (m_vertexId v :: done) R (m_distanceFromRoot v) st' /\
    current (m_distanceFromRoot v) p (m_vertexId v) st' /\ routes_inv (m_vertexId v :: done) st' /\
    family (vertices st') (candidate st').
Proof using HL.
  intros H HR Hq Hp (G0 & gr & G1 & G2 & G3) Hfam. pose proof (inv_settle L r ifc HL done R D st H HR p q v Hq Hp) as Hinv.
  pose proof (nearest_hops L r ifc HL done R D st H HR p q v Hq Hp) as Hhops.
  assert (p ∉ q) as Hpq.
  { pose proof (proj1 (ti_queue _ _ _ _ _ _ _ H)) as Hnd. rewrite Hq in Hnd. by apply NoDup_cons in Hnd as [? _]. }
  destruct (ti_vertex _ _ _ _ _ _ _ H p v Hp) as (V1 & V2 & V3 & V4 & _).
  destruct (status_find _ _ _ _ _ _ _ _ _ H V3) as [lsa0 H0].
  destruct (lsa_found _ _ _ HL _ _ _ _ _ _ H H0) as (lsa & Hlsa & _ & _ & _ & Hrec).
  set (st1 := mkSpf _ _ _ _ _ _) in Hinv. unfold settle. erewrite run_bind by (apply vertex_ok; exact Hp).
  erewrite run_bind by (eapply lsa_of_ok; [exact Hp|by rewrite V2]). unfold set_status. rewrite run_modify, V2.
  change (set_lsdb _ (set_candidate q st)) with st1.
  destruct (SPFVertexAddParent_ok st1 p v Hp) as (h & A1 & A2); [intros x Hx; destruct (V4 x Hx) as (y & Hy & _); by exists y|].
  rewrite (run_bind _ _ _ _ _ A1).
  assert (family h q) as Hfam' by (rewrite Hq in Hfam; by eapply family_adopted). destruct A2 as [A2 _].
  apply same_core_sym in A2. destruct (same_core_lookup _ _ _ _ A2 Hp) as (v' & Hv' & Hc).
  destruct (core_fields _ _ Hc) as (C1 & C2 & C3 & C4 & C5 & _). set (st2 := set_vertices h st1).
  assert (inv (m_vertexId v :: done) R (m_distanceFromRoot v) st2) as Hinv2.
  { by apply (tree_inv_core _ _ _ _ _ _ st1); [..|apply same_core_sym|]. }
  erewrite run_bind by (apply (vertex_type_ok p st2 v'); [done|by rewrite C1]). unfold SPFIntraAddRouter.
  erewrite run_bind by (apply vertex_ok; exact Hv').
  destruct (lsa_found _ _ _ HL _ _ _ _ _ _ Hinv2 H0) as (lsa2 & Hlsa2 & _ & _ & _ & Hrec2).
  erewrite run_bind by (eapply lsa_of_ok; [exact Hv'|by rewrite C3, V2]).
  destruct (ti_root _ _ _ _ _ _ _ Hinv2) as (p0 & rv & R1 & R2 & R3). unfold at_root. rewrite run_get, (run_lift _ _ _ p0) by by rewrite R1.
  rewrite (run_bind _ _ _ _ _ (vertex_ok _ _ _ R2)), R3, Hrec2.
  destruct (at_router_first r (fun node => foldM (add_host v') node (m_linkRecords lsa0)) (NodeList st2) gr
    (Global.set_hostRoutes (Global.m_hostRoutes gr ++ new_hosts v' (m_linkRecords lsa0)) gr) 0 (ifc 0)) as (l' & L1 & L2 & L3); [done|apply Hinv2| |].
  { intros n Hn. by apply add_host_fold. }
  rewrite (run_lift _ _ _ _ L1). eexists. split; [done|]. split; [|split; [|split; [|done]]].
  - apply tree_inv_nodes; [done|]. intros a. rewrite L3. apply Hinv2.
  - exists v'. split; [done|]. by rewrite C2, C4.
  - split; [done|]. eexists. split; [exact L2|]. split; [|by rewrite G3]. intros entry. cbn. rewrite elem_of_app, G2, elem_new_hosts. split.
    + intros [[?|(w & l & e & Hw & Hr)]|(l & e & E1 & E2 & E3 & E4 & E5)]; [by left|right|right].
      * exists w, l, e. split; [by right|done].
      * exists (m_vertexId v), l, e. split_and!; [by left|by exists lsa0|done| |done|done]. by rewrite C5, Hhops in E3.
    + intros [?|(w & l & e & [->|Hw]%elem_of_cons & (lsa' & E0 & E1) & E2 & E3 & E4 & E5)]; [by left; left|right|left; right].
      * exists l, e. rewrite C5, Hhops. rewrite H0 in E0. injection E0 as <-. done.
      * exists w, l, e. split_and!; try done. by exists lsa'.
Qed.

Lemma queue_size done R D st : inv done R D st -> (length (candidate st) <= length L)%nat.
Proof using.
  intros H. destruct (deref_routers _ _ (queue_routers _ _ _ _ _ _ _ H)) as (ps & _ & P2 & P3 & _).
  rewrite <- P2, length_fmap, <- (length_fmap (fun pv => m_vertexId pv.2) ps), <- (length_fmap fst L).
  rewrite Forall_lookup in P3. apply submseteq_length, NoDup_submseteq.
  - apply NoDup_alt. intros i j x Hi Hj. rewrite list_lookup_fmap in Hi, Hj.
    apply fmap_Some in Hi as (y & Hi & ->), Hj as (z & Hj & E).
    assert (y.1 = z.1) as E' by (eapply (ti_unique _ _ _ _ _ _ _ H); [by eapply P3..|done]).
    eapply (NoDup_lookup (candidate st) i j y.1); [apply (ti_queue _ _ _ _ _ _ _ H)|by rewrite <- P2, list_lookup_fmap, Hi|].
    by rewrite E', <- P2, list_lookup_fmap, Hj.
  - intros x (y & -> & [i Hi]%list_elem_of_lookup)%list_elem_of_fmap. apply (map_find_is_Some _ L).
    eapply status_find; [exact H|]. eapply candidate_status; [exact H|]. by eapply P3.
Qed.

(** What the loop leaves. *)
Definition finished (done : list Ipv4Address) (st : Spf) : Prop := exists R D,
  inv done R D st /\ complete L done R /\ candidate st = [] /\ routes_inv done st /\ family (vertices st) [].

Lemma spf_loop_ok rounds done R D st v u : inv done R D st -> current D v u st ->
  (forall a l, a ∈ done -> a <> u -> recs L a l -> R a l) -> routes_inv done st -> family (vertices st) (candidate st) ->
  (length L < rounds + length done)%nat ->
  exists st' done', spf_loop below rounds v st = Ok (tt, st', []) /\ finished done' st'.
Proof using HL.
  revert done R D st v u. induction rounds as [|rounds IH]; intros done R D st v u H Hcur HR Hroutes Hfam Hlt.
  { pose proof (tree_size _ _ _ _ _ _ _ H). lia. }
  cbn [spf_loop]. destruct (SPFNext_ok _ _ _ HL below _ _ _ _ _ _ H Hcur) as (st1 & S1 & H1 & Hcur1 & [= Hn He] & Hfam1). specialize (Hfam1 Hfam).
  rewrite (run_bind _ _ _ _ _ S1). set (R1 := fun a b => R a b \/ (a = u /\ recs L u b)) in H1.
  assert (complete L done R1) as HR1.
  { intros a l Ha Hl. unfold R1. destruct (decide (a = u)) as [->|]; [by right|]. left. by apply HR. }
  assert (routes_inv done st1) as Hroutes1 by (unfold routes_inv; by rewrite Hn, He).
  unfold Size. erewrite (run_bind (get ≫= _)) by (rewrite run_get; done).
  pose proof (queue_size _ _ _ _ H1). pose proof (pl_small _ _ HL).
  rewrite u32_small by (unfold is_u32; lia).
  destruct (candidate st1) as [|p q] eqn:Hq.
  - exists st1, done. split; [done|]. by exists R1, D.
  - cbn [length]. destruct (Z.eqb_spec (Z.of_nat (S (length q))) 0); [lia|]. unfold Pop.
    erewrite (run_bind (get ≫= _)) by (rewrite run_get, Hq, run_modify; done). rewrite (run_lift _ _ _ p) by done.
    destruct (ti_queued _ _ _ _ _ _ _ H1 p) as [w Hp]; [rewrite Hq; by left|].
    destruct (settle_ok _ _ _ _ _ _ _ H1 HR1 Hq Hp Hroutes1) as (st2 & T1 & T2 & T3 & T4 & T5); [by rewrite Hq|].
    rewrite (run_bind _ _ _ _ _ T1). apply (IH _ _ _ _ _ _ T2 T3); [|done|done|cbn; lia].
    intros a l [->|Ha]%elem_of_cons Hne; [done|]. by apply HR1.
Qed.

(** ** The start *)

Lemma hop_way w e : first_hop L r ifc w e -> exists c, way L r w c.
Proof using. intros Hf. inversion Hf as [? ? ? _ [H _]|? ? ? ? ? _ _ _ [H _]]; subst; by eexists. Qed.

(** The root is not a hop away from itself. *)
Lemma root_no_hop e : ~ first_hop L r ifc r e.
Proof using HL.
  intros Hf. inversion Hf as [l w lr Hl Hw _|u l w c e' _ Hl Hc Hw _]; subst; apply (shortest_root _ _ HL) in Hw;
    destruct (pl_link _ _ HL _ _ _ Hl) as [Hm _]; [lia|]. pose proof (way_nonneg _ _ HL _ _ (proj1 Hc)). lia.
Qed.

Lemma initialize_find k db : GetLSA k (LSDB_Initialize db) = SetStatus LSA_SPF_NOT_EXPLORED <$> GetLSA k db.
Proof using.
  unfold GetLSA, LSDB_Initialize. cbn [m_database]. induction (m_database db) as [|[k' lsa] l IH]; [done|].
  cbn [map map_find fst snd]. by case_decide.
Qed.

(** The state after [plant]: one vertex, the root, marked in the database. *)
Section planted.
Context (st : Spf) (lsa0 : GlobalRoutingLSA) (HLst : m_database (m_lsdb st) = L) (Hvs : vertices st = ∅).
Context (H0 : map_find r L = Some lsa0).
#[local] Notation lsa := (SetStatus LSA_SPF_NOT_EXPLORED lsa0).
#[local] Notation db0 := (LSDB_Initialize (m_lsdb st)).
#[local] Notation n := (next_vertex st).
#[local] Notation rv := (SetDistanceFromRoot 0 (MakeSPFVertex r lsa)).

Definition planted : Spf :=
  mkSpf (set_lsa_status r LSA_SPF_IN_SPFTREE db0) (<[n := rv]> ∅) (S n) (Some n) [] (NodeList st).

Lemma initialized k : GetLSA k db0 = SetStatus LSA_SPF_NOT_EXPLORED <$> map_find k L.
Proof using HLst. rewrite initialize_find. unfold GetLSA. by rewrite HLst. Qed.

Lemma plant_run : plant r st = Ok (n, planted, []).
Proof using HLst H0 Hvs.
  unfold plant. rewrite run_modify. erewrite run_bind by (apply new_vertex_ok; cbn [m_lsdb set_lsdb]; by rewrite initialized, H0).
  rewrite run_modify. erewrite run_bind by (apply update_vertex_ok; cbn; apply lookup_insert_eq). unfold set_status. rewrite run_modify.
  unfold mret, handler_ret. do 2 f_equal. unfold planted, set_lsdb, set_vertices, set_spfroot. cbn.
  by rewrite insert_insert_eq, Hvs.
Qed.

Lemma planted_only p v : <[n := rv]> (∅ : gmap nat SPFVertex) !! p = Some v -> p = n /\ v = rv.
Proof using.
  intros Hv. destruct (decide (p = n)) as [->|]; [rewrite lookup_insert_eq in Hv; by injection Hv|].
  by rewrite lookup_insert_ne, lookup_empty in Hv by done.
Qed.

Lemma planted_status k : status planted k = if decide (r = k) then Some LSA_SPF_IN_SPFTREE else
  (fun _ => LSA_SPF_NOT_EXPLORED) <$> map_find k L.
Proof using HLst H0.
  unfold status, planted, GetLSA. cbn [m_lsdb]. unfold set_lsa_status. cbn [m_database]. rewrite map_find_update.
  fold (GetLSA r db0). fold (GetLSA k db0). rewrite !initialized, H0. case_decide; [done|]. by destruct (map_find k L).
Qed.

Lemma planted_inv : (forall a, find_outgoing r a Mask_GetOnes (NodeList st) = Ok (ifc a)) -> inv [r] (fun _ _ => False) 0 planted.
Proof using HL HLst H0.
  clear below gr0 exts. intros Hifc. destruct (pl_router _ _ HL _ _ H0) as [T1 T2].
  split; try done.
  - intros k. etransitivity; [exact (db_set (set_lsdb db0 st) r LSA_SPF_IN_SPFTREE k)|]. cbn [m_lsdb set_lsdb].
    rewrite initialized. by destruct (map_find k L).
  - apply NoDup_singleton.
  - intros k. rewrite list_elem_of_singleton, planted_status. case_decide; [naive_solver|]. by destruct (map_find k L); naive_solver.
  - exists n, rv. split_and!; [done|apply lookup_insert_eq|done].
  - by left.
  - intros p v [-> ->]%planted_only. cbn. lia.
  - intros p v [-> ->]%planted_only. split_and!; [| | | |by intros _; cbn].
    + cbn. by rewrite T1.
    + done.
    + rewrite planted_status. cbn [m_vertexId SetDistanceFromRoot MakeSPFVertex SetStatus m_linkStateId].
      by rewrite T2, decide_True by done.
    + by intros q ?%elem_of_nil.
  - intros p q v w [-> ->]%planted_only [-> ->]%planted_only. done.
  - intros k s. rewrite planted_status. case_decide as E; [intros _ _; subst k; exists n, rv; by split; [apply lookup_insert_eq|]|].
    destruct (map_find k L); [|done]. cbn. by intros [= <-].
  - split; [apply NoDup_nil_2|]. by intros i j p p' v w _ [=].
  - by intros p ?%elem_of_nil.
  - intros p v [-> ->]%planted_only _. cbn. rewrite T2. split; [by apply (shortest_root _ _ HL)|]. split; [done|].
    intros e. rewrite elem_of_nil. split; [done|]. intros Hf. by eapply root_no_hop.
  - by intros p v _ ?%elem_of_nil.
Qed.
End planted.

Lemma plant_ok st : m_database (m_lsdb st) = L -> vertices st = ∅ ->
  (forall a, find_outgoing r a Mask_GetOnes (NodeList st) = Ok (ifc a)) ->
  exists v st1, plant r st = Ok (v, st1, []) /\ inv [r] (fun _ _ => False) 0 st1 /\ current 0 v r st1 /\
    family (vertices st1) (candidate st1) /\ (NodeList st1 = NodeList st /\ m_extdatabase (m_lsdb st1) = m_extdatabase (m_lsdb st)) /\
    length (m_database (m_lsdb st1)) = length L /\
    exists rv, vertices st1 = {[v := rv]} /\ m_spfroot st1 = Some v /\ m_parents rv = [] /\ m_children rv = [].
Proof using HL.
  clear below gr0 exts. intros HLst Hvs Hifc. destruct (pl_root _ _ HL) as [lsa0 H0]. destruct (pl_router _ _ HL _ _ H0) as [_ T2].
  set (rv := SetDistanceFromRoot 0 (MakeSPFVertex r (SetStatus LSA_SPF_NOT_EXPLORED lsa0))).
  exists (next_vertex st), (planted st lsa0). split; [by apply plant_run|]. split; [by apply planted_inv|].
  split; [|split; [|split; [done|split; [|by exists rv]]]].
  - exists rv. split_and!; [apply lookup_insert_eq|by intros ?%elem_of_nil|done|done].
  - intros p v [-> ->]%planted_only. split; [done|]. intros c.
    split; [by intros ?%elem_of_nil|]. by intros (w & [-> ->]%planted_only & ?%elem_of_nil & _).
  - unfold planted, set_lsa_status. cbn. rewrite <- (length_fmap fst).
    change (length (map_keys (map_update r (SetStatus LSA_SPF_IN_SPFTREE) (m_database (LSDB_Initialize (m_lsdb st))))) = length L).
    rewrite map_keys_update. unfold map_keys. rewrite length_fmap. cbn. by rewrite length_map, HLst.
Qed.
End result.

(** (C11) On router advertisements with point-to-point links: from a planted
    root the calculation ends within one round per advertisement; the vertices
    of its tree are exactly the routers that a walk from the root reaches, each
    with the distance of its shortest walks and with exactly the first hops of
    those walks as exits; and the table of the root has, besides its old routes,
    exactly one host route for every address at a link of such a router over
    each of its first hops that has an interface. *)
Theorem spf_shortest_paths L r ifc below st gr0 :
  p2p_lsdb L r -> m_database (m_lsdb st) = L -> vertices st = ∅ -> tables_of r (NodeList st) = Some gr0 ->
  (forall a, find_outgoing r a Mask_GetOnes (NodeList st) = Ok (ifc a)) ->
  exists v st1 st', plant r st = Ok (v, st1, []) /\
    spf_loop below (length (m_database (m_lsdb st1))) v st1 = Ok (tt, st', []) /\ candidate st' = [] /\
    (forall u, (exists c, way L r u c) <-> exists p w, vertices st' !! p = Some w /\ m_vertexId w = u) /\
    (forall p w, vertices st' !! p = Some w -> shortest L r (m_vertexId w) (m_distanceFromRoot w) /\
       forall e, e ∈ m_ecmpRootExits w <-> first_hop L r ifc (m_vertexId w) e) /\
    exists gr, tables_of r (NodeList st') = Some gr /\ gr = Global.set_hostRoutes (Global.m_hostRoutes gr) gr0 /\
      forall entry, entry ∈ Global.m_hostRoutes gr <-> entry ∈ Global.m_hostRoutes gr0 \/
        exists w l e, recs L w l /\ m_linkType l = PointToPoint /\ first_hop L r ifc w e /\ 0 <= e.2 /\
          entry = CreateHostRouteTo (m_linkData l) e.1 e.2.
Proof.
  intros HL HLst Hvs Hgr Hifc.
  destruct (plant_ok L r ifc HL st HLst Hvs Hifc) as (v & st1 & P1 & P2 & P3 & Pf & [P4 P6] & P5 & _).
  destruct (spf_loop_ok L r ifc below HL gr0 (m_extdatabase (m_lsdb st)) (length L) [r] (fun _ _ => False) 0 st1 v r P2 P3) as (st' & done & S1 & R & D & H & HR & Hq & Hroutes & _).
  - intros a l ->%list_elem_of_singleton. done.
  - split; [done|]. exists gr0. rewrite P4. split; [done|]. split; [|by destruct gr0]. intros entry. split; [by left|].
    intros [?|(w & l & e & ->%list_elem_of_singleton & _ & _ & Hf & _)]; [done|]. by destruct (root_no_hop L r ifc HL e).
  - done.
  - cbn. lia.
  - exists v, st1, st'. rewrite P5. split; [done|]. split; [done|]. split; [done|].
    assert (forall u c, way L r u c -> u ∈ done) as Hreach.
    { intros u c Hu. destruct (spf_frontier _ _ _ HL _ _ _ _ _ _ H HR Hu) as [|(p & w & Hp & _)]; [done|]. rewrite Hq in Hp. by apply elem_of_nil in Hp. }
    assert (forall p w, vertices st' !! p = Some w -> shortest L r (m_vertexId w) (m_distanceFromRoot w) /\
       forall e, e ∈ m_ecmpRootExits w <-> first_hop L r ifc (m_vertexId w) e) as Htree.
    { intros p w Hw. destruct (ti_tree _ _ _ _ _ _ _ H p w Hw) as (T1 & _ & T2); [|done]. rewrite Hq. apply not_elem_of_nil. }
    split; [|split; [done|]].
    + intros u. split.
      * intros [c Hc%Hreach]. destruct (done_vertex _ _ _ _ _ _ _ _ H Hc) as (p & w & Hw & E & _). by exists p, w.
      * intros (p & w & Hw & <-). exists (m_distanceFromRoot w). apply (Htree p w Hw).
    + destruct Hroutes as (_ & gr & G1 & G2 & G3). exists gr. split; [done|]. split; [done|]. intros entry. rewrite G2.
      split; (intros [?|(w & l & e & Hr)]; [by left|right; exists w, l, e]); [apply Hr|]. split; [|done].
      destruct Hr as (_ & _ & Hf & _). apply hop_way in Hf as [c Hc]. by eapply Hreach.
Qed.

(** ** A test for [p2p_lsdb] *)

Definition record_ok (L : stdmap Ipv4Address GlobalRoutingLSA) (r u : Ipv4Address) (l : GlobalRoutingLinkRecord) : Prop :=
  m_linkType l = StubNetwork \/ (m_linkType l = PointToPoint /\ (1 <= m_metric l <= 65535 /\ is_Some (map_find (m_linkId l) L)) /\
    (u <> r \/ is_Some (back L r (m_linkId l)))).
Definition lsa_ok (L : stdmap Ipv4Address GlobalRoutingLSA) (r : Ipv4Address) (i : Ipv4Address * GlobalRoutingLSA) : Prop :=
  (m_lsType i.2 = RouterLSA /\ m_linkStateId i.2 = i.1) /\ Forall (record_ok L r i.1) (m_linkRecords i.2).

#[export] Instance record_ok_dec L r u l : Decision (record_ok L r u l).
Proof. unfold record_ok. apply _. Defined.
#[export] Instance lsa_ok_dec L r i : Decision (lsa_ok L r i).
Proof. unfold lsa_ok. apply _. Defined.

Definition p2p_lsdb_b (L : stdmap Ipv4Address GlobalRoutingLSA) (r : Ipv4Address) : bool :=
  map_wf_b L && bool_decide (is_Some (map_find r L)) && (Z.of_nat (length L) * 65535 <? 2 ^ 32) && bool_decide (Forall (lsa_ok L r) L).

Lemma p2p_lsdb_b_spec L r : p2p_lsdb_b L r = true -> p2p_lsdb L r.
Proof.
  unfold p2p_lsdb_b. rewrite !andb_true_iff, !bool_decide_eq_true, Z.ltb_lt, Forall_forall.
  intros (((Hwf%map_wf_b_spec & Hroot) & Hsmall) & Hall).
  assert (forall u l, recs L u l -> record_ok L r u l) as Hrec.
  { intros u l (lsa & Hu%map_find_elem & Hl). destruct (Hall _ Hu) as [_ Hrs]. rewrite Forall_forall in Hrs. by apply Hrs. }
  split; [done..| | | |].
  - intros u lsa Hu%map_find_elem. apply (Hall _ Hu).
  - intros u l [?|[? _]]%Hrec; [by left|by right].
  - intros u l w (Hl%Hrec & Ht & <-). destruct Hl as [|(_ & ? & _)]; [congruence|done].
  - intros l w (Hl%Hrec & Ht & <-). destruct Hl as [|(_ & _ & [?|?])]; [congruence|done|done].
Qed.

(** ** Example: the four routers of the unit test in
    global-route-manager-impl.cc, with a second way from router 0 to router 3 *)

Definition p2p_record (id data : Z) (metric : Z) : GlobalRoutingLinkRecord := mkLinkRecord id data PointToPoint metric.
Definition stub_record (id : Z) : GlobalRoutingLinkRecord := mkLinkRecord id 0xfffffffc StubNetwork 1.
Definition router_lsa (id : Z) (records : list GlobalRoutingLinkRecord) : GlobalRoutingLSA :=
  mkLSA RouterLSA id id records GetZero [] LSA_SPF_NOT_EXPLORED id.

Definition example_lsdb : stdmap Ipv4Address GlobalRoutingLSA := [
  (0, router_lsa 0 [p2p_record 2 0x0a010101 1; stub_record 0x0a010101; p2p_record 1 0x0a010401 1]);
  (1, router_lsa 1 [p2p_record 3 0x0a010201 1; p2p_record 0 0x0a010402 1]);
  (2, router_lsa 2 [p2p_record 0 0x0a010102 1; p2p_record 3 0x0a010302 1]);
  (3, router_lsa 3 [p2p_record 2 0x0a010301 1; p2p_record 1 0x0a010202 1; stub_record 0x0a010301]);
  (4, router_lsa 4 [stub_record 0x0a010501])].

Definition example_ifc (a : Ipv4Address) : Z := if a =? 0x0a010101 then 1 else if a =? 0x0a010401 then 2 else -1.
Definition example_spf : Spf :=
  mkSpf (mkLSDB example_lsdb []) ∅ 0 None []
    [mkGNode (Some 0) [] (Some Global.MakeIpv4GlobalRouting) (Some (fun a _ => example_ifc a)) true].

Lemma spf_shortest_paths_witness :
  exists v st1 st', plant 0 example_spf = Ok (v, st1, []) /\ spf_loop Nat.ltb 5 v st1 = Ok (tt, st', []) /\
    (exists p w, vertices st' !! p = Some w /\ m_vertexId w = 3) /\
    exists gr, tables_of 0 (NodeList st') = Some gr /\ map GetGateway (filter (fun e => GetDest e = 0x0a010202) (Global.m_hostRoutes gr)) =
      [0x0a010102; 0x0a010402].
Proof.
  destruct (spf_shortest_paths example_lsdb 0 example_ifc Nat.ltb example_spf Global.MakeIpv4GlobalRouting)
    as (v & st1 & st' & H1 & H2 & _ & H3 & _ & _).
  - apply p2p_lsdb_b_spec. vm_compute. reflexivity.
  - reflexivity.
  - reflexivity.
  - reflexivity.
  - intros a. reflexivity.
  - exists v, st1, st'. split; [exact H1|]. assert (length (m_database (m_lsdb st1)) = 5%nat) as E.
    { vm_compute in H1. injection H1 as _ <-. reflexivity. }
    rewrite E in H2. split; [exact H2|]. split.
    + apply (H3 3). exists (0 + 1 + 1).
      apply (way_link example_lsdb 0 1 (p2p_record 3 0x0a010201 1)).
      * apply (way_link example_lsdb 0 0 (p2p_record 1 0x0a010401 1)); [apply way_root|].
        split; [|split; reflexivity]. exists (router_lsa 0 [p2p_record 2 0x0a010101 1; stub_record 0x0a010101; p2p_record 1 0x0a010401 1]).
        split; [reflexivity|]. right. right. left.
      * split; [|split; reflexivity]. exists (router_lsa 1 [p2p_record 3 0x0a010201 1; p2p_record 0 0x0a010402 1]).
        split; [reflexivity|]. left.
    + vm_compute in H1. injection H1 as <- <-. vm_compute in H2. injection H2 as <-. eexists. split; reflexivity.
Defined.
