(* ===== verification/GlobalRoutes.v ===== *)
(** * GlobalRoutes: all routes of global routing

    The whole of [SPFCalculate] on router advertisements with point-to-point
    links: after the tree of GlobalSpfResult come the routes to stub networks
    and to external networks, and the tree is freed. *)

From stdpp Require Import gmap.
From S2P Require Import Prelude StdMap Ipv4Address Node StaticRouting GlobalRouting GlobalLsdb GlobalSpf GlobalPaths GlobalTree GlobalSpfSpec GlobalSpfResult.

(** ** The tree that the loop leaves *)

(** How many vertices are farther from the root. *)
Definition farther (h : gmap nat SPFVertex) (v : SPFVertex) : gmap nat SPFVertex :=
  filter (fun i => m_distanceFromRoot v < m_distanceFromRoot i.2) h.
Definition depth_rank (h : gmap nat SPFVertex) (p : nat) : nat :=
  match h !! p with Some v => size (farther h v) | None => 0%nat end.

Lemma depth_rank_lt h c w p v : h !! c = Some w -> h !! p = Some v -> m_distanceFromRoot v < m_distanceFromRoot w ->
  (depth_rank h c < depth_rank h p)%nat.
Proof.
  intros Hc Hp Hlt. unfold depth_rank. rewrite Hc, Hp. apply map_subset_size, map_subset_alt. split.
  - apply map_subseteq_spec. intros x y [Hx Hd]%map_lookup_filter_Some. apply map_lookup_filter_Some. cbn in *. split; [done|lia].
  - exists c. split.
    + apply eq_None_not_Some. intros [y [Hy Hd]%map_lookup_filter_Some]. cbn in Hd. assert (y = w) as -> by congruence. lia.
    + exists w. by apply map_lookup_filter_Some.
Qed.

Lemma depth_rank_size h c : is_Some (h !! c) -> (depth_rank h c < size h)%nat.
Proof.
  intros [w Hc]. unfold depth_rank. rewrite Hc. apply map_subset_size, map_subset_alt. split; [apply map_filter_subseteq|].
  exists c. split; [|by exists w]. apply eq_None_not_Some. intros [y [Hy Hd]%map_lookup_filter_Some]. cbn in Hd.
  assert (y = w) as -> by congruence. lia.
Qed.

(** ** Adding routes *)

Definition grow_hosts l gr := Global.set_hostRoutes (Global.m_hostRoutes gr ++ l) gr.
Definition grow_networks l gr := Global.set_networkRoutes (Global.m_networkRoutes gr ++ l) gr.
Definition grow_externals l gr := Global.set_ASexternalRoutes (Global.m_ASexternalRoutes gr ++ l) gr.
Definition grow (external : bool) : list Ipv4RoutingTableEntry -> Global.GlobalState -> Global.GlobalState :=
  if external then grow_externals else grow_networks.

Lemma grow_nil b gr : grow b [] gr = gr.
Proof. destruct b, gr; unfold grow, grow_externals, grow_networks; by rewrite app_nil_r. Qed.

Lemma grow_app b l1 l2 gr : grow b l2 (grow b l1 gr) = grow b (l1 ++ l2) gr.
Proof. destruct b, gr; unfold grow, grow_externals, grow_networks; cbn; by rewrite <- app_assoc. Qed.

(** The routes to a network over [exits]. *)
Definition network_routes (network : Ipv4Address) (mask : Ipv4Mask) (exits : list NodeExit) : list Ipv4RoutingTableEntry :=
  map (fun e => CreateNetworkRouteTo (CombineMask network mask) mask e.1 e.2) (filter (fun e => 0 <= e.2) exits).

Lemma elem_network_routes network mask exits entry : entry ∈ network_routes network mask exits <->
  exists e, e ∈ exits /\ 0 <= e.2 /\ entry = CreateNetworkRouteTo (CombineMask network mask) mask e.1 e.2.
Proof.
  unfold network_routes. rewrite list_elem_of_In, in_map_iff. split.
  - intros (e & <- & He%list_elem_of_In). apply list_elem_of_filter in He as [H1 H2]. by exists e.
  - intros (e & H1 & H2 & ->). exists e. split; [done|]. by apply list_elem_of_In, list_elem_of_filter.
Qed.

Lemma add_network_ok external network mask v gr n : gn_routing n = Some gr ->
  add_network external network mask v n =
  Ok (set_routing (grow external (network_routes network mask (m_ecmpRootExits v)) gr) n).
Proof.
  intros Hn. unfold add_network, add_routes. rewrite Hn. cbn [or_fault mbind result_bind]. do 2 f_equal.
  unfold add_exits, network_routes. generalize (m_ecmpRootExits v) as exits. clear Hn. intros exits. revert gr.
  induction exits as [|e exits IH]; intros gr; cbn [foldl]; [symmetry; apply grow_nil|].
  rewrite IH, filter_cons. destruct (Z.leb_spec 0 e.2); [rewrite decide_True by done|by rewrite decide_False by lia].
  cbn [map]. by destruct external; cbn; unfold Global.AddASExternalRouteTo, Global.AddNetworkRouteTo, grow_externals, grow_networks, Global.set_ASexternalRoutes, Global.set_networkRoutes; cbn; rewrite <- app_assoc.
Qed.

Section routes.
Context (L : stdmap Ipv4Address GlobalRoutingLSA) (r : Ipv4Address) (ifc : Ipv4Address -> Z).
Context (HL : p2p_lsdb L r).
Notation inv := (tree_inv L r ifc).

Lemma finished_rooted done R D st p0 rv : inv done R D st -> candidate st = [] -> family (vertices st) [] ->
  m_spfroot st = Some p0 -> vertices st !! p0 = Some rv -> m_vertexId rv = r ->
  rooted (vertices st) p0 (depth_rank (vertices st)).
Proof using.
  intros H Hq Hf Hp0 Hrv Hid. split.
  - by exists rv.
  - intros p v Hv. by apply (ti_vertex _ _ _ _ _ _ _ H p v Hv).
  - intros p v c Hv. destruct (Hf p v Hv) as [_ F]. rewrite F. split; [intros (w & Hw & Hpw & _)|intros (w & Hw & Hpw)]; exists w; [done|].
    split_and!; [done|done|apply not_elem_of_nil].
  - intros c w p Hw Hp. destruct (ti_vertex _ _ _ _ _ _ _ H c w Hw) as (_ & _ & _ & V & _).
    destruct (V p Hp) as (v & Hv & _ & Hlt). split; [by exists v|]. by eapply depth_rank_lt.
  - intros c w Hw Hp. destruct (ti_vertex _ _ _ _ _ _ _ H c w Hw) as (_ & _ & _ & _ & V).
    apply (ti_unique _ _ _ _ _ _ _ H c p0 w rv); [done|done|]. by rewrite (V Hp).
  - apply depth_rank_size.
Qed.

(** ** The root's node *)

Definition nodes_ok (gr : Global.GlobalState) (l : list GNode) : Prop :=
  tables_of r l = Some gr /\ forall a, find_outgoing r a Mask_GetOnes l = Ok (ifc a).

Lemma at_root_ok st p0 rv gr gr' f : m_spfroot st = Some p0 -> vertices st !! p0 = Some rv -> m_vertexId rv = r ->
  nodes_ok gr (NodeList st) -> (forall n, gn_routing n = Some gr -> f n = Ok (set_routing gr' n)) ->
  exists l, at_root false f st = Ok (tt, set_NodeList l st, []) /\ nodes_ok gr' l.
Proof using.
  intros Hp0 Hrv Hid [Hgr Hifc] Hf. unfold at_root. rewrite run_get, (run_lift _ _ _ p0) by by rewrite Hp0.
  rewrite (run_bind _ _ _ _ _ (vertex_ok _ _ _ Hrv)), Hid.
  destruct (at_router_first r f (NodeList st) gr gr' 0 (ifc 0)) as (l & L1 & L2 & L3); [done|done|done|].
  rewrite (run_lift _ _ _ _ L1). exists l. split; [done|]. split; [done|]. intros a. by rewrite L3.
Qed.

(** Whatever walk is under way: the tree is that of [h0], and so on. *)
Section env.
Context (h0 : gmap nat SPFVertex) (db : LSDB) (p0 : nat) (rv0 : SPFVertex) (rank : nat -> nat).
Context (HT : rooted h0 p0 rank) (Hrv0 : h0 !! p0 = Some rv0) (Hid0 : m_vertexId rv0 = r).
(** Every vertex stands for a router of the database. *)
Context (Hdb : forall x v, h0 !! x = Some v -> exists lsa, GetLSA (m_lsa v) db = Some lsa /\ m_linkStateId lsa = m_vertexId v /\
  forall l, l ∈ m_linkRecords lsa <-> recs L (m_vertexId v) l).

Record env (gr : Global.GlobalState) (st : Spf) : Prop := {
  en_tree : same_tree h0 (vertices st);
  en_db : m_lsdb st = db;
  en_root : m_spfroot st = Some p0;
  en_nodes : nodes_ok gr (NodeList st)
}.

Lemma env_marks gr st h : env gr st -> same_tree h0 h -> env gr (set_vertices h st).
Proof using. intros [] Hh. by split. Qed.

(** Routes to a network over the exits of the vertex [v], unless it is the root. *)
Definition routes_over (v : SPFVertex) (network : Ipv4Address) (mask : Ipv4Mask) : list Ipv4RoutingTableEntry :=
  if m_vertexId v =? r then [] else network_routes network mask (m_ecmpRootExits v).

Lemma install_ok external network mask p v0 gr st : env gr st -> h0 !! p = Some v0 ->
  exists st', (vv ← vertex p; local ← at_local_host vv;
    if local : bool then mret tt else at_root false (add_network external network mask vv)) st = Ok (tt, st', []) /\
    env (grow external (routes_over v0 network mask) gr) st' /\ vertices st' = vertices st.
Proof using Hrv0 Hid0.
  intros [E1 E2 E3 E4] Hp. destruct (same_tree_lookup _ _ _ _ E1 Hp) as (v & Hv & (_ & _ & _ & F)%unmark_fields).
  destruct (core_fields _ _ F) as (_ & Fid & _ & _ & Fex & _).
  destruct (same_tree_lookup _ _ _ _ E1 Hrv0) as (rv & Hrv & (_ & _ & _ & Fr)%unmark_fields).
  destruct (core_fields _ _ Fr) as (_ & Frid & _).
  rewrite (run_bind _ _ _ _ _ (vertex_ok _ _ _ Hv)).
  rewrite (run_bind (at_local_host v) _ st (m_vertexId v =? r) st).
  2: { unfold at_local_host. rewrite run_get, (run_lift _ _ _ p0) by by rewrite E3.
       rewrite (run_bind _ _ _ _ _ (vertex_ok _ _ _ Hrv)). by rewrite Frid, Hid0. }
  unfold routes_over. rewrite <- Fid, <- Fex. destruct (m_vertexId v =? r).
  - exists st. rewrite grow_nil. split; [done|]. by split.
  - destruct (at_root_ok st p0 rv gr (grow external (network_routes network mask (m_ecmpRootExits v)) gr)
      (add_network external network mask v)) as (l & A1 & A2); [done|done|congruence|done| |].
    { intros n. apply add_network_ok. }
    exists (set_NodeList l st). split; [done|]. split; [|done]. by split.
Qed.

Lemma lsa_of_env p v0 gr st : env gr st -> h0 !! p = Some v0 ->
  exists lsa, lsa_of p st = Ok (lsa, st, []) /\ m_linkStateId lsa = m_vertexId v0 /\
    forall l, l ∈ m_linkRecords lsa <-> recs L (m_vertexId v0) l.
Proof using Hdb.
  intros [E1 E2 E3 E4] Hp. destruct (same_tree_lookup _ _ _ _ E1 Hp) as (v & Hv & (_ & _ & _ & F)%unmark_fields).
  destruct (core_fields _ _ F) as (_ & _ & Flsa & _). destruct (Hdb p v0 Hp) as (lsa & D1 & D2 & D3). exists lsa.
  split; [|done]. apply (lsa_of_ok _ _ v); [done|]. by rewrite Flsa, E2.
Qed.

(** ** One walk *)

(** A visit adds routes, [route v] for the vertex [v]. *)
Definition visit_adds (external : bool) (route : SPFVertex -> Ipv4RoutingTableEntry -> Prop) (visit : nat -> M unit) : Prop :=
  forall gr st p v0, env gr st -> h0 !! p = Some v0 ->
  exists st' new, visit p st = Ok (tt, st', []) /\ env (grow external new gr) st' /\ vertices st' = vertices st /\
    forall e, e ∈ new <-> route v0 e.

Lemma walk_routes external route visit gr st : visit_adds external route visit -> env gr st -> (forall x, ~ marked (vertices st) x) ->
  exists st' new, walk_tree visit (size h0) p0 st = Ok (tt, st', []) /\ env (grow external new gr) st' /\
    forall e, e ∈ new <-> exists x v0, h0 !! x = Some v0 /\ route v0 e.
Proof using HT.
  intros Hvisit Henv Hm.
  set (J := fun (o : list nat) st => exists new, env (grow external new gr) st /\
    forall e, e ∈ new <-> exists x v0, x ∈ o /\ h0 !! x = Some v0 /\ route v0 e).
  destruct (walk_all h0 p0 rank HT visit J) with (st := st) as (st' & o & W1 & (new & W2 & W3) & _ & W4); [| | |apply Henv|done|].
  - intros o s h (new & E & Hnew) _ Hh. exists new. split; [by apply env_marks|done].
  - intros o v s (new & E & Hnew) _ [v0 Hv0] _. destruct (Hvisit _ _ _ _ E Hv0) as (s' & new' & V1 & V2 & V3 & V4).
    exists s'. split; [done|]. split; [|done]. exists (new ++ new'). rewrite <- grow_app. split; [done|].
    intros e. rewrite elem_of_app, Hnew, V4. split.
    + intros [(x & w & Hx & Hw & He)|He]; [exists x, w; split; [by right|done]|exists v, v0; split; [by left|done]].
    + intros (x & w & [->|Hx]%elem_of_cons & Hw & He); [right; congruence|left; by exists x, w].
  - exists []. rewrite grow_nil. split; [done|]. intros e. split; [by intros ?%elem_of_nil|by intros (x & v & ?%elem_of_nil & _)].
  - exists st', new. split; [done|]. split; [done|]. intros e. rewrite W3. split; [intros (x & v & _ & Hr)|intros (x & v & Hv & Hr)]; exists x, v; [done|].
    split; [apply W4; by exists v|done].
Qed.

Definition stub_routes (v : SPFVertex) (e : Ipv4RoutingTableEntry) : Prop :=
  exists l, recs L (m_vertexId v) l /\ m_linkType l = StubNetwork /\ e ∈ routes_over v (m_linkId l) (m_linkData l).

Lemma visit_stubs_adds : visit_adds false stub_routes visit_stubs.
Proof using Hdb Hid0 Hrv0.
  intros gr st p v0 Henv Hp. destruct (lsa_of_env _ _ _ _ Henv Hp) as (lsa & L1 & _ & L3). unfold visit_stubs.
  rewrite (run_bind _ _ _ _ _ L1).
  destruct (run_loop (fun (pre : list _) s => exists new, env (grow false new gr) s /\ vertices s = vertices st /\
      forall e, e ∈ new <-> exists l, l ∈ pre /\ m_linkType l = StubNetwork /\ e ∈ routes_over v0 (m_linkId l) (m_linkData l))
    (fun l => if decide (m_linkType l = StubNetwork) then SPFIntraAddStub l p else mret tt) (m_linkRecords lsa) st)
    as (st' & F1 & new & F2 & F3 & F4).
  - intros pre l post s _ (new & I1 & I2 & I3). case_decide as Ht.
    + destruct (install_ok false (m_linkId l) (m_linkData l) p v0 _ s I1 Hp) as (s' & V1 & V2 & V3).
      exists s'. split; [done|]. exists (new ++ routes_over v0 (m_linkId l) (m_linkData l)). rewrite <- grow_app.
      split; [done|]. split; [congruence|]. intros e. rewrite elem_of_app, I3. split.
      * intros [(l' & Hl' & H)|H]; [exists l'|exists l]; (split; [apply elem_of_app|done]); [by left|right; by left].
      * intros (l' & [Hl'| ->%list_elem_of_singleton]%elem_of_app & H1 & H2); [left; by exists l'|by right].
    + exists s. split; [done|]. exists new. split; [done|]. split; [done|]. intros e. rewrite I3. split.
      * intros (l' & Hl' & H). exists l'. split; [apply elem_of_app; by left|done].
      * intros (l' & [Hl'| ->%list_elem_of_singleton]%elem_of_app & H1 & H2); [by exists l'|done].
  - exists []. rewrite grow_nil. split; [done|]. split; [done|]. intros e.
    split; [by intros ?%elem_of_nil|by intros (x & ?%elem_of_nil & _)].
  - exists st', new. split; [done|]. split; [done|]. split; [done|]. intros e. rewrite F4. unfold stub_routes.
    split; intros (l & Hl & H); exists l; (split; [by apply L3|done]).
Qed.

Definition external_routes (extlsa : GlobalRoutingLSA) (v : SPFVertex) (e : Ipv4RoutingTableEntry) : Prop :=
  m_vertexId v = m_advertisingRtr extlsa /\ e ∈ routes_over v (m_linkStateId extlsa) (m_networkLSANetworkMask extlsa).

Lemma visit_external_adds extlsa : visit_adds true (external_routes extlsa) (visit_external extlsa).
Proof using Hdb Hid0 Hrv0.
  intros gr st p v0 Henv Hp. destruct (lsa_of_env _ _ _ _ Henv Hp) as (lsa & L1 & L2 & _). unfold visit_external.
  rewrite (run_bind _ _ _ _ _ L1), L2. unfold external_routes. destruct (Z.eqb_spec (m_vertexId v0) (m_advertisingRtr extlsa)) as [E|E].
  - destruct (install_ok true (m_linkStateId extlsa) (m_networkLSANetworkMask extlsa) p v0 _ st Henv Hp)
      as (st' & V1 & V2 & V3).
    eexists st', _. split; [done|]. split; [done|]. split; [done|]. intros e. split; [done|by intros [_ ?]].
  - exists st, []. rewrite grow_nil. split; [done|]. split; [done|]. split; [done|]. intros e.
    split; [by intros ?%elem_of_nil|by intros [? _]].
Qed.

(** ** All external advertisements *)

Lemma externals_ok exts gr st : env gr st ->
  exists st' new, for_loop exts (fun extlsa => _ ← ClearVertexProcessed (size h0) p0; ProcessASExternals extlsa (size h0) p0) st =
    Ok (tt, st', []) /\ env (grow true new gr) st' /\
    forall e, e ∈ new <-> exists extlsa x v0, extlsa ∈ exts /\ h0 !! x = Some v0 /\ external_routes extlsa v0 e.
Proof using HT Hdb Hid0 Hrv0.
  intros Henv. destruct (run_loop (fun (pre : list _) s => exists new, env (grow true new gr) s /\
      forall e, e ∈ new <-> exists extlsa x v0, extlsa ∈ pre /\ h0 !! x = Some v0 /\ external_routes extlsa v0 e)
    (fun extlsa => _ ← ClearVertexProcessed (size h0) p0; ProcessASExternals extlsa (size h0) p0) exts st)
    as (st' & F1 & new & F2 & F3); [| |by exists st', new].
  - intros pre ext post s _ (new & I1 & I2). destruct (clear_all h0 p0 rank HT s) as (h & C1 & C2 & C3); [apply I1|].
    rewrite (run_bind _ _ _ _ _ C1).
    destruct (walk_routes true (external_routes ext) (visit_external ext) (grow true new gr) (set_vertices h s))
      as (s' & new' & W1 & W2 & W3); [apply visit_external_adds|by apply env_marks|done|].
    exists s'. split; [done|]. exists (new ++ new'). rewrite <- grow_app. split; [done|]. intros e. rewrite elem_of_app, I2, W3. split.
    + intros [(x & y & z & Hx & H)|(y & z & H)]; [exists x, y, z|exists ext, y, z]; (split; [apply elem_of_app|done]); [by left|right; by left].
    + intros (x & y & z & [Hx| ->%list_elem_of_singleton]%elem_of_app & H); [left; by exists x, y, z|right; by exists y, z].
  - exists []. rewrite grow_nil. split; [done|]. intros e.
    split; [by intros ?%elem_of_nil|by intros (x & y & z & ?%elem_of_nil & _)].
Qed.
End env.
End routes.

(** ** The whole calculation *)

(** The routes over the first hops of a router [w]. *)
Definition hop_routes (L : stdmap Ipv4Address GlobalRoutingLSA) (r : Ipv4Address) (ifc : Ipv4Address -> Z) (w : Ipv4Address)
    (route : NodeExit -> Ipv4RoutingTableEntry) (entry : Ipv4RoutingTableEntry) : Prop :=
  exists e, first_hop L r ifc w e /\ 0 <= e.2 /\ entry = route e.

(** Every vertex of a finished tree has the first hops of its router as exits. *)
Lemma tree_routes L r ifc done R D st network mask w entry : p2p_lsdb L r -> tree_inv L r ifc done R D st -> complete L done R ->
  candidate st = [] ->
  (exists x v, vertices st !! x = Some v /\ m_vertexId v = w /\ entry ∈ routes_over r v network mask) <->
  hop_routes L r ifc w (fun e => CreateNetworkRouteTo (CombineMask network mask) mask e.1 e.2) entry.
Proof.
  intros HL H HR Hq. assert (forall x v, vertices st !! x = Some v -> forall e, e ∈ m_ecmpRootExits v <-> first_hop L r ifc (m_vertexId v) e) as Hex.
  { intros x v Hv. apply (ti_tree _ _ _ _ _ _ _ H x v Hv). rewrite Hq. apply not_elem_of_nil. }
  unfold routes_over, hop_routes. split.
  - intros (x & v & Hv & <- & He). destruct (m_vertexId v =? r); [by apply elem_of_nil in He|].
    apply elem_network_routes in He as (e & He & Hpos & ->). exists e. by rewrite <- (Hex x v Hv).
  - intros (e & He & Hpos & ->). destruct (hop_way _ _ _ _ _ He) as [c Hc].
    destruct (spf_frontier _ _ _ HL _ _ _ _ _ _ H HR Hc) as [Hin|(p & v & Hp & _)]; [|rewrite Hq in Hp; by apply elem_of_nil in Hp].
    destruct (done_vertex _ _ _ _ _ _ _ _ H Hin) as (x & v & Hv & Hid & _). exists x, v. split; [done|]. split; [done|].
    rewrite Hid. destruct (Z.eqb_spec w r) as [->|_]; [by destruct (root_no_hop L r ifc HL e)|].
    apply elem_network_routes. exists e. by rewrite (Hex x v Hv), Hid.
Qed.

Lemma stub_check_false L r st : m_database (m_lsdb st) = L -> forall lsa, GetLSA r (m_lsdb st) = Some lsa ->
  (1 < length (filter (fun l => is_transit l = true) (m_linkRecords lsa)))%nat ->
  CheckForStubNode r st = Ok (false, st, []).
Proof.
  intros HL lsa Hlsa Hlen. unfold CheckForStubNode.
  rewrite (run_bind (lsa_at r NullDeref) _ st lsa st) by (unfold lsa_at; rewrite run_get; unfold lift; by rewrite Hlsa).
  destruct (filter _ (m_linkRecords lsa)) as [|l [|l' ls]]; cbn in Hlen; [lia|lia|done].
Qed.

(** The tables that the calculation makes of [gr0]: exactly a host route for
    every address at a link of another router, a network route for every stub
    network of another router and an external route for every external
    advertisement of another router are added, each over each first hop of the
    shortest paths to that router that has an interface. *)
Record global_routes (L : stdmap Ipv4Address GlobalRoutingLSA) (r : Ipv4Address) (ifc : Ipv4Address -> Z)
    (exts : list GlobalRoutingLSA) (gr0 gr : Global.GlobalState) : Prop := {
  gt_hosts entry : entry ∈ Global.m_hostRoutes gr <-> entry ∈ Global.m_hostRoutes gr0 \/
    exists w l, recs L w l /\ m_linkType l = PointToPoint /\
      hop_routes L r ifc w (fun e => CreateHostRouteTo (m_linkData l) e.1 e.2) entry;
  gt_networks entry : entry ∈ Global.m_networkRoutes gr <-> entry ∈ Global.m_networkRoutes gr0 \/
    exists w l, recs L w l /\ m_linkType l = StubNetwork /\ hop_routes L r ifc w (fun e =>
      CreateNetworkRouteTo (CombineMask (m_linkId l) (m_linkData l)) (m_linkData l) e.1 e.2) entry;
  gt_externals entry : entry ∈ Global.m_ASexternalRoutes gr <-> entry ∈ Global.m_ASexternalRoutes gr0 \/
    exists ext, ext ∈ exts /\ hop_routes L r ifc (m_advertisingRtr ext) (fun e =>
      CreateNetworkRouteTo (CombineMask (m_linkStateId ext) (m_networkLSANetworkMask ext)) (m_networkLSANetworkMask ext)
        e.1 e.2) entry;
  gt_random : Global.m_randomEcmpRouting gr = Global.m_randomEcmpRouting gr0;
  gt_ipv4 : Global.m_ipv4 gr = Global.m_ipv4 gr0
}.

(** A state to calculate from, for the router [r] with two such links or more. *)
Record ready (L : stdmap Ipv4Address GlobalRoutingLSA) (r : Ipv4Address) (ifc : Ipv4Address -> Z) (gr0 : Global.GlobalState)
    (st : Spf) : Prop := {
  rd_db : m_database (m_lsdb st) = L;
  rd_vertices : vertices st = ∅;
  rd_tables : tables_of r (NodeList st) = Some gr0;
  rd_interfaces a : find_outgoing r a Mask_GetOnes (NodeList st) = Ok (ifc a);
  rd_transit lsa : map_find r L = Some lsa -> (1 < length (filter (fun l => is_transit l = true) (m_linkRecords lsa)))%nat
}.

Lemma no_stub_check L r ifc st done R D : p2p_lsdb L r -> tree_inv L r ifc done R D st ->
  (forall lsa, map_find r L = Some lsa -> (1 < length (filter (fun l => is_transit l = true) (m_linkRecords lsa)))%nat) ->
  (match NodeList st with [] => mret false | _ => CheckForStubNode r end) st = Ok (false, st, []).
Proof.
  intros HL H Htransit. destruct (NodeList st) eqn:E; [done|]. destruct (pl_root _ _ HL) as [lsa0 H0].
  destruct (lsa_found _ _ _ HL _ _ _ _ _ _ H H0) as (lsa & F1 & _ & _ & _ & F3).
  apply (stub_check_false (m_database (m_lsdb st)) r st eq_refl lsa F1). rewrite F3. by apply Htransit.
Qed.

(** A finished tree: the advertisement each vertex has, and the tables with
    what the two walks over it add. *)
Section finished_tree.
Context (L : stdmap Ipv4Address GlobalRoutingLSA) (r : Ipv4Address) (ifc : Ipv4Address -> Z) (HL : p2p_lsdb L r).
Context (done : list Ipv4Address) (R : Ipv4Address -> GlobalRoutingLinkRecord -> Prop) (D : Z) (st2 : Spf).
Context (H : tree_inv L r ifc done R D st2) (HR : complete L done R) (Hq : candidate st2 = []).

Lemma tree_advertisement x v : vertices st2 !! x = Some v -> exists lsa, GetLSA (m_lsa v) (m_lsdb st2) = Some lsa /\
  m_linkStateId lsa = m_vertexId v /\ forall l, l ∈ m_linkRecords lsa <-> recs L (m_vertexId v) l.
Proof using HL H.
  intros Hx. destruct (ti_vertex _ _ _ _ _ _ _ H x v Hx) as (_ & E & Hs & _).
  destruct (status_find _ _ _ _ _ _ _ _ _ H Hs) as [lsa0 F0]. destruct (lsa_found _ _ _ HL _ _ _ _ _ _ H F0) as (lsa & F1 & _ & _ & F2 & F3).
  exists lsa. rewrite E. split_and!; [done|done|]. intros l. rewrite F3. unfold recs. split; [by exists lsa0|].
  intros (lsa1 & E1 & Hl). congruence.
Qed.

Lemma tree_tables gr0 gr new newx :
  (forall entry, entry ∈ Global.m_hostRoutes gr <-> entry ∈ Global.m_hostRoutes gr0 \/ host_route L r ifc done entry) ->
  gr = Global.set_hostRoutes (Global.m_hostRoutes gr) gr0 ->
  (forall e, e ∈ new <-> exists x v, vertices st2 !! x = Some v /\ stub_routes L r v e) ->
  (forall e, e ∈ newx <-> exists ext x v, ext ∈ m_extdatabase (m_lsdb st2) /\ vertices st2 !! x = Some v /\ external_routes r ext v e) ->
  global_routes L r ifc (m_extdatabase (m_lsdb st2)) gr0 (grow true newx (grow false new gr)).
Proof using HL H HR Hq.
  intros G2 G3 W3 X3. split; [intros entry..| |]; cbn.
  - rewrite G2. split; (intros [?|Hr]; [by left|right]).
    + destruct Hr as (w & l & e & _ & E1 & E2 & E3 & E4 & E5). exists w, l. split; [done|]. split; [done|]. by exists e.
    + destruct Hr as (w & l & E1 & E2 & e & E3 & E4 & E5). exists w, l, e. split_and!; try done.
      destruct (hop_way _ _ _ _ _ E3) as [c Hc].
      destruct (spf_frontier _ _ _ HL _ _ _ _ _ _ H HR Hc) as [|(p & y & Hp & _)]; [done|]. rewrite Hq in Hp. by apply elem_of_nil in Hp.
  - rewrite elem_of_app, W3. rewrite G3 at 1. cbn. apply or_iff_compat_l. split.
    + intros (x & y & Hy & l & E1 & E2 & E3). exists (m_vertexId y), l. split; [done|]. split; [done|].
      apply (tree_routes L r ifc done R D st2); [done..|]. by exists x, y.
    + intros (w & l & E1 & E2 & (x & y & E3 & <- & E4)%(tree_routes L r ifc done R D st2 _ _ _ _ HL H HR Hq)).
      exists x, y. split; [done|]. by exists l.
  - rewrite elem_of_app, X3. rewrite G3 at 1. cbn. apply or_iff_compat_l. split.
    + intros (ext & x & y & E1 & E2 & E3 & E4). exists ext. split; [done|].
      apply (tree_routes L r ifc done R D st2); [done..|]. by exists x, y.
    + intros (ext & E1 & (x & y & E3 & E4 & E5)%(tree_routes L r ifc done R D st2 _ _ _ _ HL H HR Hq)). by exists ext, x, y.
  - by rewrite G3.
  - by rewrite G3.
Qed.
End finished_tree.

Lemma SPFCalculate_ok L r ifc below st gr0 : p2p_lsdb L r -> ready L r ifc gr0 st ->
  exists st', SPFCalculate below r st = Ok (tt, st', []) /\ vertices st' = ∅ /\ m_spfroot st' = None /\
    exists gr, tables_of r (NodeList st') = Some gr /\ global_routes L r ifc (m_extdatabase (m_lsdb st)) gr0 gr.
Proof.
  intros HL [HLst Hvs Hgr Hifc Htransit].
  destruct (plant_ok L r ifc HL st HLst Hvs Hifc) as (v & st1 & P1 & P2 & P3 & P4 & [P5 P6] & P7 & _).
  destruct (spf_loop_ok L r ifc below HL gr0 (m_extdatabase (m_lsdb st)) (length L) [r] (fun _ _ => False) 0 st1 v r P2 P3)
    as (st2 & done & S1 & R & D & H & HR & Hq & (G0 & gr & G1 & G2 & G3) & Hfam).
  { by intros a l ->%list_elem_of_singleton. }
  { split; [done|]. exists gr0. rewrite P5. split; [done|]. split; [|by destruct gr0]. intros entry. split; [by left|].
    intros [?|(w & l & e & ->%list_elem_of_singleton & _ & _ & Hf & _)]; [done|]. by destruct (root_no_hop L r ifc HL e). }
  { done. }
  { cbn. lia. }
  destruct (ti_root _ _ _ _ _ _ _ H) as (p0 & rv & R1 & R2 & R3).
  pose proof (finished_rooted L r ifc done R D st2 p0 rv H Hq Hfam R1 R2 R3) as HT.
  set (h0 := vertices st2) in *. set (rank := depth_rank h0) in *.
  pose proof (tree_advertisement L r ifc HL done R D st2 H) as Hdb.
  assert (env r ifc h0 (m_lsdb st2) p0 gr st2) as Henv by (split; [done|done|done|split; [done|apply H]]).
  destruct (walk_routes r ifc h0 (m_lsdb st2) p0 rank HT false (stub_routes L r) visit_stubs gr st2) as (st3 & new & W1 & W2 & W3);
    [by apply (visit_stubs_adds L r ifc h0 (m_lsdb st2) p0 rv)|done| |].
  { intros x (y & Hy & Hm). destruct (Hfam x y Hy) as [F _]. congruence. }
  destruct (externals_ok L r ifc h0 (m_lsdb st2) p0 rv rank HT R2 R3 Hdb (m_extdatabase (m_lsdb st2)) _ st3 W2)
    as (st4 & newx & X1 & X2 & X3).
  exists (set_spfroot None (set_vertices ∅ st4)). split; [|split; [done|split; [done|]]].
  - unfold SPFCalculate. rewrite (run_bind _ _ _ _ _ P1), run_get.
    assert ((match NodeList st1 with [] => mret false | _ => CheckForStubNode r end) st1 = Ok (false, st1, [])) as Hstub
      by by eapply no_stub_check.
    rewrite (run_bind _ _ _ _ _ Hstub), P7, (run_bind _ _ _ _ _ S1), run_get, (run_lift _ _ _ p0) by by rewrite R1.
    fold h0. unfold SPFProcessStubs. rewrite (run_bind _ _ _ _ _ W1), (run_bind _ _ _ _ _ X1).
    rewrite (run_bind _ _ _ _ _ (delete_all h0 p0 rank HT st4 (en_tree _ _ _ _ _ _ _ X2))). done.
  - exists (grow true newx (grow false new gr)). split; [apply X2|]. rewrite <- G0.
    by apply (tree_tables L r ifc HL done R D st2 H HR Hq).
Qed.

(** (C10) On router advertisements with point-to-point links, for a router with
    two such links or more: the calculation ends, with every vertex it made
    freed, and adds to the tables of the root exactly the routes to the
    addresses, stub networks and external networks of the other routers, each
    over each first hop of the shortest paths to that router that has an
    interface. *)
Theorem spf_calculate L r ifc below st gr0 : p2p_lsdb L r -> ready L r ifc gr0 st ->
  exists st', SPFCalculate below r st = Ok (tt, st', []) /\ vertices st' = ∅ /\ m_spfroot st' = None /\
    exists gr, tables_of r (NodeList st') = Some gr /\ global_routes L r ifc (m_extdatabase (m_lsdb st)) gr0 gr.
Proof. intros HL Hst. by apply SPFCalculate_ok. Qed.

(** In the tables of a router that had no routes before: a lookup of an
    address at a link of another router, over whose first hops an interface is
    known, finds a route, and its gateway and interface are a first hop of a
    shortest path to a router with that address. *)
Theorem global_lookup_shortest L r ifc below st gr0 m_rand w l e : p2p_lsdb L r -> ready L r ifc gr0 st ->
  Global.m_hostRoutes gr0 = [] -> Global.m_randomEcmpRouting gr0 = false ->
  recs L w l -> m_linkType l = PointToPoint -> first_hop L r ifc w e -> 0 <= e.2 ->
  exists st' gr w' l' e', SPFCalculate below r st = Ok (tt, st', []) /\ tables_of r (NodeList st') = Some gr /\
    recs L w' l' /\ m_linkType l' = PointToPoint /\ m_linkData l' = m_linkData l /\ first_hop L r ifc w' e' /\ 0 <= e'.2 /\
    Global.LookupGlobal m_rand gr (m_linkData l) None =
      (route ← Global.make_route gr (CreateHostRouteTo (m_linkData l) e'.1 e'.2); Ok (Some route)).
Proof.
  intros HL Hst Hh0 Hrand Hl Ht He Hpos.
  destruct (SPFCalculate_ok L r ifc below st gr0 HL Hst) as (st' & H1 & _ & _ & gr & H2 & [G1 _ _ G2 _]).
  assert (forall entry, entry ∈ Global.m_hostRoutes gr -> exists w' l' e', recs L w' l' /\ m_linkType l' = PointToPoint /\
    first_hop L r ifc w' e' /\ 0 <= e'.2 /\ entry = CreateHostRouteTo (m_linkData l') e'.1 e'.2) as Hhosts.
  { intros entry [Hin|(w' & l' & E1 & E2 & e' & E3 & E4 & E5)]%G1; [by rewrite Hh0, elem_of_nil in Hin|by exists w', l', e']. }
  set (mine := filter (fun x => GetDest x = m_linkData l) (Global.m_hostRoutes gr)).
  assert (CreateHostRouteTo (m_linkData l) e.1 e.2 ∈ mine) as Hmine.
  { apply list_elem_of_filter. split; [done|]. apply G1. right. exists w, l. split_and!; [done|done|by exists e]. }
  destruct mine as [|x xs] eqn:Emine; [by apply elem_of_nil in Hmine|].
  assert (x ∈ mine) as Hx by (rewrite Emine; by left). apply list_elem_of_filter in Hx as [Hdest Hx].
  destruct (Hhosts x Hx) as (w' & l' & e' & E1 & E2 & E3 & E4 & ->). exists st', gr, w', l', e'. split_and!; try done.
  rewrite Global.lookup_first; [|apply Forall_forall; intros y (w2 & l2 & e2 & _ & _ & _ & _ & ->)%Hhosts; done|congruence].
  unfold Global.entry_for. fold mine. rewrite Emine. cbn. by rewrite <- Hdest.
Qed.

Lemma delete_leaf st v rv : vertices st !! v = Some rv -> m_parents rv = [] -> m_children rv = [] ->
  delete_vertex 1 v st = Ok (tt, set_vertices (delete v (vertices st)) st, []).
Proof.
  intros Hv Hp Hc. cbn [delete_vertex]. rewrite (run_bind _ _ _ _ _ (vertex_ok _ _ _ Hv)), Hp, Hc.
  cbn [for_loop length delete_children]. rewrite (run_bind (mret tt) _ st tt st) by done.
  rewrite (run_bind (_ ← vertex v; _) _ st tt st); [done|]. by rewrite (run_bind _ _ _ _ _ (vertex_ok _ _ _ Hv)), Hc.
Qed.

(** A router with a single link to another gets a default route over it, and no
    tree is made.  An interface that is not found, -1, ends up in the table as
    4294967295. *)
Lemma stub_default_route L r ifc below st gr0 lsa l w_lsa lr n id : p2p_lsdb L r ->
  m_database (m_lsdb st) = L -> vertices st = ∅ -> (forall a, find_outgoing r a Mask_GetOnes (NodeList st) = Ok (ifc a)) ->
  map_find r L = Some lsa -> filter (fun l => is_transit l = true) (m_linkRecords lsa) = [l] ->
  map_find (m_linkId l) L = Some w_lsa -> record_back r (m_linkRecords w_lsa) = Some lr ->
  NodeList st !! Z.to_nat (m_node_id lsa) = Some n -> gn_router n = Some id -> gn_routing n = Some gr0 ->
  exists st', SPFCalculate below r st = Ok (tt, st', []) /\ vertices st' = ∅ /\
    NodeList st' = <[Z.to_nat (m_node_id lsa) :=
      set_routing (Global.AddNetworkRouteTo GetZero Mask_GetZero (m_linkData lr) (u32 (ifc (m_linkData l))) gr0) n]> (NodeList st).
Proof.
  intros HL HLst Hvs Hifc H0 Hl Hw Hlr Hn Hid Hgr.
  destruct (plant_ok L r ifc HL st HLst Hvs Hifc) as (v & st1 & P1 & P2 & _ & _ & [P5 _] & _ & rv & P8 & P9 & P10 & P11).
  destruct (lsa_found _ _ _ HL _ _ _ _ _ _ P2 H0) as (lsa1 & F1 & _ & _ & F2 & F3).
  destruct (lsa_found _ _ _ HL _ _ _ _ _ _ P2 Hw) as (lsa2 & W1 & _ & _ & _ & W3).
  assert (m_node_id lsa1 = m_node_id lsa) as Enode.
  { pose proof (ti_db _ _ _ _ _ _ _ P2 r) as E. rewrite F1, H0 in E. destruct lsa1, lsa. by injection E. }
  destruct (ti_root _ _ _ _ _ _ _ P2) as (p0 & rv0 & R1 & R2 & R3). assert (p0 = v) as -> by congruence.
  assert (m_linkType l = PointToPoint) as Ht.
  { assert (l ∈ filter (fun l => is_transit l = true) (m_linkRecords lsa)) as Hin by (rewrite Hl; by left).
    apply list_elem_of_filter in Hin as [Htr Hin]. destruct (pl_record _ _ HL r l) as [E|E]; [by exists lsa| |done].
    unfold is_transit in Htr. by rewrite E in Htr. }
  exists (set_vertices ∅ (set_NodeList (<[Z.to_nat (m_node_id lsa) :=
    set_routing (Global.AddNetworkRouteTo GetZero Mask_GetZero (m_linkData lr) (u32 (ifc (m_linkData l))) gr0) n]> (NodeList st)) st1)).
  split; [|split; [done|done]]. unfold SPFCalculate. rewrite (run_bind _ _ _ _ _ P1), run_get.
  erewrite (run_bind _ _ st1 true).
  2: { rewrite P5. destruct (NodeList st) as [|n0 ns] eqn:En; [done|]. rewrite <- En in *. unfold CheckForStubNode.
       rewrite (run_bind (lsa_at r NullDeref) _ st1 lsa1 st1) by (unfold lsa_at; rewrite run_get; unfold lift; by rewrite F1).
       cbv zeta. rewrite F3, Hl, Enode, F2. rewrite decide_True by done.
       rewrite (run_bind (lsa_at (m_linkId l) NullDeref) _ st1 lsa2 st1) by (unfold lsa_at; rewrite run_get; unfold lift; by rewrite W1).
       rewrite W3, Hlr, run_get, P5, (run_lift _ _ _ n) by by rewrite Hn.
       rewrite (run_lift _ _ _ id) by by rewrite Hid. rewrite (run_lift _ _ _ gr0) by by rewrite Hgr.
       rewrite (run_bind (FindOutgoingInterfaceId _ _) _ st1 (ifc (m_linkData l)) st1).
       2: { unfold FindOutgoingInterfaceId. rewrite run_get, (run_lift _ _ _ v) by by rewrite P9.
            rewrite (run_bind _ _ _ _ _ (vertex_ok _ _ _ R2)), R3, P5. unfold lift. by rewrite Hifc. }
       rewrite run_modify, P5. done. }
  cbv beta iota. rewrite (delete_leaf _ _ rv); [|cbn; by rewrite P8, lookup_singleton_eq|done|done].
  cbn. by rewrite P8, delete_singleton_eq.
Qed.

(** ** Example: router 0 of GlobalSpfResult's network; router 3 advertises
    11.0.0.0/8 *)

Definition example_external : GlobalRoutingLSA := mkLSA ASExternalLSAs 0x0b000000 3 [] 0xff000000 [] LSA_SPF_NOT_EXPLORED 3.
Definition example_calc : Spf := set_lsdb (mkLSDB example_lsdb [example_external]) example_spf.

Lemma example_ready : ready example_lsdb 0 example_ifc Global.MakeIpv4GlobalRouting example_calc.
Proof. split; [done..|]. intros lsa [= <-]. vm_compute. lia. Qed.

Lemma spf_calculate_witness :
  exists st' gr, SPFCalculate Nat.ltb 0 example_calc = Ok (tt, st', []) /\ vertices st' = ∅ /\
    tables_of 0 (NodeList st') = Some gr /\
    Global.m_networkRoutes gr = [mkEntry 0x0a010300 0xfffffffc 0x0a010102 1; mkEntry 0x0a010300 0xfffffffc 0x0a010402 2] /\
    Global.m_ASexternalRoutes gr = [mkEntry 0x0b000000 0xff000000 0x0a010102 1; mkEntry 0x0b000000 0xff000000 0x0a010402 2].
Proof.
  destruct (spf_calculate example_lsdb 0 example_ifc Nat.ltb example_calc Global.MakeIpv4GlobalRouting)
    as (st' & H1 & H2 & _ & gr & H3 & _).
  - apply p2p_lsdb_b_spec. vm_compute. reflexivity.
  - exact example_ready.
  - exists st', gr. split; [exact H1|]. split; [exact H2|]. split; [exact H3|].
    vm_compute in H1. injection H1 as <-. vm_compute in H3. injection H3 as <-. split; reflexivity.
Defined.

Lemma global_lookup_shortest_witness :
  exists st' gr e, SPFCalculate Nat.ltb 0 example_calc = Ok (tt, st', []) /\ tables_of 0 (NodeList st') = Some gr /\
    first_hop example_lsdb 0 example_ifc 2 e /\
    Global.LookupGlobal (fun _ => 0) gr 0x0a010102 None =
      (route ← Global.make_route gr (CreateHostRouteTo 0x0a010102 e.1 e.2); Ok (Some route)).
Proof.
  assert (p2p_lsdb example_lsdb 0) as HL by (apply p2p_lsdb_b_spec; vm_compute; reflexivity).
  assert (link example_lsdb 0 (p2p_record 2 0x0a010101 1) 2) as Hl.
  { split; [|split; reflexivity]. exists (router_lsa 0 [p2p_record 2 0x0a010101 1; stub_record 0x0a010101; p2p_record 1 0x0a010401 1]).
    split; [reflexivity|left]. }
  assert (first_hop example_lsdb 0 example_ifc 2 (0x0a010102, 1)) as Hhop.
  { apply (first_direct example_lsdb 0 example_ifc (p2p_record 2 0x0a010101 1) 2 (p2p_record 0 0x0a010102 1)); [exact Hl| |reflexivity].
    split; [apply (way_link example_lsdb 0 0 (p2p_record 2 0x0a010101 1) 2 0); [apply way_root|exact Hl]|].
    intros c Hc. inversion Hc as [|u l w c0 Hw Hlink]; subst. pose proof (way_nonneg _ _ HL _ _ Hw).
    destruct (pl_link _ _ HL _ _ _ Hlink) as [Hm _]. cbn. lia. }
  destruct (global_lookup_shortest example_lsdb 0 example_ifc Nat.ltb example_calc Global.MakeIpv4GlobalRouting (fun _ => 0)
    2 (p2p_record 0 0x0a010102 1) (0x0a010102, 1)) as (st' & gr & w' & l' & e' & H1 & H2 & H3 & H4 & H5 & H6 & H7 & H8).
  - exact HL.
  - exact example_ready.
  - reflexivity.
  - reflexivity.
  - exists (router_lsa 2 [p2p_record 0 0x0a010102 1; p2p_record 3 0x0a010302 1]). split; [reflexivity|left].
  - reflexivity.
  - exact Hhop.
  - cbn. lia.
  - exists st', gr, e'. split; [exact H1|]. split; [exact H2|]. split; [|exact H8].
    destruct H3 as (lsa & Hlsa & Hin). assert (w' = 2) as <-; [|exact H6].
    apply map_find_elem in Hlsa. cbn in H5.
    repeat (apply elem_of_cons in Hlsa as [Hlsa|Hlsa]; [injection Hlsa as -> ->;
      repeat (apply elem_of_cons in Hin as [Hin|Hin]; [subst l'; first [reflexivity|discriminate]|]);
      apply elem_of_nil in Hin; contradiction|]).
    apply elem_of_nil in Hlsa. contradiction.
Defined.
