(* ===== verification/GlobalDiscovery.v ===== *)
(** * GlobalDiscovery: how routers learn their links

    GlobalRouter of src/ns-3/src/routing/global-routing/
    global-router-interface.cc: a router walks from its devices over their
    channels to the other nodes and describes what it finds in advertisements;
    and the calls of ipv4-global-routing-helper.cc, which let all routers do so
    and compute their routes (GlobalSpf).  Devices are the numbers of Node.v,
    channels and nodes are the indices of lists; a node's stack is that of
    Ipv4Stack.  Channels and devices are abstract classes in the source; what
    is asked of them is a record here. *)

From stdpp Require Import gmap.
From S2P Require Import Prelude StdMap Ipv4Address Node StaticRouting Ipv4Stack GlobalRouting GlobalLsdb GlobalSpf.

(** ** The network *)

(** What a device answers; [dev_ports] are the ports of a bridge. *)
Record NetDev := mkNetDev {
  dev_node : nat;
  dev_channel : option nat;
  dev_IsBroadcast : bool;
  dev_IsPointToPoint : bool;
  dev_ports : option (list NetDevice)
}.

Record GlobalRouter := mkGlobalRouter {
  m_LSAs : list GlobalRoutingLSA;
  m_routerId : Ipv4Address;
  m_injectedRoutes : list Ipv4RoutingTableEntry;
  r_routingProtocol : option Global.GlobalState
}.

(** [GlobalRouteManager::AllocateRouterId]: the static counter [routerId]
    becomes the address; the second component is its next value. *)
Definition AllocateRouterId (routerId : Z) : Z * Z := (routerId, u32 (routerId + 1)).
Definition MakeGlobalRouter (routerId : Z) : GlobalRouter * Z :=
  let '(id, routerId) := AllocateRouterId routerId in (mkGlobalRouter [] id [] None, routerId).
Definition SetRoutingProtocol (routing : Global.GlobalState) (rtr : GlobalRouter) : GlobalRouter :=
  mkGlobalRouter (m_LSAs rtr) (m_routerId rtr) (m_injectedRoutes rtr) (Some routing).
(** [Ipv4GlobalRoutingHelper::Create]: what the node gets. *)
Definition CreateGlobalRouter (routerId : Z) : GlobalRouter * Z :=
  let '(rtr, routerId) := MakeGlobalRouter routerId in (SetRoutingProtocol Global.MakeIpv4GlobalRouting rtr, routerId).

Definition set_LSAs (l : list GlobalRoutingLSA) (rtr : GlobalRouter) : GlobalRouter :=
  mkGlobalRouter l (m_routerId rtr) (m_injectedRoutes rtr) (r_routingProtocol rtr).
Definition set_injectedRoutes (l : list Ipv4RoutingTableEntry) (rtr : GlobalRouter) : GlobalRouter :=
  mkGlobalRouter (m_LSAs rtr) (m_routerId rtr) l (r_routingProtocol rtr).
Definition ClearLSAs : GlobalRouter -> GlobalRouter := set_LSAs [].
Definition GetNumLSAs (rtr : GlobalRouter) : Z := u32 (Z.of_nat (length (m_LSAs rtr))).

(** An advertisement of type Unknown, and its assignment from the router's [n]th. *)
Definition new_LSA : GlobalRoutingLSA := mkLSA LSUnknown 0 0 [] 0 [] LSA_SPF_NOT_EXPLORED 0.
Definition Router_GetLSA (n : Z) (rtr : GlobalRouter) : option GlobalRoutingLSA := m_LSAs rtr !! Z.to_nat n.

(** ** Injected routes *)

Definition InjectRoute (network : Ipv4Address) (networkMask : Ipv4Mask) (rtr : GlobalRouter) : GlobalRouter :=
  set_injectedRoutes (m_injectedRoutes rtr ++ [CreateNetworkRouteTo_direct network networkMask 1]) rtr.
Definition GetNInjectedRoutes (rtr : GlobalRouter) : Z := u32 (Z.of_nat (length (m_injectedRoutes rtr))).
Definition GetInjectedRoute (index : Z) (rtr : GlobalRouter) : result Ipv4RoutingTableEntry :=
  m_injectedRoutes rtr !! Z.to_nat index ?? AssertFailed.
Definition RemoveInjectedRoute (index : Z) (rtr : GlobalRouter) : result GlobalRouter :=
  _ ← assert (index <? Z.of_nat (length (m_injectedRoutes rtr)));
  Ok (set_injectedRoutes (Global.remove_nth (Z.to_nat index) (m_injectedRoutes rtr)) rtr).

Fixpoint withdraw (network : Ipv4Address) (networkMask : Ipv4Mask) (l : list Ipv4RoutingTableEntry)
    : option (list Ipv4RoutingTableEntry) :=
  match l with
  | [] => None
  | i :: l' =>
      if (GetDestNetwork i =? network) && (GetDestNetworkMask i =? networkMask) then Some l'
      else cons i <$> withdraw network networkMask l'
  end.
Definition WithdrawRoute (network : Ipv4Address) (networkMask : Ipv4Mask) (rtr : GlobalRouter) : bool * GlobalRouter :=
  match withdraw network networkMask (m_injectedRoutes rtr) with
  | Some l => (true, set_injectedRoutes l rtr)
  | None => (false, rtr)
  end.

(** ** Building an advertisement *)

Definition AddLinkRecord (lr : GlobalRoutingLinkRecord) (lsa : GlobalRoutingLSA) : GlobalRoutingLSA :=
  mkLSA (m_lsType lsa) (m_linkStateId lsa) (m_advertisingRtr lsa) (m_linkRecords lsa ++ [lr]) (m_networkLSANetworkMask lsa)
    (m_attachedRouters lsa) (m_status lsa) (m_node_id lsa).
Definition AddAttachedRouter (addr : Ipv4Address) (lsa : GlobalRoutingLSA) : GlobalRoutingLSA :=
  mkLSA (m_lsType lsa) (m_linkStateId lsa) (m_advertisingRtr lsa) (m_linkRecords lsa) (m_networkLSANetworkMask lsa)
    (m_attachedRouters lsa ++ [addr]) (m_status lsa) (m_node_id lsa).

Section discovery.
Context {S : Type}.

Record RNode := mkRNode {
  node_devices : list NetDevice;
  node_ipv4 : option (L3 S);
  node_router : option GlobalRouter;
  node_here : bool
}.

Record Network := mkNetwork {
  net_devices : gmap NetDevice NetDev;
  net_channels : list (list NetDevice);
  net_nodes : list RNode
}.

Section walk.
Context (net : Network).

Definition device (nd : NetDevice) : result NetDev := net_devices net !! nd ?? NullDeref.
Definition GetNode (nd : NetDevice) : result RNode := d ← device nd; net_nodes net !! dev_node d ?? NullDeref.
(** The devices of [nd->GetChannel ()]. *)
Definition channel_devices (nd : NetDevice) : result (list NetDevice) :=
  d ← device nd; ch ← dev_channel d ?? NullDeref; net_channels net !! ch ?? NullDeref.

(** ** Interfaces and bridges *)

(** The first index that passes a test. *)
Fixpoint first_index (test : Z -> result bool) (l : list Z) : result (option Z) :=
  match l with
  | [] => Ok None
  | i :: l' => b ← test i; if b : bool then Ok (Some i) else first_index test l'
  end.

Definition FindInterfaceForDevice (node : RNode) (nd : NetDevice) : result (option Z) :=
  match node_ipv4 node with
  | None => Ok None
  | Some ipv4 => first_index (fun i => d ← GetNetDevice ipv4 i; Ok (d =? nd)) (seqZ 0 (GetNInterfaces ipv4))
  end.

Fixpoint bridge_of (nd : NetDevice) (l : list NetDevice) : result (option NetDevice) :=
  match l with
  | [] => Ok None
  | ndTest :: l' =>
      d ← device ndTest;
      match dev_ports d with
      | Some ports => if bool_decide (nd ∈ ports) then Ok (Some ndTest) else bridge_of nd l'
      | None => bridge_of nd l'
      end
  end.
Definition NetDeviceIsBridged (nd : NetDevice) : result (option NetDevice) :=
  node ← GetNode nd; bridge_of nd (node_devices node).

Definition bridge_ports (bnd : NetDevice) : result (list NetDevice) := d ← device bnd; dev_ports d ?? NullDeref.

Definition GetAdjacent (nd : NetDevice) : result NetDevice :=
  devices ← channel_devices nd;
  match devices with
  | [nd1; nd2] => if nd1 =? nd then Ok nd2 else if nd2 =? nd then Ok nd1 else Fault AssertFailed
  | _ => Fault AssertFailed
  end.

(** ** Other routers on a link *)

(** [down] is the recursive call, if it is allowed. *)
Fixpoint another_port (down : option (NetDevice -> result bool)) (ndOther : NetDevice) (ports : list NetDevice) : result bool :=
  match ports with
  | [] => Ok false
  | ndBridged :: ports' =>
      if ndBridged =? ndOther then another_port down ndOther ports'
      else match down with
        | Some f => b ← f ndBridged; if b : bool then Ok true else another_port down ndOther ports'
        | None => another_port down ndOther ports'
        end
  end.

(** At the first bridged device the answer is given, whatever comes behind it. *)
Fixpoint another_on (down : option (NetDevice -> result bool)) (nd : NetDevice) (l : list NetDevice) : result bool :=
  match l with
  | [] => Ok false
  | ndOther :: l' =>
      if ndOther =? nd then another_on down nd l'
      else
        bnd ← NetDeviceIsBridged ndOther;
        match bnd with
        | Some bnd => ports ← bridge_ports bnd; another_port down ndOther ports
        | None => nodeTemp ← GetNode ndOther; match node_router nodeTemp with Some _ => Ok true | None => another_on down nd l' end
        end
  end.

Definition another_router (down : option (NetDevice -> result bool)) (nd : NetDevice) : result bool :=
  d ← device nd;
  match dev_channel d with
  | None => Ok false
  | Some _ =>
      devices ← channel_devices nd;
      _ ← assert (negb (bool_decide (devices = [])));
      another_on down nd devices
  end.
Definition AnotherRouterOnLink (nd : NetDevice) (allowRecursion : bool) : result bool :=
  another_router (if allowRecursion then Some (another_router None) else None) nd.

(** ** The designated router *)

(** What a node says of the interface of a device. *)
Inductive probe := NoInterface | InterfaceDown | RouterAddress (addr : Ipv4Address).
Definition probe_router (node : RNode) (nd : NetDevice) : result probe :=
  match node_router node, node_ipv4 node with
  | Some _, Some ipv4 =>
      i ← FindInterfaceForDevice node nd;
      match i with
      | None => Ok NoInterface
      | Some i =>
          up ← IsUp ipv4 i;
          if up : bool then addr ← GetAddress ipv4 i 0; Ok (RouterAddress (m_local addr)) else Ok InterfaceDown
      end
  | _, _ => Ok NoInterface
  end.

Definition lower (addrOther desigRtr : Ipv4Address) : Ipv4Address := if addrOther <? desigRtr then addrOther else desigRtr.
Definition probe_lower (p : probe) (desigRtr : Ipv4Address) : Ipv4Address :=
  match p with RouterAddress addrOther => lower addrOther desigRtr | _ => desigRtr end.

Definition designated_port (down : option (NetDevice -> result Ipv4Address)) (ndOther : NetDevice) (desigRtr : Ipv4Address)
    (ndBridged : NetDevice) : result Ipv4Address :=
  if ndBridged =? ndOther then Ok desigRtr
  else match down with
    | Some f => addrOther ← f ndBridged; Ok (lower addrOther desigRtr)
    | None => Ok desigRtr
    end.

Definition designated_step (down : option (NetDevice -> result Ipv4Address)) (desigRtr : Ipv4Address) (ndOther : NetDevice)
    : result Ipv4Address :=
  nodeOther ← GetNode ndOther;
  bnd ← NetDeviceIsBridged ndOther;
  match bnd with
  | Some bnd =>
      p ← probe_router nodeOther bnd;
      match p with
      | InterfaceDown => Ok desigRtr
      | _ => ports ← bridge_ports bnd; foldM (designated_port down ndOther) (probe_lower p desigRtr) ports
      end
  | None => p ← probe_router nodeOther ndOther; Ok (probe_lower p desigRtr)
  end.

Definition designated_router (down : option (NetDevice -> result Ipv4Address)) (nd : NetDevice) : result Ipv4Address :=
  devices ← channel_devices nd;
  _ ← assert (negb (bool_decide (devices = [])));
  foldM (designated_step down) 0xffffffff devices.
Definition FindDesignatedRouterForLink (nd : NetDevice) (allowRecursion : bool) : result Ipv4Address :=
  designated_router (if allowRecursion then Some (designated_router None) else None) nd.

(** ** Links *)

(** The primary address and the metric of the device's interface. *)
Definition local_interface (nd : NetDevice) : result (Ipv4InterfaceAddress * Z) :=
  node ← GetNode nd;
  i ← FindInterfaceForDevice node nd;
  i ← i ?? FatalError;
  ipv4 ← node_ipv4 node ?? FatalError;
  addr ← GetAddress ipv4 i 0;
  metric ← GetMetric ipv4 i;
  Ok (addr, metric).

(** The advertisement and the devices the node is the designated router for. *)
Definition ProcessSingleBroadcastLink (nd : NetDevice) (pLSA : GlobalRoutingLSA) (c : list NetDevice)
    : result (GlobalRoutingLSA * list NetDevice) :=
  '(addr, metricLocal) ← local_interface nd;
  let addrLocal := m_local addr in
  let maskLocal := m_mask addr in
  another ← AnotherRouterOnLink nd true;
  if negb another then
    Ok (AddLinkRecord (mkLinkRecord (CombineMask addrLocal maskLocal) maskLocal StubNetwork metricLocal) pLSA, c)
  else
    desigRtr ← FindDesignatedRouterForLink nd true;
    if negb (desigRtr =? 0xffffffff) && negb (CombineMask addrLocal maskLocal =? CombineMask desigRtr maskLocal) then Fault FatalError
    else
      Ok (AddLinkRecord (mkLinkRecord desigRtr addrLocal TransitNetwork metricLocal) pLSA,
          if desigRtr =? addrLocal then c ++ [nd] else c).

(** All but its assertion is compiled out. *)
Definition ProcessBridgedBroadcastLink (nd : NetDevice) (pLSA : GlobalRoutingLSA) (c : list NetDevice)
    : result (GlobalRoutingLSA * list NetDevice) :=
  d ← device nd; _ ← assert (bool_decide (is_Some (dev_ports d))); Ok (pLSA, c).
Definition ProcessBroadcastLink (nd : NetDevice) (pLSA : GlobalRoutingLSA) (c : list NetDevice)
    : result (GlobalRoutingLSA * list NetDevice) :=
  d ← device nd;
  match dev_ports d with
  | Some _ => ProcessBridgedBroadcastLink nd pLSA c
  | None => ProcessSingleBroadcastLink nd pLSA c
  end.

Definition ProcessPointToPointLink (ndLocal : NetDevice) (pLSA : GlobalRoutingLSA) : result GlobalRoutingLSA :=
  '(addr, metricLocal) ← local_interface ndLocal;
  let addrLocal := m_local addr in
  ndRemote ← GetAdjacent ndLocal;
  nodeRemote ← GetNode ndRemote;
  ipv4Remote ← node_ipv4 nodeRemote ?? FatalError;
  match node_router nodeRemote with
  | None => Ok pLSA
  | Some rtrRemote =>
      interfaceRemote ← FindInterfaceForDevice nodeRemote ndRemote;
      interfaceRemote ← interfaceRemote ?? FatalError;
      remote ← GetAddress ipv4Remote interfaceRemote 0;
      up ← IsUp ipv4Remote interfaceRemote;
      let pLSA := if up : bool then
          AddLinkRecord (mkLinkRecord (m_routerId rtrRemote) addrLocal PointToPoint metricLocal) pLSA
        else pLSA in
      Ok (AddLinkRecord (mkLinkRecord (m_local remote) (m_mask remote) StubNetwork metricLocal) pLSA)
  end.

(** An attached router of the network of [pLSA]. *)
Definition attach_router (pLSA : GlobalRoutingLSA) (tempNd : NetDevice) : result GlobalRoutingLSA :=
  tempNode ← GetNode tempNd;
  p ← probe_router tempNode tempNd;
  Ok (match p with RouterAddress tempAddr => AddAttachedRouter tempAddr pLSA | _ => pLSA end).
Definition BuildNetworkLSA (routerId : Ipv4Address) (ndLocal : NetDevice) : result GlobalRoutingLSA :=
  '(addr, _) ← local_interface ndLocal;
  d ← device ndLocal;
  devices ← channel_devices ndLocal;
  _ ← assert (negb (bool_decide (devices = [])));
  foldM attach_router
    (mkLSA NetworkLSA (m_local addr) routerId [] (m_mask addr) [] LSA_SPF_NOT_EXPLORED (Z.of_nat (dev_node d))) devices.

(** The result is what [m_LSAs] gets. *)
Definition BuildNetworkLSAs (routerId : Ipv4Address) (c : list NetDevice) : result (list GlobalRoutingLSA) :=
  mapM (BuildNetworkLSA routerId) c.

(** ** Discovery *)

(** Has the device an interface that is up and forwards? *)
Definition is_forwarding (ipv4 : L3 S) (nd : NetDevice) : result bool :=
  i ← first_index (fun j =>
        d ← GetNetDevice ipv4 j;
        if d =? nd then up ← IsUp ipv4 j; if up : bool then IsForwarding ipv4 j else Ok false else Ok false)
      (seqZ 0 (GetNInterfaces ipv4));
  Ok (bool_decide (is_Some i)).

Definition DiscoverLink (node : RNode) (ipv4Local : L3 S) (acc : GlobalRoutingLSA * list NetDevice) (ndLocal : NetDevice)
    : result (GlobalRoutingLSA * list NetDevice) :=
  bridged ← NetDeviceIsBridged ndLocal;
  rc ← (match bridged with Some _ => FindInterfaceForDevice node ndLocal | None => Ok None end);
  if bool_decide (is_Some rc) then Fault FatalError
  else
    isForwarding ← is_forwarding ipv4Local ndLocal;
    if negb isForwarding then Ok acc
    else
      d ← device ndLocal;
      if dev_IsBroadcast d && negb (dev_IsPointToPoint d) then ProcessBroadcastLink ndLocal acc.1 acc.2
      else if dev_IsPointToPoint d then pLSA ← ProcessPointToPointLink ndLocal acc.1; Ok (pLSA, acc.2)
      else Fault AssertFailed.

Definition external_LSA (routerId : Ipv4Address) (route : Ipv4RoutingTableEntry) : GlobalRoutingLSA :=
  mkLSA ASExternalLSAs (GetDestNetwork route) routerId [] (GetDestNetworkMask route) [] LSA_SPF_NOT_EXPLORED 0.

(** On the router of node [n]: the number of its advertisements, and the router
    that has them. *)
Definition DiscoverLSAs (n : nat) : result (Z * GlobalRouter) :=
  node ← net_nodes net !! n ?? FatalError;
  rtr ← node_router node ?? NullDeref;
  let rtr := ClearLSAs rtr in
  let routerId := m_routerId rtr in
  ipv4Local ← node_ipv4 node ?? FatalError;
  '(pLSA, c) ← foldM (DiscoverLink node ipv4Local)
    (mkLSA RouterLSA routerId routerId [] 0 [] LSA_SPF_NOT_EXPLORED (Z.of_nat n), []) (node_devices node);
  lsas ← BuildNetworkLSAs routerId c;
  let rtr := set_LSAs (pLSA :: lsas ++ map (external_LSA routerId) (m_injectedRoutes rtr)) rtr in
  Ok (GetNumLSAs rtr, rtr).
End walk.

(** ** All routes *)

(** A node as the manager sees it, after the discovery that
    [BuildGlobalRoutingDatabase] calls for.  Discovery looks at the network,
    which the manager does not change, so that it can come first for all
    nodes. *)
Definition discover_node (net : Network) (i : nat * RNode) : result GNode :=
  let node := i.2 in
  let prefix := GetInterfaceForPrefix <$> node_ipv4 node in
  match node_router node with
  | None => Ok (mkGNode None [] None prefix (node_here node))
  | Some _ =>
      '(numLSAs, rtr) ← DiscoverLSAs net i.1;
      let fetch j := default new_LSA (Router_GetLSA j rtr) in
      Ok (mkGNode (Some (m_routerId rtr)) (map fetch (seqZ 0 numLSAs)) (r_routingProtocol rtr) prefix (node_here node))
  end.
Definition discover (net : Network) : result (list GNode) := mapM (discover_node net) (imap pair (net_nodes net)).

(** The manager as a program starts it. *)
Definition new_manager (nodes : list GNode) : Spf := mkSpf new_LSDB ∅ 0 None [] nodes.

Definition PopulateRoutingTables (below : nat -> nat -> bool) (net : Network) : result Spf :=
  nodes ← discover net;
  '(_, st, _) ← (_ ← BuildGlobalRoutingDatabase; InitializeRoutes below) (new_manager nodes);
  Ok st.
Definition RecomputeRoutingTables (below : nat -> nat -> bool) (st : Spf) (net : Network) : result Spf :=
  nodes ← discover net;
  '(_, st, _) ← (_ ← DeleteGlobalRoutes; _ ← BuildGlobalRoutingDatabase; InitializeRoutes below) (set_NodeList nodes st);
  Ok st.
End discovery.
Arguments RNode S : clear implicits.
Arguments Network S : clear implicits.
