(* ===== verification/GlobalLinks.v ===== *)
(** * GlobalLinks: what routers discover

    For networks of point-to-point links (GlobalDiscovery): the database of
    advertisements has exactly the links of the network, and it is one that
    GlobalRoutes' theorems are about. *)

From stdpp Require Import gmap.
From S2P Require Import Prelude StdMap Ipv4Address Node StaticRouting Ipv4Stack GlobalRouting GlobalLsdb GlobalSpf GlobalPaths GlobalDiscovery.

(** ** Searching interfaces *)

Lemma first_index_find {A} (test : Z -> result bool) (f : A -> bool) (l : list A) k :
  (forall i x, l !! i = Some x -> test (k + Z.of_nat i) = Ok (f x)) ->
  first_index test (seqZ k (Z.of_nat (length l))) =
  Ok ((fun ix => k + Z.of_nat ix.1) <$> list_find (fun x => f x = true) l).
Proof.
  revert k. induction l as [|x l IH]; intros k Ht; [done|].
  rewrite seqZ_cons by (cbn; lia). cbn [first_index list_find].
  rewrite <- (Z.add_0_r k) at 1. change 0 with (Z.of_nat 0). rewrite (Ht 0%nat x) by done. cbn [mbind result_bind].
  destruct (f x) eqn:E; [rewrite decide_True by done; cbn; do 2 f_equal; lia|]. rewrite decide_False by done.
  replace (Z.pred (Z.of_nat (length (x :: l)))) with (Z.of_nat (length l)) by (cbn; lia). rewrite IH.
  - f_equal. destruct (list_find _ l) as [[i y]|]; [|done]. cbn. f_equal. lia.
  - intros i y Hy. rewrite <- (Ht (S i) y) by done. f_equal. lia.
Qed.

Lemma mapM_ok {A B} (P : A -> B -> Prop) (f : A -> result B) l :
  (forall x, x ∈ l -> exists y, f x = Ok y /\ P x y) -> exists ys, mapM f l = Ok ys /\ Forall2 P l ys.
Proof.
  induction l as [|x l IH]; intros H; [by exists []|]. destruct (H x) as (y & Hy & Py); [left|].
  destruct IH as (ys & Hys & Pys); [intros; apply H; by right|]. exists (y :: ys). cbn. rewrite Hy. cbn. rewrite Hys.
  split; [done|by constructor].
Qed.

(** ** The database *)

Definition insert_lsas (db : LSDB) (node : GNode) : LSDB :=
  match gn_router node with
  | None => db
  | Some _ => foldl (fun db lsa => Insert (m_linkStateId lsa) lsa db) db (gn_lsas node)
  end.

Lemma BuildGlobalRoutingDatabase_ok st :
  BuildGlobalRoutingDatabase st = Ok (tt, set_lsdb (foldl insert_lsas (m_lsdb st) (NodeList st)) st, []).
Proof.
  unfold BuildGlobalRoutingDatabase. rewrite run_get.
  enough (forall l, for_loop l (fun node => match gn_router node with None => mret tt
    | Some _ => modify (fun st => set_lsdb (foldl (fun db lsa => Insert (m_linkStateId lsa) lsa db) (m_lsdb st) (gn_lsas node)) st) end) st =
    Ok (tt, set_lsdb (foldl insert_lsas (m_lsdb st) l) st, [])) as H by apply H. intros l. revert st.
  induction l as [|node l IH]; intros st; [by destruct st as [[] ? ? ? ? ?]|]. cbn [for_loop foldl].
  rewrite (run_bind _ _ st tt (set_lsdb (insert_lsas (m_lsdb st) node) st)).
  - rewrite IH. done.
  - unfold insert_lsas. destruct (gn_router node); [done|]. by destruct st.
Qed.

(** A router's advertisement, and its external ones. *)
Definition lsas_ok (g : GNode) : Prop := forall u, gn_router g = Some u -> exists lsa exts, gn_lsas g = lsa :: exts /\
  m_lsType lsa = RouterLSA /\ m_linkStateId lsa = u /\ Forall (fun e => m_lsType e = ASExternalLSAs) exts.
Definition node_externals (g : GNode) : list GlobalRoutingLSA :=
  match gn_router g with Some _ => tail (gn_lsas g) | None => [] end.

Lemma insert_externals db exts : Forall (fun e => m_lsType e = ASExternalLSAs) exts ->
  foldl (fun db lsa => Insert (m_linkStateId lsa) lsa db) db exts = mkLSDB (m_database db) (m_extdatabase db ++ exts).
Proof.
  intros H. revert db. induction H as [|e l He Hl IH]; intros db; [cbn; rewrite app_nil_r; by destruct db|].
  cbn [foldl]. rewrite IH. unfold Insert. rewrite decide_True by done. cbn. by rewrite <- app_assoc.
Qed.

Lemma insert_lsas_ok db g : lsas_ok g -> exists lsas, m_extdatabase (insert_lsas db g) = m_extdatabase db ++ node_externals g /\
  m_database (insert_lsas db g) = foldl (fun m lsa => map_insert (m_linkStateId lsa) lsa m) (m_database db) lsas /\
  (length lsas <= 1)%nat /\ (forall u, gn_router g = Some u -> exists lsa, lsas = [lsa] /\ head (gn_lsas g) = Some lsa /\ m_linkStateId lsa = u) /\
  (gn_router g = None -> lsas = []).
Proof.
  intros Hg. unfold insert_lsas, node_externals. destruct (gn_router g) as [u|] eqn:E.
  - destruct (Hg u E) as (lsa & exts & -> & T1 & T2 & T3). exists [lsa]. cbn [foldl tail head]. rewrite insert_externals by done.
    unfold Insert. rewrite decide_False by by rewrite T1. cbn. split_and!; [done|done|lia| |done]. intros ? [= <-]. by exists lsa.
  - exists []. rewrite app_nil_r. split_and!; [done|done|cbn; lia|done|done].
Qed.

Lemma insert_all gs db db' : Forall lsas_ok gs -> map_wf (m_database db) -> foldl insert_lsas db gs = db' ->
  map_wf (m_database db') /\ (length (m_database db') <= length (m_database db) + length gs)%nat /\
  m_extdatabase db' = m_extdatabase db ++ concat (map node_externals gs) /\
  (forall u lsa, map_find u (m_database db') = Some lsa -> map_find u (m_database db) = Some lsa \/
    exists g, g ∈ gs /\ gn_router g = Some u /\ head (gn_lsas g) = Some lsa) /\
  (forall u, is_Some (map_find u (m_database db)) \/ (exists g, g ∈ gs /\ gn_router g = Some u) -> is_Some (map_find u (m_database db'))).
Proof.
  intros Hgs. revert db. induction Hgs as [|g gs Hg Hgs IH]; intros db Hwf Hdb'; cbn in *.
  { subst db'. split_and!; [done|lia|by rewrite app_nil_r|by left|]. intros u [?|(g & ?%elem_of_nil & _)]; done. }
  destruct (insert_lsas_ok db g Hg) as (lsas & I1 & I2 & _ & I3 & I4).
  destruct (IH (insert_lsas db g)) as (J1 & J2 & J3 & J4 & J5); [|exact Hdb'|].
  { rewrite I2. clear -Hwf. revert Hwf. generalize (m_database db) as m. induction lsas as [|a l IH]; intros m Hm; [done|].
    apply IH. by apply map_wf_insert. }
  assert (forall k v (m : stdmap Ipv4Address GlobalRoutingLSA), (length (map_insert k v m) <= Datatypes.S (length m))%nat) as Hlen.
  { intros k v m. unfold map_insert. destruct (map_find k m); [lia|]. clear. induction m as [|[k' v'] m IH]; cbn; [lia|].
    repeat case_match; cbn in *; lia. }
  assert (forall u lsa, map_find u (m_database (insert_lsas db g)) = Some lsa -> map_find u (m_database db) = Some lsa \/
    (gn_router g = Some u /\ head (gn_lsas g) = Some lsa)) as H1.
  { intros u lsa. rewrite I2. destruct (gn_router g) as [u'|]; [|rewrite I4 by done; by left].
    destruct (I3 u' eq_refl) as (a & -> & Ha & <-). cbn. rewrite map_find_insert. case_decide as E; [|by left]. subst.
    destruct (map_find _ (m_database db)); [by left|]. intros [= <-]. by right. }
  assert (forall u, is_Some (map_find u (m_database db)) \/ gn_router g = Some u -> is_Some (map_find u (m_database (insert_lsas db g)))) as H2.
  { intros u Hu. rewrite I2. destruct (gn_router g) as [u'|].
    - destruct (I3 u' eq_refl) as (a & -> & Ha & <-). cbn. rewrite map_find_insert. case_decide as E.
      + by eexists.
      + destruct Hu as [|[= E2]]; [done|congruence].
    - rewrite I4 by done. cbn. by destruct Hu. }
  split_and!; [done| |by rewrite J3, I1, <- app_assoc| |].
  - enough (length (m_database (insert_lsas db g)) <= Datatypes.S (length (m_database db)))%nat by lia. rewrite I2.
    destruct (gn_router g) as [u'|]; [|rewrite I4 by done; cbn; lia]. destruct (I3 u' eq_refl) as (a & -> & _). apply Hlen.
  - intros u lsa [H|(g' & G1 & G2)]%J4; [|right; exists g'; split; [by right|done]].
    destruct (H1 _ _ H) as [?|G]; [by left|]. right. exists g. split; [by left|done].
  - intros u Hu. apply J5. destruct Hu as [Hu|(g' & [->|Hg']%elem_of_cons & Hr)]; [left; apply H2; by left|left; apply H2; by right|].
    right. by exists g'.
Qed.

Section links.
Context {S : Type}.
Implicit Types (net : Network S) (node : RNode S) (ip : L3 S).

(** Interfaces can be counted and their devices differ. *)
Definition stack_ok ip : Prop :=
  Z.of_nat (length (m_interfaces ip)) < 2 ^ 32 /\ NoDup (map m_device (m_interfaces ip)).

(** The interface of a device, with its primary address. *)
Definition interface_on node (nd : NetDevice) (i : Ipv4Interface) (a : Ipv4InterfaceAddress) : Prop :=
  exists ip rest, node_ipv4 node = Some ip /\ i ∈ m_interfaces ip /\ m_device i = nd /\ m_ifaddrs i = a :: rest.

Lemma device_index ip k i : stack_ok ip -> m_interfaces ip !! k = Some i ->
  GetInterface ip (Z.of_nat k) = Some i.
Proof. intros _ H. unfold GetInterface. by rewrite Nat2Z.id. Qed.

Lemma NInterfaces_ok ip : stack_ok ip -> GetNInterfaces ip = Z.of_nat (length (m_interfaces ip)).
Proof. intros [H _]. unfold GetNInterfaces. apply u32_small. unfold is_u32. lia. Qed.

(** The interface of [nd] and its index, if it has one. *)
Inductive find_spec ip (nd : NetDevice) : option Z -> Prop :=
| find_some k i : GetInterface ip (Z.of_nat k) = Some i -> i ∈ m_interfaces ip -> m_device i = nd ->
    find_spec ip nd (Some (Z.of_nat k))
| find_none : (forall i, i ∈ m_interfaces ip -> m_device i <> nd) -> find_spec ip nd None.

Lemma FindInterface_ok node ip nd : node_ipv4 node = Some ip -> stack_ok ip ->
  exists o, FindInterfaceForDevice node nd = Ok o /\ find_spec ip nd o.
Proof.
  intros Hip Hok. unfold FindInterfaceForDevice. rewrite Hip, NInterfaces_ok by done.
  rewrite (first_index_find _ (fun i => m_device i =? nd) (m_interfaces ip)).
  2: { intros k i Hi. unfold GetNetDevice, interface_at. rewrite Z.add_0_l, (device_index _ _ i) by done. done. }
  eexists. split; [done|]. destruct (list_find _ (m_interfaces ip)) as [[k i]|] eqn:E; cbn.
  - apply list_find_Some in E as (E & Hd & _). eapply find_some; [by apply device_index|by eapply list_elem_of_lookup_2|lia].
  - apply list_find_None in E. rewrite Forall_forall in E. apply find_none. intros i Hi ?. apply (E i Hi). lia.
Qed.

Lemma NoDup_device ip i j : stack_ok ip -> i ∈ m_interfaces ip -> j ∈ m_interfaces ip -> m_device i = m_device j -> i = j.
Proof.
  intros [_ Hnd] Hi Hj E. apply list_elem_of_lookup in Hi as [k Hk], Hj as [k' Hk'].
  assert (k = k') as ->; [|congruence]. eapply (NoDup_lookup _ _ _ (m_device i)); [exact Hnd| |]; rewrite list_lookup_fmap.
  - by rewrite Hk.
  - by rewrite Hk', E.
Qed.

(** Is there an interface of the device that is up?  All forward. *)
Lemma is_forwarding_ok ip nd : stack_ok ip -> (forall i, i ∈ m_interfaces ip -> m_forwarding i = true) ->
  exists b : bool, is_forwarding ip nd = Ok b /\ if b then exists i, i ∈ m_interfaces ip /\ m_device i = nd /\ m_ifup i = true
    else forall i, i ∈ m_interfaces ip -> m_device i = nd -> m_ifup i = false.
Proof.
  intros Hok Hfw. unfold is_forwarding. rewrite NInterfaces_ok by done.
  rewrite (first_index_find _ (fun i => (m_device i =? nd) && m_ifup i) (m_interfaces ip)).
  2: { intros k i Hi. unfold GetNetDevice, IsUp, IsForwarding, interface_at. rewrite Z.add_0_l, (device_index _ _ i) by done.
       cbn. destruct (m_device i =? nd); [|done]. cbn. destruct (m_ifup i); [|done].
       rewrite Hfw; [done|]. by eapply list_elem_of_lookup_2. }
  cbn. eexists. split; [done|]. destruct (list_find _ (m_interfaces ip)) as [[k i]|] eqn:E; cbn.
  - apply list_find_Some in E as (E & [E1 E2]%andb_true_iff & _). exists i. split; [by eapply list_elem_of_lookup_2|]. split; [lia|done].
  - apply list_find_None in E. rewrite Forall_forall in E. intros i Hi <-. specialize (E i Hi). cbn in E. rewrite Z.eqb_refl in E.
    by destruct (m_ifup i).
Qed.

(** ** Networks of point-to-point links *)

Definition connected net (nd nd' : NetDevice) : Prop := exists d ch, net_devices net !! nd = Some d /\ dev_channel d = Some ch /\
  nd <> nd' /\ (net_channels net !! ch = Some [nd; nd'] \/ net_channels net !! ch = Some [nd'; nd]).

(** The other end is a device of a node with a stack, on which it has an
    interface if the node is a router. *)
Definition p2p_device net (nd : NetDevice) (d : NetDev) : Prop := dev_IsPointToPoint d = true /\
  exists nd' d' node', connected net nd nd' /\ net_devices net !! nd' = Some d' /\ dev_channel d' = dev_channel d /\
    dev_IsPointToPoint d' = true /\ net_nodes net !! dev_node d' = Some node' /\ nd' ∈ node_devices node' /\
    is_Some (node_ipv4 node') /\ (is_Some (node_router node') -> exists i' a', interface_on node' nd' i' a').

(** A device for broadcasts, like the loopback device, without other routers on
    its channel. *)
Definition stub_device net (nd : NetDevice) (d : NetDev) : Prop := dev_IsPointToPoint d = false /\ dev_IsBroadcast d = true /\
  forall ch, dev_channel d = Some ch -> exists nd0 nds, net_channels net !! ch = Some (nd0 :: nds) /\
    forall nd', nd' ∈ nd0 :: nds -> nd' <> nd ->
      exists d' node', net_devices net !! nd' = Some d' /\ net_nodes net !! dev_node d' = Some node' /\ node_router node' = None.

Record p2p_network net : Prop := {
  pn_ids n n' node node' rtr rtr' : net_nodes net !! n = Some node -> net_nodes net !! n' = Some node' ->
    node_router node = Some rtr -> node_router node' = Some rtr' -> m_routerId rtr = m_routerId rtr' -> n = n';
  pn_stack n node ip : net_nodes net !! n = Some node -> node_ipv4 node = Some ip -> stack_ok ip;
  pn_router n node rtr : net_nodes net !! n = Some node -> node_router node = Some rtr ->
    Z.of_nat (length (m_injectedRoutes rtr)) + 1 < 2 ^ 32 /\ exists ip, node_ipv4 node = Some ip /\
    forall i, i ∈ m_interfaces ip -> m_forwarding i = true /\ m_ifaddrs i <> [] /\ 1 <= Ipv4Stack.m_metric i <= 65535;
  pn_device n node nd : net_nodes net !! n = Some node -> nd ∈ node_devices node ->
    exists d, net_devices net !! nd = Some d /\ dev_node d = n /\ dev_ports d = None /\ (p2p_device net nd d \/ stub_device net nd d);
  pn_small : Z.of_nat (length (net_nodes net)) * 65535 < 2 ^ 32
}.

(** A device of the router [u], with its interface and primary address. *)
Inductive port net (u : Ipv4Address) (nd : NetDevice) (i : Ipv4Interface) (a : Ipv4InterfaceAddress) : Prop :=
| Port n node rtr : net_nodes net !! n = Some node -> node_router node = Some rtr -> m_routerId rtr = u ->
    nd ∈ node_devices node -> interface_on node nd i a -> port net u nd i a.

(** The links of [u] at a device: to another router, with both ends up, and to
    a stub network. *)
Definition wire_at net (u : Ipv4Address) (nd : NetDevice) (w : Ipv4Address) (l : GlobalRoutingLinkRecord) : Prop :=
  exists i a nd' i' a', port net u nd i a /\ m_ifup i = true /\ port net w nd' i' a' /\ m_ifup i' = true /\
    connected net nd nd' /\ (exists d, net_devices net !! nd = Some d /\ dev_IsPointToPoint d = true) /\
    l = mkLinkRecord w (m_local a) PointToPoint (Ipv4Stack.m_metric i).
Definition stub_at net (u : Ipv4Address) (nd : NetDevice) (l : GlobalRoutingLinkRecord) : Prop :=
  exists i a d, port net u nd i a /\ m_ifup i = true /\ net_devices net !! nd = Some d /\
    if dev_IsPointToPoint d then
      exists w nd' i' a', port net w nd' i' a' /\ connected net nd nd' /\
        l = mkLinkRecord (m_local a') (m_mask a') StubNetwork (Ipv4Stack.m_metric i)
    else l = mkLinkRecord (CombineMask (m_local a) (m_mask a)) (m_mask a) StubNetwork (Ipv4Stack.m_metric i).

Definition wire net u w l : Prop := exists nd, wire_at net u nd w l.
Definition stub net u l : Prop := exists nd, stub_at net u nd l.

(** ** A device of a router *)

(** ** What is read of the network *)

Section read.
Context (net : Network S).

Lemma device_ok nd d : net_devices net !! nd = Some d -> device net nd = Ok d.
Proof using. intros Hd. unfold device. by rewrite Hd. Qed.

Lemma channel_ok nd d ch l : net_devices net !! nd = Some d -> dev_channel d = Some ch -> net_channels net !! ch = Some l ->
  channel_devices net nd = Ok l.
Proof using. intros Hd Hch Hl. unfold channel_devices. rewrite (device_ok nd d) by done. cbn. rewrite Hch. cbn. by rewrite Hl. Qed.

Lemma GetNode_ok nd d node : net_devices net !! nd = Some d -> net_nodes net !! dev_node d = Some node -> GetNode net nd = Ok node.
Proof using. intros Hd Hn. unfold GetNode. rewrite (device_ok nd d) by done. cbn. by rewrite Hn. Qed.

(** The search finds the interface, and what is read of it. *)
Lemma FindInterface_on node ip nd i a : node_ipv4 node = Some ip -> stack_ok ip -> interface_on node nd i a ->
  exists k, FindInterfaceForDevice node nd = Ok (Some k) /\ IsUp ip k = Ok (m_ifup i) /\
    GetAddress ip k 0 = Ok a /\ GetMetric ip k = Ok (Ipv4Stack.m_metric i).
Proof using.
  intros Hip Hok (ip' & rest & Hip' & Hi & Hd & Ha). assert (ip' = ip) as -> by congruence.
  destruct (FindInterface_ok node ip nd Hip Hok) as (o & Ho & Hspec). destruct Hspec as [k j Hk Hj Hdj|Hno].
  - assert (j = i) as -> by (apply (NoDup_device ip); [done|done|done|congruence]). exists (Z.of_nat k).
    unfold IsUp, GetAddress, GetMetric, interface_at. rewrite Hk. cbn. split_and!; [done|done| |done].
    unfold Interface.GetAddress. by rewrite Ha.
  - by destruct (Hno i Hi).
Qed.

Lemma local_interface_ok nd d node ip i a : net_devices net !! nd = Some d -> net_nodes net !! dev_node d = Some node ->
  node_ipv4 node = Some ip -> stack_ok ip -> interface_on node nd i a -> local_interface net nd = Ok (a, Ipv4Stack.m_metric i).
Proof using.
  intros Hd Hn Hip Hok Hi. unfold local_interface. rewrite (GetNode_ok nd d node) by done. cbn [mbind result_bind].
  destruct (FindInterface_on node ip nd i a Hip Hok Hi) as (k & -> & K2 & K3 & K4). cbn [or_fault mbind result_bind].
  rewrite Hip. cbn [or_fault mbind result_bind]. rewrite K3. cbn [mbind result_bind]. by rewrite K4.
Qed.
End read.

Section network.
Context (net : Network S) (HP : p2p_network net).

Lemma interface_on_unique n node nd i a i' a' : net_nodes net !! n = Some node ->
  interface_on node nd i a -> interface_on node nd i' a' -> i = i' /\ a = a'.
Proof using HP.
  intros Hn (ip & rest & Hip & Hi & Hd & Ha) (ip' & rest' & Hip' & Hi' & Hd' & Ha').
  assert (ip' = ip) as -> by congruence. assert (i = i') as <-; [|split; [done|congruence]].
  apply (NoDup_device ip); [by eapply pn_stack|done|done|congruence].
Qed.

(** The router, its node and its interface are determined by the device. *)
Lemma port_here n node rtr u nd i a i' a' : net_nodes net !! n = Some node -> node_router node = Some rtr ->
  nd ∈ node_devices node -> interface_on node nd i a -> port net u nd i' a' -> u = m_routerId rtr /\ i' = i /\ a' = a.
Proof using HP.
  intros Hn Hr Hnd Hi [n' node' rtr' Hn' Hr' <- Hnd' Hi'].
  destruct (pn_device _ HP _ _ _ Hn Hnd) as (d & D1 & D2 & _), (pn_device _ HP _ _ _ Hn' Hnd') as (d' & D3 & D4 & _).
  assert (n' = n) as -> by congruence. assert (node' = node) as -> by congruence. assert (rtr' = rtr) as -> by congruence.
  split; [done|]. by apply (interface_on_unique n node nd).
Qed.

Lemma connected_unique nd nd1 nd2 : connected net nd nd1 -> connected net nd nd2 -> nd1 = nd2.
Proof using.
  intros (d & ch & H1 & H2 & Hne & H3) (d' & ch' & H1' & H2' & Hne' & H3').
  assert (d' = d) as -> by congruence. assert (ch' = ch) as -> by congruence.
  destruct H3 as [H3|H3], H3' as [H3'|H3']; rewrite H3 in H3'; injection H3'; congruence.
Qed.

Lemma not_bridged nd d node : net_devices net !! nd = Some d -> net_nodes net !! dev_node d = Some node ->
  NetDeviceIsBridged net nd = Ok None.
Proof using HP.
  intros Hd Hn. unfold NetDeviceIsBridged. rewrite (GetNode_ok net nd d node) by done. cbn [mbind result_bind].
  assert (forall x, x ∈ node_devices node -> exists d, net_devices net !! x = Some d /\ dev_ports d = None) as H.
  { intros x Hx. destruct (pn_device _ HP _ _ _ Hn Hx) as (e & E1 & _ & E2 & _). by exists e. }
  induction (node_devices node) as [|x l IH]; [done|]. cbn [bridge_of].
  destruct (H x) as (e & He & E); [left|]. rewrite (device_ok net x e) by done. cbn [mbind result_bind]. rewrite E. apply IH. intros; apply H; by right.
Qed.

Lemma GetAdjacent_ok nd nd' : connected net nd nd' -> GetAdjacent net nd = Ok nd'.
Proof using.
  intros (d & ch & Hd & Hch & Hne & Hc). unfold GetAdjacent.
  destruct Hc as [Hc|Hc]; rewrite (channel_ok net nd d ch _ Hd Hch Hc); cbn [mbind result_bind].
  - by rewrite Z.eqb_refl.
  - destruct (Z.eqb_spec nd' nd); [congruence|]. by rewrite Z.eqb_refl.
Qed.

Definition add_records (rs : list GlobalRoutingLinkRecord) (lsa : GlobalRoutingLSA) : GlobalRoutingLSA :=
  mkLSA (m_lsType lsa) (m_linkStateId lsa) (m_advertisingRtr lsa) (m_linkRecords lsa ++ rs) (m_networkLSANetworkMask lsa)
    (m_attachedRouters lsa) (m_status lsa) (m_node_id lsa).

Section at_router.
Context (n : nat) (node : RNode S) (rtr : GlobalRouter).
Context (Hn : net_nodes net !! n = Some node) (Hrtr : node_router node = Some rtr).
Notation u := (m_routerId rtr).

Lemma local_ok nd d i a : net_devices net !! nd = Some d -> dev_node d = n -> interface_on node nd i a ->
  local_interface net nd = Ok (a, Ipv4Stack.m_metric i).
Proof using HP Hn.
  intros Hd Hdn Hi. pose proof Hi as (ip & _ & Hip & _). apply (local_interface_ok net nd d node ip); [done|by rewrite Hdn|done| |done].
  by eapply pn_stack.
Qed.

(** The links at [nd] are the records [rs]. *)
Definition describes (nd : NetDevice) (rs : list GlobalRoutingLinkRecord) : Prop :=
  forall l, l ∈ rs <-> (exists w, wire_at net u nd w l) \/ stub_at net u nd l.

Lemma point_to_point_ok nd d i a lsa : net_devices net !! nd = Some d -> dev_node d = n -> nd ∈ node_devices node ->
  p2p_device net nd d -> interface_on node nd i a -> m_ifup i = true ->
  exists rs, ProcessPointToPointLink net nd lsa = Ok (add_records rs lsa) /\ describes nd rs.
Proof using HP Hn Hrtr.
  intros Hd Hdn Hnd (Hp2p & nd' & d' & node' & Hc & Hd' & _ & Hp2p' & Hn' & Hnd' & [ip' Hip'] & Hi') Hi Hup.
  unfold ProcessPointToPointLink. rewrite (local_ok nd d i a) by done. cbn [mbind result_bind].
  rewrite (GetAdjacent_ok nd nd') by done. cbn [mbind result_bind]. rewrite (GetNode_ok net nd' d' node') by done. cbn [mbind result_bind].
  rewrite Hip'. cbn [or_fault mbind result_bind]. assert (port net u nd i a) as Hport by (apply (Port net u nd i a n node rtr); done).
  assert (forall w nd2 i2 a2, port net w nd2 i2 a2 -> connected net nd nd2 -> exists rtr', node_router node' = Some rtr' /\
    nd2 = nd' /\ w = m_routerId rtr' /\ interface_on node' nd' i2 a2) as Hfar.
  { intros w nd2 i2 a2 Hport2 Hc2. assert (nd2 = nd') as -> by by eapply connected_unique.
    destruct Hport2 as [n2 node2 rtr2 A1 A2 A3 A4 A5]. destruct (pn_device _ HP _ _ _ A1 A4) as (d2 & B1 & B2 & _).
    assert (node2 = node') as -> by congruence. by exists rtr2. }
  assert (forall w l, wire_at net u nd w l -> exists rtr' i2 a2, node_router node' = Some rtr' /\ w = m_routerId rtr' /\
    interface_on node' nd' i2 a2 /\ m_ifup i2 = true /\ l = mkLinkRecord w (m_local a) PointToPoint (Ipv4Stack.m_metric i)) as Hw.
  { intros w l (j & b & nd2 & i2 & a2 & W1 & W2 & W3 & W4 & W5 & _ & ->).
    destruct (port_here n node rtr u nd i a j b) as (_ & -> & ->); [done..|].
    destruct (Hfar w nd2 i2 a2 W3 W5) as (rtr' & F1 & -> & F2 & F3). by exists rtr', i2, a2. }
  assert (forall l, stub_at net u nd l -> exists rtr' i2 a2, node_router node' = Some rtr' /\ interface_on node' nd' i2 a2 /\
    l = mkLinkRecord (m_local a2) (m_mask a2) StubNetwork (Ipv4Stack.m_metric i)) as Hs.
  { intros l (j & b & e & W1 & W2 & W3 & W4). assert (e = d) as -> by congruence. rewrite Hp2p in W4.
    destruct W4 as (w & nd2 & i2 & a2 & W4 & W5 & ->). destruct (port_here n node rtr u nd i a j b) as (_ & -> & ->); [done..|].
    destruct (Hfar w nd2 i2 a2 W4 W5) as (rtr' & F1 & -> & F2 & F3). by exists rtr', i2, a2. }
  destruct (node_router node') as [rtr'|] eqn:Hr'.
  2: { exists []. split; [unfold add_records; rewrite app_nil_r; by destruct lsa|]. intros l. split; [by intros ?%elem_of_nil|].
       intros [(w & (rtr' & ? & ? & ? & _)%Hw)|(rtr' & ? & ? & ? & _)%Hs]; done. }
  destruct Hi' as (i' & a' & Hi'); [done|].
  assert (port net (m_routerId rtr') nd' i' a') as Hport' by (eapply Port; done).
  destruct (FindInterface_on node' ip' nd' i' a' Hip') as (k & -> & K2 & K3 & _); [by eapply pn_stack|done|].
  cbn [or_fault mbind result_bind]. rewrite K3. cbn [mbind result_bind]. rewrite K2.
  cbn [mbind result_bind].
  set (p := mkLinkRecord (m_routerId rtr') (m_local a) PointToPoint (Ipv4Stack.m_metric i)).
  set (s := mkLinkRecord (m_local a') (m_mask a') StubNetwork (Ipv4Stack.m_metric i)).
  assert (forall i2 a2, interface_on node' nd' i2 a2 -> i2 = i' /\ a2 = a') as Hu.
  { intros i2 a2 H2. by apply (interface_on_unique (dev_node d') node' nd'). }
  exists ((if m_ifup i' then [p] else []) ++ [s]). split.
  { f_equal. unfold add_records, AddLinkRecord. cbn. destruct (m_ifup i'); cbn; by rewrite <- ?app_assoc. }
  intros l. rewrite elem_of_app, list_elem_of_singleton. split.
  - intros [Hl| ->]; [left|right].
    + destruct (m_ifup i') eqn:Hup'; [|by apply elem_of_nil in Hl]. apply list_elem_of_singleton in Hl as ->.
      exists (m_routerId rtr'), i, a, nd', i', a'. split_and!; try done. by exists d.
    + exists i, a, d. split_and!; [done..|]. rewrite Hp2p. by exists (m_routerId rtr'), nd', i', a'.
  - intros [(w & (rtr2 & i2 & a2 & [= <-] & -> & [-> ->]%Hu & -> & ->)%Hw)|(rtr2 & i2 & a2 & _ & [-> ->]%Hu & ->)%Hs];
      [left; by left|by right].
Qed.

Lemma alone_ok nd d : net_devices net !! nd = Some d -> dev_node d = n -> stub_device net nd d ->
  AnotherRouterOnLink net nd true = Ok false.
Proof using HP.
  intros Hd Hdn (_ & _ & Hch). unfold AnotherRouterOnLink, another_router. rewrite (device_ok net nd d) by done. cbn [mbind result_bind].
  destruct (dev_channel d) as [ch|] eqn:E; [|done]. destruct (Hch ch eq_refl) as (nd0 & nds & Hl & Hall).
  rewrite (channel_ok net nd d ch _ Hd E Hl). cbn [mbind result_bind]. rewrite bool_decide_false by done. cbn [negb assert mbind result_bind].
  clear Hl. induction (nd0 :: nds) as [|x l IH]; [done|]. cbn [another_on]. destruct (Z.eqb_spec x nd) as [->|Hx].
  - apply IH. intros; apply Hall; [by right|done].
  - destruct (Hall x) as (d' & node' & D1 & D2 & D3); [left|done|]. rewrite (not_bridged x d' node') by done. cbn [mbind result_bind].
    rewrite (GetNode_ok net x d' node') by done. cbn [mbind result_bind]. rewrite D3. apply IH. intros; apply Hall; [by right|done].
Qed.

Lemma single_ok nd d i a lsa c : net_devices net !! nd = Some d -> dev_node d = n -> nd ∈ node_devices node ->
  stub_device net nd d -> interface_on node nd i a -> m_ifup i = true ->
  exists rs, ProcessSingleBroadcastLink net nd lsa c = Ok (add_records rs lsa, c) /\ describes nd rs.
Proof using HP Hn Hrtr.
  intros Hd Hdn Hnd Hstub Hi Hup. unfold ProcessSingleBroadcastLink. rewrite (local_ok nd d i a) by done. cbn [mbind result_bind].
  rewrite (alone_ok nd d) by done. cbn [mbind result_bind negb]. destruct Hstub as (Hp2p & _).
  eexists [_]. split; [done|]. assert (port net u nd i a) as Hport by (apply (Port net u nd i a n node rtr); done). intros l. rewrite list_elem_of_singleton. split.
  - intros ->. right. exists i, a, d. rewrite Hp2p. done.
  - intros [(w & j & b & nd2 & i2 & a2 & W1 & _ & _ & _ & _ & (e & E1 & E2) & _)|(j & b & e & W1 & W2 & W3 & W4)]; [congruence|].
    assert (e = d) as -> by congruence. rewrite Hp2p in W4. destruct (port_here n node rtr u nd i a j b) as (_ & -> & ->); done.
Qed.

(** Discovery of one device, and of all. *)
Lemma DiscoverLink_ok ip nd lsa c : node_ipv4 node = Some ip -> nd ∈ node_devices node ->
  exists rs, DiscoverLink net node ip (lsa, c) nd = Ok (add_records rs lsa, c) /\ describes nd rs.
Proof using HP Hn Hrtr.
  intros Hip Hnd. destruct (pn_device _ HP _ _ _ Hn Hnd) as (d & Hd & Hdn & Hports & Hkind).
  destruct (pn_router _ HP _ _ _ Hn Hrtr) as (_ & ip' & E & Hifs). assert (ip' = ip) as -> by congruence.
  unfold DiscoverLink. rewrite (not_bridged nd d node) by by rewrite ?Hdn. cbn [mbind result_bind].
  rewrite bool_decide_false by (by intros [? [=]]).
  destruct (is_forwarding_ok ip nd) as (b & -> & Hb); [by eapply pn_stack|by intros i (? & _)%Hifs|]. cbn [mbind result_bind].
  destruct b; cbn [negb].
  - destruct Hb as (i & Hi & Hdi & Hup). destruct (Hifs i Hi) as (_ & Ha & _). destruct (m_ifaddrs i) as [|a rest] eqn:Eaddr; [done|].
    assert (interface_on node nd i a) as Hon by by exists ip, rest.
    rewrite (device_ok net nd d) by done. cbn [mbind result_bind]. destruct Hkind as [Hk|Hk].
    + assert (dev_IsPointToPoint d = true) as Hp by apply Hk. rewrite Hp, andb_false_r.
      cbn [fst snd]. destruct (point_to_point_ok nd d i a lsa) as (rs & -> & R); [done..|]. by exists rs.
    + assert (dev_IsPointToPoint d = false /\ dev_IsBroadcast d = true) as [Hp Hbr] by (split; apply Hk). rewrite Hp, Hbr.
      cbn [andb negb]. unfold ProcessBroadcastLink. rewrite (device_ok net nd d) by done. cbn [mbind result_bind]. rewrite Hports.
      by apply (single_ok nd d i a).
  - exists []. split; [unfold add_records; rewrite app_nil_r; by destruct lsa|]. intros l. split; [by intros ?%elem_of_nil|].
    assert (forall i a, port net u nd i a -> m_ifup i = false) as Hdown.
    { intros i a [n2 node2 rtr2 A1 A2 A3 A4 (ip2 & rest & C1 & C2 & C3 & _)].
      destruct (pn_device _ HP _ _ _ A1 A4) as (d2 & B1 & B2 & _). assert (node2 = node) as -> by congruence.
      assert (ip2 = ip) as -> by congruence. by apply Hb. }
    intros [(w & i & a & _ & _ & _ & W1%Hdown & W2 & _)|(i & a & _ & W1%Hdown & W2 & _)]; congruence.
Qed.

(** (the router's own advertisement) *)
Lemma discover_links ip lsa c l0 : node_ipv4 node = Some ip -> l0 ⊆ node_devices node ->
  exists rs, foldM (DiscoverLink net node ip) (lsa, c) l0 = Ok (add_records rs lsa, c) /\
    forall l, l ∈ rs <-> exists nd, nd ∈ l0 /\ ((exists w, wire_at net u nd w l) \/ stub_at net u nd l).
Proof using HP Hn Hrtr.
  intros Hip. revert lsa. induction l0 as [|nd l0 IH]; intros lsa Hl0.
  - exists []. split; [cbn; unfold add_records; rewrite app_nil_r; by destruct lsa|]. intros l. split; [by intros ?%elem_of_nil|].
    by intros (nd & ?%elem_of_nil & _).
  - rewrite foldM_cons. destruct (DiscoverLink_ok ip nd lsa c) as (rs & -> & R); [done|apply Hl0; by left|]. cbn [mbind result_bind].
    destruct (IH (add_records rs lsa)) as (rs' & -> & R'); [set_solver|]. exists (rs ++ rs'). split.
    { unfold add_records. cbn. by rewrite <- app_assoc. }
    intros l. rewrite elem_of_app, R'. rewrite (R l). split.
    + intros [H|(x & Hx & H)]; [exists nd|exists x]; (split; [|done]); [by left|by right].
    + intros (x & [->|Hx]%elem_of_cons & H); [by left|right; by exists x].
Qed.
End at_router.

(** ** The advertisements of a router *)

Definition routers_lsa (n : nat) (rtr : GlobalRouter) (rs : list GlobalRoutingLinkRecord) : GlobalRoutingLSA :=
  mkLSA RouterLSA (m_routerId rtr) (m_routerId rtr) rs 0 [] LSA_SPF_NOT_EXPLORED (Z.of_nat n).
Definition external_lsas (rtr : GlobalRouter) : list GlobalRoutingLSA := map (external_LSA (m_routerId rtr)) (m_injectedRoutes rtr).

Definition links_of (u : Ipv4Address) (rs : list GlobalRoutingLinkRecord) : Prop :=
  forall l, l ∈ rs <-> (exists w, wire net u w l) \/ stub net u l.

Lemma port_device n node rtr nd i a : net_nodes net !! n = Some node -> node_router node = Some rtr ->
  port net (m_routerId rtr) nd i a -> nd ∈ node_devices node.
Proof using HP.
  intros Hn Hr [n' node' rtr' Hn' Hr' E Hnd _]. assert (n' = n) as -> by by eapply (pn_ids _ HP n' n). congruence.
Qed.

Lemma DiscoverLSAs_ok n node rtr : net_nodes net !! n = Some node -> node_router node = Some rtr ->
  exists z rs, DiscoverLSAs net n = Ok (z, set_LSAs (routers_lsa n rtr rs :: external_lsas rtr) rtr) /\
    z = Z.of_nat (length (routers_lsa n rtr rs :: external_lsas rtr)) /\ links_of (m_routerId rtr) rs.
Proof using HP.
  intros Hn Hr. destruct (pn_router _ HP _ _ _ Hn Hr) as (Hlen & ip & Hip & _).
  destruct (discover_links n node rtr Hn Hr ip (routers_lsa n rtr []) [] (node_devices node) Hip) as (rs & Hrs & R); [done|].
  eexists _, rs. split; [|split].
  - unfold DiscoverLSAs. rewrite Hn. cbn [or_fault mbind result_bind]. rewrite Hr. cbn [or_fault mbind result_bind]. rewrite Hip.
    cbn [or_fault mbind result_bind]. unfold routers_lsa in Hrs. cbn [m_routerId ClearLSAs set_LSAs] in *. rewrite Hrs. done.
  - unfold GetNumLSAs. cbn [m_LSAs set_LSAs ClearLSAs m_injectedRoutes m_routerId app]. apply u32_small. unfold is_u32.
    unfold external_lsas. cbn [length]. rewrite length_map. lia.
  - intros l. rewrite R. split.
    + intros (nd & _ & [[w Hw]|Hs]); [left; exists w; by exists nd|right; by exists nd].
    + intros [(w & nd & Hw)|(nd & Hs)]; exists nd; (split; [|by eauto]).
      * destruct Hw as (i & a & nd' & i' & a' & Hw & _). by eapply port_device.
      * destruct Hs as (i & a & d & Hs & _). by eapply port_device.
Qed.

(** What the manager sees of a node. *)
Record node_view (i : nat * RNode S) (g : GNode) : Prop := {
  nv_router : gn_router g = m_routerId <$> node_router i.2;
  nv_routing : gn_routing g = (rtr ← node_router i.2; r_routingProtocol rtr);
  nv_prefix : gn_prefix g = GetInterfaceForPrefix <$> node_ipv4 i.2;
  nv_here : gn_here g = node_here i.2;
  nv_lsas rtr : node_router i.2 = Some rtr -> exists rs, gn_lsas g = routers_lsa i.1 rtr rs :: external_lsas rtr /\
    links_of (m_routerId rtr) rs
}.

Lemma map_lookup_all {A} (d : A) (l : list A) :
  map (fun j => default d (l !! Z.to_nat j)) (seqZ 0 (Z.of_nat (length l))) = l.
Proof using.
  apply list_eq. intros k. rewrite list_lookup_fmap. destruct (decide (k < length l)%nat) as [Hk|Hk].
  - rewrite lookup_seqZ_lt by lia. change (Some (default d (l !! Z.to_nat (0 + Z.of_nat k))) = l !! k). rewrite Z.add_0_l, Nat2Z.id. by destruct (lookup_lt_is_Some_2 l k Hk) as [x ->].
  - rewrite lookup_seqZ_ge by lia. cbn. symmetry. apply lookup_ge_None. lia.
Qed.

Lemma discover_node_ok n node : net_nodes net !! n = Some node -> exists g, discover_node net (n, node) = Ok g /\ node_view (n, node) g.
Proof using HP.
  intros Hn. unfold discover_node. cbn [fst snd]. destruct (node_router node) as [rtr|] eqn:Hr.
  - destruct (DiscoverLSAs_ok n node rtr Hn Hr) as (z & rs & -> & Hz & Hrs). cbn [mbind result_bind]. eexists. split; [done|].
    split; cbn; rewrite ?Hr; try done. intros rtr' [= <-]. exists rs. split; [|done]. unfold Router_GetLSA. cbn [m_LSAs set_LSAs].
    rewrite Hz. apply map_lookup_all.
  - eexists. split; [done|]. split; cbn; by rewrite ?Hr.
Qed.

Lemma discover_all_ok : exists gs, discover net = Ok gs /\ Forall2 node_view (imap pair (net_nodes net)) gs.
Proof using HP.
  apply mapM_ok. intros [n node] (k & x & [= -> <-] & Hx)%elem_of_lookup_imap. by apply discover_node_ok.
Qed.

(** ** The database of the network *)

Lemma view_lsas_ok i g : node_view i g -> lsas_ok g.
Proof using.
  intros [V1 _ _ _ V5] u Hu. rewrite V1 in Hu. apply fmap_Some in Hu as (rtr & Hr & ->).
  destruct (V5 rtr Hr) as (rs & E & _). exists (routers_lsa i.1 rtr rs), (external_lsas rtr). split_and!; [done..|].
  unfold external_lsas. apply Forall_map, Forall_forall. done.
Qed.

(** A link to a router comes with one back. *)
Lemma wire_back u w l : wire net u w l -> exists l', wire net w u l'.
Proof using HP.
  intros (nd & i & a & nd' & i' & a' & P1 & Hup & P2 & Hup' & Hc & (d & Hd & Hp2p) & ->).
  destruct P1 as [n node rtr A1 A2 A3 A4 A5]. destruct (pn_device _ HP _ _ _ A1 A4) as (d0 & B1 & B2 & _ & [B4|B4]).
  2: { destruct B4 as [B4 _]. congruence. }
  assert (d0 = d) as -> by congruence. destruct B4 as (_ & nd2 & d' & node' & C1 & C2 & C3 & C4 & C5 & _).
  assert (nd2 = nd') as -> by by eapply connected_unique.
  exists (mkLinkRecord u (m_local a') PointToPoint (Ipv4Stack.m_metric i')), nd', i', a', nd, i, a.
  split_and!; try done; [apply (Port net u nd i a n node rtr); done| |by exists d'].
  destruct Hc as (e & ch & D1 & D2 & D3 & D4). exists d', ch. split_and!; [done|congruence|done|]. destruct D4; [by right|by left].
Qed.

Lemma wire_metric u w l : wire net u w l -> 1 <= m_metric l <= 65535.
Proof using HP.
  intros (nd & i & a & nd' & i' & a' & [n node rtr A1 A2 A3 A4 (ip & rest & E1 & E2 & _)] & _ & _ & _ & _ & _ & ->). cbn.
  destruct (pn_router _ HP _ _ _ A1 A2) as (_ & ip' & E & H). assert (ip' = ip) as -> by congruence. by apply H.
Qed.

Lemma wire_router u w l : wire net u w l -> exists n node rtr, net_nodes net !! n = Some node /\ node_router node = Some rtr /\ m_routerId rtr = w.
Proof using. intros (nd & i & a & nd' & i' & a' & _ & _ & [n node rtr A1 A2 A3 _ _] & _). by exists n, node, rtr. Qed.

Lemma next_link_found id l : (exists lr, lr ∈ l /\ m_linkId lr = id) -> is_Some (next_link id true false l).
Proof using.
  intros (lr & Hin & E). induction l as [|x l IH]; [by apply elem_of_nil in Hin|]. cbn. destruct (Z.eqb_spec (m_linkId x) id); [by eexists|].
  apply IH. by apply elem_of_cons in Hin as [->|].
Qed.

(** The database holds the records that describe the network. *)
Record network_lsdb (db : LSDB) : Prop := {
  nl_lsdb n node rtr : net_nodes net !! n = Some node -> node_router node = Some rtr -> p2p_lsdb (m_database db) (m_routerId rtr);
  nl_recs u l : recs (m_database db) u l <-> (exists w, wire net u w l) \/ stub net u l;
  nl_lsa n node rtr : net_nodes net !! n = Some node -> node_router node = Some rtr ->
    exists rs, map_find (m_routerId rtr) (m_database db) = Some (routers_lsa n rtr rs);
  nl_only u lsa : map_find u (m_database db) = Some lsa -> exists n node rtr rs, net_nodes net !! n = Some node /\
    node_router node = Some rtr /\ m_routerId rtr = u /\ lsa = routers_lsa n rtr rs;
  nl_externals e : e ∈ m_extdatabase db <-> exists n node rtr route, net_nodes net !! n = Some node /\
    node_router node = Some rtr /\ route ∈ m_injectedRoutes rtr /\ e = external_LSA (m_routerId rtr) route
}.

Lemma nl_link db u l w : network_lsdb db -> link (m_database db) u l w <-> wire net u w l.
Proof using.
  intros N. unfold link. rewrite (nl_recs _ N). split.
  - intros ([[w' Hw]|(nd & i & a & d & _ & _ & _ & H)] & Ht & Hid).
    + assert (w' = w) as ->; [|done]. by destruct Hw as (? & ? & ? & ? & ? & ? & _ & _ & _ & _ & _ & _ & ->).
    + destruct (dev_IsPointToPoint d); [destruct H as (? & ? & ? & ? & _ & _ & ->)|subst l]; done.
  - intros Hw. split; [left; by exists w|]. by destruct Hw as (? & ? & ? & ? & ? & ? & _ & _ & _ & _ & _ & _ & ->).
Qed.

Lemma view_of_router gs n node rtr : Forall2 node_view (imap pair (net_nodes net)) gs -> net_nodes net !! n = Some node ->
  node_router node = Some rtr -> exists g rs, gs !! n = Some g /\ gn_router g = Some (m_routerId rtr) /\
    gn_lsas g = routers_lsa n rtr rs :: external_lsas rtr /\ links_of (m_routerId rtr) rs.
Proof using.
  intros Hgs Hn Hr. destruct (Forall2_lookup_l _ _ _ n (n, node) Hgs) as (g & G1 & [V1 _ _ _ V5]).
  { by rewrite list_lookup_imap, Hn. }
  destruct (V5 rtr Hr) as (rs & E & Hrs). exists g, rs. cbn in *. rewrite V1, Hr. done.
Qed.

Lemma router_of_view gs g u : Forall2 node_view (imap pair (net_nodes net)) gs -> g ∈ gs -> gn_router g = Some u ->
  exists n node rtr rs, net_nodes net !! n = Some node /\ node_router node = Some rtr /\ m_routerId rtr = u /\
    gn_lsas g = routers_lsa n rtr rs :: external_lsas rtr /\ links_of u rs.
Proof using.
  intros Hgs [k Hk]%list_elem_of_lookup Hu. destruct (Forall2_lookup_r _ _ _ k g Hgs Hk) as ([n node] & I & [V1 _ _ _ V5]).
  rewrite list_lookup_imap in I. apply fmap_Some in I as (x & Hx & [= -> ->]). cbn in *. rewrite V1 in Hu.
  apply fmap_Some in Hu as (rtr & Hr & ->). destruct (V5 rtr Hr) as (rs & E & Hrs). by exists k, x, rtr, rs.
Qed.

(** The database after the advertisements [gs] of all the nodes. *)
Section gathered.
Context (gs : list GNode) (Hgs : Forall2 node_view (imap pair (net_nodes net)) gs).
#[local] Notation db := (foldl insert_lsas new_LSDB gs).

Lemma gathered : map_wf (m_database db) /\ (length (m_database db) <= length gs)%nat /\
  m_extdatabase db = concat (map node_externals gs) /\
  (forall u lsa, map_find u (m_database db) = Some lsa -> exists g, g ∈ gs /\ gn_router g = Some u /\ head (gn_lsas g) = Some lsa) /\
  (forall u, (exists g, g ∈ gs /\ gn_router g = Some u) -> is_Some (map_find u (m_database db))).
Proof using HP Hgs.
  assert (Forall lsas_ok gs) as Hok.
  { apply Forall_forall. intros g [k Hk]%list_elem_of_lookup. destruct (Forall2_lookup_r _ _ _ k g Hgs Hk) as (i & _ & Hv).
    by eapply view_lsas_ok. }
  destruct (insert_all gs new_LSDB db) as (Hwf & Hlen & Hext & Hfind & Hkeys); [done|apply map_wf_nil|done|].
  split_and!; [done..| |].
  - intros u lsa [?|Hg]%Hfind; done.
  - intros u Hg. apply Hkeys. by right.
Qed.

Lemma gathered_only u lsa : map_find u (m_database db) = Some lsa -> exists n node rtr rs, net_nodes net !! n = Some node /\
  node_router node = Some rtr /\ m_routerId rtr = u /\ lsa = routers_lsa n rtr rs /\ links_of u rs.
Proof using HP Hgs.
  destruct gathered as (_ & _ & _ & Hfind & _). intros (g & Hg & Hu & Hh)%Hfind.
  destruct (router_of_view gs g u Hgs Hg Hu) as (n & node & rtr & rs & N1 & N2 & N3 & N4 & N5).
  exists n, node, rtr, rs. split_and!; [done..| |done]. rewrite N4 in Hh. by injection Hh.
Qed.

Lemma gathered_router n node rtr : net_nodes net !! n = Some node -> node_router node = Some rtr ->
  exists rs, map_find (m_routerId rtr) (m_database db) = Some (routers_lsa n rtr rs) /\ links_of (m_routerId rtr) rs.
Proof using HP Hgs.
  intros Hn Hr. destruct gathered as (_ & _ & _ & _ & Hkeys).
  destruct (view_of_router gs n node rtr Hgs Hn Hr) as (g & _ & G1 & G2 & _).
  destruct (Hkeys (m_routerId rtr)) as [lsa Hl]. { exists g. split; [by eapply list_elem_of_lookup_2|done]. }
  destruct (gathered_only _ _ Hl) as (n' & node' & rtr' & rs & N1 & N2 & N3 & -> & N5).
  assert (n' = n) as -> by by eapply (pn_ids _ HP n' n). assert (rtr' = rtr) as -> by congruence. by exists rs.
Qed.

Lemma gathered_recs u l : recs (m_database db) u l <-> (exists w, wire net u w l) \/ stub net u l.
Proof using HP Hgs.
  split.
  - intros (lsa & H & Hl). destruct (gathered_only _ _ H) as (n & node & rtr & rs & _ & _ & _ & -> & N). by apply N.
  - intros Hl. assert (exists n node rtr, net_nodes net !! n = Some node /\ node_router node = Some rtr /\ m_routerId rtr = u) as
      (n & node & rtr & N1 & N2 & <-).
    { destruct Hl as [(w & nd & i & a & nd' & i' & a' & [n node rtr] & _)|(nd & i & a & d & [n node rtr] & _)]; by exists n, node, rtr. }
    destruct (gathered_router n node rtr N1 N2) as (rs & H & R). eexists. split; [exact H|]. by apply R.
Qed.

Lemma gathered_link u l w : link (m_database db) u l w -> wire net u w l.
Proof using HP Hgs.
  intros (Hl & Ht & Hid). apply gathered_recs in Hl as [[w' Hw]|(nd & i & a & d & _ & _ & _ & H)].
  - assert (w' = w) as ->; [|done]. by destruct Hw as (? & ? & ? & ? & ? & ? & _ & _ & _ & _ & _ & _ & ->).
  - destruct (dev_IsPointToPoint d); [destruct H as (? & ? & ? & ? & _ & _ & ->)|subst l]; done.
Qed.

Lemma gathered_p2p n node rtr : net_nodes net !! n = Some node -> node_router node = Some rtr ->
  p2p_lsdb (m_database db) (m_routerId rtr).
Proof using HP Hgs.
  intros Hn Hr. destruct gathered as (Hwf & Hlen & _). split.
  - done.
  - destruct (gathered_router n node rtr Hn Hr) as (rs & -> & _). by eexists.
  - pose proof (pn_small _ HP). rewrite <- (Forall2_length _ _ _ Hgs), length_imap in Hlen. lia.
  - intros u lsa H. destruct (gathered_only _ _ H) as (? & ? & ? & ? & _ & _ & <- & -> & _). done.
  - intros u l [(w & nd & i & a & nd' & i' & a' & _ & _ & _ & _ & _ & _ & ->)|(nd & i & a & d & _ & _ & _ & H)]%gathered_recs; [by right|].
    left. destruct (dev_IsPointToPoint d); [destruct H as (? & ? & ? & ? & _ & _ & ->)|subst l]; done.
  - intros u l w Hw%gathered_link. split; [by eapply wire_metric|]. destruct (wire_router _ _ _ Hw) as (n2 & node2 & rtr2 & N1 & N2 & <-).
    destruct (gathered_router _ _ _ N1 N2) as (rs & -> & _). by eexists.
  - intros l w Hw%gathered_link. destruct (wire_back _ _ _ Hw) as (l' & Hl'). unfold back.
    assert (recs (m_database db) w l') as (lsa & -> & Hin) by (apply gathered_recs; left; by eexists). cbn. apply next_link_found. exists l'.
    split; [done|]. by destruct Hl' as (? & ? & ? & ? & ? & ? & _ & _ & _ & _ & _ & _ & ->).
Qed.

Lemma gathered_externals e : e ∈ m_extdatabase db <-> exists n node rtr route, net_nodes net !! n = Some node /\
  node_router node = Some rtr /\ route ∈ m_injectedRoutes rtr /\ e = external_LSA (m_routerId rtr) route.
Proof using HP Hgs.
  destruct gathered as (_ & _ & -> & _). rewrite list_elem_of_In, in_concat. split.
  - intros (es & (g & <- & Hg%list_elem_of_In)%in_map_iff & He%list_elem_of_In). unfold node_externals in He.
    destruct (gn_router g) as [u|] eqn:Hu; [|by apply elem_of_nil in He].
    destruct (router_of_view gs g u Hgs Hg Hu) as (n & node & rtr & rs & N1 & N2 & <- & N4 & _). rewrite N4 in He. cbn in He.
    unfold external_lsas in He. apply list_elem_of_In, in_map_iff in He as (route & <- & Hr%list_elem_of_In). by exists n, node, rtr, route.
  - intros (n & node & rtr & route & N1 & N2 & N3 & ->).
    destruct (view_of_router gs n node rtr Hgs N1 N2) as (g & rs & G1 & G2 & G3 & _). exists (node_externals g). split.
    + apply in_map, list_elem_of_In. by eapply list_elem_of_lookup_2.
    + unfold node_externals. rewrite G2, G3. cbn. by apply in_map, list_elem_of_In.
Qed.

Lemma database_ok : network_lsdb db.
Proof using HP Hgs.
  split; [exact gathered_p2p|exact gathered_recs| | |exact gathered_externals].
  - intros n node rtr Hn Hr. destruct (gathered_router n node rtr Hn Hr) as (rs & H & _). by exists rs.
  - intros u lsa (n & node & rtr & rs & N1 & N2 & N3 & N4 & _)%gathered_only. by exists n, node, rtr, rs.
Qed.
End gathered.
End network.
End links.

(** ** A test for [p2p_network] *)

Section test.
Context {S : Type} (net : Network S).
Implicit Types (node : RNode S) (ip : L3 S).

Definition stack_ok_b ip : bool :=
  (Z.of_nat (length (m_interfaces ip)) <? 2 ^ 32) && bool_decide (NoDup (map m_device (m_interfaces ip))).
Definition interface_ok_b (i : Ipv4Interface) : bool :=
  m_forwarding i && negb (bool_decide (m_ifaddrs i = [])) && (1 <=? Ipv4Stack.m_metric i) && (Ipv4Stack.m_metric i <=? 65535).
Definition has_interface_b node (nd : NetDevice) : bool :=
  match node_ipv4 node with
  | Some ip => existsb (fun i => (m_device i =? nd) && negb (bool_decide (m_ifaddrs i = []))) (m_interfaces ip)
  | None => false
  end.

Definition far_end (nd : NetDevice) (d : NetDev) : option NetDevice :=
  ch ← dev_channel d;
  l ← net_channels net !! ch;
  match l with
  | [x; y] => if bool_decide (x = y) then None else if x =? nd then Some y else if y =? nd then Some x else None
  | _ => None
  end.
Definition p2p_device_b (nd : NetDevice) (d : NetDev) : bool :=
  dev_IsPointToPoint d &&
  match far_end nd d with
  | None => false
  | Some nd' =>
      match net_devices net !! nd' with
      | None => false
      | Some d' =>
          bool_decide (dev_channel d' = dev_channel d) && dev_IsPointToPoint d' &&
          match net_nodes net !! dev_node d' with
          | None => false
          | Some node' => bool_decide (nd' ∈ node_devices node') && bool_decide (is_Some (node_ipv4 node')) &&
              match node_router node' with Some _ => has_interface_b node' nd' | None => true end
          end
      end
  end.
Definition silent_b (nd nd' : NetDevice) : bool :=
  (nd' =? nd) ||
  match net_devices net !! nd' with
  | Some d' => match net_nodes net !! dev_node d' with
      | Some node' => match node_router node' with None => true | Some _ => false end
      | None => false end
  | None => false
  end.
Definition stub_device_b (nd : NetDevice) (d : NetDev) : bool :=
  negb (dev_IsPointToPoint d) && dev_IsBroadcast d &&
  match dev_channel d with
  | None => true
  | Some ch => match net_channels net !! ch with Some (nd0 :: nds) => forallb (silent_b nd) (nd0 :: nds) | _ => false end
  end.
Definition device_ok_b (n : nat) (nd : NetDevice) : bool :=
  match net_devices net !! nd with
  | None => false
  | Some d => bool_decide (dev_node d = n) && bool_decide (dev_ports d = None) && (p2p_device_b nd d || stub_device_b nd d)
  end.
Definition router_ok_b node (rtr : GlobalRouter) : bool :=
  (Z.of_nat (length (m_injectedRoutes rtr)) + 1 <? 2 ^ 32) &&
  match node_ipv4 node with Some ip => forallb interface_ok_b (m_interfaces ip) | None => false end.
Definition node_ok_b (i : nat * RNode S) : bool :=
  match node_ipv4 i.2 with Some ip => stack_ok_b ip | None => true end &&
  match node_router i.2 with Some rtr => router_ok_b i.2 rtr | None => true end &&
  forallb (device_ok_b i.1) (node_devices i.2).

Definition router_ids : list (nat * Ipv4Address) :=
  omap (fun i => rtr ← node_router i.2; Some (i.1, m_routerId rtr)) (imap pair (net_nodes net)).
Definition p2p_network_b : bool :=
  bool_decide (NoDup router_ids.*2) && forallb node_ok_b (imap pair (net_nodes net)) && (Z.of_nat (length (net_nodes net)) * 65535 <? 2 ^ 32).

Lemma has_interface_b_spec node nd : has_interface_b node nd = true -> exists i a, interface_on node nd i a.
Proof using.
  unfold has_interface_b. destruct (node_ipv4 node) as [ip|] eqn:E; [|done].
  intros (i & Hi%list_elem_of_In & [H1 H2]%andb_true_iff)%existsb_exists. destruct (m_ifaddrs i) as [|a rest] eqn:Ea; [done|].
  exists i, a, ip, rest. split_and!; [done..|lia|done].
Qed.

Lemma far_end_spec nd d nd' : net_devices net !! nd = Some d -> far_end nd d = Some nd' -> connected net nd nd'.
Proof using.
  unfold far_end. intros Hd H. apply bind_Some in H as (ch & Hch & H). apply bind_Some in H as (l & Hl & H).
  destruct l as [|x [|y [|]]]; try done. case_bool_decide as Hne; [done|]. exists d, ch.
  destruct (Z.eqb_spec x nd) as [->|]; [|destruct (Z.eqb_spec y nd) as [->|]; [|done]]; injection H as <-; split_and!; try done.
  - by left.
  - by right.
Qed.

Lemma p2p_device_b_spec nd d : net_devices net !! nd = Some d -> p2p_device_b nd d = true -> p2p_device net nd d.
Proof using.
  intros Hd [Hp H]%andb_true_iff. split; [done|]. destruct (far_end nd d) as [nd'|] eqn:Ef; [|done].
  destruct (net_devices net !! nd') as [d'|] eqn:Ed'; [|done]. destruct (net_nodes net !! dev_node d') as [node'|] eqn:En; [|by rewrite andb_false_r in H].
  rewrite !andb_true_iff, !bool_decide_eq_true in H. destruct H as ([H1 H2] & (H3 & H4) & H5).
  exists nd', d', node'. split_and!; try done; [by eapply far_end_spec|]. intros [rtr Hr]. rewrite Hr in H5. by apply has_interface_b_spec.
Qed.

Lemma stub_device_b_spec nd d : stub_device_b nd d = true -> stub_device net nd d.
Proof using.
  unfold stub_device_b. rewrite !andb_true_iff, negb_true_iff. intros ([H1 H2] & H3). split_and!; [done..|]. intros ch Hch. rewrite Hch in H3.
  destruct (net_channels net !! ch) as [[|nd0 nds]|]; [done| |done]. exists nd0, nds. split; [done|]. intros nd' Hin Hne.
  rewrite forallb_forall in H3. apply list_elem_of_In in Hin. apply H3 in Hin. unfold silent_b in Hin.
  destruct (Z.eqb_spec nd' nd); [done|]. cbn in Hin. destruct (net_devices net !! nd') as [d'|]; [|done].
  destruct (net_nodes net !! dev_node d') as [node'|] eqn:E; [|done]. exists d', node'. by destruct (node_router node').
Qed.

Lemma p2p_network_b_spec : p2p_network_b = true -> p2p_network net.
Proof using.
  unfold p2p_network_b. rewrite !andb_true_iff, bool_decide_eq_true, forallb_forall, Z.ltb_lt. intros ((Hids & Hnodes) & Hsmall).
  assert (forall n node, net_nodes net !! n = Some node -> node_ok_b (n, node) = true) as Hok.
  { intros n node Hn. apply Hnodes, list_elem_of_In. apply list_elem_of_lookup. exists n. by rewrite list_lookup_imap, Hn. }
  unfold node_ok_b in Hok. split.
  - intros n n' node node' rtr rtr' Hn Hn' Hr Hr' E.
    assert (forall m x y, net_nodes net !! m = Some x -> node_router x = Some y -> (m, m_routerId y) ∈ router_ids) as Hin.
    { intros m x y Hm Hx. apply list_elem_of_omap. exists (m, x). split; [|cbn; by rewrite Hx].
      apply list_elem_of_lookup. exists m. by rewrite list_lookup_imap, Hm. }
    pose proof (Hin _ _ _ Hn Hr) as H1. pose proof (Hin _ _ _ Hn' Hr') as H2. rewrite <- E in H2.
    apply list_elem_of_lookup in H1 as [i Hi], H2 as [j Hj]. assert (i = j) as ->; [|congruence].
    eapply NoDup_lookup; [exact Hids| |]; rewrite list_lookup_fmap; by rewrite ?Hi, ?Hj.
  - intros n node ip Hn Hip. specialize (Hok n node Hn). cbn in Hok. rewrite Hip, !andb_true_iff in Hok.
    destruct Hok as ((H & _) & _). unfold stack_ok_b in H. rewrite andb_true_iff, bool_decide_eq_true in H. split; [lia|apply H].
  - intros n node rtr Hn Hr. specialize (Hok n node Hn). cbn in Hok. rewrite Hr, !andb_true_iff in Hok. destruct Hok as ((_ & H) & _).
    unfold router_ok_b in H. apply andb_true_iff in H as [H1 H2]. split; [lia|]. destruct (node_ipv4 node) as [ip|]; [|done].
    exists ip. split; [done|]. intros i Hi%list_elem_of_In. rewrite forallb_forall in H2. specialize (H2 i Hi). unfold interface_ok_b in H2.
    rewrite !andb_true_iff, negb_true_iff in H2. destruct H2 as (((A1 & A2) & A3) & A4). split_and!; [done| |lia|lia].
    by apply bool_decide_eq_false in A2.
  - intros n node nd Hn Hnd. specialize (Hok n node Hn). cbn in Hok. rewrite !andb_true_iff in Hok. destruct Hok as [_ H].
    rewrite forallb_forall in H. apply list_elem_of_In in Hnd. specialize (H nd Hnd). unfold device_ok_b in H.
    destruct (net_devices net !! nd) as [d|] eqn:Hd; [|done]. exists d. rewrite !andb_true_iff, !bool_decide_eq_true, orb_true_iff in H.
    destruct H as ((H1 & H2) & H3). split_and!; [done..|]. destruct H3; [left; by apply p2p_device_b_spec|right; by apply stub_device_b_spec].
  - done.
Qed.
End test.
