(* ===== verification/GlobalNetwork.v ===== *)
(** * GlobalNetwork: the routes of all routers

    From a network of point-to-point links (GlobalLinks) to the tables of all
    its routers: what the calculation for one router leaves alone, and that the
    calculations for all of them, one after the other, give every router the
    tables of GlobalRoutes. *)

From stdpp Require Import gmap.
From S2P Require Import Prelude StdMap Ipv4Address Node Triple StaticRouting Ipv4Stack GlobalRouting GlobalLsdb GlobalSpf GlobalPaths GlobalTree GlobalSpfSpec GlobalSpfResult GlobalRoutes GlobalDiscovery GlobalLinks.

(** ** What a calculation keeps *)

Lemma initialize_twice db : LSDB_Initialize (LSDB_Initialize db) = LSDB_Initialize db.
Proof. destruct db as [l e]. unfold LSDB_Initialize. cbn. f_equal. by rewrite map_map. Qed.

Lemma initialize_status k s db : LSDB_Initialize (set_lsa_status k s db) = LSDB_Initialize db.
Proof.
  destruct db as [l e]. unfold LSDB_Initialize, set_lsa_status. cbn. f_equal.
  induction l as [|[k' v] l IH]; [done|]. cbn. case_decide; cbn; [done|by rewrite IH].
Qed.

Lemma bind_start {S A B} (h : handler S Empty_set A) (k : A -> handler S Empty_set B) st st' : h st = h st' -> (h ≫= k) st = (h ≫= k) st'.
Proof. intros H. unfold mbind, handler_bind. by rewrite H. Qed.

(** The calculation starts with the initial states of the advertisements. *)
Lemma SPFCalculate_initialize below r st : SPFCalculate below r st = SPFCalculate below r (set_lsdb (LSDB_Initialize (m_lsdb st)) st).
Proof.
  assert (plant r st = plant r (set_lsdb (LSDB_Initialize (m_lsdb st)) st)) as H.
  { unfold plant. rewrite !run_modify. cbn. by rewrite initialize_twice. }
  unfold SPFCalculate. by apply bind_start.
Qed.

(** Nodes keep all but the tables of the router [r]. *)
Definition same_node (r : Ipv4Address) (g g' : GNode) : Prop := gn_router g' = gn_router g /\ gn_lsas g' = gn_lsas g /\
  gn_prefix g' = gn_prefix g /\ gn_here g' = gn_here g /\ (gn_router g <> Some r -> gn_routing g' = gn_routing g).

Lemma same_node_refl r g : same_node r g g.
Proof. by split_and!. Qed.

Lemma same_node_trans r g1 g2 g3 : same_node r g1 g2 -> same_node r g2 g3 -> same_node r g1 g3.
Proof. intros (A1 & A2 & A3 & A4 & A5) (B1 & B2 & B3 & B4 & B5). split_and!; try congruence. intros H. rewrite B5, A5; congruence. Qed.

Lemma same_node_set r g gr : gn_router g = Some r -> same_node r g (set_routing gr g).
Proof. intros H. by split_and!. Qed.

Notation same_nodes r := (Forall2 (same_node r)).

Lemma same_nodes_refl r l : same_nodes r l l.
Proof. apply Forall_Forall2_diag, Forall_true, same_node_refl. Qed.

Lemma same_nodes_trans r l1 l2 l3 : same_nodes r l1 l2 -> same_nodes r l2 l3 -> same_nodes r l1 l3.
Proof.
  intros H1. revert l3. induction H1 as [|a b l1 l2 Hab _ IH]; intros l3 H2; inversion H2; subst; [constructor|].
  constructor; [by eapply same_node_trans|by apply IH].
Qed.

Lemma at_router_same all r f l l' : (forall g g', gn_router g = Some r -> f g = Ok g' -> same_node r g g') ->
  at_router all r f l = Ok l' -> same_nodes r l l'.
Proof.
  intros Hf. revert l'. induction l as [|g l IH]; intros l' H; cbn in H; [by injection H as <-|]. case_decide as E.
  - apply bind_Ok in H as (? & _ & H). apply bind_Ok in H as (g' & Hg & H). destruct all.
    + apply bind_Ok in H as (l2 & Hl & [= <-]). constructor; [by apply Hf|by apply IH].
    + injection H as <-. constructor; [by apply Hf|apply same_nodes_refl].
  - apply bind_Ok in H as (l2 & Hl & [= <-]). constructor; [apply same_node_refl|by apply IH].
Qed.

Lemma add_routes_same r add v g g' : gn_router g = Some r -> add_routes add v g = Ok g' -> same_node r g g'.
Proof. intros Hr (gr & _ & [= <-])%bind_Ok. by apply same_node_set. Qed.

Section frame.
Context (below : nat -> nat -> bool) (r : Ipv4Address) (gs : list GNode) (db0 : LSDB).
(** The router's own advertisement, and its node. *)
Context (Hlsa : forall lsa, GetLSA r db0 = Some lsa -> m_linkStateId lsa = r /\
  forall g, gs !! Z.to_nat (m_node_id lsa) = Some g -> gn_router g = Some r).

(** Before the root is planted, and from then on. *)
Record around (st : Spf) : Prop := { ar_nodes : same_nodes r gs (NodeList st); ar_db : LSDB_Initialize (m_lsdb st) = db0 }.
Record kept (st : Spf) : Prop := {
  kp_around : around st;
  kp_root p v : m_spfroot st = Some p -> vertices st !! p = Some v -> m_vertexId v = r;
  kp_next p : m_spfroot st = Some p -> (p < next_vertex st)%nat
}.

Definition keeps {A} (h : M A) : Prop := htriple (fun _ => True) kept h (fun _ => kept).

Lemma keeps_bind {A B} (h : M A) (k : A -> M B) : keeps h -> (forall a, keeps (k a)) -> keeps (h ≫= k).
Proof using. intros H1 H2. eapply triple_bind; [exact H1|exact H2]. Qed.

Lemma keeps_ret {A} (a : A) : keeps (mret a).
Proof using. by intros st b st' o H [= <- <- <-]. Qed.

Lemma keeps_get : keeps get.
Proof using. by intros st b st' o H [= <- <- <-]. Qed.

Lemma keeps_lift {A} (c : result A) : keeps (lift c).
Proof using. intros st b st' o H. unfold lift. by intros (a & _ & [= <- <- <-])%bind_Ok. Qed.

Lemma keeps_for {A} (l : list A) (f : A -> M unit) : (forall a, keeps (f a)) -> keeps (for_loop l f).
Proof using. intros H. apply triple_for. intros a _. apply H. Qed.

Lemma keeps_modify f : (forall st, kept st -> kept (f st)) -> keeps (modify f).
Proof using. intros H. by apply triple_modify. Qed.

Lemma keeps_vertex p : keeps (vertex p).
Proof using. apply keeps_bind; [apply keeps_get|intros; apply keeps_lift]. Qed.

Lemma keeps_update p f : (forall v, m_vertexId (f v) = m_vertexId v) -> keeps (update_vertex p f).
Proof using.
  intros Hf st a st' o H. unfold update_vertex. intros (v & s1 & o1 & o2 & H1 & H2 & ->)%handler_bind_Ok.
  destruct (keeps_vertex p _ _ _ _ H H1) as [_ Ho]. unfold vertex in H1. rewrite run_get in H1. unfold lift in H1.
  apply bind_Ok in H1 as (v' & Hv%or_fault_Ok & [= <- <- <-]). injection H2 as <- <- <-. split; [|done].
  destruct H as [Ha Hr Hn]. split; [by destruct Ha|cbn|done]. intros q w Hq Hw. destruct (decide (q = p)) as [->|Hne].
  - rewrite lookup_insert_eq in Hw. injection Hw as <-. rewrite Hf. by eapply Hr.
  - rewrite lookup_insert_ne in Hw by done. by eapply Hr.
Qed.

Lemma keeps_candidate q : keeps (modify (set_candidate q)).
Proof using. apply keeps_modify. intros st [[] ? ?]. by split. Qed.

Lemma keeps_status k s : keeps (set_status k s).
Proof using. apply keeps_modify. intros st [[H1 H2] ? ?]. split; [split; [done|]|done|done]. cbn. by rewrite initialize_status. Qed.

Lemma keeps_fresh (v : SPFVertex) : keeps (st ← get; modify (fun st1 => mkSpf (m_lsdb st1) (<[next_vertex st := v]> (vertices st1))
  (Datatypes.S (next_vertex st)) (m_spfroot st1) (candidate st1) (NodeList st1))).
Proof using.
  intros st a st' o [[H1 H2] Hr Hn]. rewrite run_get. unfold modify. intros [= <- <- <-]. split; [|done]. split; cbn.
  - by split.
  - intros p w Hp Hw. specialize (Hn p Hp). rewrite lookup_insert_ne in Hw by lia. by eapply Hr.
  - intros p Hp. specialize (Hn p Hp). lia.
Qed.

Lemma keeps_new k : keeps (new_vertex k).
Proof using.
  intros st a st' o Hk. unfold new_vertex. rewrite run_get.
  intros (lsa & s1 & o1 & o2 & H1 & H2 & ->)%handler_bind_Ok. destruct (keeps_lift _ _ _ _ _ Hk H1) as [_ Ho].
  unfold lift in H1. apply bind_Ok in H1 as (lsa' & _ & [= <- <- <-]). rewrite run_modify in H2. injection H2 as <- <- <-.
  split; [|done]. eapply (keeps_fresh (MakeSPFVertex k lsa') st); [done|]. by rewrite run_get.
Qed.

Lemma keeps_nodes l st : kept st -> same_nodes r gs l -> kept (set_NodeList l st).
Proof using. intros [[] ? ?] Hl. by split. Qed.

Create HintDb keeps.
Hint Resolve keeps_ret keeps_get keeps_lift keeps_vertex keeps_candidate keeps_status keeps_new : keeps.
Ltac keep := repeat first
  [ solve [eauto with keeps nocore]
  | apply keeps_update; intros; reflexivity
  | apply keeps_for; intros
  | apply keeps_bind; [|intros]
  | case_match ].

Lemma keeps_type p : keeps (vertex_type p).
Proof using. unfold vertex_type. keep. Qed.
Lemma keeps_lsa_at k f : keeps (lsa_at k f).
Proof using. unfold lsa_at. keep. Qed.
Lemma keeps_lsa_of p : keeps (lsa_of p).
Proof using. unfold lsa_of. pose proof keeps_lsa_at. keep. Qed.
Lemma keeps_is_root p : keeps (is_root p).
Proof using. unfold is_root. keep. Qed.
Lemma keeps_find a : keeps (Find a).
Proof using. unfold Find. keep. Qed.
Lemma keeps_interface a m : keeps (FindOutgoingInterfaceId a m).
Proof using. unfold FindOutgoingInterfaceId. keep. Qed.
Lemma keeps_next_link v w b : keeps (SPFGetNextLink v w b).
Proof using. unfold SPFGetNextLink. pose proof keeps_lsa_of. keep. Qed.
Hint Resolve keeps_type keeps_lsa_at keeps_lsa_of keeps_is_root keeps_find keeps_interface keeps_next_link : keeps.

Lemma keeps_hops n v w b : keeps (next_hops n v w b).
Proof using. revert b. induction n; intros; cbn [next_hops]; keep. Qed.
Hint Resolve keeps_hops : keeps.
Lemma keeps_nexthop v w l d : keeps (SPFNexthopCalculation v w l d).
Proof using. unfold SPFNexthopCalculation. keep. Qed.
Lemma keeps_push v : keeps (Push v).
Proof using. unfold Push. keep. Qed.
Lemma keeps_reorder : keeps Reorder.
Proof using. unfold Reorder. keep. Qed.
Lemma keeps_parents v : keeps (SPFVertexAddParent v).
Proof using. unfold SPFVertexAddParent. keep. Qed.

Lemma keeps_children f n p : (forall c, keeps (f c)) -> keeps (delete_children f n p).
Proof using. intros Hf. induction n; cbn [delete_children]; keep. Qed.
Lemma keeps_delete n p : keeps (delete_vertex n p).
Proof using.
  revert p. induction n as [|n IH]; intros p; cbn [delete_vertex]; [keep|].
  apply keeps_bind; [keep|intros v]. apply keeps_bind; [keep|intros _]. apply keeps_bind; [by apply keeps_children|intros _].
  apply keeps_modify. intros st [[] Hr Hn]. split; [by split| |done]. cbn. intros q w Hq [_ Hw]%lookup_delete_Some. by eapply Hr.
Qed.
Hint Resolve keeps_nexthop keeps_push keeps_reorder keeps_parents keeps_delete : keeps.

Lemma keeps_next v : keeps (SPFNext below v).
Proof using.
  assert (forall l k, keeps (consider below v l k)) as H. { intros l k. unfold consider, discover, merge_path. keep. }
  unfold SPFNext, SPFNext_link, SPFNext_attached. keep.
Qed.

(** What is installed is installed at the root. *)
Lemma keeps_at_root all f : (forall g g', gn_router g = Some r -> f g = Ok g' -> same_node r g g') -> keeps (at_root all f).
Proof using.
  intros Hf st a st' o Hk. unfold at_root. rewrite run_get.
  intros (p & s1 & o1 & o2 & H1 & H2 & ->)%handler_bind_Ok. unfold lift in H1. apply bind_Ok in H1 as (p' & Hp%or_fault_Ok & [= <- <- <-]).
  apply handler_bind_Ok in H2 as (v & s1 & o1 & o3 & H1 & H2 & ->). unfold vertex in H1. rewrite run_get in H1. unfold lift in H1.
  apply bind_Ok in H1 as (v' & Hv%or_fault_Ok & [= <- <- <-]).
  apply handler_bind_Ok in H2 as (l & s1 & o1 & o4 & H1 & H2 & ->). unfold lift in H1. apply bind_Ok in H1 as (l' & Hl & [= <- <- <-]).
  injection H2 as <- <- <-. split; [|done]. apply keeps_nodes; [done|]. eapply same_nodes_trans; [apply Hk|].
  eapply at_router_same; [exact Hf|]. by rewrite <- (kp_root _ Hk p' v').
Qed.

Lemma keeps_router v : keeps (SPFIntraAddRouter v).
Proof using.
  unfold SPFIntraAddRouter. apply keeps_bind; [keep|intros vv]. apply keeps_bind; [keep|intros lsa]. apply keeps_at_root.
  intros g g' Hg. generalize (m_linkRecords lsa) as l. intros l. revert g Hg. induction l as [|x l IH]; intros g Hg.
  - intros [= <-]. apply same_node_refl.
  - rewrite foldM_cons. intros (g1 & H1 & H2)%bind_Ok. assert (same_node r g g1) as Hs.
    { unfold add_host in H1. case_decide; [by eapply add_routes_same|]. injection H1 as <-. apply same_node_refl. }
    eapply same_node_trans; [exact Hs|]. apply IH; [|done]. destruct Hs as [-> _]. done.
Qed.
Lemma keeps_network all e n m v : keeps (at_root all (add_network e n m v)).
Proof using. apply keeps_at_root. intros g g' Hg. by apply add_routes_same. Qed.
Hint Resolve keeps_next keeps_router keeps_network : keeps.
Lemma keeps_local v : keeps (at_local_host v).
Proof using. unfold at_local_host. keep. Qed.
Hint Resolve keeps_local : keeps.
Lemma keeps_settle v : keeps (settle v).
Proof using. unfold settle, SPFIntraAddTransit. keep. Qed.
Lemma keeps_pop : keeps Pop.
Proof using. unfold Pop. keep. Qed.
Hint Resolve keeps_settle keeps_pop : keeps.
Lemma keeps_loop n v : keeps (spf_loop below n v).
Proof using. revert v. induction n; intros; cbn [spf_loop]; unfold Size; keep. Qed.

Lemma keeps_walk visit n v : (forall v, keeps (visit v)) -> keeps (walk_tree visit n v).
Proof using. intros Hv. revert v. induction n; intros; cbn [walk_tree]; keep. Qed.
Lemma keeps_stubs n v : keeps (SPFProcessStubs n v).
Proof using. apply keeps_walk. intros. unfold visit_stubs, SPFIntraAddStub. keep. Qed.
Lemma keeps_externals e n v : keeps (ProcessASExternals e n v).
Proof using. apply keeps_walk. intros. unfold visit_external, SPFAddASExternal. keep. Qed.
Lemma keeps_clear n v : keeps (ClearVertexProcessed n v).
Proof using. revert v. induction n; intros; cbn [ClearVertexProcessed]; keep. Qed.
Hint Resolve keeps_loop keeps_stubs keeps_externals keeps_clear : keeps.

Lemma kept_plant : htriple (fun _ => True) around (plant r) (fun _ => kept).
Proof using Hlsa.
  intros st a st' o [H1 H2]. unfold plant. rewrite run_modify. set (st0 := set_candidate [] (set_lsdb (LSDB_Initialize (m_lsdb st)) st)).
  intros (p & s1 & o1 & o2 & E1 & E2 & ->)%handler_bind_Ok. unfold new_vertex in E1. rewrite run_get in E1.
  apply handler_bind_Ok in E1 as (lsa & s2 & o3 & o4 & E1 & E3 & ->). unfold lift in E1.
  apply bind_Ok in E1 as (lsa' & Hl%or_fault_Ok & [= <- <- <-]). rewrite run_modify in E3. injection E3 as <- <- <-.
  rewrite run_modify in E2. assert (m_linkStateId lsa' = r) as Hid. { apply Hlsa. by rewrite <- H2. }
  match type of E2 with ?h ?s = _ => enough (kept s) as Hk end.
  { assert (keeps (_ ← update_vertex (next_vertex st0) (SetDistanceFromRoot 0); _ ← set_status r LSA_SPF_IN_SPFTREE;
      mret (next_vertex st0))) as K by keep.
    destruct (K _ _ _ _ Hk E2) as [K1 K2]. split; [done|by repeat (apply Forall_app; split)]. }
  split; cbn; [split; [done|]|intros q w [= <-]; rewrite lookup_insert_eq; by intros [= <-]|intros q [= <-]; lia].
  cbn. by rewrite initialize_twice.
Qed.

Lemma keeps_check : keeps (CheckForStubNode r).
Proof using Hlsa.
  intros st a st' o Hk. unfold CheckForStubNode. intros (lsa & s1 & o1 & o2 & E1 & E2 & ->)%handler_bind_Ok.
  unfold lsa_at in E1. rewrite run_get in E1. unfold lift in E1. apply bind_Ok in E1 as (lsa' & Hl%or_fault_Ok & [= <- <- <-]).
  revert E2. match goal with |- ?h st = _ -> _ => enough (keeps h) as Hh by (intros E2; by destruct (Hh st _ _ _ Hk E2)) end.
  assert (forall g, gs !! Z.to_nat (m_node_id lsa') = Some g -> gn_router g = Some r) as Hnode.
  { assert (GetLSA r db0 = Some (SetStatus LSA_SPF_NOT_EXPLORED lsa')) as H0.
    { rewrite <- (ar_db _ (kp_around _ Hk)), initialize_find. by rewrite Hl. }
    by destruct (Hlsa _ H0) as [_ H]. }
  cbv zeta. destruct (filter _ _) as [|l [|l2 ls]]; [keep| |keep]. case_decide; [|keep].
  apply keeps_bind; [keep|intros w_lsa]. destruct (record_back _ _) as [lr|]; [|keep].
  intros s b s' o' Hs. rewrite run_get. intros (g & s1 & o1 & o3 & E1 & E2 & ->)%handler_bind_Ok.
  unfold lift in E1. apply bind_Ok in E1 as (g' & Hg%or_fault_Ok & [= <- <- <-]).
  apply handler_bind_Ok in E2 as (id & s1 & o1 & o4 & E1 & E2 & ->). unfold lift in E1. apply bind_Ok in E1 as (id' & Hid & [= <- <- <-]).
  apply handler_bind_Ok in E2 as (gr & s1 & o1 & o5 & E1 & E2 & ->). unfold lift in E1. apply bind_Ok in E1 as (gr' & Hgr & [= <- <- <-]).
  apply handler_bind_Ok in E2 as (z & s1 & o1 & o6 & E1 & E2 & ->). destruct (keeps_interface _ _ _ _ _ _ Hs E1) as [Hs1 Ho1].
  assert (s1 = s) as ->.
  { unfold FindOutgoingInterfaceId in E1. rewrite run_get in E1. apply handler_bind_Ok in E1 as (x & s2 & o7 & o8 & F1 & F2 & _).
    unfold lift in F1. apply bind_Ok in F1 as (? & _ & [= _ <- _]). apply handler_bind_Ok in F2 as (y & s3 & o9 & o10 & F1 & F2 & _).
    unfold vertex in F1. rewrite run_get in F1. unfold lift in F1, F2. apply bind_Ok in F1 as (? & _ & [= _ <- _]).
    by apply bind_Ok in F2 as (? & _ & [= _ <- _]). }
  rewrite run_modify in E2. injection E2 as <- <- <-. split; [|by repeat (apply Forall_app; split)].
  apply keeps_nodes; [done|]. eapply same_nodes_trans; [apply Hs|]. clear -Hg Hnode Hs.
  destruct (Forall2_lookup_r _ _ _ _ _ (ar_nodes _ (kp_around _ Hs)) Hg) as (g0 & G0 & G1 & _).
  assert (gn_router g' = Some r) as Hr by (rewrite G1; by apply Hnode).
  apply Forall2_same_length_lookup_2; [by rewrite length_insert|]. intros i x y Hx Hy.
  destruct (decide (i = Z.to_nat (m_node_id lsa'))) as [->|Hne].
  - rewrite list_lookup_insert_eq in Hy by by eapply lookup_lt_Some. injection Hy as <-. assert (x = g') as -> by congruence.
    by apply same_node_set.
  - rewrite list_lookup_insert_ne in Hy by done. assert (x = y) as -> by congruence. apply same_node_refl.
Qed.

(** The calculation for [r] changes the tables of [r] only. *)
Lemma calculate_keeps : htriple (fun _ => True) around (SPFCalculate below r) (fun _ => around).
Proof using Hlsa.
  unfold SPFCalculate. eapply triple_bind; [apply kept_plant|]. intros v. cbv beta.
  eapply triple_conseq with (P := kept) (Q := fun _ => kept); [done|by intros ? ? []|].
  apply keeps_bind; [keep|intros s]. apply keeps_bind; [pose proof keeps_check; destruct (NodeList s); keep|intros b].
  destruct b; [keep|]. apply keeps_bind; [keep|intros _]. apply keeps_bind; [keep|intros s']. apply keeps_bind; [keep|intros p].
  cbv zeta. repeat (apply keeps_bind; [keep|intros _]).
  apply keeps_modify. intros st [[] ? ?]. by split.
Qed.
End frame.

(** ** One router *)

(** Without links to other routers there is nothing to calculate. *)
Lemma isolated_router L r ifc below st lsa : p2p_lsdb L r -> m_database (m_lsdb st) = L -> vertices st = ∅ ->
  (forall a, find_outgoing r a Mask_GetOnes (NodeList st) = Ok (ifc a)) -> NodeList st <> [] ->
  map_find r L = Some lsa -> filter (fun l => is_transit l = true) (m_linkRecords lsa) = [] ->
  exists st', SPFCalculate below r st = Ok (tt, st', []) /\ vertices st' = ∅ /\ NodeList st' = NodeList st.
Proof.
  intros HL HLst Hvs Hifc Hne H0 Hl.
  destruct (plant_ok L r ifc HL st HLst Hvs Hifc) as (v & st1 & P1 & P2 & _ & _ & [P5 _] & _ & rv & P8 & P9 & P10 & P11).
  destruct (lsa_found _ _ _ HL _ _ _ _ _ _ P2 H0) as (lsa1 & F1 & _ & _ & F2 & F3).
  exists (set_vertices ∅ st1). split; [|split; [done|done]]. unfold SPFCalculate. rewrite (run_bind _ _ _ _ _ P1), run_get.
  rewrite (run_bind _ _ st1 true st1).
  2: { rewrite P5. destruct (NodeList st) as [|n0 ns]; [done|]. unfold CheckForStubNode.
       rewrite (run_bind (lsa_at r NullDeref) _ st1 lsa1 st1) by (unfold lsa_at; rewrite run_get; unfold lift; by rewrite F1).
       by rewrite F3, Hl. }
  rewrite (delete_leaf _ _ rv); [|by rewrite P8, lookup_singleton_eq|done|done]. by rewrite P8, delete_singleton_eq.
Qed.

(** The tables of the router [r], which were [gr0]: none for a router alone, a
    default route for one with a single link, and all of [global_routes] for
    every other. *)
Definition router_tables (L : stdmap Ipv4Address GlobalRoutingLSA) (r : Ipv4Address) (ifc : Ipv4Address -> Z)
    (exts : list GlobalRoutingLSA) (gr0 gr : Global.GlobalState) : Prop :=
  exists lsa, map_find r L = Some lsa /\
  match filter (fun l => is_transit l = true) (m_linkRecords lsa) with
  | [] => gr = gr0
  | [l] => exists w_lsa lr, map_find (m_linkId l) L = Some w_lsa /\ record_back r (m_linkRecords w_lsa) = Some lr /\
      gr = Global.AddNetworkRouteTo GetZero Mask_GetZero (m_linkData lr) (u32 (ifc (m_linkData l))) gr0
  | _ => global_routes L r ifc exts gr0 gr
  end.

Lemma record_back_found r l : (exists lr, lr ∈ l /\ m_linkType lr = PointToPoint /\ m_linkId lr = r) -> is_Some (record_back r l).
Proof.
  intros (lr & Hin & Ht & E). induction l as [|x l IH]; [by apply elem_of_nil in Hin|]. cbn.
  destruct (bool_decide _ && _) eqn:Ex; [by eexists|]. apply IH. apply elem_of_cons in Hin as [<-|]; [|done].
  by rewrite bool_decide_true, E, Z.eqb_refl in Ex.
Qed.

Lemma tables_of_lookup r l k g : l !! k = Some g -> gn_router g = Some r ->
  (forall j g', l !! j = Some g' -> gn_router g' = Some r -> j = k) -> tables_of r l = gn_routing g.
Proof.
  revert k. induction l as [|x l IH]; intros k Hk Hg Hu; [done|]. cbn. case_decide as E.
  - assert (0%nat = k) as <- by by apply (Hu 0%nat x). by injection Hk as ->.
  - destruct k as [|k]; [by injection Hk as ->|]. apply (IH k); [done|done|]. intros j g' Hj Hg'.
    assert (Datatypes.S j = Datatypes.S k) by by apply (Hu (Datatypes.S j) g'). lia.
Qed.

Lemma find_outgoing_lookup r a m l k g prefix : l !! k = Some g -> gn_router g = Some r -> gn_prefix g = Some prefix ->
  (forall j g', l !! j = Some g' -> gn_router g' = Some r -> j = k) -> find_outgoing r a m l = Ok (prefix a m).
Proof.
  revert k. induction l as [|x l IH]; intros k Hk Hg Hp Hu; [done|]. cbn. case_decide as E.
  - assert (0%nat = k) as <- by by apply (Hu 0%nat x). injection Hk as ->. by rewrite Hp.
  - destruct k as [|k]; [by injection Hk as ->|]. apply (IH k); [done|done|done|]. intros j g' Hj Hg'.
    assert (Datatypes.S j = Datatypes.S k) by by apply (Hu (Datatypes.S j) g'). lia.
Qed.

(** The calculation for the router of the [k]th node. *)
Lemma calculate_router L exts r below st k g prefix gr0 lsa : p2p_lsdb L r -> LSDB_Initialize (m_lsdb st) = mkLSDB L exts ->
  vertices st = ∅ -> NodeList st !! k = Some g -> gn_router g = Some r -> gn_prefix g = Some prefix -> gn_routing g = Some gr0 ->
  (forall j g', NodeList st !! j = Some g' -> gn_router g' = Some r -> j = k) ->
  map_find r L = Some lsa -> m_node_id lsa = Z.of_nat k ->
  (forall l w, link L r l w -> exists l', link L w l' r) ->
  exists st', SPFCalculate below r st = Ok (tt, st', []) /\ vertices st' = ∅ /\ same_nodes r (NodeList st) (NodeList st') /\
    LSDB_Initialize (m_lsdb st') = mkLSDB L exts /\
    exists g' gr, NodeList st' !! k = Some g' /\ gn_routing g' = Some gr /\
      router_tables L r (fun a => prefix a Mask_GetOnes) exts gr0 gr.
Proof.
  intros HL Hdb Hvs Hk Hg Hprefix Hgr Hu Hlsa Hid Hback. set (ifc := fun a => prefix a Mask_GetOnes).
  set (st0 := set_lsdb (LSDB_Initialize (m_lsdb st)) st). assert (m_database (m_lsdb st0) = L) as HL0 by (change (m_lsdb st0) with (LSDB_Initialize (m_lsdb st)); by rewrite Hdb).
  assert (forall a, find_outgoing r a Mask_GetOnes (NodeList st0) = Ok (ifc a)) as Hifc.
  { intros a. by apply (find_outgoing_lookup r a Mask_GetOnes (NodeList st) k g prefix). }
  enough (exists st', SPFCalculate below r st = Ok (tt, st', []) /\ vertices st' = ∅ /\
    exists gr, tables_of r (NodeList st') = Some gr /\ router_tables L r ifc exts gr0 gr) as (st' & C1 & C2 & gr & C3 & C4).
  { assert (around r (NodeList st) (mkLSDB L exts) st') as [A1 A2].
    { eapply calculate_keeps with (st := st); [| |exact C1]; cycle 1.
      - split; [apply same_nodes_refl|done].
      - intros lsa' E. unfold GetLSA in E. cbn in E. assert (lsa' = lsa) as -> by congruence. split; [by apply (pl_router _ _ HL)|].
        intros g'. rewrite Hid, Nat2Z.id. congruence. }
    exists st'. split_and!; [done..|]. destruct (Forall2_lookup_l _ _ _ _ _ A1 Hk) as (g' & G1 & G2 & _).
      exists g', gr. split_and!; [done| |done]. rewrite <- C3. symmetry. apply (tables_of_lookup r _ k); [done|congruence|].
      intros j x Hj Hx. destruct (Forall2_lookup_r _ _ _ _ _ A1 Hj) as (y & Y1 & Y2 & _). apply (Hu j y); congruence. }
  rewrite SPFCalculate_initialize. fold st0. assert (tables_of r (NodeList st0) = Some gr0) as Htables.
  { etransitivity; [exact (tables_of_lookup r (NodeList st) k g Hk Hg Hu)|done]. }
  destruct (filter (fun l => is_transit l = true) (m_linkRecords lsa)) as [|l [|l2 ls]] eqn:Hfilter.
  - destruct (isolated_router L r ifc below st0 lsa) as (st' & I1 & I2 & I3); [done..| |done|done|].
    { cbn. by destruct (NodeList st). }
    exists st'. split; [done|]. split; [done|]. exists gr0. rewrite I3. split; [done|]. exists lsa. by rewrite Hfilter.
  - assert (l ∈ filter (fun l => is_transit l = true) (m_linkRecords lsa)) as [Htr Hin]%list_elem_of_filter by (rewrite Hfilter; by left).
    assert (link L r l (m_linkId l)) as Hlink.
    { split; [by exists lsa|]. split; [|done]. destruct (pl_record _ _ HL r l) as [E|E]; [by exists lsa| |done].
      unfold is_transit in Htr. by rewrite E in Htr. }
    destruct (Hback _ _ Hlink) as (l' & (w_lsa & Hw & Hl') & T1 & T2).
    destruct (record_back_found r (m_linkRecords w_lsa)) as [lr Hlr]; [by exists l'|].
    destruct (stub_default_route L r ifc below st0 gr0 lsa l w_lsa lr g r) as (st' & D1 & D2 & D3); try done.
    { by rewrite Hid, Nat2Z.id. }
    exists st'. split; [done|]. split; [done|]. eexists. split.
    + rewrite D3, Hid, Nat2Z.id. apply (tables_of_lookup r _ k (set_routing
        (Global.AddNetworkRouteTo GetZero Mask_GetZero (m_linkData lr) (u32 (ifc (m_linkData l))) gr0) g)); [|done|].
      * apply list_lookup_insert_eq. by eapply lookup_lt_Some.
      * intros j x Hj Hx. destruct (decide (j = k)) as [|Hne]; [done|]. rewrite list_lookup_insert_ne in Hj by done. by apply (Hu j x).
    + exists lsa. rewrite Hfilter. split; [done|]. by exists w_lsa, lr.
  - destruct (SPFCalculate_ok L r ifc below st0 gr0 HL) as (st' & C1 & C2 & _ & gr & C3 & C4).
    { split; [done..|]. intros lsa' E. assert (lsa' = lsa) as -> by congruence. rewrite Hfilter. cbn. lia. }
    exists st'. split; [done|]. split; [done|]. exists gr. split; [done|]. exists lsa. rewrite Hfilter. split; [done|].
    change (m_lsdb st0) with (LSDB_Initialize (m_lsdb st)) in C4. by rewrite Hdb in C4.
Qed.

(** ** All routers *)

(** What stays as it is at every node. *)
Definition same_view (g g' : GNode) : Prop := gn_router g' = gn_router g /\ gn_lsas g' = gn_lsas g /\
  gn_prefix g' = gn_prefix g /\ gn_here g' = gn_here g.

Lemma same_view_trans g1 g2 g3 : same_view g1 g2 -> same_view g2 g3 -> same_view g1 g3.
Proof. intros (A1 & A2 & A3 & A4) (B1 & B2 & B3 & B4). split_and!; congruence. Qed.

(** The tables after the calculation, for the routers it is made for. *)
Definition node_tables (db : LSDB) (g g' : GNode) : Prop :=
  match gn_router g, gn_prefix g, gn_routing g with
  | Some r, Some prefix, Some gr0 =>
      exists gr, gn_routing g' = Some gr /\
        if gn_here g then router_tables (m_database db) r (fun a => prefix a Mask_GetOnes) (m_extdatabase db) gr0 gr else gr = gr0
  | _, _, _ => gn_routing g' = gn_routing g
  end.

(** After the calculations for the first [n] of the nodes [l]. *)
Record calculated (db : LSDB) (l : list GNode) (n : nat) (s : Spf) : Prop := {
  ca_vertices : vertices s = ∅;
  ca_db : LSDB_Initialize (m_lsdb s) = db;
  ca_view : Forall2 same_view l (NodeList s);
  ca_tables k g g' : l !! k = Some g -> NodeList s !! k = Some g' ->
    if decide (k < n)%nat then node_tables db g g' else gn_routing g' = gn_routing g
}.

Definition distinct_routers (l : list GNode) : Prop := forall j k g g' r, l !! j = Some g -> l !! k = Some g' ->
  gn_router g = Some r -> gn_router g' = Some r -> j = k.

Lemma node_tables_ext db g g1 g2 : gn_routing g2 = gn_routing g1 -> node_tables db g g1 -> node_tables db g g2.
Proof. unfold node_tables. by intros ->. Qed.

(** A calculation for the node [k] that has changed its tables only. *)
Lemma calculated_step db l k g r s s' : distinct_routers l -> l !! k = Some g -> gn_router g = Some r -> calculated db l k s ->
  same_nodes r (NodeList s) (NodeList s') -> vertices s' = ∅ -> LSDB_Initialize (m_lsdb s') = db ->
  (forall g', NodeList s' !! k = Some g' -> node_tables db g g') -> calculated db l (Datatypes.S k) s'.
Proof.
  intros Hu Hk Hr [_ _ I3 I4] S1 S2 S3 S4. split; [done|done| |].
  - clear -I3 S1. apply Forall2_same_length_lookup_2; [by rewrite (Forall2_length _ _ _ I3), (Forall2_length _ _ _ S1)|].
    intros i x z Hx Hz. destruct (Forall2_lookup_l _ _ _ _ _ I3 Hx) as (y & Hy & V).
    destruct (Forall2_lookup_l _ _ _ _ _ S1 Hy) as (z' & Hz' & W1 & W2 & W3 & W4 & _). assert (z' = z) as -> by congruence.
    by eapply same_view_trans.
  - intros j x x' Hx Hx'. destruct (decide (j = k)) as [->|Hne].
    + assert (x = g) as -> by congruence. rewrite decide_True by lia. by apply S4.
    + destruct (Forall2_lookup_r _ _ _ _ _ S1 Hx') as (y & Hy & W1 & _ & _ & _ & W5).
      destruct (Forall2_lookup_l _ _ _ _ _ I3 Hx) as (y' & Hy' & V1 & _). assert (y' = y) as -> by congruence.
      assert (gn_routing x' = gn_routing y) as E. { apply W5. rewrite V1. intros Hxr. apply Hne. by apply (Hu j k x g r). }
      pose proof (I4 j x y Hx Hy) as D. destruct (decide (j < k)%nat); [rewrite decide_True by lia|rewrite decide_False by lia].
      * by eapply node_tables_ext.
      * by rewrite E.
Qed.

(** A node that is passed over. *)
Lemma calculated_skip db l k g s : l !! k = Some g -> calculated db l k s ->
  (forall g', gn_routing g' = gn_routing g -> node_tables db g g') -> calculated db l (Datatypes.S k) s.
Proof.
  intros Hk [I1 I2 I3 I4] Hg. split; [done..|]. intros j x x' Hx Hx'. pose proof (I4 j x x' Hx Hx') as D.
  destruct (decide (j = k)) as [->|Hne].
  - rewrite decide_True by lia. rewrite decide_False in D by lia. assert (x = g) as -> by congruence. by apply Hg.
  - destruct (decide (j < k)%nat); [by rewrite decide_True by lia|by rewrite decide_False by lia].
Qed.

Lemma node_tables_router db g g' r prefix gr0 : gn_router g = Some r -> gn_prefix g = Some prefix -> gn_routing g = Some gr0 ->
  node_tables db g g' -> exists gr, gn_routing g' = Some gr /\
    if gn_here g then router_tables (m_database db) r (fun a => prefix a Mask_GetOnes) (m_extdatabase db) gr0 gr else gr = gr0.
Proof. unfold node_tables. intros -> -> -> H. exact H. Qed.

Section populate.
Context {S : Type} (below : nat -> nat -> bool) (net : Network S) (HP : p2p_network net).

Lemma insert_same_view db l l' : Forall2 same_view l l' -> foldl insert_lsas db l' = foldl insert_lsas db l.
Proof using.
  intros H. revert db. induction H as [|g g' l l' (E1 & E2 & _) _ IH]; intros db; [done|]. cbn. rewrite IH.
  unfold insert_lsas at 2 4. by rewrite E1, E2.
Qed.

Lemma network_initialize db : network_lsdb net db -> map_wf (m_database db) -> LSDB_Initialize db = db.
Proof using.
  intros N Hwf. destruct db as [l e]. unfold LSDB_Initialize. cbn in *. f_equal.
  rewrite <- (map_id l) at 2. apply map_ext_in. intros [u lsa] Hin%list_elem_of_In. cbn.
  destruct (nl_only _ _ N u lsa) as (n & node & rtr & rs & _ & _ & _ & ->); [by apply map_elem_find|done].
Qed.

(** The nodes that the manager works on. *)
Definition nodes_of (gs l : list GNode) : Prop := Forall2 (node_view net) (imap pair (net_nodes net)) gs /\ Forall2 same_view gs l.

Lemma node_router_at gs l k g r : nodes_of gs l -> l !! k = Some g -> gn_router g = Some r ->
  exists node rtr ip rs, net_nodes net !! k = Some node /\ node_router node = Some rtr /\ m_routerId rtr = r /\
    gn_prefix g = Some (GetInterfaceForPrefix (S := S) ip) /\ gn_lsas g = routers_lsa k rtr rs :: external_lsas rtr.
Proof using HP.
  intros [Hgs Hl] Hk Hr. destruct (Forall2_lookup_r _ _ _ _ _ Hl Hk) as (g0 & G0 & E1 & E2 & E3 & _).
  destruct (Forall2_lookup_r _ _ _ _ _ Hgs G0) as ([n node] & I & [V1 _ V3 _ V5]). rewrite list_lookup_imap in I.
  apply fmap_Some in I as (x & Hx & [= -> ->]). cbn in *. rewrite E1, V1 in Hr. apply fmap_Some in Hr as (rtr & Hrtr & ->).
  destruct (pn_router _ HP _ _ _ Hx Hrtr) as (_ & ip & Hip & _). destruct (V5 rtr Hrtr) as (rs & E & _).
  exists x, rtr, ip, rs. rewrite E3, V3, Hip, E2. done.
Qed.

Lemma nodes_distinct gs l : nodes_of gs l -> distinct_routers l.
Proof using HP.
  intros H j k g g' r Hj Hk Hr Hr'. destruct (node_router_at _ _ j g r H Hj Hr) as (n1 & r1 & _ & _ & A1 & A2 & A3 & _).
  destruct (node_router_at _ _ k g' r H Hk Hr') as (n2 & r2 & _ & _ & B1 & B2 & B3 & _). eapply (pn_ids _ HP j k); [done..|congruence].
Qed.

(** The calculation for one node of the loop. *)
Lemma calculate_node gs l db k g r s : nodes_of gs l -> network_lsdb net db -> LSDB_Initialize db = db -> l !! k = Some g ->
  gn_router g = Some r -> gn_here g = true -> is_Some (gn_routing g) -> calculated db l k s ->
  exists s', SPFCalculate below r s = Ok (tt, s', []) /\ calculated db l (Datatypes.S k) s'.
Proof using HP.
  intros Hl N Hinit Hk Hr Hhere [gr0 Hgr0] Hs. destruct (node_router_at _ _ k g r Hl Hk Hr) as (node & rtr & ip & rs & N1 & N2 & N3 & N5 & _).
  destruct (Forall2_lookup_l _ _ _ _ _ (ca_view _ _ _ _ Hs) Hk) as (g' & G1 & G2 & G3 & G4 & G5).
  pose proof (ca_tables _ _ _ _ Hs k g g' Hk G1) as G6. rewrite decide_False in G6 by lia.
  destruct (nl_lsa _ _ N k node rtr N1 N2) as (rs' & Hlsa).
  destruct (calculate_router (m_database db) (m_extdatabase db) r below s k g' (GetInterfaceForPrefix ip) gr0
    (routers_lsa k rtr rs')) as (s' & C1 & C2 & C3 & C4 & g2 & gr & C5 & C6 & C7).
  - rewrite <- N3. by apply (nl_lsdb _ _ N k node).
  - rewrite (ca_db _ _ _ _ Hs). by destruct db.
  - apply Hs.
  - done.
  - congruence.
  - congruence.
  - congruence.
  - intros j x Hj Hx. destruct (Forall2_lookup_r _ _ _ _ _ (ca_view _ _ _ _ Hs) Hj) as (x0 & X1 & X2 & _).
    apply (nodes_distinct _ _ Hl j k x0 g r); [done|done|congruence|done].
  - by rewrite <- N3.
  - done.
  - intros l0 w Hw%(nl_link net db _ _ _ N). destruct (wire_back net HP _ _ _ Hw) as (l1 & H1). exists l1. by apply (nl_link net db _ _ _ N).
  - exists s'. split; [done|]. apply (calculated_step db l k g r s s'); [by eapply nodes_distinct|done..|by rewrite C4; destruct db|].
    intros g3 Hg3. assert (g3 = g2) as -> by congruence. unfold node_tables. rewrite Hr, N5, Hgr0, Hhere. by exists gr.
Qed.

Lemma routers_calculate gs l st : nodes_of gs l -> (forall g, g ∈ l -> is_Some (gn_router g) -> is_Some (gn_routing g)) ->
  m_lsdb st = new_LSDB -> vertices st = ∅ -> NodeList st = l ->
  exists st' db, (_ ← BuildGlobalRoutingDatabase; InitializeRoutes below) st = Ok (tt, st', []) /\ vertices st' = ∅ /\
    network_lsdb net db /\ Forall2 (node_tables db) l (NodeList st').
Proof using HP.
  intros Hl Htables Hst1 Hst2 Hst3. destruct Hl as [Hgs Hview] eqn:EHl. clear EHl. set (db := foldl insert_lsas new_LSDB gs).
  pose proof (database_ok net HP gs Hgs) as N. fold db in N.
  rewrite (run_bind _ _ _ _ _ (BuildGlobalRoutingDatabase_ok st)), Hst1, Hst3, (insert_same_view _ gs l Hview). fold db.
  assert (LSDB_Initialize db = db) as Hinit.
  { apply network_initialize; [done|]. apply (insert_all gs new_LSDB db); [|constructor|done].
    apply Forall_forall. intros g [k Hk]%list_elem_of_lookup. destruct (Forall2_lookup_r _ _ _ k g Hgs Hk) as (i & _ & Hv).
    by eapply view_lsas_ok. }
  unfold InitializeRoutes. rewrite run_get. change (NodeList (set_lsdb db st)) with (NodeList st). rewrite Hst3.
  destruct (run_loop (fun pre s => calculated db l (length pre) s)
    (fun node => match gn_router node with
      | Some routerId => if gn_here node && negb (bool_decide (gn_lsas node = [])) then SPFCalculate below routerId else mret tt
      | None => mret tt end) l (set_lsdb db st)) as (st' & F1 & [F2 _ F4 F5]).
  - intros pre g post s El Hs. rewrite length_app, Nat.add_1_r. set (k := length pre) in *.
    assert (l !! k = Some g) as Hk by (rewrite El; by apply list_lookup_middle).
    destruct (gn_router g) as [r|] eqn:Hr.
    + destruct (node_router_at _ _ k g r Hl Hk Hr) as (node & rtr & ip & rs & _ & _ & _ & N5 & N6).
      rewrite N6, bool_decide_false by done. cbn [negb]. rewrite andb_true_r.
      destruct (Htables g) as [gr0 Hgr0]; [by eapply list_elem_of_lookup_2|by rewrite Hr|].
      destruct (gn_here g) eqn:Hhere; [by eapply calculate_node|]. exists s. split; [done|]. apply (calculated_skip db l k g s); [done..|].
      intros g' Hg'. unfold node_tables. rewrite Hr, N5, Hgr0, Hhere. exists gr0. split; [congruence|done].
    + exists s. split; [done|]. apply (calculated_skip db l k g s); [done..|]. intros g' Hg'. unfold node_tables. by rewrite Hr.
  - split; [done|done|cbn; rewrite Hst3|].
    + apply Forall_Forall2_diag, Forall_true. intros g. by split_and!.
    + intros k g g' Hk. cbn. rewrite Hst3. intros. rewrite decide_False by lia. congruence.
  - exists st', db. split; [done|]. split; [done|]. split; [done|].
    apply Forall2_same_length_lookup_2; [by apply (Forall2_length _ _ _ F4)|]. intros k g g' Hk Hg'.
    pose proof (F5 k g g' Hk Hg') as H. rewrite decide_True in H; [done|]. by eapply lookup_lt_Some.
Qed.
End populate.

(** Every router has tables. *)
Definition have_tables {S} (net : Network S) (P : Global.GlobalState -> Prop) : Prop := forall n node rtr,
  net_nodes net !! n = Some node -> node_router node = Some rtr -> exists gr0, r_routingProtocol rtr = Some gr0 /\ P gr0.

(** The tables in [st] of the routers of this process; those of others are
    what they were, [before] of the tables in [net]. *)
Definition tables_computed {S} (net : Network S) (before : Global.GlobalState -> Global.GlobalState) (db : LSDB) (st : Spf) : Prop :=
  forall n node rtr ip gr0, net_nodes net !! n = Some node -> node_router node = Some rtr -> node_ipv4 node = Some ip ->
  r_routingProtocol rtr = Some gr0 -> exists g gr, NodeList st !! n = Some g /\ gn_routing g = Some gr /\
    if node_here node then
      router_tables (m_database db) (m_routerId rtr) (fun a => GetInterfaceForPrefix ip a Mask_GetOnes) (m_extdatabase db) (before gr0) gr
    else gr = before gr0.

Lemma computed {S} (net : Network S) before gs l db st : nodes_of net gs l -> Forall2 (node_tables db) l (NodeList st) ->
  (forall k g0 g, gs !! k = Some g0 -> l !! k = Some g -> is_Some (gn_router g0) -> gn_routing g = before <$> gn_routing g0) ->
  tables_computed net before db st.
Proof.
  intros [Hgs Hl] Ht Hb n node rtr ip gr0 Hn Hr Hip Hgr0. destruct (Forall2_lookup_l _ _ _ n (n, node) Hgs) as (g0 & G0 & [V1 V2 V3 V4 _]).
  { by rewrite list_lookup_imap, Hn. }
  cbn in V1, V2, V3, V4. rewrite Hr in V1, V2. cbn in V1, V2. rewrite Hgr0 in V2. rewrite Hip in V3. cbn in V3.
  destruct (Forall2_lookup_l same_view gs l n g0 Hl G0) as (g & G1 & E1 & E2 & E3 & E4).
  destruct (Forall2_lookup_l (node_tables db) l (NodeList st) n g Ht G1) as (g' & G2 & T).
  destruct (node_tables_router db g g' (m_routerId rtr) (GetInterfaceForPrefix ip) (before gr0)) as (gr & T1 & T2); [congruence..| |done|].
  { by rewrite (Hb n g0 g G0 G1), V2 by by eexists. }
  exists g', gr. split; [done|]. split; [done|]. by rewrite <- V4, <- E4.
Qed.

Lemma discovered_tables {S} (net : Network S) P gs k g : p2p_network net -> have_tables net P ->
  Forall2 (node_view net) (imap pair (net_nodes net)) gs -> gs !! k = Some g -> is_Some (gn_router g) ->
  exists gr0, gn_routing g = Some gr0 /\ P gr0.
Proof.
  intros HP Ht Hgs Hk [r Hr]. assert (nodes_of net gs gs) as Hn by (split; [done|apply Forall_Forall2_diag, Forall_true; intros x; by split_and!]).
  destruct (node_router_at net HP gs gs k g r Hn Hk Hr) as (node & rtr & ip & rs & N1 & N2 & _).
  destruct (Ht k node rtr N1 N2) as (gr0 & E & H). destruct (Forall2_lookup_r _ _ _ _ _ Hgs Hk) as ([m node'] & I & [_ V2 _ _ _]).
  rewrite list_lookup_imap, N1 in I. injection I as <- <-. cbn in V2. exists gr0. by rewrite V2, N2.
Qed.

Lemma populate_ok {S} below (net : Network S) : p2p_network net -> have_tables net (fun _ => True) ->
  exists st db, PopulateRoutingTables below net = Ok st /\ vertices st = ∅ /\ network_lsdb net db /\
    (forall u l w, link (m_database db) u l w <-> wire net u w l) /\ tables_computed net (fun gr => gr) db st.
Proof.
  intros HP Ht. destruct (discover_all_ok net HP) as (gs & D & Hgs).
  assert (nodes_of net gs gs) as Hn by (split; [done|apply Forall_Forall2_diag, Forall_true; intros g; by split_and!]).
  destruct (routers_calculate below net HP gs gs (new_manager gs) Hn) as (st & db & R1 & R2 & R3 & R4); [|done..|].
  - intros g Hg Hr. apply list_elem_of_lookup in Hg as [k Hk]. destruct (discovered_tables net _ gs k g HP Ht Hgs Hk Hr) as (gr0 & -> & _). by eexists.
  - exists st, db. unfold PopulateRoutingTables. rewrite D. cbn [mbind result_bind]. rewrite R1. split; [done|].
    split; [done|]. split; [done|]. split; [intros; by apply nl_link|]. eapply computed; [exact Hn|exact R4|].
    intros k g0 g H0 H1 _. assert (g0 = g) as -> by congruence. by destruct (gn_routing g).
Qed.

(** (C9) On a network of point-to-point links: PopulateRoutingTables ends
    without a fault and with every vertex freed; the database that its routers
    discover has exactly the links between routers whose ends are up, and the
    stub networks; and every router has the tables of [router_tables] for it:
    over the first hops of all shortest paths, routes to all addresses, stub
    networks and external networks of the other routers, or a default route if
    the router has a single link. *)
Theorem populate_routing_tables {S} below (net : Network S) : p2p_network net -> have_tables net (fun _ => True) ->
  exists st db, PopulateRoutingTables below net = Ok st /\ vertices st = ∅ /\ network_lsdb net db /\
    (forall u l w, link (m_database db) u l w <-> wire net u w l) /\ tables_computed net (fun gr => gr) db st.
Proof. apply populate_ok. Qed.

Lemma DeleteGlobalRoutes_ok st : (forall g, g ∈ NodeList st -> is_Some (gn_router g) -> exists gr0, gn_routing g = Some gr0 /\ Global.few_routes gr0) ->
  exists l, DeleteGlobalRoutes st = Ok (tt, set_NodeList l (set_lsdb new_LSDB st), []) /\
    Forall2 (fun g g' => same_view g g' /\ (is_Some (gn_router g) -> gn_routing g' = Global.DoDispose <$> gn_routing g)) (NodeList st) l.
Proof.
  intros H. destruct (mapM_ok (fun g g' => same_view g g' /\ (is_Some (gn_router g) -> gn_routing g' = Global.DoDispose <$> gn_routing g))
    (fun node => match gn_router node with
      | None => Ok node
      | Some _ => gr ← gn_routing node ?? NullDeref; gr ← Global.delete_routes gr; Ok (set_routing gr node) end) (NodeList st)) as (l & M1 & M2).
  - intros g Hg. destruct (gn_router g) as [r|] eqn:Er.
    + destruct (H g Hg) as (gr0 & E & Hfew); [by rewrite Er|]. rewrite E. cbn [or_fault mbind result_bind].
      rewrite Global.delete_routes_all by done. eexists. split; [done|]. by split.
    + exists g. split; [done|]. split; [by split_and!|]. by intros [? ?].
  - exists l. split; [|done]. unfold DeleteGlobalRoutes. rewrite run_get, (run_lift _ _ _ _ M1). done.
Qed.

(** Recomputing gives the tables that populating empty ones would. *)
Lemma recompute_routing_tables {S} below (net : Network S) st0 : p2p_network net -> have_tables net Global.few_routes -> vertices st0 = ∅ ->
  exists st db, RecomputeRoutingTables below st0 net = Ok st /\ vertices st = ∅ /\ network_lsdb net db /\
    tables_computed net Global.DoDispose db st.
Proof.
  intros HP Ht Hvs. destruct (discover_all_ok net HP) as (gs & D & Hgs).
  destruct (DeleteGlobalRoutes_ok (set_NodeList gs st0)) as (l & D1 & D2).
  { intros g Hg Hr. apply list_elem_of_lookup in Hg as [k Hk]. by eapply discovered_tables. }
  assert (nodes_of net gs l) as Hn by (split; [done|]; eapply Forall2_impl; [exact D2|]; by intros ? ? []).
  destruct (routers_calculate below net HP gs l (set_NodeList l (set_lsdb new_LSDB st0)) Hn) as (st & db & R1 & R2 & R3 & R4);
    [|reflexivity|exact Hvs|reflexivity|].
  - intros g Hg Hr. apply list_elem_of_lookup in Hg as [k Hk]. destruct (Forall2_lookup_r _ _ _ _ _ D2 Hk) as (g0 & G0 & [E _] & E2).
    rewrite E in Hr. rewrite (E2 Hr). destruct (discovered_tables net _ gs k g0 HP Ht Hgs G0 Hr) as (gr0 & -> & _). by eexists.
  - exists st, db. unfold RecomputeRoutingTables. rewrite D. cbn [mbind result_bind]. rewrite (run_bind _ _ _ _ _ D1).
    change (set_NodeList l (set_lsdb new_LSDB (set_NodeList gs st0))) with (set_NodeList l (set_lsdb new_LSDB st0)). rewrite R1.
    split; [done|]. split; [done|]. split; [done|]. eapply computed; [exact Hn|exact R4|].
    intros k g0 g H0 H1 Hr. destruct (Forall2_lookup_lr _ _ _ _ _ _ D2 H0 H1) as [_ E]. by apply E.
Qed.

(** ** Example: three routers in a row

    10.1.1.0/30 between the first two and 10.1.2.0/30 between the last two; the
    first has its loopback interface, the last a network 10.1.3.0/24 of its own
    and an injected route to 11.0.0.0/8. *)

Definition example_interface (device : NetDevice) (addr : Ipv4Address) (mask : Ipv4Mask) : Ipv4Interface :=
  mkInterface device [MakeInterfaceAddress addr mask] true true 1.
Definition example_env : NodeEnv := {|
  dev_IfIndex d := d; dev_Mtu _ := 1500; dev_IsLoopback _ := false; dev_NeedsArp _ := false; dev_IsMulticast _ := true;
  env_CreateSocket i := i; env_Bind _ := 0 |}.
Definition example_router (id : Ipv4Address) (interfaces : list Ipv4Interface) (routes : list Ipv4RoutingTableEntry) : RNode unit :=
  let ip := mkL3 interfaces None true true 64 0 in
  mkRNode (map m_device interfaces) (Some ip)
    (Some (mkGlobalRouter [] id routes (Some (Global.set_ipv4 (Some (view example_env ip)) Global.MakeIpv4GlobalRouting)))) true.
Definition p2p_dev (node ch : nat) : NetDev := mkNetDev node (Some ch) true true None.

Definition example_network : Network unit := {|
  net_devices := {[ 0 := mkNetDev 0 None true false None; 1 := p2p_dev 0 0; 10 := p2p_dev 1 0; 11 := p2p_dev 1 1;
                    20 := p2p_dev 2 1; 21 := mkNetDev 2 (Some 2%nat) true false None ]};
  net_channels := [[1; 10]; [11; 20]; [21]];
  net_nodes := [
    example_router 0 [example_interface 0 0x7f000001 0xff000000; example_interface 1 0x0a010101 0xfffffffc] [];
    example_router 1 [example_interface 10 0x0a010102 0xfffffffc; example_interface 11 0x0a010201 0xfffffffc] [];
    example_router 2 [example_interface 20 0x0a010202 0xfffffffc; example_interface 21 0x0a010301 0xffffff00]
      [CreateNetworkRouteTo_direct 0x0b000000 0xff000000 1]] |}.

Lemma example_network_p2p : p2p_network example_network.
Proof. apply p2p_network_b_spec. vm_compute. reflexivity. Qed.

Lemma example_network_tables : have_tables example_network (fun _ => True).
Proof.
  intros n node rtr Hn. destruct n as [|[|[|n]]]; [..|done]; injection Hn as <-; intros [= <-]; by eexists.
Qed.

Lemma port_intro {S} (net : Network S) n node rtr ip k u nd i a rest : net_nodes net !! n = Some node -> node_router node = Some rtr ->
  node_ipv4 node = Some ip -> node_devices node = map m_device (m_interfaces ip) -> m_interfaces ip !! k = Some i ->
  m_ifaddrs i = a :: rest -> u = m_routerId rtr -> nd = m_device i -> port net u nd i a.
Proof.
  intros Hn Hr Hip Hd Hk Ha -> ->. eapply Port; [done..| |].
  - rewrite Hd. by apply list_elem_of_In, in_map, list_elem_of_In, (list_elem_of_lookup_2 _ k).
  - exists ip, rest. split_and!; [done| |done..]. by eapply list_elem_of_lookup_2.
Qed.

(** Both interfaces of a link, on the nodes [n] and [n']. *)
Ltac example_wire_tac nd n k n' k' :=
  exists nd; do 5 eexists; split_and!;
  [eapply (port_intro example_network n _ _ _ k); reflexivity|reflexivity|
   eapply (port_intro example_network n' _ _ _ k'); reflexivity|reflexivity| | |reflexivity];
  [do 2 eexists; split_and!; [reflexivity..|done|first [left; reflexivity|right; reflexivity]]|eexists; split; reflexivity].

Lemma example_wire_01 : wire example_network 0 1 (mkLinkRecord 1 0x0a010101 PointToPoint 1).
Proof. example_wire_tac 1 0%nat 1%nat 1%nat 0%nat. Qed.
Lemma example_wire_12 : wire example_network 1 2 (mkLinkRecord 2 0x0a010201 PointToPoint 1).
Proof. example_wire_tac 11 1%nat 1%nat 2%nat 0%nat. Qed.
Lemma example_wire_21 : wire example_network 2 1 (mkLinkRecord 1 0x0a010202 PointToPoint 1).
Proof. example_wire_tac 20 2%nat 0%nat 1%nat 1%nat. Qed.

Lemma example_computed :
  (st ← PopulateRoutingTables Nat.ltb example_network; g ← NodeList st !! 1%nat ?? NullDeref; gr ← gn_routing g ?? NullDeref;
   Ok (map GetDest (Global.m_networkRoutes gr), map GetGateway (Global.m_ASexternalRoutes gr))) =
  Ok ([0x7f000000; 0x0a010100; 0x0a010200; 0x0a010300], [0x0a010202]).
Proof. vm_compute. reflexivity. Qed.

(** The router in the middle; the loopback network of the first router has
    become a destination. *)
Lemma populate_routing_tables_witness : exists st db g gr, PopulateRoutingTables Nat.ltb example_network = Ok st /\
  network_lsdb example_network db /\ wire example_network 0 1 (mkLinkRecord 1 0x0a010101 PointToPoint 1) /\
  link (m_database db) 0 (mkLinkRecord 1 0x0a010101 PointToPoint 1) 1 /\
  NodeList st !! 1%nat = Some g /\ gn_routing g = Some gr /\
  map GetDest (Global.m_networkRoutes gr) = [0x7f000000; 0x0a010100; 0x0a010200; 0x0a010300] /\
  map GetGateway (Global.m_ASexternalRoutes gr) = [0x0a010202].
Proof.
  destruct (populate_routing_tables Nat.ltb example_network example_network_p2p example_network_tables) as (st & db & H1 & H2 & H3 & H4 & H5).
  - destruct (H5 1%nat _ _ _ _ eq_refl eq_refl eq_refl eq_refl)
      as (g & gr & G1 & G2 & _).
    exists st, db, g, gr. split; [exact H1|]. split; [exact H3|].
    split; [exact example_wire_01|]. split; [by apply H4, example_wire_01|]. split; [exact G1|]. split; [exact G2|].
    pose proof example_computed as E. rewrite H1 in E. cbn [mbind result_bind] in E. rewrite G1 in E. cbn [or_fault mbind result_bind] in E.
    rewrite G2 in E. cbn [or_fault mbind result_bind] in E. injection E as E1 E2. split; [exact E1|exact E2].
Defined.
