(* ===== verification/GlobalForwarding.v ===== *)
(** * GlobalForwarding: packets under global routing

    The tables that GlobalNetwork's theorem gives to the routers of a network
    fit together: from router to router, what LookupGlobal answers takes a
    packet along a shortest path to the router it is for. *)

From stdpp Require Import gmap.
From S2P Require Import Prelude StdMap Ipv4Address Node StaticRouting Ipv4Stack GlobalRouting GlobalLsdb GlobalSpf GlobalPaths GlobalTree GlobalSpfSpec GlobalSpfResult GlobalRoutes GlobalDiscovery GlobalLinks GlobalNetwork.

(** ** Shortest paths from different routers *)

Section paths.
Context (L : stdmap Ipv4Address GlobalRoutingLSA).

Lemma way_cons r l x w c : link L r l x -> way L x w c -> way L r w (m_metric l + c).
Proof.
  intros Hl H. induction H as [|u l' w c _ IH Hl'].
  - rewrite Z.add_comm. by apply (way_link L r r l x 0); [apply way_root|].
  - rewrite Z.add_assoc. by apply (way_link L r u l' w).
Qed.

(** The first link of a way. *)
Lemma way_split r w c : way L r w c -> (w = r /\ c = 0) \/ exists l x d, link L r l x /\ way L x w d /\ c = m_metric l + d.
Proof.
  induction 1 as [|u l w c _ IH Hl]; [by left|]. right. destruct IH as [[-> ->]|(l0 & x & d & H1 & H2 & ->)].
  - exists l, w, 0. split_and!; [done|apply way_root|lia].
  - exists l0, x, (d + m_metric l). split_and!; [done|by apply (way_link L x u l w)|lia].
Qed.

Context (r : Ipv4Address) (ifc : Ipv4Address -> Z) (HL : p2p_lsdb L r).

(** A first hop is the first link of a shortest path. *)
Lemma first_hop_link w e : first_hop L r ifc w e -> exists l x lr d, link L r l x /\ back L r x = Some lr /\
  e = (m_linkData lr, ifc (m_linkData l)) /\ shortest L x w d /\ shortest L r w (m_metric l + d).
Proof using.
  intros H. enough (exists l x lr d, link L r l x /\ back L r x = Some lr /\ e = (m_linkData lr, ifc (m_linkData l)) /\
    way L x w d /\ shortest L r w (m_metric l + d)) as (l & x & lr & d & H1 & H2 & H3 & H4 & H5).
  - exists l, x, lr, d. split_and!; [done..| |done]. split; [done|]. intros c Hc. pose proof (proj2 H5 _ (way_cons _ _ _ _ _ H1 Hc)). lia.
  - induction H as [l w lr Hl Hs Hb|u l w c e _ Hl Hc Hw _ IH].
    + exists l, w, lr, 0. split_and!; [done..|apply way_root|by rewrite Z.add_0_r].
    + destruct IH as (l0 & x & lr & d & H1 & H2 & H3 & H4 & H5). exists l0, x, lr, (d + m_metric l).
      split_and!; [done..|by apply (way_link L x u l w)|]. rewrite (shortest_unique _ _ _ _ _ Hc H5) in Hw. by rewrite Z.add_assoc.
Qed.

Lemma first_hop_exists w c : shortest L r w c -> w <> r -> exists e, first_hop L r ifc w e.
Proof using HL.
  intros Hs Hne. pose proof (proj1 Hs) as Hw. revert Hs Hne. induction Hw as [|u l w c Hu IH Hl]; intros Hs Hne; [done|].
  assert (shortest L r u c) as Hsu.
  { split; [done|]. intros c' Hc'. pose proof (proj2 Hs _ (way_link _ _ _ _ _ _ Hc' Hl)). lia. }
  destruct (decide (u = r)) as [->|Hur].
  - apply (shortest_root _ _ HL) in Hsu as ->. destruct (pl_back _ _ HL _ _ Hl) as [lr Hlr].
    exists (m_linkData lr, ifc (m_linkData l)). by eapply first_direct.
  - destruct (IH Hsu Hur) as [e He]. exists e. by apply (first_inherited L r ifc u l w c e).
Qed.

(** The calculation finds a shortest way, so there is one. *)
Lemma shortest_exists w c : way L r w c -> exists d, shortest L r w d.
Proof using HL.
  clear ifc. intros Hw. set (ifc := fun _ : Ipv4Address => 0).
  set (st := mkSpf (mkLSDB L []) ∅ 0 None []
    [mkGNode (Some r) [] (Some Global.MakeIpv4GlobalRouting) (Some (fun _ _ => 0)) true]).
  destruct (plant_ok L r ifc HL st) as (v & st1 & P1 & P2 & P3 & P4 & [P5 P6] & P7 & _); [done|done| |].
  { intros a. cbn. by rewrite decide_True. }
  destruct (spf_loop_ok L r ifc Nat.ltb HL Global.MakeIpv4GlobalRouting [] (length L) [r] (fun _ _ => False) 0 st1 v r P2 P3)
    as (st2 & done & S1 & R & D & H & HR & Hq & _).
  { by intros a l ->%list_elem_of_singleton. }
  { split; [done|]. exists Global.MakeIpv4GlobalRouting. rewrite P5. split; [cbn; by rewrite decide_True|]. split; [|done]. intros entry.
    split; [by left|]. intros [?|(x & l & e & ->%list_elem_of_singleton & _ & _ & Hf & _)]; [done|]. by destruct (root_no_hop L r ifc HL e). }
  { done. }
  { cbn. lia. }
  destruct (spf_frontier _ _ _ HL _ _ _ _ _ _ H HR Hw) as [Hin|(p & x & Hp & _)]; [|rewrite Hq in Hp; by apply elem_of_nil in Hp].
  destruct (done_vertex _ _ _ _ _ _ _ _ H Hin) as (p & x & Hx & <- & Hp). exists (m_distanceFromRoot x).
  by apply (ti_tree _ _ _ _ _ _ _ H p x Hx Hp).
Qed.
End paths.

(** ** Addresses and hops *)

Section network.
Context {S : Type} (env : NodeEnv).
Implicit Types (net : Network S) (ip : L3 S).

(** [x] is an address of the interface [i] of the router [u]. *)
Definition has_address net (u : Ipv4Address) (i : Ipv4Interface) (x : Ipv4InterfaceAddress) : Prop :=
  exists n node rtr ip, net_nodes net !! n = Some node /\ node_router node = Some rtr /\ m_routerId rtr = u /\
    node_ipv4 node = Some ip /\ i ∈ m_interfaces ip /\ x ∈ m_ifaddrs i.

(** The primary address of an interface on a point-to-point link belongs to
    nothing else, there is one link between two routers, and no stub record is
    mistaken for a link, as its link id is no router's. *)
Record addressed net : Prop := {
  ad_unique u nd i a u' i' x : port net u nd i a -> (exists d, net_devices net !! nd = Some d /\ dev_IsPointToPoint d = true) ->
    has_address net u' i' x -> m_local x = m_local a -> u' = u /\ m_device i' = m_device i;
  ad_range u i x : has_address net u i x -> is_u32 (m_local x);
  ad_single u w l l' : wire net u w l -> wire net u w l' -> l = l';
  ad_stub u l n node rtr : stub net u l -> net_nodes net !! n = Some node -> node_router node = Some rtr -> m_linkId l <> m_routerId rtr
}.

(** Tables without routes, that know their stack; every node is computed here. *)
Definition fresh_tables net : Prop := forall n node rtr ip, net_nodes net !! n = Some node -> node_router node = Some rtr ->
  node_ipv4 node = Some ip -> node_here node = true /\ exists gr0, r_routingProtocol rtr = Some gr0 /\
    Global.m_hostRoutes gr0 = [] /\ Global.m_networkRoutes gr0 = [] /\ Global.m_randomEcmpRouting gr0 = false /\
    Global.m_ipv4 gr0 = Some (view env ip).

(** What the tables of [u] say about [dest]: over the link [l] to [x], to the
    address that [x] has on it. *)
Definition hop net (st : Spf) (m_rand : Z -> Z) (dest u : Ipv4Address) (l : GlobalRoutingLinkRecord) (x : Ipv4Address) : Prop :=
  exists n node rtr g gr route nd, net_nodes net !! n = Some node /\ node_router node = Some rtr /\ m_routerId rtr = u /\
    NodeList st !! n = Some g /\ gn_routing g = Some gr /\ Global.LookupGlobal m_rand gr dest None = Ok (Some route) /\
    m_outputDevice route = nd /\ wire_at net u nd x l /\
    exists nd' i' a', connected net nd nd' /\ port net x nd' i' a' /\ m_ifup i' = true /\ m_local a' = m_gateway route.

Inductive travels net (st : Spf) (m_rand : Z -> Z) (dest : Ipv4Address) : Ipv4Address -> Ipv4Address -> Z -> Prop :=
| travels_here u : travels net st m_rand dest u u 0
| travels_hop u l x w c : hop net st m_rand dest u l x -> travels net st m_rand dest x w c ->
    travels net st m_rand dest u w (m_metric l + c).

(** ** Interfaces of addresses *)

Lemma land_ones x : is_u32 x -> CombineMask x Mask_GetOnes = x.
Proof using.
  intros H. unfold CombineMask. change Mask_GetOnes with (Z.ones 32). rewrite Z.land_ones by lia. apply Z.mod_small. unfold is_u32 in H. lia.
Qed.

Lemma find_interface_index (f : Ipv4Interface -> bool) z l k i : l !! k = Some i -> f i = true ->
  (forall j y, l !! j = Some y -> f y = true -> j = k) -> find_interface f z l = z + Z.of_nat k.
Proof using.
  revert z k. induction l as [|y l IH]; intros z k Hk Hf Hu; [done|]. cbn. destruct (f y) eqn:E.
  - pose proof (Hu 0%nat y eq_refl E) as <-. lia.
  - destruct k as [|k]; [injection Hk as ->; congruence|]. rewrite (IH (z + 1) k); [lia|done|done|].
    intros j x Hj Hx. pose proof (Hu (Datatypes.S j) x Hj Hx). lia.
Qed.

Section net.
Context (net : Network S) (HP : p2p_network net) (HA : addressed net).

(** The interface that the calculation finds for its own end of a link. *)
Lemma interface_of_link n node rtr ip nd i a : net_nodes net !! n = Some node -> node_router node = Some rtr -> node_ipv4 node = Some ip ->
  port net (m_routerId rtr) nd i a -> (exists d, net_devices net !! nd = Some d /\ dev_IsPointToPoint d = true) ->
  exists k, GetInterfaceForPrefix ip (m_local a) Mask_GetOnes = Z.of_nat k /\ m_interfaces ip !! k = Some i /\ m_device i = nd /\
    Interface.GetAddress i 0 = Ok a /\ Z.of_nat k < 2 ^ 32.
Proof using HP HA.
  intros Hn Hr Hip Hport Hp2p. pose proof (pn_stack _ HP _ _ _ Hn Hip) as [Hlen Hnd].
  assert (forall j y x, m_interfaces ip !! j = Some y -> x ∈ m_ifaddrs y -> has_address net (m_routerId rtr) y x) as Hhas.
  { intros j y x Hy Hx. exists n, node, rtr, ip. split_and!; [done..|by eapply list_elem_of_lookup_2|done]. }
  destruct Hport as [n' node' rtr' A1 A2 A3 A4 (ip' & rest & B1 & B2 & B3 & B4)] eqn:E. clear E.
  assert (n' = n) as -> by by eapply (pn_ids _ HP n' n). assert (node' = node) as -> by congruence. assert (ip' = ip) as -> by congruence.
  apply list_elem_of_lookup in B2 as [k Hk]. exists k. assert (a ∈ m_ifaddrs i) as Ha by (rewrite B4; by left).
  assert (is_u32 (m_local a)) as Hu by by eapply (ad_range _ HA), Hhas.
  split_and!; [|done|done|unfold Interface.GetAddress; by rewrite B4|pose proof (lookup_lt_Some _ _ _ Hk); lia].
  unfold GetInterfaceForPrefix. rewrite (find_interface_index _ 0 _ k i); [lia|done| |].
  - apply existsb_exists. exists a. split; [by apply list_elem_of_In|]. apply Z.eqb_refl.
  - intros j y Hj (x & Hx%list_elem_of_In & Ex%Z.eqb_eq)%existsb_exists. pose proof (Hhas j y x Hj Hx) as Hy.
    rewrite !land_ones in Ex; [|done|by eapply (ad_range _ HA)].
    destruct (ad_unique _ HA _ nd i a _ y x Hport Hp2p Hy Ex) as [_ Ed].
    eapply (NoDup_lookup _ _ _ (m_device i)); [exact Hnd| |]; rewrite list_lookup_fmap; [rewrite Hj|rewrite Hk]; cbn; congruence.
Qed.

(** The record that a router looks up for a link is the one at its other end. *)
Lemma record_at_end db u l x lr : network_lsdb net db -> wire net u x l -> recs (m_database db) x lr -> m_linkId lr = u ->
  exists nd nd' i' a', wire_at net u nd x l /\ connected net nd nd' /\ port net x nd' i' a' /\ m_ifup i' = true /\ m_linkData lr = m_local a'.
Proof using HP HA.
  intros N Hw Hlr Hid. destruct (wire_router net _ _ _ Hw) as (_ & _ & _ & _). destruct (wire_back net HP _ _ _ Hw) as (l0 & nd' & W).
  destruct Hw as (nd & Hw). pose proof Hw as (i & a & nd2 & i2 & a2 & P1 & P2 & P3 & P4 & P5 & P6 & P7).
  apply (nl_recs _ _ N) in Hlr as [[u' Hlr]|Hs].
  2: { destruct P1 as [n node rtr Hn Hr Hu _ _]. destruct (ad_stub _ HA x lr n node rtr Hs Hn Hr). congruence. }
  assert (u' = u) as -> by (by destruct Hlr as (? & ? & ? & ? & ? & ? & _ & _ & _ & _ & _ & _ & ->)).
  assert (wire net x u (mkLinkRecord u (m_local a2) PointToPoint (Ipv4Stack.m_metric i2))) as Hback.
  { exists nd2, i2, a2, nd, i, a. split_and!; try done.
    - destruct P1 as [n node rtr Hn Hr Hu Hd Hi]. destruct (pn_device _ HP _ _ _ Hn Hd) as (d & D1 & D2 & _ & [D3|[D3 _]]).
      + destruct D3 as (_ & nd3 & d' & node' & E1 & E2 & E3 & _). assert (nd3 = nd2) as -> by by eapply connected_unique.
        destruct P5 as (e & ch & F1 & F2 & F3 & F4). exists d', ch. split_and!; [done|congruence|done|]. destruct F4; [by right|by left].
      + destruct P6 as (e & E1 & E2). congruence.
    - destruct P1 as [n node rtr Hn Hr Hu Hd Hi]. destruct (pn_device _ HP _ _ _ Hn Hd) as (d & D1 & D2 & _ & [D3|[D3 _]]).
      + destruct D3 as (_ & nd3 & d' & node' & E1 & E2 & E3 & E4 & _). assert (nd3 = nd2) as -> by by eapply connected_unique. by exists d'.
      + destruct P6 as (e & E1 & E2). congruence. }
  exists nd, nd2, i2, a2. split_and!; [done..|]. by rewrite (ad_single _ HA _ _ _ _ Hlr Hback).
Qed.

(** ** One hop *)

Lemma next_link_in id l lr : next_link id true false l = Some lr -> lr ∈ l /\ m_linkId lr = id.
Proof using.
  induction l as [|x l IH]; [done|]. cbn. destruct (Z.eqb_spec (m_linkId x) id).
  - intros [= <-]. split; [by left|done].
  - intros [H1 H2]%IH. split; [by right|done].
Qed.

Lemma record_back_in id l lr : record_back id l = Some lr -> lr ∈ l /\ m_linkId lr = id.
Proof using.
  induction l as [|x l IH]; [done|]. cbn. destruct (bool_decide _ && _) eqn:E.
  - intros [= <-]. apply andb_true_iff in E as [_ E]. split; [by left|lia].
  - intros [H1 H2]%IH. split; [by right|done].
Qed.

(** A lookup with a default route only. *)
Lemma lookup_default m_rand gw i gr0 dest : Global.m_hostRoutes gr0 = [] -> Global.m_networkRoutes gr0 = [] ->
  Global.m_randomEcmpRouting gr0 = false ->
  Global.LookupGlobal m_rand (Global.AddNetworkRouteTo GetZero Mask_GetZero gw i gr0) dest None =
  (route ← Global.make_route (Global.AddNetworkRouteTo GetZero Mask_GetZero gw i gr0) (mkEntry GetZero Mask_GetZero gw i); Ok (Some route)).
Proof using.
  intros Hh Hnets Hrand. rewrite Global.lookup_first; [|cbn; rewrite Hh; constructor|done].
  unfold Global.entry_for, Global.AddNetworkRouteTo, Global.set_networkRoutes.
  cbn [Global.m_hostRoutes Global.m_networkRoutes Global.m_ASexternalRoutes]. rewrite Hh, Hnets. cbn [app]. rewrite filter_nil, filter_cons.
  rewrite decide_True; [done|]. unfold IsMatch. cbn [GetDestNetworkMask CreateNetworkRouteTo]. change Mask_GetZero with 0. by rewrite !Z.land_0_r.
Qed.

Section tables.
Context (db : LSDB) (N : network_lsdb net db) (st : Spf) (m_rand : Z -> Z).
Notation L := (m_database db).

Section router.
Context (n : nat) (node : RNode S) (rtr : GlobalRouter) (ip : L3 S) (g : GNode) (gr : Global.GlobalState).
Context (Hn : net_nodes net !! n = Some node) (Hr : node_router node = Some rtr) (Hip : node_ipv4 node = Some ip).
Context (Hg : NodeList st !! n = Some g) (Hgr : gn_routing g = Some gr) (Hipv4 : Global.m_ipv4 gr = Some (view env ip)).
Notation u := (m_routerId rtr).
Notation ifc := (fun a => GetInterfaceForPrefix ip a Mask_GetOnes).

(** The interface of a link is known. *)
Lemma link_interface l x : wire net u x l -> exists k, ifc (m_linkData l) = Z.of_nat k /\ Z.of_nat k < 2 ^ 32.
Proof using HP HA Hn Hr Hip.
  intros (nd & i & a & nd' & i' & a' & P1 & _ & _ & _ & _ & P6 & ->).
  destruct (interface_of_link n node rtr ip nd i a Hn Hr Hip P1 P6) as (k & K1 & _ & _ & _ & K5). by exists k.
Qed.

(** An entry with the gateway and the interface of a link takes a packet over it. *)
Lemma hop_over dest d m l x lr : wire net u x l -> recs L x lr -> m_linkId lr = u ->
  Global.LookupGlobal m_rand gr dest None =
    (route ← Global.make_route gr (mkEntry d m (m_linkData lr) (ifc (m_linkData l))); Ok (Some route)) ->
  hop net st m_rand dest u l x.
Proof using HP HA Hn Hr Hip Hg Hgr Hipv4 N.
  intros Hw Hlr Hid. destruct (record_at_end db u l x lr N Hw Hlr Hid) as (nd & nd' & i' & a' & W1 & W2 & W3 & W4 & W5).
  pose proof W1 as (i & a & nd2 & i2 & a2 & P1 & _ & _ & _ & _ & P6 & P7).
  destruct (interface_of_link n node rtr ip nd i a Hn Hr Hip P1 P6) as (k & K1 & K2 & K3 & K4 & _).
  assert (m_linkData l = m_local a) as El by by rewrite P7.
  assert (Ipv4Stack.GetInterface ip (Z.of_nat k) = Some i) as Hk by (unfold Ipv4Stack.GetInterface; by rewrite Nat2Z.id).
  cbv beta. rewrite El, K1. unfold Global.make_route, Global.stack. rewrite Hipv4. cbn [or_fault mbind result_bind StaticRouting.GetInterface].
  cbn [Node.GetAddress Node.GetNetDevice view]. unfold GetAddress, GetNetDevice, interface_at. rewrite Hk. cbn [or_fault mbind result_bind].
  rewrite K4. cbn [mbind result_bind]. intros Hlook.
  exists n, node, rtr, g, gr, (mkRoute d (m_local a) (m_linkData lr) (m_device i)), nd.
  split_and!; try done. exists nd', i', a'. by split_and!.
Qed.

(** A host route to an address of a neighbour's, or of a router farther away. *)
Lemma hop_many gr0 dest w c l0 : global_routes L u ifc (m_extdatabase db) gr0 gr -> Global.m_hostRoutes gr0 = [] ->
  Global.m_randomEcmpRouting gr0 = false -> shortest L u w c -> w <> u -> wire net w l0.1 l0.2 -> m_linkData l0.2 = dest ->
  exists l x d, hop net st m_rand dest u l x /\ wire net u x l /\ shortest L x w d /\ c = m_metric l + d.
Proof using HP HA Hn Hr Hip Hg Hgr Hipv4 N.
  intros [G1 _ _ G4 _] Hh0 Hrand Hs Hne Hw Hdest. assert (p2p_lsdb L u) as HL by by apply (nl_lsdb _ _ N n node).
  assert (forall e, first_hop L u ifc w e -> 0 <= e.2) as Hpos.
  { intros e (l & x & lr & d & Hl & _ & -> & _)%first_hop_link. apply (nl_link net db _ _ _ N) in Hl.
    destruct (link_interface _ _ Hl) as (k & K & _). cbv beta in K. cbn [snd]. rewrite K. lia. }
  assert (forall entry, entry ∈ Global.m_hostRoutes gr -> exists w' l' e', recs L w' l' /\ m_linkType l' = PointToPoint /\
    first_hop L u ifc w' e' /\ entry = CreateHostRouteTo (m_linkData l') e'.1 e'.2) as Hhosts.
  { intros entry [Hin|(w' & l' & E1 & E2 & e' & E3 & _ & E5)]%G1; [by rewrite Hh0, elem_of_nil in Hin|by exists w', l', e']. }
  destruct (first_hop_exists L u ifc HL w c Hs Hne) as [e He].
  assert (link L w l0.2 l0.1) as Hl0 by by apply (nl_link net db _ _ _ N).
  assert (CreateHostRouteTo dest e.1 e.2 ∈ filter (fun x => GetDest x = dest) (Global.m_hostRoutes gr)) as Hmine.
  { apply list_elem_of_filter. split; [done|]. apply G1. right. exists w, l0.2. destruct Hl0 as (R1 & R2 & _). split; [done|]. split; [done|].
    exists e. rewrite Hdest. split_and!; [done|by apply Hpos|done]. }
  destruct (filter (fun x => GetDest x = dest) (Global.m_hostRoutes gr)) as [|y ys] eqn:Emine; [by apply elem_of_nil in Hmine|].
  assert (y ∈ y :: ys) as Hy by by left. rewrite <- Emine in Hy. apply list_elem_of_filter in Hy as [Hyd Hy].
  destruct (Hhosts y Hy) as (w' & l' & e' & E1 & E2 & E3 & ->). cbn [GetDest CreateHostRouteTo] in Hyd. assert (w' = w) as ->.
  { apply (nl_recs _ _ N) in E1 as [[x' (nd & i & a & nd' & i' & a' & P1 & _ & _ & _ & _ & P6 & ->)]|(nd & i & a & d & _ & _ & _ & E1)].
    - destruct Hw as (nd2 & i2 & a2 & nd3 & i3 & a3 & Q1 & _ & _ & _ & _ & _ & Q7). rewrite Q7 in Hdest. cbn [m_linkData] in Hdest, Hyd.
      destruct Q1 as [n2 node2 rtr2 X1 X2 X3 X4 (ip2 & rest & Y1 & Y2 & Y3 & Y4)].
      destruct (ad_unique _ HA w' nd i a w i2 a2) as [-> _]; [done|done| |congruence|done].
      exists n2, node2, rtr2, ip2. split_and!; [done..|rewrite Y4; by left].
    - destruct (dev_IsPointToPoint d); [destruct E1 as (? & ? & ? & ? & _ & _ & ->)|subst l']; done. }
  destruct (first_hop_link L u ifc w e' E3) as (l & x & lr & d & F1 & F2 & -> & F4 & F5).
  exists l, x, d. assert (wire net u x l) as Hwl by by apply (nl_link net db _ _ _ N). split; [|split; [done|split; [done|]]].
  - unfold back in F2. apply bind_Some in F2 as (lsa & F2 & F3). apply next_link_in in F3 as [F3 F6].
    apply (hop_over dest dest Mask_GetOnes l x lr); [done|by exists lsa|done|].
    rewrite Global.lookup_first; [|apply Forall_forall; intros z (w2 & l2 & e2 & _ & _ & _ & ->)%Hhosts; done|congruence].
    unfold Global.entry_for. rewrite Emine. cbn [app head fst snd]. unfold CreateHostRouteTo. rewrite Hyd. reflexivity.
  - by apply (shortest_unique L u w).
Qed.

(** The default route of a router with a single link. *)
Lemma hop_single gr0 dest w c l1 w_lsa lr lsa : map_find u L = Some lsa ->
  filter (fun l => is_transit l = true) (m_linkRecords lsa) = [l1] ->
  map_find (m_linkId l1) L = Some w_lsa -> record_back u (m_linkRecords w_lsa) = Some lr ->
  gr = Global.AddNetworkRouteTo GetZero Mask_GetZero (m_linkData lr) (u32 (ifc (m_linkData l1))) gr0 ->
  Global.m_hostRoutes gr0 = [] -> Global.m_networkRoutes gr0 = [] -> Global.m_randomEcmpRouting gr0 = false ->
  shortest L u w c -> w <> u ->
  exists l x d, hop net st m_rand dest u l x /\ wire net u x l /\ shortest L x w d /\ c = m_metric l + d.
Proof using HP HA Hn Hr Hip Hg Hgr Hipv4 N.
  intros Hlsa Hfilter Hw_lsa Hlr Egr Hh Hnets Hrand Hs Hne.
  destruct (way_split L u w c (proj1 Hs)) as [[? _]|(l & x & d & Hl & Hd & ->)]; [done|].
  assert (l = l1) as ->.
  { destruct Hl as ((lsa' & E1 & E2) & E3 & _). assert (lsa' = lsa) as -> by congruence.
    assert (l ∈ filter (fun l => is_transit l = true) (m_linkRecords lsa)) as H.
    { apply list_elem_of_filter. split; [|done]. unfold is_transit. by rewrite E3. }
    rewrite Hfilter in H. by apply list_elem_of_singleton in H. }
  exists l1, x, d. assert (wire net u x l1) as Hw by by apply (nl_link net db _ _ _ N).
  assert (m_linkId l1 = x) as Ex by apply Hl. rewrite Ex in Hw_lsa. apply record_back_in in Hlr as [Hlr Hid].
  split; [|split; [done|split; [|done]]].
  - apply (hop_over dest GetZero Mask_GetZero l1 x lr); [done|by exists w_lsa|done|].
    destruct (link_interface _ _ Hw) as (k & K1 & K2). cbv beta in *. rewrite K1. rewrite K1 in Egr.
    rewrite u32_small in Egr by (unfold is_u32; lia).
    rewrite Egr. by rewrite lookup_default.
  - split; [done|]. intros c' Hc'. pose proof (proj2 Hs _ (way_cons L _ _ _ _ _ Hl Hc')). lia.
Qed.
End router.

(** The tables of every router: a step of a shortest path, to any address on a
    link of [w]. *)
Lemma hop_exists n node rtr dest w c l0 : fresh_tables net -> tables_computed net (fun gr => gr) db st ->
  net_nodes net !! n = Some node -> node_router node = Some rtr -> shortest L (m_routerId rtr) w c -> w <> m_routerId rtr ->
  wire net w l0.1 l0.2 -> m_linkData l0.2 = dest ->
  exists l x d, hop net st m_rand dest (m_routerId rtr) l x /\ wire net (m_routerId rtr) x l /\ shortest L x w d /\ c = m_metric l + d.
Proof using HP HA N.
  intros HF HT Hn Hr Hs Hne Hw Hdest. destruct (pn_router _ HP _ _ _ Hn Hr) as (_ & ip & Hip & _).
  destruct (HF n node rtr ip Hn Hr Hip) as (Hhere & gr0 & F1 & F2 & F3 & F4 & F5).
  destruct (HT n node rtr ip gr0 Hn Hr Hip F1) as (g & gr & T1 & T2 & T3). rewrite Hhere in T3. destruct T3 as (lsa & Hlsa & T3).
  destruct (filter (fun l => is_transit l = true) (m_linkRecords lsa)) as [|l1 [|l2 ls]] eqn:Hfilter.
  - destruct (way_split L _ w c (proj1 Hs)) as [[? _]|(l & x & d & ((lsa' & E1 & E2) & E3 & _) & _)]; [done|].
    assert (lsa' = lsa) as -> by congruence. assert (l ∈ filter (fun l => is_transit l = true) (m_linkRecords lsa)) as H.
    { apply list_elem_of_filter. split; [|done]. unfold is_transit. by rewrite E3. }
    rewrite Hfilter in H. by apply elem_of_nil in H.
  - destruct T3 as (w_lsa & lr & Hw_lsa & Hlr & Egr).
    apply (hop_single n node rtr ip g gr Hn Hr Hip T1 T2) with gr0 l1 w_lsa lr lsa; try done. by rewrite Egr.
  - apply (hop_many n node rtr ip g gr Hn Hr Hip T1 T2) with gr0 l0; try done. rewrite (gt_ipv4 _ _ _ _ _ _ T3). done.
Qed.

Lemma travels_shortest dest w l0 : fresh_tables net -> tables_computed net (fun gr => gr) db st ->
  wire net w l0.1 l0.2 -> m_linkData l0.2 = dest -> forall k n node rtr c, net_nodes net !! n = Some node -> node_router node = Some rtr ->
  shortest L (m_routerId rtr) w c -> c <= Z.of_nat k -> travels net st m_rand dest (m_routerId rtr) w c.
Proof using HP HA N.
  intros HF HT Hw Hdest. induction k as [|k IH]; intros n node rtr c Hn Hr Hs Hk;
    pose proof (nl_lsdb _ _ N n node rtr Hn Hr) as HL; pose proof (way_nonneg _ _ HL _ _ (proj1 Hs)) as Hc;
    (destruct (decide (w = m_routerId rtr)) as [->|Hne]; [apply (shortest_root _ _ HL) in Hs as ->; constructor|]).
  - destruct (hop_exists n node rtr dest w c l0 HF HT Hn Hr Hs Hne Hw Hdest) as (l & x & d & _ & H2 & H3 & H4).
    pose proof (wire_metric net HP _ _ _ H2). destruct (wire_router net _ _ _ H2) as (n' & node' & rtr' & N1 & N2 & <-).
    pose proof (way_nonneg _ _ (nl_lsdb _ _ N n' node' rtr' N1 N2) _ _ (proj1 H3)). lia.
  - destruct (hop_exists n node rtr dest w c l0 HF HT Hn Hr Hs Hne Hw Hdest) as (l & x & d & H1 & H2 & H3 & ->).
    pose proof (wire_metric net HP _ _ _ H2). destruct (wire_router net _ _ _ H2) as (n' & node' & rtr' & N1 & N2 & <-).
    apply (travels_hop _ _ _ _ _ l (m_routerId rtr')); [done|]. apply (IH n' node'); [done..|lia].
Qed.
End tables.
End net.

(** (C8) After PopulateRoutingTables on a network of point-to-point links,
    with addresses that belong to one interface each: from any router, the
    answers of LookupGlobal to an address on a link of any router that can be
    reached take a packet there, router by router, every time to an address
    that the next router has on the link the packet is sent over, and along a
    path of the least cost there is. *)
Theorem global_forwarding below (net : Network S) m_rand : p2p_network net -> addressed net -> fresh_tables net ->
  exists st db, PopulateRoutingTables below net = Ok st /\ network_lsdb net db /\
  forall n node rtr w c, net_nodes net !! n = Some node -> node_router node = Some rtr -> way (m_database db) (m_routerId rtr) w c ->
  exists d, shortest (m_database db) (m_routerId rtr) w d /\
    forall x l, wire net w x l -> travels net st m_rand (m_linkData l) (m_routerId rtr) w d.
Proof.
  intros HP HA HF. destruct (populate_ok below net HP) as (st & db & P1 & _ & P3 & _ & P5).
  { intros n node rtr Hn Hr. destruct (pn_router _ HP _ _ _ Hn Hr) as (_ & ip & Hip & _).
    destruct (HF n node rtr ip Hn Hr Hip) as (_ & gr0 & E & _). by exists gr0. }
  exists st, db. split; [done|]. split; [done|]. intros n node rtr w c Hn Hr Hway.
  pose proof (nl_lsdb _ _ P3 n node rtr Hn Hr) as HL. destruct (shortest_exists _ _ HL w c Hway) as [d Hd]. exists d. split; [done|].
  intros x l Hw. pose proof (way_nonneg _ _ HL _ _ (proj1 Hd)).
  apply (travels_shortest net HP HA db P3 st m_rand (m_linkData l) w (x, l) HF P5 Hw eq_refl (Z.to_nat d) n node rtr d); [done..|lia].
Qed.
End network.

(** ** Example: from one end of the row to the other *)

(** All interfaces of routers with their addresses. *)
Definition all_addresses {S} (net : Network S) : list (Ipv4Address * Ipv4Interface * Ipv4InterfaceAddress) :=
  flat_map (fun node => match node_router node, node_ipv4 node with
    | Some rtr, Some ip => flat_map (fun i => map (fun x => (m_routerId rtr, i, x)) (m_ifaddrs i)) (m_interfaces ip)
    | _, _ => [] end) (net_nodes net).

Lemma has_address_all {S} (net : Network S) u i x : has_address net u i x -> In (u, i, x) (all_addresses net).
Proof.
  intros (n & node & rtr & ip & H1 & H2 & <- & H4 & H5 & H6). apply in_flat_map. exists node.
  split; [by apply list_elem_of_In, (list_elem_of_lookup_2 _ n)|]. rewrite H2, H4. apply in_flat_map. exists i.
  split; [by apply list_elem_of_In|]. by apply in_map, list_elem_of_In.
Qed.

Lemma port_address {S} (net : Network S) u nd i a : port net u nd i a -> has_address net u i a /\ m_device i = nd.
Proof.
  intros [n node rtr H1 H2 H3 H4 (ip & rest & A1 & A2 & A3 & A4)]. split; [|done]. exists n, node, rtr, ip. split_and!; [done..|].
  rewrite A4. by left.
Qed.

(** One of the alternatives of the goal, or a contradiction. *)
Ltac pick := first [exfalso; congruence | congruence | left; congruence | right; pick].

(** What is at an address of the example: router, device, address. *)
Definition example_places : list (Ipv4Address * NetDevice * Ipv4Address) :=
  [(0, 0, 0x7f000001); (0, 1, 0x0a010101); (1, 10, 0x0a010102); (1, 11, 0x0a010201); (2, 20, 0x0a010202); (2, 21, 0x0a010301)].

Lemma example_place u i x : has_address example_network u i x -> In (u, m_device i, m_local x) example_places /\ Ipv4Stack.m_metric i = 1 /\
  (m_mask x = 0xff000000 \/ m_mask x = 0xfffffffc \/ m_mask x = 0xffffff00).
Proof.
  intros H%has_address_all. cbn in H. repeat (destruct H as [H|H]; [injection H as <- <- <-; cbn; tauto|]). contradiction.
Qed.

Definition example_wires : list (Ipv4Address * Ipv4Address * Ipv4Address) :=
  [(0, 1, 0x0a010101); (1, 0, 0x0a010102); (1, 2, 0x0a010201); (2, 1, 0x0a010202)].

Lemma example_connected nd nd' : connected example_network nd nd' -> In nd [1; 10; 11; 20; 21; 0] ->
  In (nd, nd') [(1, 10); (10, 1); (11, 20); (20, 11)].
Proof.
  intros (d & ch & H1 & H2 & H3 & H4) Hnd. cbn in Hnd.
  repeat (destruct Hnd as [<-|Hnd]; [vm_compute in H1; injection H1 as <-; cbn in H2; first [discriminate H2|injection H2 as <-];
    cbn in H4; destruct H4 as [H4|H4]; first [discriminate H4|injection H4; intros; subst; cbn; tauto]|]). contradiction.
Qed.

Lemma example_wire u w l : wire example_network u w l -> In (u, w, m_linkData l) example_wires /\ l = mkLinkRecord w (m_linkData l) PointToPoint 1.
Proof.
  intros (nd & i & a & nd' & i' & a' & P1 & _ & P2 & _ & P5 & _ & ->). apply port_address in P1 as [P1 <-], P2 as [P2 <-].
  apply example_place in P1 as (P1 & -> & _), P2 as (P2 & _). cbn [m_linkData]. split; [|done].
  assert (In (m_device i, m_device i') [(1, 10); (10, 1); (11, 20); (20, 11)]) as Hc.
  { apply example_connected; [done|]. cbn in P1 |- *. decompose [or] P1; pick. }
  cbn in P1, P2, Hc |- *. decompose [or] P1; decompose [or] P2; decompose [or] Hc; pick.
Qed.

Lemma example_addressed : addressed example_network.
Proof.
  split.
  - intros u nd i a u' i' x [P1 <-]%port_address (d & D1 & D2) H2 E. apply example_place in P1 as (P1 & _), H2 as (H2 & _).
    cbn in P1, H2. decompose [or] P1; decompose [or] H2; simplify_eq; try (split; congruence); vm_compute in D1; simplify_eq; done.
  - intros u i x (H & _)%example_place. cbn in H. unfold is_u32. decompose [or] H; simplify_eq; lia.
  - intros u w l l' [H1 E1]%example_wire [H2 E2]%example_wire. rewrite E1, E2. f_equal. cbn in H1, H2.
    clear E1 E2. decompose [or] H1; decompose [or] H2; first [contradiction|congruence].
  - intros u l n node rtr (nd & i & a & d & [P1 <-]%port_address & _ & _ & Hl) Hn Hr.
    assert (0 <= m_routerId rtr <= 2) as Hid.
    { destruct n as [|[|[|n]]]; [..|done]; injection Hn as <-; injection Hr as <-; cbn; lia. }
    assert (forall v y z, has_address example_network v y z -> 2 < m_local z /\ 2 < CombineMask (m_local z) (m_mask z)) as H.
    { intros v y z Hz%has_address_all. cbn in Hz. repeat (destruct Hz as [Hz|Hz]; [injection Hz as <- <- <-; split; reflexivity|]). contradiction. }
    destruct (dev_IsPointToPoint d).
    + destruct Hl as (w & nd' & i' & a' & [P2 _]%port_address & _ & ->). apply H in P2. cbn. lia.
    + subst l. apply H in P1. cbn [m_linkId]. lia.
Qed.

Lemma example_fresh : fresh_tables example_env example_network.
Proof.
  intros n node rtr ip Hn. destruct n as [|[|[|n]]]; [..|done]; injection Hn as <-; intros [= <-] [= <-];
    (split; [done|]; eexists; split_and!; reflexivity).
Qed.

(** From the first router to the address that the last has on its link. *)
Lemma global_forwarding_witness : exists st db,
  PopulateRoutingTables Nat.ltb example_network = Ok st /\ network_lsdb example_network db /\
  exists d, shortest (m_database db) 0 2 d /\ travels example_network st (fun _ => 0) 0x0a010202 0 2 d.
Proof.
  destruct (global_forwarding example_env Nat.ltb example_network (fun _ => 0) example_network_p2p example_addressed example_fresh)
    as (st & db & H1 & H2 & H3).
  exists st, db. split; [exact H1|]. split; [exact H2|].
  destruct (H3 0%nat _ _ 2 2 eq_refl eq_refl) as (d & H4 & H5).
  - change 2 with (0 + 1 + 1). apply (way_link _ _ 1 (mkLinkRecord 2 0x0a010201 PointToPoint 1)).
    + apply (way_link _ _ 0 (mkLinkRecord 1 0x0a010101 PointToPoint 1) 1 0); [apply way_root|]. apply (nl_link _ _ _ _ _ H2).
      exact example_wire_01.
    + apply (nl_link _ _ _ _ _ H2). exact example_wire_12.
  - exists d. split; [exact H4|]. apply (H5 1 (mkLinkRecord 1 0x0a010202 PointToPoint 1)). exact example_wire_21.
Defined.

(** ** Example: two links between the same routers

    10.1.1.0/30 and 10.1.2.0/30.  The second exit sends over the interface of the
    second link, to the gateway 10.1.1.2, which is not on it: the record that is
    looked up at the other router is its first. *)

Definition parallel_network : Network unit := {|
  net_devices := {[ 1 := p2p_dev 0 0; 2 := p2p_dev 0 1; 10 := p2p_dev 1 0; 11 := p2p_dev 1 1 ]};
  net_channels := [[1; 10]; [2; 11]];
  net_nodes := [
    example_router 0 [example_interface 1 0x0a010101 0xfffffffc; example_interface 2 0x0a010201 0xfffffffc] [];
    example_router 1 [example_interface 10 0x0a010102 0xfffffffc; example_interface 11 0x0a010202 0xfffffffc] []] |}.

Lemma parallel_links_gateway :
  (st ← PopulateRoutingTables Nat.ltb parallel_network; g ← NodeList st !! 0%nat ?? NullDeref; gr ← gn_routing g ?? NullDeref;
   Ok (map (fun r => (GetDest r, GetGateway r, StaticRouting.GetInterface r)) (Global.m_hostRoutes gr))) =
  Ok [(0x0a010102, 0x0a010102, 0); (0x0a010102, 0x0a010102, 1); (0x0a010202, 0x0a010102, 0); (0x0a010202, 0x0a010102, 1)].
Proof. vm_compute. reflexivity. Qed.
