(* ===== verification/GlobalSegments.v ===== *)
(** * GlobalSegments: networks with several routers

    For channels that more than two devices can share, without bridges: what
    GlobalDiscovery's routers find on them.  All agree on the designated router,
    one device announces the network, and what is announced fits the records of
    all the others. *)

From stdpp Require Import gmap.
From S2P Require Import Prelude StdMap Ipv4Address Node StaticRouting Ipv4Stack GlobalRouting GlobalLsdb GlobalSpf GlobalDiscovery GlobalLinks.

Section segments.
Context {S : Type} (net : Network S).
Implicit Types (node : RNode S) (ip : L3 S).

(** The address of a device whose node is a router with an interface for it
    that is up. *)
Definition router_address node (nd : NetDevice) : option Ipv4Address :=
  match node_router node, node_ipv4 node with
  | Some _, Some ip =>
      '(_, i) ← list_find (fun i => m_device i = nd) (m_interfaces ip);
      if m_ifup i then m_local <$> head (m_ifaddrs i) else None
  | _, _ => None
  end.
Definition device_address (nd : NetDevice) : option Ipv4Address :=
  d ← net_devices net !! nd; node ← net_nodes net !! dev_node d; router_address node nd.

(** A channel without bridges, whose devices belong to nodes with sound stacks. *)
Record segment (ch : nat) (devices : list NetDevice) : Prop := {
  sg_channel : net_channels net !! ch = Some devices;
  sg_device nd : nd ∈ devices -> exists d node, net_devices net !! nd = Some d /\ dev_channel d = Some ch /\
    net_nodes net !! dev_node d = Some node /\ NetDeviceIsBridged net nd = Ok None /\
    forall ip, node_ipv4 node = Some ip -> stack_ok ip /\ forall i, i ∈ m_interfaces ip -> m_ifaddrs i <> []
}.
Definition addresses (devices : list NetDevice) : list Ipv4Address := omap device_address devices.

(** ** Asking one device *)

Lemma find_device_index ip nd : stack_ok ip ->
  match list_find (fun i => m_device i = nd) (m_interfaces ip) with
  | Some (k, i) => find_spec ip nd (Some (Z.of_nat k)) /\ GetInterface ip (Z.of_nat k) = Some i
  | None => find_spec ip nd None
  end.
Proof using.
  intros Hok. destruct (list_find _ _) as [[k i]|] eqn:E.
  - apply list_find_Some in E as (E & Hd & _). assert (GetInterface ip (Z.of_nat k) = Some i) as H by by apply device_index.
    split; [|done]. eapply find_some; [done|by eapply list_elem_of_lookup_2|done].
  - apply list_find_None in E. rewrite Forall_forall in E. by apply find_none.
Qed.

Lemma find_spec_unique ip nd o o' : stack_ok ip -> find_spec ip nd o -> find_spec ip nd o' -> o = o'.
Proof using.
  intros [_ Hnd] [k i H1 H2 H3|H] [k' i' H1' H2' H3'|H']; [|by destruct (H' i)|by destruct (H i')|done].
  do 2 f_equal. unfold GetInterface in *. rewrite Nat2Z.id in *. eapply (NoDup_lookup _ _ _ nd); [exact Hnd| |]; rewrite list_lookup_fmap.
  - by rewrite H1, <- H3.
  - by rewrite H1', <- H3'.
Qed.

Lemma probe_ok node nd : (forall ip, node_ipv4 node = Some ip -> stack_ok ip /\ forall i, i ∈ m_interfaces ip -> m_ifaddrs i <> []) ->
  exists p, probe_router node nd = Ok p /\ match router_address node nd with Some a => p = RouterAddress a | None => forall a, p <> RouterAddress a end.
Proof using.
  intros Hnode. unfold probe_router, router_address. destruct (node_router node) as [rtr|]; [|by exists NoInterface].
  destruct (node_ipv4 node) as [ip|] eqn:Hip; [|by exists NoInterface]. destruct (Hnode ip eq_refl) as [Hok Haddr].
  destruct (FindInterface_ok node ip nd Hip Hok) as (o & -> & Hspec). cbn [mbind result_bind].
  pose proof (find_device_index ip nd Hok) as Hf. destruct (list_find _ _) as [[k i]|] eqn:E.
  - destruct Hf as [Hf Hi]. rewrite (find_spec_unique ip nd _ _ Hok Hspec Hf). cbn [mbind option_bind].
    unfold IsUp, GetAddress, interface_at. rewrite Hi. cbn [or_fault mbind result_bind].
    destruct (m_ifup i); [|by exists InterfaceDown]. apply list_find_Some in E as (E & _ & _).
    pose proof (Haddr i (list_elem_of_lookup_2 _ _ _ E)) as Hne. unfold Interface.GetAddress.
    destruct (m_ifaddrs i) as [|a rest]; [done|]. by exists (RouterAddress (m_local a)).
  - rewrite (find_spec_unique ip nd _ _ Hok Hspec Hf). by exists NoInterface.
Qed.

(** ** The designated router *)

Lemma lower_min a b : lower a b = Z.min a b.
Proof using. unfold lower. destruct (Z.ltb_spec a b); lia. Qed.

Definition lowest (devices : list NetDevice) : Ipv4Address := foldl Z.min 0xffffffff (addresses devices).

Lemma device_address_at x dx nx : net_devices net !! x = Some dx -> net_nodes net !! dev_node dx = Some nx ->
  device_address x = router_address nx x.
Proof using. intros X1 X3. unfold device_address. rewrite X1. cbn [mbind option_bind]. by rewrite X3. Qed.

Lemma designated_step_ok down m x dx nx : net_devices net !! x = Some dx -> net_nodes net !! dev_node dx = Some nx ->
  NetDeviceIsBridged net x = Ok None ->
  (forall ip, node_ipv4 nx = Some ip -> stack_ok ip /\ forall i, i ∈ m_interfaces ip -> m_ifaddrs i <> []) ->
  designated_step net down m x = Ok (match router_address nx x with Some a => Z.min a m | None => m end).
Proof using.
  intros X1 X3 X4 X5. unfold designated_step. rewrite (GetNode_ok net x dx nx) by done. cbn [mbind result_bind].
  rewrite X4. cbn [mbind result_bind]. destruct (probe_ok nx x X5) as (p & -> & Hp). cbn [mbind result_bind].
  destruct (router_address nx x) as [a|]; [subst p; cbn; by rewrite lower_min|]. destruct p; [done|done|by destruct (Hp addr)].
Qed.

Lemma designated_ok ch devices nd down : segment ch devices -> nd ∈ devices -> designated_router net down nd = Ok (lowest devices).
Proof using.
  intros [Hch Hdev] Hnd. destruct (Hdev nd Hnd) as (d & node & D1 & D2 & _). unfold designated_router.
  rewrite (channel_ok net nd d ch devices) by done. cbn [mbind result_bind].
  rewrite bool_decide_false by (intros ->; by apply elem_of_nil in Hnd). cbn [negb assert mbind result_bind].
  unfold lowest, addresses. clear Hnd Hch D1 D2. generalize 0xffffffff as m. induction devices as [|x l IH]; intros m; [done|].
  destruct (Hdev x) as (dx & nx & X1 & X2 & X3 & X4 & X5); [by left|].
  rewrite foldM_cons, (designated_step_ok down m x dx nx) by done. cbn [mbind result_bind]. rewrite IH by (intros y Hy; apply Hdev; by right).
  cbn [omap list_omap]. rewrite (device_address_at x dx nx) by done. destruct (router_address nx x); cbn; [by rewrite Z.min_comm|done].
Qed.

Lemma lowest_spec devices : (forall a, a ∈ addresses devices -> a < 0xffffffff) -> addresses devices <> [] ->
  lowest devices ∈ addresses devices /\ forall a, a ∈ addresses devices -> lowest devices <= a.
Proof using.
  unfold lowest. generalize (addresses devices) as l. intros l. assert (forall m, (foldl Z.min m l ∈ l \/ foldl Z.min m l = m) /\
    foldl Z.min m l <= m /\ forall a, a ∈ l -> foldl Z.min m l <= a) as H.
  { induction l as [|x l IH]; intros m; cbn; [split; [by right|split; [lia|by intros a ?%elem_of_nil]]|].
    destruct (IH (Z.min m x)) as (H1 & H2 & H3). split; [|split; [lia|]].
    - destruct H1 as [H1|H1]; [left; by right|]. destruct (Z.min_spec m x) as [[_ E]|[_ E]]; rewrite H1, E; [by right|left; by left].
    - intros a [->|Ha]%elem_of_cons; [lia|by apply H3]. }
  intros Hlt Hne. destruct (H 0xffffffff) as (H1 & H2 & H3). split; [|done]. destruct H1 as [H1|H1]; [done|].
  destruct l as [|a l]; [done|]. pose proof (Hlt a ltac:(by left)). specialize (H3 a ltac:(by left)). lia.
Qed.

Lemma another_ok ch devices nd nd' d' node' : segment ch devices -> nd ∈ devices -> nd' ∈ devices -> nd' <> nd ->
  net_devices net !! nd' = Some d' -> net_nodes net !! dev_node d' = Some node' -> is_Some (node_router node') ->
  AnotherRouterOnLink net nd true = Ok true.
Proof using.
  intros [Hch Hdev] Hnd Hnd' Hne Hd' Hn' [rtr' Hr']. destruct (Hdev nd Hnd) as (d & node & D1 & D2 & _).
  unfold AnotherRouterOnLink, another_router. rewrite (device_ok net nd d) by done. cbn [mbind result_bind]. rewrite D2.
  rewrite (channel_ok net nd d ch devices) by done. cbn [mbind result_bind].
  rewrite bool_decide_false by (intros ->; by apply elem_of_nil in Hnd). cbn [negb assert mbind result_bind].
  clear Hnd Hch D1 D2. induction devices as [|x l IH]; [by apply elem_of_nil in Hnd'|]. cbn [another_on].
  assert (forall y, y ∈ l -> y ∈ x :: l) as Hsub by (intros; by right). destruct (Z.eqb_spec x nd) as [->|Hx].
  - apply IH; [intros y Hy; by apply Hdev, Hsub|]. by apply elem_of_cons in Hnd' as [->|].
  - destruct (Hdev x) as (dx & nx & X1 & X2 & X3 & X4 & X5); [by left|]. rewrite X4. cbn [mbind result_bind].
    rewrite (GetNode_ok net x dx nx) by done. cbn [mbind result_bind]. destruct (node_router nx) eqn:E; [done|].
    apply IH; [intros y Hy; by apply Hdev, Hsub|]. apply elem_of_cons in Hnd' as [->|]; [|done]. congruence.
Qed.

(** ** The network's advertisement *)

Lemma attach_step lsa x dx nx : net_devices net !! x = Some dx -> net_nodes net !! dev_node dx = Some nx ->
  (forall ip, node_ipv4 nx = Some ip -> stack_ok ip /\ forall i, i ∈ m_interfaces ip -> m_ifaddrs i <> []) ->
  attach_router net lsa x = Ok (match router_address nx x with Some a => AddAttachedRouter a lsa | None => lsa end).
Proof using.
  intros X1 X3 X5. unfold attach_router. rewrite (GetNode_ok net x dx nx) by done. cbn [mbind result_bind].
  destruct (probe_ok nx x X5) as (p & -> & Hp). cbn [mbind result_bind].
  destruct (router_address nx x) as [a|]; [by subst p|]. destruct p; [done|done|by destruct (Hp addr)].
Qed.

Lemma attach_ok devices lsa : (forall nd, nd ∈ devices -> exists d node, net_devices net !! nd = Some d /\
    net_nodes net !! dev_node d = Some node /\ forall ip, node_ipv4 node = Some ip -> stack_ok ip /\ forall i, i ∈ m_interfaces ip -> m_ifaddrs i <> []) ->
  foldM (attach_router net) lsa devices = Ok (mkLSA (m_lsType lsa) (m_linkStateId lsa) (m_advertisingRtr lsa) (m_linkRecords lsa)
    (m_networkLSANetworkMask lsa) (m_attachedRouters lsa ++ addresses devices) (m_status lsa) (m_node_id lsa)).
Proof using.
  unfold addresses. revert lsa. induction devices as [|x l IH]; intros lsa Hdev; [cbn; rewrite app_nil_r; by destruct lsa|].
  destruct (Hdev x) as (dx & nx & X1 & X3 & X5); [by left|]. rewrite foldM_cons, (attach_step lsa x dx nx) by done. cbn [mbind result_bind].
  rewrite IH by (intros y Hy; apply Hdev; by right). cbn [omap list_omap]. rewrite (device_address_at x dx nx) by done.
  destruct (router_address nx x) as [a|]; [|done]. cbn. by rewrite <- app_assoc.
Qed.

(** A router's device on the channel, with its interface and address, and
    another router's. *)
Inductive member (devices : list NetDevice) (nd : NetDevice) (i : Ipv4Interface) (a : Ipv4InterfaceAddress) : Prop :=
| Member d node rtr nd' d' node' rtr' : nd ∈ devices -> net_devices net !! nd = Some d -> net_nodes net !! dev_node d = Some node ->
    node_router node = Some rtr -> interface_on node nd i a ->
    nd' ∈ devices -> nd' <> nd -> net_devices net !! nd' = Some d' -> net_nodes net !! dev_node d' = Some node' ->
    node_router node' = Some rtr' -> member devices nd i a.

(** What a router with the address [a] says of a network whose designated router
    is at [m] and whose routers are at [l]. *)
Record announces (m : Ipv4Address) (l : list Ipv4Address) (nd : NetDevice) (i : Ipv4Interface) (a : Ipv4InterfaceAddress) : Prop := {
  an_designated : FindDesignatedRouterForLink net nd true = Ok m;
  an_record lsa c : CombineMask (m_local a) (m_mask a) = CombineMask m (m_mask a) ->
    ProcessSingleBroadcastLink net nd lsa c =
    Ok (AddLinkRecord (mkLinkRecord m (m_local a) TransitNetwork (Ipv4Stack.m_metric i)) lsa, if m =? m_local a then c ++ [nd] else c);
  an_network id : exists lsa, BuildNetworkLSA net id nd = Ok lsa /\ m_lsType lsa = NetworkLSA /\ m_linkStateId lsa = m_local a /\
    m_advertisingRtr lsa = id /\ m_networkLSANetworkMask lsa = m_mask a /\ m_attachedRouters lsa = l
}.

Lemma member_announces ch devices nd i a : segment ch devices -> member devices nd i a -> announces (lowest devices) (addresses devices) nd i a.
Proof using.
  intros Hs [d node rtr nd' d' node' rtr' H1 H2 H3 H4 H5 H6 H7 H8 H9 H10].
  destruct (sg_device _ _ Hs nd H1) as (e & x & E1 & E2 & E3 & E4 & E5). assert (e = d) as -> by congruence. assert (x = node) as -> by congruence.
  pose proof H5 as (ip & _ & Hip & _). destruct (E5 ip Hip) as [Hok _].
  assert (FindDesignatedRouterForLink net nd true = Ok (lowest devices)) as HD by by eapply designated_ok.
  pose proof (local_interface_ok net nd d node ip i a H2 H3 Hip Hok H5) as HI. split; [done| |].
  - intros lsa c Hmask. unfold ProcessSingleBroadcastLink. rewrite HI. cbn [mbind result_bind].
    rewrite (another_ok ch devices nd nd' d' node'); [|done..|by exists rtr']. cbn [mbind result_bind negb]. rewrite HD. cbn [mbind result_bind].
    rewrite Hmask, Z.eqb_refl, andb_false_r. done.
  - intros id. unfold BuildNetworkLSA. rewrite HI. cbn [mbind result_bind]. rewrite (device_ok net nd d) by done. cbn [mbind result_bind].
    rewrite (channel_ok net nd d ch devices) by (done || apply Hs). cbn [mbind result_bind].
    rewrite bool_decide_false by (intros ->; by apply elem_of_nil in H1). cbn [negb assert mbind result_bind].
    rewrite attach_ok; [eexists; split; [done|]; done|].
    intros y Hy. destruct (sg_device _ _ Hs y Hy) as (dy & ny & Y1 & _ & Y3 & _ & Y5). by exists dy, ny.
Qed.
End segments.

(** (C22) On a channel without bridges all routers agree: on a designated router,
    whose address is the lowest of the routers' that are up; in the records that
    they make, all of which point to it; and in its list of routers.  Only a
    device with that address is chosen to announce the network, under that
    address. *)
Theorem transit_network {S} (net : Network S) ch devices : segment net ch devices ->
  (forall a, a ∈ addresses net devices -> a < 0xffffffff) -> addresses net devices <> [] ->
  exists m, m ∈ addresses net devices /\ (forall a, a ∈ addresses net devices -> m <= a) /\
    forall nd i a, member net devices nd i a -> announces net m (addresses net devices) nd i a.
Proof.
  intros Hs Hlt Hne. destruct (lowest_spec net devices Hlt Hne) as [H1 H2]. exists (lowest net devices). split; [done|]. split; [done|].
  intros nd i a Hm. by eapply member_announces.
Qed.

(** ** Examples *)

Definition lan_interface (device : NetDevice) (addr : Ipv4Address) : Ipv4Interface :=
  mkInterface device [MakeInterfaceAddress addr 0xffffff00] true true 1.
Definition lan_router (id : Ipv4Address) (devices : list NetDevice) (interfaces : list Ipv4Interface) : RNode unit :=
  mkRNode devices (Some (mkL3 interfaces None true true 64 0)) (Some (mkGlobalRouter [] id [] (Some Global.MakeIpv4GlobalRouting))) true.
Definition lan_dev (node : nat) : NetDev := mkNetDev node (Some 0%nat) true false None.

(** Two routers and a switch on 10.1.1.0/24: the switch is a node with a bridge
    (20) over its ports 21 and 22. *)
Definition example_lan (devices : list NetDevice) : Network unit := {|
  net_devices := {[ 1 := lan_dev 0; 10 := lan_dev 1; 20 := mkNetDev 2 None true false (Some [21; 22]);
                    21 := lan_dev 2; 22 := mkNetDev 2 (Some 1%nat) true false None ]};
  net_channels := [devices; [22]];
  net_nodes := [lan_router 0 [1] [lan_interface 1 0x0a010101]; lan_router 1 [10] [lan_interface 10 0x0a010102];
                mkRNode [20; 21; 22] None None true] |}.

(** Whether another router is found depends on the order in which the devices
    were put on the channel: behind a port of a bridge nothing is looked for. *)
Lemma router_behind_bridge :
  AnotherRouterOnLink (example_lan [1; 10; 21]) 1 true = Ok true /\ AnotherRouterOnLink (example_lan [1; 21; 10]) 1 true = Ok false.
Proof. split; vm_compute; reflexivity. Qed.

Lemma transit_network_witness : exists m, m = 0x0a010101 /\
  FindDesignatedRouterForLink (example_lan [10; 1]) 10 true = Ok m /\
  exists lsa, BuildNetworkLSA (example_lan [10; 1]) 0 1 = Ok lsa /\ m_linkStateId lsa = m /\ m_attachedRouters lsa = [0x0a010102; 0x0a010101].
Proof.
  assert (addresses (example_lan [10; 1]) [10; 1] = [0x0a010102; 0x0a010101]) as E by (vm_compute; reflexivity).
  assert (stack_ok (mkL3 (S := unit) [lan_interface 1 0x0a010101] None true true 64 0) /\
          stack_ok (mkL3 (S := unit) [lan_interface 10 0x0a010102] None true true 64 0)) as [K1 K2].
  { split; (split; [cbn; lia|apply NoDup_singleton]). }
  destruct (transit_network (example_lan [10; 1]) 0 [10; 1]) as (m & H1 & H2 & H3).
  - split; [reflexivity|]. intros nd [->|[->|[]%elem_of_nil]%elem_of_cons]%elem_of_cons.
    + eexists _, _. split_and!; [reflexivity..|]. intros ip [= <-]. split; [exact K2|]. by intros i ->%list_elem_of_singleton.
    + eexists _, _. split_and!; [reflexivity..|]. intros ip [= <-]. split; [exact K1|]. by intros i ->%list_elem_of_singleton.
  - rewrite E. intros a [->|[->|[]%elem_of_nil]%elem_of_cons]%elem_of_cons; lia.
  - by rewrite E.
  - rewrite E in H1, H2, H3. assert (m = 0x0a010101) as ->.
    { specialize (H2 0x0a010101 ltac:(right; left)). apply elem_of_cons in H1 as [->|[->|[]%elem_of_nil]%elem_of_cons]; [lia|done]. }
    assert (member (example_lan [10; 1]) [10; 1] 10 (lan_interface 10 0x0a010102) (MakeInterfaceAddress 0x0a010102 0xffffff00)) as M10.
    { eapply (Member _ _ _ _ _ _ _ _ 1); [left|reflexivity|reflexivity|reflexivity| |right; left|done|reflexivity|reflexivity|reflexivity].
      eexists _, []. split_and!; [reflexivity|left|reflexivity..]. }
    assert (member (example_lan [10; 1]) [10; 1] 1 (lan_interface 1 0x0a010101) (MakeInterfaceAddress 0x0a010101 0xffffff00)) as M1.
    { eapply (Member _ _ _ _ _ _ _ _ 10); [right; left|reflexivity|reflexivity|reflexivity| |left|done|reflexivity|reflexivity|reflexivity].
      eexists _, []. split_and!; [reflexivity|left|reflexivity..]. }
    destruct (H3 _ _ _ M10) as [A _ _], (H3 _ _ _ M1) as [_ _ B]. destruct (B 0) as (lsa & B1 & _ & B2 & _ & _ & B3).
    exists 0x0a010101. split; [done|]. split; [exact A|]. exists lsa. split; [exact B1|]. split; [exact B2|exact B3].
Defined.
