(* ===== verification/Scheduler.v ===== *)
(** * Scheduler: the queue of pending events

    The abstract class Scheduler of src/ns-3/src/simulator/scheduler.h as a
    class, the contract its users rely on, and two of its implementations:
    list-scheduler.cc, which is also the reference the others are compared
    with, and map-scheduler.cc.  An event's implementation is a pointer, a
    number. *)

From stdpp Require Import sorting.
From S2P Require Import Prelude.

(** ** Events and their order *)

Record EventKey := mkKey { m_ts : Z; m_uid : Z; m_context : Z }.
Record Event := mkEvent { impl : Z; key : EventKey }.

#[export] Instance key_eq_dec : EqDecision EventKey.
Proof. solve_decision. Defined.
#[export] Instance event_eq_dec : EqDecision Event.
Proof. solve_decision. Defined.

(** [operator <], [operator >] and [operator !=] of the keys. *)
Definition key_less (a b : EventKey) : bool :=
  if m_ts a <? m_ts b then true else (m_ts a =? m_ts b) && (m_uid a <? m_uid b).
Definition key_greater (a b : EventKey) : bool :=
  if m_ts a >? m_ts b then true else (m_ts a =? m_ts b) && (m_uid a >? m_uid b).
Definition key_differs (a b : EventKey) : bool := negb (m_uid a =? m_uid b).
(** [operator <] of the events. *)
Definition event_less (a b : Event) : bool := key_less (key a) (key b).

Definition ts (ev : Event) : Z := m_ts (key ev).
Definition uid (ev : Event) : Z := m_uid (key ev).

Lemma event_less_spec a b : event_less a b = true <-> ts a < ts b \/ (ts a = ts b /\ uid a < uid b).
Proof. unfold event_less, key_less, ts, uid. repeat case_match; lia. Qed.
Lemma event_less_false a b : event_less a b = false <-> ts b < ts a \/ (ts a = ts b /\ uid b <= uid a).
Proof. unfold event_less, key_less, ts, uid. repeat case_match; lia. Qed.
Lemma key_greater_less a b : key_greater a b = key_less b a.
Proof. unfold key_greater, key_less. repeat case_match; lia. Qed.

Definition before (a b : Event) : Prop := event_less a b = true.

#[export] Instance before_trans : Transitive before.
Proof. intros a b c. unfold before. rewrite !event_less_spec. lia. Qed.
#[export] Instance before_antisymm : AntiSymm (=) before.
Proof. intros a b. unfold before. rewrite !event_less_spec. lia. Qed.

(** ** The interface *)

Class Scheduler (S : Type) := {
  new_scheduler : S;
  Insert : Event -> S -> result S;
  IsEmpty : S -> bool;
  PeekNext : S -> result Event;
  RemoveNext : S -> result (Event * S);
  Remove : Event -> S -> result S
}.
#[export] Hint Mode Scheduler ! : typeclass_instances.

(** ** The list scheduler *)

Module ListScheduler.
(** The state is [m_events]. *)
Fixpoint Insert (ev : Event) (m_events : list Event) : list Event :=
  match m_events with
  | [] => [ev]
  | i :: l => if key_less (key ev) (key i) then ev :: i :: l else i :: Insert ev l
  end.
Definition IsEmpty (m_events : list Event) : bool := bool_decide (m_events = []).
Definition PeekNext (m_events : list Event) : result Event := head m_events ?? DerefEnd.
Definition RemoveNext (m_events : list Event) : result (Event * list Event) :=
  match m_events with [] => Fault DerefEnd | next :: l => Ok (next, l) end.
Fixpoint Remove (ev : Event) (m_events : list Event) : result (list Event) :=
  match m_events with
  | [] => Fault AssertFailed
  | i :: l =>
      if m_uid (key i) =? m_uid (key ev) then _ ← assert (impl ev =? impl i); Ok l
      else l ← Remove ev l; Ok (i :: l)
  end.
End ListScheduler.

#[export] Instance list_scheduler : Scheduler (list Event) := {|
  new_scheduler := [];
  Insert ev l := Ok (ListScheduler.Insert ev l);
  IsEmpty := ListScheduler.IsEmpty;
  PeekNext := ListScheduler.PeekNext;
  RemoveNext := ListScheduler.RemoveNext;
  Remove := ListScheduler.Remove |}.

(** ** The contract *)

(** What is pending: in order, no earlier than [now], and every uid once. *)
Record pending (now : Z) (l : list Event) : Prop := {
  pd_sorted : StronglySorted before l;
  pd_now : Forall (fun ev => now <= ts ev) l;
  pd_uids : NoDup (map uid l)
}.
Definition without (ev : Event) (l : list Event) : list Event := filter (fun e => uid e <> uid ev) l.

(** [represents now s l]: [s] holds the events of [l], the first to come first,
    and no event before [now] has been or will be asked for.  [capacity] and [horizon] bound
    the number of events and their times; [removable] says whether the
    contract covers [Remove]. *)
Class EventQueue (S : Type) `{Scheduler S} := {
  represents : Z -> S -> list Event -> Prop;
  capacity : Z;
  horizon : Z;
  removable : bool;
  horizon_u64 : horizon <= 2 ^ 64;
  represents_pending now s l : represents now s l -> pending now l;
  represents_new : represents 0 new_scheduler [];
  represents_later now now' s l : represents now s l -> now <= now' -> pending now' l -> represents now' s l;
  represents_Insert now s l ev : represents now s l -> now <= ts ev < horizon -> uid ev ∉ map uid l -> Z.of_nat (length l) < capacity ->
    exists s', Insert ev s = Ok s' /\ represents now s' (ListScheduler.Insert ev l);
  represents_IsEmpty now s l : represents now s l -> IsEmpty s = bool_decide (l = []);
  represents_PeekNext now s ev l : represents now s (ev :: l) -> PeekNext s = Ok ev;
  represents_RemoveNext now s ev l : represents now s (ev :: l) -> exists s', RemoveNext s = Ok (ev, s') /\ represents (ts ev) s' l;
  represents_Remove now s l ev : removable = true -> represents now s l -> ev ∈ l ->
    exists s', Remove ev s = Ok s' /\ represents now s' (without ev l)
}.

(** ** Facts on sorted lists of events *)

Section lists.
Implicit Types (ev : Event) (l : list Event).

Lemma Insert_Permutation ev l : ListScheduler.Insert ev l ≡ₚ ev :: l.
Proof.
  induction l as [|i l IH]; cbn; [done|]. case_match; [done|]. rewrite IH. apply Permutation_swap.
Qed.

Lemma sorted_unique l l' : StronglySorted before l -> StronglySorted before l' -> l ≡ₚ l' -> l = l'.
Proof. intros. by apply (StronglySorted_unique before). Qed.

Lemma sorted_head ev l : StronglySorted before (ev :: l) -> Forall (before ev) l.
Proof. by intros [_ H]%StronglySorted_inv. Qed.

Lemma Insert_sorted ev l : StronglySorted before l -> uid ev ∉ map uid l -> StronglySorted before (ListScheduler.Insert ev l).
Proof.
  induction 1 as [|i l Hl IH Hi]; cbn; intros Huid; [repeat constructor|].
  apply not_elem_of_cons in Huid as [Hne Huid]. case_match eqn:E.
  - constructor; [by constructor|]. constructor; [done|]. eapply Forall_impl; [exact Hi|]. intros e He. by transitivity i.
  - constructor; [by apply IH|]. rewrite Insert_Permutation. constructor; [|done].
    unfold before. apply event_less_spec. fold (event_less ev i) in E. apply event_less_false in E. lia.
Qed.

Lemma pending_nil : pending 0 [].
Proof. split; constructor. Qed.
Lemma pending_Insert now l ev : pending now l -> now <= ts ev -> uid ev ∉ map uid l -> pending now (ListScheduler.Insert ev l).
Proof.
  intros [H1 H2 H3] Hnow Hev. split; [by apply Insert_sorted| |].
  - rewrite Insert_Permutation. by constructor.
  - assert (map uid (ListScheduler.Insert ev l) ≡ₚ map uid (ev :: l)) as -> by apply Permutation_map, Insert_Permutation.
    by constructor.
Qed.
Lemma pending_tail now l ev : pending now (ev :: l) -> pending (ts ev) l.
Proof.
  intros [[H1 H1']%StronglySorted_inv H2 H3]. split; [done| |by apply NoDup_cons in H3 as []].
  eapply Forall_impl; [exact H1'|]. intros e He%event_less_spec. lia.
Qed.

Lemma uid_inj l ev e : NoDup (map uid l) -> ev ∈ l -> e ∈ l -> uid e = uid ev -> e = ev.
Proof.
  intros Hn [i Hi]%list_elem_of_lookup [j Hj]%list_elem_of_lookup Hu.
  assert (j = i) as ->; [|congruence].
  apply (NoDup_lookup _ _ _ (uid ev) Hn); rewrite list_lookup_fmap.
  - by rewrite Hj, <- Hu.
  - by rewrite Hi.
Qed.

Lemma without_absent l ev : uid ev ∉ map uid l -> without ev l = l.
Proof.
  induction l as [|e l IH]; [done|]. intros [H1 H2]%not_elem_of_cons. unfold without. rewrite filter_cons, decide_True by done.
  f_equal. by apply IH.
Qed.
Lemma without_Permutation l ev : NoDup (map uid l) -> ev ∈ l -> l ≡ₚ ev :: without ev l.
Proof.
  induction l as [|e l IH]; [by intros _ ?%elem_of_nil|]. intros [He Hl]%NoDup_cons Hev. unfold without. rewrite filter_cons.
  apply elem_of_cons in Hev as [->|Hev].
  - rewrite decide_False by tauto. fold (without e l). by rewrite without_absent.
  - rewrite decide_True; [|intros E; apply He; rewrite E; by apply list_elem_of_fmap_2].
    rewrite (IH Hl Hev) at 1. apply Permutation_swap.
Qed.

Lemma without_Forall (P : Event -> Prop) ev l : Forall P l -> Forall P (without ev l).
Proof. rewrite !Forall_forall. intros H x [_ Hx]%list_elem_of_filter. by apply H. Qed.
Lemma pending_without now l ev : pending now l -> pending now (without ev l).
Proof.
  intros [H1 H2 H3]. split; [|by apply without_Forall|].
  - induction H1 as [|e l Hl IH He]; [constructor|]. apply Forall_cons in H2 as [_ H2]. apply NoDup_cons in H3 as [_ H3].
    unfold without. rewrite filter_cons. case_decide; [|by apply IH]. constructor; [by apply IH|]. by apply without_Forall.
  - clear H1 H2. induction l as [|e l IH]; [constructor|]. apply NoDup_cons in H3 as [He Hl]. unfold without. rewrite filter_cons.
    case_decide; [|by apply IH]. constructor; [|by apply IH]. intros (x & Hu & [_ Hx]%list_elem_of_filter)%list_elem_of_fmap.
    apply He. rewrite Hu. by apply list_elem_of_fmap_2.
Qed.
End lists.

#[export] Hint Resolve pending_nil pending_Insert pending_tail pending_without : ns3.

(** ** The list scheduler has the contract *)

Lemma list_Remove now l ev : pending now l -> ev ∈ l -> ListScheduler.Remove ev l = Ok (without ev l).
Proof.
  intros [_ _ Hn]. induction l as [|e l IH]; [by intros ?%elem_of_nil|]. intros Hev. apply NoDup_cons in Hn as H. destruct H as [He Hl].
  cbn [ListScheduler.Remove]. unfold without. rewrite filter_cons. fold (uid e) (uid ev). case_decide as Hd.
  - rewrite (proj2 (Z.eqb_neq _ _)) by done. rewrite IH; [done..|]. apply elem_of_cons in Hev as [->|]; done.
  - assert (e = ev) as -> by (apply (uid_inj (e :: l)); [done|done|left|]; destruct (Z.eq_dec (uid e) (uid ev)); done).
    rewrite !Z.eqb_refl. cbn. f_equal. symmetry. by apply without_absent.
Qed.

#[export] Program Instance list_queue : EventQueue (list Event) := {|
  represents now s l := s = l /\ pending now l;
  capacity := 2 ^ 32;
  horizon := 2 ^ 64;
  removable := true |}.
Next Obligation. done. Qed.
Next Obligation. by intros now s l []. Qed.
Next Obligation. split; [done|apply pending_nil]. Qed.
Next Obligation. by intros now now' s l [-> _] _ H. Qed.
Next Obligation. intros now s l ev [-> H] Hts Hu _. eexists. split; [done|]. split; [done|]. apply pending_Insert; [done|lia|done]. Qed.
Next Obligation. by intros now s l [-> _]. Qed.
Next Obligation. by intros now s ev l [-> _]. Qed.
Next Obligation. intros now s ev l [-> H]. eexists. split; [done|]. split; [done|]. by eapply pending_tail. Qed.
Next Obligation.
  intros now s l ev _ [-> H] Hev. exists (without ev l). cbn [Remove list_scheduler]. rewrite (list_Remove now) by done.
  split; [done|]. split; [done|]. by apply pending_without.
Qed.

(** ** The map scheduler *)

Module MapScheduler.
(** A map from keys to implementations is the list of its pairs in order; keys
    of which neither is less are the same to it. *)
Definition same_key (a b : EventKey) : bool := negb (key_less a b) && negb (key_less b a).
(** [m_list.insert]: the second component tells whether the pair is new. *)
Fixpoint map_insert (k : EventKey) (v : Z) (m : list (EventKey * Z)) : list (EventKey * Z) * bool :=
  match m with
  | [] => ([(k, v)], true)
  | (k', v') :: m' =>
      if key_less k k' then ((k, v) :: m, true)
      else if key_less k' k then let '(m', b) := map_insert k v m' in ((k', v') :: m', b)
      else (m, false)
  end.
(** [m_list.find], and [m_list.erase] of what it finds. *)
Fixpoint map_find (k : EventKey) (m : list (EventKey * Z)) : option Z :=
  match m with [] => None | (k', v) :: m' => if same_key k k' then Some v else map_find k m' end.
Fixpoint map_erase (k : EventKey) (m : list (EventKey * Z)) : list (EventKey * Z) :=
  match m with [] => [] | (k', v) :: m' => if same_key k k' then m' else (k', v) :: map_erase k m' end.

Definition Insert (ev : Event) (m_list : list (EventKey * Z)) : result (list (EventKey * Z)) :=
  let '(m_list, second) := map_insert (key ev) (impl ev) m_list in
  _ ← assert second; Ok m_list.
Definition IsEmpty (m_list : list (EventKey * Z)) : bool := bool_decide (m_list = []).
Definition PeekNext (m_list : list (EventKey * Z)) : result Event :=
  i ← head m_list ?? AssertFailed; Ok (mkEvent i.2 i.1).
Definition RemoveNext (m_list : list (EventKey * Z)) : result (Event * list (EventKey * Z)) :=
  match m_list with [] => Fault AssertFailed | i :: l => Ok (mkEvent i.2 i.1, l) end.
Definition Remove (ev : Event) (m_list : list (EventKey * Z)) : result (list (EventKey * Z)) :=
  second ← map_find (key ev) m_list ?? DerefEnd;
  _ ← assert (second =? impl ev);
  Ok (map_erase (key ev) m_list).
End MapScheduler.

Definition EventMap := list (EventKey * Z).
#[export] Typeclasses Opaque EventMap.
#[export] Instance map_scheduler : Scheduler EventMap := {|
  new_scheduler := [];
  Insert := MapScheduler.Insert;
  IsEmpty := MapScheduler.IsEmpty;
  PeekNext := MapScheduler.PeekNext;
  RemoveNext := MapScheduler.RemoveNext;
  Remove := MapScheduler.Remove |}.

(** The pairs of a list of events. *)
Definition pair_of (ev : Event) : EventKey * Z := (key ev, impl ev).

Section map.
Implicit Types (ev : Event) (l : list Event).

Lemma map_insert_ok ev l : uid ev ∉ map uid l ->
  MapScheduler.map_insert (key ev) (impl ev) (map pair_of l) = (map pair_of (ListScheduler.Insert ev l), true).
Proof.
  induction l as [|i l IH]; [done|]. intros [H1 H2]%not_elem_of_cons. cbn [map ListScheduler.Insert pair_of MapScheduler.map_insert].
  destruct (key_less (key ev) (key i)) eqn:E; [done|]. rewrite (IH H2).
  fold (event_less ev i) in E. apply event_less_false in E. fold (event_less i ev).
  rewrite (proj2 (event_less_spec i ev)) by lia. done.
Qed.

Lemma same_key_less a b : MapScheduler.same_key (key a) (key b) = bool_decide (ts a = ts b /\ uid a = uid b).
Proof.
  unfold MapScheduler.same_key. fold (event_less a b) (event_less b a). case_bool_decide as E.
  - rewrite !(proj2 (event_less_false _ _)) by lia. done.
  - destruct (event_less a b) eqn:E1; [done|]. destruct (event_less b a) eqn:E2; [done|]. rewrite event_less_false in E1, E2. lia.
Qed.

Lemma map_find_ok ev l : NoDup (map uid l) -> ev ∈ l -> MapScheduler.map_find (key ev) (map pair_of l) = Some (impl ev) /\
  MapScheduler.map_erase (key ev) (map pair_of l) = map pair_of (without ev l).
Proof.
  induction l as [|e l IH]; [by intros _ ?%elem_of_nil|]. intros Hn Hev. apply NoDup_cons in Hn as H. destruct H as [He Hl].
  cbn [map pair_of MapScheduler.map_find MapScheduler.map_erase]. rewrite same_key_less. unfold without. rewrite filter_cons.
  destruct (decide (uid e = uid ev)) as [Hu|Hu].
  - assert (e = ev) as -> by (apply (uid_inj (e :: l)); [done|done|left|done]).
    rewrite bool_decide_true by done. rewrite decide_False by tauto. split; [done|]. f_equal. symmetry. by apply without_absent.
  - rewrite bool_decide_false by (intros [_ ?]; congruence). rewrite decide_True by done.
    apply elem_of_cons in Hev as [->|Hev]; [done|]. destruct (IH Hl Hev) as [-> ->]. done.
Qed.
End map.

#[export] Program Instance map_queue : EventQueue EventMap := {|
  represents now s l := s = map pair_of l /\ pending now l;
  capacity := 2 ^ 32;
  horizon := 2 ^ 64;
  removable := true |}.
Next Obligation. done. Qed.
Next Obligation. by intros now s l []. Qed.
Next Obligation. split; [done|apply pending_nil]. Qed.
Next Obligation. by intros now now' s l [-> _] _ H. Qed.
Next Obligation.
  intros now s l ev [-> H] Hts Hu _. cbn [Insert map_scheduler]. unfold MapScheduler.Insert. rewrite map_insert_ok by done.
  eexists. split; [done|]. split; [done|]. apply pending_Insert; [done|lia|done].
Qed.
Next Obligation. intros now s l [-> _]. by destruct l. Qed.
Next Obligation. intros now s [] l [-> _]. done. Qed.
Next Obligation. intros now s [] l [-> H]. eexists. split; [done|]. split; [done|]. by eapply pending_tail. Qed.
Next Obligation.
  intros now s l ev _ [-> H] Hev. destruct (map_find_ok ev l (pd_uids _ _ H) Hev) as [E1 E2].
  cbn [Remove map_scheduler]. unfold MapScheduler.Remove. rewrite E1, E2. cbn. rewrite Z.eqb_refl. eexists. split; [done|].
  split; [done|]. by apply pending_without.
Qed.

(** ** Sequences of requests *)

Inductive request := InsertEvent (ev : Event) | AskEmpty | Peek | Next | Withdraw (ev : Event).
Inductive answer := Done | Empty (b : bool) | Found (ev : Event).

Section serve.
Context {S : Type} `{Scheduler S}.

Definition serve (r : request) (s : S) : result (answer * S) :=
  match r with
  | InsertEvent ev => s ← Insert ev s; Ok (Done, s)
  | AskEmpty => Ok (Empty (IsEmpty s), s)
  | Peek => ev ← PeekNext s; Ok (Found ev, s)
  | Next => '(ev, s) ← RemoveNext s; Ok (Found ev, s)
  | Withdraw ev => s ← Remove ev s; Ok (Done, s)
  end.
Fixpoint serve_all (rs : list request) (s : S) : result (list answer) :=
  match rs with
  | [] => Ok []
  | r :: rs => '(a, s) ← serve r s; l ← serve_all rs s; Ok (a :: l)
  end.

(** Requests a user of the queue may make when [l] is pending: events are not
    of the past, their uids are new, and there is something to look at. *)
Fixpoint legal `{!EventQueue S} (now : Z) (l : list Event) (rs : list request) : Prop :=
  match rs with
  | [] => True
  | InsertEvent ev :: rs =>
      now <= ts ev < horizon /\ uid ev ∉ map uid l /\ Z.of_nat (length l) < capacity /\ legal now (ListScheduler.Insert ev l) rs
  | AskEmpty :: rs => legal now l rs
  | Peek :: rs => l <> [] /\ legal now l rs
  | Next :: rs => match l with [] => False | ev :: l => legal (ts ev) l rs end
  | Withdraw ev :: rs => removable = true /\ ev ∈ l /\ legal now (without ev l) rs
  end.

End serve.

(** Every queue with the contract answers as the list does. *)
Lemma same_answers {S} `{EventQueue S} rs now (s : S) l : represents now s l -> pending now l -> legal (S := S) now l rs ->
  exists ans, serve_all rs s = Ok ans /\ serve_all (S := list Event) rs l = Ok ans.
Proof.
  revert now s l. induction rs as [|r rs IH]; intros now s l Hs Hl Hr; [by eexists|].
  destruct r as [ev| | | |ev]; cbn [legal serve_all serve] in *.
  - destruct Hr as (H1 & H2 & H3 & H4). destruct (represents_Insert now s l ev) as (s' & -> & Hs'); [done..|].
    destruct (IH now s' (ListScheduler.Insert ev l)) as (ans & E1 & E2); [done|by eapply represents_pending|done|].
    cbn [mbind result_bind]. rewrite E1. eexists. split; [done|]. cbn. by rewrite E2.
  - destruct (IH now s l Hs Hl Hr) as (ans & E1 & E2). cbn [mbind result_bind]. rewrite E1, E2.
    eexists. split; [done|]. by rewrite (represents_IsEmpty now s l).
  - destruct Hr as [Hne Hr]. destruct l as [|ev l]; [done|]. rewrite (represents_PeekNext now s ev l) by done.
    destruct (IH now s _ Hs Hl Hr) as (ans & E1 & E2). cbn [mbind result_bind]. rewrite E1. eexists. split; [done|]. cbn. by rewrite E2.
  - destruct l as [|ev l]; [done|]. destruct (represents_RemoveNext now s ev l Hs) as (s' & -> & Hs').
    destruct (IH (ts ev) s' l) as (ans & E1 & E2); [done|by eapply represents_pending|done|].
    cbn [mbind result_bind]. rewrite E1. eexists. split; [done|]. cbn. by rewrite E2.
  - destruct Hr as (H1 & H2 & H3). destruct (represents_Remove now s l ev) as (s' & -> & Hs'); [done..|].
    destruct (IH now s' (without ev l)) as (ans & E1 & E2); [done|by eapply represents_pending|done|].
    cbn [mbind result_bind]. rewrite E1. eexists. split; [done|]. cbn [Remove list_scheduler]. rewrite (list_Remove now) by done.
    cbn [mbind result_bind]. by rewrite E2.
Qed.
