(* ===== verification/HeapScheduler.v ===== *)
(** * HeapScheduler: the queue of events as a binary heap

    src/ns-3/src/simulator/heap-scheduler.cc.  The heap is an array, a list
    here, whose first element is not used: the children of index [i] are at
    [2 i] and [2 i + 1].  Indices are 32-bit numbers. *)

From stdpp Require Import sorting.
From S2P Require Import Prelude Scheduler.

Module HeapScheduler.
Notation Heap := (list Event) (only parsing).
(** What the constructor puts at index 0. *)
Definition empty_event : Event := mkEvent 0 (mkKey 0 0 0).
Definition MakeHeapScheduler : Heap := [empty_event].

Definition size (m_heap : Heap) : Z := Z.of_nat (length m_heap).
Definition at_ (m_heap : Heap) (id : Z) : result Event := m_heap !! Z.to_nat id ?? OutOfRange.

Definition Parent (id : Z) : Z := id / 2.
Definition Sibling (id : Z) : Z := u32 (id + 1).
Definition LeftChild (id : Z) : Z := u32 (id * 2).
Definition RightChild (id : Z) : Z := u32 (id * 2 + 1).
Definition Root : Z := 1.
Definition IsRoot (id : Z) : bool := id =? Root.
Definition Last (m_heap : Heap) : Z := u32 (size m_heap - 1).
Definition IsBottom (id : Z) (m_heap : Heap) : bool := id >=? size m_heap.

Definition Exch (a b : Z) (m_heap : Heap) : result Heap :=
  _ ← assert ((b <? size m_heap) && (a <? size m_heap));
  tmp ← at_ m_heap a;
  other ← at_ m_heap b;
  Ok (<[Z.to_nat b := tmp]> (<[Z.to_nat a := other]> m_heap)).
Definition IsLessStrictly (a b : Z) (m_heap : Heap) : result bool :=
  x ← at_ m_heap a; y ← at_ m_heap b; Ok (event_less x y).
Definition Smallest (a b : Z) (m_heap : Heap) : result Z :=
  less ← IsLessStrictly a b m_heap; Ok (if less : bool then a else b).
Definition IsEmpty (m_heap : Heap) : bool := size m_heap =? 1.

(** Both loops get a round for every element of the array, more than the heap
    has levels. *)
Fixpoint BottomUp_loop (fuel : nat) (index : Z) (m_heap : Heap) : result Heap :=
  match fuel with
  | O => Fault Diverges
  | S fuel =>
      if IsRoot index then Ok m_heap
      else
        less ← IsLessStrictly index (Parent index) m_heap;
        if negb less then Ok m_heap
        else m_heap ← Exch index (Parent index) m_heap; BottomUp_loop fuel (Parent index) m_heap
  end.
Definition BottomUp (m_heap : Heap) : result Heap := BottomUp_loop (length m_heap) (Last m_heap) m_heap.

(** The code behind the loop of [TopDown]: a last element with one child. *)
Definition TopDown_end (index : Z) (m_heap : Heap) : result Heap :=
  if IsBottom index m_heap then Ok m_heap
  else
    let left := LeftChild index in
    if IsBottom left m_heap then Ok m_heap
    else
      less ← IsLessStrictly index left m_heap;
      if less : bool then Ok m_heap else Exch index left m_heap.
Fixpoint TopDown_loop (fuel : nat) (index : Z) (m_heap : Heap) : result Heap :=
  match fuel with
  | O => Fault Diverges
  | S fuel =>
      let right := RightChild index in
      if IsBottom right m_heap then TopDown_end index m_heap
      else
        tmp ← Smallest (LeftChild index) right m_heap;
        less ← IsLessStrictly index tmp m_heap;
        if less : bool then Ok m_heap
        else m_heap ← Exch index tmp m_heap; TopDown_loop fuel tmp m_heap
  end.
Definition TopDown (start : Z) (m_heap : Heap) : result Heap := TopDown_loop (length m_heap) start m_heap.

Definition pop_back (m_heap : Heap) : Heap := take (length m_heap - 1) m_heap.
Definition Insert (ev : Event) (m_heap : Heap) : result Heap := BottomUp (m_heap ++ [ev]).
Definition PeekNext (m_heap : Heap) : result Event := at_ m_heap Root.
Definition RemoveNext (m_heap : Heap) : result (Event * Heap) :=
  next ← at_ m_heap Root;
  m_heap ← Exch Root (Last m_heap) m_heap;
  m_heap ← TopDown Root (pop_back m_heap);
  Ok (next, m_heap).
Fixpoint Remove_loop (ev : Event) (l : list Z) (m_heap : Heap) : result Heap :=
  match l with
  | [] => Fault AssertFailed
  | i :: l =>
      e ← at_ m_heap i;
      if m_uid (key ev) =? m_uid (key e) then
        _ ← assert (impl e =? impl ev);
        m_heap ← Exch i (Last m_heap) m_heap;
        TopDown i (pop_back m_heap)
      else Remove_loop ev l m_heap
  end.
Definition Remove (ev : Event) (m_heap : Heap) : result Heap :=
  Remove_loop ev (seqZ 1 (size m_heap - 1)) m_heap.
End HeapScheduler.

Import HeapScheduler.
Definition EventHeap := list Event.
#[export] Typeclasses Opaque EventHeap.
#[export] Instance heap_scheduler : Scheduler EventHeap := {|
  new_scheduler := MakeHeapScheduler;
  Scheduler.Insert := HeapScheduler.Insert;
  Scheduler.IsEmpty := HeapScheduler.IsEmpty;
  Scheduler.PeekNext := HeapScheduler.PeekNext;
  Scheduler.RemoveNext := HeapScheduler.RemoveNext;
  Scheduler.Remove := HeapScheduler.Remove |}.

(** ** Order in the array *)

(** [a] need not stand behind [b]. *)
Definition le (a b : Event) : Prop := event_less b a = false.
Lemma le_trans a b c : le a b -> le b c -> le a c.
Proof. unfold le. rewrite !event_less_false. lia. Qed.
Lemma less_le a b : event_less a b = true -> le a b.
Proof. unfold le. rewrite event_less_spec, event_less_false. lia. Qed.
Lemma not_less_le a b : event_less a b = false -> le b a.
Proof. done. Qed.
#[local] Hint Resolve less_le not_less_le le_trans : core.

(** Every element but those below a node of [P] is no less than the one above it. *)
Definition heap_but (P : nat -> Prop) (h : Heap) : Prop := forall j a b, (2 <= j)%nat -> ~ P j ->
  h !! (j / 2)%nat = Some a -> h !! j = Some b -> le a b.
Definition is_heap (h : Heap) : Prop := heap_but (fun _ => False) h.
(** The element above [i] is no greater than those below [i]. *)
Definition bridged (i : nat) (h : Heap) : Prop := forall j a b, (2 <= i)%nat -> (j / 2)%nat = i ->
  h !! (i / 2)%nat = Some a -> h !! j = Some b -> le a b.

Lemma div2_lt j : (2 <= j)%nat -> (j / 2 < j)%nat.
Proof. intros. apply Nat.div_lt; lia. Qed.
Lemma div2_pos j : (2 <= j)%nat -> (1 <= j / 2)%nat.
Proof. intros. change 1%nat with (2 / 2)%nat. by apply Nat.Div0.div_le_mono. Qed.
Lemma div2_child i j : (j / 2)%nat = i -> (j = 2 * i \/ j = 2 * i + 1)%nat.
Proof. intros <-. pose proof (Nat.div_mod_eq j 2). pose proof (Nat.mod_upper_bound j 2). lia. Qed.
Lemma child_div2 i : ((2 * i) / 2 = i /\ (2 * i + 1) / 2 = i)%nat.
Proof. split; [rewrite Nat.mul_comm; by apply Nat.div_mul|]. symmetry. apply (Nat.div_unique _ 2 i 1); lia. Qed.

Lemma root_least h j a b : is_heap h -> h !! 1%nat = Some a -> (1 <= j)%nat -> h !! j = Some b -> le a b.
Proof.
  intros Hh Ha. revert b. induction (lt_wf j) as [j _ IH]. intros b Hj Hb. destruct (decide (j = 1%nat)) as [->|].
  - assert (b = a) as -> by congruence. unfold le. apply event_less_false. lia.
  - pose proof (div2_lt j ltac:(lia)). pose proof (div2_pos j ltac:(lia)). pose proof (lookup_lt_Some _ _ _ Hb).
    destruct (lookup_lt_is_Some_2 h (j / 2)) as [c Hc]; [lia|]. apply (le_trans a c); [by apply (IH (j / 2)%nat)|].
    by apply (Hh j); [lia|tauto|..].
Qed.

(** ** Exchanges *)

Section exchange.
Context (h : Heap) (i j : nat) (x y : Event) (Hi : h !! i = Some x) (Hj : h !! j = Some y).

Definition exchanged : Heap := <[j := x]> (<[i := y]> h).

Lemma at_ok k z : h !! k = Some z -> at_ h (Z.of_nat k) = Ok z.
Proof using. intros H. unfold at_. by rewrite Nat2Z.id, H. Qed.
Lemma Exch_ok : Exch (Z.of_nat i) (Z.of_nat j) h = Ok exchanged.
Proof using Hi Hj.
  pose proof (lookup_lt_Some _ _ _ Hi). pose proof (lookup_lt_Some _ _ _ Hj). unfold Exch, size.
  rewrite (proj2 (Z.ltb_lt _ _)), (proj2 (Z.ltb_lt _ _)) by lia. cbn [andb assert mbind result_bind].
  rewrite (at_ok i x), (at_ok j y) by done. cbn [mbind result_bind]. by rewrite !Nat2Z.id.
Qed.
Lemma IsLess_ok : IsLessStrictly (Z.of_nat i) (Z.of_nat j) h = Ok (event_less x y).
Proof using Hi Hj. unfold IsLessStrictly. by rewrite (at_ok i x), (at_ok j y). Qed.
Lemma exchanged_length : length exchanged = length h.
Proof using. unfold exchanged. by rewrite !length_insert. Qed.
Lemma exchanged_lookup k : exchanged !! k = if decide (k = j) then Some x else if decide (k = i) then Some y else h !! k.
Proof using Hi Hj.
  pose proof (lookup_lt_Some _ _ _ Hi). pose proof (lookup_lt_Some _ _ _ Hj). unfold exchanged.
  destruct (decide (k = j)) as [->|]; [by apply list_lookup_insert_eq; rewrite length_insert|].
  rewrite list_lookup_insert_ne by done. destruct (decide (k = i)) as [->|]; [by apply list_lookup_insert_eq|].
  by rewrite list_lookup_insert_ne.
Qed.
Lemma exchanged_Permutation : exchanged ≡ₚ h.
Proof using Hi Hj.
  assert (forall (l : Heap) k a b, l !! k = Some a -> a :: <[k := b]> l ≡ₚ b :: l) as Hput.
  { induction l as [|c l IH]; intros [|k] a b; cbn; try done.
    - intros [= ->]. apply Permutation_swap.
    - intros Hk. rewrite Permutation_swap, (IH k a b Hk). apply Permutation_swap. }
  apply (Permutation_cons_inv (a := y)). unfold exchanged. destruct (decide (i = j)) as [->|Hne].
  - assert (x = y) as -> by congruence. rewrite list_insert_insert_eq. by apply Hput.
  - rewrite (Hput (<[i := y]> h) j y x) by (by rewrite list_lookup_insert_ne). by apply Hput.
Qed.
End exchange.

Lemma Last_ok (h : Heap) : (1 <= length h)%nat -> Z.of_nat (length h) < 2 ^ 31 -> Last h = Z.of_nat (length h - 1).
Proof. intros. unfold Last, size. rewrite u32_small by (unfold is_u32; lia). lia. Qed.
Lemma Parent_ok i : Parent (Z.of_nat i) = Z.of_nat (i / 2).
Proof. unfold Parent. by rewrite Nat2Z.inj_div. Qed.
Lemma LeftChild_ok i : Z.of_nat i < 2 ^ 31 -> LeftChild (Z.of_nat i) = Z.of_nat (2 * i).
Proof. intros. unfold LeftChild. rewrite u32_small by (unfold is_u32; lia). lia. Qed.
Lemma RightChild_ok i : Z.of_nat i < 2 ^ 31 -> RightChild (Z.of_nat i) = Z.of_nat (2 * i + 1).
Proof. intros. unfold RightChild. rewrite u32_small by (unfold is_u32; lia). lia. Qed.
Lemma IsBottom_ok i (h : Heap) : IsBottom (Z.of_nat i) h = bool_decide (length h <= i)%nat.
Proof. unfold IsBottom, size. case_bool_decide; lia. Qed.

(** The same events, the unused element in its place. *)
Record rearranged (h h' : Heap) : Prop := { ra_events : h' ≡ₚ h; ra_unused : h' !! 0%nat = h !! 0%nat }.
Lemma rearranged_refl h : rearranged h h.
Proof. done. Qed.
Lemma rearranged_trans h1 h2 h3 : rearranged h1 h2 -> rearranged h2 h3 -> rearranged h1 h3.
Proof. intros [H1 H2] [H3 H4]. split; [by rewrite H3|congruence]. Qed.
Lemma exchanged_rearranged h i j x y : (1 <= i)%nat -> (1 <= j)%nat -> h !! i = Some x -> h !! j = Some y -> rearranged h (exchanged h i j x y).
Proof.
  intros Hi Hj Hx Hy. split; [by apply exchanged_Permutation|]. rewrite exchanged_lookup by done. by rewrite !decide_False by lia.
Qed.

(** ** Upwards *)

Lemma up_step h i x y : heap_but (eq i) h -> bridged i h -> (2 <= i)%nat -> h !! i = Some x -> h !! (i / 2)%nat = Some y ->
  event_less x y = true -> let h' := exchanged h i (i / 2) x y in heap_but (eq (i / 2)%nat) h' /\ bridged (i / 2) h'.
Proof.
  intros Hh Hb Hi Hx Hy Hless h'. pose proof (div2_lt i Hi). split.
  - intros j a b Hj Hne. unfold h'. rewrite !exchanged_lookup by done. pose proof (div2_lt j Hj).
    rewrite (decide_False (P := j = (i / 2)%nat)) by congruence.
    destruct (decide (j = i)) as [->|Hji].
    + rewrite decide_True by done. intros [= <-] [= <-]. auto.
    + destruct (decide (j / 2 = i / 2)%nat) as [E|E].
      * intros [= <-] Hb'. apply (le_trans x y); [auto|]. apply (Hh j); [done|congruence|congruence|done].
      * destruct (decide (j / 2 = i)%nat) as [E'|E'].
        -- intros [= <-] Hb'. by apply (Hb j).
        -- intros. apply (Hh j); [done|congruence|done|done].
  - intros j a b Hp Hj. unfold h'. rewrite !exchanged_lookup by done. pose proof (div2_lt (i / 2)%nat Hp).
    rewrite (decide_False (P := (i / 2 / 2)%nat = (i / 2)%nat)), (decide_False (P := (i / 2 / 2)%nat = i)) by lia.
    assert (2 <= j)%nat as Hj2 by (destruct (div2_child _ _ Hj); lia). pose proof (div2_lt j Hj2).
    rewrite (decide_False (P := j = (i / 2)%nat)) by lia. intros Ha.
    assert (le a y) as Hay by (apply (Hh (i / 2)%nat); [done|lia|done|done]).
    destruct (decide (j = i)) as [->|Hji]; [by intros [= <-]|]. intros Hb'. apply (le_trans a y); [done|].
    apply (Hh j); [done|congruence|by rewrite Hj|done].
Qed.

Lemma BottomUp_loop_ok fuel : forall h i, (i < fuel)%nat -> (1 <= i < length h)%nat -> heap_but (eq i) h -> bridged i h ->
  exists h', BottomUp_loop fuel (Z.of_nat i) h = Ok h' /\ is_heap h' /\ rearranged h h'.
Proof.
  induction fuel as [|fuel IH]; intros h i Hf Hi Hh Hb; [lia|]. cbn [BottomUp_loop]. unfold IsRoot, Root.
  destruct (Z.eqb_spec (Z.of_nat i) 1) as [E|E].
  - exists h. split; [done|]. split; [|apply rearranged_refl]. intros j a b Hj _. apply Hh; [done|lia].
  - destruct (lookup_lt_is_Some_2 h i) as [x Hx]; [lia|]. pose proof (div2_lt i ltac:(lia)). pose proof (div2_pos i ltac:(lia)).
    destruct (lookup_lt_is_Some_2 h (i / 2)) as [y Hy]; [lia|].
    rewrite Parent_ok, (IsLess_ok h i (i / 2) x y Hx Hy). cbn [mbind result_bind]. destruct (event_less x y) eqn:El; cbn [negb].
    + rewrite (Exch_ok h i (i / 2) x y Hx Hy). cbn [mbind result_bind].
      destruct (up_step h i x y Hh Hb ltac:(lia) Hx Hy El) as [H1 H2].
      destruct (IH (exchanged h i (i / 2) x y) (i / 2)%nat) as (h' & R1 & R2 & R3); [lia|rewrite exchanged_length; lia|done..|].
      exists h'. split; [done|]. split; [done|]. eapply rearranged_trans; [|exact R3]. apply exchanged_rearranged; [lia|lia|done..].
    + exists h. split; [done|]. split; [|apply rearranged_refl]. intros j a b Hj _ Ha Hb'.
      destruct (decide (i = j)) as [<-|]; [|by apply (Hh j)]. assert (a = y) as -> by congruence. assert (b = x) as -> by congruence. auto.
Qed.

(** ** Downwards *)

Definition below_but (i : nat) : Heap -> Prop := heap_but (fun j => (j / 2)%nat = i).

Lemma down_step h i c x y : below_but i h -> bridged i h -> (1 <= i)%nat -> (c / 2)%nat = i -> h !! i = Some x -> h !! c = Some y ->
  le y x -> (forall j z, (j / 2)%nat = i -> h !! j = Some z -> le y z) ->
  let h' := exchanged h i c x y in below_but c h' /\ bridged c h'.
Proof.
  intros Hh Hb Hi Hc Hx Hy Hle Hmin h'. assert (i < c)%nat by (destruct (div2_child i c Hc); lia). split.
  - intros j a b Hj Hne. unfold h'. rewrite !exchanged_lookup by done. pose proof (div2_lt j Hj).
    rewrite (decide_False (P := (j / 2)%nat = c)) by done. destruct (decide (j = c)) as [->|Hjc].
    + rewrite decide_True by done. by intros [= <-] [= <-].
    + destruct (decide (j / 2 = i)%nat) as [E|E].
      * rewrite (decide_False (P := j = i)) by lia. intros [= <-]. by apply Hmin.
      * destruct (decide (j = i)) as [->|Hji].
        -- intros Ha [= <-]. by apply (Hb c).
        -- intros. by apply (Hh j).
  - intros j a b Hc2 Hj. unfold h'. rewrite !exchanged_lookup by done. rewrite Hc.
    rewrite (decide_False (P := i = c)), (decide_True (P := i = i)) by (done || lia). intros [= <-].
    destruct (div2_child c j Hj); (rewrite (decide_False (P := j = c)), (decide_False (P := j = i)) by lia);
      (intros Hb'; apply (Hh j); [lia|lia|by rewrite Hj|done]).
Qed.

(** No child: nothing is out of order. *)
Lemma below_bottom h i : (1 <= i)%nat -> (length h <= 2 * i)%nat -> below_but i h -> is_heap h.
Proof.
  intros Hi Hlen Hh j a b Hj _ Ha Hb. pose proof (lookup_lt_Some _ _ _ Hb). destruct (decide (j / 2 = i)%nat) as [E|E]; [|by apply (Hh j)].
  destruct (div2_child i j E); lia.
Qed.
(** The least child is greater: neither. *)
Lemma below_less h i x y : below_but i h -> h !! i = Some x -> le x y -> (forall j z, (j / 2)%nat = i -> h !! j = Some z -> le y z) -> is_heap h.
Proof.
  intros Hh Hx Hle Hmin j a b Hj _ Ha Hb. destruct (decide (j / 2 = i)%nat) as [E|E]; [|by apply (Hh j)].
  assert (a = x) as -> by congruence. apply (le_trans x y); [done|]. by apply (Hmin j).
Qed.

Lemma TopDown_end_ok h i : (1 <= i <= length h)%nat -> Z.of_nat (length h) < 2 ^ 31 -> (length h <= 2 * i + 1)%nat -> below_but i h -> bridged i h ->
  exists h', TopDown_end (Z.of_nat i) h = Ok h' /\ is_heap h' /\ rearranged h h'.
Proof.
  intros Hi Hlen Hbot Hh Hb. unfold TopDown_end. rewrite LeftChild_ok by lia. rewrite !IsBottom_ok.
  case_bool_decide; [exists h; split; [done|]; split; [by apply (below_bottom h i); [lia|lia|]|apply rearranged_refl]|].
  case_bool_decide; [exists h; split; [done|]; split; [by apply (below_bottom h i); [lia|lia|]|apply rearranged_refl]|].
  destruct (lookup_lt_is_Some_2 h i) as [x Hx]; [lia|]. destruct (lookup_lt_is_Some_2 h (2 * i)) as [y Hy]; [lia|].
  rewrite (IsLess_ok h i (2 * i) x y Hx Hy). cbn [mbind result_bind].
  assert (forall j z, (j / 2)%nat = i -> h !! j = Some z -> le y z) as Hmin.
  { intros j z Hj Hz. pose proof (lookup_lt_Some _ _ _ Hz). destruct (div2_child i j Hj) as [->| ->]; [|lia].
    assert (z = y) as -> by congruence. unfold le. apply event_less_false. lia. }
  destruct (event_less x y) eqn:El.
  - exists h. split; [done|]. split; [|apply rearranged_refl]. apply (below_less h i x y); auto.
  - rewrite (Exch_ok h i (2 * i) x y Hx Hy). eexists. split; [done|]. split; [|apply exchanged_rearranged; [lia|lia|done..]].
    destruct (down_step h i (2 * i) x y) as [H1 H2]; auto; [lia|apply child_div2|].
    apply (below_bottom _ (2 * i)); [lia|rewrite exchanged_length; lia|done].
Qed.

Lemma TopDown_loop_ok fuel : forall h i, (length h - i < fuel)%nat -> (1 <= i <= length h)%nat -> Z.of_nat (length h) < 2 ^ 31 ->
  below_but i h -> bridged i h -> exists h', TopDown_loop fuel (Z.of_nat i) h = Ok h' /\ is_heap h' /\ rearranged h h'.
Proof.
  induction fuel as [|fuel IH]; intros h i Hf Hi Hlen Hh Hb; [lia|]. cbn [TopDown_loop].
  rewrite LeftChild_ok, RightChild_ok, IsBottom_ok by lia. case_bool_decide as E; [by apply TopDown_end_ok|].
  destruct (lookup_lt_is_Some_2 h i) as [x Hx]; [lia|]. destruct (lookup_lt_is_Some_2 h (2 * i)) as [l Hl]; [lia|].
  destruct (lookup_lt_is_Some_2 h (2 * i + 1)) as [r Hr]; [lia|]. destruct (child_div2 i) as [D1 D2].
  unfold Smallest. rewrite (IsLess_ok h (2 * i) (2 * i + 1) l r Hl Hr). cbn [mbind result_bind].
  assert (exists c y, (if event_less l r then Z.of_nat (2 * i) else Z.of_nat (2 * i + 1)) = Z.of_nat c /\ (c / 2)%nat = i /\ h !! c = Some y /\
    forall j z, (j / 2)%nat = i -> h !! j = Some z -> le y z) as (c & y & -> & Hc & Hy & Hmin).
  { destruct (event_less l r) eqn:El; [exists (2 * i)%nat, l|exists (2 * i + 1)%nat, r]; (split; [done|]; split; [done|]; split; [done|]);
      intros j z Hj Hz; destruct (div2_child i j Hj) as [->| ->]; first [assert (z = l) as -> by congruence|assert (z = r) as -> by congruence];
      auto; unfold le; apply event_less_false; lia. }
  rewrite (IsLess_ok h i c x y Hx Hy). cbn [mbind result_bind]. destruct (event_less x y) eqn:El.
  - exists h. split; [done|]. split; [|apply rearranged_refl]. apply (below_less h i x y); auto.
  - rewrite (Exch_ok h i c x y Hx Hy). cbn [mbind result_bind]. pose proof (lookup_lt_Some _ _ _ Hy).
    destruct (down_step h i c x y) as [H1 H2]; auto; [lia|].
    destruct (IH (exchanged h i c x y) c) as (h' & R1 & R2 & R3); rewrite ?exchanged_length; [destruct (div2_child i c Hc); lia|destruct (div2_child i c Hc); lia|done..|].
    exists h'. split; [done|]. split; [done|]. eapply rearranged_trans; [|exact R3]. destruct (div2_child i c Hc); apply exchanged_rearranged; done || lia.
Qed.

(** ** The heap is a queue *)

Record heap_of (now : Z) (h : Heap) (l : list Event) : Prop := {
  ho_unused : h !! 0%nat = Some empty_event;
  ho_heap : is_heap h;
  ho_events : h ≡ₚ empty_event :: l;
  ho_pending : pending now l;
  ho_size : Z.of_nat (length l) < 2 ^ 31 - 1
}.

Lemma heap_of_length now h l : heap_of now h l -> length h = S (length l).
Proof. intros H. by rewrite (Permutation_length (ho_events _ _ _ H)). Qed.

Lemma heap_rearranged now h h' l : rearranged h h' -> is_heap h' -> h !! 0%nat = Some empty_event -> h ≡ₚ empty_event :: l ->
  pending now l -> Z.of_nat (length l) < 2 ^ 31 - 1 -> heap_of now h' l.
Proof. intros [R1 R2] Hh H0 Hl Hp Hs. split; [congruence|done|by rewrite R1|done|done]. Qed.

Lemma heap_new : heap_of 0 MakeHeapScheduler [].
Proof.
  split; [done| |done|apply pending_nil|done]. intros j a b Hj _ _ Hb. apply lookup_lt_Some in Hb. cbn in Hb. lia.
Qed.

Lemma heap_Insert now h l ev : heap_of now h l -> now <= ts ev -> uid ev ∉ map uid l -> Z.of_nat (length l) < 2 ^ 31 - 2 ->
  exists h', HeapScheduler.Insert ev h = Ok h' /\ heap_of now h' (ListScheduler.Insert ev l).
Proof.
  intros H Hnow Hu Hs. pose proof (heap_of_length _ _ _ H) as Hlen. unfold HeapScheduler.Insert, BottomUp.
  rewrite Last_ok; rewrite length_app; cbn [length]; [|lia|lia]. replace (length h + 1 - 1)%nat with (length h) by lia.
  destruct (BottomUp_loop_ok (length h + 1) (h ++ [ev]) (length h)) as (h' & R1 & R2 & R3); [lia|rewrite length_app; cbn; lia|..].
  - intros j a b Hj Hne Ha Hb. pose proof (lookup_lt_Some _ _ _ Hb) as Hl. rewrite length_app in Hl. cbn in Hl.
    pose proof (div2_lt j Hj). rewrite lookup_app_l in Ha by lia. rewrite lookup_app_l in Hb by lia.
    apply (ho_heap _ _ _ H j); [done|tauto|done|done].
  - intros j a b Hi Hj _ Hb. apply lookup_lt_Some in Hb. rewrite length_app in Hb. cbn in Hb. destruct (div2_child _ _ Hj); lia.
  - exists h'. split; [done|]. eapply heap_rearranged; [exact R3|exact R2|..].
    + rewrite lookup_app_l by lia. apply H.
    + rewrite (ho_events _ _ _ H), (Permutation_app_comm _ [ev]), Insert_Permutation. cbn. apply Permutation_swap.
    + apply pending_Insert; [apply H|done..].
    + rewrite (Permutation_length (Insert_Permutation ev l)). cbn [length]. lia.
Qed.

Lemma heap_head now h ev l : heap_of now h (ev :: l) -> h !! 1%nat = Some ev.
Proof.
  intros H. pose proof (heap_of_length _ _ _ H) as Hlen. cbn in Hlen. destruct (lookup_lt_is_Some_2 h 1) as [a Ha]; [lia|].
  pose proof (ho_unused _ _ _ H) as H0. destruct h as [|e0 t]; [done|]. injection H0 as ->.
  pose proof (ho_events _ _ _ H) as Hp. apply Permutation_cons_inv in Hp.
  assert (a ∈ ev :: l) as Hin by (rewrite <- Hp; by apply list_elem_of_lookup; exists 0%nat).
  apply elem_of_cons in Hin as [->|Hin]; [done|]. exfalso.
  assert (ev ∈ t) as [k Hk]%list_elem_of_lookup by (rewrite Hp; left).
  pose proof (root_least _ (S k) a ev (ho_heap _ _ _ H) Ha ltac:(lia) Hk) as Hle.
  pose proof (sorted_head _ _ (pd_sorted _ _ (ho_pending _ _ _ H))) as Hs. rewrite Forall_forall in Hs. unfold le, before in *.
  rewrite (Hs a Hin) in Hle. done.
Qed.

Lemma pop_back_lookup (h : Heap) k : pop_back h !! k = if decide (k < length h - 1)%nat then h !! k else None.
Proof. unfold pop_back. case_decide; [by apply lookup_take_lt|apply lookup_take_ge; lia]. Qed.
Lemma pop_back_Permutation (h : Heap) x : h !! (length h - 1)%nat = Some x -> h ≡ₚ x :: pop_back h.
Proof.
  intros Hx. unfold pop_back. rewrite <- (take_drop (length h - 1) h) at 1. rewrite Permutation_app_comm.
  rewrite (drop_S h x) by done. pose proof (lookup_lt_Some _ _ _ Hx). by rewrite drop_ge by lia.
Qed.

(** The last element is put in the place of element [i], which goes. *)
Section replace.
Context (now : Z) (h : Heap) (l : list Event) (H : heap_of now h l) (i : nat) (x z : Event).
Context (Hi : (1 <= i)%nat) (Hx : h !! i = Some x) (Hz : h !! (length h - 1)%nat = Some z).
(** What is above it is no greater. *)
Context (Habove : forall a, (2 <= i)%nat -> h !! (i / 2)%nat = Some a -> le a z).

Let h' := pop_back (exchanged h i (length h - 1) x z).

Lemma replaced_lookup k : h' !! k = if decide (k < length h - 1)%nat then (if decide (k = i) then Some z else h !! k) else None.
Proof using Hi Hx Hz.
  unfold h'. rewrite pop_back_lookup, exchanged_length. case_decide; [|done]. rewrite exchanged_lookup by done.
  by rewrite (decide_False (P := k = (length h - 1)%nat)) by lia.
Qed.
Lemma replaced_length : length h' = (length h - 1)%nat.
Proof using Hi. unfold h', pop_back. rewrite length_take, exchanged_length. lia. Qed.

Lemma replaced_heap : below_but i h' /\ bridged i h'.
Proof using H Habove Hi Hx Hz.
  pose proof (ho_heap _ _ _ H) as Hh. split.
  - intros j a b Hj Hne Ha Hb. rewrite replaced_lookup in Ha, Hb. pose proof (div2_lt j Hj). repeat case_decide; simplify_eq; try lia.
    + by apply Habove.
    + apply (Hh j); [done|tauto|done|done].
  - intros j a b Hi2 Hj Ha Hb. rewrite replaced_lookup in Ha, Hb. pose proof (div2_lt i Hi2). assert (i < j)%nat by (destruct (div2_child i j Hj); lia).
    rewrite (decide_False (P := (i / 2)%nat = i)) in Ha by lia. rewrite (decide_False (P := j = i)) in Hb by lia.
    case_decide; [|done]. case_decide; [|done]. apply (le_trans a x); [apply (Hh i); [done|tauto|done|done]|]; apply (Hh j); [lia|tauto|by rewrite Hj|done].
Qed.

Lemma replaced_ok : exists h2, (m ← Exch (Z.of_nat i) (Last h) h; TopDown (Z.of_nat i) (pop_back m)) = Ok h2 /\
  forall now' l', pending now' l' -> l ≡ₚ x :: l' -> heap_of now' h2 l'.
Proof using H Habove Hi Hx Hz.
  pose proof (heap_of_length _ _ _ H) as Hlen. pose proof (ho_size _ _ _ H) as Hs. pose proof (lookup_lt_Some _ _ _ Hx).
  rewrite Last_ok by lia. rewrite (Exch_ok h i (length h - 1) x z Hx Hz). cbn [mbind result_bind]. fold h'.
  destruct replaced_heap as [H1 H2]. unfold TopDown.
  destruct (TopDown_loop_ok (length h') h' i) as (h2 & R1 & R2 & R3); [rewrite replaced_length; lia..|done|done|].
  exists h2. split; [done|]. intros now' l' Hp Hl. apply (heap_rearranged _ h'); [done|done| | |done|rewrite Hl in Hs; cbn in Hs; lia].
  - rewrite replaced_lookup. rewrite decide_True by lia. rewrite decide_False by lia. apply H.
  - apply (Permutation_cons_inv (a := x)).
    assert (exchanged h i (length h - 1) x z ≡ₚ x :: h') as <-.
    { apply pop_back_Permutation. rewrite exchanged_length, exchanged_lookup by done. by rewrite decide_True. }
    rewrite exchanged_Permutation by done. rewrite (ho_events _ _ _ H), Hl. apply Permutation_swap.
Qed.
End replace.

Lemma heap_RemoveNext now h ev l : heap_of now h (ev :: l) -> exists h', HeapScheduler.RemoveNext h = Ok (ev, h') /\ heap_of (ts ev) h' l.
Proof.
  intros H. pose proof (heap_head _ _ _ _ H) as Hev. pose proof (heap_of_length _ _ _ H) as Hlen. cbn in Hlen.
  destruct (lookup_lt_is_Some_2 h (length h - 1)) as [z Hz]; [lia|]. unfold RemoveNext.
  change Root with (Z.of_nat 1). rewrite (at_ok h 1 ev Hev). cbn [mbind result_bind].
  destruct (replaced_ok now h (ev :: l) H 1 ev z) as (h2 & R1 & R2); [lia|done|done|lia|].
  revert R1. destruct (Exch _ _ h) as [m|]; [|done]. cbn [mbind result_bind]. intros ->. cbn [mbind result_bind].
  exists h2. split; [done|]. apply R2; [|done]. eapply pending_tail, H.
Qed.

#[export] Program Instance heap_queue : EventQueue EventHeap := {|
  represents := heap_of;
  capacity := 2 ^ 31 - 2;
  horizon := 2 ^ 64;
  removable := false |}.
Next Obligation. done. Qed.
Next Obligation. by intros now s l []. Qed.
Next Obligation. apply heap_new. Qed.
Next Obligation. intros now now' s l [] _ H. by split. Qed.
Next Obligation. intros now s l ev H Hts Hu Hl. apply (heap_Insert now); [done|lia|done|done]. Qed.
Next Obligation.
  intros now s l H. cbn. unfold IsEmpty, size. rewrite (heap_of_length _ _ _ H). destruct l; [done|].
  rewrite bool_decide_false by done. apply Z.eqb_neq. cbn [length]. lia.
Qed.
Next Obligation. intros now s ev l H. cbn. unfold PeekNext. change Root with (Z.of_nat 1). by rewrite (at_ok _ 1 ev) by (by eapply heap_head). Qed.
Next Obligation. intros now s ev l H. by eapply heap_RemoveNext. Qed.
Next Obligation. done. Qed.

(** ** Remove *)

Lemma Remove_loop_ok ev h n i k : h !! i = Some ev -> (forall j e, (1 <= j < i)%nat -> h !! j = Some e -> uid e <> uid ev) ->
  (1 <= k <= i)%nat -> (i < k + n)%nat ->
  Remove_loop ev (seqZ (Z.of_nat k) (Z.of_nat n)) h = (m ← Exch (Z.of_nat i) (Last h) h; TopDown (Z.of_nat i) (pop_back m)).
Proof.
  intros Hi Hfirst. revert k. induction n as [|n IH]; intros k Hk Hn; [lia|]. rewrite seqZ_cons by lia. cbn [Remove_loop].
  pose proof (lookup_lt_Some _ _ _ Hi). destruct (lookup_lt_is_Some_2 h k) as [e He]; [lia|]. rewrite (at_ok h k e He). cbn [mbind result_bind].
  fold (uid e) (uid ev). destruct (decide (k = i)) as [->|Hki].
  - assert (e = ev) as -> by congruence. rewrite !Z.eqb_refl. done.
  - rewrite (proj2 (Z.eqb_neq _ _)) by (intros E; apply (Hfirst k e); [lia|done|congruence]).
    replace (Z.succ (Z.of_nat k)) with (Z.of_nat (Datatypes.S k)) by lia. replace (Z.pred (Z.of_nat (Datatypes.S n))) with (Z.of_nat n) by lia.
    apply IH; lia.
Qed.

(** [Remove] takes the event away and keeps the heap, if what is above the
    event's place may stand above the last element. *)
Lemma heap_Remove now h l i ev z : heap_of now h l -> (1 <= i)%nat -> h !! i = Some ev -> h !! (length h - 1)%nat = Some z ->
  (forall a, (2 <= i)%nat -> h !! (i / 2)%nat = Some a -> le a z) ->
  exists h', HeapScheduler.Remove ev h = Ok h' /\ heap_of now h' (without ev l).
Proof.
  intros H Hi Hev Hz Habove. pose proof (heap_of_length _ _ _ H) as Hlen. pose proof (lookup_lt_Some _ _ _ Hev) as Hlt.
  pose proof (ho_pending _ _ _ H) as Hp. pose proof (ho_events _ _ _ H) as Hperm. pose proof (ho_unused _ _ _ H) as Hd.
  destruct h as [|e0 t]; [done|]. injection Hd as ->. apply Permutation_cons_inv in Hperm.
  assert (ev ∈ l) as Hin. { rewrite <- Hperm. apply list_elem_of_lookup. exists (i - 1)%nat. by destruct i; [lia|]; rewrite Nat.sub_1_r. }
  assert (NoDup (map uid t)) as Hn by (rewrite Hperm; apply Hp).
  destruct (replaced_ok now _ l H i ev z Hi Hev Hz Habove) as (h2 & R1 & R2). exists h2. split.
  - unfold HeapScheduler.Remove, size. replace (Z.of_nat (length (empty_event :: t)) - 1) with (Z.of_nat (length t)) by (cbn; lia).
    change 1 with (Z.of_nat 1). rewrite (Remove_loop_ok ev _ (length t) i 1); [done|done| |lia|cbn in *; lia].
    intros [|j] e Hj He Hu; [lia|]. destruct i as [|i]; [lia|]. change (t !! j = Some e) in He. change (t !! i = Some ev) in Hev.
    assert (j = i) as ->; [|lia]. apply (NoDup_lookup _ _ _ (uid ev) Hn); rewrite list_lookup_fmap; [by rewrite He, <- Hu|by rewrite Hev].
  - apply R2; [by apply pending_without|]. apply without_Permutation; [apply Hp|done].
Qed.

(** ** Results *)

Definition sample (ts : Z) : Event := mkEvent ts (mkKey ts ts 0).

(** (C25) The heap scheduler, given requests other than [Remove] that a user may
    make, answers each as a sorted list would: events come out by time and, at
    the same time, in the order they were scheduled.  It holds up to
    [2 ^ 31 - 2] events, and no request fails or runs out of rounds. *)
Theorem heap_scheduler_answers rs : legal (S := EventHeap) 0 [] rs ->
  exists ans, serve_all (S := EventHeap) rs new_scheduler = Ok ans /\ serve_all (S := list Event) rs new_scheduler = Ok ans.
Proof. intros Hrs. apply (same_answers rs 0 (new_scheduler : EventHeap) []); [apply represents_new|apply pending_nil|done]. Qed.

Lemma heap_scheduler_answers_witness :
  serve_all (S := EventHeap) [InsertEvent (sample 3); InsertEvent (sample 1); InsertEvent (sample 2); Next; Peek; Next; Next; AskEmpty] new_scheduler =
  Ok [Done; Done; Done; Found (sample 1); Found (sample 2); Found (sample 2); Found (sample 3); Empty true].
Proof.
  destruct (heap_scheduler_answers [InsertEvent (sample 3); InsertEvent (sample 1); InsertEvent (sample 2); Next; Peek; Next; Next; AskEmpty])
    as (ans & E1 & E2).
  - cbn. repeat split; try lia; rewrite ?elem_of_cons, ?elem_of_nil; cbn; intuition (discriminate || lia).
  - rewrite E1. rewrite <- E2. vm_compute. reflexivity.
Defined.

(** [Remove] puts the last element in the place of the one it removes and only
    moves it down: where it belongs above, the events behind come out of
    order, 4 behind 10 here. *)
Lemma heap_remove_out_of_order :
  serve_all (S := EventHeap) (map (fun t => InsertEvent (sample t)) [1; 10; 2; 13; 12; 3; 20; 14; 15; 16; 17; 4] ++
    [Withdraw (sample 13); Next; Next; Next; Next; Next]) new_scheduler =
  Ok (replicate 13 Done ++ map (fun t => Found (sample t)) [1; 2; 3; 10; 4]).
Proof. vm_compute. reflexivity. Qed.
