(* ===== verification/CalendarScheduler.v ===== *)
(** * CalendarScheduler: the queue of events as a calendar

    src/ns-3/src/simulator/calendar-scheduler.cc.  Time is cut into days of
    [m_width]; a day belongs to the bucket of its number modulo [m_nBuckets],
    so that the buckets are the days of a year.  A bucket is a sorted list; a
    search goes on from the day of the last event.  The number of buckets
    follows the number of events, the width the distances between the next of
    them. *)

From stdpp Require Import sorting.
From S2P Require Import Prelude Scheduler.

Module CalendarScheduler.
Record Calendar := mkCalendar {
  m_buckets : list (list Event);
  m_nBuckets : Z;
  m_width : Z;
  m_lastBucket : Z;
  m_bucketTop : Z;
  m_lastPrio : Z;
  m_qSize : Z
}.
Definition set_buckets (b : list (list Event)) (c : Calendar) : Calendar :=
  mkCalendar b (m_nBuckets c) (m_width c) (m_lastBucket c) (m_bucketTop c) (m_lastPrio c) (m_qSize c).
Definition set_last (bucket top prio : Z) (c : Calendar) : Calendar :=
  mkCalendar (m_buckets c) (m_nBuckets c) (m_width c) bucket top prio (m_qSize c).
Definition set_qSize (n : Z) (c : Calendar) : Calendar :=
  mkCalendar (m_buckets c) (m_nBuckets c) (m_width c) (m_lastBucket c) (m_bucketTop c) (m_lastPrio c) n.

(** The integer operations [/] and [%]. *)
Definition divide (a b : Z) : result Z := if b =? 0 then Fault DivisionByZero else Ok (a / b).
Definition modulo (a b : Z) : result Z := if b =? 0 then Fault DivisionByZero else Ok (a mod b).

Definition Hash (ts : Z) (c : Calendar) : result Z := day ← divide ts (m_width c); modulo day (m_nBuckets c).
(** The end of the day of [ts]. *)
Definition day_end (ts width : Z) : result Z := day ← divide ts width; Ok (u64 ((day + 1) * width)).
Definition Init (nBuckets width startPrio qSize : Z) : result Calendar :=
  let c := mkCalendar (replicate (Z.to_nat nBuckets) []) nBuckets width 0 0 startPrio qSize in
  bucket ← Hash startPrio c;
  top ← day_end startPrio width;
  Ok (set_last bucket top startPrio c).
Definition MakeCalendarScheduler : result Calendar := Init 2 1 0 0.

Definition bucket (i : Z) (c : Calendar) : result (list Event) := m_buckets c !! Z.to_nat i ?? OutOfRange.
Definition put_bucket (i : Z) (b : list Event) (c : Calendar) : Calendar := set_buckets (<[Z.to_nat i := b]> (m_buckets c)) c.
(** The loop over the bucket is that of the list scheduler. *)
Definition DoInsert (ev : Event) (c : Calendar) : result Calendar :=
  i ← Hash (ts ev) c; b ← bucket i c; Ok (put_bucket i (ListScheduler.Insert ev b) c).
Definition IsEmpty (c : Calendar) : bool := m_qSize c =? 0.

(** Where the search of [PeekNext] and [DoRemoveNext] ends: at an event of the
    day it looks at, or, after a year, with the least event it has seen. *)
Inductive search_result := FoundAt (next : Event) (i bucketTop : Z) | Least (minEvent : Event).
Definition no_event : Event := mkEvent 0 (mkKey (2 ^ 64 - 1) (2 ^ 32 - 1) 0).
Fixpoint search (fuel : nat) (i bucketTop : Z) (minEvent : Event) (c : Calendar) : result search_result :=
  match fuel with
  | O => Fault Diverges
  | S fuel =>
      b ← bucket i c;
      let go_on minEvent :=
        i ← modulo (u32 (i + 1)) (m_nBuckets c);
        if i =? m_lastBucket c then Ok (Least minEvent) else search fuel i (u64 (bucketTop + m_width c)) minEvent c in
      match b with
      | next :: _ =>
          if ts next <? bucketTop then Ok (FoundAt next i bucketTop)
          else go_on (if key_less (key next) (key minEvent) then next else minEvent)
      | [] => go_on minEvent
      end
  end.
Definition search_all (c : Calendar) : result search_result :=
  search (Z.to_nat (m_nBuckets c)) (m_lastBucket c) (m_bucketTop c) no_event c.

Definition PeekNext (c : Calendar) : result Event :=
  _ ← assert (negb (IsEmpty c));
  r ← search_all c;
  Ok (match r with FoundAt next _ _ => next | Least minEvent => minEvent end).

Definition pop_bucket (i : Z) (c : Calendar) : result Calendar :=
  b ← bucket i c; match b with [] => Fault DerefEnd | _ :: b => Ok (put_bucket i b c) end.
Definition DoRemoveNext (c : Calendar) : result (Event * Calendar) :=
  r ← search_all c;
  match r with
  | FoundAt next i bucketTop => c ← pop_bucket i (set_last i bucketTop (ts next) c); Ok (next, c)
  | Least minEvent =>
      i ← Hash (ts minEvent) c;
      top ← day_end (ts minEvent) (m_width c);
      c ← pop_bucket i (set_last i top (ts minEvent) c);
      Ok (minEvent, c)
  end.

(** ** Another number of buckets, another width *)

Definition nSamples (qSize : Z) : Z :=
  let n := if qSize <=? 5 then qSize else u32 (5 + qSize / 10) in if n >? 25 then 25 else n.
Fixpoint take_samples (n : nat) (c : Calendar) : result (list Event * Calendar) :=
  match n with
  | O => Ok ([], c)
  | S n => '(ev, c) ← DoRemoveNext c; '(samples, c) ← take_samples n c; Ok (ev :: samples, c)
  end.
(** The sum of the distances between neighbours that are at most [limit]. *)
Fixpoint separation (limit : Z) (samples : list Event) : Z :=
  match samples with
  | cur :: ((next :: _) as rest) =>
      let diff := u64 (ts next - ts cur) in
      u64 ((if diff <=? limit then diff else 0) + separation limit rest)
  | _ => 0
  end.
Definition width_of (n : Z) (samples : list Event) : result Z :=
  let totalSeparation := separation (2 ^ 64 - 1) samples in
  average ← divide totalSeparation (u32 (n - 1));
  let twiceAvg := u64 (average * 2) in
  let totalSeparation := u64 (separation twiceAvg samples * 3) in
  Ok (u32 (Z.max totalSeparation 1)).
Definition CalculateNewWidth (c : Calendar) : result (Z * Calendar) :=
  if m_qSize c <? 2 then Ok (1, c)
  else
    let n := nSamples (m_qSize c) in
    '(samples, c') ← take_samples (Z.to_nat n) c;
    c' ← foldM (fun c ev => DoInsert ev c) c' samples;
    let c' := set_last (m_lastBucket c) (m_bucketTop c) (m_lastPrio c) c' in
    width ← width_of n samples;
    Ok (width, c').
Definition DoResize (newSize newWidth : Z) (c : Calendar) : result Calendar :=
  c' ← Init newSize newWidth (m_lastPrio c) (m_qSize c);
  foldM (fun c ev => DoInsert ev c) c' (concat (m_buckets c)).
Definition Resize (newSize : Z) (c : Calendar) : result Calendar :=
  '(newWidth, c) ← CalculateNewWidth c; DoResize newSize newWidth c.
Definition ResizeUp (c : Calendar) : result Calendar :=
  if (m_qSize c >? u32 (m_nBuckets c * 2)) && (m_nBuckets c <? 32768) then Resize (u32 (m_nBuckets c * 2)) c else Ok c.
Definition ResizeDown (c : Calendar) : result Calendar :=
  if m_qSize c <? m_nBuckets c / 2 then Resize (m_nBuckets c / 2) c else Ok c.

(** ** The operations that change the number of events *)

Definition Insert (ev : Event) (c : Calendar) : result Calendar :=
  c ← DoInsert ev c; ResizeUp (set_qSize (u32 (m_qSize c + 1)) c).
Definition RemoveNext (c : Calendar) : result (Event * Calendar) :=
  _ ← assert (negb (IsEmpty c));
  '(ev, c) ← DoRemoveNext c;
  c ← ResizeDown (set_qSize (u32 (m_qSize c - 1)) c);
  Ok (ev, c).
Definition Remove (ev : Event) (c : Calendar) : result Calendar :=
  _ ← assert (negb (IsEmpty c));
  i ← Hash (ts ev) c;
  b ← bucket i c;
  b ← ListScheduler.Remove ev b;
  let c := put_bucket i b c in
  ResizeDown (set_qSize (u32 (m_qSize c - 1)) c).
End CalendarScheduler.
Import CalendarScheduler.

(** ** Buckets *)

(** The bucket of a time. *)
Definition day (w t : Z) : Z := t / w.
Definition slot (n w t : Z) : Z := day w t mod n.

(** The events of [l], each in its bucket. *)
Record filed (n w : Z) (bs : list (list Event)) (l : list Event) : Prop := {
  fi_length : Z.of_nat (length bs) = n;
  fi_sorted k b : bs !! k = Some b -> StronglySorted before b;
  fi_slot k b e : bs !! k = Some b -> e ∈ b -> slot n w (ts e) = Z.of_nat k;
  fi_events : concat bs ≡ₚ l
}.

Lemma concat_insert {A} (bs : list (list A)) k b b' : bs !! k = Some b -> b ++ concat (<[k := b']> bs) ≡ₚ b' ++ concat bs.
Proof.
  revert k. induction bs as [|c bs IH]; intros [|k]; cbn; try done.
  - intros [= ->]. rewrite !app_assoc. by rewrite (Permutation_app_comm b b').
  - intros Hk. rewrite !app_assoc, (Permutation_app_comm b c), (Permutation_app_comm b' c), <- !app_assoc. by rewrite (IH k Hk).
Qed.

Lemma filed_perm n w bs l l' : filed n w bs l -> l ≡ₚ l' -> filed n w bs l'.
Proof. intros [? ? ? H] Hl. split; [done..|]. by rewrite H. Qed.
Lemma filed_in n w bs l k b e : filed n w bs l -> bs !! k = Some b -> e ∈ b -> e ∈ l.
Proof. intros H Hk He. rewrite <- (fi_events _ _ _ _ H), list_elem_of_In, in_concat. exists b. rewrite <- !list_elem_of_In. split; [|done]. by eapply list_elem_of_lookup_2. Qed.
Lemma filed_at n w bs l e : 0 < n -> filed n w bs l -> e ∈ l -> exists b, bs !! Z.to_nat (slot n w (ts e)) = Some b /\ e ∈ b.
Proof.
  intros Hn H He. rewrite <- (fi_events _ _ _ _ H), list_elem_of_In, in_concat in He. destruct He as (b & [k Hk]%list_elem_of_In%list_elem_of_lookup & He%list_elem_of_In).
  exists b. split; [|done]. rewrite (fi_slot _ _ _ _ H k b e Hk He). by rewrite Nat2Z.id.
Qed.

Lemma slot_range n w t : 0 < n -> 0 <= slot n w t < n.
Proof. intros. by apply Z.mod_pos_bound. Qed.

Lemma filed_insert n w bs l k b b' ev : filed n w bs l -> bs !! k = Some b -> b' ≡ₚ ev :: b -> StronglySorted before b' ->
  slot n w (ts ev) = Z.of_nat k -> filed n w (<[k := b']> bs) (ev :: l).
Proof.
  intros H Hk Hb Hs Hev. pose proof (lookup_lt_Some _ _ _ Hk). split.
  - rewrite length_insert. apply H.
  - intros j c Hj. destruct (decide (j = k)) as [->|]; [rewrite list_lookup_insert_eq in Hj by done; congruence|].
    rewrite list_lookup_insert_ne in Hj by done. by eapply H.
  - intros j c e Hj He. destruct (decide (j = k)) as [->|].
    + rewrite list_lookup_insert_eq in Hj by done. injection Hj as <-. rewrite Hb in He. apply elem_of_cons in He as [->|He]; [done|by eapply H].
    + rewrite list_lookup_insert_ne in Hj by done. by eapply H.
  - apply (Permutation_app_inv_l b). rewrite (concat_insert bs k b b' Hk), Hb, (fi_events _ _ _ _ H). cbn. apply Permutation_middle.
Qed.
Lemma filed_remove n w bs l k b b' ev : filed n w bs l -> bs !! k = Some b -> b ≡ₚ ev :: b' -> StronglySorted before b' -> l ≡ₚ ev :: without ev l ->
  filed n w (<[k := b']> bs) (without ev l).
Proof.
  intros H Hk Hb Hs Hl. pose proof (lookup_lt_Some _ _ _ Hk). split.
  - rewrite length_insert. apply H.
  - intros j c Hj. destruct (decide (j = k)) as [->|]; [rewrite list_lookup_insert_eq in Hj by done; congruence|].
    rewrite list_lookup_insert_ne in Hj by done. by eapply H.
  - intros j c e Hj He. destruct (decide (j = k)) as [->|].
    + rewrite list_lookup_insert_eq in Hj by done. injection Hj as <-. eapply (fi_slot _ _ _ _ H k b); [done|]. rewrite Hb. by right.
    + rewrite list_lookup_insert_ne in Hj by done. by eapply H.
  - apply (Permutation_app_inv_l (ev :: b')). rewrite <- Hb at 1. rewrite (concat_insert bs k b b' Hk), (fi_events _ _ _ _ H), Hl at 1.
    cbn. by rewrite Permutation_middle.
Qed.

Lemma uids_in l e ev : NoDup (map uid (ev :: l)) -> e ∈ l -> uid e <> uid ev.
Proof. intros [H _]%NoDup_cons He E. apply H. rewrite <- E. by apply list_elem_of_fmap_2. Qed.

(** [c] has [n] buckets of width [w] with the events of [l]. *)
Record shelved (n w : Z) (c : Calendar) (l : list Event) : Prop := {
  sh_n : m_nBuckets c = n;
  sh_w : m_width c = w;
  sh_filed : filed n w (m_buckets c) l
}.

Section calendar.
Context (n w : Z) (Hn : 1 <= n <= 2 ^ 16) (Hw : 1 <= w < 2 ^ 32).

Lemma Hash_ok c t : m_nBuckets c = n -> m_width c = w -> Hash t c = Ok (slot n w t).
Proof using Hn Hw.
  intros E1 E2. unfold Hash, divide, modulo. rewrite E1, E2. rewrite !(proj2 (Z.eqb_neq _ _)) by lia. done.
Qed.
Lemma day_end_ok t : 0 <= t < 2 ^ 33 -> day_end t w = Ok ((day w t + 1) * w).
Proof using Hw.
  intros Ht. unfold day_end, divide. rewrite (proj2 (Z.eqb_neq _ _)) by lia. cbn [mbind result_bind]. rewrite u64_small; [done|].
  unfold day. pose proof (Z.mul_div_le t w ltac:(lia)). pose proof (Z.div_pos t w ltac:(lia) ltac:(lia)). unfold is_u64. nia.
Qed.
Lemma bucket_ok c l t : shelved n w c l -> exists b, bucket (slot n w t) c = Ok b /\ m_buckets c !! Z.to_nat (slot n w t) = Some b.
Proof using Hn.
  intros [E1 E2 H]. pose proof (slot_range n w t ltac:(lia)). unfold bucket.
  destruct (lookup_lt_is_Some_2 (m_buckets c) (Z.to_nat (slot n w t))) as [b Hb]; [pose proof (fi_length _ _ _ _ H); lia|].
  exists b. by rewrite Hb.
Qed.

Lemma DoInsert_ok c l ev : shelved n w c l -> NoDup (map uid (ev :: l)) -> exists bs, DoInsert ev c = Ok (set_buckets bs c) /\
  shelved n w (set_buckets bs c) (ev :: l).
Proof using Hn Hw.
  intros H Hu. pose proof H as [E1 E2 Hf]. unfold DoInsert. rewrite (Hash_ok c _ E1 E2). cbn [mbind result_bind].
  destruct (bucket_ok c l (ts ev) H) as (b & -> & Hb). cbn [mbind result_bind]. eexists. split; [done|]. split; [done|done|].
  cbn [m_buckets set_buckets]. pose proof (slot_range n w (ts ev) ltac:(lia)).
  apply (filed_insert n w _ l _ b); [done|done|apply Insert_Permutation| |lia].
  apply Insert_sorted; [by eapply Hf|]. intros (e & Ee & He)%list_elem_of_fmap. apply (uids_in l e ev Hu); [by eapply filed_in|done].
Qed.
Lemma insert_all_ok s : forall c l, shelved n w c l -> NoDup (map uid (s ++ l)) -> exists bs,
  foldM (fun c ev => DoInsert ev c) c s = Ok (set_buckets bs c) /\ shelved n w (set_buckets bs c) (s ++ l).
Proof using Hn Hw.
  induction s as [|ev s IH]; intros c l H Hu; [exists (m_buckets c); by destruct c|].
  cbn [foldM]. assert (NoDup (map uid (s ++ ev :: l))) as Hu'.
  { assert (map uid (s ++ ev :: l) ≡ₚ map uid (ev :: s ++ l)) as -> by (apply Permutation_map; symmetry; apply Permutation_middle). done. }
  destruct (DoInsert_ok c l ev H) as (bs & -> & H').
  { rewrite map_app in Hu'. by apply NoDup_app in Hu' as (_ & _ & ?). }
  cbn [mbind result_bind]. destruct (IH _ _ H' Hu') as (bs' & -> & [? ? H'']). exists bs'. split; [done|]. split; [done|done|].
  eapply filed_perm; [exact H''|]. symmetry. apply Permutation_middle.
Qed.
End calendar.

(** ** The search *)

(** The days from that of [now] on, in the order in which the search comes to
    them: every later day is some rounds of the year behind one of them. *)
Section days.
Context (n w now : Z) (Hn : 1 <= n <= 2 ^ 16) (Hw : 1 <= w < 2 ^ 32) (Hnow : 0 <= now < 2 ^ 32).

Definition visited (d : Z) : Z := (day w now + d) mod n.

Lemma visited_next d : 0 <= d -> (visited d + 1) mod n = visited (d + 1).
Proof using Hn. intros. unfold visited. rewrite Z.add_mod_idemp_l by lia. f_equal. lia. Qed.
Lemma between_multiples x q : x = n * q -> - n < x < n -> x = 0.
Proof using Hn. intros -> H. assert (q = 0) as -> by nia. lia. Qed.
Lemma visited_first d : 0 < d <= n -> bool_decide (visited d = visited 0) = bool_decide (d = n).
Proof using Hn.
  intros Hd. unfold visited. apply bool_decide_ext. rewrite Z.add_0_r.
  pose proof (Z.div_mod (day w now + d) n ltac:(lia)) as E1. pose proof (Z.div_mod (day w now) n ltac:(lia)) as E2.
  split; intros E.
  - pose proof (between_multiples (d - n) ((day w now + d) / n - day w now / n - 1)); lia.
  - rewrite E. replace (day w now + n) with (day w now + 1 * n) by lia. by rewrite Z.mod_add by lia.
Qed.

(** Every event is so many years behind a day the search comes to. *)
Lemma day_visited t : now <= t -> exists d q, 0 <= d < n /\ 0 <= q /\ day w t = day w now + d + n * q /\ slot n w t = visited d.
Proof using Hn Hw.
  intros Ht. exists ((day w t - day w now) mod n), ((day w t - day w now) / n).
  pose proof (Z.mod_pos_bound (day w t - day w now) n ltac:(lia)). pose proof (Z.div_mod (day w t - day w now) n ltac:(lia)) as E.
  assert (day w now <= day w t) by (apply Z.div_le_mono; lia).
  assert (0 <= (day w t - day w now) / n) by (apply Z.div_pos; lia).
  split; [done|]. split; [done|]. split; [lia|]. unfold slot, visited.
  replace (day w t) with (day w now + (day w t - day w now) mod n + ((day w t - day w now) / n) * n) at 1 by lia. by rewrite Z.mod_add by lia.
Qed.
Lemma visited_inj d d' : 0 <= d < n -> 0 <= d' < n -> visited d = visited d' -> d = d'.
Proof using Hn.
  intros Hd Hd' E. unfold visited in E. pose proof (Z.div_mod (day w now + d) n ltac:(lia)) as E1. pose proof (Z.div_mod (day w now + d') n ltac:(lia)) as E2.
  pose proof (between_multiples (d - d') ((day w now + d) / n - (day w now + d') / n)); lia.
Qed.
Lemma day_lt t k : t < (k + 1) * w <-> day w t <= k.
Proof using Hw. unfold day. split; intros H; [apply Z.lt_succ_r, Z.div_lt_upper_bound; lia|]. pose proof (Z.mul_succ_div_gt t w ltac:(lia)). nia. Qed.

Definition top (d : Z) : Z := (day w now + d + 1) * w.
Lemma top_range d : 0 <= d <= n -> is_u64 (top d).
Proof using Hn Hw Hnow.
  intros. unfold is_u64, top, day. pose proof (Z.mul_div_le now w ltac:(lia)). pose proof (Z.div_pos now w ltac:(lia) ltac:(lia)). nia.
Qed.

Context (c : Calendar) (ev : Event) (l : list Event) (Hc : shelved n w c (ev :: l)) (Hp : pending now (ev :: l)).
Context (Hlast : m_lastBucket c = visited 0) (Hhor : Forall (fun e => ts e < 2 ^ 32) (ev :: l)).

(** No event is before the first. *)
Lemma first_least e : e ∈ ev :: l -> event_less e ev = false.
Proof using Hp.
  intros He. apply elem_of_cons in He as [->|He]; [apply event_less_false; lia|].
  pose proof (sorted_head _ _ (pd_sorted _ _ Hp)) as Hs. rewrite Forall_forall in Hs. specialize (Hs e He). unfold before in Hs.
  rewrite event_less_spec in Hs. apply event_less_false. lia.
Qed.
Lemma first_only e : e ∈ ev :: l -> event_less ev e = false -> e = ev.
Proof using Hp.
  intros He Hl. apply elem_of_cons in He as [->|He]; [done|]. pose proof (sorted_head _ _ (pd_sorted _ _ Hp)) as Hs.
  rewrite Forall_forall in Hs. specialize (Hs e He). unfold before in Hs. congruence.
Qed.
Lemma event_now e : e ∈ ev :: l -> now <= ts e.
Proof using Hp. intros He. pose proof (pd_now _ _ Hp) as H. rewrite Forall_forall in H. by apply H. Qed.

(** The buckets seen so far hold nothing of their day; [m] is the least event
    of theirs, if there is one. *)
Record seen (d : Z) (m : Event) : Prop := {
  se_later e d' : e ∈ ev :: l -> 0 <= d' < d -> slot n w (ts e) = visited d' -> top d' <= ts e;
  se_min : m = no_event \/ m ∈ ev :: l;
  se_least e d' : e ∈ ev :: l -> 0 <= d' < d -> slot n w (ts e) = visited d' -> event_less e m = false
}.

Lemma seen_nothing : seen 0 no_event.
Proof using. split; [lia|by left|lia]. Qed.

Lemma bucket_visited d : exists b, bucket (visited d) c = Ok b /\ m_buckets c !! Z.to_nat (visited d) = Some b.
Proof using Hn Hc.
  unfold visited. pose proof (fi_length _ _ _ _ (sh_filed _ _ _ _ Hc)). pose proof (Z.mod_pos_bound (day w now + d) n ltac:(lia)).
  destruct (lookup_lt_is_Some_2 (m_buckets c) (Z.to_nat ((day w now + d) mod n))) as [b Hb]; [lia|]. exists b. unfold bucket. by rewrite Hb.
Qed.
Lemma in_bucket d b e : m_buckets c !! Z.to_nat (visited d) = Some b -> e ∈ b <-> e ∈ ev :: l /\ slot n w (ts e) = visited d.
Proof using Hn Hc.
  intros Hb. pose proof (sh_filed _ _ _ _ Hc) as Hf. pose proof (Z.mod_pos_bound (day w now + d) n ltac:(lia)). split.
  - intros He. split; [by eapply filed_in|]. rewrite (fi_slot _ _ _ _ Hf _ _ _ Hb He). unfold visited in *. lia.
  - intros [He Hs]. destruct (filed_at n w _ _ e ltac:(lia) Hf He) as (b' & Hb' & ?). rewrite Hs, Hb in Hb'. by injection Hb' as ->.
Qed.

(** An event of the day the search looks at is the first of all. *)
Lemma found_first d m b next rest : 0 <= d < n -> seen d m -> m_buckets c !! Z.to_nat (visited d) = Some b -> b = next :: rest ->
  ts next < top d -> next = ev /\ visited d = slot n w (ts ev) /\ top d = (day w (ts ev) + 1) * w.
Proof using Hn Hw Hc Hp Hhor.
  intros Hd Hseen Hb -> Ht. destruct (proj1 (in_bucket d _ next Hb)) as [Hnext Hslot]; [left|].
  assert (day w (ts next) = day w now + d) as Hday.
  { destruct (day_visited (ts next) (event_now _ Hnext)) as (d1 & q1 & H1 & H2 & H3 & H4).
    assert (d1 = d) as -> by (apply visited_inj; [done|done|congruence]). apply day_lt in Ht. nia. }
  assert (next = ev) as ->.
  { apply first_only; [done|]. destruct (event_less ev next) eqn:El; [exfalso|done]. apply event_less_spec in El.
    destruct (day_visited (ts ev) (event_now ev ltac:(left))) as (d1 & q1 & H1 & H2 & H3 & H4).
    assert (day w (ts ev) <= day w (ts next)) by (apply Z.div_le_mono; lia).
    destruct (Z.lt_trichotomy d1 d) as [Hlt|[->|Hgt]]; [| |nia].
    - pose proof (se_later _ _ Hseen ev d1 ltac:(left) ltac:(lia) H4) as Hl. unfold top in *.
      assert (~ ts ev < (day w now + d1 + 1) * w) as Hl' by lia. rewrite day_lt in Hl'.
      assert (q1 <> 0) by (intros ->; lia). assert (n <= n * q1) by nia. lia.
    - assert (ev ∈ next :: rest) as Hin by (apply (in_bucket d _ ev Hb); split; [left|done]).
      apply elem_of_cons in Hin as [->|Hin]; [lia|]. pose proof (sorted_head _ _ (fi_sorted _ _ _ _ (sh_filed _ _ _ _ Hc) _ _ Hb)) as Hs.
      rewrite Forall_forall in Hs. specialize (Hs ev Hin). unfold before in Hs. rewrite event_less_spec in Hs. lia. }
  split; [done|]. split; [congruence|]. unfold top. rewrite Hday. lia.
Qed.

Lemma seen_next d m b : 0 <= d < n -> seen d m -> m_buckets c !! Z.to_nat (visited d) = Some b -> (forall next, head b = Some next -> top d <= ts next) ->
  seen (d + 1) (match b with [] => m | next :: _ => if key_less (key next) (key m) then next else m end).
Proof using Hn Hc.
  intros Hd Hseen Hb Hhead. pose proof (fi_sorted _ _ _ _ (sh_filed _ _ _ _ Hc) _ _ Hb) as Hsort.
  assert (forall e, e ∈ b -> exists next, head b = Some next /\ event_less e next = false) as Hfront.
  { destruct b as [|next rest]; [intros e He; by apply elem_of_nil in He|]. intros e He. exists next. split; [done|].
    apply elem_of_cons in He as [->|He]; [apply event_less_false; lia|]. pose proof (sorted_head _ _ Hsort) as Hs.
    rewrite Forall_forall in Hs. specialize (Hs e He). unfold before in Hs. rewrite event_less_spec in Hs. apply event_less_false. lia. }
  set (m' := match b with [] => m | next :: _ => if key_less (key next) (key m) then next else m end).
  assert (event_less m m' = false /\ forall next, head b = Some next -> event_less next m' = false) as [Hm Hnext].
  { unfold m'. destruct b as [|next rest]; [split; [apply event_less_false; lia|done]|]. fold (event_less next m). destruct (event_less next m) eqn:E.
    - split; [rewrite event_less_spec in E; apply event_less_false; lia|]. intros x [= ->]. apply event_less_false. lia.
    - split; [apply event_less_false; lia|]. by intros x [= ->]. }
  assert (forall e d', e ∈ ev :: l -> 0 <= d' < d + 1 -> slot n w (ts e) = visited d' -> 0 <= d' < d \/ e ∈ b) as Hsplit.
  { intros e d' He Hd' Hs. destruct (decide (d' = d)) as [->|]; [right; by apply (in_bucket d)|left; lia]. }
  split.
  - intros e d' He Hd' Hs. destruct (Hsplit e d' He Hd' Hs) as [|Hin]; [by eapply se_later|].
    destruct (Hfront e Hin) as (next & Hnx & Hle). specialize (Hhead next Hnx). apply (in_bucket d _ e Hb) in Hin as [_ Hin].
    assert (d' = d) as ->. { destruct (decide (d' = d)); [done|]. apply visited_inj; [lia|done|congruence]. }
    rewrite event_less_false in Hle. lia.
  - unfold m'. destruct b as [|next rest]; [apply Hseen|]. case_match; [right; by apply (in_bucket d _ next Hb); left|apply Hseen].
  - intros e d' He Hd' Hs. destruct (Hsplit e d' He Hd' Hs) as [Hold|Hin].
    + pose proof (se_least _ _ Hseen e d' He Hold Hs) as H. rewrite event_less_false in *. lia.
    + destruct (Hfront e Hin) as (next & Hnx & Hle). specialize (Hnext next Hnx). rewrite event_less_false in *. lia.
Qed.

Lemma least_first m : seen n m -> m = ev.
Proof using Hn Hw Hp Hhor.
  intros [_ Hmin Hle]. destruct (day_visited (ts ev) (event_now ev ltac:(left))) as (d & q & Hd & _ & _ & Hs).
  specialize (Hle ev d ltac:(left) Hd Hs). destruct Hmin as [->|Hin].
  - apply Forall_cons in Hhor as [Hev _]. rewrite event_less_false in Hle. change (ts no_event) with (2 ^ 64 - 1) in Hle. lia.
  - by apply first_only.
Qed.

Lemma search_ok fuel : forall d m, 0 <= d < n -> Z.of_nat fuel = n - d -> seen d m ->
  search fuel (visited d) (top d) m c = Ok (FoundAt ev (slot n w (ts ev)) ((day w (ts ev) + 1) * w)) \/
  search fuel (visited d) (top d) m c = Ok (Least ev).
Proof using Hn Hw Hnow Hc Hp Hlast Hhor.
  pose proof Hc as [E1 E2 _]. induction fuel as [|fuel IH]; intros d m Hd Hf Hseen; [lia|]. cbn [search].
  destruct (bucket_visited d) as (b & -> & Hb). cbn [mbind result_bind].
  assert ((forall next, head b = Some next -> top d <= ts next) ->
    let m' := match b with [] => m | next :: _ => if key_less (key next) (key m) then next else m end in
    let r := i ← modulo (u32 (visited d + 1)) (m_nBuckets c);
             if i =? m_lastBucket c then Ok (Least m') else search fuel i (u64 (top d + m_width c)) m' c in
    r = Ok (FoundAt ev (slot n w (ts ev)) ((day w (ts ev) + 1) * w)) \/ r = Ok (Least ev)) as Hon.
  { intros Hhead m' r. pose proof (seen_next d m b Hd Hseen Hb Hhead) as Hseen'. fold m' in Hseen'. unfold r. clear r.
    unfold modulo. rewrite E1, E2, (proj2 (Z.eqb_neq _ _)) by lia. pose proof (Z.mod_pos_bound (day w now + d) n ltac:(lia)).
    rewrite u32_small by (unfold is_u32, visited in *; lia). rewrite visited_next by lia. cbn [mbind result_bind]. rewrite Hlast.
    replace (visited (d + 1) =? visited 0) with (bool_decide (d + 1 = n)).
    2: { rewrite <- visited_first by lia. case_bool_decide; lia. }
    case_bool_decide as Hend; [right; do 2 f_equal; apply least_first; by rewrite <- Hend|].
    replace (top d + w) with (top (d + 1)) by (unfold top; lia). rewrite u64_small by (apply top_range; lia). apply IH; [lia|lia|done]. }
  destruct b as [|next rest]; [by apply Hon|].
  destruct (Z.ltb_spec (ts next) (top d)) as [Ht|Ht]; [|apply Hon; by intros x [= <-]].
  destruct (found_first d m _ next rest Hd Hseen Hb eq_refl Ht) as (-> & -> & ->). by left.
Qed.
End days.

(** ** Removing the first events *)

(** Times for which the width of a day fits in 32 bits. *)
Definition calendar_horizon : Z := 1431655765.
Definition in_horizon (e : Event) : Prop := ts e < calendar_horizon.

(** Where the calendar of the buckets of [c] is open. *)
Definition opened (n w t : Z) (c : Calendar) : Calendar := set_last (slot n w t) ((day w t + 1) * w) t c.
Record laid (n w now : Z) (c : Calendar) (l : list Event) : Prop := {
  la_shelved : shelved n w c l;
  la_pending : pending now l;
  la_opened : c = opened n w now c;
  la_now : 0 <= now < calendar_horizon;
  la_horizon : Forall in_horizon l
}.

Lemma shelved_last n w c l i t p : shelved n w c l -> shelved n w (set_last i t p c) l.
Proof. by intros [? ? ?]. Qed.
Lemma opened_eq n w t c : m_lastBucket c = slot n w t -> m_bucketTop c = (day w t + 1) * w -> m_lastPrio c = t -> c = opened n w t c.
Proof. destruct c; cbn. by intros -> -> ->. Qed.

Section ops.
Context (n w : Z) (Hn : 1 <= n <= 2 ^ 16) (Hw : 1 <= w < 2 ^ 32).

Lemma pop_ok c ev l i t p : shelved n w c (ev :: l) -> pending (ts ev) l -> NoDup (map uid (ev :: l)) ->
  (forall e, e ∈ ev :: l -> event_less e ev = false) ->
  exists bs, pop_bucket (slot n w (ts ev)) (set_last i t p c) = Ok (set_last i t p (set_buckets bs c)) /\ shelved n w (set_buckets bs c) l.
Proof using Hn Hw.
  intros [E1 E2 Hf] Hp Hu Hleast. pose proof (slot_range n w (ts ev) ltac:(lia)) as Hr.
  destruct (filed_at n w _ _ ev ltac:(lia) Hf) as (b & Hb & Hin); [left|].
  unfold pop_bucket, bucket. cbn [m_buckets set_last]. rewrite Hb. cbn [or_fault mbind result_bind].
  pose proof (fi_sorted _ _ _ _ Hf _ _ Hb) as Hs. destruct b as [|e b]; [by apply elem_of_nil in Hin|].
  assert (e = ev) as ->.
  { apply elem_of_cons in Hin as [->|Hin]; [done|]. pose proof (sorted_head _ _ Hs) as Hh. rewrite Forall_forall in Hh.
    specialize (Hh ev Hin). unfold before in Hh. rewrite Hleast in Hh; [done|]. eapply filed_in; [exact Hf|exact Hb|left]. }
  exists (<[Z.to_nat (slot n w (ts ev)) := b]> (m_buckets c)). split; [done|]. split; [done|done|]. cbn [m_buckets set_buckets].
  assert (without ev (ev :: l) = l) as Hwo.
  { unfold without. rewrite filter_cons, decide_False by tauto. apply without_absent. by apply NoDup_cons in Hu as []. }
  rewrite <- Hwo. apply StronglySorted_inv in Hs as [Hs _]. apply (filed_remove n w _ _ _ (ev :: b)); try done. by rewrite Hwo.
Qed.

Lemma search_all_ok now c ev l : laid n w now c (ev :: l) ->
  search_all c = Ok (FoundAt ev (slot n w (ts ev)) ((day w (ts ev) + 1) * w)) \/ search_all c = Ok (Least ev).
Proof using Hn Hw.
  intros [H1 H2 H3 H4 H5]. unfold search_all. rewrite (sh_n _ _ _ _ H1). unfold calendar_horizon in *.
  assert (slot n w now = visited n w now 0) as Es by (unfold slot, visited; by rewrite Z.add_0_r).
  assert (m_lastBucket c = visited n w now 0) as El by (rewrite H3; cbn; done).
  assert (m_bucketTop c = top w now 0) as Et by (rewrite H3; cbn; unfold top; lia).
  rewrite El, Et. eapply (search_ok n w now Hn Hw); [lia|exact H1|exact H2|exact El| |lia|lia|apply seen_nothing].
  eapply Forall_impl; [exact H5|]. unfold in_horizon, calendar_horizon. intros; lia.
Qed.

Lemma DoRemoveNext_ok now c ev l : laid n w now c (ev :: l) -> exists bs,
  DoRemoveNext c = Ok (ev, opened n w (ts ev) (set_buckets bs c)) /\ laid n w (ts ev) (opened n w (ts ev) (set_buckets bs c)) l.
Proof using Hn Hw.
  intros H. pose proof H as [H1 H2 H3 H4 H5]. pose proof (pending_tail _ _ _ H2) as Hp.
  pose proof (pd_now _ _ H2) as Hts. apply Forall_cons in Hts as [Hts _]. apply Forall_cons in H5 as [Hh5 H5]. unfold in_horizon, calendar_horizon in *.
  destruct (pop_ok c ev l (slot n w (ts ev)) ((day w (ts ev) + 1) * w) (ts ev) H1 Hp (pd_uids _ _ H2)) as (bs & Epop & Hbs).
  { intros e. apply (first_least now ev l H2). }
  exists bs. split; [|split; [by apply shelved_last|done|done|unfold calendar_horizon; lia|done]].
  unfold DoRemoveNext. destruct (search_all_ok now c ev l H) as [-> | ->]; cbn [mbind result_bind].
  - rewrite Epop. done.
  - rewrite (Hash_ok n w Hn Hw) by apply H1. cbn [mbind result_bind]. rewrite (sh_w _ _ _ _ H1), (day_end_ok w Hw) by lia. cbn [mbind result_bind].
    rewrite Epop. done.
Qed.

Lemma take_samples_ok s : forall now c l, laid n w now c (s ++ l) -> exists bs t,
  take_samples (length s) c = Ok (s, opened n w t (set_buckets bs c)) /\ shelved n w (opened n w t (set_buckets bs c)) l.
Proof using Hn Hw.
  induction s as [|ev s IH]; intros now c l H; cbn [length take_samples app] in *.
  - exists (m_buckets c), now. assert (opened n w now (set_buckets (m_buckets c) c) = c) as -> by (rewrite (la_opened _ _ _ _ _ H) at 3; by destruct c).
    split; [done|apply H].
  - destruct (DoRemoveNext_ok now c ev (s ++ l) H) as (bs & -> & H'). cbn [mbind result_bind].
    destruct (IH _ _ _ H') as (bs' & t & -> & H''). exists bs', t. split; [done|]. exact H''.
Qed.
End ops.

(** ** The new width *)

Lemma separation_range limit s : StronglySorted before s -> Forall (fun e => 0 <= ts e < calendar_horizon) s ->
  0 <= separation limit s < calendar_horizon /\ forall e s', s = e :: s' -> separation limit s < calendar_horizon - ts e.
Proof.
  unfold calendar_horizon. induction s as [|cur s IH]; intros Hs Hr; [cbn; split; [lia|done]|].
  apply Forall_cons in Hr as [Hc Hr]. apply StronglySorted_inv in Hs as [Hs Hb]. destruct s as [|next rest]; [cbn; split; [lia|]; intros e s' [= -> _]; lia|].
  destruct (IH Hs Hr) as [IH1 IH2]. specialize (IH2 next rest eq_refl). apply Forall_cons in Hb as [Hb _]. apply Forall_cons in Hr as [Hn _].
  unfold before in Hb. rewrite event_less_spec in Hb.
  assert (separation limit (cur :: next :: rest) = (if u64 (ts next - ts cur) <=? limit then ts next - ts cur else 0) + separation limit (next :: rest)) as ->.
  { change (separation limit (cur :: next :: rest)) with
      (u64 ((if u64 (ts next - ts cur) <=? limit then u64 (ts next - ts cur) else 0) + separation limit (next :: rest))). rewrite (u64_small (ts next - ts cur)) by (unfold is_u64; lia). apply u64_small. unfold is_u64. case_match; lia. }
  split; [case_match; lia|]. intros e s' [= -> _]. case_match; lia.
Qed.

Lemma width_of_ok k s : 2 <= k < 2 ^ 32 -> StronglySorted before s -> Forall (fun e => 0 <= ts e < calendar_horizon) s ->
  exists v, width_of k s = Ok v /\ 1 <= v < 2 ^ 32.
Proof.
  intros Hk Hs Hr. unfold width_of, divide. rewrite (u32_small (k - 1)) by (unfold is_u32; lia). rewrite (proj2 (Z.eqb_neq _ _)) by lia.
  cbn [mbind result_bind]. eexists. split; [done|]. destruct (separation_range (u64 (separation (2 ^ 64 - 1) s / (k - 1) * 2)) s Hs Hr) as [H _].
  unfold calendar_horizon in H. rewrite u64_small by (unfold is_u64; lia). rewrite u32_small by (unfold is_u32; lia). lia.
Qed.

Lemma nSamples_range q : 2 <= q < 2 ^ 32 -> 2 <= nSamples q <= q.
Proof.
  intros Hq. unfold nSamples. destruct (Z.leb_spec q 5); [case_match; lia|]. pose proof (Z.mul_div_le q 10 ltac:(lia)).
  pose proof (Z.div_pos q 10 ltac:(lia) ltac:(lia)). rewrite u32_small by (unfold is_u32; lia).
  assert (q / 10 + 5 <= q) by lia. case_match; lia.
Qed.

(** ** The calendar is a queue *)

Record calendar_of (now : Z) (c : Calendar) (l : list Event) : Prop := {
  co_n : 1 <= m_nBuckets c <= 2 ^ 16;
  co_w : 1 <= m_width c < 2 ^ 32;
  co_laid : laid (m_nBuckets c) (m_width c) now c l;
  co_size : m_qSize c = Z.of_nat (length l);
  co_capacity : Z.of_nat (length l) < 2 ^ 32
}.

Lemma calendar_intro n w now c l : 1 <= n <= 2 ^ 16 -> 1 <= w < 2 ^ 32 -> laid n w now c l -> m_qSize c = Z.of_nat (length l) ->
  Z.of_nat (length l) < 2 ^ 32 -> calendar_of now c l.
Proof. intros Hn Hw H Hq Hl. pose proof (la_shelved _ _ _ _ _ H) as [<- <- _]. by split. Qed.

Lemma Init_ok n w now q : 1 <= n <= 2 ^ 16 -> 1 <= w < 2 ^ 32 -> 0 <= now < calendar_horizon -> exists c, Init n w now q = Ok c /\
  shelved n w c [] /\ c = opened n w now c /\ m_qSize c = q.
Proof.
  unfold calendar_horizon. intros Hn Hw Hnow. unfold Init. rewrite (Hash_ok n w Hn Hw) by done. cbn [mbind result_bind].
  rewrite (day_end_ok w Hw) by lia. cbn [mbind result_bind]. eexists. split; [done|]. split; [|done]. split; [done|done|]. cbn [m_buckets set_last]. split.
  - rewrite length_replicate. lia.
  - intros k b [-> _]%lookup_replicate. constructor.
  - intros k b e [-> _]%lookup_replicate He. by apply elem_of_nil in He.
  - assert (forall k, concat (replicate k ([] : list Event)) = []) as -> by (by induction k). done.
Qed.

Lemma in_horizon_range now l : pending now l -> 0 <= now -> Forall in_horizon l -> Forall (fun e => 0 <= ts e < calendar_horizon) l.
Proof. intros [_ Hp _] Hn Hh. rewrite !Forall_forall in *. intros e He. specialize (Hp e He). specialize (Hh e He). unfold in_horizon in Hh. lia. Qed.

Lemma CalculateNewWidth_ok now c l : calendar_of now c l -> exists v bs, CalculateNewWidth c = Ok (v, set_buckets bs c) /\ 1 <= v < 2 ^ 32 /\
  shelved (m_nBuckets c) (m_width c) (set_buckets bs c) l.
Proof.
  intros [Hn Hw H Hq Hl]. pose proof H as [H1 H2 H3 H4 H5]. unfold CalculateNewWidth. rewrite Hq. destruct (Z.ltb_spec (Z.of_nat (length l)) 2) as [Hsmall|Hbig].
  { exists 1, (m_buckets c). split; [by destruct c|]. split; [lia|]. by destruct c. }
  pose proof (nSamples_range (Z.of_nat (length l)) ltac:(lia)) as Hk. set (k := nSamples (Z.of_nat (length l))) in *.
  assert (length (take (Z.to_nat k) l) = Z.to_nat k) as Hlen by (rewrite length_take; lia).
  destruct (take_samples_ok _ _ Hn Hw (take (Z.to_nat k) l) now c (drop (Z.to_nat k) l)) as (bs & t & E & Hs); [by rewrite take_drop|].
  rewrite Hlen in E. rewrite E. cbn [mbind result_bind].
  destruct (insert_all_ok _ _ Hn Hw (take (Z.to_nat k) l) _ _ Hs) as (bs' & -> & Hs'); [rewrite take_drop; apply H2|]. cbn [mbind result_bind].
  rewrite take_drop in Hs'.
  destruct (width_of_ok k (take (Z.to_nat k) l)) as (v & -> & Hv); [lia| | |].
  { pose proof (pd_sorted _ _ H2) as Hsort. rewrite <- (take_drop (Z.to_nat k) l) in Hsort. by apply StronglySorted_app_1_l in Hsort. }
  { apply Forall_take. eapply in_horizon_range; [exact H2|lia|done]. }
  cbn [mbind result_bind]. exists v, bs'. split; [|split; [done|by destruct Hs']].
  do 2 f_equal.
Qed.

Lemma Resize_ok now c l k : calendar_of now c l -> 1 <= k <= 2 ^ 16 -> exists c', Resize k c = Ok c' /\ calendar_of now c' l.
Proof.
  intros H Hk. pose proof H as [Hn Hw [H1 H2 H3 H4 H5] Hq Hl]. unfold Resize.
  destruct (CalculateNewWidth_ok now c l H) as (v & bs & -> & Hv & Hs). cbn [mbind result_bind]. unfold DoResize.
  assert (m_lastPrio (set_buckets bs c) = now) as -> by (cbn [m_lastPrio set_buckets]; by rewrite H3).
  destruct (Init_ok k v now (m_qSize (set_buckets bs c)) Hk Hv H4) as (c1 & -> & I1 & I2 & I3). cbn [mbind result_bind].
  pose proof (fi_events _ _ _ _ (sh_filed _ _ _ _ Hs)) as Hperm.
  destruct (insert_all_ok k v Hk Hv (concat (m_buckets (set_buckets bs c))) c1 [] I1) as (bs' & -> & I4).
  { rewrite app_nil_r. assert (map uid (concat (m_buckets (set_buckets bs c))) ≡ₚ map uid l) as -> by by apply Permutation_map. apply H2. }
  eexists. split; [done|]. apply (calendar_intro k v); [done|done| |cbn [m_qSize set_buckets]; rewrite I3; exact Hq|done].
  split; [|done| |done|done].
  - destruct I4 as [? ? I4]. split; [done|done|]. eapply filed_perm; [exact I4|]. rewrite app_nil_r. exact Hperm.
  - rewrite I2. done.
Qed.

Lemma ResizeDown_ok now c l : calendar_of now c l -> exists c', ResizeDown c = Ok c' /\ calendar_of now c' l.
Proof.
  intros H. pose proof H as [Hn _ _ Hq _]. unfold ResizeDown. destruct (Z.ltb_spec (m_qSize c) (m_nBuckets c / 2)) as [Hd|]; [|by exists c].
  apply Resize_ok; [done|]. pose proof (Z.mul_div_le (m_nBuckets c) 2 ltac:(lia)). lia.
Qed.
Lemma ResizeUp_ok now c l : calendar_of now c l -> exists c', ResizeUp c = Ok c' /\ calendar_of now c' l.
Proof.
  intros H. pose proof H as [Hn _ _ Hq _]. unfold ResizeUp. rewrite (u32_small (m_nBuckets c * 2)) by (unfold is_u32; lia).
  destruct ((m_qSize c >? m_nBuckets c * 2) && (m_nBuckets c <? 32768)) eqn:E; [|by exists c].
  apply andb_prop in E as [_ E]. apply Resize_ok; [done|lia].
Qed.

Lemma resize_size now c l q : calendar_of now c l -> q = m_qSize c -> calendar_of now (set_qSize q c) l.
Proof. intros H ->. by destruct c. Qed.

Lemma calendar_Insert now c l ev : calendar_of now c l -> now <= ts ev < calendar_horizon -> uid ev ∉ map uid l -> Z.of_nat (length l) < 2 ^ 32 - 1 ->
  exists c', CalendarScheduler.Insert ev c = Ok c' /\ calendar_of now c' (ListScheduler.Insert ev l).
Proof.
  intros [Hn Hw [H1 H2 H3 H4 H5] Hq Hl] Hts Hu Hcap. unfold CalendarScheduler.Insert.
  destruct (DoInsert_ok _ _ Hn Hw c l ev H1) as (bs & -> & Hs); [constructor; [done|apply H2]|]. cbn [mbind result_bind].
  assert (length (ListScheduler.Insert ev l) = S (length l)) as Hlen by apply (Permutation_length (Insert_Permutation ev l)).
  apply ResizeUp_ok. cbn [m_qSize set_buckets]. rewrite Hq, u32_small by (unfold is_u32; lia).
  apply (calendar_intro (m_nBuckets c) (m_width c)); [done|done| |cbn; lia|lia].
  split; [|by apply pending_Insert; [|lia|]| |done|].
  - destruct Hs as [? ? Hs]. split; [done|done|]. eapply filed_perm; [exact Hs|]. symmetry. apply Insert_Permutation.
  - rewrite H3 at 1. done.
  - rewrite Insert_Permutation. constructor; [|done]. unfold in_horizon. lia.
Qed.

Lemma calendar_nonempty now c ev l : calendar_of now c (ev :: l) -> IsEmpty c = false.
Proof. intros H. unfold IsEmpty. rewrite (co_size _ _ _ H). apply Z.eqb_neq. cbn [length]. lia. Qed.

Lemma calendar_RemoveNext now c ev l : calendar_of now c (ev :: l) ->
  exists c', CalendarScheduler.RemoveNext c = Ok (ev, c') /\ calendar_of (ts ev) c' l.
Proof.
  intros H. pose proof H as [Hn Hw Hla Hq Hl]. cbn [length] in *. unfold CalendarScheduler.RemoveNext.
  rewrite (calendar_nonempty now c ev l H). cbn [negb assert mbind result_bind].
  destruct (DoRemoveNext_ok _ _ Hn Hw now c ev l Hla) as (bs & -> & Hla'). cbn [mbind result_bind].
  set (c2 := set_qSize _ _). assert (calendar_of (ts ev) c2 l) as H2.
  { apply (calendar_intro (m_nBuckets c) (m_width c)); [done|done| |unfold c2; cbn [m_qSize set_qSize opened set_last set_buckets]; rewrite Hq, u32_small by (unfold is_u32; lia); lia|lia].
    destruct Hla' as [[? ? ?] ? ? ? ?]. unfold c2. by split. }
  destruct (ResizeDown_ok _ _ _ H2) as (c3 & -> & H3). by exists c3.
Qed.

Lemma calendar_Remove now c l ev : calendar_of now c l -> ev ∈ l -> exists c', CalendarScheduler.Remove ev c = Ok c' /\ calendar_of now c' (without ev l).
Proof.
  intros H Hev. pose proof H as [Hn Hw [H1 H2 H3 H4 H5] Hq Hl]. pose proof H1 as [E1 E2 Hf]. unfold CalendarScheduler.Remove.
  pose proof (without_Permutation l ev (pd_uids _ _ H2) Hev) as Hperm. pose proof (Permutation_length Hperm) as Hlen. cbn [length] in Hlen.
  assert (IsEmpty c = false) as -> by (unfold IsEmpty; rewrite Hq; apply Z.eqb_neq; lia). cbn [negb assert mbind result_bind].
  rewrite (Hash_ok _ _ Hn Hw c _ E1 E2). cbn [mbind result_bind]. pose proof (slot_range (m_nBuckets c) (m_width c) (ts ev) ltac:(lia)).
  destruct (filed_at (m_nBuckets c) _ _ _ ev ltac:(lia) Hf Hev) as (b & Hb & Hin). unfold bucket. rewrite Hb. cbn [or_fault mbind result_bind].
  assert (forall e, e ∈ b -> e ∈ l) as Hsub by (intros e He; eapply filed_in; [exact Hf|exact Hb|exact He]).
  assert (pending now b) as Hpb.
  { split; [by eapply Hf| |].
    - apply Forall_forall. intros e He. pose proof (pd_now _ _ H2) as Hp. rewrite Forall_forall in Hp. by apply Hp, Hsub.
    - pose proof (pd_uids _ _ H2) as Hu. rewrite <- (fi_events _ _ _ _ Hf) in Hu. rewrite <- (take_drop_middle _ _ _ Hb), concat_app, map_app in Hu.
      apply NoDup_app in Hu as (_ & _ & Hu). cbn in Hu. rewrite map_app in Hu. by apply NoDup_app in Hu as (Hu & _ & _). }
  rewrite (list_Remove now) by done. cbn [mbind result_bind].
  set (c2 := set_qSize _ _). assert (calendar_of now c2 (without ev l)) as Hc2.
  { apply (calendar_intro (m_nBuckets c) (m_width c)); [done|done| |unfold c2; cbn; rewrite Hq, u32_small by (unfold is_u32; lia); lia|lia].
    split; [|by apply pending_without|apply opened_eq; unfold c2; cbn; by rewrite H3|done|by apply without_Forall].
    split; [done|done|]. cbn [m_buckets c2 set_qSize put_bucket set_buckets]. apply (filed_remove _ _ _ _ _ b); [done|done| |by apply (pending_without now)|done].
    apply without_Permutation; [apply Hpb|done]. }
  destruct (ResizeDown_ok _ _ _ Hc2) as (c3 & -> & ?). by exists c3.
Qed.

Definition new_calendar : Calendar := mkCalendar [[]; []] 2 1 0 1 0 0.
Lemma MakeCalendarScheduler_ok : MakeCalendarScheduler = Ok new_calendar.
Proof. done. Qed.

#[export] Instance calendar_scheduler : Scheduler Calendar := {|
  new_scheduler := new_calendar;
  Scheduler.Insert := CalendarScheduler.Insert;
  Scheduler.IsEmpty := CalendarScheduler.IsEmpty;
  Scheduler.PeekNext := CalendarScheduler.PeekNext;
  Scheduler.RemoveNext := CalendarScheduler.RemoveNext;
  Scheduler.Remove := CalendarScheduler.Remove |}.

(** The calendar may be open at a day before [now]. *)
#[export] Program Instance calendar_queue : EventQueue Calendar := {|
  represents now c l := pending now l /\ exists p, p <= now /\ calendar_of p c l;
  capacity := 2 ^ 32 - 1;
  horizon := calendar_horizon;
  removable := true |}.
Next Obligation. done. Qed.
Next Obligation. by intros now c l []. Qed.
Next Obligation.
  split; [apply pending_nil|]. exists 0. split; [lia|].
  apply (calendar_intro 2 1); [lia|lia| |done|done]. destruct (Init_ok 2 1 0 0 ltac:(lia) ltac:(lia) ltac:(done)) as (c & E & H1 & H2 & H3).
  injection E as <-. split; [exact H1|apply pending_nil|done|done|constructor].
Qed.
Next Obligation. intros now now' c l (_ & p & Hp & H) Hle Hl. split; [done|]. exists p. split; [lia|done]. Qed.
Next Obligation.
  intros now c l ev (Hl & p & Hp & H) Hts Hu Hc. destruct (calendar_Insert p c l ev H) as (c' & E & H'); [lia|done|done|].
  exists c'. split; [done|]. split; [apply pending_Insert; [done|lia|done]|by exists p].
Qed.
Next Obligation.
  intros now c [|ev l] (_ & p & _ & H); [change (CalendarScheduler.IsEmpty c = true); unfold CalendarScheduler.IsEmpty; by rewrite (co_size _ _ _ H)|].
  by apply (calendar_nonempty p c ev l).
Qed.
Next Obligation.
  intros now c ev l (_ & p & _ & H). cbn. unfold CalendarScheduler.PeekNext. rewrite (calendar_nonempty p c ev l H). cbn [negb assert mbind result_bind].
  destruct H as [Hn Hw H _ _]. destruct (search_all_ok _ _ Hn Hw p c ev l H) as [-> | ->]; done.
Qed.
Next Obligation.
  intros now c ev l (Hl & p & _ & H). destruct (calendar_RemoveNext p c ev l H) as (c' & E & H'). exists c'. split; [done|].
  split; [by eapply pending_tail|]. by exists (ts ev).
Qed.
Next Obligation.
  intros now c l ev _ (Hl & p & Hp & H) Hev. destruct (calendar_Remove p c l ev H Hev) as (c' & E & H'). exists c'. split; [done|].
  split; [by apply pending_without|by exists p].
Qed.

(** ** Results *)

(** (C24) The calendar scheduler, given requests that a user may make, with all times
    below [calendar_horizon], answers each as a sorted list would, [Remove]
    included.  Its searches end within a year, and it never looks for an event
    in a bucket where it is not, however often the number of buckets and the
    width of a day change. *)
Theorem calendar_scheduler_answers rs : legal (S := Calendar) 0 [] rs ->
  exists ans, serve_all (S := Calendar) rs new_scheduler = Ok ans /\ serve_all (S := list Event) rs new_scheduler = Ok ans.
Proof. intros Hrs. apply (same_answers rs 0 (new_scheduler : Calendar) []); [apply represents_new|apply pending_nil|done]. Qed.

Definition event_at (ts uid : Z) : Event := mkEvent uid (mkKey ts uid 0).
Definition example_requests : list request :=
  map (fun p => InsertEvent (event_at p.1 p.2)) [(50, 4); (7, 5); (1000, 6); (7, 7); (20, 8); (300, 9)] ++
  [Next; Withdraw (event_at 20 8); Peek; Next; Next; Next; Next; AskEmpty].

Lemma calendar_scheduler_answers_witness :
  serve_all (S := Calendar) example_requests new_scheduler =
  Ok (replicate 6 Done ++ [Found (event_at 7 5); Done; Found (event_at 7 7); Found (event_at 7 7); Found (event_at 50 4);
    Found (event_at 300 9); Found (event_at 1000 6); Empty true]).
Proof.
  destruct (calendar_scheduler_answers example_requests) as (ans & E1 & E2).
  - unfold example_requests. cbn -[calendar_horizon]. unfold calendar_horizon.
    repeat split; try lia; rewrite ?elem_of_cons, ?elem_of_nil; cbn; intuition (discriminate || lia).
  - rewrite E1. rewrite <- E2. vm_compute. reflexivity.
Defined.

(** Beyond: the width is cut to 32 bits.  With five events [2 ^ 30] nanoseconds
    apart it is [3 * 2 ^ 32], which becomes 0, and the next division by it
    stops the program. *)
Lemma calendar_width_zero :
  serve_all (S := Calendar) (map (fun p => InsertEvent (event_at p.1 p.2)) [(0, 4); (2 ^ 30, 5); (2 ^ 31, 6); (3 * 2 ^ 30, 7); (2 ^ 32, 8)])
    new_scheduler = Fault DivisionByZero.
Proof. vm_compute. reflexivity. Qed.
