(* ===== verification/EventSimulator.v ===== *)
(** * EventSimulator: the simulator's clock and its events

    src/ns-3/src/simulator/default-simulator-impl.cc, event-id.cc and
    event-impl.cc, over any scheduler.  An event's implementation is a number,
    0 for none, that no other event gets; whether it has been cancelled,
    [m_cancel], is in the state.  What an event does is code of the program
    that runs on the simulator, the parameter [Notify].  Times are integers;
    they stay below [2 ^ 63]. *)

From stdpp Require Import gmap sorting.
From S2P Require Import Prelude Scheduler Node.

Module Simulator.
Record EventId := mkEventId { m_eventImpl : Z; m_ts : Z; m_context : Z; m_uid : Z }.
#[export] Instance id_eq_dec : EqDecision EventId.
Proof. solve_decision. Defined.

Record Sim (S : Type) := mkSim {
  m_destroyEvents : list EventId;
  m_stop : bool;
  m_events : option S;
  m_nextUid : Z;
  m_currentUid : Z;
  m_currentTs : Z;
  m_currentContext : Z;
  m_unscheduledEvents : Z;
  cancelled : gset Z
}.
Arguments mkSim {S}.
Arguments m_destroyEvents {S}.
Arguments m_stop {S}.
Arguments m_events {S}.
Arguments m_nextUid {S}.
Arguments m_currentUid {S}.
Arguments m_currentTs {S}.
Arguments m_currentContext {S}.
Arguments m_unscheduledEvents {S}.
Arguments cancelled {S}.

(** What the program sees: events in turn, and whether they are run. *)
Inductive sim_action := Handle (ev : Event) (run : bool) | HandleDestroy (id : EventId) (run : bool).

Section simulator.
Context {S : Type} `{Scheduler S}.
Implicit Types (st : Sim S).

(** [DefaultSimulatorImpl::DefaultSimulatorImpl]; the field called [m_uid] in
    the source is [m_nextUid]. *)
Definition MakeSimulator : Sim S := mkSim [] false None 4 0 0 0xffffffff 0 ∅.

Definition set_destroyEvents l st := mkSim l (m_stop st) (m_events st) (m_nextUid st) (m_currentUid st) (m_currentTs st) (m_currentContext st) (m_unscheduledEvents st) (cancelled st).
Definition set_stop b st := mkSim (m_destroyEvents st) b (m_events st) (m_nextUid st) (m_currentUid st) (m_currentTs st) (m_currentContext st) (m_unscheduledEvents st) (cancelled st).
Definition set_events (q : S) st := mkSim (m_destroyEvents st) (m_stop st) (Some q) (m_nextUid st) (m_currentUid st) (m_currentTs st) (m_currentContext st) (m_unscheduledEvents st) (cancelled st).
Definition set_nextUid n st := mkSim (m_destroyEvents st) (m_stop st) (m_events st) n (m_currentUid st) (m_currentTs st) (m_currentContext st) (m_unscheduledEvents st) (cancelled st).
Definition set_current uid ts context st := mkSim (m_destroyEvents st) (m_stop st) (m_events st) (m_nextUid st) uid ts context (m_unscheduledEvents st) (cancelled st).
Definition set_unscheduled n st := mkSim (m_destroyEvents st) (m_stop st) (m_events st) (m_nextUid st) (m_currentUid st) (m_currentTs st) (m_currentContext st) n (cancelled st).
(** [EventImpl::Cancel] *)
Definition cancel_impl (impl : Z) st := mkSim (m_destroyEvents st) (m_stop st) (m_events st) (m_nextUid st) (m_currentUid st) (m_currentTs st) (m_currentContext st) (m_unscheduledEvents st) ({[ impl ]} ∪ cancelled st).

Notation M := (handler (Sim S) sim_action).
Context (Notify : Z -> M unit).

Definition IsCancelled (impl : Z) st : bool := bool_decide (impl ∈ cancelled st).
(** [EventImpl::Invoke] *)
Definition Invoke (impl : Z) : M unit := st ← get; if IsCancelled impl st then mret tt else Notify impl.

Definition events : M S := st ← get; lift (m_events st ?? NullDeref).

(** ** Asking *)

Definition Now st : Z := m_currentTs st.
Definition GetContext st : Z := m_currentContext st.
Definition GetSystemId : Z := 0.
Definition GetMaximumSimulationTime : Z := 0x7fffffffffffffff.
Definition IsFinished st : result bool := q ← m_events st ?? NullDeref; Ok (IsEmpty q || m_stop st).
Definition NextTs st : result Z :=
  q ← m_events st ?? NullDeref;
  _ ← assert (negb (IsEmpty q));
  ev ← PeekNext q; Ok (ts ev).
Definition Next st : result Z := NextTs st.

Definition IsExpired (id : EventId) st : bool :=
  if m_uid id =? 2 then
    if (m_eventImpl id =? 0) || IsCancelled (m_eventImpl id) st then true
    else negb (bool_decide (id ∈ m_destroyEvents st))
  else (m_eventImpl id =? 0) || (m_ts id <? m_currentTs st) ||
       ((m_ts id =? m_currentTs st) && (m_uid id <=? m_currentUid st)) || IsCancelled (m_eventImpl id) st.
Definition GetDelayLeft (id : EventId) st : Z := if IsExpired id st then 0 else u64 (m_ts id - m_currentTs st).

(** ** Scheduling *)

(** The lines [Schedule], [ScheduleWithContext] and [ScheduleNow] share. *)
Definition insert_new (ts context : Z) (event : Z) : M EventId :=
  st ← get;
  let uid := m_nextUid st in
  _ ← modify (set_nextUid (u32 (uid + 1)));
  _ ← modify (fun st => set_unscheduled (m_unscheduledEvents st + 1) st);
  q ← events;
  q ← lift (Insert (mkEvent event (mkKey ts uid context)) q);
  _ ← modify (set_events q);
  mret (mkEventId event ts context uid).

Definition Schedule (time : Time) (event : Z) : M EventId :=
  st ← get;
  let tAbsolute := time + m_currentTs st in
  _ ← lift (assert (0 <=? tAbsolute));
  _ ← lift (assert (m_currentTs st <=? tAbsolute));
  insert_new (u64 tAbsolute) (GetContext st) event.
(** There is no check of the time here. *)
Definition ScheduleWithContext (context : Z) (time : Time) (event : Z) : M unit :=
  st ← get; _ ← insert_new (u64 (m_currentTs st + time)) context event; mret tt.
Definition ScheduleNow (event : Z) : M EventId :=
  st ← get; insert_new (m_currentTs st) (GetContext st) event.
Definition ScheduleDestroy (event : Z) : M EventId :=
  st ← get;
  let id := mkEventId event (m_currentTs st) 0xffffffff 2 in
  _ ← modify (fun st => set_destroyEvents (m_destroyEvents st ++ [id]) st);
  _ ← modify (fun st => set_nextUid (u32 (m_nextUid st + 1)) st);
  mret id.

(** ** Taking back *)

(** The first of the list that equals [id] is erased. *)
Fixpoint erase_id (id : EventId) (l : list EventId) : list EventId :=
  match l with [] => [] | i :: l => if bool_decide (i = id) then l else i :: erase_id id l end.
Definition event_of (id : EventId) : Event := mkEvent (m_eventImpl id) (mkKey (m_ts id) (m_uid id) (m_context id)).

Definition Remove (id : EventId) : M unit :=
  if m_uid id =? 2 then modify (fun st => set_destroyEvents (erase_id id (m_destroyEvents st)) st)
  else
    st ← get;
    if IsExpired id st then mret tt
    else
      q ← events;
      q ← lift (Scheduler.Remove (event_of id) q);
      _ ← modify (set_events q);
      _ ← modify (cancel_impl (m_eventImpl id));
      modify (fun st => set_unscheduled (m_unscheduledEvents st - 1) st).
Definition Cancel (id : EventId) : M unit :=
  st ← get; if IsExpired id st then mret tt else modify (cancel_impl (m_eventImpl id)).

(** ** Running *)

Definition ProcessOneEvent : M unit :=
  q ← events;
  '(next, q) ← lift (RemoveNext q);
  _ ← modify (set_events q);
  st ← get;
  _ ← lift (assert (m_currentTs st <=? ts next));
  _ ← modify (fun st => set_unscheduled (m_unscheduledEvents st - 1) st);
  _ ← modify (set_current (uid next) (ts next) (Scheduler.m_context (key next)));
  _ ← emit (Handle next (negb (IsCancelled (impl next) st)));
  Invoke (impl next).
Definition RunOneEvent : M unit := ProcessOneEvent.

(** At most [fuel] events; the result tells whether the loop came to its end. *)
Fixpoint Run_loop (fuel : nat) : M bool :=
  q ← events;
  st ← get;
  if IsEmpty q || m_stop st then mret true
  else match fuel with
    | O => mret false
    | Datatypes.S fuel => _ ← ProcessOneEvent; Run_loop fuel
    end.
Definition Run (fuel : nat) : M bool :=
  _ ← modify (set_stop false);
  finished ← Run_loop fuel;
  if negb finished then mret false
  else
    q ← events;
    st ← get;
    _ ← lift (assert (negb (IsEmpty q) || (m_unscheduledEvents st =? 0)));
    mret true.
Definition Stop : M unit := modify (set_stop true).
(** [Stop (time)]: [stop] is the implementation of the event that calls
    [Stop]. *)
Definition StopAt (time : Time) (stop : Z) : M unit := _ ← Schedule time stop; mret tt.

Fixpoint Destroy_loop (fuel : nat) : M bool :=
  st ← get;
  match m_destroyEvents st with
  | [] => mret true
  | id :: l =>
      match fuel with
      | O => mret false
      | Datatypes.S fuel =>
          _ ← modify (set_destroyEvents l);
          let run := negb (IsCancelled (m_eventImpl id) st) in
          _ ← emit (HandleDestroy id run);
          _ ← (if run then Invoke (m_eventImpl id) else mret tt);
          Destroy_loop fuel
      end
  end.
Definition Destroy (fuel : nat) : M bool := Destroy_loop fuel.

(** [DoDispose]: the queue is emptied, a round for each event, and dropped. *)
Fixpoint discard (rounds : nat) (q : S) : result unit :=
  if IsEmpty q then Ok tt
  else match rounds with O => Fault Diverges | Datatypes.S rounds => '(_, q) ← RemoveNext q; discard rounds q end.
Definition DoDispose st : result (Sim S) :=
  q ← m_events st ?? NullDeref;
  _ ← discard (Z.to_nat (m_unscheduledEvents st)) q;
  Ok (mkSim (m_destroyEvents st) (m_stop st) None (m_nextUid st) (m_currentUid st) (m_currentTs st) (m_currentContext st)
    (m_unscheduledEvents st) (cancelled st)).
End simulator.

(** ** Changing the scheduler *)

(** The events of [q] in the order in which they come, inserted into [q']; a
    round for each of them. *)
Fixpoint transfer {S S'} `{Scheduler S} `{Scheduler S'} (rounds : nat) (q : S) (q' : S') : result S' :=
  if IsEmpty q then Ok q'
  else match rounds with
    | O => Fault Diverges
    | Datatypes.S rounds => '(next, q) ← RemoveNext q; q' ← Insert next q'; transfer rounds q q'
    end.
Definition SetScheduler {S S'} `{Scheduler S} `{Scheduler S'} (st : Sim S) : result (Sim S') :=
  q ← match m_events st with
      | Some q => transfer (Z.to_nat (m_unscheduledEvents st)) q new_scheduler
      | None => Ok new_scheduler
      end;
  Ok (mkSim (m_destroyEvents st) (m_stop st) (Some q) (m_nextUid st) (m_currentUid st) (m_currentTs st) (m_currentContext st)
    (m_unscheduledEvents st) (cancelled st)).
End Simulator.
