(* ===== verification/EventSimulatorSpec.v ===== *)
(** * EventSimulatorSpec: events run in order, once, and none is lost

    The simulator of EventSimulator over any scheduler with the contract
    [EventQueue].  A program is what its events do, calls of the simulator's
    functions; an invariant of the program says that they are calls it may
    make. *)

From stdpp Require Import gmap sorting.
From S2P Require Import Prelude Node Scheduler HeapScheduler CalendarScheduler EventSimulator.
Import Simulator.

(** ** The state of a simulator *)

Section state.
Context {S : Type} {HS : Scheduler S} {HQ : EventQueue S}.
Implicit Types (st : Sim S) (l : list Event) (ev : Event) (id : EventId).

(** The events of [l] are pending: later than the one that runs. *)
Record sim_ok st l : Prop := {
  so_events : exists q, m_events st = Some q /\ represents (m_currentTs st) q l;
  so_uids : Forall (fun ev => 4 <= uid ev < m_nextUid st) l;
  so_future : Forall (fun ev => ts ev = m_currentTs st -> m_currentUid st < uid ev) l;
  so_next : 4 <= m_nextUid st < 2 ^ 32;
  so_current : m_currentUid st < m_nextUid st;
  so_count : m_unscheduledEvents st = Z.of_nat (length l);
  so_time : 0 <= m_currentTs st < horizon
}.

(** Its turn has come. *)
Definition past st ev : Prop := ts ev < m_currentTs st \/ (ts ev = m_currentTs st /\ uid ev <= m_currentUid st).
(** Handed out for an event that is pending, past or cancelled. *)
Definition issued st l id : Prop := event_of id ∈ l \/ past st (event_of id) \/ m_eventImpl id ∈ cancelled st.

Lemma sim_pending st l : sim_ok st l -> pending (m_currentTs st) l.
Proof. intros [(q & _ & Hq) _ _ _ _ _ _]. by eapply represents_pending. Qed.

Lemma pending_not_past st l ev : sim_ok st l -> ev ∈ l -> ~ past st ev.
Proof.
  intros Hok Hev Hp. pose proof (pd_now _ _ (sim_pending _ _ Hok)) as H1. pose proof (so_future _ _ Hok) as H2.
  rewrite Forall_forall in H1, H2. specialize (H1 ev Hev). specialize (H2 ev Hev). cbn in H1. unfold past in Hp. lia.
Qed.

Lemma IsExpired_past st id : m_uid id <> 2 -> m_eventImpl id <> 0 ->
  IsExpired id st = false <-> ~ past st (event_of id) /\ m_eventImpl id ∉ cancelled st.
Proof.
  intros H2 H0. unfold IsExpired, IsCancelled, past. rewrite (proj2 (Z.eqb_neq _ 2)), (proj2 (Z.eqb_neq _ 0)) by done.
  change (ts (event_of id)) with (m_ts id). change (uid (event_of id)) with (m_uid id).
  case_bool_decide as Hc; cbn [orb]; [rewrite orb_true_r; intuition discriminate|]. rewrite orb_false_r.
  destruct (Z.ltb_spec (m_ts id) (m_currentTs st)), (Z.eqb_spec (m_ts id) (m_currentTs st)), (Z.leb_spec (m_uid id) (m_currentUid st)); cbn; intuition (discriminate || lia).
Qed.

(** ** Calls *)

Inductive call :=
| CallSchedule (time : Time) (event : Z)
| CallScheduleWithContext (context : Z) (time : Time) (event : Z)
| CallScheduleNow (event : Z)
| CallScheduleDestroy (event : Z)
| CallRemove (id : EventId)
| CallCancel (id : EventId)
| CallStop.

Definition perform (c : call) : handler (Sim S) sim_action unit :=
  match c with
  | CallSchedule time event => _ ← Schedule time event; mret tt
  | CallScheduleWithContext context time event => ScheduleWithContext context time event
  | CallScheduleNow event => _ ← ScheduleNow event; mret tt
  | CallScheduleDestroy event => _ ← ScheduleDestroy event; mret tt
  | CallRemove id => Remove id
  | CallCancel id => Cancel id
  | CallStop => Stop
  end.

(** There is a uid, and a place in the queue, for one more. *)
Definition room st l : Prop := m_nextUid st < 2 ^ 32 - 1 /\ Z.of_nat (length l) < capacity.
Definition may st l (c : call) : Prop :=
  match c with
  | CallSchedule time _ | CallScheduleWithContext _ time _ => 0 <= time /\ m_currentTs st + time < horizon /\ room st l
  | CallScheduleNow _ => room st l
  | CallScheduleDestroy _ => m_nextUid st < 2 ^ 32 - 1
  | CallRemove id => m_uid id = 2 \/ (removable = true /\ m_eventImpl id <> 0 /\ issued st l id)
  | CallCancel _ | CallStop => True
  end.
Definition new_event st (time context event : Z) : Event := mkEvent event (mkKey (m_currentTs st + time) (m_nextUid st) context).
(** What is pending after the call. *)
Definition after st l (c : call) : list Event :=
  match c with
  | CallSchedule time event => ListScheduler.Insert (new_event st time (m_currentContext st) event) l
  | CallScheduleWithContext context time event => ListScheduler.Insert (new_event st time context event) l
  | CallScheduleNow event => ListScheduler.Insert (new_event st 0 (m_currentContext st) event) l
  | CallRemove id => if (m_uid id =? 2) || IsExpired id st then l else without (event_of id) l
  | _ => l
  end.

(** What no call changes: the clock; cancelled events stay so. *)
Record advances st st' : Prop := {
  ad_ts : m_currentTs st' = m_currentTs st;
  ad_uid : m_currentUid st' = m_currentUid st;
  ad_cancelled : cancelled st ⊆ cancelled st'
}.
Lemma advances_refl st : advances st st.
Proof. done. Qed.
Lemma advances_trans st1 st2 st3 : advances st1 st2 -> advances st2 st3 -> advances st1 st3.
Proof. intros [? ? ?] [? ? ?]. split; [congruence|congruence|by etransitivity]. Qed.

Lemma insert_new_ok st l time context event : sim_ok st l -> 0 <= time -> m_currentTs st + time < horizon -> room st l ->
  let ev := new_event st time context event in exists st',
  insert_new (ts ev) context event st = Ok (mkEventId event (ts ev) context (m_nextUid st), st', []) /\
  sim_ok st' (ListScheduler.Insert ev l) /\ advances st st'.
Proof.
  intros Hok Ht Hh [Hu Hcap] ev. pose proof Hok as [(q & Eq & Hq) H1 H2 H3 H4 H5 H6].
  assert (uid ev ∉ map uid l) as Hnew.
  { intros (e & E & He)%list_elem_of_fmap. rewrite Forall_forall in H1. specialize (H1 e He). change (uid ev) with (m_nextUid st) in E. lia. }
  destruct (represents_Insert (m_currentTs st) q l ev Hq) as (q' & Eq' & Hq'); [change (ts ev) with (m_currentTs st + time); lia|done|done|].
  pose proof (Insert_Permutation ev l) as Hp.
  eexists. split.
  - unfold insert_new, events. hstep. rewrite Eq. hstep. unfold ev, new_event in Eq'. rewrite Eq'. hstep. reflexivity.
  - rewrite (u32_small (m_nextUid st + 1)) by (unfold is_u32; lia). split; [|done]. split; cbn; [by exists q'| | |lia|lia| |done].
    + rewrite Hp. constructor; [change (uid ev) with (m_nextUid st); lia|]. eapply Forall_impl; [exact H1|]. cbn. intros; lia.
    + rewrite Hp. constructor; [intros _; change (uid ev) with (m_nextUid st); lia|done].
    + rewrite (Permutation_length Hp). cbn [length]. lia.
Qed.

Lemma Remove_ok st l id : sim_ok st l -> may st l (CallRemove id) ->
  exists st', Remove id st = Ok (tt, st', []) /\ sim_ok st' (after st l (CallRemove id)) /\ advances st st' /\
    (event_of id ∈ l -> IsExpired id st = false -> m_uid id <> 2 -> m_eventImpl id ∈ cancelled st').
Proof.
  intros Hok Hmay. pose proof Hok as [(q & Eq & Hq) H1 H2 H3 H4 H5 H6]. unfold Remove. cbn [after may] in *.
  destruct (Z.eqb_spec (m_uid id) 2) as [E2|E2]; cbn [orb].
  { eexists. split; [reflexivity|]. split; [split; [by exists q|done..]|done]. }
  destruct Hmay as [|(Hr & H0 & Hiss)]; [done|]. unfold mbind, handler_bind, get. cbn.
  destruct (IsExpired id st) eqn:Ex; [eexists; split; [reflexivity|]; split; [done|done]|].
  pose proof Ex as Ex'. apply IsExpired_past in Ex' as [Hnp Hnc]; [|done|done].
  assert (event_of id ∈ l) as Hin by (destruct Hiss as [|[|]]; done).
  destruct (represents_Remove (m_currentTs st) q l (event_of id) Hr Hq Hin) as (q' & Eq' & Hq').
  pose proof (without_Permutation l _ (pd_uids _ _ (sim_pending _ _ Hok)) Hin) as Hp. apply Permutation_length in Hp. cbn [length] in Hp.
  eexists. split; [|split; [|split]].
  - unfold events. hstep. rewrite Eq. hstep. rewrite Eq'. hstep. reflexivity.
  - split; cbn; [by exists q'|by apply without_Forall|by apply without_Forall|done|done|lia|done].
  - split; [done|done|]. cbn. set_solver.
  - intros _ _ _. cbn. set_solver.
Qed.

Lemma perform_ok st l c : sim_ok st l -> may st l c -> exists st', perform c st = Ok (tt, st', []) /\ sim_ok st' (after st l c) /\ advances st st' /\
  (forall ev, ev ∈ l -> ev ∈ after st l c \/ impl ev ∈ cancelled st').
Proof.
  intros Hok Hmay. pose proof Hok as [(q & Eq & Hq) H1 H2 H3 H4 H5 H6]. pose proof (horizon_u64 (S := S)) as Hu64.
  assert (forall ev e, e ∈ l -> e ∈ ListScheduler.Insert ev l) as Hkeep by (intros ev e He; rewrite Insert_Permutation; by right).
  destruct c as [t e|x t e|e|e|id|id|]; cbn [perform may after] in *.
  - destruct Hmay as (Ht & Hh & Hroom). destruct (insert_new_ok st l t (m_currentContext st) e Hok Ht Hh Hroom) as (st' & E & Hok' & Ha).
    exists st'. split; [|split; [done|split; [done|by intros ev Hev; left; apply Hkeep]]].
    unfold Schedule. hstep. rewrite !(proj2 (Z.leb_le _ _)) by lia. cbn. rewrite u64_small by (unfold is_u64; lia).
    change (ts (new_event st t (m_currentContext st) e)) with (m_currentTs st + t) in E. rewrite (Z.add_comm t). unfold GetContext. by rewrite E.
  - destruct Hmay as (Ht & Hh & Hroom). destruct (insert_new_ok st l t x e Hok Ht Hh Hroom) as (st' & E & Hok' & Ha).
    exists st'. split; [|split; [done|split; [done|by intros ev Hev; left; apply Hkeep]]].
    unfold ScheduleWithContext. hstep. rewrite u64_small by (unfold is_u64; lia).
    change (ts (new_event st t x e)) with (m_currentTs st + t) in E. by rewrite E.
  - destruct (insert_new_ok st l 0 (m_currentContext st) e Hok ltac:(lia) ltac:(lia) Hmay) as (st' & E & Hok' & Ha).
    exists st'. split; [|split; [done|split; [done|by intros ev Hev; left; apply Hkeep]]].
    unfold ScheduleNow. hstep. change (ts (new_event st 0 (m_currentContext st) e)) with (m_currentTs st + 0) in E. rewrite Z.add_0_r in E.
    unfold GetContext. by rewrite E.
  - eexists. split; [unfold ScheduleDestroy; hstep; rewrite u32_small by (unfold is_u32; lia); reflexivity|]. split; [|split; [done|by left]].
    split; cbn; [by exists q| |done|lia|lia|done|done]. eapply Forall_impl; [exact H1|]. cbn. intros; lia.
  - destruct (Remove_ok st l id Hok Hmay) as (st' & E & Hok' & Ha & Hc). cbn [after] in Hok'. exists st'. split; [done|]. split; [done|]. split; [done|].
    intros ev Hev. destruct ((m_uid id =? 2) || IsExpired id st) eqn:Ex; [by left|]. apply orb_false_iff in Ex as [E2 Ex].
    destruct (decide (uid ev = uid (event_of id))) as [Hu|Hu]; [right|left; by apply list_elem_of_filter].
    destruct Hmay as [|(Hr & H0 & Hiss)]; [lia|]. assert (event_of id ∈ l) as Hin.
    { apply IsExpired_past in Ex as [? ?]; [|lia|done]. destruct Hiss as [|[|]]; done. }
    assert (ev = event_of id) as -> by (by apply (uid_inj l); [apply (sim_pending _ _ Hok)|..]). apply Hc; [done|done|lia].
  - unfold Cancel. unfold mbind, handler_bind, get. cbn. destruct (IsExpired id st); (eexists; split; [reflexivity|]; split; [split; [by exists q|done..]|]).
    + split; [done|by left].
    + split; [split; [done|done|cbn; set_solver]|by left].
  - eexists. split; [reflexivity|]. split; [split; [by exists q|done..]|]. split; [done|by left].
Qed.
End state.

(** ** Programs *)

Section program.
Context {S : Type} {HS : Scheduler S} {HQ : EventQueue S}.
Implicit Types (st : Sim S) (l : list Event) (ev : Event) (id : EventId).

(** A sequence of calls that may be made. *)
Inductive calls : Sim S -> list Event -> Sim S -> list Event -> Prop :=
| calls_none st l : calls st l st l
| calls_more st l c st1 st2 l2 : may st l c -> perform c st = Ok (tt, st1, []) -> calls st1 (after st l c) st2 l2 -> calls st l st2 l2.

(** An event whose turn it is has been taken from the queue, which is [q] now. *)
Definition taken ev (q : S) st : Sim S :=
  set_current (uid ev) (ts ev) (Scheduler.m_context (key ev)) (set_unscheduled (m_unscheduledEvents st - 1) (set_events q st)).

Lemma issued_advances st st' l l' id : (forall ev, ev ∈ l -> ev ∈ l' \/ impl ev ∈ cancelled st') -> advances st st' -> issued st l id -> issued st' l' id.
Proof.
  intros Hl [E1 E2 Hc] [Hin|[Hp|Hcan]].
  - destruct (Hl _ Hin); [by left|by right; right].
  - right. left. unfold past in *. by rewrite E1, E2.
  - right. right. by apply Hc.
Qed.

Lemma calls_ok st l st' l' : calls st l st' l' -> sim_ok st l -> sim_ok st' l' /\ advances st st' /\
  (forall ev, ev ∈ l -> ev ∈ l' \/ impl ev ∈ cancelled st').
Proof.
  induction 1 as [st l|st l c st1 st2 l2 Hmay E Hcalls IH]; intros Hok; [split; [done|split; [done|by left]]|].
  destruct (perform_ok st l c Hok Hmay) as (st1' & E' & Hok1 & Ha1 & Hl1). rewrite E in E'. injection E' as <-.
  destruct (IH Hok1) as (Hok2 & Ha2 & Hl2). split; [done|]. split; [by eapply advances_trans|]. intros ev Hev.
  destruct (Hl1 ev Hev) as [Hin|Hc]; [by apply Hl2|right; by apply (ad_cancelled _ _ Ha2)].
Qed.

(** Where the clock stands: the last event was no later. *)
Definition reached st ev : Prop := ts ev < m_currentTs st \/ (ts ev = m_currentTs st /\ uid ev = m_currentUid st).

Lemma head_pending st ev l q : sim_ok st (ev :: l) -> represents (ts ev) q l -> ts ev < horizon -> sim_ok (taken ev q st) l.
Proof.
  intros Hok Hq Hts. pose proof (sim_pending _ _ Hok) as Hp. destruct Hok as [_ H1 _ H3 _ H5 H6]. apply Forall_cons in H1 as [H1 H1'].
  pose proof (pd_now _ _ Hp) as Hnow. apply Forall_cons in Hnow as [Hnow _]. split; cbn; [by exists q|done| |done|lia|cbn [length] in H5; lia|cbn in Hnow; lia].
  eapply Forall_impl; [apply sorted_head, (pd_sorted _ _ Hp)|]. intros e He. unfold before in He. rewrite event_less_spec in He. lia.
Qed.

(** Times in the queue stay below the horizon. *)
Definition on_time l : Prop := Forall (fun ev => ts ev < horizon) l.

Lemma may_on_time st l c : on_time l -> sim_ok st l -> may st l c -> on_time (after st l c).
Proof.
  intros Hl Hok Hmay. unfold on_time. assert (forall t x e, m_currentTs st + t < horizon -> Forall (fun ev => ts ev < horizon) (ListScheduler.Insert (new_event st t x e) l)) as Hins.
  { intros t x e Ht. rewrite Insert_Permutation. by constructor. }
  destruct c; cbn [after may] in *; [apply Hins; tauto|apply Hins; tauto| |done| |done|done].
  - apply Hins. pose proof (so_time _ _ Hok). lia.
  - case_match; [done|]. by apply without_Forall.
Qed.
Lemma calls_on_time st l st' l' : calls st l st' l' -> sim_ok st l -> on_time l -> on_time l'.
Proof.
  induction 1 as [st l|st l c st1 st2 l2 Hmay E Hcalls IH]; intros Hok Hl; [done|].
  destruct (perform_ok st l c Hok Hmay) as (st1' & E' & Hok1 & _). rewrite E in E'. injection E' as <-. apply IH; [done|]. by eapply may_on_time.
Qed.

Context (Notify : Z -> handler (Sim S) sim_action unit).

(** [I] is an invariant of the program: where it holds, the first event calls
    only what it may, and it holds again. *)
Definition program_inv (I : Sim S -> list Event -> Prop) : Prop := forall st ev q l, I st (ev :: l) -> sim_ok (taken ev q st) l ->
  exists st' l', Invoke Notify (impl ev) (taken ev q st) = Ok (tt, st', []) /\ calls (taken ev q st) l st' l' /\ I st' l'.

(** One event: it is handled, and runs unless it was cancelled. *)
Lemma process_ok (P : Sim S -> list Event -> Prop) st ev l : sim_ok st (ev :: l) -> on_time (ev :: l) ->
  (forall q, sim_ok (taken ev q st) l -> exists st' l', Invoke Notify (impl ev) (taken ev q st) = Ok (tt, st', []) /\ calls (taken ev q st) l st' l' /\ P st' l') ->
  exists st' l' q, ProcessOneEvent Notify st = Ok (tt, st', [Handle ev (bool_decide (impl ev ∉ cancelled st))]) /\
  sim_ok st' l' /\ on_time l' /\ P st' l' /\ calls (taken ev q st) l st' l' /\ sim_ok (taken ev q st) l.
Proof.
  intros Hok Ht HP. pose proof Hok as [(q & Eq & Hq) H1 H2 H3 H4 H5 H6]. apply Forall_cons in Ht as [Hts Ht].
  pose proof (pd_now _ _ (sim_pending _ _ Hok)) as Hnow. apply Forall_cons in Hnow as [Hnow _]. cbn in Hnow.
  destruct (represents_RemoveNext _ q ev l Hq) as (q' & Eq' & Hq'). pose proof (head_pending st ev l q' Hok Hq' Hts) as Htak.
  destruct (HP q' Htak) as (st' & l' & E & Hcalls & Hi'). exists st', l', q'.
  destruct (calls_ok _ _ _ _ Hcalls Htak) as (Hok' & _ & _). split; [|split; [done|split; [by eapply calls_on_time|done]]].
  unfold ProcessOneEvent, events. hstep. rewrite Eq. hstep. rewrite Eq'. hstep. rewrite (proj2 (Z.leb_le _ _)) by done. hstep.
  unfold taken in E. cbn in E. unfold set_current, set_unscheduled, set_events in E |- *. cbn in E |- *. rewrite E. cbn.
  do 3 f_equal. unfold IsCancelled. by rewrite bool_decide_not.
Qed.

(** ** Runs *)

Definition handled (out : list sim_action) : list Event := omap (fun a => match a with Handle ev _ => Some ev | _ => None end) out.

(** What is known of a run from [st] to [st'], in which [out] was done. *)
Record ran st l st' l' (out : list sim_action) : Prop := {
  rn_ok : sim_ok st' l';
  rn_order : StronglySorted before (handled out);
  rn_new : Forall (fun ev => ~ past st ev) (handled out);
  rn_done : Forall (past st') (handled out);
  rn_past ev : past st ev -> past st' ev;
  rn_cancelled : cancelled st ⊆ cancelled st';
  rn_kept ev : ev ∈ l -> ev ∈ handled out \/ ev ∈ l' \/ impl ev ∈ cancelled st';
  rn_skipped ev : Handle ev false ∈ out -> impl ev ∈ cancelled st'
}.

Lemma ran_none st l : sim_ok st l -> ran st l st l [].
Proof. intros Hok. split; [done|constructor..|done|done|by right; left|]. intros ev Hev. by apply elem_of_nil in Hev. Qed.

Lemma ran_more st ev l q st1 l1 st2 l2 out : sim_ok st (ev :: l) -> sim_ok (taken ev q st) l -> calls (taken ev q st) l st1 l1 ->
  ran st1 l1 st2 l2 out -> ran st (ev :: l) st2 l2 (Handle ev (bool_decide (impl ev ∉ cancelled st)) :: out).
Proof.
  intros Hok Htak Hcalls [R1 R2 R3 R4 R5 R6 R7 R8]. destruct (calls_ok _ _ _ _ Hcalls Htak) as (Hok1 & [A1 A2 A3] & Hl1). cbn in A1, A2, A3.
  assert (forall e, past st1 e <-> ts e < ts ev \/ (ts e = ts ev /\ uid e <= uid ev)) as Hpast1 by (intros e; unfold past; by rewrite A1, A2).
  assert (~ past st ev) as Hev by (by apply (pending_not_past st (ev :: l)); [|left]).
  assert (forall e, past st e -> past st1 e) as Hmono by (intros e He; apply Hpast1; unfold past in He, Hev; lia).
  cbn [handled omap list_omap]. fold (handled out). split; [done| | | | | | |].
  - constructor; [done|]. eapply Forall_impl; [exact R3|]. intros e He. cbn beta in He. rewrite Hpast1 in He. unfold before. apply event_less_spec. lia.
  - constructor; [done|]. eapply Forall_impl; [exact R3|]. cbn. auto.
  - constructor; [|done]. apply R5, Hpast1. lia.
  - auto.
  - by etransitivity.
  - intros e [->|He]%elem_of_cons; [left; left|]. destruct (Hl1 e He) as [Hin|Hc].
    + destruct (R7 e Hin) as [|[|]]; [left; by right|by right; left|by right; right].
    + right. right. by apply R6.
  - intros e [E|He]%elem_of_cons; [|by apply R8]. injection E as -> E. symmetry in E. apply bool_decide_eq_false in E. apply R6, A3. apply dec_stable. tauto.
Qed.

Lemma loop_ok I : program_inv I -> forall fuel st l, I st l -> sim_ok st l -> on_time l -> exists finished st' l' out,
  Run_loop Notify fuel st = Ok (finished, st', out) /\ ran st l st' l' out /\ I st' l' /\ on_time l' /\
  (finished = true <-> l' = [] \/ m_stop st' = true).
Proof.
  intros HI fuel. induction fuel as [|fuel IH]; intros st l Hi Hok Ht; pose proof Hok as [(q & Eq & Hq) _ _ _ _ _ _].
  - exists (IsEmpty q || m_stop st), st, l, []. split; [|split; [by apply ran_none|split; [done|split; [done|]]]].
    + cbn [Run_loop]. unfold events. hstep. rewrite Eq. hstep. by destruct (IsEmpty q || m_stop st).
    + rewrite (represents_IsEmpty _ _ _ Hq), orb_true_iff, bool_decide_eq_true. done.
  - destruct (IsEmpty q || m_stop st) eqn:E.
    + exists true, st, l, []. split; [|split; [by apply ran_none|split; [done|split; [done|]]]].
      * cbn [Run_loop]. unfold events. hstep. rewrite Eq. hstep. by rewrite E.
      * rewrite (represents_IsEmpty _ _ _ Hq), orb_true_iff, bool_decide_eq_true in E. done.
    + destruct l as [|ev l].
      { rewrite (represents_IsEmpty _ _ _ Hq) in E. done. }
      destruct (process_ok I st ev l Hok Ht (fun q => HI st ev q l Hi)) as (st1 & l1 & q1 & E1 & Hok1 & Ht1 & Hi1 & Hcalls & Htak).
      destruct (IH st1 l1 Hi1 Hok1 Ht1) as (fin & st2 & l2 & out & E2 & Hran & Hi2 & Ht2 & Hfin).
      exists fin, st2, l2, (Handle ev (bool_decide (impl ev ∉ cancelled st)) :: out). split; [|split; [by eapply ran_more|done]].
      cbn [Run_loop]. revert E1 E2. generalize (ProcessOneEvent Notify), (Run_loop Notify fuel). intros P L E1 E2.
      unfold events. hstep. rewrite Eq. hstep. rewrite E. hstep. by rewrite E1, E2.
Qed.

Lemma Run_ok I st l fuel : program_inv I -> I (set_stop false st) l -> sim_ok st l -> on_time l -> exists finished st' l' out,
  Run Notify fuel st = Ok (finished, st', out) /\ ran st l st' l' out /\ I st' l' /\
  (finished = true <-> l' = [] \/ m_stop st' = true).
Proof.
  intros HI Hi Hok Ht. assert (sim_ok (set_stop false st) l) as Hok0 by by destruct Hok.
  destruct (loop_ok I HI fuel _ l Hi Hok0 Ht) as (fin & st' & l' & out & E & Hran & Hi' & _ & Hfin).
  exists fin, st', l', out. split; [|split; [by destruct Hran|done]].
  unfold Run, events. revert E. generalize (Run_loop Notify fuel). intros L E. hstep. fold (set_stop false st). rewrite E.
  destruct fin; hstep; [|by rewrite ?app_nil_r].
  destruct (rn_ok _ _ _ _ _ Hran) as [(q & Eq & Hq) _ _ _ _ Hcount _].
  rewrite Eq. hstep. assert (negb (IsEmpty q) || (m_unscheduledEvents st' =? 0) = true) as ->.
  { rewrite (represents_IsEmpty _ _ _ Hq). case_bool_decide as El; [|done]. rewrite Hcount, El. done. }
  hstep. by rewrite ?app_nil_r.
Qed.
End program.

(** ** Results *)

Section results.
Context {S : Type} {HS : Scheduler S} {HQ : EventQueue S}.
Implicit Types (st : Sim S) (l : list Event).

(** (C23) On any scheduler with the contract, for a program whose events make
    only legal calls ([program_inv], [may]: no negative delay, times below the
    horizon of the scheduler, an event number and a place in the queue left,
    and [Remove] only where the scheduler has it, on ids it issued): [Run], up
    to any number of events, meets no false assertion; events are handled in the
    order of their times and, at the same time, in the order they were
    scheduled, none twice and none that was past; an event that was pending has
    been handled, is still pending, or was cancelled; only cancelled ones are
    skipped; and the run ends exactly when no event is left or the program stops
    it.  (An illegal call can stop the simulator: [context_schedule_past],
    where ScheduleWithContext takes a negative delay.) *)
Theorem simulation_in_order Notify (I : Sim S -> list Event -> Prop) st l fuel :
  program_inv Notify I -> I (set_stop false st) l -> sim_ok st l -> on_time l ->
  exists finished st' l' out, Run Notify fuel st = Ok (finished, st', out) /\ ran st l st' l' out /\ I st' l' /\
    (finished = true <-> l' = [] \/ m_stop st' = true).
Proof. apply Run_ok. Qed.

(** (C26) What the id of an event says about it later: after it was scheduled and the
    simulation has run, it has expired exactly if the event was handled or
    cancelled; and as long as it has not, [GetDelayLeft] is the time until
    then. *)
Theorem event_id_expires Notify (I : Sim S -> list Event -> Prop) st l fuel time event :
  sim_ok st l -> may st l (CallSchedule time event) -> event <> 0 -> on_time l ->
  exists id st1, Schedule time event st = Ok (id, st1, []) /\
    (program_inv Notify I -> I (set_stop false st1) (after st l (CallSchedule time event)) ->
     exists finished st' l' out, Run Notify fuel st1 = Ok (finished, st', out) /\
       (IsExpired id st' = true <-> event_of id ∈ handled out \/ event ∈ cancelled st') /\
       (IsExpired id st' = false -> event_of id ∈ l' /\ GetDelayLeft id st' = m_currentTs st + time - m_currentTs st')).
Proof.
  intros Hok Hmay H0 Ht. destruct (perform_ok st l _ Hok Hmay) as (st1 & E & Hok1 & _ & _).
  destruct Hmay as (Ht0 & Hh & Hroom). destruct (insert_new_ok st l time (m_currentContext st) event Hok Ht0 Hh Hroom) as (st1' & E' & _).
  pose proof (horizon_u64 (S := S)) as Hu64. pose proof (so_time _ _ Hok) as Htime.
  assert (Schedule time event st = Ok (mkEventId event (m_currentTs st + time) (m_currentContext st) (m_nextUid st), st1', [])) as Es.
  { unfold Schedule. revert E'. change (ts (new_event st time (m_currentContext st) event)) with (m_currentTs st + time).
    generalize (insert_new (S := S)). intros ins E'. hstep. rewrite !(proj2 (Z.leb_le _ _)) by lia. hstep.
    rewrite u64_small by (unfold is_u64; lia). rewrite (Z.add_comm time). unfold GetContext. by rewrite E'. }
  cbn [perform] in E. apply handler_bind_Ok in E as (id & s1 & o1 & o2 & Es' & [= -> _] & _). rewrite Es in Es'. injection Es' as <- -> _.
  eexists _, st1. split; [exact Es|]. intros HI Hi. set (id := mkEventId _ _ _ _). set (l1 := after st l _) in *.
  assert (on_time l1) as Ht1. { unfold l1, on_time. cbn [after]. rewrite Insert_Permutation. constructor; [done|exact Ht]. }
  destruct (Run_ok Notify I st1 l1 fuel HI Hi Hok1 Ht1) as (fin & st' & l' & out & E & Hran & _ & _).
  exists fin, st', l', out. split; [done|].
  assert (event_of id ∈ l1) as Hin by (unfold l1; cbn [after]; rewrite Insert_Permutation; left).
  pose proof (so_next _ _ Hok) as Hn. assert (m_uid id <> 2) as H2 by (cbn; lia). pose proof (IsExpired_past st' id H2 H0) as Hx.
  assert (event_of id ∈ handled out -> past st' (event_of id)) as Hdone by (intros Hd; pose proof (rn_done _ _ _ _ _ Hran) as F; rewrite Forall_forall in F; by apply F).
  assert (event_of id ∈ l' -> ~ past st' (event_of id)) as Hpend by (apply pending_not_past, Hran).
  pose proof (rn_kept _ _ _ _ _ Hran _ Hin) as Hkept. change (impl (event_of id)) with event in Hkept. change (m_eventImpl id) with event in Hx.
  split.
  - destruct (IsExpired id st'); [|split; [done|]; tauto]. split; [intros _|done]. destruct (decide (event ∈ cancelled st')); [by right|].
    destruct Hkept as [|[|]]; [by left| |done]. exfalso. assert (true = false); [|done]. apply Hx. tauto.
  - intros Ex. pose proof Ex as Ex'. apply Hx in Ex' as [Hnp Hnc]. split; [tauto|]. unfold GetDelayLeft. rewrite Ex.
    change (m_ts id) with (m_currentTs st + time). apply u64_small. pose proof (so_time _ _ (rn_ok _ _ _ _ _ Hran)) as Ht'.
    unfold past in Hnp. change (ts (event_of id)) with (m_currentTs st + time) in Hnp. unfold is_u64. lia.
Qed.

(** The timers of Node, which only know the time of their event, agree with the
    simulator but for other events of the same instant. *)
Lemma timer_agrees st l id : sim_ok st l -> issued st l id -> m_uid id <> 2 -> m_eventImpl id <> 0 -> m_eventImpl id ∉ cancelled st ->
  m_ts id <> Now st \/ m_uid id <= m_currentUid st -> IsExpired id st = negb (IsRunning (Now st) (Some (m_ts id))).
Proof.
  intros Hok Hiss H2 H0 Hc Hinst. unfold Now, IsRunning in *. pose proof (IsExpired_past st id H2 H0) as Hx. unfold past in Hx.
  change (ts (event_of id)) with (m_ts id) in Hx. change (uid (event_of id)) with (m_uid id) in Hx.
  destruct (Z.ltb_spec (m_currentTs st) (m_ts id)); cbn [negb]; [apply Hx; split; [lia|done]|].
  destruct (IsExpired id st); [done|]. destruct (proj1 Hx eq_refl) as [Hp _]. lia.
Qed.

(** (C27) For a program whose events make only legal calls: if a number that
    cannot grow without end drops with every event, the run ends; that many
    events are enough. *)
Theorem simulation_ends Notify (J : nat -> Sim S -> list Event -> Prop) st l n :
  (forall n st ev q l, J n st (ev :: l) -> sim_ok (taken ev q st) l -> exists st' l' m,
    Invoke Notify (impl ev) (taken ev q st) = Ok (tt, st', []) /\ calls (taken ev q st) l st' l' /\ (m < n)%nat /\ J m st' l') ->
  J n (set_stop false st) l -> sim_ok st l -> on_time l ->
  exists st' l' out, Run Notify n st = Ok (true, st', out) /\ ran st l st' l' out /\ (l' = [] \/ m_stop st' = true).
Proof.
  intros HJ Hj Hok Ht. assert (program_inv Notify (fun st l => exists n, J n st l)) as HI.
  { intros st1 ev q l1 [k Hk] Htak. destruct (HJ k st1 ev q l1 Hk Htak) as (st' & l' & m & E1 & E2 & _ & E3). eauto 10. }
  assert (forall m n st l, (n <= m)%nat -> J n st l -> sim_ok st l -> on_time l -> exists st' out, Run_loop Notify m st = Ok (true, st', out)) as Hloop.
  { clear st l n Hj Hok Ht. induction m as [|m IH]; intros n st l Hn Hj Hok Ht; pose proof Hok as [(q & Eq & Hq) _ _ _ _ _ _];
      pose proof (represents_IsEmpty _ _ _ Hq) as He; (destruct (IsEmpty q || m_stop st) eqn:E;
        [exists st, []; cbn [Run_loop]; unfold events; hstep; rewrite Eq; hstep; by rewrite E|]);
      (destruct l as [|ev l]; [rewrite He in E; done|]);
      (destruct (process_ok Notify (fun st' l' => exists k, (k < n)%nat /\ J k st' l') st ev l Hok Ht) as (st1 & l1 & q1 & E1 & Hok1 & Ht1 & (k & Hk & Hj1) & _ & _);
        [intros q1 Htak; destruct (HJ n st ev q1 l Hj Htak) as (st' & l' & k & ? & ? & ? & ?); exists st', l'; eauto|]); [lia|].
    destruct (IH k st1 l1 ltac:(lia) Hj1 Hok1 Ht1) as (st2 & out & E2). eexists st2, _.
    cbn [Run_loop]. revert E1 E2. generalize (ProcessOneEvent Notify), (Run_loop Notify m). intros P L E1 E2.
    unfold events. hstep. rewrite Eq. hstep. rewrite E. hstep. rewrite E1, E2. done. }
  destruct (Run_ok Notify _ st l n HI (ex_intro _ n Hj) Hok Ht) as (fin & st' & l' & out & E & Hran & _ & Hfin).
  exists st', l', out. assert (sim_ok (set_stop false st) l) as Hok0 by by destruct Hok.
  destruct (Hloop n n _ l ltac:(lia) Hj Hok0 Ht) as (st2 & out2 & E2). destruct fin; [split; [done|split; [done|by apply Hfin]]|exfalso].
  revert E E2. unfold Run, events. generalize (Run_loop Notify n). intros L E E2. revert E. hstep. fold (set_stop false st). rewrite E2. hstep.
  repeat case_match; congruence.
Qed.
End results.

(** ** Another scheduler *)

Lemma Insert_last ev l : StronglySorted before (l ++ [ev]) -> uid ev ∉ map uid l -> ListScheduler.Insert ev l = l ++ [ev].
Proof.
  intros Hs Hu. apply sorted_unique; [|done|by rewrite Insert_Permutation, Permutation_app_comm].
  apply Insert_sorted; [by apply StronglySorted_app_1_l in Hs|done].
Qed.

Section transfer.
Context {S S' : Type} {HS : Scheduler S} {HQ : EventQueue S} {HS' : Scheduler S'} {HQ' : EventQueue S'}.

Lemma transfer_ok l : forall now (q : S) (q' : S') l', represents now q l -> represents 0 q' l' -> pending 0 (l' ++ l) ->
  Z.of_nat (length (l' ++ l)) <= capacity (S := S') -> Forall (fun ev => ts ev < horizon (S := S')) l ->
  exists q'', transfer (length l) q q' = Ok q'' /\ represents 0 q'' (l' ++ l).
Proof.
  induction l as [|ev l IH]; intros now q q' l' Hq Hq' Hp Hcap Ht; cbn [length transfer]; rewrite (represents_IsEmpty _ _ _ Hq).
  - rewrite bool_decide_true by done. exists q'. by rewrite app_nil_r.
  - rewrite bool_decide_false by done. destruct (represents_RemoveNext _ q ev l Hq) as (q1 & -> & Hq1). cbn [mbind result_bind].
    apply Forall_cons in Ht as [Hev Ht]. replace (l' ++ ev :: l) with ((l' ++ [ev]) ++ l) in * by (by rewrite <- app_assoc).
    pose proof Hp as [P1 P2 P3].
    assert (uid ev ∉ map uid l') as Hu.
    { intros Hin. rewrite !map_app in P3. apply NoDup_app in P3 as (P3 & _ & _). apply NoDup_app in P3 as (_ & P3 & _). apply (P3 (uid ev) Hin). left. }
    destruct (represents_Insert 0 q' l' ev Hq') as (q2 & -> & Hq2); [|done|rewrite !length_app in Hcap; cbn in Hcap; lia|].
    { rewrite Forall_forall in P2. specialize (P2 ev). cbn in P2. split; [apply P2; rewrite !elem_of_app; left; right; left|done]. }
    cbn [mbind result_bind]. rewrite Insert_last in Hq2; [|by apply StronglySorted_app_1_l in P1|done].
    by apply (IH (ts ev) q1 q2 (l' ++ [ev])).
Qed.

(** Exchanging the scheduler loses nothing: what was pending is pending, in the
    same order, and clock, uids and counters are as before. *)
Theorem set_scheduler (st : Sim S) l : sim_ok st l -> Z.of_nat (length l) <= capacity (S := S') ->
  Forall (fun ev => ts ev < horizon (S := S')) l -> m_currentTs st < horizon (S := S') ->
  exists st' : Sim S', SetScheduler st = Ok st' /\ sim_ok st' l /\ m_currentTs st' = m_currentTs st /\ cancelled st' = cancelled st /\
    forall id, IsExpired id st' = IsExpired id st.
Proof.
  intros Hok Hcap Ht Hnow. pose proof (sim_pending _ _ Hok) as Hp. pose proof Hok as [(q & Eq & Hq) H1 H2 H3 H4 H5 H6].
  assert (pending 0 l) as Hp0 by (destruct Hp as [P1 P2 P3]; split; [done| |done]; eapply Forall_impl; [exact P2|]; cbn; intros; lia).
  destruct (transfer_ok l _ q new_scheduler [] Hq represents_new Hp0 Hcap Ht) as (q' & E & Hq'). unfold SetScheduler.
  rewrite Eq, H5, Nat2Z.id, E. eexists. split; [reflexivity|]. split; [|done].
  split; cbn; [|done|done|done|done|done|lia]. exists q'. split; [done|]. eapply represents_later; [exact Hq'|lia|done].
Qed.
End transfer.

(** A new simulator that has been given a scheduler. *)
Definition new_simulator (S : Type) `{Scheduler S} : Sim S := set_events new_scheduler MakeSimulator.
Lemma new_simulator_ok {S} `{EventQueue S} : 0 < horizon (S := S) -> sim_ok (new_simulator S) [].
Proof. intros Hh. split; cbn; [exists new_scheduler; split; [done|apply represents_new]|done|done|lia|lia|done|lia]. Qed.
Lemma SetScheduler_new {S S'} `{Scheduler S} `{Scheduler S'} : SetScheduler (MakeSimulator (S := S)) = Ok (new_simulator S').
Proof. done. Qed.

(** ** Examples *)

Lemma Schedule_next {S} `{Scheduler S} (st st' : Sim S) time event o : perform (CallSchedule time event) st = Ok (tt, st', o) ->
  m_nextUid st' = u32 (m_nextUid st + 1).
Proof.
  cbn [perform]. intros (id & s1 & o1 & o2 & Es & [= -> _] & _)%handler_bind_Ok. revert Es. unfold Schedule, insert_new, events. hstep.
  destruct (0 <=? _); cbn; [|done]. destruct (_ <=? _); cbn; [|done]. destruct (m_events st); cbn; [|done].
  destruct (Insert _ _); cbn; [|done]. by intros [= _ <- _].
Qed.

Section example.
Context {S : Type} {HS : Scheduler S} {HQ : EventQueue S} (Hhor : 10000 <= horizon (S := S)) (Hcap : 10000 <= capacity (S := S)).

(** Events 1, 2 and 3 schedule the next, ten nanoseconds later. *)
Definition ticking (event : Z) : handler (Sim S) sim_action unit :=
  if (1 <=? event) && (event <? 4) then _ ← Schedule 10 (event + 1); mret tt else mret tt.

(** How many events an event and those it leads to are. *)
Definition ticks (ev : Event) : nat := Datatypes.S (Z.to_nat (4 - impl ev)).
Definition ticking_inv (n : nat) (st : Sim S) (l : list Event) : Prop :=
  n = sum_list_with ticks l /\ m_nextUid st + Z.of_nat n <= 1000 /\ Forall (fun ev => ts ev + 10 * Z.of_nat (ticks ev) <= 1000) l.

Lemma ticks_length l : (length l <= sum_list_with ticks l)%nat.
Proof using. induction l as [|ev l IH]; cbn [length sum_list_with]; [lia|]. assert (1 <= ticks ev)%nat by (unfold ticks; lia). lia. Qed.

Lemma ticking_step n st ev q l : ticking_inv n st (ev :: l) -> sim_ok (taken ev q st) l -> exists st' l' m,
  Invoke ticking (impl ev) (taken ev q st) = Ok (tt, st', []) /\ calls (taken ev q st) l st' l' /\ (m < n)%nat /\ ticking_inv m st' l'.
Proof using Hcap Hhor.
  intros (-> & Hn & Ht) Hok. cbn [sum_list_with] in *. apply Forall_cons in Ht as [Hev Ht]. pose proof (ticks_length l) as Hl.
  pose proof (so_next _ _ Hok) as Hnext. cbn in Hnext.
  assert (exists st' l' m, Ok (tt, taken ev q st, []) = Ok (tt, st', [] : list sim_action) /\ calls (taken ev q st) l st' l' /\
    (m < ticks ev + sum_list_with ticks l)%nat /\ ticking_inv m st' l') as Hidle.
  { eexists _, l, (sum_list_with ticks l). split; [reflexivity|]. split; [constructor|]. split; [unfold ticks; lia|]. split; [done|]. split; [|done]. cbn. lia. }
  unfold Invoke, ticking. unfold mbind at 1, handler_bind at 1, get. destruct (IsCancelled (impl ev) (taken ev q st)); [done|].
  destruct ((1 <=? impl ev) && (impl ev <? 4)) eqn:E; [|done]. apply andb_true_iff in E as [E1 E2].
  assert (may (taken ev q st) l (CallSchedule 10 (impl ev + 1))) as Hmay.
  { cbn. unfold ticks in Hev. split; [lia|]. split; [lia|]. split; cbn; lia. }
  destruct (perform_ok _ l _ Hok Hmay) as (st' & E & Hok' & _). cbn [perform] in E. rewrite E.
  exists st', (after (taken ev q st) l (CallSchedule 10 (impl ev + 1))), (sum_list_with ticks (after (taken ev q st) l (CallSchedule 10 (impl ev + 1)))).
  split; [done|]. split; [econstructor; [exact Hmay|exact E|constructor]|]. cbn [after]. unfold ticking_inv. rewrite Insert_Permutation.
  set (new := new_event _ _ _ _). assert (Datatypes.S (ticks new) = ticks ev) as Et by (unfold ticks; cbn; lia).
  cbn [sum_list_with]. split; [lia|]. split; [done|]. split.
  - rewrite (Schedule_next _ _ _ _ _ E). change (m_nextUid (taken ev q st)) with (m_nextUid st). rewrite u32_small by (unfold is_u32; lia). lia.
  - constructor; [|done]. change (ts new) with (ts ev + 10). lia.
Qed.

Lemma ticking_program : program_inv ticking (fun st l => exists n, ticking_inv n st l).
Proof using Hcap Hhor.
  intros st ev q l [n Hn] Htak. destruct (ticking_step n st ev q l Hn Htak) as (st' & l' & m & E1 & E2 & _ & E3). eauto 10.
Qed.

(** The simulator with the first event scheduled for time 5. *)
Lemma ticking_start : let l := after (new_simulator S) [] (CallSchedule 5 1) in may (new_simulator S) [] (CallSchedule 5 1) /\
  exists st, perform (CallSchedule 5 1) (new_simulator S) = Ok (tt, st, []) /\ sim_ok st l /\ on_time l /\ ticking_inv 4 (set_stop false st) l.
Proof using Hcap Hhor.
  assert (sim_ok (new_simulator S) []) as Hok by (apply new_simulator_ok; lia).
  assert (may (new_simulator S) [] (CallSchedule 5 1)) as Hmay by (cbn; split; [lia|]; split; [lia|]; split; cbn; lia).
  intros l. split; [exact Hmay|]. destruct (perform_ok _ [] _ Hok Hmay) as (st & E & Hok' & Ha & _). exists st.
  split; [done|]. split; [done|]. split; [constructor; [cbn; lia|constructor]|]. split; [done|]. split; [|constructor; [vm_compute; done|constructor]].
  cbn [m_nextUid set_stop]. rewrite (Schedule_next _ _ _ _ _ E). done.
Qed.
End example.

Lemma simulation_in_order_witness : exists st l st' l' out, perform (CallSchedule 5 1) (new_simulator EventMap) = Ok (tt, st, []) /\
  Run ticking 10 st = Ok (true, st', out) /\ ran st l st' l' out /\ map ts (handled out) = [5; 15; 25; 35].
Proof.
  assert (program_inv ticking (fun (st : Sim EventMap) l => exists n, ticking_inv n st l)) as HP by by apply ticking_program.
  destruct (ticking_start (S := EventMap)) as (_ & st & E & Hok & Ht & Hi); [done|done|].
  destruct (simulation_in_order ticking _ st _ 10 HP (ex_intro (fun n => ticking_inv n (set_stop false st) _) 4%nat Hi) Hok Ht)
    as (fin & st' & l' & out & E' & Hran & _ & _).
  vm_compute in E. injection E as <-. pose proof E' as Ec. vm_compute in Ec. injection Ec as <- _ Eout.
  do 5 eexists. split; [vm_compute; reflexivity|]. split; [exact E'|]. split; [exact Hran|]. by rewrite <- Eout.
Defined.

Lemma event_id_expires_witness : exists id st1 st' out, Schedule 5 1 (new_simulator EventHeap) = Ok (id, st1, []) /\
  Run ticking 2 st1 = Ok (false, st', out) /\ IsExpired id st1 = false /\ IsExpired id st' = true /\ event_of id ∈ handled out.
Proof.
  assert (program_inv ticking (fun (st : Sim EventHeap) l => exists n, ticking_inv n st l)) as HP by by apply ticking_program.
  destruct (ticking_start (S := EventHeap)) as (Hmay & st & E & Hok & Ht & Hi); [done|done|].
  assert (sim_ok (new_simulator EventHeap) []) as Hok0 by by apply new_simulator_ok.
  destruct (event_id_expires ticking (fun st l => exists n, ticking_inv n st l) (new_simulator EventHeap) [] 2 5 1 Hok0 Hmay ltac:(done) ltac:(constructor))
    as (id & st1 & Es & Hrun).
  cbn [perform] in E. apply handler_bind_Ok in E as (id' & s1 & o1 & o2 & Es' & [= -> _] & _). rewrite Es in Es'. injection Es' as _ <- _.
  destruct (Hrun HP (ex_intro (fun n => ticking_inv n (set_stop false st1) _) 4%nat Hi)) as (fin & st' & l' & out & E' & Hx & _).
  vm_compute in Es. injection Es as <- <-. exists (mkEventId 1 5 0xffffffff 4). pose proof E' as Ec. vm_compute in Ec. injection Ec as <- Est Eout.
  do 3 eexists. split; [vm_compute; reflexivity|]. split; [exact E'|]. split; [reflexivity|]. rewrite <- Eout, <- Est in *. split; [reflexivity|]. by left.
Defined.

Lemma simulation_ends_witness : exists st st' out, perform (CallSchedule 5 1) (new_simulator CalendarScheduler.Calendar) = Ok (tt, st, []) /\
  Run ticking 4 st = Ok (true, st', out).
Proof.
  destruct (ticking_start (S := CalendarScheduler.Calendar)) as (_ & st & E & Hok & Ht & Hi); [done|done|].
  destruct (simulation_ends ticking ticking_inv st (after (new_simulator CalendarScheduler.Calendar) [] (CallSchedule 5 1)) 4) as (st' & l' & out & E' & _);
    [by apply ticking_step|done..|].
  by exists st, st', out.
Defined.

Lemma set_scheduler_witness : exists (st : Sim (list Event)) (st' : Sim EventHeap), perform (CallSchedule 5 1) (new_simulator (list Event)) = Ok (tt, st, []) /\
  SetScheduler st = Ok st' /\ m_events st' = Some [HeapScheduler.empty_event; mkEvent 1 (mkKey 5 4 0xffffffff)].
Proof.
  destruct (ticking_start (S := list Event)) as (_ & st & E & Hok & Ht & Hi); [done|done|].
  destruct (set_scheduler (S' := EventHeap) st _ Hok) as (st' & E' & _); [done|exact Ht|vm_compute in E; by injection E as <-|].
  exists st, st'. split; [done|]. split; [done|]. vm_compute in E. injection E as <-. vm_compute in E'. by injection E' as <-.
Defined.

(** With the heap scheduler, [Simulator::Remove] can bring the simulator down:
    the events scheduled here for 1, 10, 2, 13, 12, ... are handled until 10
    comes before 4, and the clock would go back. *)
Definition quiet {S} (event : Z) : handler (Sim S) sim_action unit := mret tt.
Definition remove_thirteen {S} `{Scheduler S} : handler (Sim S) sim_action bool :=
  _ ← for_loop [1; 10; 2] (fun t => _ ← Schedule t t; mret tt);
  id ← Schedule 13 13;
  _ ← for_loop [12; 3; 20; 14; 15; 16; 17; 4] (fun t => _ ← Schedule t t; mret tt);
  _ ← Remove id;
  Run quiet 100.
Lemma heap_simulator_stops : remove_thirteen (new_simulator EventHeap) = Fault AssertFailed /\
  (exists st out, remove_thirteen (new_simulator EventMap) = Ok (true, st, out)).
Proof. split; [vm_compute; reflexivity|]. do 2 eexists. vm_compute. reflexivity. Qed.

(** [ScheduleWithContext] accepts a time in the past, where [Schedule] has
    assertions; the simulator stops when it comes to the event. *)
Definition into_the_past {S} `{Scheduler S} (event : Z) : handler (Sim S) sim_action unit :=
  if event =? 1 then ScheduleWithContext 0 (-5) 2 else mret tt.
Lemma context_schedule_past :
  (_ ← Schedule 7 1; Run into_the_past 10) (new_simulator EventMap) = Fault AssertFailed.
Proof. vm_compute. reflexivity. Qed.
